(* ===== verification/_CoqProject ===== *)
-Q . S2P
Prelude.v
Config.v
Doubles.v
CText.v
Env.v
Types.v
FsEnv.v
FcbEnv.v
Events.v
Cursor.v
KvFormat.v
KvIndex.v
Kv.v
KvIndexSpec.v
KvSpec.v
KvLaws.v
KvBulk.v
KvReload.v
Core.v
FsSpec.v
TsFormat.v
TsStore.v
TsSegment.v
TsCursor.v
TsRecover.v
TsOps.v
TsFcb.v
Doc.v
DocFile.v
DocQuery.v
Export.v
Shell.v
ShellKv.v
ShellTs.v
ShellDoc.v
CoreSpec.v
TsFormatSpec.v
TsSpec.v
TsFileSpec.v
TsInv.v
TsMoves.v
TsAccount.v
TsStream.v
TsFlushSpec.v
TsAppendSpec.v
TsRecoverSpec.v
TsWatermarkSpec.v
TsCursorSpec.v
TsWalkSpec.v
TsFcbSpec.v
TsAggSpec.v
DocSpec.v
DocFieldSpec.v
DocHandleSpec.v
DocMatchSpec.v
DocDecode.v
DocParseSpec.v
DocStep.v
DocSaveSpec.v
DocOpenSpec.v
DocOps.v
DocQuerySpec.v
DocQueryAll.v
ExportSpec.v
System.v
ShellTextSpec.v
ShellSpec.v
ShellKvSpec.v
Sim.v
SimFs.v
SimData.v
CoreProps.v
KvProps.v
TsFormatProps.v
TsProps.v
TsFcbProps.v
DocProps.v
ExportProps.v
ShellProps.v
SystemProps.v
