(* ===== verification/Prelude.v ===== *)
(** * ZephyrDB: a verification library

    ZephyrDB is an embedded database for the Zephyr RTOS, in C: a key-value
    store on NVS or ZMS, time-series streams on LittleFS or on a flash circular
    buffer, and documents on LittleFS, with one instance structure, one
    recursive mutex, an event bus and durability statistics around them, and a
    shell in front of them. This library models the implementation under
    [src/] as executable Gallina and proves what its operations promise.

    ** How the model is built

    An operation is a function of the state monad [M W] of this file, where [W]
    is [Types.world]: the instance [zdb_t], the kernel, the key-value backend,
    the file system, and the log of delivered events. The shell's state is the
    world with the statics of its file and the lines it printed. Guards, early returns and
    the order of calls are those of the source, and its names are kept. A
    pointer that may be NULL is an [option]; what is stored through an output
    parameter is part of the result; a struct passed by pointer and owned by
    the caller (a document handle, a cursor) is taken and returned by value. A
    slot of the stream table is its index. Fixed-width integers are [Z] with
    their wrap-around written out ([u16], [u32], [u64], [i64]); [size_t] is
    [nat], with [Config.size_t] and [Config.off_t] at the places where the
    source wraps or converts, for any target width [SIZE_WIDTH] of at least 32;
    [double] is the Standard Library's executable binary64 ([Doubles]).

    Kconfig symbols are the class [Config.Config] (their ranges [ConfigOk]), so
    the theorems hold for every build: with and without events, zbus,
    statistics, rollover, delta encoding and the persisted index, for NVS and
    for ZMS. The two backends of the time-series store exclude each other at
    build time. The branches of the FCB one are the definitions [fcb_*] of
    [TsFcb], over a world that has [fcb_store] in the place of the file system.

    [wp m Q w] says that [m], run in [w], ends in a result and a world that
    satisfy [Q]. Programs are total functions; where the length of a loop
    depends on storage it takes fuel, and the theorems about it give fuel that
    is enough, so that running out is excluded and not assumed away:
    - [Kv.iter_next_loop], [reset_loop]: the number of index entries;
    - [TsSegment.discard_oldest], [TsCursor.next_segment_loop],
      [read_file_record]: the number of segments left, which the code's own
      loops count down;
    - [TsCursor.file_loop]: one more than the samples ahead
      ([ts_cursor_walks]); [TsRecover.recover_loop]: the records of the file;
      [TsFcb.fcb_loop]: one more than the entries ahead ([fcb_cursor_walks]);
    - [DocQuery.scan_docs], [scan_collections]: the entries of the directory.

    ** What is outside the model, as interfaces

    [Env] has the classes for the kernel (mutex, slabs, heap, clock, work
    queue, zbus), for the NVS/ZMS backend and for CRC-32; [FsEnv] the one for
    Zephyr's [fs_*] calls, [FcbEnv] the one for its [fcb_*] and [flash_area_*]
    calls, [Export] the one for the flatcc builder ([Flatcc]). Their laws
    ([KernelLaws], [KvBackendLaws], [Crc32Laws], [FileSysLaws], [FcbLaws],
    [FlatccLaws]) let every call fail when its documentation does. What a theorem needs beyond that is a class it names: [LockLive] and
    [SlabLive] (a wait without timeout gets the mutex, a slab with free blocks
    serves one), [HeapLive], [KvReadsOk] (reads of the backend do not fail),
    [FsCloseOk] (closes do not fail; the source ignores several), [FsLive]
    (reading what is there does not fail), [FsDirLive] (listing a directory
    shows all of it), [FsRoom] (nor does writing fail),
    [FsReplace] (rename replaces its destination, as on LittleFS), [FsMissing]
    (opening what is missing reports it), [FcbLive] (reading entries does not
    fail) and [FlatccLive] (the builder has memory). [Sim], [SimFs],
    [TsFcbProps] and [ExportProps] have computing instances of all of them,
    [SimData] a stream and a document; the witnesses of the theorems run there.

    The conversions of the C library that the sources use ([snprintf],
    [sscanf], [strtoull], [strtoll], [strtod]) are definitions of [CText].

    ** Files

    - [Config]: Kconfig, status codes, errno ([zephyrdb.h], [zephyrdb_core.c]);
      [Types], [Cursor]: the structures of [zephyrdb.h] and
      [zephyrdb_internal.h], cursor reset and close.
    - [Events], [Core]: [zephyrdb_core.c] and [zephyrdb_eventing_zbus.c]:
      locking, health, deferred events and their publication, lifecycle,
      statistics and their export.
    - [KvFormat], [KvIndex], [Kv]: [zephyrdb_kv.c]: the record format, the
      backend adapter and the persisted index, the operations.
    - [TsFormat], [TsStore], [TsSegment], [TsCursor], [TsRecover], [TsOps]:
      [zephyrdb_ts.c]: record, header and watermark formats; slots and paths;
      headers, segments, rollover and flushing; cursors; recovery and
      watermark; open, close, append, flush, count and aggregate. [TsFcb]: the
      branches of the same file for a build on a flash circular buffer.
    - [Doc], [DocFile], [DocQuery]: [zephyrdb_doc.c]: handles and fields; the
      file format with save, open and delete; queries.
    - [Export]: the FlatBuffers exports of [zephyrdb_doc.c] and
      [zephyrdb_ts.c].
    - [CText], [Shell], [ShellKv], [ShellTs], [ShellDoc]: the commands of
      [zephyrdb_shell.c], [zephyrdb_shell_kv.c], [zephyrdb_shell_ts.c] and
      [zephyrdb_shell_doc.c], what they print included.
    - [KvIndexSpec], [KvSpec], [KvLaws], [KvBulk], [KvReload]: the abstract
      store [kv_lookup], a map from (namespace, key) to values, and the rules
      of the operations on it; the index contract [idx_step].
    - [FsSpec], [TsFormatSpec], [TsSpec], [TsFileSpec], [TsStream],
      [TsFlushSpec], [TsAppendSpec], [TsRecoverSpec], [TsWatermarkSpec],
      [TsCursorSpec], [TsWalkSpec], [TsAggSpec]: the frame [ts_step], the abstract
      stream [stream_samples], and the rules of flushing, appending, recovery,
      watermarks, walks and aggregates over it. [TsFcbSpec]: the log of
      samples of a flash circular buffer.
    - [TsInv], [TsMoves], [TsAccount]: the invariant of the stream table, the
      logic [moves] that follows a program's text to show that it is preserved,
      that logic for every walk over storage, and what opening, closing,
      counting, flushing and appending take and give back.
    - [DocSpec], [DocFieldSpec], [DocHandleSpec], [DocMatchSpec], [DocDecode],
      [DocParseSpec], [DocStep], [DocSaveSpec], [DocOpenSpec], [DocOps],
      [DocQuerySpec], [DocQueryAll]: the handle invariant [doc_ok] with its heap blocks, the
      meaning [dec_doc] of a document file, the abstract store [stored] from
      documents to contents, and the rules of the operations on it.
    - [ExportSpec]: documents and samples as values of FlatBuffers, and the
      rules of the builder's calls.
    - [System]: the instance under a program of calls. [app] is the state of
      the program with the instance's, [app_step] a call, [sys] and [app_ok]
      the invariant that composes those of the components.
    - [ShellTextSpec], [ShellSpec], [ShellKvSpec]: what is printed is read back
      as the same value; what every command [reports]; what the key-value
      commands store and print.
    - [CoreProps], [KvProps], [TsFormatProps], [TsProps], [TsFcbProps],
      [DocProps], [ExportProps], [ShellProps], [SystemProps]: the properties,
      each with its witness.

    ** What the properties say

    - Whatever program of calls runs on an initialised instance, in any order
      and with any outcome of the kernel, the backend and the volume, with the
      work queue running and the volume changing in between: the components'
      invariants hold together, the lock is free between calls, and every block
      of the heap and of the slabs belongs to the instance or to an object the
      program holds ([system_invariant]). The one exception is a cursor block
      for each failed aggregate query, which the source can lose. But for those,
      [zdb_deinit] leaves the memory as [zdb_init] found it
      ([system_releases]).
    - The key-value operations implement their updates of [kv_lookup], give
      back what they take, publish their events outside the lock, keep the
      index within its bounds, and refuse to overwrite a colliding key; the
      index is rebuilt after a reboot; iteration and namespace reset end.
    - A set announces that the index is full exactly when it left its key out.
    - The instance starts fresh and healthy, reports each change of health
      once and never under the lock, publishes what a locked section deferred
      exactly once.
    - Records, headers, watermarks and statistics read back as written, and
      decoding accepts only what encoding produces. Appending puts samples at
      the end of the abstract stream; flushing and closing move them to
      storage and lose exactly the segments rollover discards; recovery
      keeps the longest valid prefix of a file whose records fit its buffer; a cursor yields the admitted
      samples in order, in both directions; an aggregate over a window is the
      one of the admitted samples. On a flash circular buffer an append adds to
      the one log all streams share and without rollover loses nothing, and where
      only one stream has written to it a cursor on that stream walks its
      samples.
    - A document's handle is a map of uniquely named typed fields that owns
      exactly its memory. Saving replaces what is stored for one document and
      leaves every other, or fails and changes no stored document; what was
      saved is opened again; an interrupted save is finished by the next open;
      a delete is final. A query matches as documented, ends, reports only
      stored documents that match, within its bounds, misses none where the
      volume answers and memory suffices, and its result can be released
      without a leak.
    - An export hands out a FlatBuffer of exactly its document or sample, or
      fails for a reason its fields or the builder explain, and always gives
      back the builder's memory.
    - Every command of the shell leaves the mutex and the registered instance
      as they were and either succeeds without an error line or prints one and
      returns the errno that belongs to it. What [zdb kv set] stores,
      [zdb kv get] prints under each encoding; [zdb kv list] shows the first
      live keys and whether there are more.

    ** Bounds and assumptions to know

    Segment numbers are 32-bit and wrap in the source; the theorems on appends
    and flushes assume the current number is a few below that. The append
    theorems assume the active segment has the version of the build
    ([stream_ok]); walks assume the stream is [walkable]: every record decodes
    and the files fit [off_t]. The background thread of the work queue is the
    explicit step [TsOps.let_work_run], taken where the kernel schedules it.
    What the language leaves undefined is a parameter of [Config]. The source
    reads records of version 1, which have 28 bytes, into an array of 24 when it
    recovers a stream: what the array reads back as is then
    [Config.BUFFER_OVERRUN], and what else the write damages is not modelled, so
    the theorem on recovery is about records that fit; [system_invariant] takes
    the overrun to leave the rest of memory alone.

    Operations run one at a time: the recursive mutex serialises them, and
    interleavings inside unlocked sections are not modelled. Between two calls
    [app_step] lets the work queue run, the volume become any other and the
    kernel move on.

    [system_invariant] assumes what a program owes the API: a stream handle or
    a document is closed only once, a cursor is opened on an object that holds
    no walk, a stream has at most 255 handles (the count is 8 bits), and names
    are C strings. The ingest blocks must hold a record ([bo_record]).

    ** Not modelled

    - How Zephyr's shell splits a line into words and renders what a command
      prints: a command takes the words and gives the list of its print calls.
    - The errno with which FCB says that there is no entry is a parameter of
      [FcbEnv].
    - The calls of [app_step] do not include the exports, the shell and the
      build on a flash circular buffer; each has properties of its own.
    - Samples, tests, vendored code and build files. *)

From Stdlib Require Import ZArith Lia.

From stdpp Require Export base gmap numbers option list.
From coqutil Require Export Byte.
Export list.
From coqutil Require Word.LittleEndianList.
From coqutil Require Datatypes.RecordSettersUsingExistingGetters.
Export RecordSettersUsingExistingGetters.RecordSetNotations1.
#[global] Arguments RecordSettersUsingExistingGetters.const {E} newValue _ /.

(** Sizes are used where the source converts them to wider integers. *)
Coercion Z.of_nat : nat >-> Z.

(** ** Bytes and C strings *)

Abbreviation byte := Byte.byte.

#[global] Instance byte_eq_dec : EqDecision byte := Byte.byte_eq_dec.

#[global] Instance byte_countable : Countable byte.
Proof.
  refine (inj_countable Byte.to_N Byte.of_N _). apply Byte.of_to_N.
Defined.

(** A C string in memory, without its terminating NUL; [strlen] is [length].
    A NULL pointer is [None] of [option cstring]. *)
Abbreviation cstring := (list byte).

Definition nul : byte := Byte.x00.

Definition c_string (s : cstring) : Prop := nul ∉ s.

#[global] Instance c_string_dec s : Decision (c_string s).
Proof. unfold c_string. apply _. Defined.

(** The unsigned value of the byte at offset [i] of a buffer, 0 outside it. *)
Definition u8_at (buf : list byte) (i : nat) : Z :=
  byte.unsigned (default nul (buf !! i)).

(** Little-endian loads and stores of [n]-byte integers. *)
Definition put_le (n : nat) (v : Z) : list byte := LittleEndianList.le_split n v.
Definition get_le (n : nat) (buf : list byte) (off : nat) : Z :=
  LittleEndianList.le_combine (take n (drop off buf)).

(** [memcpy (&buf[off], data, len)] on a buffer held as a list. *)
Definition buf_write (buf : list byte) (off : nat) (data : list byte) : list byte :=
  take off buf ++ data ++ drop (off + length data) buf.

(** [strncpy (dst, src, n)] followed by writing the terminator at [dst[n]]. *)
Definition strncpy_trunc (n : nat) (src : cstring) : cstring := take n src.

(** Fixed-width wrap-around. *)
Definition u16 (z : Z) : Z := (z mod 2 ^ 16)%Z.
Definition u32 (z : Z) : Z := (z mod 2 ^ 32)%Z.
Definition u64 (z : Z) : Z := (z mod 2 ^ 64)%Z.
(** Reinterpretation of a 64-bit pattern as a signed integer. *)
Definition i64 (z : Z) : Z :=
  let u := u64 z in if (u <? 2 ^ 63)%Z then u else (u - 2 ^ 64)%Z.

(** ** A state monad with early returns written as ordinary conditionals *)

Definition M (W A : Type) : Type := W → A * W.

Definition ret {W A} (a : A) : M W A := λ w, (a, w).
Definition bind {W A B} (m : M W A) (k : A → M W B) : M W B :=
  λ w, k (m w).1 (m w).2.

Declare Scope zdb_scope.
Delimit Scope zdb_scope with zdb.
Open Scope zdb_scope.

Notation "x ← y ; z" := (bind y (λ x, z))
  (at level 20, y at level 100, z at level 200) : zdb_scope.
Notation "' x ← y ; z" := (bind y (λ x, z))
  (at level 20, x pattern, y at level 100, z at level 200) : zdb_scope.
Notation "x ;; z" := (bind x (λ _, z))
  (at level 100, z at level 200, right associativity) : zdb_scope.

Definition mget {W} : M W W := λ w, (w, w).
Definition mgets {W A} (f : W → A) : M W A := λ w, (f w, w).
Definition mmodify {W} (f : W → W) : M W unit := λ w, (tt, f w).

(** Weakest preconditions: [wp m Q w] holds when running [m] from [w] ends in
    a result and a state that satisfy [Q]. Every program of the monad ends. *)
Definition wp {W A} (m : M W A) (Q : A → W → Prop) (w : W) : Prop :=
  Q (m w).1 (m w).2.

Section wp_rules.
  Context {W : Type}.
  Implicit Types w : W.

Lemma wp_ret {A} (a : A) (Q : A → W → Prop) w : Q a w → wp (ret a) Q w.
  Proof. done. Qed.

Lemma wp_bind {A B} (m : M W A) (k : A → M W B) Q w :
    wp m (λ a, wp (k a) Q) w → wp (bind m k) Q w.
  Proof. done. Qed.

Lemma wp_mono {A} (m : M W A) (P Q : A → W → Prop) w :
    wp m P w → (∀ a w', P a w' → Q a w') → wp m Q w.
  Proof. unfold wp. eauto. Qed.

Lemma wp_and {A} (m : M W A) (P Q : A → W → Prop) w :
    wp m P w → wp m Q w → wp m (λ a w', P a w' ∧ Q a w') w.
  Proof. done. Qed.

Lemma wp_get Q w : Q w w → wp mget Q w.
  Proof. done. Qed.

Lemma wp_gets {A} (f : W → A) Q w : Q (f w) w → wp (mgets f) Q w.
  Proof. done. Qed.

Lemma wp_modify (f : W → W) Q w : Q tt (f w) → wp (mmodify f) Q w.
  Proof. done. Qed.

Lemma wp_run {A} (m : M W A) (Q : A → W → Prop) w a w' :
    m w = (a, w') → wp m Q w → Q a w'.
  Proof. unfold wp. by intros ->. Qed.
End wp_rules.

Create HintDb zdb.

(** Case analysis on the outermost match or conditional of the goal. *)
Ltac split_match :=
  match goal with
  | |- context [match ?x with _ => _ end] =>
      lazymatch x with
      | context [match _ with _ => _ end] => fail
      | _ => destruct x eqn:?
      end
  end.

(** One step of a wp proof on the monad's own constructs. *)
Ltac wp_step :=
  lazymatch goal with
  | |- wp (ret _) _ _ => apply wp_ret
  | |- wp (bind _ _) _ _ => apply wp_bind
  | |- wp mget _ _ => apply wp_get
  | |- wp (mgets _) _ _ => apply wp_gets
  | |- wp (mmodify _) _ _ => apply wp_modify
  | |- wp (match ?x with _ => _ end) _ _ => destruct x eqn:?
  | |- wp (let '_ := ?x in _) _ _ => destruct x eqn:?
  end.
Ltac wp_steps := repeat (wp_step; simpl).

(** ** Shared lemmas *)

Lemma length_put_le n v : length (put_le n v) = n.
Proof. apply LittleEndianList.length_le_split. Qed.

Lemma get_put_le n v pre post off :
  off = length pre →
  get_le n (pre ++ put_le n v ++ post) off = (v mod 2 ^ (Z.of_nat n * 8))%Z.
Proof.
  intros ->. unfold get_le. rewrite drop_app_length.
  rewrite take_app_le by (rewrite length_put_le; lia).
  rewrite take_ge by (rewrite length_put_le; lia).
  apply LittleEndianList.le_combine_split.
Qed.

Lemma get_le_bound n buf off :
  (0 ≤ get_le n buf off < 2 ^ (8 * Z.of_nat n))%Z.
Proof.
  unfold get_le.
  pose proof (LittleEndianList.le_combine_bound (take n (drop off buf))) as [H1 H2].
  split; [done|]. eapply Z.lt_le_trans; [exact H2|].
  apply Z.pow_le_mono_r; [lia|]. rewrite length_take. lia.
Qed.

Lemma get_le_skip n a b off :
  length a ≤ off → get_le n (a ++ b) off = get_le n b (off - length a).
Proof. intros ?. unfold get_le. by rewrite drop_app_ge. Qed.

Lemma get_le_here n v post :
  get_le n (put_le n v ++ post) 0 = (v mod 2 ^ (Z.of_nat n * 8))%Z.
Proof. by apply (get_put_le n v []). Qed.

Lemma get_le_last n v : get_le n (put_le n v) 0 = (v mod 2 ^ (Z.of_nat n * 8))%Z.
Proof. rewrite <- (app_nil_r (put_le n v)). apply get_le_here. Qed.

(** Adjacent slices join. *)
Lemma slice_join {A} (l : list A) o a o' b :
  o' = o + a → take a (drop o l) ++ take b (drop o' l) = take (a + b) (drop o l).
Proof. intros ->. rewrite <- (take_take_drop _ a b). by rewrite drop_drop. Qed.

Lemma get_le_take n k buf off : off + n ≤ k → get_le n (take k buf) off = get_le n buf off.
Proof. intros ?. unfold get_le. by rewrite skipn_firstn_comm, take_take, Nat.min_l by lia. Qed.

Lemma u8_at_app_r pre buf i :
  u8_at (pre ++ buf) (length pre + i) = u8_at buf i.
Proof. unfold u8_at. by rewrite lookup_app_r, Nat.add_comm, Nat.add_sub by lia. Qed.

Lemma unsigned_of_Z_small z : (0 ≤ z < 256)%Z → byte.unsigned (byte.of_Z z) = z.
Proof.
  intros ?. rewrite byte.unsigned_of_Z. unfold byte.wrap.
  rewrite Z.mod_small; [done|]. lia.
Qed.

Lemma u8_at_bound buf i : (0 ≤ u8_at buf i < 256)%Z.
Proof. apply byte.unsigned_range. Qed.

Lemma length_buf_write buf off data :
  off + length data ≤ length buf → length (buf_write buf off data) = length buf.
Proof.
  intros. unfold buf_write.
  rewrite !length_app, length_take, length_drop. lia.
Qed.

Lemma i64_u64 z : (- 2 ^ 63 ≤ z < 2 ^ 63)%Z → i64 (u64 z) = z.
Proof.
  intros ?. unfold i64, u64. rewrite Z.mod_mod by lia.
  destruct (decide (0 ≤ z)%Z).
  - rewrite Z.mod_small by lia. destruct (Z.ltb_spec z (2^63)); lia.
  - rewrite <- (Z.mod_unique z (2^64) (-1) (z + 2^64)) by lia.
    destruct (Z.ltb_spec (z + 2^64) (2^63)); lia.
Qed.

Lemma i64_range z : (- 2 ^ 63 ≤ i64 z < 2 ^ 63)%Z.
Proof.
  unfold i64, u64. pose proof (Z.mod_pos_bound z (2 ^ 64)).
  destruct (Z.ltb_spec (z mod 2 ^ 64) (2 ^ 63)); lia.
Qed.

(** Reading one field of a layout written with [put_le] and [++]. *)
Ltac get_field :=
  rewrite <- ?app_assoc;
  repeat (rewrite get_le_skip by (rewrite length_put_le; lia);
          rewrite length_put_le; simpl Nat.sub);
  first [rewrite get_le_here | rewrite get_le_last].

Create Rewrite HintDb zdb_len.
#[export] Hint Rewrite length_put_le @length_app @length_take @length_drop : zdb_len.
