(* ===== verification/Config.v ===== *)
(** * Build configuration and the status codes every module shares

    The Kconfig symbols the sources test are projections of a class, so that a
    theorem holds for every build; a preprocessor conditional of the source is
    an [if] on the projection here. [ConfigOk] states the ranges Kconfig
    enforces on them. The errno numbers are those of the C library the
    firmware is built with (newlib numbering for the codes above 100). *)

From S2P Require Import Prelude.
From Stdlib Require String.
Export (notations) Strings.String.
#[local] Open Scope string_scope.

(** Literal strings as bytes. *)
Definition s2b (s : String.string) : list byte := String.list_byte_of_string s.
Arguments s2b s%_string.

(** ** Kconfig *)

Class Config := {
  CONFIG_ZDB_KV : bool;
  CONFIG_ZDB_KV_BACKEND_NVS : bool;
  CONFIG_ZDB_KV_BACKEND_ZMS : bool;
  CONFIG_ZDB_KV_PERSIST_INDEX : bool;
  CONFIG_ZDB_TS : bool;
  CONFIG_ZDB_TS_ROLLOVER : bool;
  CONFIG_ZDB_TS_DELTA_ENCODING : bool;
  CONFIG_ZDB_TS_AUTO_RECOVER : bool;
  CONFIG_ZDB_DOC : bool;
  CONFIG_ZDB_STATS : bool;
  CONFIG_ZDB_EVENTING : bool;
  CONFIG_ZDB_EVENTING_ZBUS : bool;
  CONFIG_ZDB_FLATBUFFERS : bool;
  CONFIG_FLATCC : bool;
  CONFIG_ZDB_MAX_KEY_LEN : nat;
  CONFIG_ZDB_KV_INDEX_MAX_ENTRIES : nat;
  CONFIG_ZDB_TS_STREAM_NAME_MAX_LEN : nat;
  CONFIG_ZDB_TS_MAX_STREAMS : nat;
  CONFIG_ZDB_TS_INGEST_BUFFER_BYTES : nat;
  CONFIG_ZDB_TS_INGEST_SLAB_BLOCK_SIZE : nat;
  CONFIG_ZDB_TS_MAX_AGG_POINTS : nat;
  CONFIG_ZDB_TS_MAX_RECOVERY_TRUNCATE_BYTES : nat;
  CONFIG_ZDB_TS_ROLLOVER_SEGMENT_BYTES : nat;
  CONFIG_ZDB_TS_ROLLOVER_MAX_SEGMENTS : nat;
  CONFIG_ZDB_TS_DIRNAME : list byte;
  CONFIG_ZDB_DOC_MAX_FIELD_NAME_LEN : nat;
  CONFIG_ZDB_DOC_MAX_STRING_LEN : nat;
  CONFIG_ZDB_DOC_MAX_BYTES_LEN : nat;
  CONFIG_ZDB_DOC_MAX_FIELD_COUNT : nat;
  CONFIG_ZDB_SCAN_YIELD_EVERY_N : nat;
  CONFIG_ZDB_TS_BACKEND_LITTLEFS : bool;
  CONFIG_ZDB_TS_BACKEND_FCB : bool;
  CONFIG_ZDB_TS_FCB_SECTOR_COUNT : nat;
  CONFIG_ZDB_TS_FCB_FLASH_AREA_ID : Z;
  CONFIG_ZDB_KV_IO_SLAB_BLOCK_SIZE : nat;
  CONFIG_SHELL_CMD_BUFF_SIZE : nat;
  (** The width of the target's [size_t] and [off_t]. *)
  SIZE_WIDTH : Z;
  (** What the target's conversion of an integral [double] to [int64_t] yields
      when the value is out of range, which the language leaves open. *)
  INT64_CAST_OVERFLOW : Z → Z;
  (** For which texts of numbers below the least normal one the C library's
      [strtod] reports a range error, which the language leaves open. *)
  STRTOD_TINY_ERANGE : list byte → bool;
  (** What is read back from a local array of that many bytes after more have
      been written to it, which the language leaves undefined. *)
  BUFFER_OVERRUN : nat → list byte → list byte;
}.

(** The ranges of Kconfig; a build with the key-value module selects exactly
    one of its two backends. *)
Class ConfigOk (C : Config) : Prop := {
  max_key_len_range : 8 ≤ CONFIG_ZDB_MAX_KEY_LEN ≤ 128;
  kv_index_range : 8 ≤ CONFIG_ZDB_KV_INDEX_MAX_ENTRIES ≤ 1024;
  ts_name_range : 8 ≤ CONFIG_ZDB_TS_STREAM_NAME_MAX_LEN ≤ 64;
  ts_streams_range : 1 ≤ CONFIG_ZDB_TS_MAX_STREAMS ≤ 16;
  ts_ingest_range : (64 ≤ Z.of_nat CONFIG_ZDB_TS_INGEST_BUFFER_BYTES ≤ 16384)%Z;
  ts_ingest_block_range : 16 ≤ CONFIG_ZDB_TS_INGEST_SLAB_BLOCK_SIZE ≤ 2048;
  ts_max_agg_range : 1 ≤ CONFIG_ZDB_TS_MAX_AGG_POINTS;
  ts_segment_range : (256 ≤ Z.of_nat CONFIG_ZDB_TS_ROLLOVER_SEGMENT_BYTES ≤ 1048576)%Z;
  ts_max_segments_range : 2 ≤ CONFIG_ZDB_TS_ROLLOVER_MAX_SEGMENTS ≤ 64;
  doc_name_range : 8 ≤ CONFIG_ZDB_DOC_MAX_FIELD_NAME_LEN ≤ 128;
  doc_string_range : (16 ≤ Z.of_nat CONFIG_ZDB_DOC_MAX_STRING_LEN ≤ 65536)%Z;
  doc_bytes_range : (16 ≤ Z.of_nat CONFIG_ZDB_DOC_MAX_BYTES_LEN ≤ 1048576)%Z;
  doc_count_range : (1 ≤ Z.of_nat CONFIG_ZDB_DOC_MAX_FIELD_COUNT ≤ 256)%Z;
  size_width_range : (32 ≤ SIZE_WIDTH)%Z;
  kv_io_block_range : 16 ≤ CONFIG_ZDB_KV_IO_SLAB_BLOCK_SIZE ≤ 1024;
  kv_one_backend : xorb CONFIG_ZDB_KV_BACKEND_NVS CONFIG_ZDB_KV_BACKEND_ZMS = true;
}.

(** Conversion to [size_t], and to the signed [off_t] of the same width. *)
Definition size_t `{Config} (z : Z) : nat := Z.to_nat (z mod 2 ^ SIZE_WIDTH)%Z.
Definition off_t `{Config} (n : nat) : Z :=
  if (Z.of_nat n <? 2 ^ (SIZE_WIDTH - 1))%Z then Z.of_nat n else (Z.of_nat n - 2 ^ SIZE_WIDTH)%Z.

(** ** Status codes ([zephyrdb.h]) *)

Inductive zdb_status_t :=
  | ZDB_OK | ZDB_ERR_INVAL | ZDB_ERR_NOMEM | ZDB_ERR_NOT_FOUND | ZDB_ERR_IO
  | ZDB_ERR_BUSY | ZDB_ERR_TIMEOUT | ZDB_ERR_UNSUPPORTED | ZDB_ERR_CORRUPT
  | ZDB_ERR_INTERNAL | ZDB_ERR_COLLISION.

#[global] Instance zdb_status_eq_dec : EqDecision zdb_status_t.
Proof. solve_decision. Defined.

Inductive zdb_health_t :=
  | ZDB_HEALTH_OK | ZDB_HEALTH_DEGRADED | ZDB_HEALTH_READONLY | ZDB_HEALTH_FAULT.

#[global] Instance zdb_health_eq_dec : EqDecision zdb_health_t.
Proof. solve_decision. Defined.

(** The enum's integer value, which the sources compare with [>=]. *)
Definition health_level (h : zdb_health_t) : nat :=
  match h with
  | ZDB_HEALTH_OK => 0 | ZDB_HEALTH_DEGRADED => 1
  | ZDB_HEALTH_READONLY => 2 | ZDB_HEALTH_FAULT => 3
  end.

(** ** errno *)

Definition ENOENT : Z := 2.
Definition EIO : Z := 5.
Definition EAGAIN : Z := 11.
Definition ENOMEM : Z := 12.
Definition EBUSY : Z := 16.
Definition ENODEV : Z := 19.
Definition EEXIST : Z := 17.
Definition EINVAL : Z := 22.
Definition ENOSPC : Z := 28.
Definition EBADMSG : Z := 77.
Definition ENAMETOOLONG : Z := 91.
Definition ETIMEDOUT : Z := 116.
Definition ENOTSUP : Z := 134.

(** [zdb_status_from_errno]: the sign of the argument is ignored. *)
Definition zdb_status_from_errno (err : Z) : zdb_status_t :=
  let e := if (err <? 0)%Z then (- err)%Z else err in
  if (e =? 0)%Z then ZDB_OK
  else if (e =? EINVAL)%Z then ZDB_ERR_INVAL
  else if (e =? ENOMEM)%Z then ZDB_ERR_NOMEM
  else if (e =? ENOENT)%Z then ZDB_ERR_NOT_FOUND
  else if (e =? EBUSY)%Z then ZDB_ERR_BUSY
  else if (e =? ETIMEDOUT)%Z then ZDB_ERR_TIMEOUT
  else if (e =? ENOTSUP)%Z then ZDB_ERR_UNSUPPORTED
  else ZDB_ERR_IO.

(** [zdb_status_str] and [zdb_health_str]; the [default] branch is for a value
    outside the enumeration, which the type has none of. *)
Definition zdb_status_str (status : zdb_status_t) : String.string :=
  match status with
  | ZDB_OK => "OK"%string
  | ZDB_ERR_INVAL => "EINVAL"%string
  | ZDB_ERR_NOMEM => "ENOMEM"%string
  | ZDB_ERR_NOT_FOUND => "NOT_FOUND"%string
  | ZDB_ERR_IO => "IO"%string
  | ZDB_ERR_BUSY => "BUSY"%string
  | ZDB_ERR_TIMEOUT => "TIMEOUT"%string
  | ZDB_ERR_UNSUPPORTED => "UNSUPPORTED"%string
  | ZDB_ERR_CORRUPT => "CORRUPT"%string
  | ZDB_ERR_INTERNAL => "INTERNAL"%string
  | ZDB_ERR_COLLISION => "COLLISION"%string
  end.

Definition zdb_health_str (health : zdb_health_t) : String.string :=
  match health with
  | ZDB_HEALTH_OK => "OK"%string
  | ZDB_HEALTH_DEGRADED => "DEGRADED"%string
  | ZDB_HEALTH_READONLY => "READONLY"%string
  | ZDB_HEALTH_FAULT => "FAULT"%string
  end.

(** ** Lemmas *)

(** Only 0 maps to success: no error of a backend is reported as one. *)
Lemma status_from_errno_ok err : zdb_status_from_errno err = ZDB_OK ↔ err = 0%Z.
Proof.
  unfold zdb_status_from_errno. split; [|by intros ->].
  destruct (Z.ltb_spec err 0);
    repeat match goal with |- context [(?a =? ?b)%Z] => destruct (Z.eqb_spec a b) end;
    try discriminate; lia.
Qed.

Lemma status_from_errno_neg err : (err < 0)%Z → zdb_status_from_errno err ≠ ZDB_OK.
Proof. intros ?. rewrite status_from_errno_ok. lia. Qed.

Lemma status_from_errno_not_found err :
  zdb_status_from_errno err = ZDB_ERR_NOT_FOUND ↔ (err = ENOENT ∨ err = - ENOENT)%Z.
Proof.
  unfold zdb_status_from_errno, ENOENT, EINVAL, ENOMEM, EBUSY, ETIMEDOUT, ENOTSUP.
  destruct (Z.ltb_spec err 0);
    repeat match goal with |- context [(?a =? ?b)%Z] => destruct (Z.eqb_spec a b) end;
    split; try discriminate; try lia; done.
Qed.

(** No errno maps to the codes the modules raise themselves. *)
Lemma status_from_errno_range err :
  zdb_status_from_errno err ≠ ZDB_ERR_COLLISION ∧
  zdb_status_from_errno err ≠ ZDB_ERR_CORRUPT ∧
  zdb_status_from_errno err ≠ ZDB_ERR_INTERNAL.
Proof.
  unfold zdb_status_from_errno.
  repeat match goal with |- context [(?a =? ?b)%Z] => destruct (a =? b)%Z end; done.
Qed.

#[export] Hint Resolve status_from_errno_neg : zdb.

Lemma size_t_small `{Config} z : (0 ≤ z < 2 ^ SIZE_WIDTH)%Z → Z.of_nat (size_t z) = z.
Proof. intros ?. unfold size_t. rewrite Z.mod_small by done. lia. Qed.

Lemma size_t_nat `{Config} (n : nat) : (Z.of_nat n < 2 ^ SIZE_WIDTH)%Z → size_t n = n.
Proof. intros ?. apply Nat2Z.inj. apply size_t_small. lia. Qed.

Lemma off_t_small `{Config} (n : nat) : (Z.of_nat n < 2 ^ (SIZE_WIDTH - 1))%Z → off_t n = n.
Proof. intros ?. unfold off_t. by destruct (Z.ltb_spec (Z.of_nat n) (2 ^ (SIZE_WIDTH - 1))); [|lia]. Qed.
