(* ===== verification/Doubles.v ===== *)
(** * C's [double]: IEEE 754 binary64

    The arithmetic the sources do on [double], through the Standard Library's
    executable specification of IEEE 754 (round to nearest, ties to even). *)

From Stdlib Require Import ZArith.
From Stdlib Require Export SpecFloat.
From S2P Require Import Prelude.

Abbreviation double := spec_float.

Definition d_of_Z (z : Z) : double := binary_normalize 53 1024 z 0 false.
Definition d_add (a b : double) : double := SFadd 53 1024 a b.
Definition d_div (a b : double) : double := SFdiv 53 1024 a b.
(** C's [a < b]; false when an operand is a NaN. *)
Definition d_lt (a b : double) : bool := SFltb a b.
(** C's [a == b]; false when an operand is a NaN. *)
Definition d_eq (a b : double) : bool := SFeqb a b.

(** The value of a 64-bit pattern: sign, biased exponent, fraction. *)
Definition d_of_bits (bits : Z) : double :=
  let s := Z.testbit bits 63 in
  let e := (Z.shiftr bits 52 mod 2 ^ 11)%Z in
  let m := (bits mod 2 ^ 52)%Z in
  if (e =? 2047)%Z then (if (m =? 0)%Z then S754_infinity s else S754_nan)
  else
    let m := if (e =? 0)%Z then m else (m + 2 ^ 52)%Z in
    let e := if (e =? 0)%Z then (- 1074)%Z else (e - 1075)%Z in
    match m with Z.pos p => S754_finite s p e | _ => S754_zero s end.

(** The integer a finite value is, if it is one: [modf] leaves no fraction. *)
Definition d_integral (x : double) : option Z :=
  let signed (s : bool) (z : Z) := if s then (- z)%Z else z in
  match x with
  | S754_zero _ => Some 0%Z
  | S754_finite s m e =>
      if (0 <=? e)%Z then Some (signed s (Z.pos m * 2 ^ e)%Z)
      else if (Z.pos m mod 2 ^ (- e) =? 0)%Z then Some (signed s (Z.pos m / 2 ^ (- e))%Z)
      else None
  | _ => None
  end.

(** ** The order *)

Lemma d_lt_trans a b c : d_lt a b = true → d_lt b c = true → d_lt a c = true.
Proof.
  unfold d_lt, SFltb, SFcompare.
  destruct a as [[]|[]| |[] ma ea], b as [[]|[]| |[] mb eb], c as [[]|[]| |[] mc ec]; try done;
    destruct (Z.compare_spec ea eb), (Z.compare_spec eb ec), (Z.compare_spec ea ec); try done; try lia;
    rewrite ?Pos.compare_cont_spec;
    destruct (Pos.compare_spec ma mb), (Pos.compare_spec mb mc), (Pos.compare_spec ma mc); try done; lia.
Qed.

Lemma d_lt_irrefl a : d_lt a a = false.
Proof.
  unfold d_lt, SFltb, SFcompare. destruct a as [[]|[]| |[] m e]; try done;
    rewrite Z.compare_refl, Pos.compare_cont_spec; by rewrite Pos.compare_refl.
Qed.
