(* ===== verification/CText.v ===== *)
(** * The C library's conversions between text and numbers

    [snprintf] and [sscanf] of the formats the sources use, [strtoull] and
    [strtoll] with base 0, and [strtod], on NUL-terminated strings. *)

From S2P Require Import Prelude Config Doubles.

(** The string at the start of a buffer. *)
Fixpoint c_str (buf : list byte) : cstring :=
  match buf with
  | [] => []
  | b :: buf => if bool_decide (b = nul) then [] else b :: c_str buf
  end.

(** ** Decimal digits *)

Definition digit (d : Z) : byte := byte.of_Z (48 + d).

(** The decimal digits of an unsigned number; ten are enough for 32 bits,
    twenty for 64. *)
Fixpoint dec_digits (fuel : nat) (n : Z) (acc : list byte) : list byte :=
  match fuel with
  | 0 => acc
  | S fuel =>
      let acc := digit (n mod 10) :: acc in
      if (n / 10 =? 0)%Z then acc else dec_digits fuel (n / 10) acc
  end.

(** [snprintf] of ["%04u"]. *)
Definition fmt_04u (n : Z) : list byte :=
  let d := dec_digits 10 n [] in replicate (4 - length d) (digit 0) ++ d.

Definition isdigit (b : byte) : bool := (48 <=? byte.unsigned b)%Z && (byte.unsigned b <=? 57)%Z.
Definition isspace (b : byte) : bool :=
  ((9 <=? byte.unsigned b)%Z && (byte.unsigned b <=? 13)%Z) || (byte.unsigned b =? 32)%Z.

Fixpoint scan_digits (width : nat) (s : list byte) (acc : option Z) : option Z :=
  match width, s with
  | S width, b :: s =>
      if isdigit b
      then scan_digits width s (Some (default 0 acc * 10 + (byte.unsigned b - 48))%Z)
      else acc
  | _, _ => acc
  end.

Fixpoint skip_space (s : list byte) : list byte :=
  match s with
  | b :: r => if isspace b then skip_space r else s
  | [] => []
  end.

(** [sscanf] of ["%4u..."]: white space is skipped, a sign counts towards the
    width, and what follows the conversion does not change the count that is
    returned. *)
Definition sscanf_4u (s : list byte) : option Z :=
  match skip_space s with
  | b :: r =>
      if (byte.unsigned b =? 43)%Z then scan_digits 3 r None
      else if (byte.unsigned b =? 45)%Z then (λ n, u32 (- n)) <$> scan_digits 3 r None
      else scan_digits 4 (b :: r) None
  | [] => None
  end.

(** ** [strtoull] and [strtoll] with base 0 *)

(** What a letter or digit is worth in a base up to 36. *)
Definition digit_val (b : byte) : option Z :=
  let c := byte.unsigned b in
  if isdigit b then Some (c - 48)%Z
  else if (97 <=? c)%Z && (c <=? 122)%Z then Some (c - 87)%Z
  else if (65 <=? c)%Z && (c <=? 90)%Z then Some (c - 55)%Z
  else None.

Definition in_base (base : Z) (b : byte) : option Z :=
  match digit_val b with Some v => if (v <? base)%Z then Some v else None | None => None end.

(** The digits at the front of [s], added to [acc]; how many there were, and
    what follows them. *)
Fixpoint scan_base (base : Z) (s : list byte) (n : nat) (acc : Z) : nat * Z * list byte :=
  match s with
  | b :: r =>
      match in_base base b with
      | Some v => scan_base base r (S n) (acc * base + v)%Z
      | None => (n, acc, s)
      end
  | [] => (n, acc, s)
  end.

(** An optional sign: whether it is a minus, and what follows. *)
Definition scan_sign (s : list byte) : bool * list byte :=
  match s with
  | b :: r =>
      if (byte.unsigned b =? 45)%Z then (true, r)
      else if (byte.unsigned b =? 43)%Z then (false, r) else (false, s)
  | [] => (false, s)
  end.

(** [0x] or [0X], with a digit in the base after it. *)
Definition hex_prefix (s : list byte) : option (list byte) :=
  match s with
  | z :: x :: ((d :: _) as r) =>
      if (byte.unsigned z =? 48)%Z && ((byte.unsigned x =? 120)%Z || (byte.unsigned x =? 88)%Z) &&
         bool_decide (is_Some (in_base 16 d))
      then Some r else None
  | _ => None
  end.

(** The number a text starts with: its sign, its magnitude, and what follows;
    [None] when there is no number ([*endptr] is the start of the text). *)
Definition scan_integer (s : list byte) : option (bool * Z * list byte) :=
  let '(neg, s) := scan_sign (skip_space s) in
  let '(n, v, r) :=
    match hex_prefix s with
    | Some h => scan_base 16 h 0 0
    | None =>
        match s with
        | b :: _ => scan_base (if (byte.unsigned b =? 48)%Z then 8 else 10) s 0 0
        | [] => (0, 0%Z, s)
        end
    end in
  if n =? 0 then None else Some (neg, v, r).

(** The value, what follows it, and whether [errno] is set: the number is out
    of range. *)
Definition strtoull (s : list byte) : option (Z * list byte * bool) :=
  match scan_integer s with
  | None => None
  | Some (neg, v, r) =>
      if (2 ^ 64 <=? v)%Z then Some (2 ^ 64 - 1, r, true)%Z
      else Some (u64 (if neg : bool then - v else v), r, false)%Z
  end.

Definition strtoll (s : list byte) : option (Z * list byte * bool) :=
  match scan_integer s with
  | None => None
  | Some (true, v, r) =>
      if (2 ^ 63 <? v)%Z then Some (- 2 ^ 63, r, true)%Z else Some (- v, r, false)%Z
  | Some (false, v, r) =>
      if (2 ^ 63 <=? v)%Z then Some (2 ^ 63 - 1, r, true)%Z else Some (v, r, false)%Z
  end.

(** ** [strtod] *)

(** [m * 2 ^ e] and [m * 10 ^ e], rounded to the nearest [double]. *)
Definition d_scale2 (m e : Z) : double := binary_normalize 53 1024 m e false.
Definition d_scale10 (m e : Z) : double :=
  if (0 <=? e)%Z then d_of_Z (m * 10 ^ e)
  else
    match m with
    | Z.pos _ =>
        let '(q, e', l) := SFdiv_core_binary 53 1024 m 0 (10 ^ (- e)) 0 in
        binary_round_aux 53 1024 false q e' l
    | _ => S754_zero false
    end.

(** The 64-bit pattern of the magnitude of a [double]. *)
Definition d_bits (x : double) : Z :=
  match x with
  | S754_zero _ => 0
  | S754_infinity _ => 2047 * 2 ^ 52
  | S754_nan => 2047 * 2 ^ 52 + 2 ^ 51
  | S754_finite _ m e =>
      if (Z.pos m <? 2 ^ 52)%Z then Z.pos m else (e + 1075) * 2 ^ 52 + (Z.pos m - 2 ^ 52)
  end%Z.

Definition lower (b : byte) : byte :=
  if (65 <=? byte.unsigned b)%Z && (byte.unsigned b <=? 90)%Z
  then byte.of_Z (byte.unsigned b + 32) else b.

(** [word] in any case at the front of [s], and what follows it. *)
Definition scan_word (word s : list byte) : option (list byte) :=
  if bool_decide (map lower (take (length word) s) = word)
  then Some (drop (length word) s) else None.

(** Digits with an optional point among them: how many, their value, how many
    came after the point, and what follows. *)
Definition scan_significand (base : Z) (s : list byte) : nat * Z * nat * list byte :=
  let '(n, v, r) := scan_base base s 0 0 in
  match r with
  | p :: f =>
      if (byte.unsigned p =? 46)%Z then
        let '(k, v, f) := scan_base base f 0 v in
        if n + k =? 0 then (0, 0%Z, 0, s) else (n + k, v, k, f)
      else (n, v, 0, r)
  | [] => (n, v, 0, r)
  end.

(** An exponent after the letter [c], if there is a whole one. *)
Definition scan_exponent (c : Z) (s : list byte) : Z * list byte :=
  match s with
  | b :: r =>
      if (byte.unsigned (lower b) =? c)%Z then
        let '(neg, r) := scan_sign r in
        let '(n, v, r) := scan_base 10 r 0 0 in
        if n =? 0 then (0%Z, s) else (if neg : bool then (- v)%Z else v, r)
      else (0%Z, s)
  | [] => (0%Z, s)
  end.

(** What follows the characters in parentheses after [nan(]. *)
Fixpoint scan_nan_chars (s : list byte) : option (list byte) :=
  match s with
  | c :: r =>
      if (byte.unsigned c =? 41)%Z then Some r
      else if bool_decide (is_Some (digit_val c)) || (byte.unsigned c =? 95)%Z
      then scan_nan_chars r else None
  | [] => None
  end.

(** [infinity], [inf], [nan] and [nan(...)]. *)
Definition scan_special (s : list byte) : option (double * list byte) :=
  match scan_word (s2b "infinity") s, scan_word (s2b "inf") s, scan_word (s2b "nan") s with
  | Some r, _, _ | None, Some r, _ => Some (S754_infinity false, r)
  | None, None, Some r =>
      match r with
      | b :: t =>
          if (byte.unsigned b =? 40)%Z then Some (S754_nan, default r (scan_nan_chars t))
          else Some (S754_nan, r)
      | [] => Some (S754_nan, r)
      end
  | None, None, None => None
  end.

(** A number in digits, hexadecimal after [0x]: whether it is zero, its value,
    and what follows. *)
Definition scan_number (s : list byte) : option (bool * double * list byte) :=
  let dec :=
    let '(n, m, k, r) := scan_significand 10 s in
    if n =? 0 then None
    else let '(e, r) := scan_exponent 101 r in
         Some ((m =? 0)%Z, d_scale10 m (e - Z.of_nat k), r) in
  match s with
  | z :: x :: h =>
      if (byte.unsigned z =? 48)%Z && (byte.unsigned (lower x) =? 120)%Z then
        let '(n, m, k, r) := scan_significand 16 h in
        if n =? 0 then dec
        else let '(e, r) := scan_exponent 112 r in
             Some ((m =? 0)%Z, d_scale2 m (e - 4 * Z.of_nat k), r)
      else dec
  | _ => dec
  end.

Section strtod.
Context {Cfg : Config}.

(** The pattern of the value, what follows it, and whether [errno] is set: the
    value is too large or, as the library decides, too small. *)
Definition strtod (text : list byte) : option (Z * list byte * bool) :=
  let '(neg, s) := scan_sign (skip_space text) in
  let signed (b : Z) : Z := if neg : bool then (b + 2 ^ 63)%Z else b in
  match scan_special s with
  | Some (x, r) => Some (signed (d_bits x), r, false)
  | None =>
      match scan_number s with
      | Some (zero, x, r) =>
          let b := d_bits x in
          Some (signed b, r,
                (2047 * 2 ^ 52 <=? b)%Z ||
                (negb zero && (b <? 2 ^ 52)%Z && STRTOD_TINY_ERANGE text))
      | None => None
      end
  end.
End strtod.

(** ** Digits and their values *)

Definition digit_value (a : Z) (b : byte) : Z := (a * 10 + (byte.unsigned b - 48))%Z.

Lemma digit_value_digit a d : (0 ≤ d < 10)%Z → digit_value a (digit d) = (a * 10 + d)%Z.
Proof. intros Hd. unfold digit_value, digit. rewrite unsigned_of_Z_small; lia. Qed.

Lemma dec_digits_value f n acc :
  (0 ≤ n < 10 ^ Z.of_nat f)%Z →
  fold_left digit_value (dec_digits f n acc) 0%Z = fold_left digit_value acc n.
Proof.
  revert n acc. induction f as [|f IH]; intros n acc Hn; [simpl in *; f_equal; lia|].
  rewrite Nat2Z.inj_succ, Z.pow_succ_r in Hn by lia.
  pose proof (Z.div_mod n 10) as Hdm. pose proof (Z.mod_pos_bound n 10) as Hm. simpl.
  destruct (Z.eqb_spec (n / 10) 0).
  - simpl. rewrite digit_value_digit by lia. f_equal. lia.
  - rewrite IH; [|split; [apply Z.div_pos; lia|apply Z.div_lt_upper_bound; lia]].
    simpl. rewrite digit_value_digit by lia. f_equal. lia.
Qed.

(** ** Strings in buffers *)

Lemma c_str_no_nul s : c_string (c_str s).
Proof.
  unfold c_string. induction s as [|b s IH]; simpl; [apply not_elem_of_nil|].
  case_bool_decide; [apply not_elem_of_nil|]. rewrite elem_of_cons. intros [?|?]; [congruence|done].
Qed.

Lemma c_str_id s rest : c_string s → c_str (s ++ nul :: rest) = s.
Proof.
  unfold c_string. induction s as [|b s IH]; intros Hs; simpl; [done|].
  rewrite bool_decide_false; [f_equal; apply IH|]; rewrite elem_of_cons in Hs; naive_solver.
Qed.

Lemma length_c_str s : length (c_str s) ≤ length s.
Proof. induction s as [|b s IH]; simpl; [lia|]. case_bool_decide; simpl; lia. Qed.

Lemma length_c_str_nul s : length (c_str (s ++ [nul])) ≤ length s.
Proof. induction s as [|b s IH]; simpl; [lia|]. case_bool_decide; simpl; lia. Qed.
