(* ===== verification/Env.v ===== *)
(** * Interfaces to the code outside [src/]

    The Zephyr kernel, the NVS/ZMS key-value backend and the CRC routine are
    reached through type classes. Each has the operations the sources call and
    abstract views ([lock_depth], [slab_used], [heap_used], [kvb_store]); the
    laws, in a class of their own, say what the documented behaviour of those
    services is in terms of the views. Every operation may fail whenever its
    documentation lets it fail. *)

From S2P Require Import Prelude Config.

(** ** Kernel: mutex, memory slabs, heap, clock *)

(** What the sources read of a [struct k_mem_slab]: its identity and
    [info.block_size]. *)
Record k_mem_slab := mkSlab { slab_name : positive; slab_block_size : nat }.

Class Kernel (K : Type) := {
  k_mutex_init : K → K;
  k_mutex_lock : K → Z * K;
  k_mutex_unlock : K → K;
  (** [db->lock.owner == k_current_get ()]. *)
  k_mutex_owned : K → bool;
  k_mem_slab_alloc : k_mem_slab → K → Z * K;
  k_mem_slab_free : k_mem_slab → K → K;
  (** [true] when the pointer returned is not NULL. *)
  k_malloc : nat → K → bool * K;
  k_free : K → K;
  k_uptime_get : K → Z * K;
  k_yield : K → K;
  (** Work queue and the flush semaphore of a time-series context. *)
  k_work_submit : K → Z * K;
  (** Whether the work queue's thread gets to run the submitted item while the
      calling thread waits on the semaphore. *)
  k_work_runs : K → bool * K;
  k_work_cancel_sync : K → K;
  k_sem_reset : K → K;
  k_sem_give : K → K;
  k_sem_take : K → Z * K;
  (** [zbus_chan_pub] with [K_NO_WAIT]; the message itself is in the log. *)
  zbus_chan_pub : K → Z * K;
  (** Views: how often this thread holds the instance mutex, the blocks taken
      from a slab, the live heap blocks. *)
  lock_depth : K → nat;
  slab_used : K → positive → nat;
  heap_used : K → nat;
}.

Section kernel_views.
  Context {K : Type} `{!Kernel K}.

  (** The two kernel states agree on every view. *)
Record k_same (k k' : K) : Prop := {
    same_lock : lock_depth k' = lock_depth k;
    same_slab : ∀ s, slab_used k' s = slab_used k s;
    same_heap : heap_used k' = heap_used k;
  }.

#[global] Instance k_same_preorder : PreOrder k_same.
  Proof.
    split; [by intros k|]. intros k1 k2 k3 [] []. split; congruence.
  Qed.
End kernel_views.

Class KernelLaws (K : Type) `{!Kernel K} : Prop := {
  k_mutex_init_law k :
    lock_depth (k_mutex_init k) = 0 ∧
    (∀ s, slab_used (k_mutex_init k) s = slab_used k s) ∧
    heap_used (k_mutex_init k) = heap_used k;
  k_mutex_lock_law k :
    (((k_mutex_lock k).1 = 0%Z ∧ lock_depth (k_mutex_lock k).2 = S (lock_depth k)) ∨
     ((k_mutex_lock k).1 ≠ 0%Z ∧ lock_depth (k_mutex_lock k).2 = lock_depth k)) ∧
    (∀ s, slab_used (k_mutex_lock k).2 s = slab_used k s) ∧
    heap_used (k_mutex_lock k).2 = heap_used k;
  k_mutex_unlock_law k :
    lock_depth (k_mutex_unlock k) = pred (lock_depth k) ∧
    (∀ s, slab_used (k_mutex_unlock k) s = slab_used k s) ∧
    heap_used (k_mutex_unlock k) = heap_used k;
  k_mutex_owned_law k : k_mutex_owned k = bool_decide (0 < lock_depth k);
  k_mem_slab_alloc_law sl k :
    lock_depth (k_mem_slab_alloc sl k).2 = lock_depth k ∧
    heap_used (k_mem_slab_alloc sl k).2 = heap_used k ∧
    ∀ s, slab_used (k_mem_slab_alloc sl k).2 s =
         if decide (s = slab_name sl ∧ (k_mem_slab_alloc sl k).1 = 0%Z)
         then S (slab_used k s) else slab_used k s;
  k_mem_slab_free_law sl k :
    lock_depth (k_mem_slab_free sl k) = lock_depth k ∧
    heap_used (k_mem_slab_free sl k) = heap_used k ∧
    ∀ s, slab_used (k_mem_slab_free sl k) s =
         if decide (s = slab_name sl) then pred (slab_used k s) else slab_used k s;
  k_malloc_law n k :
    lock_depth (k_malloc n k).2 = lock_depth k ∧
    (∀ s, slab_used (k_malloc n k).2 s = slab_used k s) ∧
    heap_used (k_malloc n k).2 =
      if (k_malloc n k).1 then S (heap_used k) else heap_used k;
  k_free_law k :
    lock_depth (k_free k) = lock_depth k ∧
    (∀ s, slab_used (k_free k) s = slab_used k s) ∧
    heap_used (k_free k) = pred (heap_used k);
  k_uptime_get_law k : (0 ≤ (k_uptime_get k).1 < 2 ^ 63)%Z ∧ k_same k (k_uptime_get k).2;
  k_yield_law k : k_same k (k_yield k);
  k_work_submit_law k : k_same k (k_work_submit k).2;
  k_work_runs_law k : k_same k (k_work_runs k).2;
  k_work_cancel_sync_law k : k_same k (k_work_cancel_sync k);
  k_sem_reset_law k : k_same k (k_sem_reset k);
  k_sem_give_law k : k_same k (k_sem_give k);
  k_sem_take_law k : k_same k (k_sem_take k).2;
  zbus_chan_pub_law k : k_same k (zbus_chan_pub k).2;
}.

(** What liveness statements add: a wait with [K_FOREVER] gets the mutex, a
    slab with free blocks serves one, and the heap serves every request. *)
Class LockLive (K : Type) `{!Kernel K} : Prop :=
  k_mutex_lock_forever k : (k_mutex_lock k).1 = 0%Z.

Class SlabLive (K : Type) `{!Kernel K} (slab_blocks : positive → nat) : Prop :=
  k_mem_slab_alloc_live sl k :
    slab_used k (slab_name sl) < slab_blocks (slab_name sl) →
    (k_mem_slab_alloc sl k).1 = 0%Z.

Class HeapLive (K : Type) `{!Kernel K} : Prop := k_malloc_live n k : (k_malloc n k).1 = true.

(** ** Key-value backend (NVS or ZMS, mounted by the application) *)

Class KvBackend (F : Type) := {
  kvb_write : Z → list byte → F → Z * F;
  (** [kvb_read id capacity]: the return value and the bytes copied out. *)
  kvb_read : Z → nat → F → (Z * list byte) * F;
  kvb_delete : Z → F → Z * F;
  kvb_store : F → gmap Z (list byte);
}.

(** A write stores the whole record, or reports 0 because the stored bytes
    are already those, or fails and stores nothing. A read returns the full
    stored length and as many bytes as fit, or -ENOENT for an absent id, or
    another error. A delete removes the record or fails and removes nothing, and
    reports -ENOENT for an absent id only. *)
Class KvBackendLaws (F : Type) `{!KvBackend F} : Prop := {
  kvb_write_law id d f :
    d ≠ [] →
    ((kvb_write id d f).1 = Z.of_nat (length d) ∧
     kvb_store (kvb_write id d f).2 = <[id := d]> (kvb_store f)) ∨
    ((kvb_write id d f).1 = 0%Z ∧ kvb_store f !! id = Some d ∧
     kvb_store (kvb_write id d f).2 = kvb_store f) ∨
    (((kvb_write id d f).1 < 0)%Z ∧ kvb_store (kvb_write id d f).2 = kvb_store f);
  kvb_read_law id cap f :
    kvb_store (kvb_read id cap f).2 = kvb_store f ∧
    match kvb_store f !! id with
    | Some d => (kvb_read id cap f).1 = (Z.of_nat (length d), take cap d)
    | None => (kvb_read id cap f).1.1 = (- ENOENT)%Z
    end ∨
    kvb_store (kvb_read id cap f).2 = kvb_store f ∧
    ((kvb_read id cap f).1.1 < 0)%Z ∧ (kvb_read id cap f).1.1 ≠ (- ENOENT)%Z;
  kvb_delete_law id f :
    ((0 ≤ (kvb_delete id f).1)%Z ∧
     kvb_store (kvb_delete id f).2 = delete id (kvb_store f)) ∨
    (((kvb_delete id f).1 < 0)%Z ∧ kvb_store (kvb_delete id f).2 = kvb_store f ∧
     ((kvb_delete id f).1 = (- ENOENT)%Z → kvb_store f !! id = None));
}.

(** A backend whose reads do not fail, for the statements that need it. *)
Class KvReadsOk (F : Type) `{!KvBackend F} : Prop :=
  kvb_read_ok id cap f :
    kvb_store (kvb_read id cap f).2 = kvb_store f ∧
    match kvb_store f !! id with
    | Some d => (kvb_read id cap f).1 = (Z.of_nat (length d), take cap d)
    | None => (kvb_read id cap f).1.1 = (- ENOENT)%Z
    end.

(** ** CRC-32 ([zephyr/sys/crc.h]) *)

Class Crc32 := crc32_ieee_update : Z → list byte → Z.

Class Crc32Laws `{!Crc32} : Prop := {
  crc32_range s d : (0 ≤ s < 2 ^ 32)%Z → (0 ≤ crc32_ieee_update s d < 2 ^ 32)%Z;
  crc32_nil s : crc32_ieee_update s [] = s;
  (** Incremental use: hashing two pieces in turn hashes their concatenation. *)
  crc32_app s a b :
    crc32_ieee_update (crc32_ieee_update s a) b = crc32_ieee_update s (a ++ b);
}.

Definition crc32_ieee `{Crc32} (data : list byte) : Z := crc32_ieee_update 0 data.

Section crc.
Context `{!Crc32, !Crc32Laws}.

Lemma crc32_ieee_range d : (0 ≤ crc32_ieee d < 2 ^ 32)%Z.
Proof. apply crc32_range. lia. Qed.

Lemma crc32_ieee_mod d : (crc32_ieee d mod 2 ^ (Z.of_nat 4 * 8))%Z = crc32_ieee d.
Proof. apply Z.mod_small, crc32_ieee_range. Qed.

End crc.
