(* ===== verification/Types.v ===== *)
(** * The data of [zephyrdb.h] and [zephyrdb_internal.h], and the world

    One record per struct, one inductive per enum, with the source's field and
    constructor names (prefixed where two structs share a field name). A
    pointer that may be NULL is an [option]; an array with its length is a
    list; [size_t] is [nat]; fixed-width counters, ids and timestamps are [Z]
    kept in range by the operations that compute them. [world] is everything
    an operation can read or change: the one database instance, the kernel,
    the key-value backend, the file system, and the log of the events that
    listeners and the zbus channels have been given. *)

From S2P Require Import Prelude Config Env.

(** A [zdb_t *]: NULL or the address of the instance. *)
Inductive db_ref := the_db.
Abbreviation db_ptr := (option db_ref).

Section types.

(** ** Events *)

Inductive zdb_event_type_t :=
  | ZDB_EVENT_KV_SET | ZDB_EVENT_KV_DELETE | ZDB_EVENT_KV_INDEX_FULL.

Record zdb_kv_event_t := {
  ke_type : zdb_event_type_t;
  ke_namespace_name : cstring;
  ke_key : cstring;
  ke_value_len : nat;
  ke_timestamp_ms : Z;
  ke_status : zdb_status_t;
}.

Inductive zdb_ts_event_type_t :=
  | ZDB_TS_EVENT_APPEND | ZDB_TS_EVENT_FLUSH | ZDB_TS_EVENT_RECOVER
  | ZDB_TS_EVENT_ROLLOVER | ZDB_TS_EVENT_WATERMARK.

Record zdb_ts_event_t := {
  te_type : zdb_ts_event_type_t;
  te_stream_name : cstring;
  te_timestamp_ms : Z;
  te_sample_ts_ms : Z;
  te_sample_value : Z;
  te_flushed_bytes : nat;
  te_truncated_bytes : nat;
  te_status : zdb_status_t;
}.

Inductive zdb_doc_event_type_t :=
  | ZDB_DOC_EVENT_CREATE | ZDB_DOC_EVENT_SAVE | ZDB_DOC_EVENT_DELETE.

Record zdb_doc_event_t := {
  de_type : zdb_doc_event_type_t;
  de_collection_name : cstring;
  de_document_id : cstring;
  de_timestamp_ms : Z;
  de_field_count : nat;
  de_serialized_bytes : nat;
  de_status : zdb_status_t;
}.

Inductive zdb_core_event_type_t :=
  | ZDB_CORE_EVENT_INIT | ZDB_CORE_EVENT_DEINIT | ZDB_CORE_EVENT_HEALTH.

Record zdb_core_event_t := {
  ce_type : zdb_core_event_type_t;
  ce_timestamp_ms : Z;
  ce_health : zdb_health_t;
  ce_prev_health : zdb_health_t;
  ce_status : zdb_status_t;
}.

(** A listener: whether its [notify] pointer is set, and its [user_ctx], which
    stands for the identity of the callback. *)
Record listener := { notify : bool; user_ctx : nat }.

Inductive event :=
  | EvKv (e : zdb_kv_event_t)
  | EvTs (e : zdb_ts_event_t)
  | EvDoc (e : zdb_doc_event_t)
  | EvCore (e : zdb_core_event_t).

Inductive destination := ToZbus | ToListener (ctx : nat).

(** One delivery: what, to whom, and whether this thread owned the instance
    lock when it was made. *)
Record delivery := { dl_event : event; dl_to : destination; dl_locked : bool }.

(** ** Durability counters *)

Record zdb_ts_stats_t := {
  recover_runs : Z;
  recover_failures : Z;
  recover_truncated_bytes : Z;
  crc_failures : Z;
  corrupt_records : Z;
  unsupported_versions : Z;
}.

Definition zero_stats : zdb_ts_stats_t :=
  {| recover_runs := 0; recover_failures := 0; recover_truncated_bytes := 0;
     crc_failures := 0; corrupt_records := 0; unsupported_versions := 0 |}.

Record zdb_ts_stats_export_t := {
  ex_version : Z;
  ex_reserved : Z;
  ex_crc : Z;
  ex_recover_runs : Z;
  ex_recover_failures : Z;
  ex_recover_truncated_bytes : Z;
  ex_crc_failures : Z;
  ex_corrupt_records : Z;
  ex_unsupported_versions : Z;
}.

(** ** Configuration *)

Record zdb_kv_default_t := {
  def_namespace_name : option cstring;
  def_key : option cstring;
  def_value : option (list byte);
  def_value_len : nat;
}.

Record zdb_cfg_t := {
  kv_backend_fs : bool;               (** the pointer is not NULL *)
  lfs_mount_point : option cstring;
  scan_yield_every_n : nat;
  kv_defaults : option (list zdb_kv_default_t);
  cfg_event_listeners : option (list listener);
  cfg_ts_event_listeners : option (list listener);
  cfg_doc_event_listeners : option (list listener);
  cfg_core_event_listeners : option (list listener);
}.

(** ** The key-value context ([struct zdb_kv_ctx]) *)

Record zdb_kv_index_entry := {
  en_namespace_name : cstring;
  en_key : cstring;
  en_id : Z;
}.

(** [entries] is the live prefix of the array, so [entry_count] is its length. *)
Record zdb_kv_ctx := {
  entries : list zdb_kv_index_entry;
  loaded : bool;
}.

Definition entry_count (c : zdb_kv_ctx) : nat := length (entries c).

(** ** The time-series context ([zephyrdb_internal.h]) *)

Record zdb_ts_stream_ctx := {
  st_name : cstring;
  ingest_buf : option (list byte);
  ingest_capacity : nat;
  ingest_used : nat;
  open_count : Z;
  in_use : bool;
  pending_flush_bytes : nat;
  pending_discarded_bytes : nat;
  oldest_seg : Z;
  cur_seg : Z;
  cur_seg_bytes : nat;
  segs_scanned : bool;
  seg_version : Z;
  seg_hdr_size : nat;
  seg_rec_size : nat;
  seg_base_ts_ms : Z;
}.

(** [memset] of a whole slot to zero. *)
Definition zero_stream : zdb_ts_stream_ctx :=
  {| st_name := []; ingest_buf := None; ingest_capacity := 0; ingest_used := 0;
     open_count := 0; in_use := false;
     pending_flush_bytes := 0; pending_discarded_bytes := 0;
     oldest_seg := 0; cur_seg := 0; cur_seg_bytes := 0; segs_scanned := false;
     seg_version := 0; seg_hdr_size := 0; seg_rec_size := 0; seg_base_ts_ms := 0 |}.

Record zdb_ts_core_ctx := {
  streams : list zdb_ts_stream_ctx;
  flush_pending : bool;
  ts_dir_ready : bool;
  released_flush_bytes : nat;
  released_discarded_bytes : nat;
  released_stream : cstring;
}.

(** ** The instance *)

Record zdb_t := {
  core_slab : option k_mem_slab;
  cursor_slab : option k_mem_slab;
  kv_io_slab : option k_mem_slab;
  ts_ingest_slab : option k_mem_slab;
  kv_ctx : option zdb_kv_ctx;
  ts_ctx : option zdb_ts_core_ctx;
  cfg : option zdb_cfg_t;
  ts_stats : zdb_ts_stats_t;
  health : zdb_health_t;
  event_listeners : option (list listener);
  ts_event_listeners : option (list listener);
  doc_event_listeners : option (list listener);
  core_event_listeners : option (list listener);
  health_prev : zdb_health_t;
  health_event_pending : bool;
}.

(** ** The world *)

Record world (K F FS : Type) := mkWorld {
  w_db : zdb_t;
  w_k : K;
  w_f : F;
  w_fs : FS;
  w_log : list delivery;
}.

End types.

Arguments mkWorld {K F FS}.
Arguments w_db {K F FS}.
Arguments w_k {K F FS}.
Arguments w_f {K F FS}.
Arguments w_fs {K F FS}.
Arguments w_log {K F FS}.

#[global] Instance zdb_event_type_eq_dec : EqDecision zdb_event_type_t.
Proof. solve_decision. Defined.
#[global] Instance zdb_ts_event_type_eq_dec : EqDecision zdb_ts_event_type_t.
Proof. solve_decision. Defined.
#[global] Instance zdb_doc_event_type_eq_dec : EqDecision zdb_doc_event_type_t.
Proof. solve_decision. Defined.
#[global] Instance zdb_core_event_type_eq_dec : EqDecision zdb_core_event_type_t.
Proof. solve_decision. Defined.
#[global] Instance zdb_kv_index_entry_eq_dec : EqDecision zdb_kv_index_entry.
Proof. solve_decision. Defined.

(** ** Lifting kernel, backend and file-system calls to programs *)

Section lift.
  Context {K F FS : Type}.
  Abbreviation W := (world K F FS).

Definition on_k {A} (op : K → A * K) : M W A :=
    λ w, let r := op (w_k w) in (r.1, w <| w_k := r.2 |>).
Definition on_f {A} (op : F → A * F) : M W A :=
    λ w, let r := op (w_f w) in (r.1, w <| w_f := r.2 |>).
Definition on_fs {A} (op : FS → A * FS) : M W A :=
    λ w, let r := op (w_fs w) in (r.1, w <| w_fs := r.2 |>).
Definition on_k_ (op : K → K) : M W unit :=
    λ w, (tt, w <| w_k ::= op |>).

  (** Reading and updating the instance through a non-NULL pointer. *)
Definition db_get {A} (f : zdb_t → A) : M W A := mgets (λ w, f (w_db w)).
Definition db_set (f : zdb_t → zdb_t) : M W unit := mmodify (λ w, w <| w_db ::= f |>).

Lemma wp_on_k {A} (op : K → A * K) (Q : A → W → Prop) w :
    (∀ a k', op (w_k w) = (a, k') → Q a (w <| w_k := k' |>)) → wp (on_k op) Q w.
  Proof. unfold wp, on_k. simpl. intros H. apply H. by destruct (op (w_k w)). Qed.

Lemma wp_on_f {A} (op : F → A * F) (Q : A → W → Prop) w :
    (∀ a f', op (w_f w) = (a, f') → Q a (w <| w_f := f' |>)) → wp (on_f op) Q w.
  Proof. unfold wp, on_f. simpl. intros H. apply H. by destruct (op (w_f w)). Qed.

Lemma wp_on_fs {A} (op : FS → A * FS) (Q : A → W → Prop) w :
    (∀ a f', op (w_fs w) = (a, f') → Q a (w <| w_fs := f' |>)) → wp (on_fs op) Q w.
  Proof. unfold wp, on_fs. simpl. intros H. apply H. by destruct (op (w_fs w)). Qed.

Lemma wp_on_k_ (op : K → K) (Q : unit → W → Prop) w :
    Q tt (w <| w_k := op (w_k w) |>) → wp (on_k_ op) Q w.
  Proof. done. Qed.

Lemma wp_db_get {A} (f : zdb_t → A) (Q : A → W → Prop) w :
    Q (f (w_db w)) w → wp (db_get f) Q w.
  Proof. done. Qed.

Lemma wp_db_set (f : zdb_t → zdb_t) (Q : unit → W → Prop) w :
    Q tt (w <| w_db := f (w_db w) |>) → wp (db_set f) Q w.
  Proof. done. Qed.
End lift.
