(* ===== verification/FsEnv.v ===== *)
(** * The file system the file-backed modules are written against

    Zephyr's [fs_*] calls on a mounted LittleFS volume, as a type class over
    the volume state [FS], open files [FH] and open directories [DH], with the
    contents of the regular files ([fs_files]) and what an open file stands for
    ([fh_path], [fh_pos], [fh_flags]) as views. Every call may fail; a call
    that fails to write may have written any part of its data, and a close that
    fails may lose what was written through that handle, but no call touches
    the contents of another file. *)

From S2P Require Import Prelude Config Env Types.

(** [struct fs_dirent]. *)
Inductive fs_dir_entry_type := FS_DIR_ENTRY_FILE | FS_DIR_ENTRY_DIR.
Record fs_dirent := { de_name : list byte; de_type' : fs_dir_entry_type; de_size : nat }.

#[global] Instance fs_dir_entry_type_eq_dec : EqDecision fs_dir_entry_type.
Proof. solve_decision. Defined.

(** The open flags the sources use. *)
Record fs_flags := {
  fs_o_create : bool; fs_o_read : bool; fs_o_write : bool; fs_o_append : bool; fs_o_trunc : bool }.
Definition FS_READ : fs_flags :=
  {| fs_o_create := false; fs_o_read := true; fs_o_write := false; fs_o_append := false;
     fs_o_trunc := false |}.
Definition FS_CREATE_RDWR : fs_flags :=
  {| fs_o_create := true; fs_o_read := true; fs_o_write := true; fs_o_append := false;
     fs_o_trunc := false |}.
Definition FS_CREATE_WRITE_APPEND : fs_flags :=
  {| fs_o_create := true; fs_o_read := false; fs_o_write := true; fs_o_append := true;
     fs_o_trunc := false |}.
Definition FS_CREATE_WRITE_TRUNC : fs_flags :=
  {| fs_o_create := true; fs_o_read := false; fs_o_write := true; fs_o_append := false;
     fs_o_trunc := true |}.

Class FileSys (FS FH DH : Type) := {
  fs_file_t_init : FH;
  fs_dir_t_init : DH;
  fs_open : FH → list byte → fs_flags → FS → (Z * FH) * FS;
  fs_close : FH → FS → Z * FS;
  fs_read : FH → nat → FS → (Z * list byte * FH) * FS;
  fs_write : FH → list byte → FS → (Z * FH) * FS;
  (** [fs_seek] with [FS_SEEK_SET], and with [FS_SEEK_END] at offset 0. *)
  fs_seek_set : FH → Z → FS → (Z * FH) * FS;
  fs_seek_end : FH → FS → (Z * FH) * FS;
  fs_tell : FH → FS → Z * FS;
  fs_truncate : FH → nat → FS → Z * FS;
  fs_unlink : list byte → FS → Z * FS;
  fs_rename : list byte → list byte → FS → Z * FS;
  fs_mkdir : list byte → FS → Z * FS;
  fs_stat : list byte → FS → (Z * fs_dirent) * FS;
  fs_opendir : DH → list byte → FS → (Z * DH) * FS;
  (** An entry with an empty name marks the end. *)
  fs_readdir : DH → FS → (Z * fs_dirent * DH) * FS;
  fs_closedir : DH → FS → Z * FS;
  (** Views. *)
  fs_files : FS → gmap (list byte) (list byte);
  fh_path : FH → list byte;
  fh_pos : FH → nat;
  fh_flags : FH → fs_flags;
  dh_rest : DH → list fs_dirent;
}.

(** What a directory entry can be called. *)
Definition file_name (name : list byte) : Prop := name ≠ [] ∧ c_string name ∧ Byte.x2f ∉ name.

(** Writing [data] at [pos] of a file, extending it as needed. *)
Definition file_write (d : list byte) (pos : nat) (data : list byte) : list byte :=
  take pos (d ++ replicate (pos - length d) nul) ++ data ++ drop (pos + length data) d.

Section fs_laws.
  Context {FS FH DH : Type} `{!FileSys FS FH DH}.

  (** Nothing but the file at [p] may differ. *)
Definition files_but (p : list byte) (s s' : FS) : Prop :=
    ∀ q, q ≠ p → fs_files s' !! q = fs_files s !! q.
End fs_laws.

Class FileSysLaws (FS FH DH : Type) `{!FileSys FS FH DH} : Prop := {
  fs_open_law fh p fl s :
    let r := fs_open fh p fl s in
    ((r.1.1 < 0)%Z ∧ fs_files r.2 = fs_files s ∧
     (r.1.1 = (- ENOENT)%Z → fs_files s !! p = None)) ∨
    (r.1.1 = 0%Z ∧ fh_path r.1.2 = p ∧ fh_pos r.1.2 = 0 ∧ fh_flags r.1.2 = fl ∧
     ((∃ d, fs_files s !! p = Some d ∧
         fs_files r.2 = if fs_o_trunc fl then <[p := []]> (fs_files s) else fs_files s) ∨
      (fs_files s !! p = None ∧ fs_o_create fl = true ∧ fs_files r.2 = <[p := []]> (fs_files s))));
  fs_close_law fh s :
    let r := fs_close fh s in
    (r.1 = 0%Z ∧ fs_files r.2 = fs_files s) ∨
    ((r.1 < 0)%Z ∧ files_but (fh_path fh) s r.2 ∧
     (fs_o_write (fh_flags fh) = false → fs_files r.2 = fs_files s));
  fs_read_law fh n s :
    let r := fs_read fh n s in
    fs_files r.2 = fs_files s ∧ fh_path r.1.2 = fh_path fh ∧ fh_flags r.1.2 = fh_flags fh ∧
    ((r.1.1.1 < 0)%Z ∨
     ∃ d, fs_files s !! fh_path fh = Some d ∧
       r.1.1 = (Z.of_nat (length (take n (drop (fh_pos fh) d))), take n (drop (fh_pos fh) d)) ∧
       fh_pos r.1.2 = fh_pos fh + length (take n (drop (fh_pos fh) d)));
  fs_write_law fh data s :
    let r := fs_write fh data s in
    files_but (fh_path fh) s r.2 ∧ fh_path r.1.2 = fh_path fh ∧ fh_flags r.1.2 = fh_flags fh ∧
    ∀ d, fs_files s !! fh_path fh = Some d →
      let pos := if fs_o_append (fh_flags fh) then length d else fh_pos fh in
      ∃ k, k ≤ length data ∧
        fs_files r.2 !! fh_path fh = Some (file_write d pos (take k data)) ∧
        ((r.1.1 < 0)%Z ∨ (r.1.1 = Z.of_nat k ∧ fh_pos r.1.2 = pos + k));
  fs_seek_set_law fh off s :
    let r := fs_seek_set fh off s in
    fs_files r.2 = fs_files s ∧ fh_path r.1.2 = fh_path fh ∧ fh_flags r.1.2 = fh_flags fh ∧
    ((r.1.1 < 0)%Z ∨ (r.1.1 = 0%Z ∧ Z.of_nat (fh_pos r.1.2) = off));
  fs_seek_end_law fh s :
    let r := fs_seek_end fh s in
    fs_files r.2 = fs_files s ∧ fh_path r.1.2 = fh_path fh ∧ fh_flags r.1.2 = fh_flags fh ∧
    ((r.1.1 < 0)%Z ∨ (r.1.1 = 0%Z ∧ ∃ d, fs_files s !! fh_path fh = Some d ∧
                                         fh_pos r.1.2 = length d));
  fs_tell_law fh s :
    let r := fs_tell fh s in
    fs_files r.2 = fs_files s ∧ ((r.1 < 0)%Z ∨ r.1 = Z.of_nat (fh_pos fh));
  fs_truncate_law fh n s :
    let r := fs_truncate fh n s in
    ((r.1 < 0)%Z ∧ fs_files r.2 = fs_files s) ∨
    (r.1 = 0%Z ∧ ∃ d, fs_files s !! fh_path fh = Some d ∧
       fs_files r.2 = <[fh_path fh := take n (d ++ replicate (n - length d) nul)]> (fs_files s));
  fs_unlink_law p s :
    let r := fs_unlink p s in
    ((r.1 < 0)%Z ∧ fs_files r.2 = fs_files s ∧
     (r.1 = (- ENOENT)%Z → fs_files s !! p = None)) ∨
    (r.1 = 0%Z ∧ fs_files r.2 = delete p (fs_files s));
  fs_rename_law p q s :
    let r := fs_rename p q s in
    ((r.1 < 0)%Z ∧ fs_files r.2 = fs_files s) ∨
    (r.1 = 0%Z ∧ ∃ d, fs_files s !! p = Some d ∧
       fs_files r.2 = <[q := d]> (delete p (fs_files s)));
  fs_mkdir_law p s :
    let r := fs_mkdir p s in fs_files r.2 = fs_files s ∧ (r.1 ≤ 0)%Z;
  fs_stat_law p s :
    let r := fs_stat p s in
    fs_files r.2 = fs_files s ∧
    (((r.1.1 < 0)%Z ∧ (r.1.1 = (- ENOENT)%Z → fs_files s !! p = None)) ∨
     (r.1.1 = 0%Z ∧ ∀ d, fs_files s !! p = Some d → de_size r.1.2 = length d));
  fs_opendir_law dh p s :
    let r := fs_opendir dh p s in
    fs_files r.2 = fs_files s ∧
    ((r.1.1 < 0)%Z ∨
     (r.1.1 = 0%Z ∧ Forall (λ e, file_name (de_name e)) (dh_rest r.1.2) ∧
      ∀ name, file_name name →
        (∃ d, fs_files s !! (p ++ [Byte.x2f] ++ name) = Some d) ↔
        ∃ e, e ∈ dh_rest r.1.2 ∧ de_name e = name ∧ de_type' e = FS_DIR_ENTRY_FILE));
  fs_readdir_law dh s :
    let r := fs_readdir dh s in
    fs_files r.2 = fs_files s ∧
    ((r.1.1.1 < 0)%Z ∨
     (r.1.1.1 = 0%Z ∧
      match dh_rest dh with
      | [] => de_name r.1.1.2 = [] ∧ dh_rest r.1.2 = []
      | e :: es => r.1.1.2 = e ∧ dh_rest r.1.2 = es
      end));
  fs_closedir_law dh s : fs_files (fs_closedir dh s).2 = fs_files s;
}.

(** A volume on which a close does not fail, for the statements that need it:
    the sources ignore its result in several places. *)
Class FsCloseOk (FS FH DH : Type) `{!FileSys FS FH DH} : Prop :=
  fs_close_ok fh s : (fs_close fh s).1 = 0%Z.

(** A volume on which reading what is there does not fail, for the statements
    that promise an answer. *)
Class FsLive (FS FH DH : Type) `{!FileSys FS FH DH} : Prop := {
  live_close :: FsCloseOk FS FH DH;
  live_open fh p fl s : is_Some (fs_files s !! p) → (0 ≤ (fs_open fh p fl s).1.1)%Z;
  live_read fh n s : is_Some (fs_files s !! fh_path fh) → (0 ≤ (fs_read fh n s).1.1.1)%Z;
  live_seek_set fh off s : (0 ≤ off)%Z → (0 ≤ (fs_seek_set fh off s).1.1)%Z;
  live_seek_end fh s : is_Some (fs_files s !! fh_path fh) → (0 ≤ (fs_seek_end fh s).1.1)%Z;
  live_tell fh s : (0 ≤ (fs_tell fh s).1)%Z;
  live_stat p s : is_Some (fs_files s !! p) → (0 ≤ (fs_stat p s).1.1)%Z;
}.

(** A volume whose directories can be read: opening one that has files below
    it does not fail, nor does reading entries; every directory on the way to a
    file is listed in its parent, and no name twice with the same type. *)
Class FsDirLive (FS FH DH : Type) `{!FileSys FS FH DH} : Prop := {
  live_opendir dh p q s :
    is_Some (fs_files s !! (p ++ [Byte.x2f] ++ q)) → (0 ≤ (fs_opendir dh p s).1.1)%Z;
  live_readdir dh s : (0 ≤ (fs_readdir dh s).1.1.1)%Z;
  opendir_distinct dh p s :
    (fs_opendir dh p s).1.1 = 0%Z →
    NoDup (map (λ e, (de_type' e, de_name e)) (dh_rest (fs_opendir dh p s).1.2));
  opendir_dirs dh p name q s :
    (fs_opendir dh p s).1.1 = 0%Z → file_name name →
    is_Some (fs_files s !! (p ++ [Byte.x2f] ++ name ++ [Byte.x2f] ++ q)) →
    ∃ e, e ∈ dh_rest (fs_opendir dh p s).1.2 ∧ de_name e = name ∧ de_type' e = FS_DIR_ENTRY_DIR;
}.

(** A volume with room on which writing does not fail either. *)
Class FsRoom (FS FH DH : Type) `{!FileSys FS FH DH} : Prop := {
  room_live :: FsLive FS FH DH;
  room_create fh p fl s : fs_o_create fl = true → (0 ≤ (fs_open fh p fl s).1.1)%Z;
  room_write fh data s :
    is_Some (fs_files s !! fh_path fh) → (fs_write fh data s).1.1 = Z.of_nat (length data);
  room_rename p q s : is_Some (fs_files s !! p) → (fs_rename p q s).1 = 0%Z;
  room_unlink p s : is_Some (fs_files s !! p) → (fs_unlink p s).1 = 0%Z;
  room_mkdir p s : (0 ≤ (fs_mkdir p s).1)%Z ∨ (fs_mkdir p s).1 = (- EEXIST)%Z;
}.

(** A volume whose rename replaces an existing destination, as LittleFS does. *)
Class FsReplace (FS FH DH : Type) `{!FileSys FS FH DH} : Prop :=
  rename_replaces p q s : (fs_rename p q s).1 ≠ (- EEXIST)%Z.

(** A volume where a path that names no file names no directory either, so that
    opening it to read reports that it is missing. *)
Class FsMissing (FS FH DH : Type) `{!FileSys FS FH DH} : Prop :=
  open_missing fh p fl s :
    fs_files s !! p = None → fs_o_create fl = false → (fs_open fh p fl s).1.1 = (- ENOENT)%Z.
