(* ===== verification/FcbEnv.v ===== *)
(** * The flash circular buffer, as an interface

    Zephyr's FCB ([zephyr/fs/fcb.h]) and the flash map under it, which the
    FCB variant of the time-series store calls. [B] is the private part of a
    [struct fcb], [D] the flash device, [Sec] a [struct flash_sector], [L] a
    [struct fcb_entry]: the place of an entry. *)

From S2P Require Import Prelude Config Env Types.

(** The fields of a [struct fcb] that its user sets ([f_sectors] is the array
    passed beside it). *)
Record fcb_setup := { f_magic : Z; f_version : Z; f_scratch_cnt : Z; f_sector_cnt : Z }.

Class Fcb (B D Sec L : Type) := {
  (** The sectors of a flash area, for an array of the given length. *)
  flash_area_get_sectors : Z → nat → D → Z * list Sec;
  (** What [memset] leaves: a [struct fcb] and a [struct fcb_entry] of zeros,
      whose [fe_sector] is NULL. *)
  fcb_zero : B;
  fcb_entry_zero : L;
  fcb_init : Z → fcb_setup → list Sec → D → Z * (B * D);
  fcb_append : nat → B * D → (Z * L) * (B * D);
  fcb_rotate : B * D → Z * (B * D);
  fcb_append_finish : L → B * D → Z * (B * D);
  (** The entry after a place, from the oldest on when [fe_sector] is NULL. *)
  fcb_getnext : L → B * D → (Z * L) * (B * D);
  fe_data_len : L → nat;
  FCB_ENTRY_FA_DATA_OFF : L → Z;
  (** Through [fap] of the [struct fcb]. *)
  flash_area_write : Z → list byte → B * D → Z * (B * D);
  flash_area_read : Z → nat → B * D → (Z * list byte) * (B * D);
  (** Views: the finished entries on the device, oldest first; those after a
      place, and the one at it; whether the [struct fcb] is initialised on the
      device; the entry being written (its place, and the data so far); the
      errno that says that no entry follows, which the documentation leaves
      open. *)
  fcb_entries : D → list (list byte);
  fcb_ahead : B * D → L → list (list byte);
  fcb_at : B * D → L → option (list byte);
  fcb_mounted : B * D → Prop;
  fcb_writing : B * D → option (L * option (list byte));
  fcb_end_errno : Z;
}.

Section views.
Context {B D Sec L : Type} `{!Fcb B D Sec L}.

(** Neither the entries nor what the places denote have changed. *)
Record fcb_same (x y : B * D) : Prop := {
  fs_mounted : fcb_mounted x → fcb_mounted y;
  fs_entries : fcb_entries y.2 = fcb_entries x.2;
  fs_ahead l : fcb_ahead y l = fcb_ahead x l;
  fs_at l : fcb_at y l = fcb_at x l;
}.

#[global] Instance fcb_same_preorder : PreOrder fcb_same.
Proof. split; [by intros ?|]. intros x y z [] []. split; [auto|congruence..]. Qed.

(** The oldest entries are gone, and nothing else. *)
Definition fcb_shed (x y : B * D) : Prop :=
  (fcb_mounted x → fcb_mounted y) ∧ fcb_entries y.2 `suffix_of` fcb_entries x.2.
End views.

(** Every operation may fail. A reserved entry counts once it is finished; a
    failed finish may have stored it. Rotating gives up the oldest sector. *)
Class FcbLaws (B D Sec L : Type) `{!Fcb B D Sec L} : Prop := {
  fcb_init_law area s sectors d :
    let r := fcb_init area s sectors d in
    fcb_entries r.2.2 = fcb_entries d ∧ (r.1 = 0%Z ∧ fcb_mounted r.2 ∨ (r.1 < 0)%Z);
  fcb_ahead_zero x : fcb_mounted x → fcb_ahead x fcb_entry_zero = fcb_entries x.2;
  fcb_append_law len x :
    fcb_mounted x →
    let r := fcb_append len x in
    fcb_same x r.2 ∧
    (r.1.1 = 0%Z ∧ fe_data_len r.1.2 = len ∧ fcb_writing r.2 = Some (r.1.2, None) ∨ (r.1.1 < 0)%Z);
  fcb_rotate_law x :
    fcb_mounted x →
    let r := fcb_rotate x in fcb_shed x r.2 ∧ (r.1 ≤ 0)%Z;
  flash_write_law l w data x :
    fcb_mounted x → fcb_writing x = Some (l, w) → length data = fe_data_len l →
    let r := flash_area_write (FCB_ENTRY_FA_DATA_OFF l) data x in
    fcb_same x r.2 ∧ (r.1 = 0%Z ∧ fcb_writing r.2 = Some (l, Some data) ∨ (r.1 < 0)%Z);
  fcb_append_finish_law l data x :
    fcb_mounted x → fcb_writing x = Some (l, Some data) →
    let r := fcb_append_finish l x in
    fcb_mounted r.2 ∧
    (r.1 = 0%Z ∧ fcb_entries r.2.2 = fcb_entries x.2 ++ [data] ∨
     (r.1 < 0)%Z ∧ (fcb_entries r.2.2 = fcb_entries x.2 ∨
                    fcb_entries r.2.2 = fcb_entries x.2 ++ [data]));
  fcb_end_law : (fcb_end_errno < 0)%Z;
  fcb_getnext_law l x :
    fcb_mounted x →
    let r := fcb_getnext l x in
    fcb_same x r.2 ∧
    match fcb_ahead x l with
    | [] => (r.1.1 < 0)%Z
    | data :: rest =>
        r.1.1 = 0%Z ∧ fe_data_len r.1.2 = length data ∧
        fcb_ahead x r.1.2 = rest ∧ fcb_at x r.1.2 = Some data ∨ (r.1.1 < 0)%Z
    end;
  flash_read_law l data x :
    fcb_mounted x → fcb_at x l = Some data →
    let r := flash_area_read (FCB_ENTRY_FA_DATA_OFF l) (fe_data_len l) x in
    fcb_same x r.2 ∧ (r.1 = (0%Z, data) ∨ (r.1.1 < 0)%Z);
}.

(** A device whose reads do not fail. *)
Class FcbLive (B D Sec L : Type) `{!Fcb B D Sec L} : Prop := {
  fcb_getnext_live l x :
    fcb_mounted x →
    (fcb_getnext l x).1.1 = match fcb_ahead x l with [] => fcb_end_errno | _ => 0%Z end;
  flash_read_live l data x :
    fcb_mounted x → fcb_at x l = Some data →
    (flash_area_read (FCB_ENTRY_FA_DATA_OFF l) (fe_data_len l) x).1.1 = 0%Z;
}.
