(* ===== verification/Events.v ===== *)
(** * Events, the instance lock and the health state ([zephyrdb_core.c])

    What [zephyrdb_core.c] shares with the data models: locking and unlocking
    the instance, the deferred publication of what happened under the lock,
    the four emitters with the zbus adapter of [zephyrdb_eventing_zbus.c], and
    [zdb_health_check]. *)

From S2P Require Import Prelude Config Env Types.

Section events.
Context {Cfg : Config} {K F FS : Type} `{!Kernel K}.
Abbreviation W := (world K F FS).

(** ** The zbus adapter ([zephyrdb_eventing_zbus.c]) *)

(** One message put on a channel or handed to a callback, tagged with whether
    the calling thread owns the instance lock at that moment. *)
Definition deliver (dst : destination) (ev : event) : M W unit :=
  λ w, (tt, w <| w_log ::= λ l,
          l ++ [{| dl_event := ev; dl_to := dst; dl_locked := k_mutex_owned (w_k w) |}] |>).

Definition zbus_publish (ev : event) : M W Z :=
  deliver ToZbus ev;; on_k zbus_chan_pub.

Definition zdb_eventing_zbus_publish (e : option zdb_kv_event_t) : M W Z :=
  match e with None => ret (- EINVAL)%Z | Some e => zbus_publish (EvKv e) end.
Definition zdb_eventing_zbus_publish_ts (e : option zdb_ts_event_t) : M W Z :=
  match e with None => ret (- EINVAL)%Z | Some e => zbus_publish (EvTs e) end.
Definition zdb_eventing_zbus_publish_doc (e : option zdb_doc_event_t) : M W Z :=
  match e with None => ret (- EINVAL)%Z | Some e => zbus_publish (EvDoc e) end.
Definition zdb_eventing_zbus_publish_core (e : option zdb_core_event_t) : M W Z :=
  match e with None => ret (- EINVAL)%Z | Some e => zbus_publish (EvCore e) end.

(** ** The emitters *)

(** [zdb_event_copy_name] into a field of [dst_size] bytes. *)
Definition zdb_event_copy_name (dst_size : nat) (src : option cstring) : cstring :=
  match src with
  | None => []
  | Some s => strncpy_trunc (dst_size - 1) s
  end.

(** The listener loop the four emitters end with. *)
Fixpoint notify_each (ls : list listener) (ev : event) : M W unit :=
  match ls with
  | [] => ret tt
  | l :: ls =>
      (if notify l then deliver (ToListener (user_ctx l)) ev else ret tt);;
      notify_each ls ev
  end.

Definition notify_all (ls : option (list listener)) (ev : event) : M W unit :=
  match ls with None => ret tt | Some ls => notify_each ls ev end.

Definition zdb_emit_kv_event (db : db_ptr) (type : zdb_event_type_t)
    (namespace_name key : option cstring) (value_len : nat) (status : zdb_status_t)
    : M W unit :=
  match db with
  | None => ret tt
  | Some _ =>
      now ← on_k k_uptime_get;
      let e := {| ke_type := type;
                  ke_namespace_name := zdb_event_copy_name (CONFIG_ZDB_MAX_KEY_LEN + 1) namespace_name;
                  ke_key := zdb_event_copy_name (CONFIG_ZDB_MAX_KEY_LEN + 1) key;
                  ke_value_len := value_len;
                  ke_timestamp_ms := u64 now;
                  ke_status := status |} in
      (if CONFIG_ZDB_EVENTING_ZBUS
       then zdb_eventing_zbus_publish (Some e) ;; ret tt else ret tt);;
      ls ← db_get event_listeners;
      notify_all ls (EvKv e)
  end.

Definition zdb_emit_ts_event (db : db_ptr) (type : zdb_ts_event_type_t)
    (stream_name : option cstring) (sample_ts_ms sample_value : Z)
    (flushed_bytes truncated_bytes : nat) (status : zdb_status_t) : M W unit :=
  match db with
  | None => ret tt
  | Some _ =>
      now ← on_k k_uptime_get;
      let e := {| te_type := type;
                  te_stream_name :=
                    zdb_event_copy_name (CONFIG_ZDB_TS_STREAM_NAME_MAX_LEN + 1) stream_name;
                  te_timestamp_ms := u64 now;
                  te_sample_ts_ms := sample_ts_ms;
                  te_sample_value := sample_value;
                  te_flushed_bytes := flushed_bytes;
                  te_truncated_bytes := truncated_bytes;
                  te_status := status |} in
      (if CONFIG_ZDB_EVENTING_ZBUS
       then zdb_eventing_zbus_publish_ts (Some e) ;; ret tt else ret tt);;
      ls ← db_get ts_event_listeners;
      notify_all ls (EvTs e)
  end.

Definition zdb_emit_doc_event (db : db_ptr) (type : zdb_doc_event_type_t)
    (collection_name document_id : option cstring) (field_count serialized_bytes : nat)
    (status : zdb_status_t) : M W unit :=
  match db with
  | None => ret tt
  | Some _ =>
      now ← on_k k_uptime_get;
      let e := {| de_type := type;
                  de_collection_name :=
                    zdb_event_copy_name (CONFIG_ZDB_MAX_KEY_LEN + 1) collection_name;
                  de_document_id :=
                    zdb_event_copy_name (CONFIG_ZDB_MAX_KEY_LEN + 1) document_id;
                  de_timestamp_ms := u64 now;
                  de_field_count := field_count;
                  de_serialized_bytes := serialized_bytes;
                  de_status := status |} in
      (if CONFIG_ZDB_EVENTING_ZBUS
       then zdb_eventing_zbus_publish_doc (Some e) ;; ret tt else ret tt);;
      ls ← db_get doc_event_listeners;
      notify_all ls (EvDoc e)
  end.

Definition zdb_emit_core_event (db : db_ptr) (type : zdb_core_event_type_t)
    (prev_health health : zdb_health_t) (status : zdb_status_t) : M W unit :=
  match db with
  | None => ret tt
  | Some _ =>
      now ← on_k k_uptime_get;
      let e := {| ce_type := type;
                  ce_timestamp_ms := u64 now;
                  ce_health := health;
                  ce_prev_health := prev_health;
                  ce_status := status |} in
      (if CONFIG_ZDB_EVENTING_ZBUS
       then zdb_eventing_zbus_publish_core (Some e) ;; ret tt else ret tt);;
      ls ← db_get core_event_listeners;
      notify_all ls (EvCore e)
  end.

(** ** Locking *)

Definition zdb_lock_read (db : db_ref) : M W zdb_status_t :=
  rc ← on_k k_mutex_lock;
  ret (if (rc =? 0)%Z then ZDB_OK else ZDB_ERR_BUSY).

Definition zdb_lock_write (db : db_ref) : M W zdb_status_t :=
  rc ← on_k k_mutex_lock;
  ret (if (rc =? 0)%Z then ZDB_OK else ZDB_ERR_BUSY).

(** What [zdb_ts_take_deferred_events] accumulates over the stream slots:
    bytes flushed, bytes discarded, how many streams have something to report,
    and the name of the last of them. *)
Record deferred := {
  df_flushed : nat;
  df_discarded : nat;
  df_naming : nat;
  df_stream : option cstring;
}.

Fixpoint take_deferred_slots (slots : list zdb_ts_stream_ctx) (d : deferred)
    : list zdb_ts_stream_ctx * deferred :=
  match slots with
  | [] => ([], d)
  | slot :: rest =>
      if (pending_flush_bytes slot =? 0) && (pending_discarded_bytes slot =? 0) then
        let r := take_deferred_slots rest d in (slot :: r.1, r.2)
      else
        let d' := {| df_flushed := df_flushed d + pending_flush_bytes slot;
                     df_discarded := df_discarded d + pending_discarded_bytes slot;
                     df_naming := S (df_naming d);
                     df_stream := Some (st_name slot) |} in
        let slot' := slot <| pending_flush_bytes := 0 |> <| pending_discarded_bytes := 0 |> in
        let r := take_deferred_slots rest d' in (slot' :: r.1, r.2)
  end.

(** [zdb_ts_take_deferred_events] on the context, with [out_stream_size]. *)
Definition zdb_ts_take_deferred_events (out_stream_size : nat) (ctx : option zdb_ts_core_ctx)
    : option zdb_ts_core_ctx * (nat * nat * cstring) :=
  match ctx with
  | None => (None, (0, 0, []))
  | Some ctx =>
      let '(slots, d) := take_deferred_slots (streams ctx)
          {| df_flushed := 0; df_discarded := 0; df_naming := 0; df_stream := None |} in
      let ctx := ctx <| streams := slots |> in
      let '(ctx, d) :=
        if (0 <? released_flush_bytes ctx) || (0 <? released_discarded_bytes ctx) then
          (ctx <| released_flush_bytes := 0 |> <| released_discarded_bytes := 0 |>,
           {| df_flushed := df_flushed d + released_flush_bytes ctx;
              df_discarded := df_discarded d + released_discarded_bytes ctx;
              df_naming := S (df_naming d);
              df_stream := Some (released_stream ctx) |})
        else (ctx, d) in
      let name :=
        match df_stream d with
        | Some s => if df_naming d =? 1 then strncpy_trunc (out_stream_size - 1) s else []
        | None => []
        end in
      (Some ctx, (df_flushed d, df_discarded d, name))
  end.

(** [zdb_unlock_common]: consume what the locked section deferred, release the
    lock, then publish. *)
Definition zdb_unlock_common (db : db_ref) : M W unit :=
  if CONFIG_ZDB_EVENTING then
    health_changed ← db_get health_event_pending;
    prev ← (if health_changed then db_get health_prev else ret ZDB_HEALTH_OK);
    now ← (if health_changed then db_get health else ret ZDB_HEALTH_OK);
    (if health_changed then db_set (λ d, d <| health_event_pending := false |>) else ret tt);;
    t ← (if CONFIG_ZDB_TS then
           ctx ← db_get ts_ctx;
           let r := zdb_ts_take_deferred_events (CONFIG_ZDB_TS_STREAM_NAME_MAX_LEN + 1) ctx in
           db_set (λ d, d <| ts_ctx := r.1 |>);;
           ret r.2
         else ret (0, 0, []));
    on_k_ k_mutex_unlock;;
    (if health_changed
     then zdb_emit_core_event (Some db) ZDB_CORE_EVENT_HEALTH prev now ZDB_OK else ret tt);;
    (if CONFIG_ZDB_TS && (0 <? t.1.1)
     then zdb_emit_ts_event (Some db) ZDB_TS_EVENT_FLUSH (Some t.2) 0 0 t.1.1 0 ZDB_OK
     else ret tt);;
    (if CONFIG_ZDB_TS && (0 <? t.1.2)
     then zdb_emit_ts_event (Some db) ZDB_TS_EVENT_ROLLOVER (Some t.2) 0 0 0 t.1.2 ZDB_OK
     else ret tt)
  else on_k_ k_mutex_unlock.

Definition zdb_unlock_read (db : db_ref) : M W unit := zdb_unlock_common db.
Definition zdb_unlock_write (db : db_ref) : M W unit := zdb_unlock_common db.

(** ** Health *)

(** [zdb_health_check]: report a fault just detected. *)
Definition zdb_health_check (db : db_ptr) : M W unit :=
  match db with
  | None => ret tt
  | Some _ =>
      h ← db_get health;
      if health_level ZDB_HEALTH_DEGRADED <=? health_level h then ret tt
      else
        (if CONFIG_ZDB_EVENTING then db_set (λ d, d <| health_prev := health d |>) else ret tt);;
        db_set (λ d, d <| health := ZDB_HEALTH_DEGRADED |>);;
        (if CONFIG_ZDB_EVENTING then
           owned ← mgets (λ w, k_mutex_owned (w_k w));
           if owned : bool then db_set (λ d, d <| health_event_pending := true |>)
           else
             prev ← db_get health_prev;
             now ← db_get health;
             zdb_emit_core_event db ZDB_CORE_EVENT_HEALTH prev now ZDB_OK
         else ret tt)
  end.

(** [zdb_health]. *)
Definition zdb_health (db : db_ptr) : M W zdb_health_t :=
  match db with
  | None => ret ZDB_HEALTH_FAULT
  | Some _ =>
      c ← db_get cfg;
      match c with
      | None => ret ZDB_HEALTH_FAULT
      | Some _ => db_get health
      end
  end.

End events.

#[global] Arguments zdb_emit_kv_event : simpl never.
#[global] Arguments zdb_emit_ts_event : simpl never.
#[global] Arguments zdb_emit_doc_event : simpl never.
#[global] Arguments zdb_emit_core_event : simpl never.

(** ** What an emission does *)

Section emission.
Context {Cfg : Config} {K F FS : Type} `{!Kernel K, !KernelLaws K}.
Abbreviation W := (world K F FS).
Implicit Types w : W.

(** The destinations of one event, in the order they are served. *)
Definition recipients (ls : option (list listener)) : list destination :=
  (if CONFIG_ZDB_EVENTING_ZBUS then [ToZbus] else []) ++
  map (λ l, ToListener (user_ctx l)) (filter (λ l, notify l = true) (default [] ls)).

Definition deliveries (locked : bool) (ls : option (list listener)) (ev : event)
    : list delivery :=
  map (λ dst, {| dl_event := ev; dl_to := dst; dl_locked := locked |}) (recipients ls).

(** Between [w] and [w'] only the clock advanced and [new] was delivered. *)
Record emitted (new : list delivery) (w w' : W) : Prop := {
  em_db : w_db w' = w_db w;
  em_f : w_f w' = w_f w;
  em_fs : w_fs w' = w_fs w;
  em_k : k_same (w_k w) (w_k w');
  em_log : w_log w' = w_log w ++ new;
}.

Lemma emitted_refl w : emitted [] w w.
Proof. split; try done. by rewrite app_nil_r. Qed.

Lemma emitted_trans n1 n2 w1 w2 w3 :
  emitted n1 w1 w2 → emitted n2 w2 w3 → emitted (n1 ++ n2) w1 w3.
Proof.
  intros [] []. split; try congruence; [by etrans|].
  rewrite app_assoc. congruence.
Qed.

Lemma k_owned_same k k' : k_same k k' → k_mutex_owned k' = k_mutex_owned k.
Proof. intros [Hl _ _]. by rewrite !k_mutex_owned_law, Hl. Qed.

Lemma emitted_owned n w w' :
  emitted n w w' → k_mutex_owned (w_k w') = k_mutex_owned (w_k w).
Proof. intros H. apply k_owned_same, H. Qed.

Lemma on_k_emitted {A} (op : K → A * K) w :
  k_same (w_k w) (op (w_k w)).2 → emitted [] w (on_k op w).2.
Proof. intros H. split; try done. simpl. by rewrite app_nil_r. Qed.

Lemma deliver_emitted dst ev w :
  emitted [{| dl_event := ev; dl_to := dst; dl_locked := k_mutex_owned (w_k w) |}]
    w (deliver dst ev w).2.
Proof. by split. Qed.

Lemma notify_each_emitted ls ev w :
  emitted (map (λ l, {| dl_event := ev; dl_to := ToListener (user_ctx l);
                        dl_locked := k_mutex_owned (w_k w) |})
             (filter (λ l, notify l = true) ls))
    w (notify_each ls ev w).2.
Proof.
  revert w. induction ls as [|l ls IH]; intros w; [apply emitted_refl|].
  simpl. unfold bind. destruct (notify l) eqn:Hn.
  - rewrite filter_cons_True by done. simpl.
    pose proof (deliver_emitted (ToListener (user_ctx l)) ev w) as Hd.
    apply (emitted_trans [_] _ _ _ _ Hd).
    rewrite <- (emitted_owned _ _ _ Hd). apply IH.
  - rewrite filter_cons_False by congruence. apply IH.
Qed.

Lemma zbus_publish_emitted ev w :
  emitted [{| dl_event := ev; dl_to := ToZbus; dl_locked := k_mutex_owned (w_k w) |}]
    w (zbus_publish ev w).2.
Proof.
  unfold zbus_publish, bind. eapply (emitted_trans [_] []); [apply deliver_emitted|].
  apply on_k_emitted, zbus_chan_pub_law.
Qed.

(** The tail every emitter shares: the zbus message, then the listeners. *)
Lemma publish_notify_emitted (pub : M W Z) (get : zdb_t → option (list listener)) ev w :
  (∀ w0, (pub w0).2 = (zbus_publish ev w0).2) →
  emitted (deliveries (k_mutex_owned (w_k w)) (get (w_db w)) ev) w
    (((if CONFIG_ZDB_EVENTING_ZBUS then pub;; ret tt else ret tt);;
      ls ← db_get get; notify_all ls ev) w).2.
Proof.
  intros Hpub. unfold deliveries, recipients. rewrite map_app.
  assert (∀ w0, emitted
    (map (λ dst, {| dl_event := ev; dl_to := dst; dl_locked := k_mutex_owned (w_k w0) |})
       (map (λ l, ToListener (user_ctx l))
          (filter (λ l, notify l = true) (default [] (get (w_db w0))))))
    w0 ((ls ← db_get get; notify_all ls ev) w0).2) as Hn.
  { intros w0. unfold bind, db_get, mgets. simpl.
    destruct (get (w_db w0)) as [ls|]; simpl; [|apply emitted_refl].
    rewrite map_map. apply notify_each_emitted. }
  destruct CONFIG_ZDB_EVENTING_ZBUS; [|apply Hn].
  pose proof (zbus_publish_emitted ev w) as Hz.
  simpl. unfold bind at 1 2. simpl. rewrite Hpub.
  apply (emitted_trans [_] _ _ _ _ Hz).
  rewrite <- (emitted_owned _ _ _ Hz), <- (em_db _ _ _ Hz). apply Hn.
Qed.

(** The wp of an emitter: it delivers one event with the given contents. *)
Ltac emitter_wp :=
  let HQ := fresh "HQ" in let w := fresh "w" in
  intros HQ; apply wp_bind; unfold wp at 1;
  lazymatch goal with
  | |- wp _ _ (on_k k_uptime_get ?w0).2 =>
      let Hk := fresh "Hk" in
      pose proof (on_k_emitted k_uptime_get w0 (proj2 (k_uptime_get_law (w_k w0)))) as Hk;
      unfold wp; lazymatch goal with |- ?Q ?r _ => destruct r end;
      eapply HQ; cycle -1;
      [ rewrite <- (emitted_owned _ _ _ Hk), <- (em_db _ _ _ Hk);
        eapply (emitted_trans [] _ _ _ _ Hk), publish_notify_emitted; done
      | done.. ]
  end.

Lemma wp_emit_kv db ty ns key len st (Q : unit → W → Prop) w :
  (∀ e w', ke_type e = ty →
     ke_namespace_name e = zdb_event_copy_name (CONFIG_ZDB_MAX_KEY_LEN + 1) ns →
     ke_key e = zdb_event_copy_name (CONFIG_ZDB_MAX_KEY_LEN + 1) key →
     ke_value_len e = len → ke_status e = st →
     emitted (deliveries (k_mutex_owned (w_k w)) (event_listeners (w_db w)) (EvKv e)) w w' →
     Q tt w') →
  wp (zdb_emit_kv_event (Some db) ty ns key len st) Q w.
Proof. emitter_wp. Qed.

Lemma wp_emit_ts db ty name ts v fl tr st (Q : unit → W → Prop) w :
  (∀ e w', te_type e = ty →
     te_stream_name e = zdb_event_copy_name (CONFIG_ZDB_TS_STREAM_NAME_MAX_LEN + 1) name →
     te_sample_ts_ms e = ts → te_sample_value e = v →
     te_flushed_bytes e = fl → te_truncated_bytes e = tr → te_status e = st →
     emitted (deliveries (k_mutex_owned (w_k w)) (ts_event_listeners (w_db w)) (EvTs e)) w w' →
     Q tt w') →
  wp (zdb_emit_ts_event (Some db) ty name ts v fl tr st) Q w.
Proof. emitter_wp. Qed.

Lemma wp_emit_doc db ty coll id fc sb st (Q : unit → W → Prop) w :
  (∀ e w', de_type e = ty →
     de_collection_name e = zdb_event_copy_name (CONFIG_ZDB_MAX_KEY_LEN + 1) coll →
     de_document_id e = zdb_event_copy_name (CONFIG_ZDB_MAX_KEY_LEN + 1) id →
     de_field_count e = fc → de_serialized_bytes e = sb → de_status e = st →
     emitted (deliveries (k_mutex_owned (w_k w)) (doc_event_listeners (w_db w)) (EvDoc e)) w w' →
     Q tt w') →
  wp (zdb_emit_doc_event (Some db) ty coll id fc sb st) Q w.
Proof. emitter_wp. Qed.

Lemma wp_emit_core db ty prev h st (Q : unit → W → Prop) w :
  (∀ e w', ce_type e = ty → ce_prev_health e = prev → ce_health e = h → ce_status e = st →
     emitted (deliveries (k_mutex_owned (w_k w)) (core_event_listeners (w_db w)) (EvCore e)) w w' →
     Q tt w') →
  wp (zdb_emit_core_event (Some db) ty prev h st) Q w.
Proof. emitter_wp. Qed.

(** ** Locking and unlocking *)

Lemma wp_lock (Q : zdb_status_t → W → Prop) w db :
  (∀ k', lock_depth k' = S (lock_depth (w_k w)) →
     (∀ s, slab_used k' s = slab_used (w_k w) s) → heap_used k' = heap_used (w_k w) →
     Q ZDB_OK (w <| w_k := k' |>)) →
  (∀ k', k_same (w_k w) k' → ¬ LockLive K → Q ZDB_ERR_BUSY (w <| w_k := k' |>)) →
  wp (zdb_lock_write db) Q w.
Proof.
  intros Hok Hbusy. apply wp_bind, wp_on_k. intros rc k' Heq. apply wp_ret.
  pose proof (k_mutex_lock_law (w_k w)) as (Hrc & Hs & Hh). rewrite Heq in *. simpl in *.
  destruct Hrc as [[-> Hd]|[Hne Hd]]; [by apply Hok|].
  destruct (Z.eqb_spec rc 0); [done|]. apply Hbusy; [by split|].
  intros Hlive. pose proof (Hlive (w_k w)) as Hl. by rewrite Heq in Hl.
Qed.

(** The instance after [zdb_unlock_common]: what was pending is consumed. *)
Definition unlock_db (d : zdb_t) : zdb_t :=
  if CONFIG_ZDB_EVENTING then
    let d := d <| health_event_pending := false |> in
    if CONFIG_ZDB_TS then
      d <| ts_ctx := (zdb_ts_take_deferred_events
             (CONFIG_ZDB_TS_STREAM_NAME_MAX_LEN + 1) (ts_ctx d)).1 |>
    else d
  else d.

(** Two slots, and two contexts, that differ only in what they have pending. *)
Definition slot_sim (s s' : zdb_ts_stream_ctx) : Prop :=
  ∃ fb db, s' = s <| pending_flush_bytes := fb |> <| pending_discarded_bytes := db |>.

Lemma slot_sim_refl s : slot_sim s s.
Proof. exists (pending_flush_bytes s), (pending_discarded_bytes s). by destruct s. Qed.

Lemma slot_sim_trans s1 s2 s3 : slot_sim s1 s2 → slot_sim s2 s3 → slot_sim s1 s3.
Proof. intros (a & b & ->) (c & d & ->). by exists c, d. Qed.

#[global] Instance slot_sim_preorder : PreOrder slot_sim.
Proof. split; [exact slot_sim_refl|exact slot_sim_trans]. Qed.

Definition ctx_sim (c c' : option zdb_ts_core_ctx) : Prop :=
  match c, c' with
  | None, None => True
  | Some c, Some c' => Forall2 slot_sim (streams c) (streams c')
  | _, _ => False
  end.

#[global] Instance ctx_sim_preorder : PreOrder ctx_sim.
Proof.
  split; [intros [c|]; simpl; done|]. intros [c1|] [c2|] [c3|] H1 H2; simpl in *; try done. by etrans.
Qed.

Lemma take_deferred_sim slots d : Forall2 slot_sim slots (take_deferred_slots slots d).1.
Proof.
  revert d. induction slots as [|s slots IH]; intros d; simpl; [done|].
  destruct (_ && _); simpl; constructor; try done. by exists 0, 0.
Qed.

Lemma ctx_sim_taken n c : ctx_sim c (zdb_ts_take_deferred_events n c).1.
Proof.
  destruct c as [c|]; [|done]. simpl.
  pose proof (take_deferred_sim (streams c)
    {| df_flushed := 0; df_discarded := 0; df_naming := 0; df_stream := None |}) as H.
  destruct (take_deferred_slots _ _) as [slots d]. simpl in *. by destruct (_ || _).
Qed.

Lemma ctx_sim_unlock d : ctx_sim (ts_ctx d) (ts_ctx (unlock_db d)).
Proof.
  unfold unlock_db. destruct CONFIG_ZDB_EVENTING, CONFIG_ZDB_TS; try done. apply ctx_sim_taken.
Qed.

(** What the locked section left to publish: bytes flushed, bytes discarded,
    and the stream they belong to when it is unambiguous. *)
Definition pending_of (d : zdb_t) : nat * nat * cstring :=
  if CONFIG_ZDB_TS then
    (zdb_ts_take_deferred_events (CONFIG_ZDB_TS_STREAM_NAME_MAX_LEN + 1) (ts_ctx d)).2
  else (0, 0, []).

(** The events [zdb_unlock_common] publishes for an instance. *)
Inductive unlock_events (d : zdb_t) : list (option (list listener) * event) → Prop :=
  unlock_events_intro eh ef er :
    ce_type eh = ZDB_CORE_EVENT_HEALTH → ce_prev_health eh = health_prev d →
    ce_health eh = health d → ce_status eh = ZDB_OK →
    te_type ef = ZDB_TS_EVENT_FLUSH → te_flushed_bytes ef = (pending_of d).1.1 →
    te_truncated_bytes ef = 0 →
    te_stream_name ef = zdb_event_copy_name (CONFIG_ZDB_TS_STREAM_NAME_MAX_LEN + 1)
                          (Some (pending_of d).2) →
    te_type er = ZDB_TS_EVENT_ROLLOVER → te_truncated_bytes er = (pending_of d).1.2 →
    te_flushed_bytes er = 0 →
    te_stream_name er = zdb_event_copy_name (CONFIG_ZDB_TS_STREAM_NAME_MAX_LEN + 1)
                          (Some (pending_of d).2) →
    unlock_events d
      (if CONFIG_ZDB_EVENTING then
         (if health_event_pending d then [(core_event_listeners d, EvCore eh)] else []) ++
         (if CONFIG_ZDB_TS && (0 <? (pending_of d).1.1)
          then [(ts_event_listeners d, EvTs ef)] else []) ++
         (if CONFIG_ZDB_TS && (0 <? (pending_of d).1.2)
          then [(ts_event_listeners d, EvTs er)] else [])
       else []).

Definition all_deliveries (locked : bool) (evs : list (option (list listener) * event))
    : list delivery :=
  evs ≫= λ p, deliveries locked p.1 p.2.

(** A conditional emission, whatever the condition. *)
Lemma wp_emitted_if (b : bool) (m : M W unit) (mk : list delivery → Prop)
    (Q : unit → W → Prop) w :
  (∀ Q', (∀ n w', mk n → emitted n w w' → Q' tt w') → wp m Q' w) →
  (b = false → mk []) →
  (∀ n w', mk n → emitted n w w' → Q tt w') →
  wp (if b then m else ret tt) Q w.
Proof.
  intros Hm He0 HQ. destruct b.
  - apply Hm. intros n w' He Hem. by eapply HQ.
  - eapply HQ; [by apply He0|]. apply emitted_refl.
Qed.

Lemma unlock_db_listeners d :
  event_listeners (unlock_db d) = event_listeners d ∧
  ts_event_listeners (unlock_db d) = ts_event_listeners d ∧
  doc_event_listeners (unlock_db d) = doc_event_listeners d ∧
  core_event_listeners (unlock_db d) = core_event_listeners d.
Proof.
  unfold unlock_db. destruct CONFIG_ZDB_EVENTING, CONFIG_ZDB_TS; done.
Qed.

(** The locked prefix of [zdb_unlock_common] and its unlocked tail. *)
Lemma zdb_unlock_common_eq db w :
  CONFIG_ZDB_EVENTING = true →
  zdb_unlock_common db w =
  ((if health_event_pending (w_db w)
    then zdb_emit_core_event (Some db) ZDB_CORE_EVENT_HEALTH
           (health_prev (w_db w)) (health (w_db w)) ZDB_OK else ret tt);;
   (if CONFIG_ZDB_TS && (0 <? (pending_of (w_db w)).1.1)
    then zdb_emit_ts_event (Some db) ZDB_TS_EVENT_FLUSH (Some (pending_of (w_db w)).2)
           0 0 (pending_of (w_db w)).1.1 0 ZDB_OK else ret tt);;
   (if CONFIG_ZDB_TS && (0 <? (pending_of (w_db w)).1.2)
    then zdb_emit_ts_event (Some db) ZDB_TS_EVENT_ROLLOVER (Some (pending_of (w_db w)).2)
           0 0 0 (pending_of (w_db w)).1.2 ZDB_OK else ret tt))
    (w <| w_db ::= unlock_db |> <| w_k ::= k_mutex_unlock |>).
Proof.
  intros HE. destruct w as [[? ? ? ? ? ? ? ? ? ? ? ? ? ? pend] k f fs l].
  unfold zdb_unlock_common, unlock_db, pending_of. rewrite HE. clear HE.
  destruct pend, CONFIG_ZDB_TS; reflexivity.
Qed.

(** The three conditional events of the tail. *)
Lemma wp_unlock_tail_health db (b : bool) prev h (Q : unit → W → Prop) w :
  (∀ e n w', ce_type e = ZDB_CORE_EVENT_HEALTH → ce_prev_health e = prev →
     ce_health e = h → ce_status e = ZDB_OK →
     n = all_deliveries (k_mutex_owned (w_k w))
           (if b then [(core_event_listeners (w_db w), EvCore e)] else []) →
     emitted n w w' → Q tt w') →
  wp (if b then zdb_emit_core_event (Some db) ZDB_CORE_EVENT_HEALTH prev h ZDB_OK else ret tt)
    Q w.
Proof.
  intros HQ. destruct b.
  - apply wp_emit_core. intros e w' ???? Hem. eapply (HQ e); try done.
    unfold all_deliveries. simpl. by rewrite app_nil_r.
  - apply (HQ {| ce_type := ZDB_CORE_EVENT_HEALTH; ce_timestamp_ms := 0; ce_health := h;
                 ce_prev_health := prev; ce_status := ZDB_OK |} []); try done.
    apply emitted_refl.
Qed.

Lemma wp_unlock_tail_ts db (b : bool) ty name fl tr (Q : unit → W → Prop) w :
  (∀ e n w', te_type e = ty → te_flushed_bytes e = fl → te_truncated_bytes e = tr →
     te_stream_name e = zdb_event_copy_name (CONFIG_ZDB_TS_STREAM_NAME_MAX_LEN + 1) name →
     n = all_deliveries (k_mutex_owned (w_k w))
           (if b then [(ts_event_listeners (w_db w), EvTs e)] else []) →
     emitted n w w' → Q tt w') →
  wp (if b then zdb_emit_ts_event (Some db) ty name 0 0 fl tr ZDB_OK else ret tt) Q w.
Proof.
  intros HQ. destruct b.
  - apply wp_emit_ts. intros e w' ??????? Hem. eapply (HQ e); try done.
    unfold all_deliveries. simpl. by rewrite app_nil_r.
  - apply (HQ {| te_type := ty;
                 te_stream_name :=
                   zdb_event_copy_name (CONFIG_ZDB_TS_STREAM_NAME_MAX_LEN + 1) name;
                 te_timestamp_ms := 0; te_sample_ts_ms := 0; te_sample_value := 0;
                 te_flushed_bytes := fl; te_truncated_bytes := tr; te_status := ZDB_OK |} []);
      try done. apply emitted_refl.
Qed.

Lemma all_deliveries_app locked l1 l2 :
  all_deliveries locked (l1 ++ l2) = all_deliveries locked l1 ++ all_deliveries locked l2.
Proof. apply bind_app. Qed.

Lemma all_deliveries_locked locked evs :
  Forall (λ d, dl_locked d = locked) (all_deliveries locked evs).
Proof.
  apply Forall_forall. intros d. unfold all_deliveries, deliveries.
  rewrite list_elem_of_bind. intros (p & Hd & _).
  by apply list_elem_of_fmap in Hd as (? & -> & _).
Qed.

Lemma deliveries_locked locked ls ev : Forall (λ d, dl_locked d = locked) (deliveries locked ls ev).
Proof. apply Forall_map, Forall_true. done. Qed.

Lemma wp_unlock db (Q : unit → W → Prop) w :
  (∀ k1 w' evs,
     lock_depth k1 = pred (lock_depth (w_k w)) →
     (∀ s, slab_used k1 s = slab_used (w_k w) s) → heap_used k1 = heap_used (w_k w) →
     unlock_events (w_db w) evs →
     emitted (all_deliveries (k_mutex_owned k1) evs)
       (w <| w_db ::= unlock_db |> <| w_k := k1 |>) w' →
     Q tt w') →
  wp (zdb_unlock_common db) Q w.
Proof.
  intros HQ. pose proof (k_mutex_unlock_law (w_k w)) as (Hd & Hs & Hh).
  specialize (HQ (k_mutex_unlock (w_k w))).
  destruct CONFIG_ZDB_EVENTING eqn:HE.
  - unfold wp. rewrite zdb_unlock_common_eq by done.
    set (w1 := w <| w_db ::= unlock_db |> <| w_k ::= k_mutex_unlock |>).
    match goal with |- Q (?m w1).1 _ => change (wp m Q w1) end.
    destruct (unlock_db_listeners (w_db w)) as (_ & Hts & _ & Hcore).
    apply wp_bind, wp_unlock_tail_health. intros eh n1 w2 ???? -> Hem1.
    apply wp_bind, wp_unlock_tail_ts. intros ef n2 w3 ???? -> Hem2.
    apply wp_unlock_tail_ts. intros er n3 w4 ???? -> Hem3.
    pose proof (emitted_trans _ _ _ _ _ Hem1 (emitted_trans _ _ _ _ _ Hem2 Hem3)) as Hem.
    rewrite (emitted_owned _ _ _ Hem2), (em_db _ _ _ Hem2),
      (emitted_owned _ _ _ Hem1), (em_db _ _ _ Hem1) in Hem.
    unfold w1 in Hem at 1 2 3 4 5 6. simpl in Hem. rewrite Hts, Hcore in Hem.
    rewrite <- !all_deliveries_app in Hem.
    eapply HQ; [done..| |exact Hem].
    pose proof (unlock_events_intro (w_db w) eh ef er) as Hev. rewrite HE in Hev. by apply Hev.
  - unfold zdb_unlock_common. rewrite HE. apply wp_on_k_.
    apply (HQ _ []); [done..| |].
    + pose (e := {| te_type := ZDB_TS_EVENT_FLUSH;
                 te_stream_name := zdb_event_copy_name (CONFIG_ZDB_TS_STREAM_NAME_MAX_LEN + 1)
                                     (Some (pending_of (w_db w)).2);
                 te_timestamp_ms := 0; te_sample_ts_ms := 0; te_sample_value := 0;
                 te_flushed_bytes := (pending_of (w_db w)).1.1; te_truncated_bytes := 0;
                 te_status := ZDB_OK |}).
      pose proof (unlock_events_intro (w_db w)
        {| ce_type := ZDB_CORE_EVENT_HEALTH; ce_timestamp_ms := 0; ce_health := health (w_db w);
           ce_prev_health := health_prev (w_db w); ce_status := ZDB_OK |} e
        (e <| te_type := ZDB_TS_EVENT_ROLLOVER |> <| te_flushed_bytes := 0 |>
           <| te_truncated_bytes := (pending_of (w_db w)).1.2 |>)) as Hev.
      rewrite HE in Hev. by apply Hev.
    + unfold unlock_db. rewrite HE. destruct w. apply emitted_refl.
Qed.
End emission.
