(* ===== verification/Cursor.v ===== *)
(** * Cursors: the public object, the time-series walk state, reset and close

    [zdb_cursor_t] and the time-series types of [zephyrdb.h],
    [struct zdb_ts_cursor_ctx] of [zephyrdb_internal.h], [zdb_cursor_reset] and
    [zdb_cursor_close] of [zephyrdb_core.c]. The functions return the object
    they are given a pointer to; a span [zdb_bytes_t] is the bytes it points
    at, a NULL [data] is [None]. This is the layout of the builds that keep streams in
    LittleFS files; [TsFcb] has the one of the others. *)

From S2P Require Import Prelude Config Env Types FsEnv.

Record zdb_ts_t := { ts_db : db_ptr; ts_stream_name : option cstring }.

Record zdb_ts_sample_i64_t := { ts_ms : Z; value : Z }.

Inductive zdb_ts_agg_t :=
  | ZDB_TS_AGG_MIN | ZDB_TS_AGG_MAX | ZDB_TS_AGG_AVG | ZDB_TS_AGG_SUM | ZDB_TS_AGG_COUNT.

#[global] Instance zdb_ts_agg_eq_dec : EqDecision zdb_ts_agg_t.
Proof. solve_decision. Defined.

Record zdb_ts_window_t := { from_ts_ms : Z; to_ts_ms : Z }.

Definition UINT64_MAX : Z := 2 ^ 64 - 1.
Definition ZDB_TS_WINDOW_ALL : zdb_ts_window_t := {| from_ts_ms := 0; to_ts_ms := UINT64_MAX |}.

Inductive zdb_model_t := ZDB_MODEL_CORE | ZDB_MODEL_KV | ZDB_MODEL_TS.
#[global] Instance zdb_model_eq_dec : EqDecision zdb_model_t.
Proof. solve_decision. Defined.

Inductive zdb_backend_t :=
  | ZDB_BACKEND_NONE | ZDB_BACKEND_NVS | ZDB_BACKEND_ZMS | ZDB_BACKEND_LFS | ZDB_BACKEND_FCB.

(** [zdb_predicate_fn] applied to its context: a test of the record's bytes. *)
Abbreviation zdb_predicate_fn := (zdb_model_t → list byte → bool).

Section cursor_types.
Context {FH : Type}.

Record zdb_ts_cursor_ctx := {
  cc_db : db_ptr;
  cc_stream_name : option cstring;
  window : zdb_ts_window_t;
  cache : list byte;
  file_offset : nat;
  ram_offset : nat;
  file_done : bool;
  cc_cur_seg : Z;
  seg_lo : Z;
  seg_hi : Z;
  hdr_size : nat;
  rec_size : nat;
  base_ts_ms : Z;
  last_ts_ms : Z;
  last_value : Z;
  descending : bool;
  cc_file : FH;
  file_size : nat;
  file_open : bool;
}.

Record zdb_cursor_t := {
  cu_model : zdb_model_t;
  cu_backend : zdb_backend_t;
  cu_flags : Z;
  iter_count : Z;
  cu_position : Z;
  cu_current : option (list byte);
  cu_predicate : option zdb_predicate_fn;
  cu_impl : option zdb_ts_cursor_ctx;
}.
End cursor_types.

Arguments zdb_ts_cursor_ctx : clear implicits.
Arguments zdb_cursor_t : clear implicits.

Section cursor.
Context {Cfg : Config} {K F FS FH DH : Type} `{!Kernel K, !FileSys FS FH DH}.
Abbreviation W := (world K F FS).

(** [hdr + ((end - hdr) / rec) * rec] in [size_t]: the offset past the last
    whole record of a file of [end] bytes. *)
Definition last_record_end (file_end hdr rec : nat) : nat :=
  size_t (Z.of_nat hdr + Z.of_nat (size_t (Z.of_nat file_end - Z.of_nat hdr)) / Z.of_nat rec
                         * Z.of_nat rec).

Definition zdb_cursor_reset (cursor : option (zdb_cursor_t FH))
    : M W (zdb_status_t * option (zdb_cursor_t FH)) :=
  match cursor with
  | None => ret (ZDB_ERR_INVAL, None)
  | Some c =>
      let c := c <| cu_flags := 0%Z |> <| iter_count := 0%Z |> <| cu_position := 0%Z |>
                 <| cu_current := None |> in
      match (if CONFIG_ZDB_TS && bool_decide (cu_model c = ZDB_MODEL_TS) then cu_impl c else None)
      with
      | None => ret (ZDB_OK, Some c)
      | Some ctx =>
          let ctx := ctx <| ram_offset := 0 |> <| file_done := false |>
                         <| file_offset := hdr_size ctx |> in
          let ctx :=
            if descending ctx && (0 <? rec_size ctx) && (hdr_size ctx <? file_size ctx)
            then ctx <| file_offset :=
                   last_record_end (file_size ctx) (hdr_size ctx) (rec_size ctx) |>
            else ctx in
          if file_open ctx then
            '(rc, fh) ← on_fs (fs_seek_set (cc_file ctx) (off_t (file_offset ctx)));
            let c := c <| cu_impl := Some (ctx <| cc_file := fh |>) |> in
            ret (if (rc <? 0)%Z then zdb_status_from_errno rc else ZDB_OK, Some c)
          else ret (ZDB_OK, Some (c <| cu_impl := Some ctx |>))
      end
  end.

Definition zdb_cursor_close (cursor : option (zdb_cursor_t FH))
    : M W (zdb_status_t * option (zdb_cursor_t FH)) :=
  match cursor with
  | None => ret (ZDB_ERR_INVAL, None)
  | Some c =>
      c ← (match (if CONFIG_ZDB_TS && bool_decide (cu_model c = ZDB_MODEL_TS)
                  then cu_impl c else None) with
           | None => ret c
           | Some ctx =>
               (if file_open ctx then on_fs (fs_close (cc_file ctx));; ret tt else ret tt);;
               slab ← (match cc_db ctx with
                       | None => ret None
                       | Some _ => db_get cursor_slab
                       end);
               (match slab with None => ret tt | Some sl => on_k_ (k_mem_slab_free sl) end);;
               ret (c <| cu_impl := None |>)
           end);
      zdb_cursor_reset (Some c)
  end.
End cursor.
