(* ===== verification/KvFormat.v ===== *)
(** * The key-value record format ([zephyrdb_kv.c], lines 71-215)

    Key validation, the FNV-1a record identifier, and the v2 record:
    [0xDB, ns_len, key_len, namespace, key, value]. *)

From S2P Require Import Prelude Config Env Types.

Section format.
Context {Cfg : Config}.

(** [zdb_key_valid]: NULL and the empty string are refused. *)
Definition zdb_key_valid (key : option cstring) : bool :=
  match key with
  | None => false
  | Some [] => false
  | Some k => length k <=? CONFIG_ZDB_MAX_KEY_LEN
  end.

Definition ZDB_KV_INDEX_TAG : Z := 0xD1.
Definition ZDB_KV_INDEX_VERSION : Z := 1.
Definition ZDB_KV_INDEX_HDR_SIZE : nat := 4.
Definition ZDB_KV_INDEX_MAX_BYTES : nat :=
  ZDB_KV_INDEX_HDR_SIZE + 4 * CONFIG_ZDB_KV_INDEX_MAX_ENTRIES.

(** The identifier that holds the index itself. *)
Definition ZDB_KV_INDEX_REC_ID : Z :=
  if CONFIG_ZDB_KV_BACKEND_ZMS then 0xFFFFFFFF else 0x0000FFFF.

Definition ZDB_KV_REC_TAG : Z := 0xDB.
Definition ZDB_KV_REC_HDR_SIZE : nat := 3.

Inductive zdb_kv_rec_check :=
  | ZDB_KV_REC_MATCH | ZDB_KV_REC_MISMATCH | ZDB_KV_REC_FOREIGN.

(** [zdb_fnv1a32_update]: the loop over [buf] on a 32-bit state. *)
Fixpoint zdb_fnv1a32_update (state : Z) (buf : list byte) : Z :=
  match buf with
  | [] => state
  | b :: buf => zdb_fnv1a32_update (u32 (Z.lxor state (byte.unsigned b) * 0x01000193)) buf
  end.

Definition zdb_kv_record_id (namespace_name key : cstring) : Z :=
  let hash := zdb_fnv1a32_update 0x811C9DC5 namespace_name in
  let hash := zdb_fnv1a32_update hash [nul] in
  let hash := zdb_fnv1a32_update hash key in
  let hash := if negb CONFIG_ZDB_KV_BACKEND_ZMS then Z.land hash 0xFFFF else hash in
  if (hash =? 0)%Z || (hash =? ZDB_KV_INDEX_REC_ID)%Z then 1%Z else hash.

(** [zdb_kv_record_build]: the bytes laid out from the start of the I/O block.
    [memcpy] takes [value_len] bytes of [value], and is skipped for none. *)
Definition zdb_kv_record_build (namespace_name key : cstring)
    (value : option (list byte)) (value_len : nat) : list byte :=
  [byte.of_Z ZDB_KV_REC_TAG; byte.of_Z (length namespace_name); byte.of_Z (length key)] ++
  namespace_name ++ key ++
  (if 0 <? value_len then take value_len (default [] value) else []).

(** [zdb_kv_record_check]: the verdict on the first [len] bytes of [buf] and,
    for a match, the offset of the value. *)
Definition zdb_kv_record_check (buf : list byte) (len : nat) (namespace_name key : cstring)
    : zdb_kv_rec_check * option nat :=
  if (len <? ZDB_KV_REC_HDR_SIZE) || negb (u8_at buf 0 =? ZDB_KV_REC_TAG)%Z then
    (ZDB_KV_REC_FOREIGN, None)
  else
    let ns_len := Z.to_nat (u8_at buf 1) in
    let key_len := Z.to_nat (u8_at buf 2) in
    if len <? ZDB_KV_REC_HDR_SIZE + ns_len + key_len then (ZDB_KV_REC_FOREIGN, None)
    else if negb (ns_len =? length namespace_name) || negb (key_len =? length key) ||
            negb (bool_decide (take ns_len (drop ZDB_KV_REC_HDR_SIZE buf) = namespace_name)) ||
            negb (bool_decide (take key_len (drop (ZDB_KV_REC_HDR_SIZE + ns_len) buf) = key))
         then (ZDB_KV_REC_MISMATCH, None)
    else (ZDB_KV_REC_MATCH, Some (ZDB_KV_REC_HDR_SIZE + ns_len + key_len)).

(** ** What a stored record says of a (namespace, key) pair *)

(** The value the record holds for the pair, when it is the pair's record. *)
Definition rec_value (ns key : cstring) (rec : list byte) : option (list byte) :=
  match zdb_kv_record_check rec (length rec) ns key with
  | (ZDB_KV_REC_MATCH, Some off) => Some (drop off rec)
  | _ => None
  end.

(** ** Lemmas *)

Lemma zdb_key_valid_spec key :
  zdb_key_valid key = true ↔
  ∃ k, key = Some k ∧ k ≠ [] ∧ length k ≤ CONFIG_ZDB_MAX_KEY_LEN.
Proof.
  destruct key as [[|b k]|]; cbn [zdb_key_valid]; split; try discriminate.
  - by intros (? & [= <-] & ? & _).
  - intros H%Nat.leb_le. by exists (b :: k).
  - intros (k' & [= <-] & _ & H). by apply Nat.leb_le.
  - by intros (? & ? & _).
Qed.

Lemma fnv1a32_range buf s :
  (0 ≤ s < 2 ^ 32)%Z → (0 ≤ zdb_fnv1a32_update s buf < 2 ^ 32)%Z.
Proof.
  revert s. induction buf as [|b buf IH]; intros s Hs; [done|].
  simpl. apply IH. unfold u32. apply Z.mod_pos_bound. lia.
Qed.

Lemma fnv1a32_app s a b :
  zdb_fnv1a32_update s (a ++ b) = zdb_fnv1a32_update (zdb_fnv1a32_update s a) b.
Proof. revert s. induction a as [|x a IH]; intros s; simpl; auto. Qed.

(** The hash is FNV-1a of "namespace NUL key". *)
Lemma record_id_range ns key :
  (0 < zdb_kv_record_id ns key)%Z ∧
  zdb_kv_record_id ns key ≠ ZDB_KV_INDEX_REC_ID ∧
  (zdb_kv_record_id ns key < if CONFIG_ZDB_KV_BACKEND_ZMS then 2 ^ 32 else 2 ^ 16)%Z.
Proof.
  unfold zdb_kv_record_id, ZDB_KV_INDEX_REC_ID.
  set (h := zdb_fnv1a32_update (zdb_fnv1a32_update _ _) key).
  assert (0 ≤ h < 2 ^ 32)%Z as Hh.
  { unfold h. do 3 apply fnv1a32_range. lia. }
  destruct CONFIG_ZDB_KV_BACKEND_ZMS; simpl negb; cbn iota.
  - destruct (Z.eqb_spec h 0), (Z.eqb_spec h 4294967295); simpl; lia.
  - assert (Z.land h 65535 = h mod 2 ^ 16)%Z as ->
      by (change 65535%Z with (Z.ones 16); apply Z.land_ones; lia).
    pose proof (Z.mod_pos_bound h (2 ^ 16)).
    destruct (Z.eqb_spec (h mod 2 ^ 16) 0), (Z.eqb_spec (h mod 2 ^ 16) 65535); simpl; lia.
Qed.

Lemma length_record_build ns key v n :
  n ≤ length (default [] v) →
  length (zdb_kv_record_build ns key v n) = ZDB_KV_REC_HDR_SIZE + length ns + length key + n.
Proof.
  intros Hn. unfold zdb_kv_record_build, ZDB_KV_REC_HDR_SIZE.
  rewrite !length_app. destruct (Nat.ltb_spec 0 n); [rewrite length_take|]; simpl; lia.
Qed.

Lemma u8_at_0 (b : byte) l : u8_at (b :: l) 0 = byte.unsigned b.
Proof. done. Qed.
Lemma u8_at_S (b : byte) l i : u8_at (b :: l) (S i) = u8_at l i.
Proof. done. Qed.

(** The decision of [zdb_kv_record_check] on a whole record: it matches the
    pair exactly when it is the header, the pair and some value. *)
Lemma record_check_layout ns key v :
  length ns < 256 → length key < 256 →
  zdb_kv_record_check
    ([byte.of_Z ZDB_KV_REC_TAG; byte.of_Z (length ns); byte.of_Z (length key)] ++
     ns ++ key ++ v)
    (ZDB_KV_REC_HDR_SIZE + length ns + length key + length v) ns key =
  (ZDB_KV_REC_MATCH, Some (ZDB_KV_REC_HDR_SIZE + length ns + length key)).
Proof.
  intros Hns Hkey. unfold zdb_kv_record_check, ZDB_KV_REC_HDR_SIZE.
  cbn [app]. rewrite !u8_at_S, !u8_at_0, !unsigned_of_Z_small by (unfold ZDB_KV_REC_TAG; lia).
  rewrite !Nat2Z.id, !Nat.eqb_refl. cbn [drop].
  destruct (Nat.ltb_spec (3 + length ns + length key + length v) 3); [lia|].
  rewrite Z.eqb_refl. simpl negb. cbn [orb].
  destruct (Nat.ltb_spec (3 + length ns + length key + length v) (3 + length ns + length key));
    [lia|].
  rewrite drop_0, drop_app_length.
  by rewrite !bool_decide_eq_true_2 by by rewrite take_app_length.
Qed.

(** The converse: a match pins the layout. *)
Lemma record_check_match rec ns key off :
  zdb_kv_record_check rec (length rec) ns key = (ZDB_KV_REC_MATCH, off) →
  off = Some (ZDB_KV_REC_HDR_SIZE + length ns + length key) ∧
  length ns < 256 ∧ length key < 256 ∧
  rec = [byte.of_Z ZDB_KV_REC_TAG; byte.of_Z (length ns); byte.of_Z (length key)] ++
        ns ++ key ++ drop (ZDB_KV_REC_HDR_SIZE + length ns + length key) rec.
Proof.
  unfold zdb_kv_record_check, ZDB_KV_REC_HDR_SIZE.
  destruct (Nat.ltb_spec (length rec) 3) as [|Hlen]; [done|].
  destruct rec as [|b0 [|b1 [|b2 rec]]]; simpl in Hlen; try lia.
  rewrite !u8_at_S, !u8_at_0. cbn [orb].
  destruct (Z.eqb_spec (byte.unsigned b0) ZDB_KV_REC_TAG) as [H0|]; [|done]. cbn [negb].
  match goal with |- context [Nat.ltb ?a ?b] => destruct (Nat.ltb_spec a b) end; [done|].
  pose proof (byte.unsigned_range b1) as Hr1. pose proof (byte.unsigned_range b2) as Hr2.
  destruct (Nat.eqb_spec (Z.to_nat (byte.unsigned b1)) (length ns)) as [H1|]; [|done].
  destruct (Nat.eqb_spec (Z.to_nat (byte.unsigned b2)) (length key)) as [H2|]; [|done].
  cbn [orb negb]. rewrite H1, H2.
  case_bool_decide as Hns; [|done]. case_bool_decide as Hk; [|done].
  cbn [orb negb]. intros [= <-].
  assert (∀ b z, byte.unsigned b = z → b = byte.of_Z z) as Hb
    by (intros b z <-; by rewrite byte.of_Z_unsigned).
  split_and!; [done|lia|lia|].
  rewrite (Hb b0 _ H0), (Hb b1 (length ns)), (Hb b2 (length key)) by lia.
  change (3 + length ns + length key) with (S (S (S (length ns + length key)))).
  change (3 + length ns) with (S (S (S (length ns)))) in Hk.
  cbn [drop app] in *. rewrite drop_0 in Hns. do 3 f_equal.
  rewrite <- Hns at 1. rewrite <- Hk at 1.
  rewrite <- drop_drop. by rewrite !take_drop.
Qed.

Lemma rec_value_Some ns key rec v :
  rec_value ns key rec = Some v ↔
  length ns < 256 ∧ length key < 256 ∧
  rec = [byte.of_Z ZDB_KV_REC_TAG; byte.of_Z (length ns); byte.of_Z (length key)] ++
        ns ++ key ++ v.
Proof.
  unfold rec_value. split.
  - destruct (zdb_kv_record_check rec (length rec) ns key) as [[] [off|]] eqn:Hc; try done.
    apply record_check_match in Hc as ([= ->] & ? & ? & Hrec). intros [= <-]. done.
  - intros (Hns & Hkey & ->).
    replace (length (_ ++ _)) with (ZDB_KV_REC_HDR_SIZE + length ns + length key + length v)
      by (rewrite !length_app; simpl; lia).
    rewrite record_check_layout by done. f_equal.
    change (ZDB_KV_REC_HDR_SIZE + length ns + length key)
      with (S (S (S (length ns + length key)))). cbn [app drop].
    by rewrite <- drop_drop, !drop_app_length.
Qed.

(** One record is the record of at most one pair: the length bytes make the
    concatenation of namespace, key and value unambiguous. *)
Lemma rec_value_inj ns1 key1 ns2 key2 rec v1 v2 :
  rec_value ns1 key1 rec = Some v1 → rec_value ns2 key2 rec = Some v2 →
  ns1 = ns2 ∧ key1 = key2 ∧ v1 = v2.
Proof.
  intros (Hn1 & Hk1 & ->)%rec_value_Some (Hn2 & Hk2 & Heq)%rec_value_Some.
  cbn [app] in Heq. injection Heq as Hns Hkey Happ.
  assert (∀ a b : nat, a < 256 → b < 256 → byte.of_Z a = byte.of_Z b → a = b) as Hinj.
  { intros a b ?? H%(f_equal byte.unsigned). rewrite !unsigned_of_Z_small in H by lia. lia. }
  apply Hinj in Hns, Hkey; try done.
  apply app_inj_1 in Happ as [-> Happ]; [|done].
  by apply app_inj_1 in Happ as [-> ->].
Qed.

End format.
