(* ===== verification/KvIndex.v ===== *)
(** * The key index of the key-value store ([zephyrdb_kv.c], lines 217-541)

    Backend access, the in-RAM index of the keys in use, its rebuild from the
    reserved record and its write-back. The context pointer the sources pass
    around is always [db->kv_ctx], so the operations here read and update that
    field of the instance. *)

From S2P Require Import Prelude Config Env Types KvFormat.

Section index.
Context {Cfg : Config} {K F FS : Type} `{!Kernel K, !KvBackend F}.
Abbreviation W := (world K F FS).

(** [zdb_kv_backend_fs_from_db]: whether the handle is not NULL. *)
Definition zdb_kv_backend_fs_from_db (db : db_ptr) : M W bool :=
  match db with
  | None => ret false
  | Some _ =>
      c ← db_get cfg;
      match c with None => ret false | Some c => ret (kv_backend_fs c) end
  end.

(** The three backend calls: NVS casts the id to 16 bits, ZMS to 32. *)
Definition zdb_kv_backend_write (db : db_ptr) (id : Z) (value : list byte) : M W Z :=
  if CONFIG_ZDB_KV_BACKEND_NVS then
    nvs ← zdb_kv_backend_fs_from_db db;
    if negb nvs then ret (- EINVAL)%Z else on_f (kvb_write (u16 id) value)
  else if CONFIG_ZDB_KV_BACKEND_ZMS then
    zms ← zdb_kv_backend_fs_from_db db;
    if negb zms then ret (- EINVAL)%Z else on_f (kvb_write (u32 id) value)
  else ret (- ENOTSUP)%Z.

Definition zdb_kv_backend_read (db : db_ptr) (id : Z) (out_capacity : nat)
    : M W (Z * list byte) :=
  if CONFIG_ZDB_KV_BACKEND_NVS then
    nvs ← zdb_kv_backend_fs_from_db db;
    if negb nvs then ret ((- EINVAL)%Z, []) else on_f (kvb_read (u16 id) out_capacity)
  else if CONFIG_ZDB_KV_BACKEND_ZMS then
    zms ← zdb_kv_backend_fs_from_db db;
    if negb zms then ret ((- EINVAL)%Z, []) else on_f (kvb_read (u32 id) out_capacity)
  else ret ((- ENOTSUP)%Z, []).

Definition zdb_kv_backend_delete (db : db_ptr) (id : Z) : M W Z :=
  if CONFIG_ZDB_KV_BACKEND_NVS then
    nvs ← zdb_kv_backend_fs_from_db db;
    if negb nvs then ret (- EINVAL)%Z else on_f (kvb_delete (u16 id))
  else if CONFIG_ZDB_KV_BACKEND_ZMS then
    zms ← zdb_kv_backend_fs_from_db db;
    if negb zms then ret (- EINVAL)%Z else on_f (kvb_delete (u32 id))
  else ret (- ENOTSUP)%Z.

(** ** The context *)

Definition empty_kv_ctx : zdb_kv_ctx := {| entries := []; loaded := false |}.

Definition ctx_entries (d : zdb_t) : list zdb_kv_index_entry :=
  match kv_ctx d with None => [] | Some c => entries c end.

(** Update the context behind [db->kv_ctx]. *)
Definition ctx_update (f : zdb_kv_ctx → zdb_kv_ctx) : M W unit :=
  db_set (λ d, d <| kv_ctx ::= option_map f |>).

(** ** Persisting the index *)

(** The bytes of the index record: tag, version, count, then the ids. *)
Definition index_bytes (es : list zdb_kv_index_entry) : list byte :=
  [byte.of_Z ZDB_KV_INDEX_TAG; byte.of_Z ZDB_KV_INDEX_VERSION] ++
  put_le 2 (u16 (length es)) ++
  concat (map (λ e, put_le 4 (en_id e)) es).

Definition zdb_kv_index_store (db : db_ref) : M W unit :=
  fs ← zdb_kv_backend_fs_from_db (Some db);
  if negb fs then ret tt
  else
    es ← db_get ctx_entries;
    zdb_kv_backend_write (Some db) ZDB_KV_INDEX_REC_ID (index_bytes es);;
    ret tt.

(** The string a buffer holds once a terminator is written after it: up to its
    first NUL. *)
Fixpoint until_nul (s : list byte) : cstring :=
  match s with
  | [] => []
  | b :: s => if bool_decide (b = nul) then [] else b :: until_nul s
  end.

(** One step of the rebuild: the entry for [id] recovered from the record read
    back ([rd] its stored length, [rec_buf] the bytes read), if it is one. *)
Definition index_entry_of (id rd : Z) (rec_buf : list byte) : option zdb_kv_index_entry :=
  if (rd <? ZDB_KV_REC_HDR_SIZE)%Z then None
  else
    let ns_len := Z.to_nat (u8_at rec_buf 1) in
    let key_len := Z.to_nat (u8_at rec_buf 2) in
    if negb (u8_at rec_buf 0 =? ZDB_KV_REC_TAG)%Z || (ns_len =? 0) || (key_len =? 0) ||
       (CONFIG_ZDB_MAX_KEY_LEN <? ns_len) || (CONFIG_ZDB_MAX_KEY_LEN <? key_len) ||
       (rd <? ZDB_KV_REC_HDR_SIZE + ns_len + key_len)%Z
    then None
    else Some {| en_namespace_name := until_nul (take ns_len (drop ZDB_KV_REC_HDR_SIZE rec_buf));
                 en_key := until_nul (take key_len (drop (ZDB_KV_REC_HDR_SIZE + ns_len) rec_buf));
                 en_id := id |}.

(** The loop over the stored ids; the result says whether any was dropped. *)
Fixpoint index_load_loop (db : db_ref) (block_size : nat) (ids : list Z) (pruned : bool)
    : M W bool :=
  match ids with
  | [] => ret pruned
  | id :: ids =>
      r ← zdb_kv_backend_read (Some db) id block_size;
      match index_entry_of id r.1 r.2 with
      | None => index_load_loop db block_size ids true
      | Some e =>
          ctx_update (λ c, c <| entries ::= λ es, es ++ [e] |>);;
          index_load_loop db block_size ids pruned
      end
  end.

(** The ids of an index record of [rd] stored bytes, if it is a valid one. *)
Definition index_ids (rd : Z) (index_buf : list byte) : option (list Z) :=
  if (rd <? ZDB_KV_INDEX_HDR_SIZE)%Z then None
  else if negb (u8_at index_buf 0 =? ZDB_KV_INDEX_TAG)%Z ||
          negb (u8_at index_buf 1 =? ZDB_KV_INDEX_VERSION)%Z then None
  else
    let stored_count := Z.to_nat (get_le 2 index_buf 2) in
    let stored_count := if CONFIG_ZDB_KV_INDEX_MAX_ENTRIES <? stored_count
                        then CONFIG_ZDB_KV_INDEX_MAX_ENTRIES else stored_count in
    if (rd <? ZDB_KV_INDEX_HDR_SIZE + 4 * stored_count)%Z then None
    else Some (map (λ i, get_le 4 index_buf (ZDB_KV_INDEX_HDR_SIZE + 4 * i))
                 (seq 0 stored_count)).

Definition zdb_kv_index_load (db : db_ref) : M W unit :=
  fs ← zdb_kv_backend_fs_from_db (Some db);
  if negb fs then ret tt
  else
    r ← zdb_kv_backend_read (Some db) ZDB_KV_INDEX_REC_ID ZDB_KV_INDEX_MAX_BYTES;
    match index_ids r.1 r.2 with
    | None => ret tt
    | Some ids =>
        slab ← db_get kv_io_slab;
        match slab with
        | None => ret tt
        | Some slab =>
            rc ← on_k (k_mem_slab_alloc slab);
            if negb (rc =? 0)%Z then ret tt
            else
              pruned ← index_load_loop db (slab_block_size slab) ids false;
              on_k_ (k_mem_slab_free slab);;
              if pruned : bool then zdb_kv_index_store db else ret tt
        end
    end.

(** [zdb_kv_ctx_get_or_alloc]: whether a context is there on return. *)
Definition sizeof_zdb_kv_ctx : nat :=
  CONFIG_ZDB_KV_INDEX_MAX_ENTRIES * (2 * (CONFIG_ZDB_MAX_KEY_LEN + 1) + 4) + 8.

Definition zdb_kv_ctx_get_or_alloc (db : db_ptr) : M W bool :=
  match db with
  | None => ret false
  | Some db =>
      ctx ← db_get kv_ctx;
      match ctx with
      | Some _ => ret true
      | None =>
          ok ← on_k (k_malloc sizeof_zdb_kv_ctx);
          if negb ok then ret false
          else
            db_set (λ d, d <| kv_ctx := Some empty_kv_ctx |>);;
            (if CONFIG_ZDB_KV_PERSIST_INDEX then zdb_kv_index_load db else ret tt);;
            ctx_update (λ c, c <| loaded := true |>);;
            ret true
      end
  end.

(** ** Tracking keys *)

(** [zdb_kv_ctx_find_entry]: the position of the pair, -1 as [None]. *)
Fixpoint find_entry (es : list zdb_kv_index_entry) (ns key : cstring) : option nat :=
  match es with
  | [] => None
  | e :: es =>
      if bool_decide (en_namespace_name e = ns) && bool_decide (en_key e = key) then Some 0
      else S <$> find_entry es ns key
  end.

Definition zdb_kv_ctx_find_entry (ctx : option zdb_kv_ctx) (ns key : option cstring)
    : option nat :=
  match ctx, ns, key with
  | Some ctx, Some ns, Some key => find_entry (entries ctx) ns key
  | _, _, _ => None
  end.

(** The result is [false] when the key was stored but could not be indexed. *)
Definition zdb_kv_ctx_track_set (db : db_ptr) (namespace_name key : option cstring) (id : Z)
    : M W bool :=
  match db, namespace_name, key with
  | Some db, Some ns, Some key =>
      ok ← zdb_kv_ctx_get_or_alloc (Some db);
      if negb ok then ret true
      else
        ctx ← db_get kv_ctx;
        match zdb_kv_ctx_find_entry ctx (Some ns) (Some key) with
        | Some idx =>
            ctx_update (λ c, c <| entries ::= alter (λ e, e <| en_id := id |>) idx |>);;
            ret true
        | None =>
            es ← db_get ctx_entries;
            if CONFIG_ZDB_KV_INDEX_MAX_ENTRIES <=? length es then ret false
            else
              let e := {| en_namespace_name := strncpy_trunc CONFIG_ZDB_MAX_KEY_LEN ns;
                          en_key := strncpy_trunc CONFIG_ZDB_MAX_KEY_LEN key;
                          en_id := id |} in
              ctx_update (λ c, c <| entries ::= λ es, es ++ [e] |>);;
              (if CONFIG_ZDB_KV_PERSIST_INDEX then zdb_kv_index_store db else ret tt);;
              ret true
        end
  | _, _, _ => ret true
  end.

Definition zdb_kv_ctx_track_delete (db : db_ptr) (namespace_name key : option cstring)
    : M W unit :=
  match db, namespace_name, key with
  | Some db, Some ns, Some key =>
      ctx ← db_get kv_ctx;
      match ctx with
      | None => ret tt
      | Some c =>
          if entry_count c =? 0 then ret tt
          else match zdb_kv_ctx_find_entry (Some c) (Some ns) (Some key) with
               | None => ret tt
               | Some idx =>
                   ctx_update (λ c, c <| entries ::= delete idx |>);;
                   (if CONFIG_ZDB_KV_PERSIST_INDEX then zdb_kv_index_store db else ret tt)
               end
      end
  | _, _, _ => ret tt
  end.

End index.

(** ** What the backend calls do to the store *)

(** The id the backend sees after the cast. *)
Definition backend_id `{Cfg : Config} (id : Z) : Z :=
  if CONFIG_ZDB_KV_BACKEND_NVS then u16 id else u32 id.

(** The application mounted a backend and passed it in the configuration. *)
Definition kv_mounted (d : zdb_t) : Prop :=
  ∃ c, cfg d = Some c ∧ kv_backend_fs c = true.

Section backend_spec.
Context {Cfg : Config} {CfgOk : ConfigOk Cfg} {K F FS : Type}.
Context `{!Kernel K, !KernelLaws K, !KvBackend F, !KvBackendLaws F}.
Abbreviation W := (world K F FS).
Implicit Types w : W.

Lemma wp_fs_from_db db (Q : bool → W → Prop) w :
  (∀ b, (b = true ↔ kv_mounted (w_db w)) → Q b w) →
  wp (zdb_kv_backend_fs_from_db (Some db)) Q w.
Proof.
  intros HQ. apply wp_bind, wp_db_get. unfold kv_mounted in HQ.
  destruct (cfg (w_db w)) as [c|]; apply wp_ret, HQ.
  - split; [by eauto|]. by intros (? & [= <-] & ?).
  - split; [done|]. by intros (? & ? & _).
Qed.

Lemma world_eta_f w : w <| w_f := w_f w |> = w.
Proof. by destruct w. Qed.

Lemma backend_call_cases {A} db (nvs zms : M W A) (einval enotsup : A) (Q : A → W → Prop) w :
  (¬ kv_mounted (w_db w) → Q einval w) →
  (xorb CONFIG_ZDB_KV_BACKEND_NVS CONFIG_ZDB_KV_BACKEND_ZMS = false → Q enotsup w) →
  (CONFIG_ZDB_KV_BACKEND_NVS = true → wp nvs Q w) →
  (CONFIG_ZDB_KV_BACKEND_NVS = false → wp zms Q w) →
  wp (if CONFIG_ZDB_KV_BACKEND_NVS then
        b ← zdb_kv_backend_fs_from_db (Some db); if negb b then ret einval else nvs
      else if CONFIG_ZDB_KV_BACKEND_ZMS then
        b ← zdb_kv_backend_fs_from_db (Some db); if negb b then ret einval else zms
      else ret enotsup) Q w.
Proof.
  intros Hinv Hsup Hn Hz. destruct CONFIG_ZDB_KV_BACKEND_NVS, CONFIG_ZDB_KV_BACKEND_ZMS;
    (apply wp_bind, wp_fs_from_db; intros [] Hb; simpl;
      [auto|apply wp_ret, Hinv; intros Hm%Hb; done]) || by apply wp_ret, Hsup.
Qed.

Lemma wp_backend_write db id d (Q : Z → W → Prop) w :
  d ≠ [] →
  (∀ f', kvb_store f' = <[backend_id id := d]> (kvb_store (w_f w)) →
     Q (Z.of_nat (length d)) (w <| w_f := f' |>)) →
  (∀ f', kvb_store (w_f w) !! backend_id id = Some d →
     kvb_store f' = kvb_store (w_f w) → Q 0%Z (w <| w_f := f' |>)) →
  (∀ z f', (z < 0)%Z → kvb_store f' = kvb_store (w_f w) → Q z (w <| w_f := f' |>)) →
  wp (zdb_kv_backend_write (Some db) id d) Q w.
Proof.
  intros Hd Hok Hsame Herr. unfold zdb_kv_backend_write. unfold backend_id in *.
  assert (∀ z, (z < 0)%Z → Q z w) as Hneg.
  { intros z Hz. rewrite <- (world_eta_f w). by apply Herr. }
  apply backend_call_cases; [by intros; apply Hneg..| |].
  all: intros HB; rewrite HB in *; apply wp_on_f; intros a f' Heq;
    match type of Heq with kvb_write ?i _ _ = _ =>
      pose proof (kvb_write_law i d (w_f w) Hd) as Hlaw end;
    rewrite Heq in Hlaw; simpl in Hlaw;
    destruct Hlaw as [[-> ?]|[(-> & ? & ?)|[??]]]; auto.
Qed.

Lemma wp_backend_read db id cap (Q : Z * list byte → W → Prop) w :
  (∀ d f', kvb_store (w_f w) !! backend_id id = Some d → kvb_store f' = kvb_store (w_f w) →
     Q (Z.of_nat (length d), take cap d) (w <| w_f := f' |>)) →
  (∀ b f', kvb_store (w_f w) !! backend_id id = None → kvb_store f' = kvb_store (w_f w) →
     Q ((- ENOENT)%Z, b) (w <| w_f := f' |>)) →
  (∀ z b f', (z < 0)%Z → z ≠ (- ENOENT)%Z → kvb_store f' = kvb_store (w_f w) →
     (kv_mounted (w_db w) → ¬ KvReadsOk F) →
     Q (z, b) (w <| w_f := f' |>)) →
  wp (zdb_kv_backend_read (Some db) id cap) Q w.
Proof.
  intros Hok Habs Herr. unfold zdb_kv_backend_read. unfold backend_id in *.
  assert (∀ z, (z < 0)%Z → z ≠ (- ENOENT)%Z → (kv_mounted (w_db w) → ¬ KvReadsOk F) →
    Q (z, []) w) as Hneg.
  { intros z Hz Hne Hm. rewrite <- (world_eta_f w). by apply Herr. }
  apply backend_call_cases.
  { intros Hm. by apply Hneg. }
  { intros Hx. pose proof kv_one_backend. congruence. }
  all: intros HB; rewrite HB in *; apply wp_on_f; intros a f' Heq;
    match type of Heq with kvb_read ?i _ _ = _ =>
      pose proof (kvb_read_law i cap (w_f w)) as Hlaw;
      assert (KvReadsOk F → _) as Hno by (intros Hr; exact (Hr i cap (w_f w)));
      destruct (kvb_store (w_f w) !! i) as [d|] eqn:Hlk end;
    rewrite Heq in Hlaw, Hno; destruct a as [z b]; simpl in Hlaw, Hno;
    (destruct Hlaw as [[? Hr]|(? & ? & ?)]; [simplify_eq; by auto|]);
    apply Herr; try done; intros _ Hr%Hno; destruct Hr as [_ Hr]; simplify_eq; lia.
Qed.

Lemma wp_backend_delete db id (Q : Z → W → Prop) w :
  (∀ z f', (0 ≤ z)%Z → kvb_store f' = delete (backend_id id) (kvb_store (w_f w)) →
     Q z (w <| w_f := f' |>)) →
  (∀ z f', (z < 0)%Z → kvb_store f' = kvb_store (w_f w) →
     (z = (- ENOENT)%Z → kvb_store (w_f w) !! backend_id id = None) →
     Q z (w <| w_f := f' |>)) →
  wp (zdb_kv_backend_delete (Some db) id) Q w.
Proof.
  intros Hok Herr. unfold zdb_kv_backend_delete. unfold backend_id in *.
  assert (∀ z, (z < 0)%Z → z ≠ (- ENOENT)%Z → Q z w) as Hneg.
  { intros z Hz ?. rewrite <- (world_eta_f w). by apply Herr. }
  apply backend_call_cases; [by intros; apply Hneg..| |].
  all: intros HB; rewrite HB in *; apply wp_on_f; intros a f' Heq;
    match type of Heq with kvb_delete ?i _ = _ =>
      pose proof (kvb_delete_law i (w_f w)) as Hlaw end;
    rewrite Heq in Hlaw; simpl in Hlaw; destruct Hlaw as [[??]|(?&?&?)]; auto.
Qed.

Lemma backend_id_range id :
  (0 ≤ id < if CONFIG_ZDB_KV_BACKEND_ZMS then 2 ^ 32 else 2 ^ 16)%Z →
  backend_id id = id.
Proof.
  intros Hid. unfold backend_id, u16, u32. pose proof kv_one_backend as H1.
  destruct CONFIG_ZDB_KV_BACKEND_NVS, CONFIG_ZDB_KV_BACKEND_ZMS; try done;
    apply Z.mod_small; lia.
Qed.

Lemma backend_id_record ns key :
  backend_id (zdb_kv_record_id ns key) = zdb_kv_record_id ns key.
Proof.
  apply backend_id_range.
  pose proof (record_id_range ns key) as (? & _ & ?). lia.
Qed.

Lemma backend_id_index : backend_id ZDB_KV_INDEX_REC_ID = ZDB_KV_INDEX_REC_ID.
Proof.
  apply backend_id_range. unfold ZDB_KV_INDEX_REC_ID.
  destruct CONFIG_ZDB_KV_BACKEND_ZMS; lia.
Qed.
End backend_spec.

#[global] Arguments zdb_kv_ctx_get_or_alloc : simpl never.
#[global] Arguments zdb_kv_ctx_track_set : simpl never.
#[global] Arguments zdb_kv_ctx_track_delete : simpl never.
#[global] Arguments zdb_kv_backend_fs_from_db : simpl never.
