(* ===== verification/Kv.v ===== *)
(** * The key-value operations ([zephyrdb_kv.c], lines 543-1204)

    One program per public function. An output parameter is part of the
    result: [None] where the function leaves the caller's variable alone. *)

From S2P Require Import Prelude Config Env Types Events KvFormat KvIndex.

(** A [zdb_kv_t] handle and an iterator over one. *)
Record zdb_kv_t := { kv_db : db_ptr; kv_namespace_name : option cstring }.
Record zdb_kv_iter_t := { it_kv : option zdb_kv_t; it_position : nat }.

(** The outputs of a read: the variable behind [out_len] and the buffer behind
    [out_value] ([None] for a NULL buffer). *)
Record kv_out := { o_len : option nat; o_value : option (list byte) }.

(** The outputs of [zdb_kv_iter_next]. *)
Record iter_out := {
  io_key : list byte;            (** the caller's key buffer *)
  io_key_len : option nat;
  io_value : kv_out;
}.

Section kv.
Context {Cfg : Config} {K F FS : Type} `{!Kernel K, !KvBackend F}.
Abbreviation W := (world K F FS).

Definition zdb_kv_open (db : db_ptr) (namespace_name : option cstring) (kv : option zdb_kv_t)
    : M W (zdb_status_t * option zdb_kv_t) :=
  match db, namespace_name, kv with
  | Some d, Some ns, Some _ =>
      if negb (zdb_key_valid (Some ns)) then ret (ZDB_ERR_INVAL, kv)
      else
        let kv0 := Some {| kv_db := None; kv_namespace_name := None |} in
        c ← db_get cfg;
        match c with
        | None => ret (ZDB_ERR_INVAL, kv0)
        | Some _ =>
            fs ← zdb_kv_backend_fs_from_db db;
            if negb fs then ret (ZDB_ERR_INVAL, kv0)
            else ret (ZDB_OK, Some {| kv_db := db; kv_namespace_name := Some ns |})
        end
  | _, _, _ => ret (ZDB_ERR_INVAL, kv)
  end.

Definition zdb_kv_close (kv : option zdb_kv_t) : zdb_status_t * option zdb_kv_t :=
  match kv with
  | None => (ZDB_ERR_INVAL, None)
  | Some _ => (ZDB_OK, Some {| kv_db := None; kv_namespace_name := None |})
  end.

(** The locked part of [zdb_kv_set], from the pre-read of the slot to the
    unlock, and whether the key is enumerable. *)
Definition kv_set_locked (db : db_ref) (slab : k_mem_slab) (ns key : cstring)
    (value : option (list byte)) (value_len : nat) : M W (zdb_status_t * bool) :=
  let block_size := slab_block_size slab in
  let total_len := ZDB_KV_REC_HDR_SIZE + length ns + length key + value_len in
  let id := zdb_kv_record_id ns key in
  r ← zdb_kv_backend_read (Some db) id block_size;
  let check :=
    if (0 <=? r.1)%Z then
      let usable := if (r.1 <? block_size)%Z then Z.to_nat r.1 else block_size in
      Some (zdb_kv_record_check r.2 usable ns key).1
    else None in
  match check with
  | Some ZDB_KV_REC_MISMATCH =>
      zdb_unlock_write db;;
      on_k_ (k_mem_slab_free slab);;
      ret (ZDB_ERR_COLLISION, true)
  | _ =>
      let slot_matched := match check with Some ZDB_KV_REC_MATCH => true | _ => false end in
      indexed ← zdb_kv_ctx_track_set (Some db) (Some ns) (Some key) id;
      wr ← zdb_kv_backend_write (Some db) id (zdb_kv_record_build ns key value value_len);
      let status :=
        if (wr <? 0)%Z then zdb_status_from_errno wr
        else if (wr =? total_len)%Z || ((wr =? 0)%Z && slot_matched) then ZDB_OK
        else ZDB_ERR_IO in
      (if negb (bool_decide (status = ZDB_OK))
       then zdb_kv_ctx_track_delete (Some db) (Some ns) (Some key) else ret tt);;
      zdb_unlock_write db;;
      on_k_ (k_mem_slab_free slab);;
      ret (status, indexed)
  end.

(** [total_len] is a sum of lengths of objects in memory: it does not reach the
    bound of [size_t], so it is taken without its wrap. *)
Definition zdb_kv_set (kv : option zdb_kv_t) (key : option cstring)
    (value : option (list byte)) (value_len : nat) : M W zdb_status_t :=
  match kv with
  | Some {| kv_db := Some db; kv_namespace_name := Some ns |} =>
      match key with
      | Some k =>
          if (match value with None => 0 <? value_len | Some _ => false end) ||
             negb (zdb_key_valid key) then ret ZDB_ERR_INVAL
          else
            fs ← zdb_kv_backend_fs_from_db (Some db);
            if negb fs then ret ZDB_ERR_INVAL
            else
              slab ← db_get kv_io_slab;
              match slab with
              | None => ret ZDB_ERR_INVAL
              | Some slab =>
                  let total_len := ZDB_KV_REC_HDR_SIZE + length ns + length k + value_len in
                  if slab_block_size slab <? total_len then ret ZDB_ERR_NOMEM
                  else
                    rc ← on_k (k_mem_slab_alloc slab);
                    if negb (rc =? 0)%Z then ret ZDB_ERR_NOMEM
                    else
                      lock_rc ← zdb_lock_write db;
                      if negb (bool_decide (lock_rc = ZDB_OK)) then
                        on_k_ (k_mem_slab_free slab);;
                        ret lock_rc
                      else
                        '(status, indexed) ← kv_set_locked db slab ns k value value_len;
                        (if CONFIG_ZDB_EVENTING then
                           zdb_emit_kv_event (Some db) ZDB_EVENT_KV_SET (Some ns) key
                             value_len status;;
                           (if negb indexed && bool_decide (status = ZDB_OK) then
                              zdb_emit_kv_event (Some db) ZDB_EVENT_KV_INDEX_FULL (Some ns) key
                                value_len ZDB_OK
                            else ret tt)
                         else ret tt);;
                        ret status
              end
      | None => ret ZDB_ERR_INVAL
      end
  | _ => ret ZDB_ERR_INVAL
  end.

(** What [zdb_kv_get] makes of the record it read: [rd] the stored length,
    [io_buf] the bytes read, [out_value] the caller's buffer. *)
Definition kv_get_result (block_size : nat) (rd : Z) (io_buf : list byte) (ns key : cstring)
    (out_value : option (list byte)) (out_capacity : nat) : zdb_status_t * kv_out :=
  if (rd <? 0)%Z then
    (zdb_status_from_errno rd, {| o_len := Some 0; o_value := out_value |})
  else
    let usable := if (rd <? block_size)%Z then Z.to_nat rd else block_size in
    match zdb_kv_record_check io_buf usable ns key with
    | (ZDB_KV_REC_MATCH, Some value_off) =>
        let value_len := Z.to_nat rd - value_off in
        let copy :=
          match out_value with
          | Some buf =>
              if 0 <? out_capacity then
                let available := usable - value_off in
                let copy_len := if value_len <? out_capacity then value_len else out_capacity in
                let copy_len := if available <? copy_len then available else copy_len in
                Some (buf_write buf 0 (take copy_len (drop value_off io_buf)))
              else Some buf
          | None => None
          end in
        (ZDB_OK, {| o_len := Some value_len; o_value := copy |})
    | _ => (ZDB_ERR_NOT_FOUND, {| o_len := Some 0; o_value := out_value |})
    end.

(** [out_len] says whether the pointer is set. *)
Definition zdb_kv_get (kv : option zdb_kv_t) (key : option cstring)
    (out_value : option (list byte)) (out_capacity : nat) (out_len : bool)
    : M W (zdb_status_t * kv_out) :=
  let untouched := {| o_len := None; o_value := out_value |} in
  match kv with
  | Some {| kv_db := Some db; kv_namespace_name := Some ns |} =>
      match key with
      | Some k =>
          if negb out_len || negb (zdb_key_valid key) ||
             (match out_value with None => 0 <? out_capacity | Some _ => false end)
          then ret (ZDB_ERR_INVAL, untouched)
          else
            fs ← zdb_kv_backend_fs_from_db (Some db);
            if negb fs then ret (ZDB_ERR_INVAL, untouched)
            else
              slab ← db_get kv_io_slab;
              match slab with
              | None => ret (ZDB_ERR_INVAL, untouched)
              | Some slab =>
                  rc ← on_k (k_mem_slab_alloc slab);
                  if negb (rc =? 0)%Z then ret (ZDB_ERR_NOMEM, untouched)
                  else
                    lock_rc ← zdb_lock_read db;
                    if negb (bool_decide (lock_rc = ZDB_OK)) then
                      on_k_ (k_mem_slab_free slab);;
                      ret (lock_rc, untouched)
                    else
                      r ← zdb_kv_backend_read (Some db) (zdb_kv_record_id ns k)
                            (slab_block_size slab);
                      zdb_unlock_read db;;
                      on_k_ (k_mem_slab_free slab);;
                      ret (kv_get_result (slab_block_size slab) r.1 r.2 ns k
                             out_value out_capacity)
              end
      | None => ret (ZDB_ERR_INVAL, untouched)
      end
  | _ => ret (ZDB_ERR_INVAL, untouched)
  end.

(** The locked part of [zdb_kv_delete]. *)
Definition kv_delete_locked (db : db_ref) (slab : k_mem_slab) (ns key : cstring)
    : M W zdb_status_t :=
  let block_size := slab_block_size slab in
  let id := zdb_kv_record_id ns key in
  r ← zdb_kv_backend_read (Some db) id block_size;
  if (r.1 <? 0)%Z then ret (zdb_status_from_errno r.1)
  else
    let usable := if (r.1 <? block_size)%Z then Z.to_nat r.1 else block_size in
    match (zdb_kv_record_check r.2 usable ns key).1 with
    | ZDB_KV_REC_MATCH =>
        rc ← zdb_kv_backend_delete (Some db) id;
        if (0 <=? rc)%Z then
          zdb_kv_ctx_track_delete (Some db) (Some ns) (Some key);;
          ret ZDB_OK
        else ret (zdb_status_from_errno rc)
    | _ => ret ZDB_ERR_NOT_FOUND
    end.

Definition zdb_kv_delete (kv : option zdb_kv_t) (key : option cstring) : M W zdb_status_t :=
  match kv with
  | Some {| kv_db := Some db; kv_namespace_name := Some ns |} =>
      match key with
      | Some k =>
          if negb (zdb_key_valid key) then ret ZDB_ERR_INVAL
          else
            fs ← zdb_kv_backend_fs_from_db (Some db);
            if negb fs then ret ZDB_ERR_INVAL
            else
              slab ← db_get kv_io_slab;
              match slab with
              | None => ret ZDB_ERR_INVAL
              | Some slab =>
                  rc ← on_k (k_mem_slab_alloc slab);
                  status ←
                    (if negb (rc =? 0)%Z then ret ZDB_ERR_NOMEM
                     else
                       lock_rc ← zdb_lock_write db;
                       status ←
                         (if negb (bool_decide (lock_rc = ZDB_OK)) then ret lock_rc
                          else
                            status ← kv_delete_locked db slab ns k;
                            zdb_unlock_write db;;
                            ret status);
                       on_k_ (k_mem_slab_free slab);;
                       ret status);
                  (if CONFIG_ZDB_EVENTING then
                     zdb_emit_kv_event (Some db) ZDB_EVENT_KV_DELETE (Some ns) key 0 status
                   else ret tt);;
                  ret status
              end
      | None => ret ZDB_ERR_INVAL
      end
  | _ => ret ZDB_ERR_INVAL
  end.

(** ** Iteration *)

Definition zdb_kv_iter_open (kv : option zdb_kv_t) (out_iter : option zdb_kv_iter_t)
    : M W (zdb_status_t * option zdb_kv_iter_t) :=
  match kv, out_iter with
  | Some {| kv_db := Some db |}, Some _ =>
      ok ← zdb_kv_ctx_get_or_alloc (Some db);
      if negb ok then ret (ZDB_ERR_NOMEM, out_iter)
      else ret (ZDB_OK, Some {| it_kv := kv; it_position := 0 |})
  | _, _ => ret (ZDB_ERR_INVAL, out_iter)
  end.

(** The first entry of the namespace at or after [pos]: position and key. *)
Fixpoint next_in_ns (es : list zdb_kv_index_entry) (ns : cstring) (i : nat)
    : option (nat * cstring) :=
  match es with
  | [] => None
  | e :: es =>
      if bool_decide (en_namespace_name e = ns) then Some (i, en_key e)
      else next_in_ns es ns (S i)
  end.

Definition first_in_ns (es : list zdb_kv_index_entry) (ns : cstring) (pos : nat)
    : option (nat * cstring) :=
  next_in_ns (drop pos es) ns pos.

(** The locked scan of [zdb_kv_iter_next]: the key found, empty for none, and
    the new position. *)
Definition iter_scan (es : list zdb_kv_index_entry) (ns : cstring) (pos : nat)
    : cstring * nat :=
  match first_in_ns es ns pos with
  | Some (i, key) => (strncpy_trunc CONFIG_ZDB_MAX_KEY_LEN key, S i)
  | None => ([], length es)
  end.

(** The loop of [zdb_kv_iter_next], with fuel for the number of stale entries
    it may skip; [None] when the fuel is spent. [key_len] and [value_len] are
    what the rounds so far have stored through the two length pointers. *)
Fixpoint iter_next_loop (fuel : nat) (kv : zdb_kv_t) (db : db_ref) (ns : cstring) (pos : nat)
    (out_key : list byte) (out_key_capacity : nat)
    (out_value : option (list byte)) (out_value_capacity : nat) (key_len value_len : option nat)
    : M W (option (zdb_status_t * nat * iter_out)) :=
  match fuel with
  | 0 => ret None
  | S fuel =>
      lock_rc ← zdb_lock_read db;
      if negb (bool_decide (lock_rc = ZDB_OK)) then
        ret (Some (lock_rc, pos,
          {| io_key := out_key; io_key_len := key_len;
             io_value := {| o_len := value_len; o_value := out_value |} |}))
      else
        ctx ← db_get kv_ctx;
        let none := {| io_key := out_key; io_key_len := Some 0;
                       io_value := {| o_len := Some 0; o_value := out_value |} |} in
        match ctx with
        | None => zdb_unlock_read db;; ret (Some (ZDB_ERR_NOT_FOUND, pos, none))
        | Some c =>
            if entry_count c <=? pos then
              zdb_unlock_read db;; ret (Some (ZDB_ERR_NOT_FOUND, pos, none))
            else
              let '(key_local, pos) := iter_scan (entries c) ns pos in
              zdb_unlock_read db;;
              match key_local with
              | [] => ret (Some (ZDB_ERR_NOT_FOUND, pos, none))
              | _ =>
                  if out_key_capacity <? length key_local + 1 then
                    ret (Some (ZDB_ERR_NOMEM, pos,
                      {| io_key := out_key; io_key_len := Some (length key_local);
                         io_value := {| o_len := Some 0; o_value := out_value |} |}))
                  else
                    let out_key := buf_write out_key 0 (key_local ++ [nul]) in
                    '(rc, out) ← zdb_kv_get (Some kv) (Some key_local) out_value
                                   out_value_capacity true;
                    if bool_decide (rc = ZDB_OK) then
                      ret (Some (ZDB_OK, pos,
                        {| io_key := out_key; io_key_len := Some (length key_local);
                           io_value := out |}))
                    else if negb (bool_decide (rc = ZDB_ERR_NOT_FOUND)) then
                      ret (Some (rc, pos,
                        {| io_key := out_key; io_key_len := Some 0;
                           io_value := {| o_len := Some 0; o_value := o_value out |} |}))
                    else iter_next_loop fuel kv db ns pos out_key out_key_capacity
                           (o_value out) out_value_capacity (Some (length key_local)) (o_len out)
              end
        end
  end.

(** Enough fuel for the entries not yet visited. *)
Definition iter_fuel (d : zdb_t) (pos : nat) : nat := S (length (ctx_entries d) - pos).

Definition zdb_kv_iter_next (iter : option zdb_kv_iter_t)
    (out_key : option (list byte)) (out_key_capacity : nat) (out_key_len : bool)
    (out_value : option (list byte)) (out_value_capacity : nat) (out_value_len : bool)
    : M W (option (zdb_status_t * nat * iter_out)) :=
  match iter with
  | Some {| it_kv := Some {| kv_db := Some db; kv_namespace_name := Some ns |} as kv;
            it_position := pos |} =>
      match out_key, kv with
      | Some out_key, Some kv =>
          if negb out_key_len || negb out_value_len || (out_key_capacity =? 0) ||
             (match out_value with None => 0 <? out_value_capacity | Some _ => false end)
          then ret (Some (ZDB_ERR_INVAL, pos,
                 {| io_key := out_key; io_key_len := None;
                    io_value := {| o_len := None; o_value := out_value |} |}))
          else
            fuel ← mgets (λ w, iter_fuel (w_db w) pos);
            iter_next_loop fuel kv db ns pos out_key out_key_capacity
              out_value out_value_capacity None None
      | _, _ => ret (Some (ZDB_ERR_INVAL, pos,
                 {| io_key := []; io_key_len := None;
                    io_value := {| o_len := None; o_value := out_value |} |}))
      end
  | _ => ret (Some (ZDB_ERR_INVAL, 0,
           {| io_key := default [] out_key; io_key_len := None;
              io_value := {| o_len := None; o_value := out_value |} |}))
  end.

Definition zdb_kv_iter_close (iter : option zdb_kv_iter_t)
    : zdb_status_t * option zdb_kv_iter_t :=
  match iter with
  | None => (ZDB_ERR_INVAL, None)
  | Some _ => (ZDB_OK, Some {| it_kv := None; it_position := 0 |})
  end.

(** ** Defaults *)

(** One entry of the defaults table; the result is [Some rc] when it counts
    towards the first error. *)
Definition default_apply (db : db_ref) (namespace_filter : option cstring)
    (def : zdb_kv_default_t) : M W (option zdb_status_t) :=
  match def_namespace_name def, def_key def with
  | Some ns, Some key =>
      if match namespace_filter with
         | Some f => negb (bool_decide (ns = f))
         | None => false
         end
      then ret None
      else
        '(rc, kv) ← zdb_kv_open (Some db) (Some ns)
                      (Some {| kv_db := None; kv_namespace_name := None |});
        if negb (bool_decide (rc = ZDB_OK)) then ret (Some rc)
        else
          '(rc, _) ← zdb_kv_get kv (Some key) None 0 true;
          rc ← (if bool_decide (rc = ZDB_ERR_NOT_FOUND)
                then zdb_kv_set kv (Some key) (def_value def) (def_value_len def)
                else ret rc);
          ret (Some rc)
  | _, _ => ret (Some ZDB_ERR_INVAL)
  end.

Definition first_error (acc : zdb_status_t) (rc : option zdb_status_t) : zdb_status_t :=
  match rc with
  | Some rc =>
      if negb (bool_decide (rc = ZDB_OK)) && bool_decide (acc = ZDB_OK) then rc else acc
  | None => acc
  end.

Fixpoint defaults_loop (db : db_ref) (namespace_filter : option cstring)
    (defs : list zdb_kv_default_t) (acc : zdb_status_t) : M W zdb_status_t :=
  match defs with
  | [] => ret acc
  | def :: defs =>
      rc ← default_apply db namespace_filter def;
      defaults_loop db namespace_filter defs (first_error acc rc)
  end.

Definition zdb_kv_defaults_apply_ns (db : db_ptr) (namespace_filter : option cstring)
    : M W zdb_status_t :=
  match db with
  | None => ret ZDB_ERR_INVAL
  | Some d =>
      c ← db_get cfg;
      match c with
      | None => ret ZDB_ERR_INVAL
      | Some c =>
          match kv_defaults c with
          | None | Some [] => ret ZDB_OK
          | Some defs =>
              fs ← zdb_kv_backend_fs_from_db db;
              if negb fs then ret ZDB_ERR_INVAL
              else defaults_loop d namespace_filter defs ZDB_OK
          end
      end
  end.

Definition zdb_kv_defaults_apply (db : db_ptr) : M W zdb_status_t :=
  zdb_kv_defaults_apply_ns db None.

(** ** Resetting a namespace *)

(** [zdb_kv_next_key_in_ns]: position and key of the next entry, -1 as [None]. *)
Definition zdb_kv_next_key_in_ns (db : db_ref) (ns : cstring) (from_pos : nat)
    (out_key_size : nat) : M W (option (nat * cstring)) :=
  lock_rc ← zdb_lock_read db;
  if negb (bool_decide (lock_rc = ZDB_OK)) then ret None
  else
    ctx ← db_get kv_ctx;
    let found :=
      match ctx with
      | None => None
      | Some c =>
          match first_in_ns (entries c) ns from_pos with
          | Some (i, key) => Some (i, strncpy_trunc (out_key_size - 1) key)
          | None => None
          end
      end in
    zdb_unlock_read db;;
    ret found.

(** One round of the deletion loop: [None] when the key is gone and the scan
    resumes at the same position, [Some rc] for a failure to step over. *)
Definition reset_one (kv : zdb_kv_t) (db : db_ref) (ns key : cstring)
    : M W (option zdb_status_t) :=
  rc ← zdb_kv_delete (Some kv) (Some key);
  if bool_decide (rc = ZDB_OK) then ret None
  else if bool_decide (rc = ZDB_ERR_NOT_FOUND) then
    lock_rc ← zdb_lock_write db;
    (if bool_decide (lock_rc = ZDB_OK) then
       zdb_kv_ctx_track_delete (Some db) (Some ns) (Some key);;
       zdb_unlock_write db
     else ret tt);;
    ret None
  else ret (Some rc).

(** The deletion loop of [zdb_kv_reset_namespace]; [None] when the fuel is spent. *)
Fixpoint reset_loop (fuel : nat) (kv : zdb_kv_t) (db : db_ref) (ns : cstring) (pos : nat)
    (acc : zdb_status_t) : M W (option zdb_status_t) :=
  match fuel with
  | 0 => ret None
  | S fuel =>
      found ← zdb_kv_next_key_in_ns db ns pos (CONFIG_ZDB_MAX_KEY_LEN + 1);
      match found with
      | None => ret (Some acc)
      | Some (entry_pos, key) =>
          r ← reset_one kv db ns key;
          match r with
          | None => reset_loop fuel kv db ns pos acc
          | Some rc => reset_loop fuel kv db ns (S entry_pos) (first_error acc (Some rc))
          end
      end
  end.

Definition zdb_kv_reset_namespace (fuel : nat) (kv : option zdb_kv_t)
    : M W (option zdb_status_t) :=
  match kv with
  | Some ({| kv_db := Some db; kv_namespace_name := Some ns |} as kv) =>
      fs ← zdb_kv_backend_fs_from_db (Some db);
      if negb fs then ret (Some ZDB_ERR_INVAL)
      else
        ok ← zdb_kv_ctx_get_or_alloc (Some db);
        if negb ok then ret (Some ZDB_ERR_NOMEM)
        else
          acc ← reset_loop fuel kv db ns 0 ZDB_OK;
          match acc with
          | None => ret None
          | Some acc =>
              rc ← zdb_kv_defaults_apply_ns (Some db) (Some ns);
              ret (Some (first_error acc (Some rc)))
          end
  | _ => ret (Some ZDB_ERR_INVAL)
  end.

(** ** Strings *)

Definition zdb_kv_set_str (kv : option zdb_kv_t) (key : option cstring)
    (value : option cstring) : M W zdb_status_t :=
  match value with
  | None => ret ZDB_ERR_INVAL
  | Some v => zdb_kv_set kv key (Some (v ++ [nul])) (length v + 1)
  end.

(** [memchr (s, 0, n)] as an offset. *)
Fixpoint memchr_nul (s : list byte) (n : nat) : option nat :=
  match n, s with
  | S n, b :: s => if bool_decide (b = nul) then Some 0 else S <$> memchr_nul s n
  | _, _ => None
  end.

Definition zdb_kv_get_str (kv : option zdb_kv_t) (key : option cstring)
    (out_str : option (list byte)) (out_capacity : nat) (out_len : bool)
    : M W (zdb_status_t * kv_out) :=
  match out_str with
  | None => ret (ZDB_ERR_INVAL, {| o_len := None; o_value := None |})
  | Some buf =>
      if (out_capacity =? 0) || negb out_len
      then ret (ZDB_ERR_INVAL, {| o_len := None; o_value := Some buf |})
      else
        '(rc, out) ← zdb_kv_get kv key (Some buf) (out_capacity - 1) true;
        let stored_len := default 0 (o_len out) in
        let buf := default [] (o_value out) in
        if negb (bool_decide (rc = ZDB_OK)) then
          ret (rc, {| o_len := Some 0; o_value := Some (buf_write buf 0 [nul]) |})
        else
          let copied := if stored_len <? out_capacity - 1 then stored_len else out_capacity - 1 in
          match memchr_nul buf copied with
          | Some off => ret (ZDB_OK, {| o_len := Some off; o_value := Some buf |})
          | None =>
              ret (ZDB_OK, {| o_len := Some stored_len;
                              o_value := Some (buf_write buf copied [nul]) |})
          end
  end.

End kv.

#[global] Arguments zdb_kv_open : simpl never.
#[global] Arguments zdb_kv_set : simpl never.
#[global] Arguments zdb_kv_get : simpl never.
#[global] Arguments zdb_kv_delete : simpl never.
#[global] Arguments zdb_kv_next_key_in_ns : simpl never.
#[global] Arguments zdb_kv_defaults_apply_ns : simpl never.
#[global] Arguments default_apply : simpl never.
#[global] Arguments reset_one : simpl never.
#[global] Arguments first_error : simpl never.
