(* ===== verification/KvIndexSpec.v ===== *)
(** * Correctness of the key index

    [idx_step] is the contract the index offers the key-value operations: it
    changes nothing but its context and its own reserved record, and leaves
    locks, slabs and the heap balanced. *)

From S2P Require Import Prelude Config Env Types KvFormat KvIndex.

Section spec.
Context {Cfg : Config} {CfgOk : ConfigOk Cfg} {K F FS : Type}.
Context `{!Kernel K, !KernelLaws K, !KvBackend F, !KvBackendLaws F}.
Abbreviation W := (world K F FS).
Implicit Types w : W.

(** The heap block the context occupies, when there is one. *)
Definition ctx_blocks (d : zdb_t) : nat :=
  match kv_ctx d with None => 0 | Some _ => 1 end.

Record idx_step (w w' : W) : Prop := {
  ix_db : w_db w' = (w_db w) <| kv_ctx := kv_ctx (w_db w') |>;
  ix_fs : w_fs w' = w_fs w;
  ix_log : w_log w' = w_log w;
  ix_lock : lock_depth (w_k w') = lock_depth (w_k w);
  ix_slab : ∀ s, slab_used (w_k w') s = slab_used (w_k w) s;
  ix_heap : heap_used (w_k w') + ctx_blocks (w_db w) = heap_used (w_k w) + ctx_blocks (w_db w');
  ix_store : ∀ i, i ≠ ZDB_KV_INDEX_REC_ID →
    kvb_store (w_f w') !! i = kvb_store (w_f w) !! i;
}.

#[global] Instance idx_step_preorder : PreOrder idx_step.
Proof.
  split.
  - intros w. split; try done. by destruct w as [[] ? ? ? ?].
  - intros w1 w2 w3 [Hdb ????? Hs] [Hdb' ????? Hs']. split; try congruence; try lia.
    + rewrite Hdb', Hdb. done.
    + intros i Hi. by rewrite Hs', Hs.
Qed.

Lemma idx_step_cfg w w' : idx_step w w' → cfg (w_db w') = cfg (w_db w).
Proof. intros H. by rewrite (ix_db _ _ H). Qed.

Lemma idx_step_slab w w' : idx_step w w' → kv_io_slab (w_db w') = kv_io_slab (w_db w).
Proof. intros H. by rewrite (ix_db _ _ H). Qed.

(** A backend call on the reserved record, or one that stores nothing. *)
Lemma idx_step_f w f' :
  (∀ i, i ≠ ZDB_KV_INDEX_REC_ID → kvb_store f' !! i = kvb_store (w_f w) !! i) →
  idx_step w (w <| w_f := f' |>).
Proof. intros Hs. split; try done. by destruct w as [[] ? ? ? ?]. Qed.

Lemma idx_step_ctx w f :
  idx_step w (w <| w_db ::= λ d, d <| kv_ctx ::= option_map f |> |>).
Proof.
  split; try done. simpl. unfold ctx_blocks. simpl. by destruct (kv_ctx (w_db w)).
Qed.

Lemma index_bytes_ne es : index_bytes es ≠ [].
Proof. done. Qed.

(** [zdb_kv_index_store] writes the index record or leaves it as it was. *)
Lemma wp_index_store db (Q : unit → W → Prop) w :
  (∀ w', idx_step w w' → w_db w' = w_db w →
     (kvb_store (w_f w') = kvb_store (w_f w) ∨
      kvb_store (w_f w') = <[ZDB_KV_INDEX_REC_ID := index_bytes (ctx_entries (w_db w))]>
                             (kvb_store (w_f w))) → Q tt w') →
  wp (zdb_kv_index_store db) Q w.
Proof.
  intros HQ. apply wp_bind, wp_fs_from_db. intros [] _; simpl.
  - apply wp_bind, wp_db_get, wp_bind, wp_backend_write; [apply index_bytes_ne|..].
    + intros f' Hs. rewrite backend_id_index in Hs. apply wp_ret, HQ; [|done|by right].
      apply idx_step_f. intros i Hi. rewrite Hs. by apply lookup_insert_ne.
    + intros f' _ Hs. apply wp_ret, HQ; [|done|by left]. apply idx_step_f. by intros; rewrite Hs.
    + intros z f' _ Hs. apply wp_ret, HQ; [|done|by left]. apply idx_step_f. by intros; rewrite Hs.
  - apply wp_ret, HQ; [done|done|by left].
Qed.

(** ** The rebuild *)

(** An entry the rebuild recovered for one of [ids] from the record stored there. *)
Definition recovered (store : gmap Z (list byte)) (block_size : nat) (ids : list Z)
    (e : zdb_kv_index_entry) : Prop :=
  en_id e ∈ ids ∧ ∃ d, store !! backend_id (en_id e) = Some d ∧
    index_entry_of (en_id e) (length d) (take block_size d) = Some e.

Lemma recovered_cons store block id ids e :
  recovered store block ids e → recovered store block (id :: ids) e.
Proof. intros [? ?]. split; [by right|done]. Qed.

Lemma index_entry_of_id id rd buf e : index_entry_of id rd buf = Some e → en_id e = id.
Proof.
  unfold index_entry_of. destruct (rd <? _)%Z; [done|]. cbv zeta.
  match goal with |- context [if ?b then _ else _] => destruct b end; [done|].
  by intros [= <-].
Qed.

Lemma index_entry_of_neg id rd buf : (rd < 0)%Z → index_entry_of id rd buf = None.
Proof.
  intros. unfold index_entry_of. destruct (Z.ltb_spec rd ZDB_KV_REC_HDR_SIZE); [done|].
  unfold ZDB_KV_REC_HDR_SIZE in *. lia.
Qed.

Lemma wp_index_load_loop db block ids pruned (Q : bool → W → Prop) w c :
  kv_ctx (w_db w) = Some c →
  (∀ b w' c' new, idx_step w w' → kvb_store (w_f w') = kvb_store (w_f w) →
     kv_ctx (w_db w') = Some c' → entries c' = entries c ++ new → loaded c' = loaded c →
     length new ≤ length ids →
     Forall (recovered (kvb_store (w_f w)) block ids) new → Q b w') →
  wp (index_load_loop db block ids pruned) Q w.
Proof.
  revert pruned w c. induction ids as [|id ids IH]; intros pruned w c Hc HQ.
  { apply wp_ret. eapply (HQ _ _ c []); try done. by rewrite app_nil_r. }
  assert (∀ b f', kvb_store f' = kvb_store (w_f w) →
    wp (index_load_loop db block ids b) Q (w <| w_f := f' |>)) as Hskip.
  { intros b f' Hs. eapply IH; [done|]. intros b' w' c' new Hst Hs' Hc' Hes Hld Hlen Hrec.
    eapply (HQ b' w' c' new); try done.
    - etrans; [|exact Hst]. apply idx_step_f. intros. by rewrite Hs.
    - rewrite Hs'. exact Hs.
    - simpl. lia.
    - simpl in Hrec. rewrite Hs in Hrec. eapply Forall_impl; [exact Hrec|].
      apply recovered_cons. }
  simpl. apply wp_bind, wp_backend_read.
  - intros d f' Hd Hs. simpl.
    destruct (index_entry_of id (length d) (take block d)) as [e|] eqn:He; [|by apply Hskip].
    apply wp_bind, wp_db_set. eapply IH; [simpl; by rewrite Hc|].
    intros b' w' c' new Hst Hs' Hc' Hes Hld Hlen Hrec.
    eapply (HQ b' w' c' (e :: new)); try done.
    + etrans; [|exact Hst]. etrans; [|apply idx_step_ctx].
      apply idx_step_f. intros. by rewrite Hs.
    + rewrite Hs'. exact Hs.
    + rewrite Hes. simpl. by rewrite <- app_assoc.
    + simpl. lia.
    + pose proof (index_entry_of_id _ _ _ _ He) as Hid. constructor.
      { rewrite <- Hid in Hd, He. split; [rewrite Hid; by left|eauto]. }
      simpl in Hrec. rewrite Hs in Hrec. eapply Forall_impl; [exact Hrec|].
      apply recovered_cons.
  - intros b f' _ Hs. cbn [fst snd]. rewrite index_entry_of_neg by (unfold ENOENT; lia). by apply Hskip.
  - intros z b f' Hz _ Hs _. cbn [fst snd]. rewrite index_entry_of_neg by done. by apply Hskip.
Qed.

Lemma index_ids_length rd buf ids :
  index_ids rd buf = Some ids → length ids ≤ CONFIG_ZDB_KV_INDEX_MAX_ENTRIES.
Proof.
  unfold index_ids. destruct (rd <? _)%Z; [done|]. destruct (_ || _); [done|].
  cbv zeta. match goal with |- context [(rd <? ?b)%Z] => destruct (rd <? b)%Z end; [done|].
  intros [= <-]. rewrite length_map, length_seq.
  destruct (Nat.ltb_spec CONFIG_ZDB_KV_INDEX_MAX_ENTRIES (Z.to_nat (get_le 2 buf 2))); lia.
Qed.

(** ** The index invariant *)

(** Every entry holds a non-empty pair that fits its fields, and the array is
    not overrun. *)
Definition entry_ok (e : zdb_kv_index_entry) : Prop :=
  length (en_namespace_name e) ≤ CONFIG_ZDB_MAX_KEY_LEN ∧
  length (en_key e) ≤ CONFIG_ZDB_MAX_KEY_LEN.

Definition kv_ctx_ok (d : zdb_t) : Prop :=
  length (ctx_entries d) ≤ CONFIG_ZDB_KV_INDEX_MAX_ENTRIES ∧ Forall entry_ok (ctx_entries d).

Lemma length_until_nul s : length (until_nul s) ≤ length s.
Proof. induction s as [|b s IH]; simpl; [lia|]. case_bool_decide; simpl; lia. Qed.

Lemma recovered_ok store block ids e : recovered store block ids e → entry_ok e.
Proof.
  intros (_ & d & _ & He). unfold index_entry_of in He.
  destruct (_ <? _)%Z; [done|]. cbv zeta in He.
  destruct (Nat.ltb_spec CONFIG_ZDB_MAX_KEY_LEN (Z.to_nat (u8_at (take block d) 1)));
    [rewrite !orb_true_r in He; done|].
  destruct (Nat.ltb_spec CONFIG_ZDB_MAX_KEY_LEN (Z.to_nat (u8_at (take block d) 2)));
    [rewrite !orb_true_r in He; done|].
  match type of He with (if ?b then _ else _) = _ => destruct b end; [done|].
  injection He as <-. split; simpl.
  - etrans; [apply length_until_nul|]. rewrite length_take. lia.
  - etrans; [apply length_until_nul|]. rewrite length_take. lia.
Qed.

(** A step with a block of a slab in hand, which is given back. *)
Lemma idx_step_buffered slab f' k' w w' :
  k_mem_slab_alloc slab (w_k w) = (0%Z, k') → kvb_store f' = kvb_store (w_f w) →
  idx_step (w <| w_f := f' |> <| w_k := k' |>) w' →
  idx_step w (w' <| w_k := k_mem_slab_free slab (w_k w') |>).
Proof.
  intros Hal Hs [Hdb ? ? Hlk Hsb Hhp Hsr].
  pose proof (k_mem_slab_alloc_law slab (w_k w)) as (Hl & Hh & Hsl). rewrite Hal in *.
  pose proof (k_mem_slab_free_law slab (w_k w')) as (Hl2 & Hh2 & Hsl2). simpl in *. split; simpl.
  - exact Hdb.
  - done.
  - done.
  - rewrite Hl2, Hlk. exact Hl.
  - intros s. rewrite Hsl2, !Hsb. rewrite !Hsl. repeat case_decide; first [done|tauto|simpl; tauto].
  - by rewrite Hh2, Hhp, Hh.
  - intros i Hi. rewrite Hsr by done. by rewrite Hs.
Qed.

(** What the context is after [zdb_kv_ctx_get_or_alloc]. *)
Lemma wp_index_load db (Q : unit → W → Prop) w c :
  kv_ctx (w_db w) = Some c → entries c = [] →
  (∀ w' c', idx_step w w' → kv_ctx (w_db w') = Some c' → kv_ctx_ok (w_db w') →
     Forall (recovered (kvb_store (w_f w))
       (from_option slab_block_size 0 (kv_io_slab (w_db w)))
       (default [] (kvb_store (w_f w) !! ZDB_KV_INDEX_REC_ID ≫= λ d,
          index_ids (length d) (take ZDB_KV_INDEX_MAX_BYTES d)))) (entries c') →
     Q tt w') →
  wp (zdb_kv_index_load db) Q w.
Proof.
  intros Hc Hes HQ.
  assert (∀ f' k', kvb_store f' = kvb_store (w_f w) → k_same (w_k w) k' →
    Q tt (w <| w_f := f' |> <| w_k := k' |>)) as Hnone.
  { intros f' k' Hs [Hl Hsl Hh]. eapply (HQ _ c); try done.
    - split; try done; simpl; try by destruct w as [[] ? ? ? ?]. 
      + by rewrite Hh. + intros. by rewrite Hs.
    - unfold kv_ctx_ok, ctx_entries. simpl. rewrite Hc, Hes. split; [simpl; lia|constructor].
    - rewrite Hes. constructor. }
  assert (∀ f', kvb_store f' = kvb_store (w_f w) → Q tt (w <| w_f := f' |>)) as Hnone'.
  { intros f' Hs. replace (w <| w_f := f' |>) with (w <| w_f := f' |> <| w_k := w_k w |>)
      by by destruct w. by apply Hnone. }
  apply wp_bind, wp_fs_from_db. intros [] _; simpl; cycle 1.
  { apply wp_ret. rewrite <- (world_eta_f w). by apply Hnone'. }
  apply wp_bind, wp_backend_read.
  - intros d f' Hd Hs. rewrite backend_id_index in Hd. cbn [fst snd].
    rewrite Hd in HQ. simpl in HQ.
    destruct (index_ids (length d) (take ZDB_KV_INDEX_MAX_BYTES d)) as [ids|] eqn:Hids;
      [|by apply wp_ret, Hnone'].
    apply wp_bind, wp_db_get. simpl.
    destruct (kv_io_slab (w_db w)) as [slab|] eqn:Hslab; [|by apply wp_ret, Hnone'].
    apply wp_bind, wp_on_k. intros rc k' Hal. simpl in Hal.
    pose proof (k_mem_slab_alloc_law slab (w_k w)) as (Hl & Hh & Hsl). rewrite Hal in *.
    simpl in Hl, Hh, Hsl. destruct (Z.eqb_spec rc 0) as [->|Hrc]; simpl; cycle 1.
    { apply wp_ret. apply Hnone; [done|]. split; [done| |done].
      intros s. rewrite Hsl, decide_False; [done|]. by intros [??]. }
    apply wp_bind. eapply wp_index_load_loop; [exact Hc|].
    intros b w' c' new Hst Hs' Hc' Hes' Hld Hlen Hrec. cbn [w_f w_k] in *.
    apply wp_bind, wp_on_k_. simpl.
    set (w2 := w' <| w_k := k_mem_slab_free slab (w_k w') |>).
    assert (idx_step w w2) as Hst2 by (by eapply idx_step_buffered).
    assert (kv_ctx_ok (w_db w2) ∧ entries c' = new) as [Hok Hnew].
    { rewrite Hes in Hes'. simpl in Hes'. split; [|done].
      unfold kv_ctx_ok, ctx_entries. simpl. rewrite Hc', Hes'. split.
      - etrans; [exact Hlen|]. by eapply index_ids_length.
      - eapply Forall_impl; [exact Hrec|]. intros. by eapply recovered_ok. }
    simpl in Hrec. rewrite Hs in Hrec.
    destruct b.
    + apply wp_index_store. intros w3 Hst3 Hdb3 _. eapply (HQ w3 c').
      * by etrans.
      * rewrite Hdb3. done.
      * rewrite Hdb3. done.
      * by rewrite Hnew.
    + apply wp_ret. eapply (HQ w2 c'); [done..|]. by rewrite Hnew.
  - intros b f' _ Hs. simpl. by apply wp_ret, Hnone'.
  - intros z b f' Hz _ Hs _. cbn [fst snd].
    unfold index_ids. destruct (Z.ltb_spec z ZDB_KV_INDEX_HDR_SIZE); [by apply wp_ret, Hnone'|].
    unfold ZDB_KV_INDEX_HDR_SIZE in *. lia.
Qed.

Lemma idx_step_k w k' :
  lock_depth k' = lock_depth (w_k w) → (∀ s, slab_used k' s = slab_used (w_k w) s) →
  heap_used k' = heap_used (w_k w) → idx_step w (w <| w_k := k' |>).
Proof.
  intros. split; try done; simpl; [by destruct w as [[] ? ? ? ?]|lia].
Qed.

(** There is no index, and no memory for one. *)
Definition no_index w : Prop := kv_ctx (w_db w) = None ∧ ¬ HeapLive K.

Lemma wp_ctx_get_or_alloc db (Q : bool → W → Prop) w :
  (∀ w', idx_step w w' → no_index w → kv_ctx (w_db w') = None → Q false w') →
  (∀ w' c', idx_step w w' → kv_ctx (w_db w') = Some c' →
     (kv_ctx (w_db w) = Some c' ∨ kv_ctx (w_db w) = None ∧ kv_ctx_ok (w_db w')) → Q true w') →
  wp (zdb_kv_ctx_get_or_alloc (Some db)) Q w.
Proof.
  intros Hnone HQ. apply wp_bind, wp_db_get.
  destruct (kv_ctx (w_db w)) as [c|] eqn:Hc.
  { apply wp_ret, (HQ w c); [done..|by left]. }
  apply wp_bind, wp_on_k. intros ok k' Hal.
  pose proof (k_malloc_law sizeof_zdb_kv_ctx (w_k w)) as (Hl & Hs & Hh).
  rewrite Hal in Hl, Hs, Hh. simpl in Hl, Hs, Hh. destruct ok; simpl; cycle 1.
  { apply wp_ret, Hnone; [by apply idx_step_k| |done]. split; [done|]. intros Hlive.
    pose proof (Hlive sizeof_zdb_kv_ctx (w_k w)) as E. by rewrite Hal in E. }
  apply wp_bind, wp_db_set.
  set (w1 := _ <| w_db := _ |>).
  assert (idx_step w w1) as Hst1.
  { split; try done; simpl. unfold ctx_blocks. simpl. rewrite Hc. lia. }
  assert (∀ w2 c2, idx_step w1 w2 → kv_ctx (w_db w2) = Some c2 → kv_ctx_ok (w_db w2) →
    wp (ctx_update (λ c, c <| loaded := true |>);; ret true) Q w2) as Htail.
  { intros w2 c2 Hst2 Hc2 Hok2. apply wp_bind, wp_db_set, wp_ret.
    eapply (HQ _ (c2 <| loaded := true |>)).
    - etrans; [exact Hst1|]. etrans; [exact Hst2|]. apply idx_step_ctx.
    - simpl. by rewrite Hc2.
    - right. split; [done|]. unfold kv_ctx_ok, ctx_entries in *. simpl. rewrite Hc2 in *. done. }
  apply wp_bind. destruct CONFIG_ZDB_KV_PERSIST_INDEX.
  - eapply (wp_index_load _ _ w1 empty_kv_ctx); [done|done|].
    intros w2 c2 Hst2 Hc2 Hok2 _. by eapply Htail.
  - apply wp_ret. eapply Htail; [done|done|].
    split; [simpl; lia|constructor].
Qed.

(** ** Lookups in the index *)

Definition pair_of (e : zdb_kv_index_entry) : cstring * cstring :=
  (en_namespace_name e, en_key e).

Lemma find_entry_Some es ns key i :
  find_entry es ns key = Some i → ∃ e, es !! i = Some e ∧ pair_of e = (ns, key).
Proof.
  revert i. induction es as [|e es IH]; intros i; simpl; [done|].
  case_bool_decide as H1; [case_bool_decide as H2|]; simpl.
  - intros [= <-]. exists e. unfold pair_of. by rewrite H1, H2.
  - intros (j & Hj & ->)%fmap_Some_1. by apply IH.
  - intros (j & Hj & ->)%fmap_Some_1. by apply IH.
Qed.

Lemma find_entry_None es ns key :
  find_entry es ns key = None ↔ (ns, key) ∉ pair_of <$> es.
Proof.
  induction es as [|e es IH]; simpl; [set_solver|].
  rewrite not_elem_of_cons, <- IH. unfold pair_of.
  case_bool_decide as H1; [case_bool_decide as H2|]; simpl.
  - rewrite H1, H2. naive_solver.
  - rewrite fmap_None. naive_solver congruence.
  - rewrite fmap_None. naive_solver congruence.
Qed.

(** The keys the index lists. *)
Definition index_pairs (d : zdb_t) : list (cstring * cstring) := pair_of <$> ctx_entries d.

Definition delete_pair (es : list zdb_kv_index_entry) (ns key : cstring)
    : list zdb_kv_index_entry :=
  match find_entry es ns key with Some i => delete i es | None => es end.

Lemma wp_track_delete db ns key (Q : unit → W → Prop) w :
  (∀ w', idx_step w w' → ctx_entries (w_db w') = delete_pair (ctx_entries (w_db w)) ns key →
     (kv_ctx (w_db w) = None ↔ kv_ctx (w_db w') = None) → Q tt w') →
  wp (zdb_kv_ctx_track_delete (Some db) (Some ns) (Some key)) Q w.
Proof.
  intros HQ. apply wp_bind, wp_db_get. unfold ctx_entries at 2 in HQ.
  destruct (kv_ctx (w_db w)) as [c|] eqn:Hc; cycle 1.
  { apply wp_ret, HQ; [done| |by rewrite Hc]. unfold ctx_entries. by rewrite Hc. }
  unfold entry_count. destruct (Nat.eqb_spec (length (entries c)) 0) as [H0|H0].
  { apply length_zero_iff_nil in H0.
    apply wp_ret, HQ; [done| |by rewrite Hc]. unfold ctx_entries. by rewrite Hc, H0. }
  simpl. unfold delete_pair in HQ. destruct (find_entry (entries c) ns key) as [i|] eqn:Hf; cycle 1.
  { apply wp_ret, HQ; [done| |by rewrite Hc]. unfold ctx_entries. by rewrite Hc. }
  apply wp_bind, wp_db_set.
  destruct CONFIG_ZDB_KV_PERSIST_INDEX.
  - apply wp_index_store. intros w' Hst Hdb _. apply HQ.
    + etrans; [apply idx_step_ctx|exact Hst].
    + unfold ctx_entries. rewrite Hdb. simpl. by rewrite Hc.
    + rewrite Hdb. simpl. by rewrite Hc.
  - apply wp_ret, HQ.
    + apply idx_step_ctx.
    + unfold ctx_entries. simpl. by rewrite Hc.
    + simpl. by rewrite Hc.
Qed.

Lemma delete_pair_length es ns key :
  length (delete_pair es ns key) =
    length es - (if decide ((ns, key) ∈ pair_of <$> es) then 1 else 0).
Proof.
  unfold delete_pair. destruct (find_entry es ns key) as [i|] eqn:Hf.
  - apply find_entry_Some in Hf as (e & He & Hp). rewrite decide_True.
    + by erewrite length_delete by done.
    + rewrite <- Hp. apply list_elem_of_fmap_2. by eapply list_elem_of_lookup_2.
  - apply find_entry_None in Hf. rewrite decide_False by done. lia.
Qed.

Lemma delete_pair_sublist es ns key : sublist (delete_pair es ns key) es.
Proof. unfold delete_pair. destruct (find_entry es ns key); [apply sublist_delete|done]. Qed.

(** A set tracks the key, or reports that it did not. *)
Lemma wp_track_set db ns key id (Q : bool → W → Prop) w :
  length ns ≤ CONFIG_ZDB_MAX_KEY_LEN → length key ≤ CONFIG_ZDB_MAX_KEY_LEN →
  (∀ b w', idx_step w w' →
     (kv_ctx_ok (w_db w) → kv_ctx_ok (w_db w')) →
     (b = true → no_index w ∨ (ns, key) ∈ index_pairs (w_db w')) →
     (b = false → ((ns, key) ∉ index_pairs (w_db w')) ∧
        CONFIG_ZDB_KV_INDEX_MAX_ENTRIES ≤ length (ctx_entries (w_db w'))) →
     Q b w') →
  wp (zdb_kv_ctx_track_set (Some db) (Some ns) (Some key) id) Q w.
Proof.
  intros Hns Hkey HQ. apply wp_bind, wp_ctx_get_or_alloc; simpl.
  { intros w' Hst Hc Hc'. apply wp_ret, HQ; [done| |by left|done].
    intros [_ _]. unfold kv_ctx_ok, ctx_entries. rewrite Hc'. split; [simpl; lia|constructor]. }
  intros w1 c1 Hst1 Hc1 Hor.
  assert (kv_ctx_ok (w_db w) → kv_ctx_ok (w_db w1)) as Hok1.
  { destruct Hor as [Hc|[_ ?]]; [|done]. unfold kv_ctx_ok, ctx_entries. by rewrite Hc, Hc1. }
  assert (ctx_entries (w_db w1) = entries c1) as He1 by (unfold ctx_entries; by rewrite Hc1).
  apply wp_bind, wp_db_get. rewrite Hc1. simpl.
  destruct (find_entry (entries c1) ns key) as [i|] eqn:Hf.
  - apply wp_bind, wp_db_set, wp_ret.
    assert (pair_of <$> alter (λ e, e <| en_id := id |>) i (entries c1) =
            pair_of <$> entries c1) as Hp.
    { rewrite (list_fmap_alter _ _ (λ p, p)) by (by apply Forall_true). by rewrite list_alter_id. }
    apply find_entry_Some in Hf as (e & He & Hpe).
    apply HQ; [etrans; [exact Hst1|apply idx_step_ctx]| | |done].
    + intros Hok. specialize (Hok1 Hok) as [Hlen Hall]. unfold kv_ctx_ok, ctx_entries in *.
      simpl. rewrite Hc1 in *. simpl. rewrite length_alter. split; [done|].
      apply Forall_alter; [done|]. by intros.
    + intros _. right. unfold index_pairs, ctx_entries. simpl. rewrite Hc1. simpl. rewrite Hp.
      rewrite <- Hpe. apply list_elem_of_fmap_2. by eapply list_elem_of_lookup_2.
  - apply wp_bind, wp_db_get. rewrite He1.
    pose proof Hf as Hf'. apply find_entry_None in Hf'.
    destruct (Nat.leb_spec CONFIG_ZDB_KV_INDEX_MAX_ENTRIES (length (entries c1))) as [Hfull|Hroom].
    { apply wp_ret, HQ; [done|done|done|]. unfold index_pairs. by rewrite He1. }
    unfold strncpy_trunc. rewrite !take_ge by done.
    apply wp_bind, wp_db_set. set (e := {| en_namespace_name := ns |}).
    set (w2 := w1 <| w_db := _ |>).
    assert (idx_step w1 w2) as Hst2 by apply idx_step_ctx.
    assert (ctx_entries (w_db w2) = entries c1 ++ [e]) as He2.
    { unfold ctx_entries, w2. simpl. by rewrite Hc1. }
    assert (kv_ctx_ok (w_db w) → kv_ctx_ok (w_db w2)) as Hok2.
    { intros [_ Hall]%Hok1. unfold kv_ctx_ok. rewrite He2. rewrite He1 in Hall. split.
      - rewrite length_app. simpl. lia.
      - apply Forall_app. split; [done|]. constructor; [done|constructor]. }
    assert ((ns, key) ∈ index_pairs (w_db w2)) as Hin.
    { unfold index_pairs. rewrite He2, fmap_app. set_solver. }
    apply wp_bind. destruct CONFIG_ZDB_KV_PERSIST_INDEX.
    + apply wp_index_store. intros w' Hst' Hdb _. apply wp_ret, HQ.
      * do 2 (etrans; [eassumption|]). exact Hst'.
      * rewrite Hdb. exact Hok2.
      * intros _. right. by rewrite Hdb.
      * done.
    + apply wp_ret, wp_ret, HQ; [by etrans|done|by right|done].
Qed.

Lemma kv_ctx_ok_delete d d' ns key :
  ctx_entries d' = delete_pair (ctx_entries d) ns key → kv_ctx_ok d → kv_ctx_ok d'.
Proof.
  intros Hd [Hlen Hall]. pose proof (delete_pair_sublist (ctx_entries d) ns key) as Hsub.
  unfold kv_ctx_ok. rewrite Hd. split.
  - apply sublist_length in Hsub. lia.
  - apply Forall_forall. intros e He. eapply Forall_forall; [exact Hall|].
    by eapply elem_of_sublist.
Qed.
End spec.
