(* ===== verification/KvSpec.v ===== *)
(** * Correctness of the key-value operations

    The abstract state of the store is the function [kv_lookup] from
    (namespace, key) pairs to values. Each operation is shown to implement its
    update of that function, and to leave the instance lock, the I/O slab and
    the heap balanced and every event published outside the lock. *)

From S2P Require Import Prelude Config Env Types Events KvFormat KvIndex KvIndexSpec Kv.

Section spec.
Context {Cfg : Config} {CfgOk : ConfigOk Cfg} {K F FS : Type}.
Context `{!Kernel K, !KernelLaws K, !KvBackend F, !KvBackendLaws F}.
Abbreviation W := (world K F FS).
Implicit Types w : W.

(** ** The abstract store *)

(** The value a pair has in the store: that of the record in its slot, when
    the record is the pair's. *)
Definition kv_lookup (f : F) (ns key : cstring) : option (list byte) :=
  kvb_store f !! zdb_kv_record_id ns key ≫= rec_value ns key.

(** Every data record was written through an I/O block of [block] bytes. *)
Definition kv_fits (block : nat) (f : F) : Prop :=
  ∀ id d, kvb_store f !! id = Some d → id ≠ ZDB_KV_INDEX_REC_ID → length d ≤ block.

(** ** The frame of an operation *)

(** What an operation publishes besides its own event: health changes and
    time-series activity deferred to its unlock. *)
Definition background (d : delivery) : Prop :=
  dl_locked d = false ∧ match dl_event d with EvCore _ | EvTs _ => True | _ => False end.

(** From [w] to [w'], with the lock taken [l] more times and [n] more blocks of
    [sl] taken: nothing else of the instance, the file system or the kernel's
    accounts has changed. *)
Record kv_at (l n : nat) (sl : k_mem_slab) (w w' : W) : Prop := {
  at_db : w_db w' = (w_db w) <| kv_ctx := kv_ctx (w_db w') |> <| ts_ctx := ts_ctx (w_db w') |>
                             <| health_event_pending := health_event_pending (w_db w') |>;
  at_fs : w_fs w' = w_fs w;
  at_lock : lock_depth (w_k w') = l + lock_depth (w_k w);
  at_slab : ∀ s, slab_used (w_k w') s =
    (if decide (s = slab_name sl) then n else 0) + slab_used (w_k w) s;
  at_heap : heap_used (w_k w') + ctx_blocks (w_db w) = heap_used (w_k w) + ctx_blocks (w_db w');
  at_log : ∃ new, w_log w' = w_log w ++ new ∧ (lock_depth (w_k w) = 0 → Forall background new);
  at_ts : ctx_sim (ts_ctx (w_db w)) (ts_ctx (w_db w'));
}.

(** The data the key-value store keeps: the backend and the index. *)
Definition same_data (w w' : W) : Prop :=
  kvb_store (w_f w') = kvb_store (w_f w) ∧ kv_ctx (w_db w') = kv_ctx (w_db w).

#[global] Instance same_data_preorder : PreOrder same_data.
Proof. split; unfold same_data; [done|]. intros ??? [??] [??]. split; congruence. Qed.

Lemma kv_at_refl sl w : kv_at 0 0 sl w w.
Proof.
  split; try done.
  - by destruct w as [[] ? ? ? ?].
  - intros s. by case_decide.
  - exists []. by rewrite app_nil_r.
Qed.

Lemma kv_at_zero sl sl' w w' : kv_at 0 0 sl w w' → kv_at 0 0 sl' w w'.
Proof.
  intros [??? Hs ??]. split; try done. intros s. rewrite Hs. by do 2 case_decide.
Qed.

Lemma kv_at_mounted l n sl w w' : kv_at l n sl w w' → kv_mounted (w_db w) → kv_mounted (w_db w').
Proof. intros H. unfold kv_mounted. by rewrite (at_db _ _ _ _ _ H). Qed.

Lemma kv_at_io_slab l n sl w w' : kv_at l n sl w w' → kv_io_slab (w_db w') = kv_io_slab (w_db w).
Proof. intros H. by rewrite (at_db _ _ _ _ _ H). Qed.

Lemma kv_at_cfg l n sl w w' : kv_at l n sl w w' → cfg (w_db w') = cfg (w_db w).
Proof. intros H. by rewrite (at_db _ _ _ _ _ H). Qed.

Lemma kv_at_listeners l n sl w w' :
  kv_at l n sl w w' → event_listeners (w_db w') = event_listeners (w_db w).
Proof. intros H. by rewrite (at_db _ _ _ _ _ H). Qed.

(** Steps that change only the kernel state. *)
Lemma kv_at_k l n l' n' sl w0 w k' :
  kv_at l n sl w0 w →
  lock_depth k' = l' + lock_depth (w_k w0) →
  (∀ s, slab_used k' s = (if decide (s = slab_name sl) then n' else 0) + slab_used (w_k w0) s) →
  heap_used k' = heap_used (w_k w) →
  kv_at l' n' sl w0 (w <| w_k := k' |>).
Proof. intros [] ???. split; try done. simpl. lia. Qed.

Lemma kv_at_f l n sl w0 w f' : kv_at l n sl w0 w → kv_at l n sl w0 (w <| w_f := f' |>).
Proof. intros []. by split. Qed.

Lemma kv_at_idx l n sl w0 w w' : kv_at l n sl w0 w → idx_step w w' → kv_at l n sl w0 w'.
Proof.
  intros [Hdb ????(new & Hlog & Hnew)] [Hdb' ? Hl ? Hs ??]. split; try congruence; try lia.
  - by rewrite Hdb', Hdb.
  - intros s. rewrite Hs. done.
  - exists new. split; [congruence|done].
  - by rewrite Hdb'.
Qed.

Lemma wp_alloc l n sl (Q : Z → W → Prop) w0 w :
  kv_at l n sl w0 w →
  (∀ w', kv_at l (S n) sl w0 w' → same_data w w' → Q 0%Z w') →
  (∀ rc w', rc ≠ 0%Z → kv_at l n sl w0 w' → same_data w w' →
     (∀ blocks, SlabLive K blocks →
        blocks (slab_name sl) ≤ slab_used (w_k w) (slab_name sl)) → Q rc w') →
  wp (on_k (k_mem_slab_alloc sl)) Q w.
Proof.
  intros Hat Hok Hfail. apply wp_on_k. intros rc k' Heq.
  pose proof (k_mem_slab_alloc_law sl (w_k w)) as (Hl & Hh & Hs).
  rewrite Heq in Hl, Hh, Hs. simpl in Hl, Hh, Hs. pose proof Hat as [? ? ? Hsl ? ?].
  destruct (decide (rc = 0%Z)) as [->|Hrc].
  - apply Hok; [|done]. eapply kv_at_k; [done|congruence| |done].
    intros s. rewrite Hs, Hsl. repeat case_decide; naive_solver lia.
  - apply Hfail; [done| |done|].
    { eapply kv_at_k; [done|congruence| |done].
      intros s. rewrite Hs, Hsl. repeat case_decide; naive_solver lia. }
    intros blocks Hlive. apply Nat.nlt_ge. intros Hlt%(Hlive sl). by rewrite Heq in Hlt.
Qed.

(** The two ways an operation gives up before it reaches the store: the I/O
    slab has no free block, or the lock was not granted. *)
Definition gave_up (sl : k_mem_slab) (w : W) (st : zdb_status_t) : Prop :=
  (st = ZDB_ERR_NOMEM ∧ ∀ blocks, SlabLive K blocks →
     blocks (slab_name sl) ≤ slab_used (w_k w) (slab_name sl)) ∨
  (st = ZDB_ERR_BUSY ∧ ¬ LockLive K).

Lemma gave_up_status sl w st : gave_up sl w st → st = ZDB_ERR_NOMEM ∨ st = ZDB_ERR_BUSY.
Proof. intros [[-> _]|[-> _]]; auto. Qed.

Lemma wp_free l n sl (Q : unit → W → Prop) w0 w :
  kv_at l (S n) sl w0 w →
  (∀ w', kv_at l n sl w0 w' → same_data w w' → Q tt w') →
  wp (on_k_ (k_mem_slab_free sl)) Q w.
Proof.
  intros Hat HQ. apply wp_on_k_, HQ; [|done].
  pose proof (k_mem_slab_free_law sl (w_k w)) as (Hl & Hh & Hs). pose proof Hat as [? ? ? Hsl ? ?].
  eapply kv_at_k; [done|congruence| |done].
  intros s. rewrite Hs, Hsl. case_decide; [|done]. simpl. done.
Qed.

Lemma wp_take_lock db l n sl (Q : zdb_status_t → W → Prop) w0 w :
  kv_at l n sl w0 w →
  (∀ w', kv_at (S l) n sl w0 w' → same_data w w' → Q ZDB_OK w') →
  (∀ w', kv_at l n sl w0 w' → same_data w w' → ¬ LockLive K → Q ZDB_ERR_BUSY w') →
  wp (zdb_lock_write db) Q w.
Proof.
  intros Hat Hok Hbusy. pose proof Hat as [? ? ? Hsl ? ?]. apply wp_lock.
  - intros k' Hl Hs Hh. apply Hok; [|done]. eapply kv_at_k; [done| | |done].
    + rewrite Hl. simpl. congruence.
    + intros s. by rewrite Hs.
  - intros k' [Hl Hs Hh] Hno. apply Hbusy; [|done|done].
    eapply kv_at_k; [done|congruence| |done]. intros s. by rewrite Hs.
Qed.

Lemma unlock_db_frame d :
  unlock_db d = d <| ts_ctx := ts_ctx (unlock_db d) |>
                  <| health_event_pending := health_event_pending (unlock_db d) |>.
Proof. unfold unlock_db. destruct CONFIG_ZDB_EVENTING, CONFIG_ZDB_TS, d; done. Qed.

Lemma unlock_events_background d evs :
  unlock_events d evs → Forall background (all_deliveries false evs).
Proof.
  intros Hev. apply Forall_forall. intros x Hx. unfold all_deliveries, deliveries in Hx.
  apply list_elem_of_bind in Hx as (p & Hx & Hp).
  apply list_elem_of_fmap in Hx as (dst & -> & _). split; [done|]. simpl.
  destruct Hev as [eh ef er]. destruct CONFIG_ZDB_EVENTING; [|by apply not_elem_of_nil in Hp].
  rewrite !elem_of_app in Hp. destruct Hp as [Hp|[Hp|Hp]].
  - destruct (health_event_pending d); [|by apply not_elem_of_nil in Hp].
    by apply list_elem_of_singleton in Hp as ->.
  - destruct (_ && _); [|by apply not_elem_of_nil in Hp].
    by apply list_elem_of_singleton in Hp as ->.
  - destruct (_ && _); [|by apply not_elem_of_nil in Hp].
    by apply list_elem_of_singleton in Hp as ->.
Qed.

Lemma wp_release db n sl (Q : unit → W → Prop) w0 w :
  kv_at 1 n sl w0 w →
  (∀ w', kv_at 0 n sl w0 w' → same_data w w' → Q tt w') →
  wp (zdb_unlock_write db) Q w.
Proof.
  intros Hat HQ. apply wp_unlock. intros k1 w' evs Hl Hs Hh Hev [Hdb Hf Hfs Hk Hlog].
  pose proof Hat as [Adb Afs Al Asl Ah (new & Alog & Anew) Ats]. simpl in *.
  destruct Hk as [Kl Ks Kh]. apply HQ; [split|].
  - rewrite Hdb, unlock_db_frame, Adb. done.
  - by rewrite Hfs.
  - rewrite Kl, Hl, Al. done.
  - intros s. by rewrite Ks, Hs.
  - rewrite Kh, Hh, Hdb. rewrite unlock_db_frame. exact Ah.
  - rewrite Hlog, Alog, <- app_assoc. eexists. split; [done|]. intros H0.
    apply Forall_app. split; [by apply Anew|].
    assert (k_mutex_owned k1 = false) as ->.
    { rewrite k_mutex_owned_law, Hl, Al, H0. done. }
    by eapply unlock_events_background.
  - rewrite Hdb. etrans; [exact Ats|apply ctx_sim_unlock].
  - split; [by rewrite Hf|]. rewrite Hdb, unlock_db_frame. done.
Qed.

(** ** The pre-read *)

Definition check_of (d : list byte) (ns key : cstring) : zdb_kv_rec_check :=
  (zdb_kv_record_check d (length d) ns key).1.

Lemma usable_whole (block : nat) (d : list byte) :
  length d ≤ block →
  (if (length d <? block)%Z then Z.to_nat (length d) else block) = length d ∧
  take block d = d.
Proof.
  intros. split; [|by apply take_ge]. destruct (Z.ltb_spec (length d) block); lia.
Qed.

Lemma record_id_not_index ns key : zdb_kv_record_id ns key ≠ ZDB_KV_INDEX_REC_ID.
Proof. apply record_id_range. Qed.

(** ** Setting *)

(** The state a set leaves, by its status. *)
Record set_post (ns key : cstring) (rec : list byte) (st : zdb_status_t) (indexed : bool)
    (w w' : W) : Prop := {
  sp_ctx : kv_ctx_ok (w_db w) → kv_ctx_ok (w_db w');
  sp_other : ∀ i, i ≠ zdb_kv_record_id ns key → i ≠ ZDB_KV_INDEX_REC_ID →
    kvb_store (w_f w') !! i = kvb_store (w_f w) !! i;
  sp_slot :
    match st with
    | ZDB_OK => kvb_store (w_f w') !! zdb_kv_record_id ns key = Some rec
    | ZDB_ERR_COLLISION =>
        same_data w w' ∧
        ∃ d, kvb_store (w_f w) !! zdb_kv_record_id ns key = Some d ∧
             check_of d ns key = ZDB_KV_REC_MISMATCH
    | _ => kvb_store (w_f w') !! zdb_kv_record_id ns key =
           kvb_store (w_f w) !! zdb_kv_record_id ns key
    end;
  sp_claim :
    st ≠ ZDB_ERR_COLLISION → KvReadsOk F → ∀ d,
    kvb_store (w_f w) !! zdb_kv_record_id ns key = Some d →
    check_of d ns key ≠ ZDB_KV_REC_MISMATCH;
  sp_index :
    st = ZDB_OK →
    if indexed then no_index w ∨ (ns, key) ∈ index_pairs (w_db w')
    else ((ns, key) ∉ index_pairs (w_db w')) ∧
         CONFIG_ZDB_KV_INDEX_MAX_ENTRIES ≤ length (ctx_entries (w_db w'));
}.

(** The backend write and what follows it, once the slot may be claimed. *)
Definition kv_set_claim (db : db_ref) (slab : k_mem_slab) (ns key : cstring)
    (value : option (list byte)) (value_len : nat) (slot_matched : bool)
    : M W (zdb_status_t * bool) :=
  let total_len := ZDB_KV_REC_HDR_SIZE + length ns + length key + value_len in
  let id := zdb_kv_record_id ns key in
  indexed ← zdb_kv_ctx_track_set (Some db) (Some ns) (Some key) id;
  wr ← zdb_kv_backend_write (Some db) id (zdb_kv_record_build ns key value value_len);
  let status :=
    if (wr <? 0)%Z then zdb_status_from_errno wr
    else if (wr =? total_len)%Z || ((wr =? 0)%Z && slot_matched) then ZDB_OK
    else ZDB_ERR_IO in
  (if negb (bool_decide (status = ZDB_OK))
   then zdb_kv_ctx_track_delete (Some db) (Some ns) (Some key) else ret tt);;
  zdb_unlock_write db;;
  on_k_ (k_mem_slab_free slab);;
  ret (status, indexed).

Lemma kv_ctx_ok_same w w' : same_data w w' → kv_ctx_ok (w_db w) → kv_ctx_ok (w_db w').
Proof. intros [_ Hc]. unfold kv_ctx_ok, ctx_entries. by rewrite Hc. Qed.

Lemma index_pairs_same w w' : same_data w w' → index_pairs (w_db w') = index_pairs (w_db w).
Proof. intros [_ Hc]. unfold index_pairs, ctx_entries. by rewrite Hc. Qed.

Lemma set_post_same ns key rec st ix w w1 w' :
  same_data w1 w' → set_post ns key rec st ix w w1 → set_post ns key rec st ix w w'.
Proof.
  intros Hsd [Hc Ho Hs Hcl Hi]. pose proof Hsd as [Hst Hctx]. split.
  - intros H. by eapply kv_ctx_ok_same, Hc.
  - intros i ??. rewrite Hst. auto.
  - rewrite Hst. destruct st; try done. destruct Hs as [Hs ?]. split; [|done]. by etrans.
  - done.
  - intros HOK. specialize (Hi HOK). rewrite (index_pairs_same _ _ Hsd).
    unfold ctx_entries in *. by rewrite Hctx.
Qed.

Lemma set_post_pre ns key rec st ix w w1 w' :
  same_data w w1 → set_post ns key rec st ix w1 w' → set_post ns key rec st ix w w'.
Proof.
  intros Hsd [Pc Po Ps Pcl Pi]. pose proof Hsd as [Hs Hc]. split.
  - intros H. by eapply Pc, kv_ctx_ok_same.
  - intros. by rewrite Po, Hs.
  - rewrite Hs in Ps. destruct st; try done. destruct Ps as [Pd ?]. split; [|done].
    by etrans.
  - by rewrite <- Hs.
  - unfold no_index in *. by rewrite <- Hc.
Qed.

(** The unlock and the release of the I/O block that end every path. *)
Lemma wp_unlock_free db sl (Q : unit → W → Prop) w0 w :
  kv_at 1 1 sl w0 w →
  (∀ w', kv_at 0 0 sl w0 w' → same_data w w' → Q tt w') →
  wp (zdb_unlock_write db;; on_k_ (k_mem_slab_free sl)) Q w.
Proof.
  intros Hat HQ. apply wp_bind. eapply wp_release; [exact Hat|]. intros w1 Hat1 Hd1.
  eapply wp_free; [exact Hat1|]. intros w2 Hat2 Hd2. apply HQ; [done|by etrans].
Qed.

Lemma wp_reassoc {A} (m1 m2 : M W unit) (m3 : M W A) Q w :
  wp ((m1;; m2);; m3) Q w → wp (m1;; m2;; m3) Q w.
Proof. done. Qed.

(** Dropping the index entry after a failed write, then the exit. *)
Definition kv_set_finish (db : db_ref) (sl : k_mem_slab) (ns key : cstring)
    (status : zdb_status_t) (indexed : bool) : M W (zdb_status_t * bool) :=
  (if negb (bool_decide (status = ZDB_OK))
   then zdb_kv_ctx_track_delete (Some db) (Some ns) (Some key) else ret tt);;
  zdb_unlock_write db;;
  on_k_ (k_mem_slab_free sl);;
  ret (status, indexed).

Lemma wp_kv_set_finish db sl ns key rec st ix (Q : zdb_status_t * bool → W → Prop) w0 w w1 :
  kv_at 1 1 sl w0 w1 →
  (kv_ctx_ok (w_db w) → kv_ctx_ok (w_db w1)) →
  (∀ i, i ≠ zdb_kv_record_id ns key → i ≠ ZDB_KV_INDEX_REC_ID →
    kvb_store (w_f w1) !! i = kvb_store (w_f w) !! i) →
  (st = ZDB_OK → set_post ns key rec st ix w w1) →
  (KvReadsOk F → ∀ d, kvb_store (w_f w) !! zdb_kv_record_id ns key = Some d →
     check_of d ns key ≠ ZDB_KV_REC_MISMATCH) →
  (st ≠ ZDB_OK → st ≠ ZDB_ERR_COLLISION ∧
    kvb_store (w_f w1) !! zdb_kv_record_id ns key =
    kvb_store (w_f w) !! zdb_kv_record_id ns key) →
  (∀ w', kv_at 0 0 sl w0 w' → set_post ns key rec st ix w w' → Q (st, ix) w') →
  wp (kv_set_finish db sl ns key st ix) Q w1.
Proof.
  intros Hat Hok Hother Hsucc Hclaim Hfail HQ. apply wp_bind. case_bool_decide as Hst; simpl.
  - apply wp_ret, wp_reassoc, wp_bind. eapply wp_unlock_free; [exact Hat|].
    intros w2 Hat2 Hd2. apply wp_ret, HQ; [done|]. eapply set_post_same; [exact Hd2|auto].
  - destruct (Hfail Hst) as [Hcol Hslot].
    apply wp_track_delete. intros w2 Hst2 He2 _.
    apply wp_reassoc, wp_bind. eapply wp_unlock_free; [by eapply kv_at_idx|].
    intros w3 Hat3 Hd3. apply wp_ret, HQ; [done|]. eapply set_post_same; [exact Hd3|]. split.
    + intros H. by eapply kv_ctx_ok_delete, Hok.
    + intros i Hi Hi'. by rewrite (ix_store _ _ Hst2), Hother.
    + destruct st; try done; by rewrite (ix_store _ _ Hst2) by apply record_id_not_index.
    + done.
    + done.
Qed.

Lemma wp_kv_set_claim db sl ns key value vlen matched (Q : zdb_status_t * bool → W → Prop) w0 w :
  length ns ≤ CONFIG_ZDB_MAX_KEY_LEN → length key ≤ CONFIG_ZDB_MAX_KEY_LEN →
  vlen ≤ length (default [] value) →
  kv_at 1 1 sl w0 w →
  (KvReadsOk F → ∀ d, kvb_store (w_f w) !! zdb_kv_record_id ns key = Some d →
     check_of d ns key ≠ ZDB_KV_REC_MISMATCH) →
  (∀ st ix w', kv_at 0 0 sl w0 w' →
     set_post ns key (zdb_kv_record_build ns key value vlen) st ix w w' → Q (st, ix) w') →
  wp (kv_set_claim db sl ns key value vlen matched) Q w.
Proof.
  intros Hns Hkey Hv Hat Hclaim HQ. set (rec := zdb_kv_record_build ns key value vlen) in *.
  set (total := ZDB_KV_REC_HDR_SIZE + length ns + length key + vlen).
  assert (length rec = total) as Hlen by by apply length_record_build.
  apply wp_bind, wp_track_set; [done..|]. intros ix w1 Hst1 Hok1 Hix1 Hfull1.
  pose proof (kv_at_idx _ _ _ _ _ _ Hat Hst1) as Hat1.
  pose proof (λ i, ix_store _ _ Hst1 i) as Hs1.
  assert (if ix then no_index w ∨ (ns, key) ∈ index_pairs (w_db w1)
          else ((ns, key) ∉ index_pairs (w_db w1)) ∧
               CONFIG_ZDB_KV_INDEX_MAX_ENTRIES ≤ length (ctx_entries (w_db w1))) as Hidx
    by (destruct ix; auto).
  apply wp_bind, wp_backend_write; [done| | |]; fold rec total; rewrite ?backend_id_record.
  - intros f' Hf'. rewrite Hlen, (proj2 (Z.ltb_ge _ _)), Z.eqb_refl by lia.
    eapply wp_kv_set_finish; [by apply kv_at_f|done| | |done|done|apply HQ].
    + intros i Hi Hi'. simpl. rewrite Hf', lookup_insert_ne by done. by apply Hs1.
    + intros _. split; simpl; [done| |by rewrite Hf', lookup_insert_eq|done|done].
      intros i Hi Hi'. rewrite Hf', lookup_insert_ne by done. by apply Hs1.
  - intros f' Hsame Hf'.
    eapply wp_kv_set_finish; [by apply kv_at_f|done| | |done| |apply HQ].
    + intros i Hi Hi'. simpl. rewrite Hf'. by apply Hs1.
    + intros ->. split; simpl; [done| |by rewrite Hf'|done|done].
      intros i Hi Hi'. rewrite Hf'. by apply Hs1.
    + intros _. split; [cbn [Z.ltb Z.compare]; by destruct (_ || _)|].
      simpl. rewrite Hf'. apply Hs1, record_id_not_index.
  - intros z f' Hz Hf'. rewrite (proj2 (Z.ltb_lt _ _)) by done.
    eapply wp_kv_set_finish; [by apply kv_at_f|done| | |done| |apply HQ].
    + intros i Hi Hi'. simpl. rewrite Hf'. by apply Hs1.
    + intros H%status_from_errno_ok. lia.
    + intros _. split; [apply status_from_errno_range|].
      simpl. rewrite Hf'. apply Hs1, record_id_not_index.
Qed.

Lemma check_read (block : nat) d ns key :
  length d ≤ block →
  zdb_kv_record_check (take block d)
    (if (length d <? block)%Z then Z.to_nat (length d) else block) ns key =
  zdb_kv_record_check d (length d) ns key.
Proof. intros H. by destruct (usable_whole block d H) as [-> ->]. Qed.

Lemma wp_kv_set_locked db sl ns key value vlen (Q : zdb_status_t * bool → W → Prop) w0 w :
  length ns ≤ CONFIG_ZDB_MAX_KEY_LEN → length key ≤ CONFIG_ZDB_MAX_KEY_LEN →
  vlen ≤ length (default [] value) →
  kv_at 1 1 sl w0 w → kv_mounted (w_db w) → kv_fits (slab_block_size sl) (w_f w) →
  (∀ st ix w', kv_at 0 0 sl w0 w' →
     set_post ns key (zdb_kv_record_build ns key value vlen) st ix w w' → Q (st, ix) w') →
  wp (kv_set_locked db sl ns key value vlen) Q w.
Proof.
  intros Hns Hkey Hv Hat Hm Hfits HQ.
  assert (∀ (m : bool) f', kvb_store f' = kvb_store (w_f w) →
    (KvReadsOk F → ∀ d, kvb_store (w_f w) !! zdb_kv_record_id ns key = Some d →
      check_of d ns key ≠ ZDB_KV_REC_MISMATCH) →
    wp (kv_set_claim db sl ns key value vlen m) Q (w <| w_f := f' |>)) as Hcl.
  { intros m f' Hf' Hno.
    eapply wp_kv_set_claim; [done..|by apply kv_at_f|simpl; rewrite Hf'; exact Hno|].
    intros st ix w' Hat' Hp. apply HQ; [done|]. eapply set_post_pre; [|exact Hp]. by split. }
  apply wp_bind, wp_backend_read; rewrite ?backend_id_record.
  - intros d f' Hd Hf'. cbn [fst snd]. rewrite (proj2 (Z.leb_le 0 _)) by lia.
    rewrite check_read by (eapply Hfits; [exact Hd|apply record_id_not_index]).
    change (zdb_kv_record_check d (length d) ns key).1 with (check_of d ns key).
    destruct (check_of d ns key) eqn:Hck.
    + apply Hcl; [done|]. intros _ d' Hd'. congruence.
    + apply wp_reassoc, wp_bind. eapply wp_unlock_free; [by apply kv_at_f|].
      intros w2 Hat2 [Hs2 Hc2]. simpl in Hs2, Hc2. rewrite Hf' in Hs2.
      apply wp_ret, HQ; [done|]. assert (same_data w w2) as Hsd by done. split.
      * by apply kv_ctx_ok_same.
      * intros i _ _. by rewrite Hs2.
      * split; [done|eauto].
      * done.
      * done.
    + apply Hcl; [done|]. intros _ d' Hd'. congruence.
  - intros b f' Habs Hf'. cbn [fst snd]. apply Hcl; [done|]. intros _ d Hd. congruence.
  - intros z b f' Hz _ Hf' Hno. cbn [fst snd].
    rewrite (proj2 (Z.leb_gt 0 _)) by lia.
    apply Hcl; [done|]. intros Hr. by destruct (Hno Hm).
Qed.

(** The state after an operation: all it took is given back, and what it
    published beyond the background is [evs]. *)
Definition published (evs : list zdb_kv_event_t) (sl : k_mem_slab) (w w' : W) : Prop :=
  ∃ w1, kv_at 0 0 sl w w1 ∧ same_data w1 w' ∧
    emitted (if CONFIG_ZDB_EVENTING
             then all_deliveries (k_mutex_owned (w_k w1))
                    (map (λ e, (event_listeners (w_db w), EvKv e)) evs)
             else []) w1 w'.

Definition kv_event (ty : zdb_event_type_t) (ns key : cstring) (len : nat) (st : zdb_status_t)
    (e : zdb_kv_event_t) : Prop :=
  ke_type e = ty ∧ ke_namespace_name e = ns ∧ ke_key e = key ∧ ke_value_len e = len ∧
  ke_status e = st.

Lemma event_copy_name_fits (n : nat) s : length s ≤ n → zdb_event_copy_name (n + 1) (Some s) = s.
Proof. intros. unfold zdb_event_copy_name, strncpy_trunc. apply take_ge. lia. Qed.

Lemma emitted_same_data n w w' : emitted n w w' → same_data w w'.
Proof. intros [Hdb Hf _ _ _]. split; congruence. Qed.

Lemma published_nil sl w w' : kv_at 0 0 sl w w' → published [] sl w w'.
Proof.
  intros Hat. exists w'. split_and!; [done..|].
  unfold all_deliveries. simpl. destruct CONFIG_ZDB_EVENTING; apply emitted_refl.
Qed.

Lemma published_same_data evs sl w w1 w' :
  published evs sl w w1 → same_data w1 w' → w' = w1 → published evs sl w w'.
Proof. by intros ?? ->. Qed.

(** One more event at the end. *)
Lemma wp_publish db ty ns key len st evs sl (Q : unit → W → Prop) w0 w :
  length ns ≤ CONFIG_ZDB_MAX_KEY_LEN → length key ≤ CONFIG_ZDB_MAX_KEY_LEN →
  CONFIG_ZDB_EVENTING = true → published evs sl w0 w →
  (∀ w' e, kv_event ty ns key len st e → published (evs ++ [e]) sl w0 w' → same_data w w' →
     Q tt w') →
  wp (zdb_emit_kv_event (Some db) ty (Some ns) (Some key) len st) Q w.
Proof.
  intros Hns Hkey HE (w1 & Hat & Hsd & Hem) HQ. apply wp_emit_kv.
  intros e w' Ht Hn Hk Hl Hs Hem2. rewrite !event_copy_name_fits in * by done.
  apply (HQ w' e); [done| |by eapply emitted_same_data].
  exists w1. split; [done|]. split.
  { etrans; [exact Hsd|by eapply emitted_same_data]. }
  rewrite HE in *. rewrite map_app, all_deliveries_app.
  eapply emitted_trans; [exact Hem|].
  rewrite (emitted_owned _ _ _ Hem), (em_db _ _ _ Hem) in Hem2.
  rewrite (kv_at_listeners _ _ _ _ _ Hat) in Hem2.
  unfold all_deliveries at 1. simpl. by rewrite app_nil_r.
Qed.

(** A [zdb_kv_t] a successful open returns. *)
Definition kv_handle (ns : cstring) : option zdb_kv_t :=
  Some {| kv_db := Some the_db; kv_namespace_name := Some ns |}.

(** The events of a set: one [KV_SET] with its status, and the index-full
    notice after a set that stored a key it could not index. *)
Definition set_events (ns key : cstring) (len : nat) (st : zdb_status_t) (indexed : bool)
    (evs : list zdb_kv_event_t) : Prop :=
  ∃ e rest, evs = e :: rest ∧ kv_event ZDB_EVENT_KV_SET ns key len st e ∧
    if negb indexed && bool_decide (st = ZDB_OK)
    then ∃ e', rest = [e'] ∧ kv_event ZDB_EVENT_KV_INDEX_FULL ns key len ZDB_OK e'
    else rest = [].

Lemma set_events_indexed ns key len st ix ix' evs :
  (st = ZDB_OK → ix = ix') → set_events ns key len st ix evs → set_events ns key len st ix' evs.
Proof.
  intros Hix (e & rest & -> & He & Hrest). exists e, rest. split_and!; [done..|].
  destruct (bool_decide_reflect (st = ZDB_OK)); [by rewrite <- Hix|]. by rewrite !andb_false_r in *.
Qed.

(** Whether the key was indexed shows in the index, unless there is none. *)
Lemma set_post_indexed ns key rec ix w w' :
  is_Some (kv_ctx (w_db w)) ∨ HeapLive K → set_post ns key rec ZDB_OK ix w w' →
  ix = bool_decide ((ns, key) ∈ index_pairs (w_db w')).
Proof.
  intros Hmem [_ _ _ _ Hi]. specialize (Hi eq_refl). symmetry. destruct ix.
  - destruct Hi as [[Hn Hd]|?]; [|by apply bool_decide_eq_true_2]. rewrite Hn in Hmem.
    by destruct Hmem as [[]|].
  - apply bool_decide_eq_false_2, Hi.
Qed.

(** [zdb_kv_set] on valid arguments that fit the I/O block. *)
Lemma wp_kv_set sl ns key value vlen (Q : zdb_status_t → W → Prop) w :
  length ns ≤ CONFIG_ZDB_MAX_KEY_LEN → zdb_key_valid (Some key) = true →
  vlen ≤ length (default [] value) →
  kv_mounted (w_db w) → kv_io_slab (w_db w) = Some sl →
  kv_fits (slab_block_size sl) (w_f w) →
  ZDB_KV_REC_HDR_SIZE + length ns + length key + vlen ≤ slab_block_size sl →
  (∀ st w', published [] sl w w' → same_data w w' →
     gave_up sl w st → Q st w') →
  (∀ st ix evs w',
     (CONFIG_ZDB_EVENTING = true → set_events ns key vlen st ix evs) →
     published evs sl w w' →
     set_post ns key (zdb_kv_record_build ns key value vlen) st ix w w' → Q st w') →
  wp (zdb_kv_set (kv_handle ns) (Some key) value vlen) Q w.
Proof.
  intros Hns Hkv Hv Hm Hsl Hfits Hfit Hearly HQ.
  pose proof Hkv as (? & [= <-] & _ & Hkey)%zdb_key_valid_spec.
  unfold zdb_kv_set, kv_handle. rewrite Hkv. simpl negb.
  replace (match value with None => 0 <? vlen | Some _ => false end) with false; cycle 1.
  { destruct value; [done|]. simpl in Hv. by destruct vlen; [|lia]. }
  simpl orb. cbn iota.
  apply wp_bind, wp_fs_from_db. intros [] Hb; [|by apply Hb in Hm].
  simpl. apply wp_bind, wp_db_get. rewrite Hsl.
  rewrite (proj2 (Nat.ltb_ge _ _)) by done.
  apply wp_bind. eapply (wp_alloc 0 0); [apply kv_at_refl| |].
  2:{ intros rc w1 Hrc Hat1 Hd1 Hfull. rewrite (proj2 (Z.eqb_neq _ _)) by done. simpl.
      apply wp_ret, Hearly; [by apply published_nil|done|by left]. }
  intros w1 Hat1 Hd1. simpl.
  apply wp_bind. eapply wp_take_lock; [exact Hat1| |].
  2:{ intros w2 Hat2 Hd2 Hbusy. simpl. apply wp_bind. eapply wp_free; [exact Hat2|].
      intros w3 Hat3 Hd3. apply wp_ret, Hearly; [by apply published_nil| |by right].
      do 2 (etrans; [eassumption|]). done. }
  intros w2 Hat2 Hd2. simpl.
  assert (same_data w w2) as Hd02 by (by etrans).
  apply wp_bind. eapply wp_kv_set_locked; [done..|exact Hat2|by eapply kv_at_mounted| |].
  { intros id d. destruct Hd02 as [-> _]. apply Hfits. }
  intros st ix w3 Hat3 Hpost. cbn [fst snd].
  assert (set_post ns key (zdb_kv_record_build ns key value vlen) st ix w w3) as Hpost'.
  { by eapply set_post_pre. }
  destruct CONFIG_ZDB_EVENTING eqn:HE; cycle 1.
  { apply wp_bind, wp_ret, wp_ret. eapply (HQ st ix []); [done|by apply published_nil|done]. }
  apply wp_bind, wp_bind.
  apply (wp_publish _ _ _ _ _ _ [] sl _ w); [exact Hns|exact Hkey|exact HE|
    by apply published_nil|].
  intros w4 e He Hp4 Hd4. simpl in Hp4.
  destruct (negb ix && bool_decide (st = ZDB_OK)) eqn:Hfull.
  - apply (wp_publish _ _ _ _ _ _ [e] sl _ w); [exact Hns|exact Hkey|exact HE|exact Hp4|].
    intros w5 e' He' Hp5 Hd5.
    apply wp_ret. eapply (HQ st ix [e; e']); [|exact Hp5|].
    + intros _. exists e, [e']. rewrite Hfull. eauto.
    + eapply set_post_same; [|exact Hpost']. by etrans.
  - apply wp_ret, wp_ret. eapply (HQ st ix [e]); [|exact Hp4|].
    + intros _. exists e, []. by rewrite Hfull.
    + by eapply set_post_same.
Qed.

(** ** From slots to lookups *)

Lemma rec_value_check ns key d :
  (∃ v, rec_value ns key d = Some v) ↔ check_of d ns key = ZDB_KV_REC_MATCH.
Proof.
  unfold rec_value, check_of. split.
  - intros [v Hv]. by destruct (zdb_kv_record_check _ _ _ _) as [[] [?|]].
  - intros Hc. destruct (zdb_kv_record_check _ _ _ _) as [r off] eqn:Heq. simpl in Hc. subst r.
    apply record_check_match in Heq as (-> & _). eauto.
Qed.

(** Whether a record is foreign does not depend on the pair asked for. *)
Lemma check_foreign d ns key ns' key' :
  check_of d ns key = ZDB_KV_REC_FOREIGN → check_of d ns' key' = ZDB_KV_REC_FOREIGN.
Proof.
  unfold check_of, zdb_kv_record_check.
  destruct ((length d <? ZDB_KV_REC_HDR_SIZE) || _); [done|]. cbv zeta.
  match goal with |- context [if ?b then (ZDB_KV_REC_FOREIGN, None) else _] => destruct b end;
    [done|].
  match goal with |- context [if ?b then _ else _] => destruct b end; done.
Qed.

Lemma rec_value_other ns key ns' key' d :
  check_of d ns key ≠ ZDB_KV_REC_MISMATCH → (ns', key') ≠ (ns, key) → rec_value ns' key' d = None.
Proof.
  intros Hck Hne. destruct (rec_value ns' key' d) as [v|] eqn:Hv; [|done]. exfalso.
  destruct (check_of d ns key) eqn:Hc; [|done|].
  - apply rec_value_check in Hc as [v' Hv'].
    by destruct (rec_value_inj _ _ _ _ _ _ _ Hv Hv') as (-> & -> & _).
  - apply (check_foreign d ns key ns' key') in Hc.
    pose proof (proj1 (rec_value_check ns' key' d) (ex_intro _ v Hv)). congruence.
Qed.

Lemma take_memcpy vlen (value : option (list byte)) :
  (if 0 <? vlen then take vlen (default [] value) else []) = take vlen (default [] value).
Proof. by destruct vlen. Qed.

Lemma rec_value_build ns key value vlen :
  length ns ≤ CONFIG_ZDB_MAX_KEY_LEN → length key ≤ CONFIG_ZDB_MAX_KEY_LEN →
  rec_value ns key (zdb_kv_record_build ns key value vlen) = Some (take vlen (default [] value)).
Proof.
  intros. pose proof max_key_len_range. apply rec_value_Some. split_and!; [lia|lia|].
  unfold zdb_kv_record_build. by rewrite take_memcpy.
Qed.

(** Updating the abstract store at one pair. *)
Definition kv_update (l : cstring → cstring → option (list byte)) (ns key : cstring)
    (v : option (list byte)) : cstring → cstring → option (list byte) :=
  λ ns' key', if bool_decide ((ns', key') = (ns, key)) then v else l ns' key'.

Lemma set_post_ok_lookup ns key value vlen ix w w' ns' key' :
  KvReadsOk F →
  length ns ≤ CONFIG_ZDB_MAX_KEY_LEN → length key ≤ CONFIG_ZDB_MAX_KEY_LEN →
  set_post ns key (zdb_kv_record_build ns key value vlen) ZDB_OK ix w w' →
  kv_lookup (w_f w') ns' key' =
  kv_update (kv_lookup (w_f w)) ns key (Some (take vlen (default [] value))) ns' key'.
Proof.
  intros Hr Hns Hkey [_ Hother Hslot Hclaim _]. specialize (Hclaim ltac:(done) Hr).
  unfold kv_update, kv_lookup. case_bool_decide as Heq.
  - injection Heq as -> ->. rewrite Hslot. simpl. by apply rec_value_build.
  - destruct (decide (zdb_kv_record_id ns' key' = zdb_kv_record_id ns key)) as [Hid|Hid].
    + rewrite Hid, Hslot. simpl. etrans.
      * eapply rec_value_other; [|exact Heq]. intros Hc.
        pose proof (proj1 (rec_value_check ns key _)
          (ex_intro _ _ (rec_value_build ns key value vlen Hns Hkey))). congruence.
      * symmetry. destruct (kvb_store (w_f w) !! zdb_kv_record_id ns key) as [d|] eqn:Hd; [|done].
        simpl. eapply rec_value_other; [by apply Hclaim|done].
    + by rewrite Hother by (done || apply record_id_not_index).
Qed.

Lemma set_post_fail_lookup ns key rec st ix w w' ns' key' :
  st ≠ ZDB_OK → set_post ns key rec st ix w w' →
  kv_lookup (w_f w') ns' key' = kv_lookup (w_f w) ns' key'.
Proof.
  intros Hst [_ Hother Hslot _ _]. unfold kv_lookup.
  destruct (decide (zdb_kv_record_id ns' key' = zdb_kv_record_id ns key)) as [->|Hid].
  - destruct st; try done; try by rewrite Hslot. by destruct Hslot as [[-> _] _].
  - by rewrite Hother by (done || apply record_id_not_index).
Qed.

Lemma set_post_fits block ns key value vlen st ix w w' :
  vlen ≤ length (default [] value) →
  ZDB_KV_REC_HDR_SIZE + length ns + length key + vlen ≤ block →
  set_post ns key (zdb_kv_record_build ns key value vlen) st ix w w' →
  kv_fits block (w_f w) → kv_fits block (w_f w').
Proof.
  intros Hv Hfit [_ Hother Hslot _ _] Hfits id d Hd Hid.
  destruct (decide (id = zdb_kv_record_id ns key)) as [->|Hne].
  - destruct st; try (by rewrite Hslot in Hd; eapply Hfits).
    + rewrite Hslot in Hd. injection Hd as <-. by rewrite length_record_build.
    + destruct Hslot as [[Hs _] _]. rewrite Hs in Hd. by eapply Hfits.
  - rewrite Hother in Hd by done. by eapply Hfits.
Qed.

(** ** Getting *)

(** What a get answers for the value [v] of the pair. *)
Definition get_answer (v : option (list byte)) (out_value : option (list byte))
    (out_capacity : nat) : zdb_status_t * kv_out :=
  match v with
  | None => (ZDB_ERR_NOT_FOUND, {| o_len := Some 0; o_value := out_value |})
  | Some v =>
      (ZDB_OK, {| o_len := Some (length v);
                  o_value := (λ buf, buf_write buf 0 (take out_capacity v)) <$> out_value |})
  end.

Lemma buf_write_nil buf : buf_write buf 0 [] = buf.
Proof. done. Qed.

Lemma kv_get_result_found block ns key d out_value cap :
  length d ≤ block →
  kv_get_result block (length d) (take block d) ns key out_value cap =
  get_answer (rec_value ns key d) out_value cap.
Proof.
  intros Hd. unfold kv_get_result. rewrite (proj2 (Z.ltb_ge _ 0)) by lia.
  rewrite check_read by done. destruct (usable_whole block d Hd) as [-> ->].
  unfold rec_value.
  destruct (zdb_kv_record_check d (length d) ns key) as [[] [off|]] eqn:Hc; try done.
  apply record_check_match in Hc as ([= ->] & _ & _ & Hrec).
  unfold get_answer. rewrite Nat2Z.id, length_drop. do 2 f_equal.
  destruct out_value as [buf|]; [|done]. cbn [fmap option_fmap option_map].
  set (off := S (S (S (length ns + length key)))) in |- *.
  rewrite <- (length_drop d off). set (v := drop off d).
  destruct (Nat.ltb_spec 0 cap); cycle 1.
  { replace cap with 0 by lia. by rewrite buf_write_nil. }
  do 2 f_equal. destruct (Nat.ltb_spec (length v) cap).
  - rewrite Nat.ltb_irrefl. by rewrite !take_ge by lia.
  - destruct (Nat.ltb_spec (length v) cap); [lia|done].
Qed.

(** The parts of a call every operation on a handle starts from. *)
Record kv_ready (sl : k_mem_slab) (ns : cstring) (w : W) : Prop := {
  kr_ns : length ns ≤ CONFIG_ZDB_MAX_KEY_LEN;
  kr_mounted : kv_mounted (w_db w);
  kr_slab : kv_io_slab (w_db w) = Some sl;
  kr_fits : kv_fits (slab_block_size sl) (w_f w);
}.

(** [zdb_kv_get] answers from the abstract store; it changes nothing. *)
Lemma wp_kv_get sl ns key out_value cap (Q : zdb_status_t * kv_out → W → Prop) w :
  kv_ready sl ns w → zdb_key_valid (Some key) = true →
  (out_value = None → cap = 0) →
  (∀ st w', published [] sl w w' → same_data w w' → gave_up sl w st →
     Q (st, {| o_len := None; o_value := out_value |}) w') →
  (∀ w', published [] sl w w' → same_data w w' →
     Q (get_answer (kv_lookup (w_f w) ns key) out_value cap) w') →
  (∀ st w', published [] sl w w' → same_data w w' → st ≠ ZDB_OK → st ≠ ZDB_ERR_NOT_FOUND →
     ¬ KvReadsOk F → Q (st, {| o_len := Some 0; o_value := out_value |}) w') →
  wp (zdb_kv_get (kv_handle ns) (Some key) out_value cap true) Q w.
Proof.
  intros [Hns Hm Hsl Hfits] Hkv Hnull Hearly HQ Herr.
  unfold zdb_kv_get, kv_handle. rewrite Hkv. simpl negb.
  replace (match out_value with None => 0 <? cap | Some _ => false end) with false
    by (destruct out_value; [done|by rewrite Hnull]).
  simpl orb. cbn iota.
  apply wp_bind, wp_fs_from_db. intros [] Hb; [|by apply Hb in Hm].
  simpl. apply wp_bind, wp_db_get. rewrite Hsl.
  apply wp_bind. eapply (wp_alloc 0 0); [apply kv_at_refl| |].
  2:{ intros rc w1 Hrc Hat1 Hd1 Hfull. rewrite (proj2 (Z.eqb_neq _ _)) by done. simpl.
      apply wp_ret, Hearly; [by apply published_nil|done|by left]. }
  intros w1 Hat1 Hd1. simpl.
  apply wp_bind. eapply wp_take_lock; [exact Hat1| |].
  2:{ intros w2 Hat2 Hd2 Hbusy. simpl. apply wp_bind. eapply wp_free; [exact Hat2|].
      intros w3 Hat3 Hd3. apply wp_ret, Hearly; [by apply published_nil| |by right].
      do 2 (etrans; [eassumption|]). done. }
  intros w2 Hat2 Hd2. simpl. assert (same_data w w2) as Hd02 by (by etrans).
  apply wp_bind, wp_backend_read; rewrite ?backend_id_record.
  - intros d f' Hd Hf'. apply wp_reassoc, wp_bind.
    eapply wp_unlock_free; [by apply kv_at_f|]. intros w3 Hat3 Hd3. apply wp_ret. cbn [fst snd].
    pose proof Hd02 as [Hs Hc]. rewrite Hs in Hd.
    rewrite kv_get_result_found by (eapply Hfits; [exact Hd|apply record_id_not_index]).
    specialize (HQ w3). unfold kv_lookup in HQ. rewrite Hd in HQ. apply HQ.
    + by apply published_nil.
    + etrans; [exact Hd02|]. etrans; [|exact Hd3]. by split.
  - intros b f' Habs Hf'. apply wp_reassoc, wp_bind.
    eapply wp_unlock_free; [by apply kv_at_f|]. intros w3 Hat3 Hd3. apply wp_ret. cbn [fst snd].
    pose proof Hd02 as [Hs Hc]. rewrite Hs in Habs.
    specialize (HQ w3). unfold kv_lookup in HQ. rewrite Habs in HQ. apply HQ.
    + by apply published_nil.
    + etrans; [exact Hd02|]. etrans; [|exact Hd3]. by split.
  - intros z b f' Hz Hne Hf' Hno. apply wp_reassoc, wp_bind.
    eapply wp_unlock_free; [by apply kv_at_f|]. intros w3 Hat3 Hd3. apply wp_ret. cbn [fst snd].
    unfold kv_get_result. rewrite (proj2 (Z.ltb_lt z 0)) by done. apply Herr.
    + by apply published_nil.
    + etrans; [exact Hd02|]. etrans; [|exact Hd3]. by split.
    + by apply status_from_errno_neg.
    + rewrite status_from_errno_not_found. unfold ENOENT in *. lia.
    + apply Hno. by eapply kv_at_mounted.
Qed.
End spec.
