(* ===== verification/KvLaws.v ===== *)
(** * Correctness of deletion, iteration, defaults, resets and strings *)

From S2P Require Import Prelude Config Env Types Events KvFormat KvIndex KvIndexSpec Kv KvSpec.

Section laws.
Context {Cfg : Config} {CfgOk : ConfigOk Cfg} {K F FS : Type}.
Context `{!Kernel K, !KernelLaws K, !KvBackend F, !KvBackendLaws F}.
Abbreviation W := (world K F FS).
Implicit Types w : W.

(** ** Deleting *)

Record delete_post (ns key : cstring) (st : zdb_status_t) (w w' : W) : Prop := {
  dp_ctx : kv_ctx_ok (w_db w) → kv_ctx_ok (w_db w');
  dp_other : ∀ i, i ≠ zdb_kv_record_id ns key → i ≠ ZDB_KV_INDEX_REC_ID →
    kvb_store (w_f w') !! i = kvb_store (w_f w) !! i;
  dp_slot :
    match st with
    | ZDB_OK =>
        kvb_store (w_f w') !! zdb_kv_record_id ns key = None ∧
        ctx_entries (w_db w') = delete_pair (ctx_entries (w_db w)) ns key ∧
        ∃ d, kvb_store (w_f w) !! zdb_kv_record_id ns key = Some d ∧
             check_of d ns key = ZDB_KV_REC_MATCH
    | _ => same_data w w'
    end;
  dp_missing : st = ZDB_ERR_NOT_FOUND → kv_lookup (w_f w) ns key = None;
}.

Lemma delete_post_same ns key st w w1 w' :
  same_data w1 w' → delete_post ns key st w w1 → delete_post ns key st w w'.
Proof.
  intros Hsd [Hc Ho Hs Hm]. pose proof Hsd as [Hst Hctx]. split.
  - intros H. by eapply kv_ctx_ok_same, Hc.
  - intros i ??. rewrite Hst. auto.
  - destruct st; try (by etrans). destruct Hs as (Hs1 & Hs2 & Hs3).
    split_and!; [by rewrite Hst| |done]. unfold ctx_entries in *. by rewrite Hctx.
  - done.
Qed.

Lemma delete_post_pre ns key st w w1 w' :
  same_data w w1 → delete_post ns key st w1 w' → delete_post ns key st w w'.
Proof.
  intros Hsd [Pc Po Ps Pm]. pose proof Hsd as [Hs Hc]. split.
  - intros H. by eapply Pc, kv_ctx_ok_same.
  - intros. by rewrite Po, Hs.
  - rewrite Hs in Ps. destruct st; try (by etrans). unfold ctx_entries in *. by rewrite <- Hc.
  - unfold kv_lookup in *. by rewrite <- Hs.
Qed.

Lemma delete_post_none ns key st w w' :
  st ≠ ZDB_OK → (st = ZDB_ERR_NOT_FOUND → kv_lookup (w_f w) ns key = None) →
  same_data w w' → delete_post ns key st w w'.
Proof.
  intros Hst Hnf Hsd. split; [by apply kv_ctx_ok_same| | |done].
  - intros i _ _. by destruct Hsd as [-> _].
  - by destruct st.
Qed.

Lemma wp_kv_delete_locked db sl ns key (Q : zdb_status_t → W → Prop) w0 w :
  kv_at 1 1 sl w0 w → kv_mounted (w_db w) → kv_fits (slab_block_size sl) (w_f w) →
  (∀ st w', kv_at 1 1 sl w0 w' → delete_post ns key st w w' → Q st w') →
  wp (kv_delete_locked db sl ns key) Q w.
Proof.
  intros Hat Hm Hfits HQ. apply wp_bind, wp_backend_read; rewrite ?backend_id_record.
  - intros d f' Hd Hf'. cbn [fst snd]. rewrite (proj2 (Z.ltb_ge _ 0)) by lia.
    rewrite check_read by (eapply Hfits; [exact Hd|apply record_id_not_index]).
    change (zdb_kv_record_check d (length d) ns key).1 with (check_of d ns key).
    assert (check_of d ns key ≠ ZDB_KV_REC_MATCH →
      Q ZDB_ERR_NOT_FOUND (w <| w_f := f' |>)) as Hnf.
    { intros Hne. apply HQ; [by apply kv_at_f|].
      apply delete_post_none; [done| |by split]. intros _. unfold kv_lookup. rewrite Hd. simpl.
      destruct (rec_value ns key d) eqn:Hv; [|done].
      destruct Hne. apply rec_value_check. eauto. }
    destruct (check_of d ns key) eqn:Hck; [|by apply wp_ret, Hnf..].
    apply wp_bind, wp_backend_delete; rewrite ?backend_id_record.
    + intros z f2 Hz Hf2. simpl in Hf2. rewrite (proj2 (Z.leb_le 0 z)) by done.
      apply wp_bind, wp_track_delete. intros w3 Hst3 He3 _.
      apply wp_ret, HQ; [eapply kv_at_idx; [|exact Hst3]; by do 2 apply kv_at_f|].
      split.
      * by apply kv_ctx_ok_delete with (ns := ns) (key := key).
      * intros i Hi Hi'. rewrite (ix_store _ _ Hst3) by done. simpl.
        by rewrite Hf2, Hf', lookup_delete_ne.
      * rewrite (ix_store _ _ Hst3) by apply record_id_not_index. simpl.
        rewrite Hf2, Hf', lookup_delete_eq. eauto.
      * done.
    + intros z f2 Hz Hf2 Henoent. simpl in Hf2, Henoent. rewrite (proj2 (Z.leb_gt 0 z)) by lia.
      apply wp_ret, HQ; [by do 2 apply kv_at_f|].
      apply delete_post_none; [by apply status_from_errno_neg| |split; simpl; congruence].
      rewrite status_from_errno_not_found. intros [->|Hz'%Henoent]; [unfold ENOENT in *; lia|].
      unfold kv_lookup. rewrite <- Hf'. by rewrite Hz'.
  - intros b f' Habs Hf'. cbn [fst snd].
    apply wp_ret, HQ; [by apply kv_at_f|].
    apply delete_post_none; [done| |by split]. intros _. unfold kv_lookup. by rewrite Habs.
  - intros z b f' Hz Hne Hf' _. cbn [fst snd]. rewrite (proj2 (Z.ltb_lt z 0)) by done.
    apply wp_ret, HQ; [by apply kv_at_f|].
    apply delete_post_none; [by apply status_from_errno_neg| |by split].
    rewrite status_from_errno_not_found. unfold ENOENT in *. lia.
Qed.

(** [zdb_kv_delete]: its effect, and one [KV_DELETE] event with its status. *)
Lemma wp_kv_delete sl ns key (Q : zdb_status_t → W → Prop) w :
  kv_ready sl ns w → zdb_key_valid (Some key) = true →
  (∀ st evs w', published evs sl w w' → delete_post ns key st w w' →
     (CONFIG_ZDB_EVENTING = true →
        ∃ e, evs = [e] ∧ kv_event ZDB_EVENT_KV_DELETE ns key 0 st e) →
     Q st w') →
  wp (zdb_kv_delete (kv_handle ns) (Some key)) Q w.
Proof.
  intros [Hns Hm Hsl Hfits] Hkv HQ.
  pose proof Hkv as (? & [= <-] & _ & Hkey)%zdb_key_valid_spec.
  unfold zdb_kv_delete, kv_handle. rewrite Hkv. simpl negb. cbn iota.
  apply wp_bind, wp_fs_from_db. intros [] Hb; [|by apply Hb in Hm].
  simpl. apply wp_bind, wp_db_get. rewrite Hsl.
  assert (∀ st w1, kv_at 0 0 sl w w1 → delete_post ns key st w w1 →
    wp (bind (if CONFIG_ZDB_EVENTING
              then zdb_emit_kv_event (Some the_db) ZDB_EVENT_KV_DELETE (Some ns) (Some key) 0 st
              else ret tt) (λ _, ret st)) Q w1) as Htail.
  { intros st w1 Hat1 Hp1. apply wp_bind. destruct CONFIG_ZDB_EVENTING eqn:HE.
    - apply (wp_publish _ _ _ _ _ _ [] sl _ w); [done..|by apply published_nil|].
      intros w2 e He Hp2 Hd2. apply wp_ret. apply (HQ st [e]); [done| |eauto].
      by eapply delete_post_same.
    - apply wp_ret, wp_ret, (HQ st []); [by apply published_nil|done|done]. }
  apply wp_bind. eapply (wp_alloc 0 0); [apply kv_at_refl| |].
  2:{ intros rc w1 Hrc Hat1 Hd1 _. rewrite (proj2 (Z.eqb_neq _ _)) by done. simpl.
      apply wp_bind, wp_ret, Htail; [done|]. by apply delete_post_none. }
  intros w1 Hat1 Hd1. simpl.
  apply wp_bind, wp_bind. eapply wp_take_lock; [exact Hat1| |].
  2:{ intros w2 Hat2 Hd2 _. simpl. apply wp_bind, wp_ret, wp_bind. eapply wp_free; [exact Hat2|].
      intros w3 Hat3 Hd3. apply wp_ret, Htail; [done|]. apply delete_post_none; [done..|].
      do 2 (etrans; [eassumption|]). done. }
  intros w2 Hat2 Hd2. simpl. assert (same_data w w2) as Hd02 by (by etrans).
  apply wp_bind, wp_bind. eapply wp_kv_delete_locked; [exact Hat2|by eapply kv_at_mounted| |].
  { intros id d. destruct Hd02 as [-> _]. apply Hfits. }
  intros st w3 Hat3 Hp3. apply wp_bind. eapply wp_release; [exact Hat3|].
  intros w4 Hat4 Hd4. apply wp_ret, wp_bind. eapply wp_free; [exact Hat4|].
  intros w5 Hat5 Hd5. apply wp_ret, Htail; [done|].
  eapply delete_post_pre; [exact Hd02|]. eapply delete_post_same; [|exact Hp3]. by etrans.
Qed.

Lemma delete_post_lookup ns key st w w' ns' key' :
  delete_post ns key st w w' →
  kv_lookup (w_f w') ns' key' =
  if decide (st = ZDB_OK) then kv_update (kv_lookup (w_f w)) ns key None ns' key'
  else kv_lookup (w_f w) ns' key'.
Proof.
  intros [_ Hother Hslot _]. unfold kv_lookup at 1. case_decide as Hst; cycle 1.
  { assert (same_data w w') as [-> _] by (by destruct st). done. }
  subst st. destruct Hslot as (Hslot & _ & d & Hd & Hck). unfold kv_update.
  destruct (decide (zdb_kv_record_id ns' key' = zdb_kv_record_id ns key)) as [Hid|Hid].
  - rewrite Hid, Hslot. simpl. case_bool_decide as Heq; [done|].
    unfold kv_lookup. rewrite Hid, Hd. simpl. symmetry.
    eapply rec_value_other; [|exact Heq]. by rewrite Hck.
  - rewrite Hother by (done || apply record_id_not_index).
    case_bool_decide as Heq; [by simplify_eq|done].
Qed.

Lemma delete_post_fits block ns key st w w' :
  delete_post ns key st w w' → kv_fits block (w_f w) → kv_fits block (w_f w').
Proof.
  intros [_ Hother Hslot _] Hfits id d Hd Hid. destruct (decide (st = ZDB_OK)) as [->|Hst].
  - destruct (decide (id = zdb_kv_record_id ns key)) as [->|Hne].
    + destruct Hslot as [Hslot _]. congruence.
    + rewrite Hother in Hd by done. by eapply Hfits.
  - assert (same_data w w') as [Hs _] by (by destruct st). rewrite Hs in Hd. by eapply Hfits.
Qed.

(** ** What an operation leaves for the next one *)

Lemma published_db evs sl w w' :
  published evs sl w w' →
  w_db w' = (w_db w) <| kv_ctx := kv_ctx (w_db w') |> <| ts_ctx := ts_ctx (w_db w') |>
                     <| health_event_pending := health_event_pending (w_db w') |> ∧
  lock_depth (w_k w') = lock_depth (w_k w) ∧
  (∀ s, slab_used (w_k w') s = slab_used (w_k w) s) ∧
  heap_used (w_k w') + ctx_blocks (w_db w) = heap_used (w_k w) + ctx_blocks (w_db w') ∧
  w_fs w' = w_fs w.
Proof.
  intros (w1 & [Hdb Hfs Hl Hs Hh _] & _ & [Edb _ Efs [El Es Eh] _]).
  rewrite Edb. split_and!; [exact Hdb|by rewrite El| |by rewrite Eh|congruence].
  intros s. rewrite Es, Hs. by case_decide.
Qed.

Lemma published_ready evs sl ns w w' :
  published evs sl w w' → kv_fits (slab_block_size sl) (w_f w') →
  kv_ready sl ns w → kv_ready sl ns w'.
Proof.
  intros (Hdb & _)%published_db Hfits [Hns Hm Hsl _]. split; [done| | |done].
  - unfold kv_mounted. by rewrite Hdb.
  - by rewrite Hdb.
Qed.

(** ** Iteration *)

(** The next entry of [ns] that still has a value, with its position. *)
Fixpoint next_live (f : F) (es : list zdb_kv_index_entry) (ns : cstring) (i : nat)
    : option (nat * cstring * list byte) :=
  match es with
  | [] => None
  | e :: es =>
      if bool_decide (en_namespace_name e = ns) then
        match kv_lookup f ns (en_key e) with
        | Some v => Some (i, en_key e, v)
        | None => next_live f es ns (S i)
        end
      else next_live f es ns (S i)
  end.

Lemma next_in_ns_skip es ns i :
  (next_in_ns es ns i = None ∧ ∀ f, next_live f es ns i = None) ∨
  ∃ j e, next_in_ns es ns i = Some (i + j, en_key e) ∧ es !! j = Some e ∧
    en_namespace_name e = ns ∧
    ∀ f, next_live f es ns i =
      match kv_lookup f ns (en_key e) with
      | Some v => Some (i + j, en_key e, v)
      | None => next_live f (drop (S j) es) ns (S (i + j))
      end.
Proof.
  revert i. induction es as [|e es IH]; intros i; simpl; [by left|].
  case_bool_decide as Hns.
  - right. exists 0, e. rewrite Nat.add_0_r. simpl. done.
  - destruct (IH (S i)) as [?|(j & e' & Hn & He & Hns' & Hl)]; [by left|].
    right. exists (S j), e'. by rewrite Nat.add_succ_r.
Qed.

(** The positions and outputs [zdb_kv_iter_next] may answer with. *)
Definition iter_answer (f : F) (es : list zdb_kv_index_entry) (ns : cstring) (pos : nat)
    (out_value : option (list byte)) (cap : nat)
    (r : zdb_status_t * nat * iter_out) : Prop :=
  match next_live f (drop pos es) ns pos with
  | Some (i, key, v) =>
      r.1.1 = ZDB_OK ∧ r.1.2 = S i ∧ io_key_len r.2 = Some (length key) ∧
      take (length key + 1) (io_key r.2) = key ++ [nul] ∧
      io_value r.2 = (get_answer (Some v) out_value cap).2
  | None => r.1.1 = ZDB_ERR_NOT_FOUND ∧ io_key_len r.2 = Some 0
  end.

Lemma take_buf_write data buf : take (length data) (buf_write buf 0 data) = data.
Proof. apply (take_app_length data). Qed.

Lemma kv_at_trans l n sl w1 w2 w3 : kv_at 0 0 sl w1 w2 → kv_at l n sl w2 w3 → kv_at l n sl w1 w3.
Proof.
  intros [Adb Afs Al As Ah (n1 & Alog & An) Ats] [Bdb Bfs Bl Bs Bh (n2 & Blog & Bn) Bts]. split.
  - by rewrite Bdb, Adb.
  - congruence.
  - by rewrite Bl, Al.
  - intros s. rewrite Bs, As. by repeat case_decide.
  - lia.
  - exists (n1 ++ n2). rewrite Blog, Alog, app_assoc. split; [done|]. intros H0.
    apply Forall_app. split; [auto|]. apply Bn. by rewrite Al.
  - etrans; [exact Ats|exact Bts].
Qed.

Lemma published_nil_inv sl w w' : published [] sl w w' → kv_at 0 0 sl w w'.
Proof.
  intros (w1 & [Adb Afs Al As Ah (n1 & Alog & An) Ats] & _ & [Edb Ef Efs [Kl Ks Kh] Elog]).
  unfold all_deliveries in Elog. simpl in Elog.
  assert (w_log w' = w_log w1) as Hl.
  { rewrite Elog. destruct CONFIG_ZDB_EVENTING; by rewrite app_nil_r. }
  split.
  - by rewrite Edb.
  - congruence.
  - by rewrite Kl.
  - intros s. by rewrite Ks.
  - rewrite Edb. lia.
  - exists n1. split; [congruence|done].
  - by rewrite Edb.
Qed.

Lemma kv_at_ready ns sl w w' :
  kv_at 0 0 sl w w' → same_data w w' → kv_ready sl ns w → kv_ready sl ns w'.
Proof.
  intros Hat [Hs _] Hr. eapply published_ready; [by apply published_nil| |exact Hr].
  destruct Hr as [_ _ _ Hf]. intros id d. rewrite Hs. apply Hf.
Qed.

Lemma kv_lookup_ext f f' ns key : kvb_store f' = kvb_store f → kv_lookup f' ns key = kv_lookup f ns key.
Proof. intros H. unfold kv_lookup. by rewrite H. Qed.

Lemma next_live_ext f f' es ns i :
  kvb_store f' = kvb_store f → next_live f' es ns i = next_live f es ns i.
Proof.
  intros H. revert i. induction es as [|e es IH]; intros i; simpl; [done|].
  by rewrite (kv_lookup_ext f f'), !IH.
Qed.

(** The ways [zdb_kv_iter_next] may end. *)
Definition iter_post (sl : k_mem_slab) (w : W) (es : list zdb_kv_index_entry) (ns : cstring)
    (pos : nat) (oval : option (list byte)) (cap : nat) (r : zdb_status_t * nat * iter_out)
    : Prop :=
  gave_up sl w r.1.1 ∨
  (r.1.1 ≠ ZDB_OK ∧ r.1.1 ≠ ZDB_ERR_NOT_FOUND ∧ ¬ KvReadsOk F) ∨
  iter_answer (w_f w) es ns pos oval cap r.

Lemma gave_up_step sl w w' st : kv_at 0 0 sl w w' → gave_up sl w' st → gave_up sl w st.
Proof.
  intros Hat [[-> Hf]|[-> Hl]]; [left|by right]. split; [done|]. intros b Hb.
  specialize (Hf b Hb). rewrite (at_slab _ _ _ _ _ Hat) in Hf. by case_decide.
Qed.

(** An answer from further on is the answer when nothing live is skipped. *)
Lemma iter_post_skip sl w w' es ns pos pos' oval cap r :
  kv_at 0 0 sl w w' → same_data w w' →
  next_live (w_f w) (drop pos es) ns pos = next_live (w_f w) (drop pos' es) ns pos' →
  iter_post sl w' es ns pos' oval cap r → iter_post sl w es ns pos oval cap r.
Proof.
  intros Hat [Hs _] Hn [?|[?|Hr]]; [left; by eapply gave_up_step|by right; left|do 2 right].
  unfold iter_answer in *. by rewrite Hn, <- (next_live_ext (w_f w) (w_f w')).
Qed.

Lemma wp_iter_next_loop fuel sl ns pos okey kcap oval cap kl vl
    (Q : option (zdb_status_t * nat * iter_out) → W → Prop) w :
  kv_ready sl ns w →
  Forall (λ e, en_key e ≠ [] ∧ entry_ok e) (ctx_entries (w_db w)) →
  CONFIG_ZDB_MAX_KEY_LEN < kcap → (oval = None → cap = 0) →
  length (ctx_entries (w_db w)) - pos < fuel →
  (∀ r w', kv_at 0 0 sl w w' → same_data w w' →
     iter_post sl w (ctx_entries (w_db w)) ns pos oval cap r → Q (Some r) w') →
  wp (iter_next_loop fuel {| kv_db := Some the_db; kv_namespace_name := Some ns |} the_db ns pos
        okey kcap oval cap kl vl) Q w.
Proof.
  revert pos okey kl vl w. induction fuel as [|fuel IH];
    intros pos okey kl vl w Hr Hes Hkcap Hnull Hfuel HQ; [lia|].
  simpl. apply wp_bind. eapply wp_take_lock; [by apply kv_at_refl| |].
  2:{ intros w1 Hat1 Hd1 Hbusy. simpl. apply wp_ret, HQ; [done|done|]. left. by right. }
  intros w1 Hat1 Hd1. simpl. apply wp_bind, wp_db_get.
  assert (∀ p w2, next_live (w_f w) (drop pos (ctx_entries (w_db w))) ns pos = None →
    kv_at 0 0 sl w w2 → same_data w1 w2 →
    Q (Some (ZDB_ERR_NOT_FOUND, p, {| io_key := okey; io_key_len := Some 0;
             io_value := {| o_len := Some 0; o_value := oval |} |})) w2) as Hnone.
  { intros p w2 Hn Hat2 Hd2. apply HQ; [done|by etrans|]. do 2 right. unfold iter_answer.
    by rewrite Hn. }
  pose proof Hd1 as [_ Hc1]. rewrite Hc1. unfold ctx_entries in *.
  destruct (kv_ctx (w_db w)) as [c|] eqn:Hc; cycle 1.
  { apply wp_bind. eapply wp_release; [exact Hat1|]. intros w2 Hat2 Hd2.
    apply wp_ret, Hnone; [|done|done]. by rewrite drop_nil. }
  unfold entry_count. destruct (Nat.leb_spec (length (entries c)) pos) as [Hge|Hlt].
  { apply wp_bind. eapply wp_release; [exact Hat1|]. intros w2 Hat2 Hd2.
    apply wp_ret, Hnone; [|done|done]. by rewrite drop_ge. }
  unfold iter_scan, first_in_ns.
  destruct (next_in_ns_skip (drop pos (entries c)) ns pos)
    as [[Hn Hl]|(j & e & Hn & He & Hns & Hl)]; rewrite Hn.
  { apply wp_bind. eapply wp_release; [exact Hat1|]. intros w2 Hat2 Hd2.
    apply wp_ret, Hnone; [|done|done]. by rewrite Hl. }
  rewrite lookup_drop in He. pose proof (lookup_lt_Some _ _ _ He) as Hlt'.
  pose proof (Forall_lookup_1 _ _ _ _ Hes He) as [Hne [_ Hklen]].
  unfold strncpy_trunc. rewrite take_ge by done.
  apply wp_bind. eapply wp_release; [exact Hat1|]. intros w2 Hat2 Hd2.
  assert (same_data w w2) as Hdw2 by (by etrans).
  pose proof (kv_at_ready _ _ _ _ Hat2 Hdw2 Hr) as Hr2.
  destruct (en_key e) as [|b k] eqn:Hkey; [done|]. rewrite <- Hkey in *. clear b k Hkey.
  rewrite (proj2 (Nat.ltb_ge _ _)) by lia.
  apply wp_bind, (wp_kv_get sl); [done| |done|..].
  { apply zdb_key_valid_spec. eauto. }
  - intros st w3 Hp3 Hd3 Hst. pose proof (gave_up_status _ _ _ Hst) as Hst'. cbn [fst snd].
    rewrite !bool_decide_eq_false_2 by (destruct Hst' as [-> | ->]; done).
    apply wp_ret, HQ; [eapply kv_at_trans; [done|by apply published_nil_inv]|by etrans|].
    left. by eapply gave_up_step.
  - intros w3 Hp3 Hd3.
    pose proof (kv_at_trans _ _ _ _ _ _ Hat2 (published_nil_inv _ _ _ Hp3)) as Hat3.
    assert (same_data w w3) as Hdw3 by (by etrans).
    rewrite (kv_lookup_ext (w_f w)) by apply Hdw2. rewrite Hl in Hnone.
    assert (∀ r, iter_answer (w_f w) (entries c) ns pos oval cap r → 
      iter_post sl w (entries c) ns pos oval cap r) as Hpost by (intros; by do 2 right).
    unfold iter_answer in Hpost. rewrite Hl in Hpost.
    destruct (kv_lookup (w_f w) ns (en_key e)) as [v|] eqn:Hv; simpl.
    + apply wp_ret, HQ; [done|done|]. apply Hpost. simpl. split_and!; try done.
      rewrite <- (take_buf_write (en_key e ++ [nul]) okey) at 2. by rewrite length_app.
    + eapply (IH (S (pos + j))); [by eapply kv_at_ready| |done| | |].
      * destruct Hdw3 as [_ ->]. by rewrite Hc.
      * done.
      * destruct Hdw3 as [_ ->]. rewrite Hc. lia.
      * intros r w4 Hat4 Hd4 Hr4. apply HQ; [by eapply kv_at_trans|by etrans|].
        eapply (iter_post_skip _ _ _ _ _ _ (S (pos + j))); [exact Hat3|exact Hdw3| |].
        -- by rewrite Hl, Hv, drop_drop, Nat.add_succ_r.
        -- destruct Hdw3 as [_ Hc3]. by rewrite Hc3, Hc in Hr4.
  - intros st w3 Hp3 Hd3 Hst Hst' Hno. cbn [fst snd].
    rewrite !bool_decide_eq_false_2 by done. simpl.
    apply wp_ret, HQ; [eapply kv_at_trans; [done|by apply published_nil_inv]|by etrans|].
    by right; left.
Qed.

(** [zdb_kv_iter_next] with a granted lock and a free block. *)
Lemma wp_iter_next blocks sl ns pos okey kcap oval cap
    (Q : option (zdb_status_t * nat * iter_out) → W → Prop) w :
  KvReadsOk F → LockLive K → SlabLive K blocks → kv_ready sl ns w →
  slab_used (w_k w) (slab_name sl) < blocks (slab_name sl) →
  Forall (λ e, en_key e ≠ [] ∧ entry_ok e) (ctx_entries (w_db w)) →
  CONFIG_ZDB_MAX_KEY_LEN < kcap → (oval = None → cap = 0) →
  (∀ a w', kv_at 0 0 sl w w' → same_data w w' →
     iter_answer (w_f w) (ctx_entries (w_db w)) ns pos oval cap a → Q (Some a) w') →
  wp (zdb_kv_iter_next (Some {| it_kv := kv_handle ns; it_position := pos |})
        (Some okey) kcap true oval cap true) Q w.
Proof.
  intros Hr Hlock Hslab Henv Hfree Hes Hkcap Hnull HQ.
  unfold zdb_kv_iter_next, kv_handle. simpl.
  rewrite (proj2 (Nat.eqb_neq kcap 0)) by (pose proof max_key_len_range; lia).
  replace (match oval with None => 0 <? cap | Some _ => false end) with false
    by (destruct oval; [done|by rewrite Hnull]).
  simpl. apply wp_bind, wp_gets.
  apply (wp_iter_next_loop _ sl); [done..|unfold iter_fuel; lia|].
  intros r w' Hat Hd Hpost. apply HQ; [done|done|].
  destruct Hpost as [[[_ Hfull]|[_ Hbusy]]|[(_ & _ & Hnr)|Hans]]; [|done|done|done].
  specialize (Hfull _ Hslab). lia.
Qed.
End laws.
