(* ===== verification/KvBulk.v ===== *)
(** * Correctness of the operations built from several calls: defaults,
    namespace reset, strings *)

From S2P Require Import Prelude Config Env Types Events KvFormat KvIndex KvIndexSpec Kv KvSpec KvLaws.

Section bulk.
Context {Cfg : Config} {CfgOk : ConfigOk Cfg} {K F FS : Type}.
Context `{!Kernel K, !KernelLaws K, !KvBackend F, !KvBackendLaws F}.
Abbreviation W := (world K F FS).
Implicit Types w : W.

(** ** The frame several calls share *)

(** What any sequence of key-value operations keeps: everything of the
    instance but the index and what an unlock consumes, the lock, the slabs,
    the heap up to the index, the files; and what it published, it published
    outside the lock. *)
Record kv_step (w w' : W) : Prop := {
  ks_db : w_db w' = (w_db w) <| kv_ctx := kv_ctx (w_db w') |> <| ts_ctx := ts_ctx (w_db w') |>
                             <| health_event_pending := health_event_pending (w_db w') |>;
  ks_fs : w_fs w' = w_fs w;
  ks_lock : lock_depth (w_k w') = lock_depth (w_k w);
  ks_slab : ∀ s, slab_used (w_k w') s = slab_used (w_k w) s;
  ks_heap : heap_used (w_k w') + ctx_blocks (w_db w) = heap_used (w_k w) + ctx_blocks (w_db w');
  ks_log : ∃ new, w_log w' = w_log w ++ new ∧
    (lock_depth (w_k w) = 0 → Forall (λ d, dl_locked d = false) new);
  ks_ts : ctx_sim (ts_ctx (w_db w)) (ts_ctx (w_db w'));
}.

#[global] Instance kv_step_preorder : PreOrder kv_step.
Proof.
  split.
  - intros w. split; try done; [by destruct w as [[] ? ? ? ?]|].
    exists []. by rewrite app_nil_r.
  - intros w1 w2 w3 [Adb Afs Al As Ah (n1 & Alog & An) Ats] [Bdb Bfs Bl Bs Bh (n2 & Blog & Bn) Bts].
    split; try congruence; try lia.
    + by rewrite Bdb, Adb.
    + exists (n1 ++ n2). rewrite Blog, Alog, app_assoc. split; [done|]. intros H0.
      apply Forall_app. split; [auto|]. apply Bn. by rewrite Al.
    + by etrans.
Qed.

Lemma kv_at_step sl w w' : kv_at 0 0 sl w w' → kv_step w w'.
Proof.
  intros [Adb Afs Al As Ah (n1 & Alog & An)]. split; try done.
  - intros s. rewrite As. by case_decide.
  - exists n1. split; [done|]. intros H0. eapply Forall_impl; [by apply An|]. by intros d [? _].
Qed.

Lemma published_step evs sl w w' : published evs sl w w' → kv_step w w'.
Proof.
  intros (w1 & Hat & _ & Hem). etrans; [by eapply kv_at_step|].
  pose proof (at_lock _ _ _ _ _ Hat) as Hl. destruct Hem as [Edb Ef Efs [Kl Ks Kh] Elog].
  split.
  - rewrite Edb. by destruct w1 as [[] ? ? ? ?].
  - done.
  - done.
  - done.
  - by rewrite Edb, Kh.
  - eexists. split; [exact Elog|]. intros H0. destruct CONFIG_ZDB_EVENTING; [|constructor].
    rewrite k_mutex_owned_law, H0. apply all_deliveries_locked.
  - by rewrite Edb.
Qed.

Lemma kv_step_mounted w w' : kv_step w w' → kv_mounted (w_db w) → kv_mounted (w_db w').
Proof. intros H. unfold kv_mounted. by rewrite (ks_db _ _ H). Qed.

(** The environment of a call, apart from the namespace. *)
Definition kv_env (sl : k_mem_slab) (w : W) : Prop :=
  kv_mounted (w_db w) ∧ kv_io_slab (w_db w) = Some sl ∧ kv_fits (slab_block_size sl) (w_f w).

Lemma kv_env_ready sl ns w : kv_env sl w → length ns ≤ CONFIG_ZDB_MAX_KEY_LEN → kv_ready sl ns w.
Proof. intros (? & ? & ?) ?. by split. Qed.

Lemma kv_ready_env sl ns w : kv_ready sl ns w → kv_env sl w.
Proof. by intros []. Qed.

Lemma kv_env_step sl w w' :
  kv_step w w' → kv_fits (slab_block_size sl) (w_f w') → kv_env sl w → kv_env sl w'.
Proof.
  intros Hst Hf (Hm & Hs & _). split_and!; [by eapply kv_step_mounted| |done].
  by rewrite (ks_db _ _ Hst).
Qed.

Lemma kv_env_same sl w w' : kv_step w w' → same_data w w' → kv_env sl w → kv_env sl w'.
Proof.
  intros Hst [Hs _] Henv. eapply kv_env_step; [done| |done].
  destruct Henv as (_ & _ & Hf). intros id d. rewrite Hs. apply Hf.
Qed.

(** An index within its bounds stays so. *)
Definition index_kept (w w' : W) : Prop := kv_ctx_ok (w_db w) → kv_ctx_ok (w_db w').

Lemma index_kept_same w w' : same_data w w' → index_kept w w'.
Proof. intros Hd. unfold index_kept. by apply kv_ctx_ok_same. Qed.

#[global] Instance index_kept_preorder : PreOrder index_kept.
Proof. unfold index_kept. split; [by intros w|]. intros w1 w2 w3. auto. Qed.

(** ** A set on any arguments *)

(** The caller's buffer holds the length it is passed with. *)
Definition value_ok (value : option (list byte)) (vlen : nat) : Prop :=
  match value with None => True | Some v => vlen ≤ length v end.

Definition lookups_same (w w' : W) : Prop :=
  ∀ ns key, kv_lookup (w_f w') ns key = kv_lookup (w_f w) ns key.

Lemma same_data_lookups w w' : same_data w w' → lookups_same w w'.
Proof. intros [Hs _] ns key. by apply kv_lookup_ext. Qed.

(** Every call of [zdb_kv_set] through an open handle either stores the value
    and reports success, or leaves every value as it was. *)
Lemma wp_kv_set_any sl ns key value vlen (Q : zdb_status_t → W → Prop) w :
  KvReadsOk F → kv_env sl w → length ns ≤ CONFIG_ZDB_MAX_KEY_LEN → value_ok value vlen →
  (∀ st w', kv_step w w' → kv_env sl w' →
     index_kept w w' →
     (if decide (st = ZDB_OK) then
        zdb_key_valid (Some key) = true ∧
        ∀ ns' key', kv_lookup (w_f w') ns' key' =
          kv_update (kv_lookup (w_f w)) ns key (Some (take vlen (default [] value))) ns' key'
      else lookups_same w w') → Q st w') →
  wp (zdb_kv_set (kv_handle ns) (Some key) value vlen) Q w.
Proof.
  intros Hr Henv Hns Hv HQ.
  assert (∀ st, st ≠ ZDB_OK → Q st w) as Hno.
  { intros st Hst. apply HQ; [done|done|done|]. by rewrite decide_False. }
  destruct (zdb_key_valid (Some key)) eqn:Hkv; cycle 1.
  { unfold zdb_kv_set, kv_handle. rewrite Hkv, orb_true_r. by apply wp_ret, Hno. }
  destruct (decide (value = None ∧ 0 < vlen)) as [[-> Hlen]|Hnn].
  { unfold zdb_kv_set, kv_handle. rewrite (proj2 (Nat.ltb_lt _ _)) by done.
    by apply wp_ret, Hno. }
  assert (vlen ≤ length (default [] value)) as Hvl.
  { destruct value; simpl in *; [done|]. destruct vlen; [lia|]. destruct Hnn. split; [done|lia]. }
  destruct (decide (ZDB_KV_REC_HDR_SIZE + length ns + length key + vlen ≤ slab_block_size sl))
    as [Hfit|Hbig]; cycle 1.
  { unfold zdb_kv_set, kv_handle. rewrite Hkv. simpl negb.
    replace (match value with None => 0 <? vlen | Some _ => false end) with false
      by (destruct value; [done|]; destruct vlen; [done|destruct Hnn; split; [done|lia]]).
    destruct Henv as (Hm & Hsl & _). simpl orb. cbn iota.
    apply wp_bind, wp_fs_from_db. intros [] Hb; [|by apply Hb in Hm].
    simpl. apply wp_bind, wp_db_get. rewrite Hsl.
    rewrite (proj2 (Nat.ltb_lt _ _)) by (unfold ZDB_KV_REC_HDR_SIZE in *; lia).
    by apply wp_ret, Hno. }
  pose proof Henv as (Hm & Hsl & Hfits).
  pose proof Hkv as (? & [= <-] & _ & Hkey)%zdb_key_valid_spec.
  eapply wp_kv_set; [done..| |].
  - intros st w' Hp Hd Hst%gave_up_status. pose proof (published_step _ _ _ _ Hp) as Hstep.
    apply HQ; [done|by eapply kv_env_same|by apply index_kept_same|].
    rewrite decide_False by (by destruct Hst as [-> | ->]). by apply same_data_lookups.
  - intros st ix evs w' _ Hp Hpost. pose proof (published_step _ _ _ _ Hp) as Hstep.
    apply HQ; [done| |unfold index_kept; apply Hpost|].
    { eapply kv_env_step; [done|by eapply set_post_fits|done]. }
    case_decide as Hst.
    + subst st. split; [done|]. intros ns' key'. by eapply set_post_ok_lookup.
    + intros ns' key'. by eapply set_post_fail_lookup.
Qed.

(** ** Defaults *)

(** The pair a default names, when the filter admits it. *)
Definition default_pair (filter : option cstring) (def : zdb_kv_default_t)
    : option (cstring * cstring) :=
  match def_namespace_name def, def_key def with
  | Some ns, Some key =>
      if match filter with Some f => negb (bool_decide (ns = f)) | None => false end
      then None else Some (ns, key)
  | _, _ => None
  end.

Definition default_ok (def : zdb_kv_default_t) : Prop := value_ok (def_value def) (def_value_len def).

(** The value of a pair in [w'] is its value in [w], or a default where it had
    none. *)
Definition seeded (filter : option cstring) (defs : list zdb_kv_default_t) (w w' : W) : Prop :=
  ∀ ns key,
    kv_lookup (w_f w') ns key = kv_lookup (w_f w) ns key ∨
    kv_lookup (w_f w) ns key = None ∧
    ∃ def, def ∈ defs ∧ default_pair filter def = Some (ns, key) ∧
      kv_lookup (w_f w') ns key = Some (take (def_value_len def) (default [] (def_value def))).

Lemma seeded_refl filter defs w : seeded filter defs w w.
Proof. by left. Qed.

Lemma seeded_trans filter defs w1 w2 w3 :
  seeded filter defs w1 w2 → seeded filter defs w2 w3 → seeded filter defs w1 w3.
Proof.
  intros H1 H2 ns key. destruct (H2 ns key) as [E|(N & def & Hin & Hp & Hv)].
  - destruct (H1 ns key) as [E1|(N1 & def & Hin & Hp & Hv)]; [left; congruence|].
    right. split; [done|]. exists def. split_and!; congruence.
  - destruct (H1 ns key) as [E1|(N1 & def1 & Hin1 & Hp1 & Hv1)]; [|congruence].
    right. split; [congruence|]. eauto.
Qed.

Lemma seeded_mono filter defs w w' ns key v :
  seeded filter defs w w' → kv_lookup (w_f w) ns key = Some v →
  kv_lookup (w_f w') ns key = Some v.
Proof. intros H Hv. destruct (H ns key) as [->|[? _]]; congruence. Qed.

Lemma wp_kv_open db ns (Q : zdb_status_t * option zdb_kv_t → W → Prop) w kv0 :
  (zdb_key_valid (Some ns) = true → Q (ZDB_OK, Some {| kv_db := Some db; kv_namespace_name := Some ns |}) w) →
  (∀ kv, zdb_key_valid (Some ns) = false ∨ ¬ kv_mounted (w_db w) → Q (ZDB_ERR_INVAL, kv) w) →
  wp (zdb_kv_open (Some db) (Some ns) (Some kv0)) Q w.
Proof.
  intros Hok Hinv. unfold zdb_kv_open.
  destruct (zdb_key_valid (Some ns)) eqn:Hkv; simpl; [|by apply wp_ret, Hinv; left].
  apply wp_bind, wp_db_get.
  destruct (cfg (w_db w)) as [c|] eqn:Hc; cycle 1.
  { apply wp_ret, Hinv. right. intros (? & ? & _). congruence. }
  apply wp_bind, wp_fs_from_db. intros [] Hb; simpl; [by apply wp_ret, Hok|].
  apply wp_ret, Hinv. right. by intros Hm%Hb.
Qed.

Lemma wp_default_apply sl filter def (Q : option zdb_status_t → W → Prop) w :
  KvReadsOk F → kv_env sl w → default_ok def →
  (∀ rc w', kv_step w w' → kv_env sl w' → index_kept w w' → seeded filter [def] w w' →
     (∀ ns key, (rc = None ∨ rc = Some ZDB_OK) → default_pair filter def = Some (ns, key) →
        is_Some (kv_lookup (w_f w') ns key)) → Q rc w') →
  wp (default_apply the_db filter def) Q w.
Proof.
  intros Hr Henv Hdef HQ. unfold default_apply.
  assert (∀ rc w', kv_step w w' → same_data w w' → 
    (rc ≠ None ∧ rc ≠ Some ZDB_OK ∨ default_pair filter def = None) → Q rc w') as Hno.
  { intros rc w' Hst Hd Hrc. apply HQ; [done|by eapply kv_env_same|by apply index_kept_same| |].
    - intros ns key. left. by apply same_data_lookups.
    - intros ns key. naive_solver. }
  destruct (def_namespace_name def) as [ns|] eqn:Hns; [|by apply wp_ret, Hno; [..|left]].
  destruct (def_key def) as [key|] eqn:Hkey; [|by apply wp_ret, Hno; [..|left]].
  destruct (match filter with Some f => negb (bool_decide (ns = f)) | None => false end) eqn:Hf.
  { apply wp_ret, Hno; [done..|]. right. unfold default_pair. by rewrite Hns, Hkey, Hf. }
  assert (default_pair filter def = Some (ns, key)) as Hpair
    by (unfold default_pair; by rewrite Hns, Hkey, Hf).
  apply wp_bind, wp_kv_open; cycle 1.
  { intros kv _. apply wp_ret, Hno; [done..|by left]. }
  intros (? & [= <-] & _ & Hnslen)%zdb_key_valid_spec. simpl.
  change (Some {| kv_db := Some the_db; kv_namespace_name := Some ns |}) with (kv_handle ns).
  destruct (zdb_key_valid (Some key)) eqn:Hkv; cycle 1.
  { apply wp_bind. unfold zdb_kv_get at 1, kv_handle at 1. rewrite Hkv. simpl orb.
    apply wp_ret. cbn [fst snd]. simpl. apply wp_bind, wp_ret, wp_ret, Hno; [done..|by left]. }
  apply wp_bind, (wp_kv_get sl); [by apply kv_env_ready|done|done|..].
  - intros st w1 Hp1 Hd1 Hst%gave_up_status. cbn [fst snd].
    rewrite bool_decide_eq_false_2 by (by destruct Hst as [-> | ->]).
    apply wp_bind, wp_ret, wp_ret, Hno; [by eapply published_step|done|].
    left. by destruct Hst as [-> | ->].
  - intros w1 Hp1 Hd1. pose proof (published_step _ _ _ _ Hp1) as Hst1.
    pose proof (kv_env_same _ _ _ Hst1 Hd1 Henv) as Henv1.
    destruct (kv_lookup (w_f w) ns key) as [v|] eqn:Hv; cbn [get_answer fst snd].
    + apply wp_bind, wp_ret, wp_ret, HQ; [done|done|by apply index_kept_same| |].
      * intros ns' key'. left. by apply same_data_lookups.
      * intros ns' key' _ Hp. rewrite Hpair in Hp. injection Hp as <- <-.
        rewrite (same_data_lookups _ _ Hd1), Hv. eauto.
    + rewrite bool_decide_eq_true_2 by done.
      apply wp_bind, (wp_kv_set_any sl); [done..|].
      intros st w2 Hst2 Henv2 Hix2 Hpost.
      apply wp_ret, HQ; [by etrans|done|by etrans; [apply index_kept_same|]| |].
      * intros ns' key'. case_decide.
        -- destruct Hpost as [_ Hl]. rewrite Hl. unfold kv_update. case_bool_decide as Heq.
           ++ injection Heq as -> ->. right. split; [done|]. exists def.
              split_and!; [set_solver|done|done].
           ++ left. by apply same_data_lookups.
        -- left. rewrite Hpost. by apply same_data_lookups.
      * intros ns' key' Hrc Hp. rewrite Hpair in Hp. injection Hp as <- <-.
        destruct Hrc as [?|[= ->]]; [done|]. rewrite decide_True in Hpost by done.
        destruct Hpost as [_ Hl]. rewrite Hl. unfold kv_update.
        rewrite bool_decide_eq_true_2 by done. eauto.
  - intros st w1 _ _ _ _ Hnr. done.
Qed.

Lemma first_error_ok acc rc :
  first_error acc rc = ZDB_OK → acc = ZDB_OK ∧ (rc = None ∨ rc = Some ZDB_OK).
Proof.
  unfold first_error. destruct rc as [rc|]; [|naive_solver].
  do 2 case_bool_decide; simpl; naive_solver.
Qed.

Lemma seeded_weaken filter defs defs' w w' :
  defs ⊆ defs' → seeded filter defs w w' → seeded filter defs' w w'.
Proof. intros Hsub H ns key. destruct (H ns key) as [?|(? & def & ? & ?)]; naive_solver. Qed.

Lemma wp_defaults_loop sl filter defs acc (Q : zdb_status_t → W → Prop) w :
  KvReadsOk F → kv_env sl w → Forall default_ok defs →
  (∀ st w', kv_step w w' → kv_env sl w' → index_kept w w' → seeded filter defs w w' →
     (st = ZDB_OK → acc = ZDB_OK ∧ ∀ def ns key, def ∈ defs →
        default_pair filter def = Some (ns, key) → is_Some (kv_lookup (w_f w') ns key)) →
     Q st w') →
  wp (defaults_loop the_db filter defs acc) Q w.
Proof.
  intros Hr. revert acc w. induction defs as [|def defs IH]; intros acc w Henv Hok HQ.
  { apply wp_ret, HQ; [done|done|done|apply seeded_refl|]. intros ->. set_solver. }
  apply Forall_cons in Hok as [Hdef Hok].
  apply wp_bind, (wp_default_apply sl); [done..|].
  intros rc w1 Hst1 Henv1 Hix1 Hseed1 Hsome1. apply IH; [done..|].
  intros st w2 Hst2 Henv2 Hix2 Hseed2 Hok2. apply HQ; [by etrans|done|by etrans| |].
  - eapply seeded_trans; (eapply seeded_weaken; [|done]); set_solver.
  - intros Hst. destruct (Hok2 Hst) as [[? Hrc]%first_error_ok Hall]. split; [done|].
    intros d ns key [->|Hin]%elem_of_cons Hp; [|by eapply Hall].
    destruct (Hsome1 ns key Hrc Hp) as [v Hv]. exists v. by eapply seeded_mono.
Qed.

Lemma wp_defaults_apply_ns sl filter (Q : zdb_status_t → W → Prop) w c :
  KvReadsOk F → kv_env sl w → cfg (w_db w) = Some c →
  Forall default_ok (default [] (kv_defaults c)) →
  (∀ st w', kv_step w w' → kv_env sl w' → index_kept w w' →
     seeded filter (default [] (kv_defaults c)) w w' →
     (st = ZDB_OK → ∀ def ns key, def ∈ default [] (kv_defaults c) →
        default_pair filter def = Some (ns, key) → is_Some (kv_lookup (w_f w') ns key)) →
     Q st w') →
  wp (zdb_kv_defaults_apply_ns (Some the_db) filter) Q w.
Proof.
  intros Hr Henv Hc Hok HQ. apply wp_bind, wp_db_get. rewrite Hc.
  assert (default [] (kv_defaults c) = [] → Q ZDB_OK w) as Hnil.
  { intros He. apply HQ; [done|done|done|apply seeded_refl|]. rewrite He. set_solver. }
  destruct (kv_defaults c) as [[|def defs]|]; [by apply wp_ret, Hnil| |by apply wp_ret, Hnil].
  pose proof Henv as (Hm & _).
  apply wp_bind, wp_fs_from_db. intros [] Hb; [|by apply Hb in Hm].
  apply (wp_defaults_loop sl); [done..|]. intros st w' Hst Henv' Hix Hseed Hall.
  apply HQ; [done..|]. intros Hst'. by destruct (Hall Hst').
Qed.

(** ** Resetting a namespace *)

Lemma wp_take_lock_live db l n sl (Q : zdb_status_t → W → Prop) w0 w :
  LockLive K → kv_at l n sl w0 w →
  (∀ w', kv_at (S l) n sl w0 w' → same_data w w' → Q ZDB_OK w') →
  wp (zdb_lock_write db) Q w.
Proof.
  intros Hlive Hat HQ. pose proof Hat as [? ? ? Hsl ? ?].
  apply wp_bind, wp_on_k. intros rc k' Heq.
  pose proof (Hlive (w_k w)) as Hrc. rewrite Heq in Hrc. simpl in Hrc. subst rc. apply wp_ret.
  pose proof (k_mutex_lock_law (w_k w)) as (Hd & Hs & Hh). rewrite Heq in Hd, Hs, Hh. simpl in *.
  destruct Hd as [[_ Hd]|[? _]]; [|done].
  apply HQ; [|done]. eapply kv_at_k; [done| | |done].
  - rewrite Hd. simpl. congruence.
  - intros s. by rewrite Hs.
Qed.

Lemma wp_next_key_in_ns sl ns pos (Q : option (nat * cstring) → W → Prop) w :
  LockLive K →
  Forall entry_ok (ctx_entries (w_db w)) →
  (∀ w', kv_at 0 0 sl w w' → same_data w w' →
     Q (first_in_ns (ctx_entries (w_db w)) ns pos) w') →
  wp (zdb_kv_next_key_in_ns the_db ns pos (CONFIG_ZDB_MAX_KEY_LEN + 1)) Q w.
Proof.
  intros Hlive Hes HQ. apply wp_bind.
  eapply (wp_take_lock_live _ 0 0 sl); [done|apply kv_at_refl|].
  intros w1 Hat1 Hd1. simpl. apply wp_bind, wp_db_get, wp_bind.
  eapply wp_release; [exact Hat1|]. intros w2 Hat2 Hd2. apply wp_ret.
  specialize (HQ w2 Hat2 (transitivity Hd1 Hd2)). destruct Hd1 as [_ ->].
  unfold ctx_entries in *. destruct (kv_ctx (w_db w)) as [c|]; cycle 1.
  { unfold first_in_ns in HQ. by rewrite drop_nil in HQ. }
  destruct (first_in_ns (entries c) ns pos) as [[i key]|] eqn:Hf; [|done].
  unfold first_in_ns in Hf. destruct (next_in_ns_skip (drop pos (entries c)) ns pos)
    as [[Hn _]|(j & e & Hn & He & _)]; [congruence|].
  rewrite Hn in Hf. injection Hf as <- <-. rewrite lookup_drop in He.
  pose proof (Forall_lookup_1 _ _ _ _ Hes He) as [_ Hk].
  unfold strncpy_trunc. rewrite take_ge by lia. done.
Qed.

Lemma first_in_ns_Some es ns pos i key :
  first_in_ns es ns pos = Some (i, key) →
  pos ≤ i < length es ∧ (ns, key) ∈ pair_of <$> es ∧ ∃ e, e ∈ es ∧ pair_of e = (ns, key).
Proof.
  unfold first_in_ns. destruct (next_in_ns_skip (drop pos es) ns pos)
    as [[Hn _]|(j & e & Hn & He & Hns & _)]; [congruence|].
  rewrite Hn. intros [= <- <-]. rewrite lookup_drop in He.
  pose proof (lookup_lt_Some _ _ _ He). apply list_elem_of_lookup_2 in He.
  assert (pair_of e = (ns, en_key e)) as Hp by (unfold pair_of; by rewrite Hns).
  split_and!; [lia|lia| |eauto]. rewrite <- Hp. by apply list_elem_of_fmap_2.
Qed.

Lemma next_in_ns_None es ns n e :
  next_in_ns es ns n = None → e ∈ es → en_namespace_name e ≠ ns.
Proof.
  revert n. induction es as [|e' es IH]; intros n; simpl; [set_solver|].
  case_bool_decide; [done|]. intros Hn [->|He]%elem_of_cons; [done|by eapply IH].
Qed.

(** Only values of [ns] are removed, none is added or changed. *)
Definition purged (ns : cstring) (w w' : W) : Prop :=
  ∀ ns' key, kv_lookup (w_f w') ns' key = kv_lookup (w_f w) ns' key ∨
    ns' = ns ∧ kv_lookup (w_f w') ns' key = None.

Lemma purged_refl ns w : purged ns w w.
Proof. by left. Qed.

Lemma purged_trans ns w1 w2 w3 : purged ns w1 w2 → purged ns w2 w3 → purged ns w1 w3.
Proof.
  intros H1 H2 ns' key. destruct (H2 ns' key) as [->|[-> ->]]; [apply H1|by right].
Qed.

Lemma purged_None ns w w' ns' key :
  purged ns w w' → kv_lookup (w_f w) ns' key = None → kv_lookup (w_f w') ns' key = None.
Proof. intros H Hn. destruct (H ns' key) as [->|[_ ?]]; done. Qed.

Lemma same_data_purged ns w w' : same_data w w' → purged ns w w'.
Proof. intros H ns' key. left. by apply same_data_lookups. Qed.

Lemma elem_of_delete_pair es ns key e :
  e ∈ es → pair_of e = (ns, key) ∨ e ∈ delete_pair es ns key.
Proof.
  intros He. unfold delete_pair. destruct (find_entry es ns key) as [i|] eqn:Hf; [|by right].
  apply find_entry_Some in Hf as (e' & Hi & Hp).
  apply list_elem_of_lookup_1 in He as [j Hj]. destruct (decide (j = i)) as [->|Hne].
  - left. congruence.
  - right. destruct (decide (j < i)).
    + apply list_elem_of_lookup_2 with j. by rewrite list_lookup_delete_lt.
    + apply list_elem_of_lookup_2 with (pred j). rewrite list_lookup_delete_ge by lia.
      by replace (S (pred j)) with j by lia.
Qed.

(** One round of the loop: the key found loses its value and its entry, or is
    stepped over with an error. *)
Inductive reset_round (ns key : cstring) (w : W) : option zdb_status_t → W → Prop :=
  | round_gone w' :
      kv_step w w' → purged ns w w' → kv_lookup (w_f w') ns key = None →
      ctx_entries (w_db w') = delete_pair (ctx_entries (w_db w)) ns key →
      reset_round ns key w None w'
  | round_error st w' :
      st ≠ ZDB_OK → kv_step w w' → same_data w w' → reset_round ns key w (Some st) w'.

Lemma wp_reset_step sl ns key (Q : option zdb_status_t → W → Prop) w :
  LockLive K → kv_env sl w → length ns ≤ CONFIG_ZDB_MAX_KEY_LEN →
  length key ≤ CONFIG_ZDB_MAX_KEY_LEN →
  (∀ r w', kv_env sl w' → reset_round ns key w r w' → Q r w') →
  wp (reset_one {| kv_db := Some the_db; kv_namespace_name := Some ns |} the_db ns key) Q w.
Proof.
  intros Hlive Henv Hns Hkey HQ. unfold reset_one.
  change (Some {| kv_db := Some the_db; kv_namespace_name := Some ns |}) with (kv_handle ns).
  destruct (zdb_key_valid (Some key)) eqn:Hkv; cycle 1.
  { apply wp_bind. unfold zdb_kv_delete at 1, kv_handle at 1. rewrite Hkv.
    apply wp_ret. simpl. apply wp_ret, HQ; [done|]. by apply round_error. }
  apply wp_bind, (wp_kv_delete sl); [by apply kv_env_ready|done|].
  intros st evs w1 Hp1 Hpost _. pose proof (published_step _ _ _ _ Hp1) as Hst1.
  assert (kv_env sl w1) as Henv1.
  { eapply kv_env_step; [done| |done]. eapply delete_post_fits; [done|apply Henv]. }
  pose proof (λ ns' key', delete_post_lookup _ _ _ _ _ ns' key' Hpost) as Hlk.
  destruct (decide (st = ZDB_OK)) as [->|Hst].
  { rewrite bool_decide_eq_true_2 by done. apply wp_ret, HQ; [done|]. apply round_gone; [done|..].
    - intros ns' key'. rewrite Hlk. unfold kv_update. case_bool_decide as Heq; [|by left].
      injection Heq as -> ->. by right.
    - rewrite Hlk. unfold kv_update. by rewrite bool_decide_eq_true_2.
    - by destruct Hpost as [_ _ (_ & ? & _) _]. }
  assert (same_data w w1) as Hd1 by (destruct Hpost as [_ _ H _]; by destruct st).
  rewrite bool_decide_eq_false_2 by done.
  destruct (decide (st = ZDB_ERR_NOT_FOUND)) as [->|Hst2]; cycle 1.
  { rewrite bool_decide_eq_false_2 by done. apply wp_ret, HQ; [done|]. by apply round_error. }
  rewrite bool_decide_eq_true_2 by done.
  apply wp_bind. eapply (wp_take_lock_live _ 0 0 sl); [done|apply kv_at_refl|].
  intros w2 Hat2 Hd2. rewrite bool_decide_eq_true_2 by done.
  apply wp_bind, wp_bind, wp_track_delete. intros w3 Hst3 He3 _.
  eapply wp_release; [by eapply kv_at_idx|]. intros w4 Hat4 Hd4. apply wp_ret.
  assert (lookups_same w w4) as Hl4.
  { intros ns' key'. rewrite (same_data_lookups _ _ Hd4).
    rewrite <- (same_data_lookups _ _ Hd1 ns' key'), <- (same_data_lookups _ _ Hd2 ns' key').
    unfold kv_lookup. by rewrite (ix_store _ _ Hst3) by apply record_id_not_index. }
  pose proof (kv_at_step _ _ _ Hat4) as Hst4.
  apply HQ.
  { eapply kv_env_step; [exact Hst4| |done]. intros id d Hd Hid.
    destruct Hd4 as [Hs4 _], Hd2 as [Hs2 _], Henv1 as (_ & _ & Hf).
    rewrite Hs4, (ix_store _ _ Hst3), Hs2 in Hd by done. by eapply Hf. }
  apply round_gone; [by etrans| | |].
  - intros ns' key'. left. apply Hl4.
  - rewrite Hl4. by apply Hpost.
  - transitivity (ctx_entries (w_db w3)).
    { unfold ctx_entries. by destruct Hd4 as [_ ->]. }
    rewrite He3. unfold ctx_entries. destruct Hd2 as [_ ->]. by destruct Hd1 as [_ ->].
Qed.

(** The loop ends within one round per entry not yet stepped over. *)
Lemma wp_reset_loop fuel sl ns pos acc (Q : option zdb_status_t → W → Prop) w :
  LockLive K → kv_env sl w → length ns ≤ CONFIG_ZDB_MAX_KEY_LEN →
  Forall entry_ok (ctx_entries (w_db w)) →
  length (ctx_entries (w_db w)) - pos < fuel →
  (∀ st w', kv_step w w' → kv_env sl w' → index_kept w w' → purged ns w w' →
     (st = ZDB_OK → acc = ZDB_OK ∧ (pos = 0 → ∀ e, e ∈ ctx_entries (w_db w) →
        en_namespace_name e = ns → kv_lookup (w_f w') ns (en_key e) = None)) →
     Q (Some st) w') →
  wp (reset_loop fuel {| kv_db := Some the_db; kv_namespace_name := Some ns |} the_db ns pos acc)
    Q w.
Proof.
  intros Hlive Henv Hns. revert pos acc w Henv.
  induction fuel as [|fuel IH]; intros pos acc w Henv Hes Hfuel HQ; [lia|].
  simpl. apply wp_bind, (wp_next_key_in_ns sl); [done..|]. intros w1 Hat1 Hd1.
  pose proof (kv_at_step _ _ _ Hat1) as Hst1.
  pose proof (kv_env_same _ _ _ Hst1 Hd1 Henv) as Henv1.
  assert (ctx_entries (w_db w1) = ctx_entries (w_db w)) as He1.
  { unfold ctx_entries. by destruct Hd1 as [_ ->]. }
  destruct (first_in_ns (ctx_entries (w_db w)) ns pos) as [[i key]|] eqn:Hf; cycle 1.
  { apply wp_ret, HQ; [done|done|by apply index_kept_same|by apply same_data_purged|]. intros ->. split; [done|].
    intros -> e He Hens. unfold first_in_ns in Hf. rewrite drop_0 in Hf.
    by destruct (next_in_ns_None _ _ _ _ Hf He). }
  apply first_in_ns_Some in Hf as (Hi & Hin & e0 & He0 & Hp0).
  assert (length key ≤ CONFIG_ZDB_MAX_KEY_LEN) as Hkey.
  { pose proof (proj1 (Forall_forall _ _) Hes e0 He0) as [_ Hk].
    unfold pair_of in Hp0. by injection Hp0 as _ <-. }
  apply wp_bind, (wp_reset_step sl); [done..|].
  intros r w2 Henv2 Hround. revert Henv2.
  destruct Hround as [w2' Hst2 Hpur2 Hnone2 He2|st w2' Hst Hst2 Hd2]; intros Henv2.
  - rewrite He1 in He2. assert (index_kept w w2') as Hix2.
    { unfold index_kept, kv_ctx_ok. rewrite He2. intros [Hl Hf']. split.
      - rewrite delete_pair_length, decide_True by done. lia.
      - apply Forall_forall. intros e He. eapply Forall_forall; [exact Hf'|].
        eapply elem_of_sublist; [exact He|apply delete_pair_sublist]. }
    apply IH; [done| | |].
    + rewrite He2. apply Forall_forall. intros e He. eapply Forall_forall; [exact Hes|].
      eapply elem_of_sublist; [exact He|apply delete_pair_sublist].
    + rewrite He2, delete_pair_length, decide_True by done. lia.
    + intros st w3 Hst3 Henv3 Hix3 Hpur3 Hok3.
      apply HQ; [by do 2 (etrans; [eassumption|])|done| | |].
      { etrans; [exact Hix2|exact Hix3]. }
      * do 2 (eapply purged_trans; [|eassumption]). by apply same_data_purged.
      * intros Hst. destruct (Hok3 Hst) as [? Hall]. split; [done|]. intros Hpos e He Hens.
        destruct (elem_of_delete_pair _ ns key e He) as [Hp|Hp].
        -- eapply purged_None; [done|]. unfold pair_of in Hp. by injection Hp as _ ->.
        -- apply Hall; [done|by rewrite He2|done].
  - assert (ctx_entries (w_db w2') = ctx_entries (w_db w)) as He2.
    { rewrite <- He1. unfold ctx_entries. by destruct Hd2 as [_ ->]. }
    apply IH; [done|by rewrite He2|rewrite He2; lia|].
    intros st' w3 Hst3 Henv3 Hix3 Hpur3 Hok3.
    apply HQ; [by do 2 (etrans; [eassumption|])|done| | |].
    + etrans; [by apply index_kept_same|]. etrans; [by apply index_kept_same|]. done.
    + do 2 (eapply purged_trans; [|eassumption || by apply same_data_purged]).
      by apply same_data_purged.
    + intros Hst'. destruct (Hok3 Hst') as [[? [?|[= ?]]]%first_error_ok _]; done.
Qed.

Lemma idx_step_lookups w w' : idx_step w w' → lookups_same w w'.
Proof.
  intros Hst ns key. unfold kv_lookup. by rewrite (ix_store _ _ Hst) by apply record_id_not_index.
Qed.

Lemma idx_step_kv_step w w' : idx_step w w' → kv_step w w'.
Proof.
  intros [Hdb Hfs Hlog Hl Hs Hh _]. split; try done.
  - rewrite Hdb. by destruct w as [[] ? ? ? ?].
  - exists []. by rewrite Hlog, app_nil_r.
  - by rewrite Hdb.
Qed.

(** What a reset leaves: other namespaces untouched; in the namespace itself
    every value is an old one, gone, or a default. *)
Definition reset_post (defs : list zdb_kv_default_t) (ns : cstring) (w w' : W) : Prop :=
  ∃ w1, purged ns w w1 ∧ seeded (Some ns) defs w1 w'.

Lemma reset_post_other defs ns w w' ns' key :
  reset_post defs ns w w' → ns' ≠ ns → kv_lookup (w_f w') ns' key = kv_lookup (w_f w) ns' key.
Proof.
  intros (w1 & Hp & Hs) Hne. destruct (Hp ns' key) as [<-|[? _]]; [|done].
  destruct (Hs ns' key) as [->|(_ & def & _ & Hd & _)]; [done|].
  unfold default_pair in Hd. destruct (def_namespace_name def), (def_key def); try done.
  case_bool_decide; simpl in Hd; [|done]. congruence.
Qed.

Lemma wp_reset_namespace sl ns fuel c (Q : option zdb_status_t → W → Prop) w :
  LockLive K → KvReadsOk F → kv_env sl w → length ns ≤ CONFIG_ZDB_MAX_KEY_LEN →
  cfg (w_db w) = Some c → Forall default_ok (default [] (kv_defaults c)) →
  kv_ctx_ok (w_db w) → CONFIG_ZDB_KV_INDEX_MAX_ENTRIES < fuel →
  (∀ st w', kv_step w w' → kv_env sl w' → index_kept w w' →
     reset_post (default [] (kv_defaults c)) ns w w' →
     (st = ZDB_OK → ∀ key, (ns, key) ∈ index_pairs (w_db w) →
        kv_lookup (w_f w') ns key = None ∨
        ∃ def, def ∈ default [] (kv_defaults c) ∧ default_pair (Some ns) def = Some (ns, key) ∧
          kv_lookup (w_f w') ns key = Some (take (def_value_len def) (default [] (def_value def)))) →
     Q (Some st) w') →
  wp (zdb_kv_reset_namespace fuel (kv_handle ns)) Q w.
Proof.
  intros Hlive Hr Henv Hns Hc Hdef Hok Hfuel HQ. pose proof Henv as (Hm & Hsl & Hfits).
  unfold zdb_kv_reset_namespace, kv_handle. apply wp_bind, wp_fs_from_db.
  intros [] Hb; [|by apply Hb in Hm]. simpl.
  apply wp_bind, wp_ctx_get_or_alloc; simpl.
  { intros w1 Hst1 Hn Hn1. apply wp_ret, HQ; [by apply idx_step_kv_step| | | |done].
    - eapply kv_env_step; [by apply idx_step_kv_step| |done].
      intros id d Hd Hid. rewrite (ix_store _ _ Hst1) in Hd by done. by eapply Hfits.
    - intros _. unfold kv_ctx_ok, ctx_entries. rewrite Hn1. split; [simpl; lia|constructor].
    - exists w1. split; [|apply seeded_refl]. intros ns' key. left. by apply idx_step_lookups. }
  intros w1 c1 Hst1 Hc1 Hor.
  pose proof (idx_step_kv_step _ _ Hst1) as Hks1.
  assert (kv_env sl w1) as Henv1.
  { eapply kv_env_step; [done| |done].
    intros id d Hd Hid. rewrite (ix_store _ _ Hst1) in Hd by done. by eapply Hfits. }
  assert (kv_ctx_ok (w_db w1)) as Hok1.
  { destruct Hor as [Hc'|[_ ?]]; [|done]. unfold kv_ctx_ok, ctx_entries in *.
    rewrite Hc' in Hok. by rewrite Hc1. }
  pose proof Hok1 as [Hlen1 Hes1].
  apply wp_bind, (wp_reset_loop _ sl); [done..|lia|].
  intros acc w2 Hks2 Henv2 Hix2 Hpur2 Hgone2.
  assert (cfg (w_db w2) = Some c) as Hc2.
  { rewrite (ks_db _ _ Hks2). simpl. by rewrite (ks_db _ _ Hks1). }
  apply wp_bind, (wp_defaults_apply_ns sl _ _ _ c); [done..|].
  intros st w3 Hks3 Henv3 Hix3 Hseed3 _. apply wp_ret, HQ.
  - do 2 (etrans; [eassumption|]). done.
  - done.
  - intros _. by apply Hix3, Hix2.
  - exists w2. split; [|done]. eapply purged_trans; [|done].
    intros ns' key. left. by apply idx_step_lookups.
  - intros [Hacc _]%first_error_ok key Hin. destruct (Hgone2 Hacc) as [_ Hgone].
    assert (kv_lookup (w_f w2) ns key = None) as Hnone.
    { destruct Hor as [Hc'|[Hnone _]]; cycle 1.
      { unfold index_pairs, ctx_entries in Hin. rewrite Hnone in Hin. set_solver. }
      apply list_elem_of_fmap in Hin as (e & Hp & He). unfold pair_of in Hp.
      injection Hp as -> ->. apply Hgone; [done| |done].
      unfold ctx_entries in *. rewrite Hc' in He. by rewrite Hc1. }
    destruct (Hseed3 ns key) as [->|(_ & def & ? & ? & ?)]; [by left|right; eauto].
Qed.

(** ** Strings *)

Lemma memchr_nul_c_string v rest n :
  c_string v → length v < n → memchr_nul (v ++ nul :: rest) n = Some (length v).
Proof.
  revert n. induction v as [|b v IH]; intros n Hv Hn; (destruct n as [|n]; [simpl in Hn; lia|]).
  - done.
  - simpl. rewrite bool_decide_eq_false_2 by (intros ->; apply Hv; by left).
    rewrite IH; [done| |simpl in Hn; lia]. intros Hin. apply Hv. by right.
Qed.

Lemma memchr_nul_Some s n off :
  memchr_nul s n = Some off → off < n ∧ s !! off = Some nul.
Proof.
  revert n off. induction s as [|b s IH]; intros n off; destruct n as [|n]; try done; simpl.
  case_bool_decide as Hb.
  - intros [= <-]. split; [lia|]. by rewrite Hb.
  - intros (off' & Hoff & ->)%fmap_Some_1. apply IH in Hoff as [??]. split; [lia|done].
Qed.

(** The outputs of [zdb_kv_get_str] for a stored string and for any value. *)
Definition str_answer (v : cstring) (buf : list byte) (out : kv_out) : Prop :=
  o_len out = Some (length v) ∧ o_value out = Some (buf_write buf 0 (v ++ [nul])).

Definition terminated (cap : nat) (out : kv_out) : Prop :=
  ∃ buf i, o_value out = Some buf ∧ i < cap ∧ buf !! i = Some nul.

Lemma wp_get_str sl ns key buf cap (Q : zdb_status_t * kv_out → W → Prop) w :
  KvReadsOk F → kv_env sl w → length ns ≤ CONFIG_ZDB_MAX_KEY_LEN →
  zdb_key_valid (Some key) = true → 0 < cap ≤ length buf →
  (∀ st out w', kv_step w w' → same_data w w' → terminated cap out →
     (st = ZDB_ERR_NOMEM ∨ st = ZDB_ERR_BUSY ∨
      st = ZDB_ERR_NOT_FOUND ∧ kv_lookup (w_f w) ns key = None ∨
      st = ZDB_OK ∧ ∃ v, kv_lookup (w_f w) ns key = Some v ∧
        ∀ s, v = s ++ [nul] → c_string s → length s < cap - 1 → str_answer s buf out) →
     Q (st, out) w') →
  wp (zdb_kv_get_str (kv_handle ns) (Some key) (Some buf) cap true) Q w.
Proof.
  intros Hr Henv Hns Hkv Hcap HQ. unfold zdb_kv_get_str.
  rewrite (proj2 (Nat.eqb_neq cap 0)) by lia. simpl orb. cbn iota.
  assert (terminated cap {| o_len := Some 0; o_value := Some (buf_write buf 0 [nul]) |}) as Hterm0.
  { eexists _, 0. split; [done|]. split; [lia|done]. }
  apply wp_bind, (wp_kv_get sl); [by apply kv_env_ready|done|done|..].
  - intros st w1 Hp1 Hd1 Hst%gave_up_status. cbn [fst snd]. 
    rewrite bool_decide_eq_false_2 by (by destruct Hst as [-> | ->]). simpl.
    apply wp_ret, HQ; [by eapply published_step|done|done|]. destruct Hst; auto.
  - intros w1 Hp1 Hd1.
    destruct (kv_lookup (w_f w) ns key) as [v|] eqn:Hv; cbn [get_answer fst snd]; simpl.
    2:{ apply wp_ret, HQ; [by eapply published_step|done|done|]. auto. }
    set (copied := if length v <? cap - 1 then length v else cap - 1).
    assert (copied = length (take (cap - 1) v)) as Hcop.
    { rewrite length_take. unfold copied. destruct (Nat.ltb_spec (length v) (cap - 1)); lia. }
    assert (copied < cap) as Hlt by (rewrite Hcop, length_take; lia).
    set (buf1 := buf_write buf 0 (take (cap - 1) v)).
    assert (length buf1 = length buf) as Hlb.
    { apply length_buf_write. simpl. lia. }
    assert (∀ s, v = s ++ [nul] → c_string s → length s < cap - 1 →
      memchr_nul buf1 copied = Some (length s) ∧ buf1 = buf_write buf 0 (s ++ [nul])) as Hstr.
    { intros s -> Hs Hlen. unfold buf1.
      rewrite (take_ge (s ++ [nul])) in * by (rewrite length_app; simpl; lia).
      split; [|done]. unfold buf_write.
      change (take 0 buf) with (@nil byte). rewrite app_nil_l, <- app_assoc.
      apply (memchr_nul_c_string s _ copied Hs). rewrite Hcop, length_app. simpl. lia. }
    destruct (memchr_nul buf1 copied) as [off|] eqn:Hm.
    + apply wp_ret, HQ; [by eapply published_step|done| |].
      * apply memchr_nul_Some in Hm as [??]. eexists _, off. split; [done|]. split; [lia|done].
      * do 3 right. split; [done|]. exists v. split; [done|].
        intros s Hvs Hs Hlen. destruct (Hstr s Hvs Hs Hlen) as [[= ->] Hb]. split; [done|].
        simpl. by rewrite <- Hb.
    + apply wp_ret, HQ; [by eapply published_step|done| |].
      * exists (buf_write buf1 copied [nul]), copied. split; [done|]. split; [done|].
        unfold buf_write. rewrite lookup_app_r by (rewrite length_take; lia).
        rewrite length_take, Nat.min_l by lia. by rewrite Nat.sub_diag.
      * do 3 right. split; [done|]. exists v. split; [done|].
        intros s Hvs Hs Hlen. by destruct (Hstr s Hvs Hs Hlen) as [? _].
  - intros st w1 _ _ _ _ Hnr. done.
Qed.
End bulk.
