(* ===== verification/KvReload.v ===== *)
(** * The index across a reboot

    What [zdb_kv_index_store] wrote is what [zdb_kv_index_load] rebuilds. *)

From S2P Require Import Prelude Config Env Types Events KvFormat KvIndex KvIndexSpec Kv KvSpec KvBulk.

Section reload.
Context {Cfg : Config} {CfgOk : ConfigOk Cfg} {K F FS : Type}.
Context `{!Kernel K, !KernelLaws K, !KvBackend F, !KvBackendLaws F}.
Abbreviation W := (world K F FS).
Implicit Types w : W.

(** ** The index record *)

Lemma length_index_bytes es : length (index_bytes es) = ZDB_KV_INDEX_HDR_SIZE + 4 * length es.
Proof.
  unfold index_bytes, ZDB_KV_INDEX_HDR_SIZE. rewrite !length_app, length_put_le. simpl.
  do 4 f_equal. induction es as [|e es IH]; [done|].
  cbn [map concat]. rewrite length_app, length_put_le, IH. simpl. lia.
Qed.

Lemma length_concat_put_le (es : list zdb_kv_index_entry) :
  length (concat (map (λ e, put_le 4 (en_id e)) es)) = 4 * length es.
Proof.
  pose proof (length_index_bytes es) as H. unfold index_bytes, ZDB_KV_INDEX_HDR_SIZE in H.
  rewrite !length_app, length_put_le in H. simpl in H. lia.
Qed.

Lemma index_bytes_id es i e :
  es !! i = Some e → (0 ≤ en_id e < 2 ^ 32)%Z →
  get_le 4 (index_bytes es) (ZDB_KV_INDEX_HDR_SIZE + 4 * i) = en_id e.
Proof.
  intros Hi Hid. pose proof (lookup_lt_Some _ _ _ Hi) as Hlt.
  unfold index_bytes. rewrite <- (take_drop_middle es i e Hi), map_app, concat_app.
  cbn [map concat]. rewrite !app_assoc, <- (app_assoc _ (put_le 4 (en_id e))).
  rewrite get_put_le; [by apply Z.mod_small|].
  rewrite take_drop_middle by done.
  rewrite !length_app, length_put_le, length_concat_put_le, length_take. simpl.
  unfold ZDB_KV_INDEX_HDR_SIZE. lia.
Qed.

Lemma index_ids_bytes es :
  length es ≤ CONFIG_ZDB_KV_INDEX_MAX_ENTRIES →
  Forall (λ e, 0 ≤ en_id e < 2 ^ 32)%Z es →
  index_ids (length (index_bytes es)) (index_bytes es) = Some (map en_id es).
Proof.
  intros Hlen Hids. pose proof kv_index_range as [_ Hmax].
  unfold index_ids. rewrite length_index_bytes.
  rewrite (proj2 (Z.ltb_ge _ _)) by lia.
  assert (u8_at (index_bytes es) 0 = ZDB_KV_INDEX_TAG) as -> by done.
  assert (u8_at (index_bytes es) 1 = ZDB_KV_INDEX_VERSION) as -> by done.
  rewrite !Z.eqb_refl. cbn [negb orb].
  assert (get_le 2 (index_bytes es) 2 = length es) as ->.
  { unfold index_bytes. rewrite get_put_le by done. unfold u16.
    rewrite Z.mod_mod by lia. apply Z.mod_small. lia. }
  rewrite Nat2Z.id, (proj2 (Nat.ltb_ge _ _)) by done.
  rewrite (proj2 (Z.ltb_ge _ _)) by lia. f_equal.
  apply list_eq. intros i.
  change (map en_id es) with (en_id <$> es).
  change (map ?f (seq 0 (length es))) with (f <$> seq 0 (length es)).
  rewrite !list_lookup_fmap. destruct (es !! i) as [e|] eqn:Hi; simpl.
  - rewrite lookup_seq_lt by by eapply lookup_lt_Some. simpl. f_equal.
    apply index_bytes_id; [done|]. by eapply (Forall_lookup_1 _ _ _ _ Hids).
  - rewrite lookup_seq_ge by by eapply lookup_ge_None. done.
Qed.

(** ** The entries *)

(** An entry that lists a stored key under its own record id. *)
Definition entry_live (block : nat) (store : gmap Z (list byte)) (e : zdb_kv_index_entry) : Prop :=
  en_namespace_name e ≠ [] ∧ en_key e ≠ [] ∧ entry_ok e ∧
  c_string (en_namespace_name e) ∧ c_string (en_key e) ∧
  en_id e = zdb_kv_record_id (en_namespace_name e) (en_key e) ∧
  ∃ d v, store !! en_id e = Some d ∧ length d ≤ block ∧
    rec_value (en_namespace_name e) (en_key e) d = Some v.

Lemma until_nul_c_string s : c_string s → until_nul s = s.
Proof.
  intros Hs. induction s as [|b s IH]; [done|]. simpl.
  rewrite bool_decide_eq_false_2 by (intros ->; apply Hs; by left).
  f_equal. apply IH. intros Hin. apply Hs. by right.
Qed.

Lemma index_entry_of_live block store e :
  entry_live block store e →
  ∃ d, store !! en_id e = Some d ∧ length d ≤ block ∧
    index_entry_of (en_id e) (length d) d = Some e.
Proof.
  intros (Hns & Hkey & [Hnl Hkl] & Hcn & Hck & Hid & d & v & Hd & Hlen & Hv).
  exists d. split_and!; [done|done|].
  apply rec_value_Some in Hv as (Hn256 & Hk256 & ->). destruct e as [ns key id]. simpl in *.
  unfold index_entry_of, ZDB_KV_REC_HDR_SIZE. cbn [app].
  rewrite !u8_at_S, !u8_at_0, !unsigned_of_Z_small by (unfold ZDB_KV_REC_TAG; lia).
  rewrite !Nat2Z.id, Z.eqb_refl. cbn [length drop negb orb]. rewrite !length_app.
  rewrite (proj2 (Z.ltb_ge _ _)) by lia.
  rewrite (proj2 (Nat.eqb_neq (length ns) 0)) by by destruct ns.
  rewrite (proj2 (Nat.eqb_neq (length key) 0)) by by destruct key.
  rewrite !(proj2 (Nat.ltb_ge _ _)) by done. cbn [orb].
  rewrite (proj2 (Z.ltb_ge _ _)) by lia. f_equal.
  rewrite drop_0, take_app_length.
  change (drop (3 + length ns) _) with (drop (length ns) (ns ++ key ++ v)).
  rewrite drop_app_length, take_app_length. by rewrite !until_nul_c_string.
Qed.

Lemma wp_index_load_loop_live db block es pruned (Q : bool → W → Prop) w c :
  KvReadsOk F → kv_mounted (w_db w) → kv_ctx (w_db w) = Some c →
  Forall (entry_live block (kvb_store (w_f w))) es →
  (∀ w' c', idx_step w w' → kvb_store (w_f w') = kvb_store (w_f w) →
     kv_ctx (w_db w') = Some c' → entries c' = entries c ++ es → Q pruned w') →
  wp (index_load_loop db block (map en_id es) pruned) Q w.
Proof.
  intros Hr. revert w c. induction es as [|e es IH]; intros w c Hm Hc Hes HQ.
  { apply wp_ret. eapply HQ; [done|done|exact Hc|by rewrite app_nil_r]. }
  apply Forall_cons in Hes as [He Hes].
  destruct (index_entry_of_live _ _ _ He) as (d & Hd & Hlen & Hent).
  assert (backend_id (en_id e) = en_id e) as Hbid.
  { destruct He as (_ & _ & _ & _ & _ & -> & _). apply backend_id_record. }
  simpl. apply wp_bind, wp_backend_read; rewrite ?Hbid.
  - intros d' f' Hd' Hf'. cbn [fst snd]. rewrite Hd in Hd'. injection Hd' as <-.
    rewrite take_ge by done. rewrite Hent. apply wp_bind, wp_db_set.
    eapply IH; [done|simpl; by rewrite Hc| |].
    { simpl. by rewrite Hf'. }
    intros w' c' Hst Hs Hc' Hes'. eapply HQ.
    + etrans; [|exact Hst]. etrans; [|apply idx_step_ctx]. apply idx_step_f. intros. by rewrite Hf'.
    + rewrite Hs. exact Hf'.
    + exact Hc'.
    + rewrite Hes'. simpl. by rewrite <- app_assoc.
  - intros b f' Habs. congruence.
  - intros z b f' _ _ _ Hno. by destruct (Hno Hm).
Qed.

(** First use after a reboot, with the index record and every record it lists
    in place: the index is the one that was stored. *)
Lemma wp_reload slab_blocks sl es (Q : bool → W → Prop) w :
  KvReadsOk F → SlabLive K slab_blocks → kv_env sl w →
  CONFIG_ZDB_KV_PERSIST_INDEX = true →
  slab_used (w_k w) (slab_name sl) < slab_blocks (slab_name sl) →
  kv_ctx (w_db w) = None →
  kvb_store (w_f w) !! ZDB_KV_INDEX_REC_ID = Some (index_bytes es) →
  length es ≤ CONFIG_ZDB_KV_INDEX_MAX_ENTRIES →
  Forall (entry_live (slab_block_size sl) (kvb_store (w_f w))) es →
  (∀ w', kv_ctx (w_db w') = None → Q false w') →
  (∀ w', idx_step w w' → kvb_store (w_f w') = kvb_store (w_f w) →
     ctx_entries (w_db w') = es → Q true w') →
  wp (zdb_kv_ctx_get_or_alloc (Some the_db)) Q w.
Proof.
  intros Hr Hlive (Hm & Hsl & Hfits) HP Hfree Hc Hidx Hlen Hes Hnone HQ.
  unfold zdb_kv_ctx_get_or_alloc. apply wp_bind, wp_db_get. rewrite Hc.
  apply wp_bind, wp_on_k. intros ok k' Hal.
  pose proof (k_malloc_law sizeof_zdb_kv_ctx (w_k w)) as (Hl & Hs & Hh).
  rewrite Hal in Hl, Hs, Hh. simpl in Hl, Hs, Hh. destruct ok; simpl.
  2:{ by apply wp_ret, Hnone. }
  apply wp_bind, wp_db_set. set (w1 := _ <| w_db := _ |>).
  assert (idx_step w w1) as Hst1.
  { split; try done; simpl. unfold ctx_blocks. simpl. rewrite Hc. lia. }
  rewrite HP. apply wp_bind. unfold zdb_kv_index_load. apply wp_bind, wp_fs_from_db.
  intros [] Hb; [|by apply Hb in Hm]. simpl.
  apply wp_bind, wp_backend_read; rewrite ?backend_id_index; cycle 1.
  { intros b f' Habs. simpl in Habs. congruence. }
  { intros z b f' _ _ _ Hno. by destruct (Hno Hm). }
  intros d f' Hd Hf'. simpl in Hd, Hf'. rewrite Hidx in Hd. injection Hd as <-. cbn [fst snd].
  rewrite take_ge by (rewrite length_index_bytes; unfold ZDB_KV_INDEX_MAX_BYTES; lia).
  rewrite index_ids_bytes; [|done|].
  2:{ eapply Forall_impl; [exact Hes|]. intros e (_ & _ & _ & _ & _ & -> & _).
      pose proof (record_id_range (en_namespace_name e) (en_key e)) as (? & _ & ?).
      destruct CONFIG_ZDB_KV_BACKEND_ZMS; lia. }
  apply wp_bind, wp_db_get. simpl. rewrite Hsl.
  apply wp_bind, wp_on_k. intros rc k2 Hal2. simpl in Hal2.
  assert (rc = 0%Z) as ->.
  { pose proof (Hlive sl k') as Hrc. rewrite Hal2 in Hrc. apply Hrc. by rewrite Hs. }
  pose proof (k_mem_slab_alloc_law sl k') as (Hl2 & Hh2 & Hs2).
  rewrite Hal2 in Hl2, Hh2, Hs2. simpl in Hl2, Hh2, Hs2. simpl.
  apply wp_bind. eapply wp_index_load_loop_live; [done|done|done| |].
  { simpl. by rewrite Hf'. }
  intros w3 c3 Hst3 Hs3 Hc3 Hes3. simpl in Hs3. rewrite Hf' in Hs3.
  apply wp_bind, wp_on_k_, wp_ret, wp_bind, wp_db_set, wp_ret, HQ; simpl.
  - pose proof (k_mem_slab_free_law sl (w_k w3)) as (Hl4 & Hh4 & Hs4).
    destruct Hst3 as [Adb Afs Alog Al As Ah Ast]. simpl in *.
    split; simpl.
    + rewrite Adb. done.
    + done.
    + done.
    + by rewrite Hl4, Al, Hl2.
    + intros s. rewrite Hs4, !As, !Hs2, Hs. repeat case_decide; first [done|tauto].
    + rewrite Hh4. unfold ctx_blocks in *. simpl in *. rewrite Hc3 in *. rewrite Hc. simpl. lia.
    + intros i Hi. by rewrite Hs3.
  - exact Hs3.
  - unfold ctx_entries. simpl. by rewrite Hc3.
Qed.
End reload.
