(* ===== verification/Core.v ===== *)
(** * Instance lifecycle and telemetry ([zephyrdb_core.c])

    [zdb_init] and [zdb_deinit], and the durability counters with their
    exportable form: [zdb_ts_stats_export] fills the packed structure and
    protects it with a CRC, [zdb_ts_stats_export_validate] checks one. *)

From S2P Require Import Prelude Config Env Types Events Kv.

Section core.
Context {Cfg : Config} {K F FS : Type} `{!Kernel K, !KvBackend F}.
Abbreviation W := (world K F FS).

(** ** Lifecycle *)

(** Binding the listeners of the configuration. *)
Definition bind_listeners (cfg : zdb_cfg_t) (d : zdb_t) : zdb_t :=
  let d := d <| event_listeners := cfg_event_listeners cfg |> in
  let d := if CONFIG_ZDB_TS then d <| ts_event_listeners := cfg_ts_event_listeners cfg |> else d in
  let d := if CONFIG_ZDB_DOC then d <| doc_event_listeners := cfg_doc_event_listeners cfg |>
           else d in
  d <| core_event_listeners := cfg_core_event_listeners cfg |>
    <| health_prev := ZDB_HEALTH_OK |> <| health_event_pending := false |>.

Definition zdb_init (db : db_ptr) (cfg' : option zdb_cfg_t) : M W zdb_status_t :=
  match db, cfg' with
  | Some _, Some c =>
      core ← db_get core_slab;
      cursor ← db_get cursor_slab;
      match core, cursor with
      | Some _, Some _ =>
          on_k_ k_mutex_init;;
          db_set (λ d, d <| cfg := Some c |> <| kv_ctx := None |> <| ts_ctx := None |>
                         <| ts_stats := zero_stats |> <| health := ZDB_HEALTH_OK |>);;
          (if CONFIG_ZDB_EVENTING then db_set (bind_listeners c) else ret tt);;
          defaults_rc ←
            (if CONFIG_ZDB_KV then
               if (0 <? length (default [] (kv_defaults c))) && kv_backend_fs c
               then zdb_kv_defaults_apply_ns db None
               else ret ZDB_OK
             else ret ZDB_OK);
          h ← db_get health;
          if negb (bool_decide (defaults_rc = ZDB_OK)) then
            (if CONFIG_ZDB_EVENTING
             then zdb_emit_core_event db ZDB_CORE_EVENT_INIT h h defaults_rc else ret tt);;
            ret defaults_rc
          else
            (if CONFIG_ZDB_EVENTING
             then zdb_emit_core_event db ZDB_CORE_EVENT_INIT h h ZDB_OK else ret tt);;
            ret ZDB_OK
      | _, _ => ret ZDB_ERR_INVAL
      end
  | _, _ => ret ZDB_ERR_INVAL
  end.

(** Returning the ingest buffer of every slot that has one. *)
Fixpoint free_ingest_bufs (slab : option k_mem_slab) (slots : list zdb_ts_stream_ctx) : M W unit :=
  match slots with
  | [] => ret tt
  | slot :: rest =>
      (match slab, ingest_buf slot with
       | Some sl, Some _ => on_k_ (k_mem_slab_free sl)
       | _, _ => ret tt
       end);;
      free_ingest_bufs slab rest
  end.

Definition unbind_listeners (d : zdb_t) : zdb_t :=
  let d := d <| event_listeners := None |> in
  let d := if CONFIG_ZDB_TS then d <| ts_event_listeners := None |> else d in
  let d := if CONFIG_ZDB_DOC then d <| doc_event_listeners := None |> else d in
  d <| core_event_listeners := None |> <| health_event_pending := false |>.

Definition zdb_deinit (db : db_ptr) : M W zdb_status_t :=
  match db with
  | None => ret ZDB_ERR_INVAL
  | Some _ =>
      kv ← db_get kv_ctx;
      (match kv with Some _ => on_k_ k_free | None => ret tt end);;
      (if CONFIG_ZDB_TS then
         slab ← db_get core_slab;
         ts ← db_get ts_ctx;
         match slab, ts with
         | Some sl, Some ctx =>
             on_k_ k_work_cancel_sync;;
             ingest ← db_get ts_ingest_slab;
             free_ingest_bufs ingest (streams ctx);;
             on_k_ (k_mem_slab_free sl)
         | _, _ => ret tt
         end
       else ret tt);;
      h ← db_get health;
      (if CONFIG_ZDB_EVENTING
       then zdb_emit_core_event db ZDB_CORE_EVENT_DEINIT h h ZDB_OK else ret tt);;
      db_set (λ d, d <| cfg := None |> <| kv_ctx := None |> <| ts_ctx := None |>);;
      (if CONFIG_ZDB_EVENTING then db_set unbind_listeners else ret tt);;
      ret ZDB_OK
  end.

(** ** Durability counters *)

(** [out] is what [*out_stats] holds before the call. *)
Definition zdb_ts_stats_get (db : db_ptr) (out : option zdb_ts_stats_t)
    : M W (option zdb_ts_stats_t) :=
  match db, out with
  | Some _, Some _ => s ← db_get ts_stats; ret (Some s)
  | _, _ => ret out
  end.

Definition zdb_ts_stats_reset (db : db_ptr) : M W unit :=
  match db with
  | None => ret tt
  | Some _ => db_set (λ d, d <| ts_stats := zero_stats |>)
  end.
End core.

Section export.
Context `{!Crc32}.

(** The packed structure in memory, little-endian. *)
Definition export_bytes (e : zdb_ts_stats_export_t) : list byte :=
  put_le 2 (ex_version e) ++ put_le 2 (ex_reserved e) ++ put_le 4 (ex_crc e) ++
  put_le 4 (ex_recover_runs e) ++ put_le 4 (ex_recover_failures e) ++
  put_le 8 (ex_recover_truncated_bytes e) ++ put_le 4 (ex_crc_failures e) ++
  put_le 4 (ex_corrupt_records e) ++ put_le 4 (ex_unsupported_versions e).

Definition zdb_ts_stats_export_crc (e : zdb_ts_stats_export_t) : Z :=
  let bytes := export_bytes e in
  let crc_off := 4 in
  let tail_off := crc_off + 4 in
  let crc := crc32_ieee_update 0 (take crc_off bytes) in
  crc32_ieee_update crc (take (length bytes - tail_off) (drop tail_off bytes)).

(** The status, and what [*out_export] holds after the call. *)
Definition zdb_ts_stats_export {K F FS} (db : db_ptr) (out : option zdb_ts_stats_export_t)
    : M (world K F FS) (zdb_status_t * option zdb_ts_stats_export_t) :=
  match db, out with
  | Some _, Some o =>
      s ← db_get ts_stats;
      let e := {| ex_version := 1; ex_reserved := 0; ex_crc := ex_crc o;
                  ex_recover_runs := recover_runs s;
                  ex_recover_failures := recover_failures s;
                  ex_recover_truncated_bytes := recover_truncated_bytes s;
                  ex_crc_failures := crc_failures s;
                  ex_corrupt_records := corrupt_records s;
                  ex_unsupported_versions := unsupported_versions s |} in
      ret (ZDB_OK, Some (e <| ex_crc := zdb_ts_stats_export_crc e |>))
  | _, _ => ret (ZDB_ERR_INVAL, out)
  end.

Definition zdb_ts_stats_export_validate (export : option zdb_ts_stats_export_t) : zdb_status_t :=
  match export with
  | None => ZDB_ERR_INVAL
  | Some e =>
      let expect_crc := zdb_ts_stats_export_crc e in
      let got_crc := ex_crc e in
      if negb (got_crc =? expect_crc)%Z then ZDB_ERR_CORRUPT
      else if negb (ex_version e =? 1)%Z then ZDB_ERR_UNSUPPORTED
      else ZDB_OK
  end.
End export.
