(* ===== verification/FsSpec.v ===== *)
(** * Rules for file-system calls

    The laws of [FileSysLaws] as weakest-precondition rules over the contents
    [files] of a world. *)

From S2P Require Import Prelude Config Env Types FsEnv.

Section spec.
Context {K F FS FH DH : Type} `{!FileSys FS FH DH, !FileSysLaws FS FH DH}.
Abbreviation W := (world K F FS).
Implicit Types w : W.

Definition files (w : W) : gmap (list byte) (list byte) := fs_files (w_fs w).

(** An open file: which file, how it was opened, and the position. *)
Record at_pos (fh : FH) (p : list byte) (fl : fs_flags) (pos : nat) : Prop := {
  ap_path : fh_path fh = p;
  ap_flags : fh_flags fh = fl;
  ap_pos : fh_pos fh = pos;
}.

(** What an open with [fl] finds or makes of a file with contents [old]. *)
Definition opened (fl : fs_flags) (old : option (list byte)) : option (list byte) :=
  match old with
  | Some d => Some (if fs_o_trunc fl then [] else d)
  | None => if fs_o_create fl then Some [] else None
  end.

Lemma wp_fs_open fh p fl (Q : Z * FH → W → Prop) w :
  (∀ rc fh' fs', (rc < 0)%Z → fs_files fs' = files w →
     (rc = (- ENOENT)%Z → files w !! p = None) → Q (rc, fh') (w <| w_fs := fs' |>)) →
  (∀ fh' fs' d, at_pos fh' p fl 0 →
     opened fl (files w !! p) = Some d → fs_files fs' = <[p := d]> (files w) →
     Q (0%Z, fh') (w <| w_fs := fs' |>)) →
  wp (on_fs (fs_open fh p fl)) Q w.
Proof.
  intros Hbad Hok. apply wp_on_fs. intros [rc fh'] fs' Heq.
  pose proof (fs_open_law fh p fl (w_fs w)) as Hl. rewrite Heq in Hl. simpl in Hl.
  destruct Hl as [(? & ? & ?)|(-> & ? & ? & ? & [(d & Hd & Hf)|(Hn & Hc & Hf)])];
    [by apply Hbad|..]; unfold files in *.
  - apply (Hok _ _ (if fs_o_trunc fl then [] else d)); [by split|by rewrite Hd|].
    rewrite Hf. destruct (fs_o_trunc fl); [done|]. by rewrite insert_id.
  - apply (Hok _ _ []); [by split| |done]. rewrite Hn. unfold opened. by rewrite Hc.
Qed.

Lemma wp_fs_close fh (Q : Z → W → Prop) w :
  (∀ fs', fs_files fs' = files w → Q 0%Z (w <| w_fs := fs' |>)) →
  (∀ rc fs', (rc < 0)%Z → files_but (fh_path fh) (w_fs w) fs' →
     (fs_o_write (fh_flags fh) = false → fs_files fs' = files w) → Q rc (w <| w_fs := fs' |>)) →
  wp (on_fs (fs_close fh)) Q w.
Proof.
  intros Hok Hbad. apply wp_on_fs. intros rc fs' Heq.
  pose proof (fs_close_law fh (w_fs w)) as Hl. rewrite Heq in Hl. simpl in Hl.
  destruct Hl as [[-> ?]|(? & ? & ?)]; [by apply Hok|by apply Hbad].
Qed.

Lemma wp_fs_read fh p fl pos d n (Q : Z * list byte * FH → W → Prop) w :
  at_pos fh p fl pos → files w !! p = Some d →
  (∀ rc data fh' fs', (rc < 0)%Z → fs_files fs' = files w → fh_path fh' = p → fh_flags fh' = fl →
     Q (rc, data, fh') (w <| w_fs := fs' |>)) →
  (∀ fh' fs', fs_files fs' = files w →
     at_pos fh' p fl (pos + length (take n (drop pos d))) →
     Q (Z.of_nat (length (take n (drop pos d))), take n (drop pos d), fh')
       (w <| w_fs := fs' |>)) →
  wp (on_fs (fs_read fh n)) Q w.
Proof.
  intros [Hp Hfl Hpos] Hd Hbad Hok. apply wp_on_fs. intros [[rc data] fh'] fs' Heq.
  pose proof (fs_read_law fh n (w_fs w)) as Hl. rewrite Heq in Hl. cbv zeta in Hl. cbn [fst snd] in Hl.
  destruct Hl as (Hf & Hp' & Ha & [Hrc|(d' & Hd' & Hr & Hpos')]).
  - apply Hbad; unfold files in *; congruence.
  - unfold files in Hd. rewrite Hp in Hd'. rewrite Hd in Hd'. injection Hd' as <-.
    rewrite Hpos in Hr, Hpos'. injection Hr as -> ->. apply Hok; [done|split; congruence].
Qed.

Lemma wp_fs_write fh p fl pos d data (Q : Z * FH → W → Prop) w :
  at_pos fh p fl pos → files w !! p = Some d →
  (∀ rc fh' fs' k, k ≤ length data → (rc < 0)%Z ∨ rc = Z.of_nat k →
     fs_files fs' = <[p := file_write d (if fs_o_append fl then length d else pos) (take k data)]> (files w) →
     fh_path fh' = p → fh_flags fh' = fl →
     Q (rc, fh') (w <| w_fs := fs' |>)) →
  wp (on_fs (fs_write fh data)) Q w.
Proof.
  intros [Hp Hfl Hpos] Hd HQ. apply wp_on_fs. intros [rc fh'] fs' Heq.
  pose proof (fs_write_law fh data (w_fs w)) as Hl. rewrite Heq in Hl. cbv zeta in Hl. cbn [fst snd] in Hl.
  destruct Hl as (Hbut & Hp' & Ha & Hwr). rewrite Hp, Hfl in *.
  destruct (Hwr d Hd) as (k & Hk & Hf & Hrc). rewrite Hpos in *.
  apply (HQ _ _ _ k); [done|destruct Hrc as [?|[? _]]; auto| |congruence|congruence].
  apply map_eq. intros q. destruct (decide (q = p)) as [->|Hq].
  - by rewrite lookup_insert_eq.
  - rewrite lookup_insert_ne by done. by apply Hbut.
Qed.

Lemma wp_fs_seek_set fh off (Q : Z * FH → W → Prop) w :
  (∀ rc fh' fs', (rc < 0)%Z → fs_files fs' = files w → fh_path fh' = fh_path fh → fh_flags fh' = fh_flags fh →
     Q (rc, fh') (w <| w_fs := fs' |>)) →
  (∀ fh' fs' pos, Z.of_nat pos = off → fs_files fs' = files w →
     at_pos fh' (fh_path fh) (fh_flags fh) pos →
     Q (0%Z, fh') (w <| w_fs := fs' |>)) →
  wp (on_fs (fs_seek_set fh off)) Q w.
Proof.
  intros Hbad Hok. apply wp_on_fs. intros [rc fh'] fs' Heq.
  pose proof (fs_seek_set_law fh off (w_fs w)) as Hl. rewrite Heq in Hl. simpl in Hl.
  destruct Hl as (Hf & Hp & Ha & [Hrc|[-> Hpos]]); [by apply Hbad|].
  by apply (Hok _ _ (fh_pos fh')).
Qed.

Lemma wp_fs_seek_end fh p d (Q : Z * FH → W → Prop) w :
  fh_path fh = p → files w !! p = Some d →
  (∀ rc fh' fs', (rc < 0)%Z → fs_files fs' = files w → fh_path fh' = p → fh_flags fh' = fh_flags fh →
     Q (rc, fh') (w <| w_fs := fs' |>)) →
  (∀ fh' fs', fs_files fs' = files w → at_pos fh' p (fh_flags fh) (length d) → Q (0%Z, fh') (w <| w_fs := fs' |>)) →
  wp (on_fs (fs_seek_end fh)) Q w.
Proof.
  intros Hp Hd Hbad Hok. apply wp_on_fs. intros [rc fh'] fs' Heq.
  pose proof (fs_seek_end_law fh (w_fs w)) as Hl. rewrite Heq in Hl. simpl in Hl.
  destruct Hl as (Hf & Hp' & Ha & [Hrc|(-> & d' & Hd' & Hpos)]); [apply Hbad; unfold files in *; congruence|].
  unfold files in Hd. rewrite Hp, Hd in Hd'. injection Hd' as <-. apply Hok; [done|]. by split; congruence.
Qed.

Lemma wp_fs_tell fh p fl pos (Q : Z → W → Prop) w :
  at_pos fh p fl pos →
  (∀ rc fs', (rc < 0)%Z → fs_files fs' = files w → Q rc (w <| w_fs := fs' |>)) →
  (∀ fs', fs_files fs' = files w → Q (Z.of_nat pos) (w <| w_fs := fs' |>)) →
  wp (on_fs (fs_tell fh)) Q w.
Proof.
  intros [_ _ Hpos] Hbad Hok. apply wp_on_fs. intros rc fs' Heq.
  pose proof (fs_tell_law fh (w_fs w)) as Hl. rewrite Heq in Hl. simpl in Hl.
  destruct Hl as (Hf & [Hrc| ->]); [by apply Hbad|]. rewrite Hpos. by apply Hok.
Qed.

Lemma wp_fs_truncate fh p d n (Q : Z → W → Prop) w :
  fh_path fh = p → files w !! p = Some d → n ≤ length d →
  (∀ rc fs', (rc < 0)%Z → fs_files fs' = files w → Q rc (w <| w_fs := fs' |>)) →
  (∀ fs', fs_files fs' = <[p := take n d]> (files w) → Q 0%Z (w <| w_fs := fs' |>)) →
  wp (on_fs (fs_truncate fh n)) Q w.
Proof.
  intros Hp Hd Hn Hbad Hok. apply wp_on_fs. intros rc fs' Heq.
  pose proof (fs_truncate_law fh n (w_fs w)) as Hl. rewrite Heq in Hl. simpl in Hl.
  destruct Hl as [[Hrc Hf]|(-> & d' & Hd' & Hf)]; [by apply Hbad|].
  unfold files in *. rewrite Hp, Hd in Hd'. injection Hd' as <-. apply Hok. rewrite Hf, Hp.
  by rewrite take_app_le.
Qed.

Lemma wp_fs_unlink p (Q : Z → W → Prop) w :
  (∀ rc fs', (rc < 0)%Z → fs_files fs' = files w →
     (rc = (- ENOENT)%Z → files w !! p = None) → Q rc (w <| w_fs := fs' |>)) →
  (∀ fs', fs_files fs' = delete p (files w) → Q 0%Z (w <| w_fs := fs' |>)) →
  wp (on_fs (fs_unlink p)) Q w.
Proof.
  intros Hbad Hok. apply wp_on_fs. intros rc fs' Heq.
  pose proof (fs_unlink_law p (w_fs w)) as Hl. rewrite Heq in Hl. simpl in Hl.
  destruct Hl as [(? & ? & ?)|[-> ?]]; [by apply Hbad|by apply Hok].
Qed.

Lemma wp_fs_rename p q (Q : Z → W → Prop) w :
  (∀ rc fs', (rc < 0)%Z → fs_files fs' = files w → Q rc (w <| w_fs := fs' |>)) →
  (∀ fs' d, files w !! p = Some d → fs_files fs' = <[q := d]> (delete p (files w)) →
     Q 0%Z (w <| w_fs := fs' |>)) →
  wp (on_fs (fs_rename p q)) Q w.
Proof.
  intros Hbad Hok. apply wp_on_fs. intros rc fs' Heq.
  pose proof (fs_rename_law p q (w_fs w)) as Hl. rewrite Heq in Hl. simpl in Hl.
  destruct Hl as [(? & ?)|(-> & d & ? & ?)]; [by apply Hbad|by eapply Hok].
Qed.

Lemma wp_fs_stat p (Q : Z * fs_dirent → W → Prop) w :
  (∀ rc e fs', (rc < 0)%Z → fs_files fs' = files w →
     (rc = (- ENOENT)%Z → files w !! p = None) → Q (rc, e) (w <| w_fs := fs' |>)) →
  (∀ e fs', fs_files fs' = files w →
     (∀ d, files w !! p = Some d → de_size e = length d) → Q (0%Z, e) (w <| w_fs := fs' |>)) →
  wp (on_fs (fs_stat p)) Q w.
Proof.
  intros Hbad Hok. apply wp_on_fs. intros [rc e] fs' Heq.
  pose proof (fs_stat_law p (w_fs w)) as Hl. rewrite Heq in Hl. simpl in Hl.
  destruct Hl as (? & [[? ?]|[-> ?]]); [by apply Hbad|by apply Hok].
Qed.

Lemma wp_fs_mkdir p (Q : Z → W → Prop) w :
  (∀ rc fs', fs_files fs' = files w → Q rc (w <| w_fs := fs' |>)) → wp (on_fs (fs_mkdir p)) Q w.
Proof.
  intros HQ. apply wp_on_fs. intros rc fs' Heq.
  pose proof (fs_mkdir_law p (w_fs w)) as [Hl _]. rewrite Heq in Hl. by apply HQ.
Qed.

(** Closing a handle that was not opened for writing, and any close on a volume
    where none fails. *)
Lemma wp_fs_close_read fh (Q : Z → W → Prop) w :
  fs_o_write (fh_flags fh) = false →
  (∀ rc fs', fs_files fs' = files w → Q rc (w <| w_fs := fs' |>)) →
  wp (on_fs (fs_close fh)) Q w.
Proof. intros Hfl HQ. apply wp_fs_close; intros; apply HQ; auto. Qed.

Lemma wp_fs_close_ok fh (Q : Z → W → Prop) w :
  FsCloseOk FS FH DH →
  (∀ fs', fs_files fs' = files w → Q 0%Z (w <| w_fs := fs' |>)) →
  wp (on_fs (fs_close fh)) Q w.
Proof.
  intros Hc HQ. apply wp_on_fs. intros rc fs' Heq.
  pose proof (Hc fh (w_fs w)) as Hrc. pose proof (fs_close_law fh (w_fs w)) as Hl.
  rewrite Heq in Hrc, Hl. simpl in *. subst rc. destruct Hl as [[_ ?]|[? _]]; [by apply HQ|lia].
Qed.

(** *** Reading on a volume where it does not fail *)

Section live.
Context {Live : FsLive FS FH DH}.

Lemma wp_live_open fh p fl d (Q : Z * FH → W → Prop) w :
  files w !! p = Some d → fs_o_trunc fl = false →
  (∀ fh' fs', at_pos fh' p fl 0 → fs_files fs' = files w → Q (0%Z, fh') (w <| w_fs := fs' |>)) →
  wp (on_fs (fs_open fh p fl)) Q w.
Proof.
  intros Hd Ht HQ. apply wp_on_fs. intros [rc fh'] fs' Heq.
  pose proof (live_open fh p fl (w_fs w) (ex_intro _ d Hd)) as Hrc.
  pose proof (fs_open_law fh p fl (w_fs w)) as Hl. rewrite Heq in Hl, Hrc. cbn [fst snd] in *.
  destruct Hl as [(? & _)|(-> & ? & ? & ? & [(d' & Hd' & Hf)|(Hn & _)])]; [lia| |].
  - apply HQ; [by split|]. by rewrite Hf, Ht.
  - unfold files in Hd. congruence.
Qed.

Lemma wp_live_read fh p fl pos d n (Q : Z * list byte * FH → W → Prop) w :
  at_pos fh p fl pos → files w !! p = Some d →
  (∀ fh' fs', fs_files fs' = files w → at_pos fh' p fl (pos + length (take n (drop pos d))) →
     Q (Z.of_nat (length (take n (drop pos d))), take n (drop pos d), fh') (w <| w_fs := fs' |>)) →
  wp (on_fs (fs_read fh n)) Q w.
Proof.
  intros [Hp Hfl Hpos] Hd HQ. apply wp_on_fs. intros [[rc data] fh'] fs' Heq.
  unfold files in Hd. rewrite <- Hp in Hd.
  pose proof (live_read fh n (w_fs w) (ex_intro _ d Hd)) as Hrc.
  pose proof (fs_read_law fh n (w_fs w)) as Hl. rewrite Heq in Hl, Hrc. cbv zeta in Hl. cbn [fst snd] in *.
  destruct Hl as (Hf & Hp' & Ha & [?|(d' & Hd' & Hr & Hpos')]); [lia|].
  rewrite Hd in Hd'. injection Hd' as <-. rewrite Hpos in Hr, Hpos'. injection Hr as -> ->.
  apply HQ; [done|split; congruence].
Qed.

Lemma wp_live_seek fh p fl pos off (Q : Z * FH → W → Prop) w :
  at_pos fh p fl pos → (0 ≤ off)%Z →
  (∀ fh' fs', fs_files fs' = files w → at_pos fh' p fl (Z.to_nat off) →
     Q (0%Z, fh') (w <| w_fs := fs' |>)) →
  wp (on_fs (fs_seek_set fh off)) Q w.
Proof.
  intros [Hp Hfl _] Hoff HQ. apply wp_on_fs. intros [rc fh'] fs' Heq.
  pose proof (live_seek_set fh off (w_fs w) Hoff) as Hrc.
  pose proof (fs_seek_set_law fh off (w_fs w)) as Hl. rewrite Heq in Hl, Hrc. cbn [fst snd] in *.
  destruct Hl as (Hf & Hp' & Ha & [?|[-> Hpos]]); [lia|].
  apply HQ; [done|]. split; [congruence|congruence|lia].
Qed.

Lemma wp_live_seek_end fh p fl pos d (Q : Z * FH → W → Prop) w :
  at_pos fh p fl pos → files w !! p = Some d →
  (∀ fh' fs', fs_files fs' = files w → at_pos fh' p fl (length d) →
     Q (0%Z, fh') (w <| w_fs := fs' |>)) →
  wp (on_fs (fs_seek_end fh)) Q w.
Proof.
  intros [Hp Hfl _] Hd HQ. apply wp_on_fs. intros [rc fh'] fs' Heq.
  unfold files in Hd. rewrite <- Hp in Hd.
  pose proof (live_seek_end fh (w_fs w) (ex_intro _ d Hd)) as Hrc.
  pose proof (fs_seek_end_law fh (w_fs w)) as Hl. rewrite Heq in Hl, Hrc. cbn [fst snd] in *.
  destruct Hl as (Hf & Hp' & Ha & [?|(-> & d' & Hd' & Hpos)]); [lia|].
  rewrite Hd in Hd'. injection Hd' as <-. apply HQ; [done|split; congruence].
Qed.

Lemma wp_live_tell fh p fl pos (Q : Z → W → Prop) w :
  at_pos fh p fl pos → (∀ fs', fs_files fs' = files w → Q (Z.of_nat pos) (w <| w_fs := fs' |>)) →
  wp (on_fs (fs_tell fh)) Q w.
Proof.
  intros Hap HQ. apply wp_on_fs. intros rc fs' Heq. pose proof (live_tell fh (w_fs w)) as Hrc.
  pose proof (fs_tell_law fh (w_fs w)) as Hl. rewrite Heq in Hl, Hrc. cbn [fst snd] in *.
  destruct Hl as (Hf & [?| ->]); [lia|]. rewrite (ap_pos _ _ _ _ Hap). by apply HQ.
Qed.

Lemma wp_live_stat p d (Q : Z * fs_dirent → W → Prop) w :
  files w !! p = Some d →
  (∀ e fs', fs_files fs' = files w → de_size e = length d → Q (0%Z, e) (w <| w_fs := fs' |>)) →
  wp (on_fs (fs_stat p)) Q w.
Proof.
  intros Hd HQ. apply wp_on_fs. intros [rc e] fs' Heq.
  pose proof (live_stat p (w_fs w) (ex_intro _ d Hd)) as Hrc.
  pose proof (fs_stat_law p (w_fs w)) as Hl. rewrite Heq in Hl, Hrc. cbn [fst snd] in *.
  destruct Hl as (? & [[? _]|[-> Hsz]]); [lia|]. apply HQ; [done|by apply Hsz].
Qed.
End live.

(** *** Writing *)

Lemma file_write_end d data : file_write d (length d) data = d ++ data.
Proof.
  unfold file_write. rewrite Nat.sub_diag. simpl. rewrite app_nil_r, take_ge by lia.
  by rewrite drop_ge, app_nil_r by lia.
Qed.

Lemma file_write_empty data : file_write [] 0 data = data.
Proof. unfold file_write. simpl. by rewrite drop_nil, app_nil_r. Qed.
(** Writing at the end of a file: some prefix of the data, or all of it. *)
Lemma wp_fs_append fh p fl d data (Q : Z * FH → W → Prop) w :
  at_pos fh p fl (length d) → files w !! p = Some d →
  (∀ rc fh' fs' k, rc ≠ Z.of_nat (length data) → fs_files fs' = <[p := d ++ take k data]> (files w) →
     fh_path fh' = p → fh_flags fh' = fl → ¬ FsRoom FS FH DH → Q (rc, fh') (w <| w_fs := fs' |>)) →
  (∀ fh' fs', fs_files fs' = <[p := d ++ data]> (files w) → at_pos fh' p fl (length (d ++ data)) →
     Q (Z.of_nat (length data), fh') (w <| w_fs := fs' |>)) →
  wp (on_fs (fs_write fh data)) Q w.
Proof.
  intros [Hp Hfl Hpos] Hd Hbad Hok. apply wp_on_fs. intros [rc fh'] fs' Heq.
  assert (FsRoom FS FH DH → rc = Z.of_nat (length data)) as Hroom.
  { intros Hr. pose proof (room_write fh data (w_fs w)) as H. rewrite Heq in H. apply H.
    rewrite Hp. by eexists. }
  pose proof (fs_write_law fh data (w_fs w)) as Hl. rewrite Heq in Hl. cbv zeta in Hl. cbn [fst snd] in Hl.
  destruct Hl as (Hbut & Hp' & Ha & Hwr). rewrite Hp, Hfl in *.
  destruct (Hwr d Hd) as (k & Hk & Hf & Hrc). rewrite Hpos in *.
  replace (if fs_o_append fl then length d else length d) with (length d) in * by (by destruct (fs_o_append fl)).
  rewrite file_write_end in Hf.
  assert (fs_files fs' = <[p := d ++ take k data]> (files w)) as Hfs.
  { apply map_eq. intros q. destruct (decide (q = p)) as [->|Hq]; [by rewrite lookup_insert_eq|].
    rewrite lookup_insert_ne by done. by apply Hbut. }
  destruct (decide (rc = Z.of_nat (length data))) as [->|Hne].
  - destruct Hrc as [?|[Heqk Hpos']]; [lia|]. assert (k = length data) as -> by lia. rewrite take_ge in Hfs by done.
    apply Hok; [done|]. split; [congruence|congruence|]. by rewrite length_app.
  - apply (Hbad _ _ _ k); [done|done|congruence|congruence|]. intros Hr. by apply Hne, Hroom.
Qed.
End spec.
