(* ===== verification/TsFormat.v ===== *)
(** * The on-storage formats of the time-series streams ([zephyrdb_ts.c])

    Stream names, the two record layouts (v1: 28 bytes with magic, version and
    absolute timestamp; v2: 16 bytes with an offset from the segment's base),
    the two segment headers, and the watermark record. A packed struct is its
    bytes; fields are little-endian. The decoders count what they reject in
    the instance's statistics and report it to the health state. *)

From S2P Require Import Prelude Config Env Types Events Cursor.

Definition ZDB_TS_REC_MAGIC : Z := 0x5A445442.
Definition ZDB_TS_REC_VERSION : Z := 1.
Definition ZDB_TS_STREAM_MAGIC : Z := 0x5A445453.
Definition ZDB_TS_STREAM_VERSION : Z := 1.
Definition ZDB_TS_STREAM_VERSION_V2 : Z := 2.
Definition ZDB_TS_WMK_MAGIC : Z := 0x5A444257.
Definition ZDB_TS_WMK_VERSION : Z := 1.
Definition UINT32_MAX : Z := 2 ^ 32 - 1.

(** [sizeof] of the packed structs. *)
Definition sizeof_record_i64 : nat := 28.
Definition sizeof_record_v2 : nat := 16.
Definition sizeof_stream_header : nat := 16.
Definition sizeof_stream_header_v2 : nat := 24.
Definition sizeof_watermark_rec : nat := 20.
Definition ZDB_TS_HDR_MAX_SIZE : nat := sizeof_stream_header_v2.

Definition ZDB_TS_SEGMENTED `{Config} : bool := CONFIG_ZDB_TS_ROLLOVER || CONFIG_ZDB_TS_DELTA_ENCODING.

Definition zdb_fnv1a32 (s : cstring) : Z :=
  fold_left (λ (hash : Z) c, u32 (Z.lxor hash (byte.unsigned c) * 0x01000193)) s 0x811C9DC5%Z.

Definition zdb_ts_stream_name_valid `{Config} (stream_name : option cstring) : bool :=
  match stream_name with
  | None | Some [] => false
  | Some n =>
      (length n <=? CONFIG_ZDB_TS_STREAM_NAME_MAX_LEN) &&
      negb (bool_decide (n = s2b ".")) && negb (bool_decide (n = s2b "..")) &&
      forallb (λ c, negb (bool_decide (c = Byte.x2f)) && negb (bool_decide (c = Byte.x5c))) n
  end.

Section format.
Context {Cfg : Config} {K F FS : Type} `{!Kernel K, !Crc32}.
Abbreviation W := (world K F FS).

(** ** Statistics *)

(** [ZDB_STAT_INC] and [ZDB_STAT_ADD] on the field [f] updates. *)
Definition ZDB_STAT_UPD (db : db_ptr) (f : zdb_ts_stats_t → zdb_ts_stats_t) : M W unit :=
  if CONFIG_ZDB_STATS then
    match db with
    | None => ret tt
    | Some _ => db_set (λ d, d <| ts_stats ::= f |>)
    end
  else ret tt.

Definition inc (n : Z) : Z := u32 (n + 1).
Definition STAT_INC_recover_runs db := ZDB_STAT_UPD db (λ s, s <| recover_runs ::= inc |>).
Definition STAT_INC_recover_failures db := ZDB_STAT_UPD db (λ s, s <| recover_failures ::= inc |>).
Definition STAT_INC_crc_failures db := ZDB_STAT_UPD db (λ s, s <| crc_failures ::= inc |>).
Definition STAT_INC_corrupt_records db := ZDB_STAT_UPD db (λ s, s <| corrupt_records ::= inc |>).
Definition STAT_INC_unsupported_versions db :=
  ZDB_STAT_UPD db (λ s, s <| unsupported_versions ::= inc |>).
Definition STAT_ADD_recover_truncated_bytes db (n : nat) :=
  ZDB_STAT_UPD db (λ s, s <| recover_truncated_bytes ::= λ t, u64 (t + n) |>).

(** ** Segment headers *)

Definition zdb_ts_stream_header_encode (stream_name : cstring) : list byte :=
  let hdr := put_le 4 ZDB_TS_STREAM_MAGIC ++ put_le 2 ZDB_TS_STREAM_VERSION ++ put_le 2 0 ++
             put_le 4 (zdb_fnv1a32 stream_name) in
  hdr ++ put_le 4 (crc32_ieee hdr).

Definition zdb_ts_stream_header_decode (db : db_ptr) (hdr : option (list byte))
    (stream_name : option cstring) : M W zdb_status_t :=
  match hdr, stream_name with
  | Some hdr, Some name =>
      if negb (get_le 4 hdr 0 =? ZDB_TS_STREAM_MAGIC)%Z then
        STAT_INC_corrupt_records db;;
        ret ZDB_ERR_CORRUPT
      else if negb (get_le 2 hdr 4 =? ZDB_TS_STREAM_VERSION)%Z then
        STAT_INC_unsupported_versions db;;
        ret ZDB_ERR_UNSUPPORTED
      else if negb (get_le 4 hdr 12 =? crc32_ieee (take 12 hdr))%Z then
        STAT_INC_crc_failures db;;
        STAT_INC_corrupt_records db;;
        ret ZDB_ERR_CORRUPT
      else if negb (get_le 4 hdr 8 =? zdb_fnv1a32 name)%Z then
        STAT_INC_corrupt_records db;;
        ret ZDB_ERR_CORRUPT
      else ret ZDB_OK
  | _, _ => ret ZDB_ERR_INVAL
  end.

(** The compact header [zdb_ts_ensure_header_ex] writes and checks. *)
Definition stream_header_v2_encode (stream_name : cstring) (base_ts_ms : Z) : list byte :=
  let hdr := put_le 4 ZDB_TS_STREAM_MAGIC ++ put_le 2 ZDB_TS_STREAM_VERSION_V2 ++ put_le 2 0 ++
             put_le 4 (zdb_fnv1a32 stream_name) ++ put_le 8 base_ts_ms in
  hdr ++ put_le 4 (crc32_ieee hdr).

Definition stream_header_v2_decode (db : db_ptr) (h2 : list byte) (stream_name : cstring)
    : M W zdb_status_t :=
  if negb (get_le 4 h2 0 =? ZDB_TS_STREAM_MAGIC)%Z then
    STAT_INC_corrupt_records db;;
    ret ZDB_ERR_CORRUPT
  else if negb (get_le 4 h2 20 =? crc32_ieee (take 20 h2))%Z then
    STAT_INC_crc_failures db;;
    STAT_INC_corrupt_records db;;
    ret ZDB_ERR_CORRUPT
  else if negb (get_le 4 h2 8 =? zdb_fnv1a32 stream_name)%Z then
    STAT_INC_corrupt_records db;;
    ret ZDB_ERR_CORRUPT
  else ret ZDB_OK.

(** ** Records *)

Definition zdb_ts_record_encode (sample : zdb_ts_sample_i64_t) : list byte :=
  let rec := put_le 4 ZDB_TS_REC_MAGIC ++ put_le 2 ZDB_TS_REC_VERSION ++ put_le 2 0 ++
             put_le 8 (ts_ms sample) ++ put_le 8 (value sample) in
  rec ++ put_le 4 (crc32_ieee rec).

(** The status, and what is stored through the two output pointers. *)
Definition zdb_ts_record_decode (db : db_ptr) (rec : option (list byte))
    : M W (zdb_status_t * option zdb_ts_sample_i64_t) :=
  match rec with
  | None => ret (ZDB_ERR_INVAL, None)
  | Some rec =>
      if negb (get_le 4 rec 0 =? ZDB_TS_REC_MAGIC)%Z then
        STAT_INC_corrupt_records db;;
        zdb_health_check db;;
        ret (ZDB_ERR_CORRUPT, None)
      else if negb (get_le 2 rec 4 =? ZDB_TS_REC_VERSION)%Z then
        STAT_INC_unsupported_versions db;;
        ret (ZDB_ERR_UNSUPPORTED, None)
      else if negb (get_le 4 rec 24 =? crc32_ieee (take 24 rec))%Z then
        STAT_INC_crc_failures db;;
        STAT_INC_corrupt_records db;;
        zdb_health_check db;;
        ret (ZDB_ERR_CORRUPT, None)
      else
        ret (ZDB_OK, Some {| ts_ms := get_le 8 rec 8; value := i64 (get_le 8 rec 16) |})
  end.

Definition zdb_ts_rec_size_for (version : Z) : nat :=
  if (version =? ZDB_TS_STREAM_VERSION_V2)%Z then sizeof_record_v2 else sizeof_record_i64.
Definition zdb_ts_hdr_size_for (version : Z) : nat :=
  if (version =? ZDB_TS_STREAM_VERSION_V2)%Z then sizeof_stream_header_v2
  else sizeof_stream_header.

Definition record_v2_bytes (delta value : Z) : list byte :=
  let rec := put_le 4 delta ++ put_le 8 value in
  rec ++ put_le 4 (crc32_ieee rec).

(** The bytes written to [out], or [None] where the function reports false. *)
Definition zdb_ts_record_encode_as (version base_ts_ms : Z) (sample : zdb_ts_sample_i64_t)
    : option (list byte) :=
  if negb (version =? ZDB_TS_STREAM_VERSION_V2)%Z then Some (zdb_ts_record_encode sample)
  else if (ts_ms sample <? base_ts_ms)%Z then None
  else
    let delta := (ts_ms sample - base_ts_ms)%Z in
    if (UINT32_MAX <? delta)%Z then None
    else Some (record_v2_bytes delta (value sample)).

Definition zdb_ts_record_decode_as (db : db_ptr) (version base_ts_ms : Z) (raw : list byte)
    : M W (zdb_status_t * option zdb_ts_sample_i64_t) :=
  if negb (version =? ZDB_TS_STREAM_VERSION_V2)%Z
  then zdb_ts_record_decode db (Some (take sizeof_record_i64 raw))
  else
    let rec := take sizeof_record_v2 raw in
    if negb (get_le 4 rec 12 =? crc32_ieee (take 12 rec))%Z then
      STAT_INC_crc_failures db;;
      STAT_INC_corrupt_records db;;
      zdb_health_check db;;
      ret (ZDB_ERR_CORRUPT, None)
    else
      ret (ZDB_OK, Some {| ts_ms := u64 (base_ts_ms + get_le 4 rec 0);
                           value := i64 (get_le 8 rec 4) |}).

(** ** The watermark record *)

Definition watermark_encode (consumed_ts_ms : Z) : list byte :=
  let rec := put_le 4 ZDB_TS_WMK_MAGIC ++ put_le 2 ZDB_TS_WMK_VERSION ++ put_le 2 0 ++
             put_le 8 consumed_ts_ms in
  rec ++ put_le 4 (crc32_ieee rec).

(** [None] for a mark that reads as unset; [rd] is the number of bytes read. *)
Definition watermark_decode (rd : Z) (rec : list byte) : option Z :=
  if negb (rd =? sizeof_watermark_rec)%Z || negb (get_le 4 rec 0 =? ZDB_TS_WMK_MAGIC)%Z ||
     negb (get_le 2 rec 4 =? ZDB_TS_WMK_VERSION)%Z then None
  else if negb (get_le 4 rec 16 =? crc32_ieee (take 16 rec))%Z then None
  else Some (get_le 8 rec 8).

(** ** Windows *)

Definition zdb_ts_window_is_unbounded (window : zdb_ts_window_t) : bool :=
  (from_ts_ms window =? 0)%Z &&
  ((to_ts_ms window =? 0)%Z || (to_ts_ms window =? UINT64_MAX)%Z).

Definition zdb_ts_window_match (window : zdb_ts_window_t) (ts_ms : Z) : bool :=
  if (from_ts_ms window =? 0)%Z && (to_ts_ms window =? 0)%Z then true
  else if (ts_ms <? from_ts_ms window)%Z then false
  else if negb (to_ts_ms window =? 0)%Z && (to_ts_ms window <? ts_ms)%Z then false
  else true.

Definition zdb_ts_predicate_match {FH} (cursor : zdb_cursor_t FH) (record : list byte) : bool :=
  match cu_predicate cursor with
  | None => true
  | Some p => p ZDB_MODEL_TS record
  end.
End format.
