(* ===== verification/TsStore.v ===== *)
(** * Stream slots, segments and flushing ([zephyrdb_ts.c])

    The paths of a stream's files, the slots of open streams with their ingest
    buffers, the segment files with their headers, and the flush of a buffer to
    the active segment. A [struct zdb_ts_stream_ctx *] is the index of the slot
    in the context's array; the context is the one of the instance. An [int]
    that reports an error or a path is a sum. *)

From S2P Require Import Prelude Config CText Env Types FsEnv Events Cursor TsFormat.

Definition ZDB_TS_PATH_MAX : nat := 128.

(** ** Paths *)

Section paths.
Context {Cfg : Config}.

(** What the path builders check and the directory they start from. *)
Definition ts_path (cfg : option zdb_cfg_t) (stream_name : option cstring) (path_len : nat)
    (suffix : cstring → list byte) : Z + list byte :=
  match cfg, stream_name with
  | Some c, Some name =>
      match lfs_mount_point c with
      | None => inl (- EINVAL)%Z
      | Some mount =>
          if path_len =? 0 then inl (- EINVAL)%Z
          else if negb (zdb_ts_stream_name_valid stream_name) then inl (- EINVAL)%Z
          else
            let p := mount ++ s2b "/" ++ CONFIG_ZDB_TS_DIRNAME ++ s2b "/" ++ suffix name in
            if path_len <=? length p then inl (- ENAMETOOLONG)%Z else inr p
      end
  | _, _ => inl (- EINVAL)%Z
  end.

Definition zdb_ts_build_watermark_path cfg stream_name path_len : Z + list byte :=
  ts_path cfg stream_name path_len (λ name, name ++ s2b ".wmk").

Definition zdb_ts_build_path cfg stream_name path_len : Z + list byte :=
  ts_path cfg stream_name path_len (λ name, name ++ s2b ".zts").

Definition zdb_ts_build_segment_path cfg stream_name (seq : Z) path_len : Z + list byte :=
  ts_path cfg stream_name path_len (λ name, name ++ s2b "." ++ fmt_04u seq ++ s2b ".zts").
End paths.

(** ** The slots *)

Section slots.
Context {Cfg : Config} {K F FS : Type} `{!Kernel K}.
Abbreviation W := (world K F FS).

Definition ctx_streams (d : zdb_t) : list zdb_ts_stream_ctx :=
  match ts_ctx d with None => [] | Some c => streams c end.

(** Reading and updating the context and a slot through their pointers. *)
Definition ctx_upd (f : zdb_ts_core_ctx → zdb_ts_core_ctx) : M W unit :=
  db_set (λ d, d <| ts_ctx ::= option_map f |>).
Definition slot_get (i : nat) : M W zdb_ts_stream_ctx :=
  db_get (λ d, default zero_stream (ctx_streams d !! i)).
Definition slot_upd (i : nat) (f : zdb_ts_stream_ctx → zdb_ts_stream_ctx) : M W unit :=
  ctx_upd (λ c, c <| streams ::= alter f i |>).

(** The first slot that satisfies [P]. *)
Fixpoint slot_index (P : zdb_ts_stream_ctx → bool) (slots : list zdb_ts_stream_ctx) (i : nat)
    : option nat :=
  match slots with
  | [] => None
  | s :: slots => if P s then Some i else slot_index P slots (S i)
  end.

Definition zdb_ts_slot_find (ctx : option zdb_ts_core_ctx) (stream_name : option cstring)
    : option nat :=
  match ctx, stream_name with
  | Some c, Some name =>
      slot_index (λ s, in_use s && bool_decide (st_name s = name)) (streams c) 0
  | _, _ => None
  end.

Definition zdb_ts_slot_claim (stream_name : cstring) : M W (option nat) :=
  ctx ← db_get ts_ctx;
  match zdb_ts_slot_find ctx (Some stream_name) with
  | Some i =>
      slot ← slot_get i;
      (if (open_count slot <? 255)%Z then slot_upd i (λ s, s <| open_count ::= Z.succ |>)
       else ret tt);;
      ret (Some i)
  | None =>
      slots ← db_get ctx_streams;
      match slot_index (λ s, negb (in_use s)) slots 0 with
      | None => ret None
      | Some i =>
          let capacity :=
            Nat.min CONFIG_ZDB_TS_INGEST_BUFFER_BYTES CONFIG_ZDB_TS_INGEST_SLAB_BLOCK_SIZE in
          slot_upd i (λ _,
            zero_stream <| st_name := strncpy_trunc CONFIG_ZDB_TS_STREAM_NAME_MAX_LEN stream_name |>
                        <| ingest_capacity := capacity |>);;
          slab ← db_get ts_ingest_slab;
          match slab with
          | None => ret None
          | Some sl =>
              rc ← on_k (k_mem_slab_alloc sl);
              if negb (rc =? 0)%Z then ret None
              else
                slot_upd i (λ s, s <| ingest_buf := Some (replicate capacity nul) |>
                                   <| ingest_used := 0 |> <| open_count := 1%Z |>
                                   <| in_use := true |>);;
                ret (Some i)
          end
      end
  end.

Definition zdb_ts_slot_release (slot : option nat) : M W bool :=
  match slot with
  | None => ret false
  | Some i =>
      s ← slot_get i;
      if negb (in_use s) then ret false
      else if (1 <? open_count s)%Z then
        slot_upd i (λ s, s <| open_count ::= Z.pred |>);;
        ret false
      else
        slab ← db_get ts_ingest_slab;
        (match ingest_buf s, slab with
         | Some _, Some sl => on_k_ (k_mem_slab_free sl)
         | _, _ => ret tt
         end);;
        (if CONFIG_ZDB_EVENTING &&
            ((0 <? pending_flush_bytes s) || (0 <? pending_discarded_bytes s)) then
           ctx_upd (λ c,
             c <| released_flush_bytes ::= λ n, n + pending_flush_bytes s |>
               <| released_discarded_bytes ::= λ n, n + pending_discarded_bytes s |>
               <| released_stream := strncpy_trunc CONFIG_ZDB_TS_STREAM_NAME_MAX_LEN (st_name s) |>)
         else ret tt);;
        slot_upd i (λ _, zero_stream);;
        ret true
  end.

(** Reports whether the context is not NULL. *)
Definition zdb_ts_ctx_get_or_alloc (db : db_ptr) : M W bool :=
  match db with
  | None => ret false
  | Some _ =>
      slab ← db_get core_slab;
      c ← db_get cfg;
      match slab, c with
      | Some sl, Some _ =>
          ctx ← db_get ts_ctx;
          match ctx with
          | Some _ => ret true
          | None =>
              rc ← on_k (k_mem_slab_alloc sl);
              if negb (rc =? 0)%Z then ret false
              else
                on_k_ k_sem_reset;;
                db_set (λ d, d <| ts_ctx := Some
                  {| streams := replicate CONFIG_ZDB_TS_MAX_STREAMS zero_stream;
                     flush_pending := false; ts_dir_ready := false;
                     released_flush_bytes := 0; released_discarded_bytes := 0;
                     released_stream := [] |} |>);;
                ret true
          end
      | _, _ => ret false
      end
  end.

Definition zdb_ts_slot_rec_size (slot : zdb_ts_stream_ctx) : nat :=
  if ZDB_TS_SEGMENTED then
    if negb (seg_rec_size slot =? 0) then seg_rec_size slot else sizeof_record_i64
  else sizeof_record_i64.

Definition zdb_ts_slot_version (slot : zdb_ts_stream_ctx) : Z :=
  if ZDB_TS_SEGMENTED then
    if negb (seg_version slot =? 0)%Z then seg_version slot else ZDB_TS_STREAM_VERSION
  else ZDB_TS_STREAM_VERSION.

Definition zdb_ts_slot_base_ts (slot : zdb_ts_stream_ctx) : Z :=
  if ZDB_TS_SEGMENTED then seg_base_ts_ms slot else 0%Z.
End slots.
