(* ===== verification/TsSegment.v ===== *)
(** * Segment files and flushing ([zephyrdb_ts.c])

    Creating and checking a file's header, learning which segments a stream
    has on storage, starting the next one and discarding the oldest, and
    appending an ingest buffer to the active file. *)

From S2P Require Import Prelude Config CText Env Types FsEnv Events Cursor TsFormat TsStore.

Section segment.
Context {Cfg : Config} {K F FS FH DH : Type} `{!Kernel K, !FileSys FS FH DH, !Crc32}.
Abbreviation W := (world K F FS).

Definition zdb_ts_ensure_stream_dir (cfg : option zdb_cfg_t) (ctx : bool) : M W Z :=
  match cfg with
  | Some c =>
      match lfs_mount_point c with
      | Some mount =>
          if negb ctx then ret (- EINVAL)%Z
          else
            ready ← db_get (λ d, match ts_ctx d with Some c => ts_dir_ready c | None => false end);
            if ready : bool then ret 0%Z
            else
              let ts_dir := mount ++ s2b "/" ++ CONFIG_ZDB_TS_DIRNAME in
              if ZDB_TS_PATH_MAX <=? length ts_dir then ret (- ENAMETOOLONG)%Z
              else
                rc ← on_fs (fs_mkdir ts_dir);
                if (rc <? 0)%Z && negb (rc =? - EEXIST)%Z then ret rc
                else
                  ctx_upd (λ c, c <| ts_dir_ready := true |>);;
                  ret 0%Z
      | None => ret (- EINVAL)%Z
      end
  | None => ret (- EINVAL)%Z
  end.

(** The header of a new file in the configured format, its version and base. *)
Definition new_header (stream_name : cstring) (new_base_ts_ms : Z) : list byte * (Z * Z) :=
  if CONFIG_ZDB_TS_DELTA_ENCODING
  then (stream_header_v2_encode stream_name new_base_ts_ms,
        (ZDB_TS_STREAM_VERSION_V2, new_base_ts_ms))
  else (zdb_ts_stream_header_encode stream_name, (ZDB_TS_STREAM_VERSION, 0%Z)).

(** Writing the header of an empty file. *)
Definition create_header (file : FH) (header : list byte * (Z * Z))
    : M W (zdb_status_t * option (Z * Z)) :=
  let '(hdr, out) := header in
  '(rc, file) ← on_fs (fs_seek_set file 0);
  if (rc <? 0)%Z then
    on_fs (fs_close file);;
    ret (zdb_status_from_errno rc, None)
  else
    '(wr, file) ← on_fs (fs_write file hdr);
    on_fs (fs_close file);;
    ret (if (wr <? 0)%Z then (zdb_status_from_errno wr, None)
         else if negb (wr =? length hdr)%Z then (ZDB_ERR_IO, None)
         else (ZDB_OK, Some out)).

(** The check of an existing file's header, from the [rd] bytes read. *)
Definition check_header (db : db_ptr) (stream_name : cstring) (rd : Z) (raw : list byte)
    : M W (zdb_status_t * option (Z * Z)) :=
  let version := get_le 2 raw 4 in
  if (version =? ZDB_TS_STREAM_VERSION_V2)%Z then
    if (rd <? sizeof_stream_header_v2)%Z then ret (ZDB_ERR_CORRUPT, None)
    else
      rc ← stream_header_v2_decode db raw stream_name;
      ret (if bool_decide (rc = ZDB_OK) then (ZDB_OK, Some (version, get_le 8 raw 12))
           else (rc, None))
  else
    rc ← zdb_ts_stream_header_decode db (Some (take sizeof_stream_header raw)) (Some stream_name);
    ret (if bool_decide (rc = ZDB_OK) then (ZDB_OK, Some (version, 0%Z)) else (rc, None)).

(** The status, and what is stored through [out_version] and [out_base_ts]. *)
Definition zdb_ts_ensure_header_ex (db : db_ptr) (stream_name path : option cstring)
    (new_base_ts_ms : Z) : M W (zdb_status_t * option (Z * Z)) :=
  match db, stream_name, path with
  | Some _, Some name, Some path =>
      c ← db_get cfg;
      match c with
      | None => ret (ZDB_ERR_INVAL, None)
      | Some _ =>
          '(rc, file) ← on_fs (fs_open fs_file_t_init path FS_CREATE_RDWR);
          if (rc <? 0)%Z then ret (zdb_status_from_errno rc, None)
          else
            '(rd, raw, file) ← on_fs (fs_read file ZDB_TS_HDR_MAX_SIZE);
            if (rd =? 0)%Z then
              create_header file (new_header name new_base_ts_ms)
            else
              on_fs (fs_close file);;
              if (rd <? 0)%Z then ret (zdb_status_from_errno rd, None)
              else if (rd <? sizeof_stream_header)%Z then ret (ZDB_ERR_CORRUPT, None)
              else check_header db name rd raw
      end
  | _, _, _ => ret (ZDB_ERR_INVAL, None)
  end.

Definition zdb_ts_ensure_header_at (db : db_ptr) (stream_name path : option cstring)
    : M W zdb_status_t :=
  r ← zdb_ts_ensure_header_ex db stream_name path 0;
  ret r.1.

(** ** The segment window *)

(** The lowest and highest number seen, [None] while nothing was found. *)
Abbreviation seg_window := (option (Z * Z)).

(** The number of an entry named like a segment of the stream. *)
Definition segment_number (stream_name : cstring) (entry : fs_dirent) : option Z :=
  let n := length stream_name in
  if bool_decide (de_type' entry = FS_DIR_ENTRY_FILE) &&
     bool_decide (take n (de_name entry) = stream_name) &&
     bool_decide (de_name entry !! n = Some Byte.x2e)
  then sscanf_4u (drop (n + 1) (de_name entry))
  else None.

Definition widen (acc : seg_window) (seq : Z) : seg_window :=
  match acc with
  | None => Some (seq, seq)
  | Some (lowest, highest) =>
      Some (if (seq <? lowest)%Z then seq else lowest, if (highest <? seq)%Z then seq else highest)
  end.

(** The directory walk; its fuel bounds the number of entries. *)
Fixpoint scan_dir (fuel : nat) (stream_name : cstring) (dir : DH) (acc : seg_window)
    : M W (seg_window * DH) :=
  match fuel with
  | 0 => ret (acc, dir)
  | S fuel =>
      '(rc, entry, dir) ← on_fs (fs_readdir dir);
      if (rc <? 0)%Z || bool_decide (de_name entry = []) then ret (acc, dir)
      else
        scan_dir fuel stream_name dir
          (match segment_number stream_name entry with
           | None => acc
           | Some seq => widen acc seq
           end)
  end.

(** Adopting a single-file stream as segment 0. *)
Definition adopt_legacy (cfg : option zdb_cfg_t) (stream_name : cstring) : M W zdb_status_t :=
  match zdb_ts_build_path cfg (Some stream_name) ZDB_TS_PATH_MAX with
  | inl rc => ret (zdb_status_from_errno rc)
  | inr legacy_path =>
      match zdb_ts_build_segment_path cfg (Some stream_name) 0 ZDB_TS_PATH_MAX with
      | inl rc => ret (zdb_status_from_errno rc)
      | inr seg_path =>
          '(rc, _) ← on_fs (fs_stat legacy_path);
          if (rc =? 0)%Z then
            rc ← on_fs (fs_rename legacy_path seg_path);
            ret (if (rc <? 0)%Z then zdb_status_from_errno rc else ZDB_OK)
          else ret ZDB_OK
      end
  end.

(** What a file's header says about the records that follow it. *)
Definition slot_layout (v : Z * Z) (s : zdb_ts_stream_ctx) : zdb_ts_stream_ctx :=
  s <| seg_version := v.1 |> <| seg_hdr_size := zdb_ts_hdr_size_for v.1 |>
    <| seg_rec_size := zdb_ts_rec_size_for v.1 |> <| seg_base_ts_ms := v.2 |>.

Definition zdb_ts_scan_segments (db : db_ref) (i : nat) : M W zdb_status_t :=
  slot ← slot_get i;
  if segs_scanned slot then ret ZDB_OK
  else
    c ← db_get cfg;
    (* A slot is only claimed once [zdb_ts_open] has found a mount point. *)
    match c ≫= lfs_mount_point with
    | None => ret ZDB_ERR_INVAL
    | Some mount =>
        let dir_path := mount ++ s2b "/" ++ CONFIG_ZDB_TS_DIRNAME in
        if ZDB_TS_PATH_MAX <=? length dir_path then ret ZDB_ERR_INVAL
        else
          '(rc, dir) ← on_fs (fs_opendir fs_dir_t_init dir_path);
          window ←
            (if (rc =? 0)%Z then
               r ← scan_dir (S (length (dh_rest dir))) (st_name slot) dir None;
               on_fs (fs_closedir r.2);;
               ret r.1
             else ret None);
          adopted ← (match window with
                     | Some _ => ret ZDB_OK
                     | None => adopt_legacy c (st_name slot)
                     end);
          if negb (bool_decide (adopted = ZDB_OK)) then ret adopted
          else
            let '(lowest, highest) := default (0, 0)%Z window in
            slot_upd i (λ s, s <| oldest_seg := lowest |> <| cur_seg := highest |>);;
            match zdb_ts_build_segment_path c (Some (st_name slot)) highest ZDB_TS_PATH_MAX with
            | inl rc => ret (zdb_status_from_errno rc)
            | inr seg_path =>
                '(hdr_rc, out) ← zdb_ts_ensure_header_ex (Some db) (Some (st_name slot))
                                   (Some seg_path) 0;
                if negb (bool_decide (hdr_rc = ZDB_OK)) then ret hdr_rc
                else
                  let v := default (ZDB_TS_STREAM_VERSION, 0%Z) out in
                  slot_upd i (slot_layout v);;
                  '(rc, info) ← on_fs (fs_stat seg_path);
                  slot_upd i (λ s,
                    s <| cur_seg_bytes :=
                           if (rc =? 0)%Z && (zdb_ts_hdr_size_for v.1 <? de_size info)
                           then de_size info - zdb_ts_hdr_size_for v.1 else 0 |>
                      <| segs_scanned := true |>);;
                  ret ZDB_OK
            end
    end.

(** Discarding the oldest segments; every round advances [oldest_seg], so the
    fuel is the number of segments the window spans. *)
Fixpoint discard_oldest (fuel : nat) (i : nat) : M W Z :=
  match fuel with
  | 0 => ret 0%Z
  | S fuel =>
      slot ← slot_get i;
      if (u32 (cur_seg slot - oldest_seg slot + 1) <=? CONFIG_ZDB_TS_ROLLOVER_MAX_SEGMENTS)%Z
      then ret 0%Z
      else
        c ← db_get cfg;
        match zdb_ts_build_segment_path c (Some (st_name slot)) (oldest_seg slot) ZDB_TS_PATH_MAX
        with
        | inl rc => ret rc
        | inr seg_path =>
            (if CONFIG_ZDB_EVENTING then
               '(rc, discarded) ← on_fs (fs_stat seg_path);
               if (rc =? 0)%Z
               then slot_upd i (λ s, s <| pending_discarded_bytes ::= λ n, n + de_size discarded |>)
               else ret tt
             else ret tt);;
            rc ← on_fs (fs_unlink seg_path);
            if (rc <? 0)%Z && negb (rc =? - ENOENT)%Z then ret rc
            else
              slot_upd i (λ s, s <| oldest_seg ::= λ n, u32 (n + 1) |>);;
              discard_oldest fuel i
        end
  end.

Definition zdb_ts_start_segment (db : db_ref) (i : nat) (base_ts_ms : Z) : M W Z :=
  slot_upd i (λ s, s <| cur_seg ::= λ n, u32 (n + 1) |> <| cur_seg_bytes := 0 |>);;
  slot ← slot_get i;
  c ← db_get cfg;
  match zdb_ts_build_segment_path c (Some (st_name slot)) (cur_seg slot) ZDB_TS_PATH_MAX with
  | inl rc => ret rc
  | inr seg_path =>
      '(hdr_rc, out) ← zdb_ts_ensure_header_ex (Some db) (Some (st_name slot)) (Some seg_path)
                         base_ts_ms;
      if negb (bool_decide (hdr_rc = ZDB_OK)) then ret (- EIO)%Z
      else
        slot_upd i (slot_layout (default (ZDB_TS_STREAM_VERSION, 0%Z) out));;
        if CONFIG_ZDB_TS_ROLLOVER
        then discard_oldest (Z.to_nat (u32 (cur_seg slot - oldest_seg slot + 1))) i
        else ret 0%Z
  end.

Definition zdb_ts_roll_segment_if_full (db : db_ref) (i : nat) : M W Z :=
  slot ← slot_get i;
  if cur_seg_bytes slot <? CONFIG_ZDB_TS_ROLLOVER_SEGMENT_BYTES then ret 0%Z
  else zdb_ts_start_segment db i (seg_base_ts_ms slot).

Definition zdb_ts_active_path (db : db_ref) (i : nat) (path_len : nat) : M W (Z + list byte) :=
  if ZDB_TS_SEGMENTED then
    rc ← zdb_ts_scan_segments db i;
    if negb (bool_decide (rc = ZDB_OK)) then ret (inl (- EIO)%Z)
    else
      slot ← slot_get i;
      c ← db_get cfg;
      ret (zdb_ts_build_segment_path c (Some (st_name slot)) (cur_seg slot) path_len)
  else
    slot ← slot_get i;
    c ← db_get cfg;
    ret (zdb_ts_build_path c (Some (st_name slot)) path_len).

Definition zdb_ts_ensure_stream_header (db : db_ptr) (stream_name : option cstring)
    : M W zdb_status_t :=
  match db with
  | None => ret ZDB_ERR_INVAL
  | Some _ =>
      c ← db_get cfg;
      match c with
      | None => ret ZDB_ERR_INVAL
      | Some _ =>
          match zdb_ts_build_path c stream_name ZDB_TS_PATH_MAX with
          | inl rc => ret (zdb_status_from_errno rc)
          | inr path => zdb_ts_ensure_header_at db stream_name (Some path)
          end
      end
  end.

(** ** Flushing *)

(** Appending the used part of a buffer to a file. *)
Definition append_file (path : list byte) (data : list byte) : M W Z :=
  '(rc, file) ← on_fs (fs_open fs_file_t_init path FS_CREATE_WRITE_APPEND);
  if (rc <? 0)%Z then ret rc
  else
    '(wr, file) ← on_fs (fs_write file data);
    if (wr <? 0)%Z || negb (wr =? length data)%Z then
      on_fs (fs_close file);;
      ret (if (wr <? 0)%Z then wr else (- EIO)%Z)
    else
      rc ← on_fs (fs_close file);
      ret (if (rc <? 0)%Z then rc else 0%Z).

Definition zdb_ts_flush_buffer_locked (db : db_ref) (slot : option nat) : M W Z :=
  c ← db_get cfg;
  match c, slot with
  | Some _, Some i =>
      s ← slot_get i;
      match (if in_use s then ingest_buf s else None) with
      | None => ret (- EINVAL)%Z
      | Some buf =>
          if ingest_used s =? 0 then ret 0%Z
          else
            p ← zdb_ts_active_path db i ZDB_TS_PATH_MAX;
            match p with
            | inl rc => ret rc
            | inr path =>
                rc ← append_file path (take (ingest_used s) buf);
                if (rc <? 0)%Z then ret rc
                else
                  (if ZDB_TS_SEGMENTED
                   then slot_upd i (λ s, s <| cur_seg_bytes ::= λ n, n + ingest_used s |>)
                   else ret tt);;
                  (if CONFIG_ZDB_EVENTING
                   then slot_upd i (λ s, s <| pending_flush_bytes ::= λ n, n + ingest_used s |>)
                   else ret tt);;
                  slot_upd i (λ s, s <| ingest_used := 0 |>);;
                  (if ZDB_TS_SEGMENTED then
                     rc ← zdb_ts_roll_segment_if_full db i;
                     ret (if (rc <? 0)%Z then rc else 0%Z)
                   else ret 0%Z)
            end
      end
  | _, _ => ret (- EINVAL)%Z
  end.

(** The totals of a drain: the first error, the bytes flushed, how many streams,
    and the name of the only one. *)
Record drain := {
  dr_error : Z;
  dr_flushed : nat;
  dr_streams : nat;
  dr_only : option cstring;
}.

Fixpoint flush_slots (db : db_ref) (slots : list nat) (d : drain) : M W drain :=
  match slots with
  | [] => ret d
  | i :: rest =>
      s ← slot_get i;
      if negb (in_use s) || (ingest_used s =? 0) then flush_slots db rest d
      else
        rc ← zdb_ts_flush_buffer_locked db (Some i);
        if (rc <? 0)%Z then
          flush_slots db rest (d <| dr_error := if (dr_error d =? 0)%Z then rc else dr_error d |>)
        else
          (if CONFIG_ZDB_EVENTING then slot_upd i (λ s, s <| pending_flush_bytes := 0 |>)
           else ret tt);;
          flush_slots db rest
            (d <| dr_flushed := dr_flushed d + ingest_used s |> <| dr_streams ::= S |>
               <| dr_only := if dr_streams d =? 0 then Some (st_name s) else None |>)
  end.

Definition zdb_ts_flush_all_locked (db : db_ref) : M W drain :=
  n ← db_get (λ d, length (ctx_streams d));
  flush_slots db (seq 0 n)
    {| dr_error := 0; dr_flushed := 0; dr_streams := 0; dr_only := None |}.
End segment.
