(* ===== verification/TsCursor.v ===== *)
(** * Walking a stream ([zephyrdb_ts.c])

    A cursor over a stream reads the segment files record by record, forwards
    or backwards, and the ingest buffer after them (before them when
    descending). The walk state is a value the functions take and return;
    [out_record] is what is stored through the caller's pointer, [None] for
    NULL or when nothing is stored. Loops whose length depends on storage take
    fuel and report [None] when it is spent. *)

From S2P Require Import Prelude Config Env Types FsEnv Events Cursor TsFormat TsStore TsSegment.

Section cursor.
Context {Cfg : Config} {K F FS FH DH : Type} `{!Kernel K, !FileSys FS FH DH, !Crc32}.
Abbreviation W := (world K F FS).
Abbreviation walk := (zdb_ts_cursor_ctx FH).

(** ** Files *)

Definition zdb_ts_cursor_learn_layout (cctx : walk) (path : list byte)
    : M W (zdb_status_t * walk) :=
  let cctx := cctx <| hdr_size := sizeof_stream_header |> <| rec_size := sizeof_record_i64 |>
                   <| base_ts_ms := 0%Z |> in
  '(rc, hdr_file) ← on_fs (fs_open fs_file_t_init path FS_READ);
  if (rc <? 0)%Z then ret (zdb_status_from_errno rc, cctx)
  else
    '(rd, raw, hdr_file) ← on_fs (fs_read hdr_file ZDB_TS_HDR_MAX_SIZE);
    on_fs (fs_close hdr_file);;
    ret (if (rd <? sizeof_stream_header)%Z then (ZDB_OK, cctx)
         else if negb (get_le 2 raw 4 =? ZDB_TS_STREAM_VERSION_V2)%Z then (ZDB_OK, cctx)
         else if (rd <? sizeof_stream_header_v2)%Z then (ZDB_ERR_CORRUPT, cctx)
         else (ZDB_OK, cctx <| hdr_size := sizeof_stream_header_v2 |>
                            <| rec_size := sizeof_record_v2 |>
                            <| base_ts_ms := get_le 8 raw 12 |>)).

(** Recording the size of the open file and positioning the walk past its last
    whole record. *)
Definition cursor_seek_last (cctx : walk) : M W (zdb_status_t * walk) :=
  '(rc, fh) ← on_fs (fs_seek_end (cc_file cctx));
  let cctx := cctx <| cc_file := fh |> in
  if (rc <? 0)%Z then ret (zdb_status_from_errno rc, cctx)
  else
    tell ← on_fs (fs_tell (cc_file cctx));
    ret (ZDB_OK, cctx <| file_size := size_t tell |>).

Definition cursor_seek_offset (cctx : walk) : M W (zdb_status_t * walk) :=
  '(rc, fh) ← on_fs (fs_seek_set (cc_file cctx) (off_t (file_offset cctx)));
  ret (if (rc <? 0)%Z then zdb_status_from_errno rc else ZDB_OK, cctx <| cc_file := fh |>).

Definition zdb_ts_cursor_open_segment (cctx : walk) (seq : Z) : M W (zdb_status_t * walk) :=
  cctx ← (if file_open cctx then
            on_fs (fs_close (cc_file cctx));;
            ret (cctx <| file_open := false |>)
          else ret cctx);
  c ← db_get cfg;
  match zdb_ts_build_segment_path c (cc_stream_name cctx) seq ZDB_TS_PATH_MAX with
  | inl rc => ret (zdb_status_from_errno rc, cctx)
  | inr path =>
      '(rc, fh) ← on_fs (fs_open fs_file_t_init path FS_READ);
      let cctx := cctx <| cc_file := fh |> in
      if (rc <? 0)%Z then
        ret (if (rc =? - ENOENT)%Z then ZDB_ERR_NOT_FOUND else zdb_status_from_errno rc, cctx)
      else
        let cctx := cctx <| file_open := true |> <| cc_cur_seg := seq |> in
        '(layout_rc, cctx) ← zdb_ts_cursor_learn_layout cctx path;
        if negb (bool_decide (layout_rc = ZDB_OK)) then ret (layout_rc, cctx)
        else
          '(rc, cctx) ←
            (if descending cctx then
               '(rc, cctx) ← cursor_seek_last cctx;
               ret (rc, if bool_decide (rc = ZDB_OK)
                        then cctx <| file_offset :=
                               last_record_end (file_size cctx) (hdr_size cctx) (rec_size cctx) |>
                        else cctx)
             else ret (ZDB_OK, cctx <| file_offset := hdr_size cctx |>));
          if negb (bool_decide (rc = ZDB_OK)) then ret (rc, cctx)
          else cursor_seek_offset cctx
  end.

(** How many segments are left in the walk's direction. *)
Definition segments_left (cctx : walk) : nat :=
  Z.to_nat (if descending cctx then u32 (cc_cur_seg cctx - seg_lo cctx)
            else (seg_hi cctx - cc_cur_seg cctx)%Z).

Fixpoint next_segment_loop (fuel : nat) (cctx : walk) : M W (zdb_status_t * walk) :=
  match fuel with
  | 0 => ret (ZDB_ERR_NOT_FOUND, cctx)
  | S fuel =>
      let last := if descending cctx then (cc_cur_seg cctx =? seg_lo cctx)%Z
                  else (seg_hi cctx <=? cc_cur_seg cctx)%Z in
      if last then ret (ZDB_ERR_NOT_FOUND, cctx)
      else
        let next := if descending cctx then u32 (cc_cur_seg cctx - 1)
                    else u32 (cc_cur_seg cctx + 1) in
        '(rc, cctx) ← zdb_ts_cursor_open_segment cctx next;
        if bool_decide (rc = ZDB_OK) then ret (ZDB_OK, cctx)
        else next_segment_loop fuel (cctx <| cc_cur_seg := next |>)
  end.

Definition zdb_ts_cursor_next_segment (cctx : walk) : M W (zdb_status_t * walk) :=
  next_segment_loop (S (segments_left cctx)) cctx.

(** The end of a file: on to the next segment, where there are segments. *)
Definition end_of_file (again : walk → M W (zdb_status_t * option (list byte) * walk))
    (cctx : walk) : M W (zdb_status_t * option (list byte) * walk) :=
  if ZDB_TS_SEGMENTED then
    '(rc, cctx) ← zdb_ts_cursor_next_segment cctx;
    if bool_decide (rc = ZDB_OK) then again cctx
    else ret (ZDB_ERR_NOT_FOUND, None, cctx)
  else ret (ZDB_ERR_NOT_FOUND, None, cctx).

Definition read_here (again : walk → M W (zdb_status_t * option (list byte) * walk))
    (cctx : walk) : M W (zdb_status_t * option (list byte) * walk) :=
  '(rd, data, fh) ← on_fs (fs_read (cc_file cctx) (rec_size cctx));
  let cctx := cctx <| cc_file := fh |> <| cache := buf_write (cache cctx) 0 data |> in
  if (rd =? 0)%Z then end_of_file again cctx
  else if (rd <? 0)%Z then ret (zdb_status_from_errno rd, None, cctx)
  else if negb (rd =? rec_size cctx)%Z then ret (ZDB_ERR_CORRUPT, None, cctx)
  else
    let record := take (rec_size cctx) (cache cctx) in
    if descending cctx then
      '(rc, cctx) ← cursor_seek_offset cctx;
      ret (if bool_decide (rc = ZDB_OK) then (ZDB_OK, Some record, cctx)
           else (ZDB_ERR_IO, None, cctx))
    else
      ret (ZDB_OK, Some record, cctx <| file_offset := file_offset cctx + rec_size cctx |>).

(** Each recursive call is in a later segment. *)
Fixpoint read_file_record (fuel : nat) (cctx : walk)
    : M W (zdb_status_t * option (list byte) * walk) :=
  match fuel with
  | 0 => ret (ZDB_ERR_NOT_FOUND, None, cctx)
  | S fuel =>
      if negb (file_open cctx) then ret (ZDB_ERR_NOT_FOUND, None, cctx)
      else if descending cctx then
        if file_offset cctx <? hdr_size cctx + rec_size cctx
        then end_of_file (read_file_record fuel) cctx
        else
          let cctx := cctx <| file_offset := file_offset cctx - rec_size cctx |> in
          '(rc, cctx) ← cursor_seek_offset cctx;
          if negb (bool_decide (rc = ZDB_OK)) then ret (ZDB_ERR_IO, None, cctx)
          else read_here (read_file_record fuel) cctx
      else read_here (read_file_record fuel) cctx
  end.

Definition zdb_ts_cursor_read_file_record (cctx : option walk)
    : M W (zdb_status_t * option (list byte) * option walk) :=
  match cctx with
  | Some c =>
      match cc_db c with
      | None => ret (ZDB_ERR_INVAL, None, cctx)
      | Some _ =>
          '(rc, out, c) ← read_file_record (S (segments_left c)) c;
          ret (rc, out, Some c)
      end
  | None => ret (ZDB_ERR_INVAL, None, None)
  end.

(** ** Opening *)

(** A cursor context as [zdb_ts_cursor_open_dir] fills it before it opens a
    file. The fields it leaves alone hold whatever the block held; they are
    not read before they are written. *)
Definition new_walk (ts : zdb_ts_t) (window : zdb_ts_window_t) (desc : bool) : walk :=
  {| cc_db := ts_db ts; cc_stream_name := ts_stream_name ts; window := window;
     cache := replicate sizeof_record_i64 nul;
     file_offset := sizeof_stream_header; ram_offset := 0; file_done := false;
     cc_cur_seg := 0; seg_lo := 0; seg_hi := 0;
     hdr_size := 0; rec_size := 0; base_ts_ms := 0; last_ts_ms := 0; last_value := 0;
     descending := desc; cc_file := fs_file_t_init; file_size := 0; file_open := false |}.

(** The segmented layout: the window of segments is fixed here. *)
Definition open_segmented (cctx : walk) : M W (zdb_status_t * walk) :=
  ok ← zdb_ts_ctx_get_or_alloc (cc_db cctx);
  ctx ← db_get ts_ctx;
  match (if ok : bool then zdb_ts_slot_find ctx (cc_stream_name cctx) else None) with
  | None => ret (ZDB_ERR_INVAL, cctx)
  | Some i =>
      rc ← zdb_ts_scan_segments the_db i;
      if negb (bool_decide (rc = ZDB_OK)) then ret (ZDB_ERR_INVAL, cctx)
      else
        slot ← slot_get i;
        let cctx := cctx <| cc_file := fs_file_t_init |> <| file_open := false |>
                         <| seg_lo := oldest_seg slot |> <| seg_hi := cur_seg slot |> in
        let cctx := cctx <| cc_cur_seg := if descending cctx then seg_hi cctx
                                          else seg_lo cctx |> in
        '(seg_rc, cctx) ← zdb_ts_cursor_open_segment cctx (cc_cur_seg cctx);
        (if negb (bool_decide (seg_rc = ZDB_OK)) && file_open cctx
         then on_fs (fs_close (cc_file cctx));; ret tt else ret tt);;
        ret (seg_rc, cctx)
  end.

(** The single-file layout. *)
Definition open_single (cctx : walk) : M W (zdb_status_t * walk) :=
  c ← db_get cfg;
  match zdb_ts_build_path c (cc_stream_name cctx) ZDB_TS_PATH_MAX with
  | inl rc => ret (zdb_status_from_errno rc, cctx)
  | inr path =>
      '(rc, fh) ← on_fs (fs_open fs_file_t_init path FS_READ);
      let cctx := cctx <| cc_file := fh |> in
      if negb (rc =? 0)%Z then ret (zdb_status_from_errno rc, cctx)
      else
        let fail (rc : zdb_status_t) (cctx : walk) : M W (zdb_status_t * walk) :=
          on_fs (fs_close (cc_file cctx));; ret (rc, cctx) in
        '(layout_rc, cctx) ← zdb_ts_cursor_learn_layout (cctx <| file_open := true |>) path;
        if negb (bool_decide (layout_rc = ZDB_OK)) then fail layout_rc cctx
        else
          '(rc, cctx) ← cursor_seek_last cctx;
          if negb (bool_decide (rc = ZDB_OK)) then fail rc cctx
          else
            let cctx := cctx <| file_offset :=
              if descending cctx
              then last_record_end (file_size cctx) (hdr_size cctx) (rec_size cctx)
              else hdr_size cctx |> in
            '(rc, fh) ← on_fs (fs_seek_set (cc_file cctx) (off_t (file_offset cctx)));
            let cctx := cctx <| cc_file := fh |> in
            if negb (rc =? 0)%Z then fail (zdb_status_from_errno rc) cctx
            else ret (ZDB_OK, cctx)
  end.

Definition zdb_ts_cursor_open_dir (ts : option zdb_ts_t) (window : zdb_ts_window_t)
    (predicate : option zdb_predicate_fn) (desc : bool) (out_cursor : option (zdb_cursor_t FH))
    : M W (zdb_status_t * option (zdb_cursor_t FH)) :=
  match ts, out_cursor with
  | Some t, Some out =>
      match ts_db t with
      | None => ret (ZDB_ERR_INVAL, out_cursor)
      | Some _ =>
          rc ← (if negb ZDB_TS_SEGMENTED
                then zdb_ts_ensure_stream_header (ts_db t) (ts_stream_name t) else ret ZDB_OK);
          if negb (bool_decide (rc = ZDB_OK)) then ret (rc, out_cursor)
          else
            slab ← db_get cursor_slab;
            match slab with
            | None => ret (ZDB_ERR_NOMEM, out_cursor)
            | Some sl =>
                rc ← on_k (k_mem_slab_alloc sl);
                if negb (rc =? 0)%Z then ret (ZDB_ERR_NOMEM, out_cursor)
                else
                  '(rc, cctx) ← (if ZDB_TS_SEGMENTED then open_segmented (new_walk t window desc)
                                 else open_single (new_walk t window desc));
                  if negb (bool_decide (rc = ZDB_OK)) then
                    on_k_ (k_mem_slab_free sl);;
                    ret (rc, out_cursor)
                  else
                    zdb_cursor_reset (Some (out <| cu_model := ZDB_MODEL_TS |>
                      <| cu_backend := ZDB_BACKEND_LFS |> <| cu_predicate := predicate |>
                      <| cu_impl := Some cctx |>))
            end
      end
  | _, _ => ret (ZDB_ERR_INVAL, out_cursor)
  end.

Definition zdb_ts_cursor_open ts window predicate out_cursor :=
  zdb_ts_cursor_open_dir ts window predicate false out_cursor.
Definition zdb_ts_cursor_open_desc ts window predicate out_cursor :=
  zdb_ts_cursor_open_dir ts window predicate true out_cursor.

(** ** Stepping *)

(** What both walks do with a decoded record: count it, yield the processor
    from time to time, and keep it when the window and the predicate admit it. *)
Definition consider (cursor : zdb_cursor_t FH) (cctx : walk) (record : list byte)
    (s : zdb_ts_sample_i64_t) : M W (bool * zdb_cursor_t FH * walk) :=
  let cursor := cursor <| iter_count ::= λ n, u32 (n + 1) |> in
  (if (0 <? CONFIG_ZDB_SCAN_YIELD_EVERY_N) &&
      (iter_count cursor mod CONFIG_ZDB_SCAN_YIELD_EVERY_N =? 0)%Z
   then on_k_ k_yield else ret tt);;
  if negb (zdb_ts_window_match (window cctx) (ts_ms s)) then ret (false, cursor, cctx)
  else if negb (zdb_ts_predicate_match cursor record) then ret (false, cursor, cctx)
  else ret (true, cursor <| cu_current := Some record |>,
            cctx <| last_ts_ms := ts_ms s |> <| last_value := value s |>).

(** What a walk reports: the status, the record stored, the cursor. *)
Abbreviation step_result := (zdb_status_t * option (list byte) * zdb_cursor_t FH)%type.

Definition with_walk (cursor : zdb_cursor_t FH) (cctx : walk) : zdb_cursor_t FH :=
  cursor <| cu_impl := Some cctx |>.

(** The loop over the ingest buffer, under the lock. Every round consumes a
    record of the buffer. *)
Fixpoint ram_loop (fuel : nat) (i : nat) (cursor : zdb_cursor_t FH) (cctx : walk)
    : M W step_result :=
  match fuel with
  | 0 => zdb_unlock_read the_db;; ret (ZDB_ERR_NOT_FOUND, None, with_walk cursor cctx)
  | S fuel =>
      slot ← slot_get i;
      let rec_size := zdb_ts_slot_rec_size slot in
      if ingest_used slot <? ram_offset cctx + rec_size then
        zdb_unlock_read the_db;; ret (ZDB_ERR_NOT_FOUND, None, with_walk cursor cctx)
      else
        let buf_off := if descending cctx then ingest_used slot - ram_offset cctx - rec_size
                       else ram_offset cctx in
        let candidate := take rec_size (drop buf_off (default [] (ingest_buf slot))) in
        '(dec_rc, dec) ← zdb_ts_record_decode_as (cc_db cctx) (zdb_ts_slot_version slot)
                           (zdb_ts_slot_base_ts slot) candidate;
        match dec_rc, dec with
        | ZDB_ERR_UNSUPPORTED, _ =>
            ram_loop fuel i cursor (cctx <| ram_offset := ram_offset cctx + rec_size |>)
        | ZDB_OK, Some s =>
            '(keep, cursor, cctx) ←
              consider cursor (cctx <| ram_offset := ram_offset cctx + rec_size |>) candidate s;
            if keep : bool then
              zdb_unlock_read the_db;;
              ret (ZDB_OK, Some candidate, with_walk cursor cctx)
            else ram_loop fuel i cursor cctx
        | _, _ => zdb_unlock_read the_db;; ret (dec_rc, None, with_walk cursor cctx)
        end
  end.

Definition zdb_ts_cursor_next_ram (cursor : zdb_cursor_t FH) (cctx : walk) : M W step_result :=
  ok ← zdb_ts_ctx_get_or_alloc (cc_db cctx);
  if negb ok then ret (ZDB_ERR_INVAL, None, with_walk cursor cctx)
  else
    ctx ← db_get ts_ctx;
    match zdb_ts_slot_find ctx (cc_stream_name cctx) with
    | None => ret (ZDB_ERR_NOT_FOUND, None, with_walk cursor cctx)
    | Some i =>
        slot ← slot_get i;
        match ingest_buf slot with
        | None => ret (ZDB_ERR_NOT_FOUND, None, with_walk cursor cctx)
        | Some _ =>
            lock_rc ← zdb_lock_read the_db;
            if negb (bool_decide (lock_rc = ZDB_OK)) then
              ret (lock_rc, None, with_walk cursor cctx)
            else
              used ← db_get (λ d, ingest_used (default zero_stream (ctx_streams d !! i)));
              ram_loop (S used) i cursor cctx
        end
    end.

(** The loop over the files. *)
Fixpoint file_loop (fuel : nat) (cursor : zdb_cursor_t FH) (cctx : walk)
    : M W (option step_result) :=
  match fuel with
  | 0 => ret None
  | S fuel =>
      if file_done cctx then ret (Some (ZDB_ERR_NOT_FOUND, None, with_walk cursor cctx))
      else
        '(rc, candidate, cctx') ← zdb_ts_cursor_read_file_record (Some cctx);
        let cctx := default cctx cctx' in
        match rc, candidate with
        | ZDB_ERR_NOT_FOUND, _ =>
            ret (Some (ZDB_ERR_NOT_FOUND, None, with_walk cursor (cctx <| file_done := true |>)))
        | ZDB_OK, Some record =>
            '(dec_rc, dec) ← zdb_ts_record_decode_as (cc_db cctx)
              (if rec_size cctx =? sizeof_record_v2 then ZDB_TS_STREAM_VERSION_V2
               else ZDB_TS_STREAM_VERSION) (base_ts_ms cctx) record;
            match dec_rc, dec with
            | ZDB_ERR_UNSUPPORTED, _ => file_loop fuel cursor cctx
            | ZDB_OK, Some s =>
                '(keep, cursor, cctx) ← consider cursor cctx record s;
                if keep : bool then ret (Some (ZDB_OK, Some record, with_walk cursor cctx))
                else file_loop fuel cursor cctx
            | _, _ => ret (Some (dec_rc, None, with_walk cursor cctx))
            end
        | _, _ => ret (Some (rc, None, with_walk cursor cctx))
        end
  end.

(** [zdb_cursor_next]; [out_record] says whether the pointer is set. *)
Definition zdb_cursor_next (fuel : nat) (cursor : option (zdb_cursor_t FH)) (out_record : bool)
    : M W (option (zdb_status_t * option (list byte) * option (zdb_cursor_t FH))) :=
  let lift (r : option step_result) :=
    (λ r : step_result, (r.1.1, r.1.2, Some r.2)) <$> r in
  match cursor with
  | None => ret (Some (ZDB_ERR_INVAL, None, None))
  | Some c =>
      if negb out_record then ret (Some (ZDB_ERR_INVAL, None, cursor))
      else
        match (if bool_decide (cu_model c = ZDB_MODEL_TS) then cu_impl c else None) with
        | None => ret (Some (ZDB_ERR_UNSUPPORTED, None, cursor))
        | Some cctx =>
            '(ram_rc, out, c) ←
              (if descending cctx then zdb_ts_cursor_next_ram c cctx
               else ret (ZDB_ERR_NOT_FOUND, None, c));
            if negb (bool_decide (ram_rc = ZDB_ERR_NOT_FOUND))
            then ret (Some (ram_rc, out, Some c))
            else
              let cctx := default cctx (cu_impl c) in
              r ← file_loop fuel c cctx;
              match r with
              | Some (ZDB_ERR_NOT_FOUND, _, c) =>
                  let cctx := default cctx (cu_impl c) in
                  if negb (descending cctx) then
                    r ← zdb_ts_cursor_next_ram c cctx;
                    ret (lift (Some r))
                  else ret (Some (ZDB_ERR_NOT_FOUND, None, Some c))
              | _ => ret (lift r)
              end
        end
  end.

(** The sample is what is stored through [out_sample]. *)
Definition zdb_ts_cursor_next_sample (fuel : nat) (cursor : option (zdb_cursor_t FH))
    (out_sample : bool)
    : M W (option (zdb_status_t * option zdb_ts_sample_i64_t * option (zdb_cursor_t FH))) :=
  match cursor with
  | Some _ =>
      if negb out_sample then ret (Some (ZDB_ERR_INVAL, None, cursor))
      else
        r ← zdb_cursor_next fuel cursor true;
        ret (match r with
             | Some (ZDB_OK, _, c) =>
                 Some (ZDB_OK,
                   (λ cctx, {| ts_ms := last_ts_ms cctx; value := last_value cctx |}) <$>
                     (c ≫= cu_impl), c)
             | Some (rc, _, c) => Some (rc, None, c)
             | None => None
             end)
  | None => ret (Some (ZDB_ERR_INVAL, None, cursor))
  end.
End cursor.
