(* ===== verification/TsRecover.v ===== *)
(** * Recovery and the consumed watermark ([zephyrdb_ts.c]) *)

From S2P Require Import Prelude Config Env Types FsEnv Events Cursor TsFormat TsStore TsSegment TsCursor.

Section recover.
Context {Cfg : Config} {K F FS FH DH : Type} `{!Kernel K, !FileSys FS FH DH, !Crc32}.
Abbreviation W := (world K F FS).

(** ** Recovery *)

(** The single exit of every failure. *)
Definition recover_fail (ts : zdb_ts_t) (status : zdb_status_t) : M W zdb_status_t :=
  STAT_INC_recover_failures (ts_db ts);;
  zdb_health_check (ts_db ts);;
  (if CONFIG_ZDB_EVENTING
   then zdb_emit_ts_event (ts_db ts) ZDB_TS_EVENT_RECOVER (ts_stream_name ts) 0 0 0 0 status
   else ret tt);;
  ret status.

Definition recover_done (ts : zdb_ts_t) (truncated_bytes : nat) : M W zdb_status_t :=
  (if CONFIG_ZDB_EVENTING
   then zdb_emit_ts_event (ts_db ts) ZDB_TS_EVENT_RECOVER (ts_stream_name ts) 0 0 0
          truncated_bytes ZDB_OK
   else ret tt);;
  ret ZDB_OK.

(** The local array [rec], of [ZDB_TS_HDR_MAX_SIZE] bytes, after a record has
    been read into it. A larger one overruns it: what it reads back as is then
    not determined, and what else the write damages is not modelled. *)
Definition recover_buffer (rec : list byte) : list byte :=
  if length rec <=? ZDB_TS_HDR_MAX_SIZE then rec else BUFFER_OVERRUN ZDB_TS_HDR_MAX_SIZE rec.

(** The walk over the records: the end of the last good one, or the error of a
    read. The fuel bounds the number of records the file can hold. *)
Fixpoint recover_loop (fuel : nat) (db : db_ptr) (file : FH) (rec_size good_end : nat)
    : M W (zdb_status_t * nat * FH) :=
  match fuel with
  | 0 => ret (ZDB_OK, good_end, file)
  | S fuel =>
      '(rd, rec, file) ← on_fs (fs_read file rec_size);
      if (rd =? 0)%Z then ret (ZDB_OK, good_end, file)
      else if (rd <? 0)%Z then ret (zdb_status_from_errno rd, good_end, file)
      else if negb (rd =? rec_size)%Z then ret (ZDB_OK, good_end, file)
      else
        '(dec_rc, _) ← zdb_ts_record_decode_as db
          (if rec_size =? sizeof_record_v2 then ZDB_TS_STREAM_VERSION_V2
           else ZDB_TS_STREAM_VERSION) 0 (recover_buffer rec);
        if negb (bool_decide (dec_rc = ZDB_OK)) then ret (ZDB_OK, good_end, file)
        else recover_loop fuel db file rec_size (good_end + rec_size)
  end.

(** From the position past the header to the truncation, on an open file: the
    status and the bytes removed. *)
Definition recover_walk (db : db_ptr) (file : FH) (path : list byte) (hdr_size rec_size : nat)
    : M W (zdb_status_t * nat) :=
  '(rc, file) ← on_fs (fs_seek_set file (off_t hdr_size));
  if (rc <? 0)%Z then on_fs (fs_close file);; ret (zdb_status_from_errno rc, 0)
  else
    fuel ← mgets (λ w, S (length (default [] (fs_files (w_fs w) !! path))));
    '(status, good_end, file) ← recover_loop fuel db file rec_size hdr_size;
    if negb (bool_decide (status = ZDB_OK)) then on_fs (fs_close file);; ret (status, 0)
    else
      end_pos ← on_fs (fs_tell file);
      if (end_pos <? 0)%Z then on_fs (fs_close file);; ret (zdb_status_from_errno end_pos, 0)
      else if good_end <? size_t end_pos then
        rc ← on_fs (fs_truncate file good_end);
        if (rc <? 0)%Z then on_fs (fs_close file);; ret (zdb_status_from_errno rc, 0)
        else
          STAT_ADD_recover_truncated_bytes db (size_t end_pos - good_end);;
          on_fs (fs_close file);;
          ret (ZDB_OK, size_t end_pos - good_end)
      else on_fs (fs_close file);; ret (ZDB_OK, 0).

(** The file an interrupted append can have left a partial record in. *)
Definition recover_path (ts : zdb_ts_t) : M W (zdb_status_t + list byte) :=
  if ZDB_TS_SEGMENTED then
    ok ← zdb_ts_ctx_get_or_alloc (ts_db ts);
    ctx ← db_get ts_ctx;
    match (if ok : bool then zdb_ts_slot_find ctx (ts_stream_name ts) else None) with
    | None => ret (inl ZDB_ERR_INVAL)
    | Some i =>
        p ← zdb_ts_active_path the_db i ZDB_TS_PATH_MAX;
        ret (match p with inl rc => inl (zdb_status_from_errno rc) | inr p => inr p end)
    end
  else
    c ← db_get cfg;
    ret (match zdb_ts_build_path c (ts_stream_name ts) ZDB_TS_PATH_MAX with
         | inl rc => inl (zdb_status_from_errno rc)
         | inr p => inr p
         end).

(** The header size and record size of the file. *)
Definition recover_layout (ts : zdb_ts_t) (path : list byte) : M W (nat * nat) :=
  '(rc, _) ← on_fs (fs_stat path);
  if (rc =? 0)%Z then
    '(rc, probe) ← zdb_ts_cursor_learn_layout
                     (new_walk ts {| from_ts_ms := 0; to_ts_ms := 0 |} false) path;
    ret (if bool_decide (rc = ZDB_OK) then (hdr_size probe, rec_size probe)
         else (sizeof_stream_header, sizeof_record_i64))
  else ret (sizeof_stream_header, sizeof_record_i64).

(** The run on the file: a header for an empty one, the walk for one whose
    header can be read. *)
Definition recover_file (db : db_ref) (name : cstring) (path : list byte) (hdr_size rec_size : nat)
    : M W (zdb_status_t * nat) :=
  '(rc, file) ← on_fs (fs_open fs_file_t_init path FS_CREATE_RDWR);
  if (rc <? 0)%Z then ret (zdb_status_from_errno rc, 0)
  else
    '(rd, hdr, file) ← on_fs (fs_read file sizeof_stream_header);
    if (rd =? 0)%Z then
      let hdr := zdb_ts_stream_header_encode name in
      '(rc, file) ← on_fs (fs_seek_set file 0);
      if (rc <? 0)%Z then
        on_fs (fs_close file);;
        ret (zdb_status_from_errno rc, 0)
      else
        '(wr, file) ← on_fs (fs_write file hdr);
        on_fs (fs_close file);;
        ret (if (wr <? 0)%Z then zdb_status_from_errno wr
             else if negb (wr =? sizeof_stream_header)%Z then ZDB_ERR_IO else ZDB_OK, 0)
    else if (rd <? 0)%Z then
      on_fs (fs_close file);; ret (zdb_status_from_errno rd, 0)
    else if negb (rd =? sizeof_stream_header)%Z then
      on_fs (fs_close file);; ret (ZDB_ERR_CORRUPT, 0)
    else
      dec ← (if hdr_size =? sizeof_stream_header
             then zdb_ts_stream_header_decode (Some db) (Some hdr) (Some name)
             else ret ZDB_OK);
      if negb (bool_decide (dec = ZDB_OK)) then
        on_fs (fs_close file);; ret (dec, 0)
      else recover_walk (Some db) file path hdr_size rec_size.

(** The status, and what is stored through [out_truncated_bytes] when it is
    not NULL. *)
Definition zdb_ts_recover_stream (ts : option zdb_ts_t) (out_truncated_bytes : bool)
    : M W (zdb_status_t * option nat) :=
  match ts with
  | Some {| ts_db := Some db; ts_stream_name := Some name |} =>
      let ts := {| ts_db := Some db; ts_stream_name := Some name |} in
      let out (n : nat) := if out_truncated_bytes then Some n else None in
      let fail (status : zdb_status_t) : M W (zdb_status_t * option nat) :=
        rc ← recover_fail ts status; ret (rc, out 0) in
      STAT_INC_recover_runs (Some db);;
      p ← recover_path ts;
      match p with
      | inl status => fail status
      | inr path =>
          '(hdr_size, rec_size) ← recover_layout ts path;
          '(status, truncated) ← recover_file db name path hdr_size rec_size;
          if negb (bool_decide (status = ZDB_OK)) then fail status
          else rc ← recover_done ts truncated; ret (rc, out truncated)
      end
  | _ => ret (ZDB_ERR_INVAL, None)
  end.

(** ** The consumed watermark *)

Definition watermark_event (ts : zdb_ts_t) (mark : Z) (status : zdb_status_t)
    : M W zdb_status_t :=
  (if CONFIG_ZDB_EVENTING
   then zdb_emit_ts_event (ts_db ts) ZDB_TS_EVENT_WATERMARK (ts_stream_name ts) mark 0 0 0 status
   else ret tt);;
  ret status.

Definition zdb_ts_watermark_set (ts : option zdb_ts_t) (consumed_ts_ms : Z) : M W zdb_status_t :=
  match ts with
  | Some t =>
      match ts_db t with
      | None => ret ZDB_ERR_INVAL
      | Some db =>
          c ← db_get cfg;
          match c with
          | None => ret ZDB_ERR_INVAL
          | Some _ =>
              ok ← zdb_ts_ctx_get_or_alloc (Some db);
              if negb ok then ret ZDB_ERR_NOMEM
              else
                rc ← zdb_ts_ensure_stream_dir c true;
                if (rc <? 0)%Z then ret (zdb_status_from_errno rc)
                else
                  match zdb_ts_build_watermark_path c (ts_stream_name t) ZDB_TS_PATH_MAX with
                  | inl rc => ret (zdb_status_from_errno rc)
                  | inr path =>
                      let rec := watermark_encode consumed_ts_ms in
                      lock_rc ← zdb_lock_write db;
                      if negb (bool_decide (lock_rc = ZDB_OK)) then ret lock_rc
                      else
                        '(rc, file) ← on_fs (fs_open fs_file_t_init path FS_CREATE_WRITE_TRUNC);
                        if (rc <? 0)%Z then
                          zdb_unlock_write db;;
                          ret (zdb_status_from_errno rc)
                        else
                          '(wr, file) ← on_fs (fs_write file rec);
                          on_fs (fs_close file);;
                          zdb_unlock_write db;;
                          watermark_event t consumed_ts_ms
                            (if (wr <? 0)%Z then zdb_status_from_errno wr
                             else if (wr =? sizeof_watermark_rec)%Z then ZDB_OK else ZDB_ERR_IO)
                  end
          end
      end
  | None => ret ZDB_ERR_INVAL
  end.

(** The mark is what is stored through [out_consumed_ts_ms]. *)
Definition zdb_ts_watermark_get (ts : option zdb_ts_t) (out_consumed_ts_ms : bool)
    : M W (zdb_status_t * option Z) :=
  match ts with
  | Some t =>
      match ts_db t with
      | None => ret (ZDB_ERR_INVAL, None)
      | Some db =>
          c ← db_get cfg;
          match c with
          | None => ret (ZDB_ERR_INVAL, None)
          | Some _ =>
              if negb out_consumed_ts_ms then ret (ZDB_ERR_INVAL, None)
              else
                match zdb_ts_build_watermark_path c (ts_stream_name t) ZDB_TS_PATH_MAX with
                | inl rc => ret (zdb_status_from_errno rc, None)
                | inr path =>
                    lock_rc ← zdb_lock_read db;
                    if negb (bool_decide (lock_rc = ZDB_OK)) then ret (lock_rc, None)
                    else
                      '(rc, file) ← on_fs (fs_open fs_file_t_init path FS_READ);
                      if (rc <? 0)%Z then
                        zdb_unlock_read db;;
                        ret (if (rc =? - ENOENT)%Z then ZDB_ERR_NOT_FOUND
                             else zdb_status_from_errno rc, None)
                      else
                        '(rd, rec, file) ← on_fs (fs_read file sizeof_watermark_rec);
                        on_fs (fs_close file);;
                        zdb_unlock_read db;;
                        ret (if (rd <? 0)%Z then (zdb_status_from_errno rd, None)
                             else match watermark_decode rd rec with
                                  | None => (ZDB_ERR_NOT_FOUND, None)
                                  | Some mark => (ZDB_OK, Some mark)
                                  end)
                end
          end
      end
  | None => ret (ZDB_ERR_INVAL, None)
  end.

Definition zdb_ts_watermark_clear (ts : option zdb_ts_t) : M W zdb_status_t :=
  match ts with
  | Some t =>
      match ts_db t with
      | None => ret ZDB_ERR_INVAL
      | Some db =>
          c ← db_get cfg;
          match c with
          | None => ret ZDB_ERR_INVAL
          | Some _ =>
              match zdb_ts_build_watermark_path c (ts_stream_name t) ZDB_TS_PATH_MAX with
              | inl rc => ret (zdb_status_from_errno rc)
              | inr path =>
                  lock_rc ← zdb_lock_write db;
                  if negb (bool_decide (lock_rc = ZDB_OK)) then ret lock_rc
                  else
                    rc ← on_fs (fs_unlink path);
                    zdb_unlock_write db;;
                    watermark_event t 0
                      (if (rc <? 0)%Z && negb (rc =? - ENOENT)%Z then zdb_status_from_errno rc
                       else ZDB_OK)
              end
          end
      end
  | None => ret ZDB_ERR_INVAL
  end.
End recover.
