(* ===== verification/TsOps.v ===== *)
(** * The operations on time-series streams ([zephyrdb_ts.c])

    Opening and closing, appending samples, flushing in the background and
    synchronously, counting and aggregating. The work queue's thread is an
    explicit step, [let_work_run], that runs the flush handler when the kernel
    schedules it. *)

From S2P Require Import Prelude Config Env Types FsEnv Events Cursor TsFormat TsStore TsSegment.
From S2P Require Import TsCursor TsRecover Doubles.

(** The result of an aggregate query. *)
Record zdb_ts_agg_result_t := {
  ar_agg : zdb_ts_agg_t;
  ar_value : double;
  ar_points : Z;
  ar_truncated : bool;
}.

(** [zdb_ts_agg_update]: the counter and the accumulator after a sample. *)
Definition zdb_ts_agg_update (agg : zdb_ts_agg_t) (sample : double) (points : Z) (acc : double)
    : Z * double :=
  if (points =? 0)%Z then (1%Z, sample)
  else
    (u32 (points + 1),
     match agg with
     | ZDB_TS_AGG_MIN => if d_lt sample acc then sample else acc
     | ZDB_TS_AGG_MAX => if d_lt acc sample then sample else acc
     | ZDB_TS_AGG_AVG | ZDB_TS_AGG_SUM => d_add acc sample
     | ZDB_TS_AGG_COUNT => acc
     end).

Section ops.
Context {Cfg : Config} {K F FS FH DH : Type} `{!Kernel K, !FileSys FS FH DH, !Crc32}.
Abbreviation W := (world K F FS).

(** ** Open and close *)

(** The status, and what [*ts] holds afterwards. *)
Definition zdb_ts_open (db : db_ptr) (stream_name : option cstring) (ts : option zdb_ts_t)
    : M W (zdb_status_t * option zdb_ts_t) :=
  match db, stream_name, ts with
  | Some d, Some name, Some _ =>
      if negb (zdb_ts_stream_name_valid stream_name) then ret (ZDB_ERR_INVAL, ts)
      else
        c ← db_get cfg;
        match c with
        | None => ret (ZDB_ERR_INVAL, ts)
        | Some _ =>
            ok ← zdb_ts_ctx_get_or_alloc db;
            if negb ok then ret (ZDB_ERR_NOMEM, ts)
            else
              ensure_rc ← zdb_ts_ensure_stream_dir c true;
              if (ensure_rc <? 0)%Z then ret (zdb_status_from_errno ensure_rc, ts)
              else
                rc ← (if negb ZDB_TS_SEGMENTED then zdb_ts_ensure_stream_header db stream_name
                      else ret ZDB_OK);
                if negb (bool_decide (rc = ZDB_OK)) then ret (rc, ts)
                else
                  slot ← zdb_ts_slot_claim name;
                  match slot with
                  | None => ret (ZDB_ERR_BUSY, ts)
                  | Some _ =>
                      let t := {| ts_db := db; ts_stream_name := stream_name |} in
                      if CONFIG_ZDB_TS_AUTO_RECOVER then
                        '(rc, truncated) ← zdb_ts_recover_stream (Some t) true;
                        if negb (bool_decide (rc = ZDB_OK)) then
                          STAT_INC_recover_failures db;;
                          ret (rc, Some t)
                        else if (0 <? CONFIG_ZDB_TS_MAX_RECOVERY_TRUNCATE_BYTES) &&
                                (CONFIG_ZDB_TS_MAX_RECOVERY_TRUNCATE_BYTES <?
                                   default 0 truncated) then
                          STAT_INC_recover_failures db;;
                          ret (ZDB_ERR_CORRUPT, Some t)
                        else ret (ZDB_OK, Some t)
                      else ret (ZDB_OK, Some t)
                  end
        end
  | _, _, _ => ret (ZDB_ERR_INVAL, ts)
  end.

Definition zdb_ts_close (ts : option zdb_ts_t) : M W (zdb_status_t * option zdb_ts_t) :=
  match ts with
  | None => ret (ZDB_ERR_INVAL, None)
  | Some t =>
      status ←
        match ts_db t, ts_stream_name t with
        | Some db, Some name =>
            ctx ← db_get ts_ctx;
            match ctx with
            | None => ret ZDB_OK
            | Some _ =>
                lock_rc ← zdb_lock_write db;
                if negb (bool_decide (lock_rc = ZDB_OK)) then ret ZDB_OK
                else
                  ctx ← db_get ts_ctx;
                  let slot := zdb_ts_slot_find ctx (Some name) in
                  status ←
                    match slot with
                    | Some i =>
                        s ← slot_get i;
                        status ←
                          (if (open_count s <=? 1)%Z then
                             rc ← zdb_ts_flush_buffer_locked db slot;
                             ret (if (rc <? 0)%Z then zdb_status_from_errno rc else ZDB_OK)
                           else ret ZDB_OK);
                        zdb_ts_slot_release slot;;
                        ret status
                    | None => ret ZDB_OK
                    end;
                  zdb_unlock_write db;;
                  ret status
            end
        | _, _ => ret ZDB_OK
        end;
      ret (status, Some {| ts_db := None; ts_stream_name := None |})
  end.

(** ** Flushing *)

(** [zdb_ts_flush_work_handler], on the work queue's thread. *)
Definition zdb_ts_flush_work_handler (db : db_ref) : M W unit :=
  lock_rc ← zdb_lock_write db;
  if negb (bool_decide (lock_rc = ZDB_OK)) then
    ctx_upd (λ c, c <| flush_pending := false |>);;
    on_k_ k_sem_give
  else
    d ← zdb_ts_flush_all_locked db;
    let status := if (dr_error d <? 0)%Z then zdb_status_from_errno (dr_error d) else ZDB_OK in
    ctx_upd (λ c, c <| flush_pending := false |>);;
    on_k_ k_sem_give;;
    zdb_unlock_write db;;
    (if CONFIG_ZDB_EVENTING && ((0 <? dr_flushed d) || negb (bool_decide (status = ZDB_OK)))
     then zdb_emit_ts_event (Some db) ZDB_TS_EVENT_FLUSH (dr_only d) 0 0 (dr_flushed d) 0 status
     else ret tt).

Definition is_flush_pending (d : zdb_t) : bool :=
  match ts_ctx d with Some c => flush_pending c | None => false end.

(** A point where the work queue's thread may be scheduled: a submitted flush
    runs when the kernel says so. *)
Definition let_work_run (db : db_ref) : M W unit :=
  runs ← on_k k_work_runs;
  pending ← db_get is_flush_pending;
  if runs && pending then zdb_ts_flush_work_handler db else ret tt.

Definition zdb_ts_flush_async (ts : option zdb_ts_t) : M W zdb_status_t :=
  match ts with
  | Some {| ts_db := Some db |} =>
      c ← db_get cfg;
      match c with
      | None => ret ZDB_ERR_INVAL
      | Some _ =>
          ok ← zdb_ts_ctx_get_or_alloc (Some db);
          if negb ok then ret ZDB_ERR_NOMEM
          else
            lock_rc ← zdb_lock_write db;
            if negb (bool_decide (lock_rc = ZDB_OK)) then ret lock_rc
            else
              pending ← db_get is_flush_pending;
              if pending : bool then
                zdb_unlock_write db;;
                ret ZDB_ERR_BUSY
              else
                ctx_upd (λ c, c <| flush_pending := true |>);;
                rc ← on_k k_work_submit;
                zdb_unlock_write db;;
                if (rc <? 0)%Z then
                  ctx_upd (λ c, c <| flush_pending := false |>);;
                  ret (zdb_status_from_errno rc)
                else ret ZDB_OK
      end
  | _ => ret ZDB_ERR_INVAL
  end.

Definition zdb_ts_flush_sync (ts : option zdb_ts_t) : M W zdb_status_t :=
  match ts with
  | Some {| ts_db := Some db |} =>
      ok ← zdb_ts_ctx_get_or_alloc (Some db);
      if negb ok then ret ZDB_ERR_INTERNAL
      else
        on_k k_sem_take;;
        rc ← zdb_ts_flush_async ts;
        if negb (bool_decide (rc = ZDB_OK)) && negb (bool_decide (rc = ZDB_ERR_BUSY)) then ret rc
        else
          let_work_run db;;
          pending ← db_get is_flush_pending;
          if negb pending then ret ZDB_OK
          else
            let_work_run db;;
            sem_rc ← on_k k_sem_take;
            if (sem_rc =? - EAGAIN)%Z then ret ZDB_ERR_TIMEOUT
            else if negb (sem_rc =? 0)%Z then ret (zdb_status_from_errno sem_rc)
            else
              pending ← db_get is_flush_pending;
              ret (if pending : bool then ZDB_ERR_BUSY else ZDB_OK)
  | _ => ret ZDB_ERR_INVAL
  end.

(** ** Appending *)

(** Storing an encoded record in the buffer of a slot. [rec_size] is what the
    caller adds to the used length, whatever the record's own length. *)
Definition put_record (i : nat) (bytes : list byte) (rec_size : nat) : M W unit :=
  slot_upd i (λ s,
    s <| ingest_buf ::= option_map (λ b, buf_write b (ingest_used s) bytes) |>
      <| ingest_used := ingest_used s + rec_size |>).

(** A sample out of range of the segment's timestamp base: what is buffered is
    persisted and a segment based on the sample is started. *)
Definition rebase_record (db : db_ref) (i : nat) (sample : zdb_ts_sample_i64_t) (rec_size : nat)
    : M W (zdb_status_t * nat) :=
  rc ← zdb_ts_flush_buffer_locked db (Some i);
  rc ← (if (rc =? 0)%Z then zdb_ts_start_segment db i (ts_ms sample) else ret rc);
  if (rc <? 0)%Z then ret (zdb_status_from_errno rc, rec_size)
  else
    s ← slot_get i;
    match zdb_ts_record_encode_as (zdb_ts_slot_version s) (zdb_ts_slot_base_ts s) sample with
    | None => ret (ZDB_ERR_INVAL, rec_size)
    | Some bytes =>
        let rec_size := zdb_ts_slot_rec_size s in
        put_record i bytes rec_size;; ret (ZDB_OK, rec_size)
    end.

(** Encoding a sample into the buffer, which has room for [rec_size] bytes. *)
Definition encode_record (db : db_ref) (i : nat) (sample : zdb_ts_sample_i64_t) (rec_size : nat)
    : M W (zdb_status_t * nat) :=
  s ← slot_get i;
  match zdb_ts_record_encode_as (zdb_ts_slot_version s) (zdb_ts_slot_base_ts s) sample with
  | Some bytes => put_record i bytes rec_size;; ret (ZDB_OK, rec_size)
  | None =>
      if ZDB_TS_SEGMENTED then rebase_record db i sample rec_size
      else ret (ZDB_ERR_INVAL, rec_size)
  end.

(** The part [zdb_ts_append_i64] and [zdb_ts_append_batch_i64] share, under the
    lock: the status and the record size in use at the end. *)
Definition append_record (db : db_ref) (i : nat) (sample : zdb_ts_sample_i64_t)
    : M W (zdb_status_t * nat) :=
  s ← slot_get i;
  let rec_size := zdb_ts_slot_rec_size s in
  if (ingest_capacity s <? rec_size) || negb (bool_decide (is_Some (ingest_buf s)))
  then ret (ZDB_ERR_NOMEM, rec_size)
  else
    rc ← (if ingest_capacity s <? ingest_used s + rec_size
          then zdb_ts_flush_buffer_locked db (Some i) else ret 0%Z);
    if (rc <? 0)%Z then ret (zdb_status_from_errno rc, rec_size)
    else encode_record db i sample rec_size.

Definition append_event (ts : zdb_ts_t) (sample : zdb_ts_sample_i64_t) (status : zdb_status_t)
    : M W zdb_status_t :=
  (if CONFIG_ZDB_EVENTING
   then zdb_emit_ts_event (ts_db ts) ZDB_TS_EVENT_APPEND (ts_stream_name ts) (ts_ms sample)
          (value sample) 0 0 status
   else ret tt);;
  ret status.

Definition zdb_ts_append_i64 (ts : option zdb_ts_t) (sample : option zdb_ts_sample_i64_t)
    : M W zdb_status_t :=
  match ts, sample with
  | Some t, Some sample =>
      match ts_db t with
      | None => ret ZDB_ERR_INVAL
      | Some db =>
          ok ← zdb_ts_ctx_get_or_alloc (Some db);
          if negb ok then ret ZDB_ERR_INVAL
          else
            ctx ← db_get ts_ctx;
            match zdb_ts_slot_find ctx (ts_stream_name t) with
            | None => ret ZDB_ERR_INVAL
            | Some i =>
                lock_rc ← zdb_lock_write db;
                if negb (bool_decide (lock_rc = ZDB_OK)) then ret lock_rc
                else
                  '(status, rec_size) ← append_record db i sample;
                  s ← slot_get i;
                  let need_async_flush :=
                    bool_decide (status = ZDB_OK) &&
                    (ingest_capacity s <? ingest_used s + rec_size) in
                  zdb_unlock_write db;;
                  status ←
                    (if need_async_flush then
                       flush_rc ← zdb_ts_flush_async ts;
                       ret (if bool_decide (flush_rc = ZDB_ERR_BUSY) then status else flush_rc)
                     else ret status);
                  append_event t sample status
            end
      end
  | _, _ => ret ZDB_ERR_INVAL
  end.

Fixpoint append_batch (db : db_ref) (i : nat) (samples : list zdb_ts_sample_i64_t)
    : M W zdb_status_t :=
  match samples with
  | [] => ret ZDB_OK
  | sample :: rest =>
      '(status, _) ← append_record db i sample;
      if bool_decide (status = ZDB_OK) then append_batch db i rest else ret status
  end.

Definition zdb_ts_append_batch_i64 (ts : option zdb_ts_t)
    (samples : option (list zdb_ts_sample_i64_t)) : M W zdb_status_t :=
  match ts, samples with
  | Some t, Some (first :: rest) =>
      match ts_db t with
      | None => ret ZDB_ERR_INVAL
      | Some db =>
          ok ← zdb_ts_ctx_get_or_alloc (Some db);
          if negb ok then ret ZDB_ERR_INVAL
          else
            lock_rc ← zdb_lock_write db;
            if negb (bool_decide (lock_rc = ZDB_OK)) then ret lock_rc
            else
              ctx ← db_get ts_ctx;
              match zdb_ts_slot_find ctx (ts_stream_name t) with
              | None => zdb_unlock_write db;; ret ZDB_ERR_INVAL
              | Some i =>
                  status ← append_batch db i (first :: rest);
                  zdb_unlock_write db;;
                  s ← slot_get i;
                  (if bool_decide (status = ZDB_OK) &&
                      (ingest_capacity s <? ingest_used s + zdb_ts_slot_rec_size s)
                   then zdb_ts_flush_async ts;; ret tt else ret tt);;
                  append_event t first status
              end
      end
  | _, _ => ret ZDB_ERR_INVAL
  end.

(** ** Counting and aggregating *)

(** The whole records of a file of [size] bytes. *)
Definition records_in (size hdr_size rec_size : nat) : nat :=
  if hdr_size <? size then (size - hdr_size) / rec_size else 0.

(** One segment's contribution; a segment that is gone or unreadable has none. *)
Definition count_file (ts : zdb_ts_t) (path : list byte) : M W (Z * nat) :=
  '(rc, entry) ← on_fs (fs_stat path);
  if negb (rc =? 0)%Z then ret (rc, 0)
  else
    '(layout_rc, probe) ← zdb_ts_cursor_learn_layout
                            (new_walk ts {| from_ts_ms := 0; to_ts_ms := 0 |} false) path;
    ret (rc, if bool_decide (layout_rc = ZDB_OK)
             then records_in (de_size entry) (hdr_size probe) (rec_size probe) else 0).

Fixpoint count_segments (ts : zdb_ts_t) (seqs : list Z) (flushed : nat) : M W (Z + nat) :=
  match seqs with
  | [] => ret (inr flushed)
  | n :: rest =>
      c ← db_get cfg;
      match zdb_ts_build_segment_path c (ts_stream_name ts) n ZDB_TS_PATH_MAX with
      | inl rc => ret (inl rc)
      | inr path =>
          '(_, count) ← count_file ts path;
          count_segments ts rest (flushed + count)
      end
  end.

(** The flushed records, or the status to return. *)
Definition count_flushed (ts : zdb_ts_t) : M W (zdb_status_t + nat) :=
  if ZDB_TS_SEGMENTED then
    ctx ← db_get ts_ctx;
    match zdb_ts_slot_find ctx (ts_stream_name ts) with
    | None => ret (inl ZDB_ERR_INVAL)
    | Some i =>
        slot ← slot_get i;
        r ← count_segments ts (seqZ (oldest_seg slot) (cur_seg slot - oldest_seg slot + 1)) 0;
        ret (match r with inl rc => inl (zdb_status_from_errno rc) | inr n => inr n end)
    end
  else
    c ← db_get cfg;
    match zdb_ts_build_path c (ts_stream_name ts) ZDB_TS_PATH_MAX with
    | inl rc => ret (inl (zdb_status_from_errno rc))
    | inr path =>
        '(rc, count) ← count_file ts path;
        ret (if (rc =? 0)%Z || (rc =? - ENOENT)%Z then inr count
             else inl (zdb_status_from_errno rc))
    end.

(** The count is what is stored through [out_count]. *)
Definition zdb_ts_count_all (ts : zdb_ts_t) : M W (zdb_status_t * option Z) :=
  lock_rc ← zdb_lock_read the_db;
  if negb (bool_decide (lock_rc = ZDB_OK)) then ret (lock_rc, None)
  else
    r ← count_flushed ts;
    match r with
    | inl status => zdb_unlock_read the_db;; ret (status, None)
    | inr flushed =>
        ctx ← db_get ts_ctx;
        buffered ← (match zdb_ts_slot_find ctx (ts_stream_name ts) with
                    | None => ret 0
                    | Some i => s ← slot_get i; ret (ingest_used s / zdb_ts_slot_rec_size s)
                    end);
        zdb_unlock_read the_db;;
        ret (ZDB_OK, Some (u32 (flushed + buffered)))
    end.

(** The scan: the points and the accumulator once the stream or the cap is
    reached, or the error of a step; with the cursor to close. *)
Fixpoint agg_loop (fuel : nat) (agg : zdb_ts_agg_t) (cursor : option (zdb_cursor_t FH))
    (points : Z) (acc : double)
    : M W (option (zdb_status_t * Z * double * option (zdb_cursor_t FH))) :=
  match fuel with
  | 0 => ret None
  | S fuel' =>
      if bool_decide (agg = ZDB_TS_AGG_COUNT) || (points <? CONFIG_ZDB_TS_MAX_AGG_POINTS)%Z then
        r ← zdb_ts_cursor_next_sample fuel cursor true;
        match r with
        | None => ret None
        | Some (ZDB_OK, Some sample, cursor) =>
            let '(points, acc) := zdb_ts_agg_update agg (d_of_Z (value sample)) points acc in
            agg_loop fuel' agg cursor points acc
        | Some (ZDB_ERR_NOT_FOUND, _, cursor) => ret (Some (ZDB_OK, points, acc, cursor))
        | Some (rc, _, cursor) => ret (Some (rc, points, acc, cursor))
        end
      else ret (Some (ZDB_OK, points, acc, cursor))
  end.

(** [out_result] says whether the pointer is set. *)
Definition zdb_ts_query_aggregate (fuel : nat) (ts : option zdb_ts_t) (window : zdb_ts_window_t)
    (agg : zdb_ts_agg_t) (out_result : bool) (cursor : zdb_cursor_t FH)
    : M W (option (zdb_status_t * option zdb_ts_agg_result_t)) :=
  match ts with
  | Some t =>
      match ts_db t with
      | None => ret (Some (ZDB_ERR_INVAL, None))
      | Some _ =>
          if negb out_result then ret (Some (ZDB_ERR_INVAL, None))
          else if bool_decide (agg = ZDB_TS_AGG_COUNT) && zdb_ts_window_is_unbounded window then
            '(rc, count) ← zdb_ts_count_all t;
            ret (Some (rc, (λ n, {| ar_agg := agg; ar_value := d_of_Z n; ar_points := n;
                                    ar_truncated := false |}) <$> count))
          else
            '(rc, cursor) ← zdb_ts_cursor_open ts window None (Some cursor);
            if negb (bool_decide (rc = ZDB_OK)) then ret (Some (rc, None))
            else
              r ← agg_loop fuel agg cursor 0 (d_of_Z 0);
              match r with
              | None => ret None
              | Some (rc, points, acc, cursor) =>
                  if negb (bool_decide (rc = ZDB_OK)) then
                    zdb_cursor_close cursor;;
                    ret (Some (rc, None))
                  else
                    peek ← (if negb (bool_decide (agg = ZDB_TS_AGG_COUNT)) &&
                               (points =? CONFIG_ZDB_TS_MAX_AGG_POINTS)%Z
                            then zdb_ts_cursor_next_sample fuel cursor true
                            else ret (Some (ZDB_ERR_NOT_FOUND, None, cursor)));
                    match peek with
                    | None => ret None
                    | Some (peek_rc, _, cursor) =>
                        zdb_cursor_close cursor;;
                        if (points =? 0)%Z && negb (bool_decide (agg = ZDB_TS_AGG_COUNT))
                        then ret (Some (ZDB_ERR_NOT_FOUND, None))
                        else
                          ret (Some (ZDB_OK, Some
                            {| ar_agg := agg;
                               ar_value :=
                                 match agg with
                                 | ZDB_TS_AGG_COUNT => d_of_Z points
                                 | ZDB_TS_AGG_AVG => d_div acc (d_of_Z points)
                                 | _ => acc
                                 end;
                               ar_points := points;
                               ar_truncated := bool_decide (peek_rc = ZDB_OK) |}))
                    end
              end
      end
  | None => ret (Some (ZDB_ERR_INVAL, None))
  end.
End ops.
