(* ===== verification/TsFcb.v ===== *)
(** * Time-series streams on a flash circular buffer ([zephyrdb_ts.c])

    The branches of [#if ZDB_TS_USE_FCB]: a build with this backend has no
    LittleFS streams, no delta encoding and no recovery on open
    ([Kconfig.zephyrdb]), and every sample goes straight to one FCB that all
    streams share. The part of [struct zdb_ts_core_ctx] that exists in this
    build only, with the flash device, takes the place of the file system in
    the world; the position of a cursor, [fcb_loc] and [fcb_started], that of
    its file. *)

From S2P Require Import Prelude Config Env FcbEnv Types Events Cursor TsFormat TsStore TsOps.
From S2P Require Import TsCursor.

Definition ZDB_TS_FCB_MAGIC : Z := 0x5A444246.
Definition ZDB_TS_FCB_VERSION : Z := 1.

Section types.
Context {B D Sec L : Type}.

Record fcb_store := {
  ts_fcb : B;
  ts_fcb_sectors : list Sec;
  fcb_initialized : bool;
  flash : D;
}.

Record fcb_walk := { fcb_loc : L; fcb_started : bool }.
End types.
Arguments fcb_store : clear implicits.
Arguments fcb_walk : clear implicits.

Section fcb.
Context {Cfg : Config} {K F B D Sec L : Type} `{!Kernel K, !Fcb B D Sec L, !Crc32}.
Abbreviation W := (world K F (fcb_store B D Sec)).
Abbreviation walk := (zdb_ts_cursor_ctx (fcb_walk L)).
Abbreviation fcur := (zdb_cursor_t (fcb_walk L)).

(** ** The log *)

Definition fcb_get {A} (f : fcb_store B D Sec → A) : M W A := mgets (λ w, f (w_fs w)).
Definition fcb_set (f : fcb_store B D Sec → fcb_store B D Sec) : M W unit :=
  mmodify (λ w, w <| w_fs ::= f |>).

(** A call of the library on [ctx->ts_fcb]. *)
Definition on_fcb {A} (op : B * D → A * (B * D)) : M W A :=
  on_fs (λ s, let r := op (ts_fcb s, flash s) in
              (r.1, s <| ts_fcb := r.2.1 |> <| flash := r.2.2 |>)).

(** A new context is all zeros, this build's part of it included. *)
Definition fcb_ctx_get_or_alloc (db : db_ptr) : M W bool :=
  before ← db_get ts_ctx;
  ok ← zdb_ts_ctx_get_or_alloc db;
  (if ok && negb (bool_decide (is_Some before)) then
     fcb_set (λ s, s <| ts_fcb := fcb_zero |> <| ts_fcb_sectors := [] |>
                     <| fcb_initialized := false |>)
   else ret tt);;
  ret ok.

(** [ctx] says whether the pointer is set. *)
Definition zdb_ts_fcb_ensure_init (ctx : bool) : M W Z :=
  if negb ctx then ret (- EINVAL)%Z
  else
    initialized ← fcb_get fcb_initialized;
    if initialized : bool then ret 0%Z
    else
      fcb_set (λ s, s <| ts_fcb := fcb_zero |>);;
      device ← fcb_get flash;
      let '(rc, sectors) :=
        flash_area_get_sectors CONFIG_ZDB_TS_FCB_FLASH_AREA_ID CONFIG_ZDB_TS_FCB_SECTOR_COUNT device in
      if (rc <? 0)%Z then ret rc
      else
        fcb_set (λ s, s <| ts_fcb_sectors := sectors |>);;
        if length sectors <? 2 then ret (- EINVAL)%Z
        else
          let setup := {| f_magic := ZDB_TS_FCB_MAGIC; f_version := ZDB_TS_FCB_VERSION;
                          f_scratch_cnt := 1; f_sector_cnt := u16 (length sectors) |} in
          rc ← on_fcb (λ x, fcb_init CONFIG_ZDB_TS_FCB_FLASH_AREA_ID setup sectors x.2);
          if (rc <? 0)%Z then ret rc
          else
            fcb_set (λ s, s <| fcb_initialized := true |>);;
            ret 0%Z.

(** Space for a record, where [ctx] is initialised: with rollover a full log
    gives up its oldest sector, without it the append is refused. *)
Definition fcb_reserve : M W (Z * L) :=
  '(rc, loc) ← on_fcb (fcb_append sizeof_record_i64);
  if (rc =? - ENOSPC)%Z then
    if ZDB_TS_SEGMENTED then
      rc ← on_fcb fcb_rotate;
      if (rc <? 0)%Z then ret (rc, loc) else on_fcb (fcb_append sizeof_record_i64)
    else ret ((- ENOSPC)%Z, loc)
  else ret (rc, loc).

Definition zdb_ts_fcb_append_record (ctx : bool) (rec : option (list byte)) : M W Z :=
  match ctx, rec with
  | true, Some rec =>
      rc ← zdb_ts_fcb_ensure_init ctx;
      if (rc <? 0)%Z then ret rc
      else
        '(rc, loc) ← fcb_reserve;
        if (rc <? 0)%Z then ret rc
        else
          rc ← on_fcb (flash_area_write (FCB_ENTRY_FA_DATA_OFF loc) rec);
          if (rc <? 0)%Z then ret rc
          else on_fcb (fcb_append_finish loc)
  | _, _ => ret (- EINVAL)%Z
  end.

Definition zdb_ts_fcb_cursor_read_record (ctx : bool) (cctx : walk) (out_record : bool)
    : M W (zdb_status_t * option (list byte) * walk) :=
  if negb ctx || negb out_record then ret (ZDB_ERR_INVAL, None, cctx)
  else
    let cctx := if fcb_started (cc_file cctx) then cctx
                else cctx <| cc_file := {| fcb_loc := fcb_entry_zero; fcb_started := true |} |> in
    '(rc, loc) ← on_fcb (fcb_getnext (fcb_loc (cc_file cctx)));
    let cctx := cctx <| cc_file ::= λ p, p <| fcb_loc := loc |> |> in
    if (rc <? 0)%Z then
      ret (if (rc =? - ENOENT)%Z then ZDB_ERR_NOT_FOUND else zdb_status_from_errno rc, None, cctx)
    else if negb (fe_data_len loc =? sizeof_record_i64) then ret (ZDB_ERR_CORRUPT, None, cctx)
    else
      '(rc, data) ← on_fcb (flash_area_read (FCB_ENTRY_FA_DATA_OFF loc) sizeof_record_i64);
      let cctx := cctx <| cache := buf_write (cache cctx) 0 data |> in
      if (rc <? 0)%Z then ret (zdb_status_from_errno rc, None, cctx)
      else ret (ZDB_OK, Some (take sizeof_record_i64 (cache cctx)), cctx).

(** ** Open, close, flush *)

Definition fcb_ts_open (db : db_ptr) (stream_name : option cstring) (ts : option zdb_ts_t)
    : M W (zdb_status_t * option zdb_ts_t) :=
  match db, stream_name, ts with
  | Some _, Some name, Some _ =>
      if negb (zdb_ts_stream_name_valid stream_name) then ret (ZDB_ERR_INVAL, ts)
      else
        c ← db_get cfg;
        match c with
        | None => ret (ZDB_ERR_INVAL, ts)
        | Some _ =>
            ok ← fcb_ctx_get_or_alloc db;
            if negb ok then ret (ZDB_ERR_NOMEM, ts)
            else
              fcb_rc ← zdb_ts_fcb_ensure_init true;
              if (fcb_rc <? 0)%Z then ret (zdb_status_from_errno fcb_rc, ts)
              else
                slot ← zdb_ts_slot_claim name;
                match slot with
                | None => ret (ZDB_ERR_BUSY, ts)
                | Some _ => ret (ZDB_OK, Some {| ts_db := db; ts_stream_name := stream_name |})
                end
        end
  | _, _, _ => ret (ZDB_ERR_INVAL, ts)
  end.

(** Nothing is buffered, so nothing is flushed. *)
Definition fcb_ts_close (ts : option zdb_ts_t) : M W (zdb_status_t * option zdb_ts_t) :=
  match ts with
  | None => ret (ZDB_ERR_INVAL, None)
  | Some t =>
      (match ts_db t, ts_stream_name t with
       | Some db, Some name =>
           ctx ← db_get ts_ctx;
           match ctx with
           | None => ret tt
           | Some _ =>
               lock_rc ← zdb_lock_write db;
               if negb (bool_decide (lock_rc = ZDB_OK)) then ret tt
               else
                 ctx ← db_get ts_ctx;
                 (match zdb_ts_slot_find ctx (Some name) with
                  | Some i => zdb_ts_slot_release (Some i);; ret tt
                  | None => ret tt
                  end);;
                 zdb_unlock_write db
           end
       | _, _ => ret tt
       end);;
      ret (ZDB_OK, Some {| ts_db := None; ts_stream_name := None |})
  end.

Definition fcb_ts_flush_async (ts : option zdb_ts_t) : M W zdb_status_t :=
  match ts with
  | Some {| ts_db := Some db |} =>
      c ← db_get cfg;
      ret (match c with None => ZDB_ERR_INVAL | Some _ => ZDB_OK end)
  | _ => ret ZDB_ERR_INVAL
  end.

(** The calls that only check their handle: [zdb_ts_flush_sync] answers
    [ZDB_OK]; [zdb_ts_query_aggregate] and the three watermark calls answer
    [ZDB_ERR_UNSUPPORTED]. *)
Definition check_handle (ts : option zdb_ts_t) (answer : zdb_status_t) : zdb_status_t :=
  match ts with
  | Some {| ts_db := Some _ |} => answer
  | _ => ZDB_ERR_INVAL
  end.

Definition fcb_ts_flush_sync (ts : option zdb_ts_t) : zdb_status_t := check_handle ts ZDB_OK.
Definition fcb_ts_query_aggregate (ts : option zdb_ts_t) : zdb_status_t :=
  check_handle ts ZDB_ERR_UNSUPPORTED.
Definition fcb_ts_watermark_set (ts : option zdb_ts_t) : zdb_status_t :=
  check_handle ts ZDB_ERR_UNSUPPORTED.
Definition fcb_ts_watermark_get (ts : option zdb_ts_t) : zdb_status_t :=
  check_handle ts ZDB_ERR_UNSUPPORTED.
Definition fcb_ts_watermark_clear (ts : option zdb_ts_t) : zdb_status_t :=
  check_handle ts ZDB_ERR_UNSUPPORTED.

(** The status, and what is stored through [out_truncated_bytes] when it is set. *)
Definition fcb_ts_recover_stream (ts : option zdb_ts_t) (out_truncated_bytes : bool)
    : M W (zdb_status_t * option nat) :=
  match ts with
  | Some {| ts_db := Some db; ts_stream_name := Some name |} =>
      (if CONFIG_ZDB_EVENTING
       then zdb_emit_ts_event (Some db) ZDB_TS_EVENT_RECOVER (Some name) 0 0 0 0 ZDB_OK
       else ret tt);;
      ret (ZDB_OK, if out_truncated_bytes then Some 0 else None)
  | _ => ret (ZDB_ERR_INVAL, None)
  end.

(** ** Appending *)

Definition fcb_append_sample (sample : zdb_ts_sample_i64_t) : M W zdb_status_t :=
  rc ← zdb_ts_fcb_append_record true (Some (zdb_ts_record_encode sample));
  ret (if (rc <? 0)%Z then zdb_status_from_errno rc else ZDB_OK).

Definition fcb_ts_append_i64 (ts : option zdb_ts_t) (sample : option zdb_ts_sample_i64_t)
    : M W zdb_status_t :=
  match ts, sample with
  | Some t, Some sample =>
      match ts_db t with
      | None => ret ZDB_ERR_INVAL
      | Some db =>
          ok ← fcb_ctx_get_or_alloc (Some db);
          if negb ok then ret ZDB_ERR_INVAL
          else
            ctx ← db_get ts_ctx;
            match zdb_ts_slot_find ctx (ts_stream_name t) with
            | None => ret ZDB_ERR_INVAL
            | Some _ =>
                lock_rc ← zdb_lock_write db;
                if negb (bool_decide (lock_rc = ZDB_OK)) then ret lock_rc
                else
                  status ← fcb_append_sample sample;
                  zdb_unlock_write db;;
                  append_event t sample status
            end
      end
  | _, _ => ret ZDB_ERR_INVAL
  end.

Fixpoint fcb_append_batch (samples : list zdb_ts_sample_i64_t) : M W zdb_status_t :=
  match samples with
  | [] => ret ZDB_OK
  | sample :: rest =>
      status ← fcb_append_sample sample;
      if bool_decide (status = ZDB_OK) then fcb_append_batch rest else ret status
  end.

Definition fcb_ts_append_batch_i64 (ts : option zdb_ts_t)
    (samples : option (list zdb_ts_sample_i64_t)) : M W zdb_status_t :=
  match ts, samples with
  | Some t, Some (first :: rest) =>
      match ts_db t with
      | None => ret ZDB_ERR_INVAL
      | Some db =>
          ok ← fcb_ctx_get_or_alloc (Some db);
          if negb ok then ret ZDB_ERR_INVAL
          else
            lock_rc ← zdb_lock_write db;
            if negb (bool_decide (lock_rc = ZDB_OK)) then ret lock_rc
            else
              ctx ← db_get ts_ctx;
              match zdb_ts_slot_find ctx (ts_stream_name t) with
              | None => zdb_unlock_write db;; ret ZDB_ERR_INVAL
              | Some _ =>
                  status ← fcb_append_batch (first :: rest);
                  zdb_unlock_write db;;
                  append_event t first status
              end
      end
  | _, _ => ret ZDB_ERR_INVAL
  end.

(** ** Cursors *)

Definition fcb_cursor_reset (cursor : option fcur) : zdb_status_t * option fcur :=
  match cursor with
  | None => (ZDB_ERR_INVAL, None)
  | Some c =>
      let c := c <| cu_flags := 0%Z |> <| iter_count := 0%Z |> <| cu_position := 0%Z |>
                 <| cu_current := None |> in
      match (if CONFIG_ZDB_TS && bool_decide (cu_model c = ZDB_MODEL_TS) then cu_impl c else None)
      with
      | None => (ZDB_OK, Some c)
      | Some ctx =>
          (ZDB_OK, Some (c <| cu_impl := Some
             (ctx <| ram_offset := 0 |> <| cc_file ::= λ p, p <| fcb_started := false |> |>
                  <| file_done := true |>) |>))
      end
  end.

Definition fcb_cursor_close (cursor : option fcur) : M W (zdb_status_t * option fcur) :=
  match cursor with
  | None => ret (ZDB_ERR_INVAL, None)
  | Some c =>
      c ← (match (if CONFIG_ZDB_TS && bool_decide (cu_model c = ZDB_MODEL_TS)
                  then cu_impl c else None) with
           | None => ret c
           | Some ctx =>
               slab ← (match cc_db ctx with
                       | None => ret None
                       | Some _ => db_get cursor_slab
                       end);
               (match slab with None => ret tt | Some sl => on_k_ (k_mem_slab_free sl) end);;
               ret (c <| cu_impl := None |>)
           end);
      ret (fcb_cursor_reset (Some c))
  end.

(** The cursor context at the end of [zdb_ts_cursor_open_dir]; the fields of
    the LittleFS builds do not exist here. *)
Definition fcb_new_walk (ts : zdb_ts_t) (window : zdb_ts_window_t) (desc : bool) : walk :=
  {| cc_db := ts_db ts; cc_stream_name := ts_stream_name ts; window := window;
     cache := replicate sizeof_record_i64 nul;
     file_offset := 0; ram_offset := 0; file_done := true;
     cc_cur_seg := 0; seg_lo := 0; seg_hi := 0;
     hdr_size := 0; rec_size := 0; base_ts_ms := 0; last_ts_ms := 0; last_value := 0;
     descending := desc; cc_file := {| fcb_loc := fcb_entry_zero; fcb_started := false |};
     file_size := 0; file_open := false |}.

Definition fcb_cursor_open_dir (ts : option zdb_ts_t) (window : zdb_ts_window_t)
    (predicate : option zdb_predicate_fn) (desc : bool) (out_cursor : option fcur)
    : M W (zdb_status_t * option fcur) :=
  match ts, out_cursor with
  | Some t, Some out =>
      match ts_db t with
      | None => ret (ZDB_ERR_INVAL, out_cursor)
      | Some _ =>
          if desc then ret (ZDB_ERR_UNSUPPORTED, out_cursor)
          else
            slab ← db_get cursor_slab;
            match slab with
            | None => ret (ZDB_ERR_NOMEM, out_cursor)
            | Some sl =>
                rc ← on_k (k_mem_slab_alloc sl);
                if negb (rc =? 0)%Z then ret (ZDB_ERR_NOMEM, out_cursor)
                else
                  ret (fcb_cursor_reset (Some (out <| cu_model := ZDB_MODEL_TS |>
                    <| cu_backend := ZDB_BACKEND_FCB |> <| cu_predicate := predicate |>
                    <| cu_impl := Some (fcb_new_walk t window desc) |>)))
            end
      end
  | _, _ => ret (ZDB_ERR_INVAL, out_cursor)
  end.

Definition fcb_ts_cursor_open ts window predicate out_cursor :=
  fcb_cursor_open_dir ts window predicate false out_cursor.
Definition fcb_ts_cursor_open_desc ts window predicate out_cursor :=
  fcb_cursor_open_dir ts window predicate true out_cursor.

(** The loop over the entries, which ends when the library reports no more:
    [None] when [fuel] rounds were not enough. *)
Fixpoint fcb_loop (fuel : nat) (cursor : fcur) (cctx : walk)
    : M W (option (zdb_status_t * option (list byte) * fcur)) :=
  match fuel with
  | 0 => ret None
  | S fuel =>
      '(rc_fcb, candidate, cctx) ← zdb_ts_fcb_cursor_read_record true cctx true;
      match rc_fcb, candidate with
      | ZDB_OK, Some record =>
          '(dec_rc, dec) ← zdb_ts_record_decode (cc_db cctx) (Some record);
          match dec_rc, dec with
          | ZDB_ERR_UNSUPPORTED, _ => fcb_loop fuel cursor cctx
          | ZDB_OK, Some s =>
              '(keep, cursor, cctx) ← consider cursor cctx record s;
              if keep : bool then ret (Some (ZDB_OK, Some record, with_walk cursor cctx))
              else fcb_loop fuel cursor cctx
          | _, _ => ret (Some (dec_rc, None, with_walk cursor cctx))
          end
      | _, _ => ret (Some (rc_fcb, None, with_walk cursor cctx))
      end
  end.

Definition fcb_cursor_next (fuel : nat) (cursor : option fcur) (out_record : bool)
    : M W (option (zdb_status_t * option (list byte) * option fcur)) :=
  match cursor with
  | None => ret (Some (ZDB_ERR_INVAL, None, None))
  | Some c =>
      if negb out_record then ret (Some (ZDB_ERR_INVAL, None, cursor))
      else
        match (if bool_decide (cu_model c = ZDB_MODEL_TS) then cu_impl c else None) with
        | None => ret (Some (ZDB_ERR_UNSUPPORTED, None, cursor))
        | Some cctx =>
            match cu_backend c with
            | ZDB_BACKEND_FCB =>
                ok ← fcb_ctx_get_or_alloc (cc_db cctx);
                if negb ok then ret (Some (ZDB_ERR_INVAL, None, cursor))
                else
                  r ← fcb_loop fuel c cctx;
                  ret ((λ r, (r.1.1, r.1.2, Some r.2)) <$> r)
            | _ => ret (Some (ZDB_ERR_UNSUPPORTED, None, cursor))
            end
        end
  end.

(** The sample is what is stored through [out_sample]. *)
Definition fcb_cursor_next_sample (fuel : nat) (cursor : option fcur) (out_sample : bool)
    : M W (option (zdb_status_t * option zdb_ts_sample_i64_t * option fcur)) :=
  match cursor with
  | Some _ =>
      if negb out_sample then ret (Some (ZDB_ERR_INVAL, None, cursor))
      else
        r ← fcb_cursor_next fuel cursor true;
        ret (match r with
             | Some (ZDB_OK, _, c) =>
                 Some (ZDB_OK,
                   (λ cctx, {| ts_ms := last_ts_ms cctx; value := last_value cctx |}) <$>
                     (c ≫= cu_impl), c)
             | Some (rc, _, c) => Some (rc, None, c)
             | None => None
             end)
  | None => ret (Some (ZDB_ERR_INVAL, None, cursor))
  end.
End fcb.
