(* ===== verification/Doc.v ===== *)
(** * Documents in memory ([zephyrdb_doc.c], [zephyrdb.h])

    The types of the document model, the handle's creation and release, and
    the field accessors. A handle is the caller's object: the functions take
    its value and return it. A field's value is the union [zdb_doc_field_value_t]
    by its active member; all its members read as zero after [memset]. What is
    heap-allocated is counted block by block through [k_malloc] and [k_free]. *)

From S2P Require Import Prelude Config CText Env Types FsEnv Events Doubles.

(** ** Types *)

Inductive zdb_doc_field_type_t :=
  | ZDB_DOC_FIELD_NULL | ZDB_DOC_FIELD_INT64 | ZDB_DOC_FIELD_DOUBLE | ZDB_DOC_FIELD_STRING
  | ZDB_DOC_FIELD_BOOL | ZDB_DOC_FIELD_BYTES | ZDB_DOC_FIELD_OBJECT | ZDB_DOC_FIELD_ARRAY.

#[global] Instance zdb_doc_field_type_eq_dec : EqDecision zdb_doc_field_type_t.
Proof. solve_decision. Defined.

(** A [double] is kept as its 64 bits, which the code copies unchanged. *)
Inductive zdb_doc_field_value_t :=
  | V_zero
  | V_i64 (z : Z)
  | V_f64 (bits : Z)
  | V_str (s : option cstring)
  | V_bool (b : bool)
  | V_bytes (data : option (list byte)) (len : nat).

#[global] Instance zdb_doc_field_value_eq_dec : EqDecision zdb_doc_field_value_t.
Proof. solve_decision. Defined.

Definition value_i64 (v : zdb_doc_field_value_t) : Z := match v with V_i64 z => z | _ => 0 end.
Definition value_f64 (v : zdb_doc_field_value_t) : Z := match v with V_f64 z => z | _ => 0 end.
Definition value_b (v : zdb_doc_field_value_t) : bool := match v with V_bool b => b | _ => false end.
Definition value_str (v : zdb_doc_field_value_t) : option cstring :=
  match v with V_str s => s | _ => None end.
Definition value_bytes (v : zdb_doc_field_value_t) : option (list byte) * nat :=
  match v with V_bytes d n => (d, n) | _ => (None, 0) end.

Record zdb_doc_field_t := {
  fd_name : option cstring;
  fd_type : zdb_doc_field_type_t;
  fd_value : zdb_doc_field_value_t;
}.

#[global] Instance zdb_doc_field_eq_dec : EqDecision zdb_doc_field_t.
Proof. solve_decision. Defined.

Definition zero_field : zdb_doc_field_t :=
  {| fd_name := None; fd_type := ZDB_DOC_FIELD_NULL; fd_value := V_zero |}.

Record zdb_doc_t := {
  doc_db : db_ptr;
  collection_name : option cstring;
  document_id : option cstring;
  fields : option (list zdb_doc_field_t);
  field_count : nat;
  max_fields : nat;
  created_ms : Z;
  updated_ms : Z;
  doc_valid : bool;
}.

(** The size of a field on a 64-bit target; only the heap sees it. *)
Definition sizeof_doc_field : nat := 32.
Definition ZDB_DOC_PATH_MAX : nat := 160.
Definition ZDB_DOC_DIRNAME : list byte := s2b "zdb_docs".
Definition ZDB_DOC_FILE_EXT : list byte := s2b ".zdoc".
Definition ZDB_DOC_TMP_EXT : list byte := s2b ".zdoc.tmp".

(** ** Names *)

Definition zdb_doc_name_valid (name : option cstring) : bool :=
  match name with
  | None => false
  | Some n =>
      negb (bool_decide (n = [])) &&
      negb (bool_decide (n = s2b ".")) && negb (bool_decide (n = s2b "..")) &&
      forallb (λ b, negb (bool_decide (b = Byte.x2f)) && negb (bool_decide (b = Byte.x5c))) n
  end.

(** The check of a collection and a document name that the API functions make. *)
Definition doc_names_valid `{Config} (collection_name document_id : cstring) : bool :=
  let len_ok (s : cstring) := (0 <? length s) && (length s <=? CONFIG_ZDB_MAX_KEY_LEN) in
  len_ok collection_name && len_ok document_id &&
  zdb_doc_name_valid (Some collection_name) && zdb_doc_name_valid (Some document_id).

Section doc.
Context {Cfg : Config} {K F FS : Type} `{!Kernel K}.
Abbreviation W := (world K F FS).

(** ** Heap copies *)

Definition zdb_alloc_copy (src : option (list byte)) : M W (option (list byte)) :=
  match src with
  | None | Some [] => ret None
  | Some data =>
      ok ← on_k (k_malloc (length data));
      ret (if ok : bool then Some data else None)
  end.

Definition zdb_strdup_local (s : option cstring) : M W (option cstring) :=
  match s with
  | None => ret None
  | Some s =>
      dst ← zdb_alloc_copy (Some (s ++ [nul]));
      ret (c_str <$> dst)
  end.

(** [k_free], which ignores NULL. *)
Definition free_ptr {A} (p : option A) : M W unit :=
  match p with None => ret tt | Some _ => on_k_ k_free end.

(** ** Releasing fields *)

Definition zdb_doc_field_payload_free (field : zdb_doc_field_t) : M W zdb_doc_field_t :=
  field ←
    (match fd_type field, value_str (fd_value field) with
     | ZDB_DOC_FIELD_STRING, Some s =>
         on_k_ k_free;; ret (field <| fd_value := V_str None |>)
     | _, _ => ret field
     end);
  match fd_type field, (value_bytes (fd_value field)).1 with
  | ZDB_DOC_FIELD_BYTES, Some _ =>
      on_k_ k_free;; ret (field <| fd_value := V_bytes None 0 |>)
  | _, _ => ret field
  end.

Definition zdb_doc_field_value_free (field : zdb_doc_field_t) : M W zdb_doc_field_t :=
  free_ptr (fd_name field);;
  zdb_doc_field_payload_free (field <| fd_name := None |>).

Fixpoint free_fields (l : list zdb_doc_field_t) : M W unit :=
  match l with
  | [] => ret tt
  | f :: l => zdb_doc_field_value_free f;; free_fields l
  end.

Definition zdb_doc_fields_reset (doc : zdb_doc_t) : M W zdb_doc_t :=
  match fields doc with
  | None => ret doc
  | Some l =>
      free_fields (take (field_count doc) l);;
      ret (doc <| fields := Some (replicate (max_fields doc) zero_field) |> <| field_count := 0 |>)
  end.

(** ** Creating and closing *)

Definition doc_event (db : db_ptr) (type : zdb_doc_event_type_t)
    (collection_name document_id : option cstring) (field_count serialized_bytes : nat)
    (status : zdb_status_t) : M W unit :=
  if CONFIG_ZDB_EVENTING
  then zdb_emit_doc_event db type collection_name document_id field_count serialized_bytes status
  else ret tt.

(** The status, and the handle [out_doc] points at. *)
Definition zdb_doc_create (db : db_ptr) (collection_name document_id : option cstring)
    (out_doc : option zdb_doc_t) : M W (zdb_status_t * option zdb_doc_t) :=
  match db, collection_name, document_id, out_doc with
  | Some _, Some coll, Some id, Some _ =>
      c ← db_get cfg;
      match c ≫= lfs_mount_point with
      | None => ret (ZDB_ERR_INVAL, out_doc)
      | Some _ =>
          if negb (doc_names_valid coll id) then ret (ZDB_ERR_INVAL, out_doc)
          else
            collection_dup ← zdb_strdup_local (Some coll);
            document_dup ← zdb_strdup_local (Some id);
            match collection_dup, document_dup with
            | Some _, Some _ =>
                now ← on_k k_uptime_get;
                let doc := {| doc_db := db; collection_name := collection_dup;
                              document_id := document_dup; fields := None; field_count := 0;
                              max_fields := CONFIG_ZDB_DOC_MAX_FIELD_COUNT;
                              created_ms := u64 now; updated_ms := u64 now;
                              doc_valid := false |} in
                ok ← on_k (k_malloc (max_fields doc * sizeof_doc_field));
                if negb ok then
                  on_k_ k_free;; on_k_ k_free;;
                  doc_event db ZDB_DOC_EVENT_CREATE (Some coll) (Some id) 0 0 ZDB_ERR_NOMEM;;
                  ret (ZDB_ERR_NOMEM, Some
                    {| doc_db := None; collection_name := None; document_id := None;
                       fields := None; field_count := 0; max_fields := 0; created_ms := 0;
                       updated_ms := 0; doc_valid := false |})
                else
                  let doc := doc <| fields := Some (replicate (max_fields doc) zero_field) |>
                                 <| doc_valid := true |> in
                  doc_event db ZDB_DOC_EVENT_CREATE (Some coll) (Some id) (field_count doc) 0 ZDB_OK;;
                  ret (ZDB_OK, Some doc)
            | _, _ =>
                free_ptr collection_dup;; free_ptr document_dup;;
                ret (ZDB_ERR_NOMEM, out_doc)
            end
      end
  | _, _, _, _ => ret (ZDB_ERR_INVAL, out_doc)
  end.

Definition zdb_doc_close (doc : option zdb_doc_t) : M W (zdb_status_t * option zdb_doc_t) :=
  match doc with
  | None => ret (ZDB_ERR_INVAL, None)
  | Some doc =>
      doc ← zdb_doc_fields_reset doc;
      free_ptr (fields doc);;
      free_ptr (collection_name doc);;
      free_ptr (document_id doc);;
      ret (ZDB_OK, Some (doc <| fields := None |> <| collection_name := None |>
                             <| document_id := None |> <| doc_valid := false |>))
  end.

(** ** Setting fields *)

(** The position of the first of the populated fields with this name. *)
Fixpoint field_index (l : list zdb_doc_field_t) (name : cstring) (i : nat) : option nat :=
  match l with
  | [] => None
  | f :: l => if bool_decide (fd_name f = Some name) then Some i else field_index l name (S i)
  end.

Definition doc_fields (doc : zdb_doc_t) : list zdb_doc_field_t :=
  take (field_count doc) (default [] (fields doc)).

Definition field_upd (i : nat) (f : zdb_doc_field_t → zdb_doc_field_t) (doc : zdb_doc_t) : zdb_doc_t :=
  doc <| fields ::= option_map (alter f i) |>.
Definition field_at (doc : zdb_doc_t) (i : nat) : zdb_doc_field_t :=
  default zero_field (default [] (fields doc) !! i).

(** The status, the handle, and the field found or made, by its position. *)
Definition zdb_doc_field_find_or_create (doc : option zdb_doc_t) (field_name : option cstring)
    (type : zdb_doc_field_type_t) : M W (zdb_status_t * option zdb_doc_t * nat) :=
  match doc, field_name with
  | Some d, Some name =>
      if negb (doc_valid d) then ret (ZDB_ERR_INVAL, doc, 0)
      else if (length name =? 0) || (CONFIG_ZDB_DOC_MAX_FIELD_NAME_LEN <? length name)
      then ret (ZDB_ERR_INVAL, doc, 0)
      else
        match field_index (doc_fields d) name 0 with
        | None =>
            if max_fields d <=? field_count d then ret (ZDB_ERR_NOMEM, doc, 0)
            else
              name_dup ← zdb_strdup_local (Some name);
              match name_dup with
              | None => ret (ZDB_ERR_NOMEM, doc, 0)
              | Some _ =>
                  let i := field_count d in
                  let d := d <| field_count := S i |> in
                  ret (ZDB_OK, Some (field_upd i (λ _,
                    {| fd_name := name_dup; fd_type := type; fd_value := V_zero |}) d), i)
              end
        | Some i =>
            d ← (if bool_decide (fd_type (field_at d i) = type) then ret d
                 else
                   f ← zdb_doc_field_payload_free (field_at d i);
                   ret (field_upd i (λ _, f <| fd_value := V_zero |>) d));
            ret (ZDB_OK, Some (field_upd i (λ f, f <| fd_type := type |>) d), i)
        end
  | _, _ => ret (ZDB_ERR_INVAL, doc, 0)
  end.

(** Storing a value in the field a setter found, and the time. *)
Definition store_value (doc : option zdb_doc_t) (i : nat) (v : zdb_doc_field_value_t)
    : M W (zdb_status_t * option zdb_doc_t) :=
  now ← on_k k_uptime_get;
  ret (ZDB_OK, (λ d, field_upd i (λ f, f <| fd_value := v |>) d <| updated_ms := u64 now |>) <$> doc).

Definition zdb_doc_field_set_i64 (doc : option zdb_doc_t) (field_name : option cstring) (value : Z)
    : M W (zdb_status_t * option zdb_doc_t) :=
  '(rc, doc, i) ← zdb_doc_field_find_or_create doc field_name ZDB_DOC_FIELD_INT64;
  if negb (bool_decide (rc = ZDB_OK)) then ret (rc, doc) else store_value doc i (V_i64 value).

Definition zdb_doc_field_set_f64 (doc : option zdb_doc_t) (field_name : option cstring) (value : Z)
    : M W (zdb_status_t * option zdb_doc_t) :=
  '(rc, doc, i) ← zdb_doc_field_find_or_create doc field_name ZDB_DOC_FIELD_DOUBLE;
  if negb (bool_decide (rc = ZDB_OK)) then ret (rc, doc) else store_value doc i (V_f64 value).

Definition zdb_doc_field_set_bool (doc : option zdb_doc_t) (field_name : option cstring) (value : bool)
    : M W (zdb_status_t * option zdb_doc_t) :=
  '(rc, doc, i) ← zdb_doc_field_find_or_create doc field_name ZDB_DOC_FIELD_BOOL;
  if negb (bool_decide (rc = ZDB_OK)) then ret (rc, doc) else store_value doc i (V_bool value).

Definition zdb_doc_field_set_string (doc : option zdb_doc_t) (field_name value : option cstring)
    : M W (zdb_status_t * option zdb_doc_t) :=
  match doc, field_name, value with
  | Some _, Some _, Some v =>
      if CONFIG_ZDB_DOC_MAX_STRING_LEN <? length v then ret (ZDB_ERR_INVAL, doc)
      else
        '(rc, doc, i) ← zdb_doc_field_find_or_create doc field_name ZDB_DOC_FIELD_STRING;
        if negb (bool_decide (rc = ZDB_OK)) then ret (rc, doc)
        else
          dup ← zdb_strdup_local value;
          match dup with
          | None => ret (ZDB_ERR_NOMEM, doc)
          | Some _ =>
              let field := default zero_field ((λ d, field_at d i) <$> doc) in
              (if bool_decide (fd_type field = ZDB_DOC_FIELD_STRING)
               then free_ptr (value_str (fd_value field)) else ret tt);;
              store_value doc i (V_str dup)
          end
  | _, _, _ => ret (ZDB_ERR_INVAL, doc)
  end.

(** [value] is what the pointer points at, [len] bytes of it. *)
Definition zdb_doc_field_set_bytes (doc : option zdb_doc_t) (field_name : option cstring)
    (value : option (list byte)) (len : nat) : M W (zdb_status_t * option zdb_doc_t) :=
  match doc, field_name with
  | Some _, Some _ =>
      if negb (bool_decide (is_Some value)) && (0 <? len) then ret (ZDB_ERR_INVAL, doc)
      else if CONFIG_ZDB_DOC_MAX_BYTES_LEN <? len then ret (ZDB_ERR_INVAL, doc)
      else
        '(rc, doc, i) ← zdb_doc_field_find_or_create doc field_name ZDB_DOC_FIELD_BYTES;
        if negb (bool_decide (rc = ZDB_OK)) then ret (rc, doc)
        else
          dup ← zdb_alloc_copy (take len <$> value);
          if (0 <? len) && negb (bool_decide (is_Some dup)) then ret (ZDB_ERR_NOMEM, doc)
          else
            let field := default zero_field ((λ d, field_at d i) <$> doc) in
            (if bool_decide (fd_type field = ZDB_DOC_FIELD_BYTES)
             then free_ptr (value_bytes (fd_value field)).1 else ret tt);;
            store_value doc i (V_bytes dup len)
  | _, _ => ret (ZDB_ERR_INVAL, doc)
  end.
End doc.

(** ** Reading fields *)

(** The getters differ in the type they ask for and in the member they read;
    each returns what it stores through [out_value]. *)
Definition field_get {A} (doc : option zdb_doc_t) (field_name : option cstring) (out : bool)
    (type : zdb_doc_field_type_t) (member : zdb_doc_field_value_t → A) : zdb_status_t * option A :=
  match doc, field_name with
  | Some d, Some name =>
      if negb out then (ZDB_ERR_INVAL, None)
      else
        match field_index (doc_fields d) name 0 with
        | None => (ZDB_ERR_NOT_FOUND, None)
        | Some i =>
            if negb (bool_decide (fd_type (field_at d i) = type)) then (ZDB_ERR_INVAL, None)
            else (ZDB_OK, Some (member (fd_value (field_at d i))))
        end
  | _, _ => (ZDB_ERR_INVAL, None)
  end.

Definition zdb_doc_field_get_i64 doc field_name out :=
  field_get doc field_name out ZDB_DOC_FIELD_INT64 value_i64.
Definition zdb_doc_field_get_f64 doc field_name out :=
  field_get doc field_name out ZDB_DOC_FIELD_DOUBLE value_f64.
Definition zdb_doc_field_get_string doc field_name out :=
  field_get doc field_name out ZDB_DOC_FIELD_STRING value_str.
Definition zdb_doc_field_get_bool doc field_name out :=
  field_get doc field_name out ZDB_DOC_FIELD_BOOL value_b.
Definition zdb_doc_field_get_bytes doc field_name out :=
  field_get doc field_name out ZDB_DOC_FIELD_BYTES value_bytes.
