(* ===== verification/DocFile.v ===== *)
(** * Documents on storage ([zephyrdb_doc.c])

    The file format, reading a document file into a handle, and the operations
    that open, save and delete documents. A handle under construction is passed
    along with the open file and the running CRC as a [parse_state]. *)

From S2P Require Import Prelude Config CText Env Types FsEnv Events Doubles Doc.

Definition ZDB_DOC_MAGIC : Z := 0x5A444F43.
Definition ZDB_DOC_VERSION_V1 : Z := 1.
Definition ZDB_DOC_VERSION : Z := 2.
Definition sizeof_doc_hdr : nat := 28.
(** [offsetof (struct zdb_doc_hdr_v1, crc_le)]. *)
Definition doc_hdr_crc_off : nat := 24.
Definition sizeof_doc_field_hdr : nat := 8.

(** The enumerators by value, and a value read from a file. *)
Definition field_type_num (t : zdb_doc_field_type_t) : Z :=
  match t with
  | ZDB_DOC_FIELD_NULL => 0 | ZDB_DOC_FIELD_INT64 => 1 | ZDB_DOC_FIELD_DOUBLE => 2
  | ZDB_DOC_FIELD_STRING => 3 | ZDB_DOC_FIELD_BOOL => 4 | ZDB_DOC_FIELD_BYTES => 5
  | ZDB_DOC_FIELD_OBJECT => 6 | ZDB_DOC_FIELD_ARRAY => 7
  end.
Definition field_type_of (n : Z) : option zdb_doc_field_type_t :=
  nth_error [ZDB_DOC_FIELD_NULL; ZDB_DOC_FIELD_INT64; ZDB_DOC_FIELD_DOUBLE; ZDB_DOC_FIELD_STRING;
             ZDB_DOC_FIELD_BOOL; ZDB_DOC_FIELD_BYTES; ZDB_DOC_FIELD_OBJECT; ZDB_DOC_FIELD_ARRAY]
    (Z.to_nat n).

(** ** Paths *)

Section paths.
Context {Cfg : Config}.

Definition mount_of (cfg : zdb_cfg_t) : list byte := default [] (lfs_mount_point cfg).

Definition fit_path (path_len : nat) (p : list byte) : Z + list byte :=
  if path_len <=? length p then inl (- ENAMETOOLONG)%Z else inr p.

Definition zdb_doc_build_root_path (cfg : option zdb_cfg_t) (path_len : nat) : Z + list byte :=
  match cfg with
  | Some c =>
      if bool_decide (lfs_mount_point c = None) || (path_len =? 0) then inl (- EINVAL)%Z
      else fit_path path_len (mount_of c ++ s2b "/" ++ ZDB_DOC_DIRNAME)
  | None => inl (- EINVAL)%Z
  end.

(** The configuration and its mount point are not NULL here: every caller has
    built the root path before. *)
Definition zdb_doc_build_collection_path (cfg : option zdb_cfg_t) (collection : option cstring)
    (path_len : nat) : Z + list byte :=
  match collection with
  | None | Some [] => inl (- EINVAL)%Z
  | Some coll =>
      fit_path path_len (default [] (mount_of <$> cfg) ++ s2b "/" ++ ZDB_DOC_DIRNAME ++ s2b "/" ++ coll)
  end.

Definition zdb_doc_build_doc_path (cfg : option zdb_cfg_t) (collection document_id : option cstring)
    (ext : list byte) (path_len : nat) : Z + list byte :=
  match cfg, collection, document_id with
  | Some c, Some coll, Some id =>
      if path_len =? 0 then inl (- EINVAL)%Z
      else fit_path path_len (mount_of c ++ s2b "/" ++ ZDB_DOC_DIRNAME ++ s2b "/" ++ coll ++
                              s2b "/" ++ id ++ ext)
  | _, _, _ => inl (- EINVAL)%Z
  end.
End paths.

Section file.
Context {Cfg : Config} {K F FS FH DH : Type} `{!Kernel K, !FileSys FS FH DH, !Crc32}.
Abbreviation W := (world K F FS).

Definition zdb_doc_ensure_dirs (cfg : option zdb_cfg_t) (collection : option cstring) : M W Z :=
  match zdb_doc_build_root_path cfg ZDB_DOC_PATH_MAX with
  | inl rc => ret rc
  | inr root_path =>
      rc ← on_fs (fs_mkdir root_path);
      if (rc <? 0)%Z && negb (rc =? - EEXIST)%Z then ret rc
      else
        match zdb_doc_build_collection_path cfg collection ZDB_DOC_PATH_MAX with
        | inl rc => ret rc
        | inr collection_path =>
            rc ← on_fs (fs_mkdir collection_path);
            ret (if (rc <? 0)%Z && negb (rc =? - EEXIST)%Z then rc else 0%Z)
        end
  end.

(** ** Reading *)

(** The status, the bytes read, the file and the CRC that [*crc] becomes. *)
Definition zdb_fs_read_exact (file : FH) (len : nat) (crc : option Z)
    : M W (zdb_status_t * list byte * FH * option Z) :=
  '(rd, buf, file) ← on_fs (fs_read file len);
  ret (if (rd <? 0)%Z then (zdb_status_from_errno rd, buf, file, crc)
       else if negb (rd =? len)%Z then (ZDB_ERR_CORRUPT, buf, file, crc)
       else (ZDB_OK, buf, file, (λ c, crc32_ieee_update c buf) <$> crc)).

Record parse_state := { ps_file : FH; ps_crc : option Z; ps_doc : zdb_doc_t }.

Definition ps_read (ps : parse_state) (len : nat) : M W (zdb_status_t * list byte * parse_state) :=
  '(st, buf, file, crc) ← zdb_fs_read_exact (ps_file ps) len (ps_crc ps);
  ret (st, buf, ps <| ps_file := file |> <| ps_crc := crc |>).

(** The handle after a setter was called on it. *)
Definition ps_set (ps : parse_state)
    (set : option zdb_doc_t → M W (zdb_status_t * option zdb_doc_t)) : M W (zdb_status_t * parse_state) :=
  '(rc, doc) ← set (Some (ps_doc ps));
  ret (rc, ps <| ps_doc := default (ps_doc ps) doc |>).

(** A value of fixed size. *)
Definition parse_scalar (ps : parse_state) (len : nat)
    (set : Z → option zdb_doc_t → M W (zdb_status_t * option zdb_doc_t))
    : M W (zdb_status_t * parse_state) :=
  '(st, buf, ps) ← ps_read ps len;
  if negb (bool_decide (st = ZDB_OK)) then ret (st, ps)
  else ps_set ps (set (get_le len buf 0)).

Definition parse_string (ps : parse_state) (name : cstring) : M W (zdb_status_t * parse_state) :=
  '(st, buf, ps) ← ps_read ps 4;
  if negb (bool_decide (st = ZDB_OK)) then ret (st, ps)
  else
    let str_len := get_le 4 buf 0 in
    if (CONFIG_ZDB_DOC_MAX_STRING_LEN <? str_len)%Z then ret (ZDB_ERR_CORRUPT, ps)
    else
      ok ← on_k (k_malloc (Z.to_nat str_len + 1));
      if negb ok then ret (ZDB_ERR_NOMEM, ps)
      else
        '(st, str, ps) ← ps_read ps (Z.to_nat str_len);
        if negb (bool_decide (st = ZDB_OK)) then on_k_ k_free;; ret (st, ps)
        else
          '(rc, ps) ← ps_set ps (λ d, zdb_doc_field_set_string d (Some name) (Some (c_str (str ++ [nul]))));
          on_k_ k_free;;
          ret (rc, ps).

Definition parse_bytes (ps : parse_state) (name : cstring) : M W (zdb_status_t * parse_state) :=
  '(st, buf, ps) ← ps_read ps 4;
  if negb (bool_decide (st = ZDB_OK)) then ret (st, ps)
  else
    let bytes_len := get_le 4 buf 0 in
    if (CONFIG_ZDB_DOC_MAX_BYTES_LEN <? bytes_len)%Z then ret (ZDB_ERR_CORRUPT, ps)
    else if (0 <? bytes_len)%Z then
      ok ← on_k (k_malloc (Z.to_nat bytes_len));
      if negb ok then ret (ZDB_ERR_NOMEM, ps)
      else
        '(st, data, ps) ← ps_read ps (Z.to_nat bytes_len);
        if negb (bool_decide (st = ZDB_OK)) then on_k_ k_free;; ret (st, ps)
        else
          '(rc, ps) ← ps_set ps (λ d, zdb_doc_field_set_bytes d (Some name) (Some data) (Z.to_nat bytes_len));
          on_k_ k_free;;
          ret (rc, ps)
    else ps_set ps (λ d, zdb_doc_field_set_bytes d (Some name) None 0).

Definition parse_value (ps : parse_state) (name : cstring) (type : option zdb_doc_field_type_t)
    : M W (zdb_status_t * parse_state) :=
  match type with
  | Some ZDB_DOC_FIELD_INT64 =>
      parse_scalar ps 8 (λ v d, zdb_doc_field_set_i64 d (Some name) (i64 v))
  | Some ZDB_DOC_FIELD_DOUBLE =>
      parse_scalar ps 8 (λ v d, zdb_doc_field_set_f64 d (Some name) v)
  | Some ZDB_DOC_FIELD_BOOL =>
      parse_scalar ps 1 (λ v d, zdb_doc_field_set_bool d (Some name) (negb (v =? 0)%Z))
  | Some ZDB_DOC_FIELD_STRING => parse_string ps name
  | Some ZDB_DOC_FIELD_BYTES => parse_bytes ps name
  | _ => ret (ZDB_ERR_UNSUPPORTED, ps)
  end.

Definition parse_field (ps : parse_state) : M W (zdb_status_t * parse_state) :=
  '(st, hdr, ps) ← ps_read ps sizeof_doc_field_hdr;
  if negb (bool_decide (st = ZDB_OK)) then ret (st, ps)
  else
    let name_len := Z.to_nat (get_le 2 hdr 0) in
    let type := field_type_of (u8_at hdr 4) in
    if (name_len =? 0) || (CONFIG_ZDB_DOC_MAX_FIELD_NAME_LEN <? name_len)
    then ret (ZDB_ERR_CORRUPT, ps)
    else
      ok ← on_k (k_malloc (name_len + 1));
      if negb ok then ret (ZDB_ERR_NOMEM, ps)
      else
        '(st, name, ps) ← ps_read ps name_len;
        '(st, ps) ← (if negb (bool_decide (st = ZDB_OK)) then ret (st, ps)
                     else parse_value ps (c_str (name ++ [nul])) type);
        on_k_ k_free;;
        ret (st, ps).

Fixpoint parse_fields (count : nat) (ps : parse_state) : M W (zdb_status_t * parse_state) :=
  match count with
  | 0 => ret (ZDB_OK, ps)
  | S count =>
      '(st, ps) ← parse_field ps;
      if negb (bool_decide (st = ZDB_OK)) then ret (st, ps) else parse_fields count ps
  end.

(** The header is checked, then the fields, then, for version 2, the digest. *)
Definition parse_body (hdr : list byte) (ps : parse_state) : M W (zdb_status_t * parse_state) :=
  let version := get_le 2 hdr 4 in
  if negb (get_le 4 hdr 0 =? ZDB_DOC_MAGIC)%Z ||
     (negb (version =? ZDB_DOC_VERSION)%Z && negb (version =? ZDB_DOC_VERSION_V1)%Z)
  then ret (ZDB_ERR_CORRUPT, ps)
  else
    let running_crc := crc32_ieee (take doc_hdr_crc_off hdr) in
    let stored_crc := get_le 4 hdr doc_hdr_crc_off in
    if (version =? ZDB_DOC_VERSION_V1)%Z && negb (stored_crc =? running_crc)%Z
    then ret (ZDB_ERR_CORRUPT, ps)
    else
      let crc_acc := if (version =? ZDB_DOC_VERSION_V1)%Z then None else Some running_crc in
      let count := Z.to_nat (get_le 2 hdr 6) in
      if max_fields (ps_doc ps) <? count then ret (ZDB_ERR_NOMEM, ps <| ps_crc := crc_acc |>)
      else
        '(st, ps) ← parse_fields count (ps <| ps_crc := crc_acc |>);
        ret (if bool_decide (st = ZDB_OK) &&
                match ps_crc ps with Some crc => negb (stored_crc =? crc)%Z | None => false end
             then ZDB_ERR_CORRUPT else st, ps).

Definition zdb_doc_parse_file (path : list byte) (out_doc : zdb_doc_t) : M W (zdb_status_t * zdb_doc_t) :=
  '(rc, file) ← on_fs (fs_open fs_file_t_init path FS_READ);
  if (rc <? 0)%Z then ret (zdb_status_from_errno rc, out_doc)
  else
    '(st, hdr, ps) ← ps_read {| ps_file := file; ps_crc := None; ps_doc := out_doc |} sizeof_doc_hdr;
    '(st, ps) ← (if negb (bool_decide (st = ZDB_OK)) then ret (st, ps) else parse_body hdr ps);
    on_fs (fs_close (ps_file ps));;
    ret (st, if bool_decide (st = ZDB_OK)
             then (ps_doc ps) <| created_ms := get_le 8 hdr 8 |> <| updated_ms := get_le 8 hdr 16 |>
             else ps_doc ps).

(** ** Opening *)

(** Finishing an interrupted save whose staging file is complete. *)
Definition open_staged (cfg : option zdb_cfg_t) (collection_name document_id : option cstring)
    (path : list byte) (doc : zdb_doc_t) : M W (zdb_status_t * zdb_doc_t) :=
  match zdb_doc_build_doc_path cfg collection_name document_id ZDB_DOC_TMP_EXT ZDB_DOC_PATH_MAX with
  | inl _ => ret (ZDB_ERR_NOT_FOUND, doc)
  | inr tmp_path =>
      doc ← zdb_doc_fields_reset doc;
      '(tmp_ret, doc) ← zdb_doc_parse_file tmp_path doc;
      if bool_decide (tmp_ret = ZDB_OK) then
        rc ← on_fs (fs_rename tmp_path path);
        ret (if (rc =? 0)%Z then ZDB_OK else ZDB_ERR_IO, doc)
      else
        doc ← zdb_doc_fields_reset doc;
        ret (ZDB_ERR_NOT_FOUND, doc)
  end.

Definition open_stored (collection_name document_id : option cstring) (doc : zdb_doc_t)
    : M W (zdb_status_t * zdb_doc_t) :=
  c ← db_get cfg;
  match zdb_doc_build_doc_path c collection_name document_id ZDB_DOC_FILE_EXT ZDB_DOC_PATH_MAX with
  | inl rc => ret (zdb_status_from_errno rc, doc)
  | inr path =>
      '(st, doc) ← zdb_doc_parse_file path doc;
      if bool_decide (st = ZDB_ERR_NOT_FOUND)
      then open_staged c collection_name document_id path doc
      else ret (st, doc)
  end.

Definition zdb_doc_open_impl (db : db_ptr) (collection_name document_id : option cstring)
    (out_doc : option zdb_doc_t) (take_read_lock : bool) : M W (zdb_status_t * option zdb_doc_t) :=
  '(rc, out_doc) ← zdb_doc_create db collection_name document_id out_doc;
  match rc, out_doc with
  | ZDB_OK, Some doc =>
      lock_rc ← (if take_read_lock then zdb_lock_read the_db else ret ZDB_OK);
      if negb (bool_decide (lock_rc = ZDB_OK)) then
        '(_, out_doc) ← zdb_doc_close out_doc;
        ret (lock_rc, out_doc)
      else
        '(st, doc) ← open_stored collection_name document_id doc;
        out_doc ← (if bool_decide (st = ZDB_OK) then ret (Some doc)
                   else '(_, out_doc) ← zdb_doc_close (Some doc); ret out_doc);
        (if take_read_lock then zdb_unlock_read the_db else ret tt);;
        ret (st, out_doc)
  | _, _ => ret (rc, out_doc)
  end.

Definition zdb_doc_open (db : db_ptr) (collection_name document_id : option cstring)
    (out_doc : option zdb_doc_t) : M W (zdb_status_t * option zdb_doc_t) :=
  zdb_doc_open_impl db collection_name document_id out_doc true.

(** ** Saving *)

(** A sink takes bytes into its context. *)
Abbreviation zdb_doc_sink_fn A := (A → list byte → M W (zdb_status_t * A)).

Definition zdb_doc_sink_crc : zdb_doc_sink_fn Z :=
  λ crc buf, ret (ZDB_OK, crc32_ieee_update crc buf).

Definition zdb_doc_sink_file : zdb_doc_sink_fn FH := λ file buf,
  if length buf =? 0 then ret (ZDB_OK, file)
  else
    '(wr, file) ← on_fs (fs_write file buf);
    ret (if (wr <? 0)%Z then zdb_status_from_errno wr
         else if (wr =? length buf)%Z then ZDB_OK else ZDB_ERR_IO, file).

(** Two pieces one after the other. *)
Definition sink_both {A} (sink : zdb_doc_sink_fn A) (ctx : A) (a b : list byte)
    : M W (zdb_status_t * A) :=
  '(st, ctx) ← sink ctx a;
  if negb (bool_decide (st = ZDB_OK)) then ret (st, ctx) else sink ctx b.

Definition field_hdr (field : zdb_doc_field_t) (name_len : Z) : list byte :=
  put_le 2 name_len ++ put_le 2 0 ++ put_le 1 (field_type_num (fd_type field)) ++ put_le 3 0.

Definition emit_value {A} (sink : zdb_doc_sink_fn A) (ctx : A) (field : zdb_doc_field_t)
    : M W (zdb_status_t * A) :=
  let v := fd_value field in
  match fd_type field with
  | ZDB_DOC_FIELD_INT64 => sink ctx (put_le 8 (u64 (value_i64 v)))
  | ZDB_DOC_FIELD_DOUBLE => sink ctx (put_le 8 (value_f64 v))
  | ZDB_DOC_FIELD_BOOL => sink ctx (put_le 1 (if value_b v then 1 else 0))
  | ZDB_DOC_FIELD_STRING =>
      let str := default [] (value_str v) in
      let str_len := u32 (length str) in
      sink_both sink ctx (put_le 4 str_len) (take (Z.to_nat str_len) str)
  | ZDB_DOC_FIELD_BYTES =>
      let '(data, len) := value_bytes v in
      let bytes_len := u32 len in
      sink_both sink ctx (put_le 4 bytes_len) (take (Z.to_nat bytes_len) (default [] data))
  | _ => ret (ZDB_ERR_UNSUPPORTED, ctx)
  end.

Fixpoint emit_fields {A} (sink : zdb_doc_sink_fn A) (ctx : A) (l : list zdb_doc_field_t)
    : M W (zdb_status_t * A) :=
  match l with
  | [] => ret (ZDB_OK, ctx)
  | field :: l =>
      let name := default [] (fd_name field) in
      let name_len := u16 (length name) in
      '(st, ctx) ← sink_both sink ctx (field_hdr field name_len) (take (Z.to_nat name_len) name);
      if negb (bool_decide (st = ZDB_OK)) then ret (st, ctx)
      else
        '(st, ctx) ← emit_value sink ctx field;
        if negb (bool_decide (st = ZDB_OK)) then ret (st, ctx) else emit_fields sink ctx l
  end.

Definition zdb_doc_fields_emit {A} (doc : zdb_doc_t) (sink : zdb_doc_sink_fn A) (ctx : A)
    : M W (zdb_status_t * A) := emit_fields sink ctx (doc_fields doc).

(** The header up to its CRC. *)
Definition doc_hdr_prefix (doc : zdb_doc_t) : list byte :=
  put_le 4 ZDB_DOC_MAGIC ++ put_le 2 ZDB_DOC_VERSION ++ put_le 2 (u16 (field_count doc)) ++
  put_le 8 (created_ms doc) ++ put_le 8 (updated_ms doc).

(** Renaming the staging file over the document. *)
Definition promote (tmp_path path : list byte) : M W Z :=
  rc ← on_fs (fs_rename tmp_path path);
  rc ← (if (rc =? - EEXIST)%Z
        then on_fs (fs_unlink path);; on_fs (fs_rename tmp_path path) else ret rc);
  (if (rc <? 0)%Z then on_fs (fs_unlink tmp_path);; ret tt else ret tt);;
  ret rc.

(** Writing the staging file: the status and the size it reached. *)
Definition stage_file (doc : zdb_doc_t) (hdr tmp_path : list byte) : M W (zdb_status_t * nat) :=
  '(rc, file) ← on_fs (fs_open fs_file_t_init tmp_path FS_CREATE_WRITE_TRUNC);
  if (rc <? 0)%Z then ret (zdb_status_from_errno rc, 0)
  else
    '(wr, file) ← on_fs (fs_write file hdr);
    '(st, file) ← (if negb (wr =? sizeof_doc_hdr)%Z
                   then ret (if (wr <? 0)%Z then zdb_status_from_errno wr else ZDB_ERR_IO, file)
                   else zdb_doc_fields_emit doc zdb_doc_sink_file file);
    if negb (bool_decide (st = ZDB_OK)) then
      on_fs (fs_close file);;
      on_fs (fs_unlink tmp_path);;
      ret (st, 0)
    else
      end_pos ← on_fs (fs_tell file);
      rc ← on_fs (fs_close file);
      if (rc <? 0)%Z then
        on_fs (fs_unlink tmp_path);;
        ret (zdb_status_from_errno rc, 0)
      else ret (ZDB_OK, Z.to_nat end_pos).

(** What is done under the lock: the status and the size for the event. *)
Definition save_locked (doc : zdb_doc_t) : M W (zdb_status_t * nat) :=
  c ← db_get cfg;
  rc ← zdb_doc_ensure_dirs c (collection_name doc);
  if (rc <? 0)%Z then ret (zdb_status_from_errno rc, 0)
  else
    match zdb_doc_build_doc_path c (collection_name doc) (document_id doc) ZDB_DOC_FILE_EXT ZDB_DOC_PATH_MAX,
          zdb_doc_build_doc_path c (collection_name doc) (document_id doc) ZDB_DOC_TMP_EXT ZDB_DOC_PATH_MAX with
    | inl rc, _ | _, inl rc => ret (zdb_status_from_errno rc, 0)
    | inr path, inr tmp_path =>
        let prefix := doc_hdr_prefix doc in
        '(st, crc) ← zdb_doc_fields_emit doc zdb_doc_sink_crc (crc32_ieee prefix);
        if negb (bool_decide (st = ZDB_OK)) then ret (st, 0)
        else
          '(st, size) ← stage_file doc (prefix ++ put_le 4 crc) tmp_path;
          if negb (bool_decide (st = ZDB_OK)) then ret (st, 0)
          else
            rc ← promote tmp_path path;
            ret (if (rc <? 0)%Z then (zdb_status_from_errno rc, 0) else (ZDB_OK, size))
    end.

Definition zdb_doc_save (doc : option zdb_doc_t) : M W (zdb_status_t * option zdb_doc_t) :=
  match doc with
  | Some d =>
      if negb (doc_valid d) then ret (ZDB_ERR_INVAL, doc)
      else
        now ← on_k k_uptime_get;
        let d := d <| updated_ms := u64 now |> in
        c ← db_get cfg;
        match doc_db d, c with
        | Some db, Some _ =>
            lock_rc ← zdb_lock_write db;
            '(st, size) ← (if negb (bool_decide (lock_rc = ZDB_OK)) then ret (lock_rc, 0)
                           else r ← save_locked d; zdb_unlock_write db;; ret r);
            doc_event (doc_db d) ZDB_DOC_EVENT_SAVE (collection_name d) (document_id d)
              (field_count d) (if bool_decide (st = ZDB_OK) then size else 0) st;;
            ret (st, Some d)
        | _, _ => ret (ZDB_ERR_INVAL, Some d)
        end
  | None => ret (ZDB_ERR_INVAL, None)
  end.

(** ** Deleting *)

Definition delete_locked (coll id : cstring) : M W zdb_status_t :=
  c ← db_get cfg;
  match zdb_doc_build_doc_path c (Some coll) (Some id) ZDB_DOC_FILE_EXT ZDB_DOC_PATH_MAX with
  | inl rc => ret (zdb_status_from_errno rc)
  | inr path =>
      rc ← on_fs (fs_unlink path);
      (match zdb_doc_build_doc_path c (Some coll) (Some id) ZDB_DOC_TMP_EXT ZDB_DOC_PATH_MAX with
       | inr tmp_path => on_fs (fs_unlink tmp_path);; ret tt
       | inl _ => ret tt
       end);;
      ret (if (rc <? 0)%Z then zdb_status_from_errno rc else ZDB_OK)
  end.

Definition zdb_doc_delete (db : db_ptr) (collection_name document_id : option cstring)
    : M W zdb_status_t :=
  match db, collection_name, document_id with
  | Some db, Some coll, Some id =>
      c ← db_get cfg;
      match c ≫= lfs_mount_point with
      | None => ret ZDB_ERR_INVAL
      | Some _ =>
          if negb (doc_names_valid coll id) then ret ZDB_ERR_INVAL
          else
            lock_rc ← zdb_lock_write db;
            status ← (if negb (bool_decide (lock_rc = ZDB_OK)) then ret lock_rc
                      else st ← delete_locked coll id; zdb_unlock_write db;; ret st);
            doc_event (Some db) ZDB_DOC_EVENT_DELETE (Some coll) (Some id) 0 0 status;;
            ret status
      end
  | _, _, _ => ret ZDB_ERR_INVAL
  end.
End file.

Arguments parse_state : clear implicits.
