(* ===== verification/DocQuery.v ===== *)
(** * Querying documents ([zephyrdb_doc.c])

    The match of a document against a query, the scan of all collections, and
    the release of its results. [out_metadata] says whether the caller passes
    an array; the entries reported are the first ones of that array, in order.
    Every round of a directory loop consumes an entry, so the fuel is the
    number of entries listed. *)

From S2P Require Import Prelude Config Env Types FsEnv Events Doubles Doc DocFile.

Record zdb_doc_query_filter_t := {
  qf_field_name : option cstring;
  qf_type : zdb_doc_field_type_t;
  qf_numeric_value : double;
  qf_string_value : option cstring;
  qf_bool_value : bool;
}.

Record zdb_doc_query_t := {
  qu_filters : option (list zdb_doc_query_filter_t);
  qu_filter_count : nat;
  qu_from_ms : Z;
  qu_to_ms : Z;
  qu_limit : Z;
}.

Record zdb_doc_metadata_t := {
  md_document_id : option cstring;
  md_collection_name : option cstring;
  md_created_ms : Z;
  md_updated_ms : Z;
  md_field_count : Z;
}.

Definition INT64_MIN : Z := - 2 ^ 63.
Definition INT64_MAX : Z := 2 ^ 63 - 1.
Definition UINT32_LIMIT : Z := 2 ^ 32 - 1.

Section filter.
Context {Cfg : Config}.

(** [(int64_t) ipart]. *)
Definition int64_cast (z : Z) : Z :=
  if (INT64_MIN <=? z)%Z && (z <=? INT64_MAX)%Z then z else INT64_CAST_OVERFLOW z.

Definition zdb_doc_field_filter_match (field : zdb_doc_field_t) (filter : zdb_doc_query_filter_t) : bool :=
  let v := fd_value field in
  match fd_name field, qf_field_name filter with
  | Some ((_ :: _) as name), Some ((_ :: _) as wanted) =>
      if negb (bool_decide (name = wanted)) then false
      else if negb (bool_decide (fd_type field = qf_type filter)) then false
      else
        match fd_type field with
        | ZDB_DOC_FIELD_INT64 =>
            if d_lt (qf_numeric_value filter) (d_of_Z INT64_MIN) ||
               d_lt (d_of_Z INT64_MAX) (qf_numeric_value filter) then false
            else
              match d_integral (qf_numeric_value filter) with
              | Some ipart => (value_i64 v =? int64_cast ipart)%Z
              | None => false
              end
        | ZDB_DOC_FIELD_DOUBLE => d_eq (d_of_bits (value_f64 v)) (qf_numeric_value filter)
        | ZDB_DOC_FIELD_BOOL => bool_decide (value_b v = qf_bool_value filter)
        | ZDB_DOC_FIELD_STRING =>
            match value_str v, qf_string_value filter with
            | Some s, Some t => bool_decide (s = t)
            | _, _ => false
            end
        | ZDB_DOC_FIELD_BYTES =>
            match qf_string_value filter, value_bytes v with
            | Some t, (Some data, len) => (len =? length t) && bool_decide (take len data = t)
            | _, _ => false
            end
        | _ => false
        end
  | _, _ => false
  end.

Definition zdb_doc_matches_query (doc : zdb_doc_t) (query : zdb_doc_query_t) : bool :=
  if negb (qu_from_ms query =? 0)%Z && (updated_ms doc <? qu_from_ms query)%Z then false
  else if negb (qu_to_ms query =? 0)%Z && (qu_to_ms query <? updated_ms doc)%Z then false
  else if (0 <? qu_filter_count query) && bool_decide (qu_filters query = None) then false
  else
    forallb (λ filter, existsb (λ field, zdb_doc_field_filter_match field filter) (doc_fields doc))
      (take (qu_filter_count query) (default [] (qu_filters query))).
End filter.

Section query.
Context {Cfg : Config} {K F FS FH DH : Type} `{!Kernel K, !FileSys FS FH DH, !Crc32}.
Abbreviation W := (world K F FS).

(** The document a file name stands for: ["<id>.zdoc"]. *)
Definition doc_id_of (name : cstring) : option cstring :=
  let n := length name - length ZDB_DOC_FILE_EXT in
  if (length name <=? length ZDB_DOC_FILE_EXT) ||
     negb (bool_decide (drop n name = ZDB_DOC_FILE_EXT)) then None
  else if CONFIG_ZDB_MAX_KEY_LEN <? n then None
  else Some (take n name).

(** The progress of a scan. [out_of_memory] is the early return with the
    results so far; [stop_scan] ends the loops when the array is full. *)
Record scan_state := {
  sc_written : list zdb_doc_metadata_t;
  sc_matched : Z;
  stop_scan : bool;
  out_of_memory : bool;
}.

Definition scan_going (limit : Z) (sc : scan_state) : bool :=
  negb (stop_scan sc) && negb (out_of_memory sc) && (sc_matched sc <? limit)%Z.

(** Copying a match to the caller's array. *)
Definition report (capacity : nat) (coll id : cstring) (doc : zdb_doc_t) (sc : scan_state) : M W scan_state :=
  c ← zdb_strdup_local (Some coll);
  match c with
  | None => ret (sc <| out_of_memory := true |>)
  | Some _ =>
      i ← zdb_strdup_local (Some id);
      match i with
      | None => on_k_ k_free;; ret (sc <| out_of_memory := true |>)
      | Some _ =>
          let entry := {| md_document_id := i; md_collection_name := c;
                          md_created_ms := created_ms doc; md_updated_ms := updated_ms doc;
                          md_field_count := u32 (field_count doc) |} in
          let written := sc_written sc ++ [entry] in
          ret (sc <| sc_written := written |>
                  <| stop_scan := stop_scan sc || (capacity <=? length written) |>
                  <| sc_matched ::= Z.succ |>)
      end
  end.

(** One entry of a collection's directory. *)
Definition scan_entry (db : db_ptr) (query : zdb_doc_query_t) (out_metadata : bool) (capacity : nat)
    (coll : cstring) (entry : fs_dirent) (sc : scan_state) : M W scan_state :=
  if negb (bool_decide (de_type' entry = FS_DIR_ENTRY_FILE)) then ret sc
  else
    match doc_id_of (de_name entry) with
    | None => ret sc
    | Some id =>
        '(rc, doc) ← zdb_doc_open_impl db (Some coll) (Some id)
                       (Some {| doc_db := None; collection_name := None; document_id := None;
                                fields := None; field_count := 0; max_fields := 0;
                                created_ms := 0; updated_ms := 0; doc_valid := false |}) false;
        match rc, doc with
        | ZDB_OK, Some d =>
            sc ← (if zdb_doc_matches_query d query then
                    if out_metadata && (length (sc_written sc) <? capacity)
                    then report capacity coll id d sc
                    else ret (sc <| sc_matched ::= Z.succ |>)
                  else ret sc);
            zdb_doc_close doc;;
            ret sc
        | _, _ => ret sc
        end
    end.

Fixpoint scan_docs (fuel : nat) (db : db_ptr) (query : zdb_doc_query_t) (limit : Z)
    (out_metadata : bool) (capacity : nat) (coll : cstring) (dir : DH) (sc : scan_state)
    : M W (scan_state * DH) :=
  match fuel with
  | 0 => ret (sc, dir)
  | S fuel =>
      if negb (scan_going limit sc) then ret (sc, dir)
      else
        '(rc, entry, dir) ← on_fs (fs_readdir dir);
        if negb (rc =? 0)%Z || bool_decide (de_name entry = []) then ret (sc, dir)
        else
          sc ← scan_entry db query out_metadata capacity coll entry sc;
          scan_docs fuel db query limit out_metadata capacity coll dir sc
  end.

(** One entry of the root directory. *)
Definition scan_collection (db : db_ptr) (query : zdb_doc_query_t) (limit : Z) (out_metadata : bool)
    (capacity : nat) (entry : fs_dirent) (sc : scan_state) : M W scan_state :=
  if negb (bool_decide (de_type' entry = FS_DIR_ENTRY_DIR)) then ret sc
  else
    c ← db_get cfg;
    match zdb_doc_build_collection_path c (Some (de_name entry)) ZDB_DOC_PATH_MAX with
    | inl _ => ret sc
    | inr path =>
        '(rc, dir) ← on_fs (fs_opendir fs_dir_t_init path);
        if (rc <? 0)%Z then ret sc
        else
          '(sc, dir) ← scan_docs (S (length (dh_rest dir))) db query limit out_metadata capacity
                         (de_name entry) dir sc;
          on_fs (fs_closedir dir);;
          ret sc
    end.

Fixpoint scan_collections (fuel : nat) (db : db_ptr) (query : zdb_doc_query_t) (limit : Z)
    (out_metadata : bool) (capacity : nat) (dir : DH) (sc : scan_state) : M W (scan_state * DH) :=
  match fuel with
  | 0 => ret (sc, dir)
  | S fuel =>
      if negb (scan_going limit sc) then ret (sc, dir)
      else
        '(rc, entry, dir) ← on_fs (fs_readdir dir);
        if negb (rc =? 0)%Z || bool_decide (de_name entry = []) then ret (sc, dir)
        else
          sc ← scan_collection db query limit out_metadata capacity entry sc;
          scan_collections fuel db query limit out_metadata capacity dir sc
  end.

(** The status, the entries written, and what [*out_count] becomes. *)
Definition zdb_doc_query (db : db_ptr) (query : option zdb_doc_query_t) (out_metadata : bool)
    (out_count : option nat) : M W (zdb_status_t * list zdb_doc_metadata_t * option nat) :=
  match db, query, out_count with
  | Some _, Some q, Some capacity =>
      c ← db_get cfg;
      match c ≫= lfs_mount_point with
      | None => ret (ZDB_ERR_INVAL, [], out_count)
      | Some _ =>
          let limit := if (qu_limit q =? 0)%Z then UINT32_LIMIT else qu_limit q in
          lock_rc ← zdb_lock_read the_db;
          if negb (bool_decide (lock_rc = ZDB_OK)) then ret (lock_rc, [], Some 0)
          else
            match zdb_doc_build_root_path c ZDB_DOC_PATH_MAX with
            | inl rc =>
                zdb_unlock_read the_db;;
                ret (zdb_status_from_errno rc, [], out_count)
            | inr root_path =>
                '(rc, dir) ← on_fs (fs_opendir fs_dir_t_init root_path);
                if (rc <? 0)%Z then
                  zdb_unlock_read the_db;;
                  ret (if (rc =? - ENOENT)%Z then ZDB_OK else zdb_status_from_errno rc, [], Some 0)
                else
                  '(sc, dir) ← scan_collections (S (length (dh_rest dir))) db q limit out_metadata
                     capacity dir
                     {| sc_written := []; sc_matched := 0; stop_scan := false; out_of_memory := false |};
                  on_fs (fs_closedir dir);;
                  zdb_unlock_read the_db;;
                  ret (ZDB_OK, sc_written sc, Some
                    (if out_of_memory sc then length (sc_written sc)
                     else if negb out_metadata || (capacity =? 0) then Z.to_nat (sc_matched sc)
                     else length (sc_written sc)))
            end
      end
  | _, _, _ => ret (ZDB_ERR_INVAL, [], out_count)
  end.

(** ** Releasing results *)

Definition zdb_doc_metadata_entry_free (m : zdb_doc_metadata_t) : M W zdb_doc_metadata_t :=
  free_ptr (md_collection_name m);;
  free_ptr (md_document_id m);;
  ret (m <| md_collection_name := None |> <| md_document_id := None |>).

Fixpoint free_entries (l : list zdb_doc_metadata_t) : M W (list zdb_doc_metadata_t) :=
  match l with
  | [] => ret []
  | m :: l =>
      m ← zdb_doc_metadata_entry_free m;
      l ← free_entries l;
      ret (m :: l)
  end.

(** The entries of the array that are freed, as they are left. *)
Definition zdb_doc_metadata_free (metadata : option (list zdb_doc_metadata_t)) (count : nat)
    : M W (zdb_status_t * list zdb_doc_metadata_t) :=
  if bool_decide (metadata = None) && (0 <? count) then ret (ZDB_ERR_INVAL, [])
  else
    l ← free_entries (take count (default [] metadata));
    ret (ZDB_OK, l ++ drop count (default [] metadata)).
End query.
