(* ===== verification/Export.v ===== *)
(** * FlatBuffers export ([zephyrdb_doc.c], [zephyrdb_ts.c])

    A document or a sample is handed to the flatcc builder, a library outside
    [src/]: the class [Flatcc] has the calls the sources make, on a builder
    state [B], and views of what a builder holds: the objects its references
    denote, the tables and vectors that are open, the root of a finished
    buffer. A pointer to a slot that is written at once is one call with what
    is written. [fb_encodes buf v] is the format itself: that [buf] is a
    FlatBuffer of [v]. *)

From S2P Require Import Prelude Config Env Types FsEnv Cursor Doc DocFile.

(** ** What a FlatBuffer says *)

Inductive fb_value :=
  | FbString (s : list byte)
  | FbBytes (d : list byte)
  | FbStruct (d : list byte)
  | FbTable (slots : list (nat * fb_slot))
  | FbVector (elems : list fb_value)
with fb_slot :=
  | FbScalar (d : list byte)
  | FbOffset (v : fb_value).

(** A table under construction, with its number of slots, or a vector. *)
Inductive fb_frame :=
  | FbOpenTable (size : nat) (slots : list (nat * fb_slot))
  | FbOpenVector (elems : list fb_value).

Class Flatcc (B : Type) := {
  flatcc_builder_init : B → Z * B;
  flatcc_builder_start_buffer : B → Z * B;
  flatcc_builder_create_string_str : list byte → B → Z * B;
  flatcc_builder_create_struct : list byte → B → Z * B;
  flatcc_builder_create_vector : list byte → B → Z * B;
  flatcc_builder_start_table : nat → B → Z * B;
  (** [false] is a NULL slot. *)
  flatcc_builder_table_add : nat → list byte → B → bool * B;
  flatcc_builder_table_add_offset : nat → Z → B → bool * B;
  flatcc_builder_end_table : B → Z * B;
  flatcc_builder_start_offset_vector : B → Z * B;
  flatcc_builder_extend_offset_vector : Z → B → bool * B;
  flatcc_builder_end_offset_vector : B → Z * B;
  flatcc_builder_end_buffer : Z → B → Z * B;
  flatcc_builder_get_direct_buffer : B → option (list byte);
  flatcc_builder_clear : B → B;
  (** Views: whether the builder owns memory, its objects, what is open
      (innermost first), the root of the finished buffer. *)
  fb_live : B → bool;
  fb_object : B → Z → option fb_value;
  fb_open : B → list fb_frame;
  fb_root : B → option fb_value;
  fb_encodes : list byte → fb_value → Prop;
}.

Section flatcc_laws.
Context {B : Type} `{!Flatcc B}.

(** A call keeps the builder's memory, and the objects made before. *)
Record fb_grows (b b' : B) : Prop := {
  gr_live : fb_live b' = fb_live b;
  gr_objects r v : fb_object b r = Some v → fb_object b' r = Some v;
}.
End flatcc_laws.

(** Reference 0 and a non-zero status are failures. *)
Class FlatccLaws (B : Type) `{!Flatcc B} : Prop := {
  fb_init_law b :
    let r := flatcc_builder_init b in
    (r.1 = 0%Z ∧ fb_live r.2 = true ∧ fb_open r.2 = []) ∨ (r.1 ≠ 0%Z ∧ fb_live r.2 = false);
  fb_start_buffer_law b :
    let r := flatcc_builder_start_buffer b in
    fb_grows b r.2 ∧ (r.1 = 0%Z → fb_open r.2 = fb_open b);
  fb_create_string_law s b :
    let r := flatcc_builder_create_string_str s b in
    fb_grows b r.2 ∧
    (r.1 ≠ 0%Z → fb_open r.2 = fb_open b ∧ fb_object r.2 r.1 = Some (FbString s));
  fb_create_struct_law d b :
    let r := flatcc_builder_create_struct d b in
    fb_grows b r.2 ∧
    (r.1 ≠ 0%Z → fb_open r.2 = fb_open b ∧ fb_object r.2 r.1 = Some (FbStruct d));
  fb_create_vector_law d b :
    let r := flatcc_builder_create_vector d b in
    fb_grows b r.2 ∧
    (r.1 ≠ 0%Z → fb_open r.2 = fb_open b ∧ fb_object r.2 r.1 = Some (FbBytes d));
  fb_start_table_law n b :
    let r := flatcc_builder_start_table n b in
    fb_grows b r.2 ∧ (r.1 = 0%Z → fb_open r.2 = FbOpenTable n [] :: fb_open b);
  fb_table_add_law id d b :
    let r := flatcc_builder_table_add id d b in
    fb_grows b r.2 ∧
    (r.1 = true → ∀ n slots rest, fb_open b = FbOpenTable n slots :: rest →
       fb_open r.2 = FbOpenTable n (slots ++ [(id, FbScalar d)]) :: rest);
  fb_table_add_offset_law id ref b :
    let r := flatcc_builder_table_add_offset id ref b in
    fb_grows b r.2 ∧
    (r.1 = true → ∀ n slots rest v, fb_open b = FbOpenTable n slots :: rest →
       fb_object b ref = Some v →
       fb_open r.2 = FbOpenTable n (slots ++ [(id, FbOffset v)]) :: rest);
  fb_end_table_law b :
    let r := flatcc_builder_end_table b in
    fb_grows b r.2 ∧
    (r.1 ≠ 0%Z → ∀ n slots rest, fb_open b = FbOpenTable n slots :: rest →
       fb_open r.2 = rest ∧ fb_object r.2 r.1 = Some (FbTable slots));
  fb_start_vector_law b :
    let r := flatcc_builder_start_offset_vector b in
    fb_grows b r.2 ∧ (r.1 = 0%Z → fb_open r.2 = FbOpenVector [] :: fb_open b);
  fb_extend_vector_law ref b :
    let r := flatcc_builder_extend_offset_vector ref b in
    fb_grows b r.2 ∧
    (r.1 = true → ∀ elems rest v, fb_open b = FbOpenVector elems :: rest →
       fb_object b ref = Some v → fb_open r.2 = FbOpenVector (elems ++ [v]) :: rest);
  fb_end_vector_law b :
    let r := flatcc_builder_end_offset_vector b in
    fb_grows b r.2 ∧
    (r.1 ≠ 0%Z → ∀ elems rest, fb_open b = FbOpenVector elems :: rest →
       fb_open r.2 = rest ∧ fb_object r.2 r.1 = Some (FbVector elems));
  fb_end_buffer_law ref b :
    let r := flatcc_builder_end_buffer ref b in
    fb_grows b r.2 ∧ (r.1 ≠ 0%Z → ∀ v, fb_object b ref = Some v → fb_root r.2 = Some v);
  fb_direct_buffer_law b buf v :
    flatcc_builder_get_direct_buffer b = Some buf → fb_root b = Some v → fb_encodes buf v;
  fb_clear_law b : fb_live (flatcc_builder_clear b) = false;
}.

(** A builder whose calls do not fail: there is memory, and the buffer is in
    one piece. *)
Class FlatccLive (B : Type) `{!Flatcc B} : Prop := {
  fb_init_live b : (flatcc_builder_init b).1 = 0%Z;
  fb_start_buffer_live b : (flatcc_builder_start_buffer b).1 = 0%Z;
  fb_create_string_live s b : (flatcc_builder_create_string_str s b).1 ≠ 0%Z;
  fb_create_struct_live d b : (flatcc_builder_create_struct d b).1 ≠ 0%Z;
  fb_create_vector_live d b : (flatcc_builder_create_vector d b).1 ≠ 0%Z;
  fb_start_table_live n b : (flatcc_builder_start_table n b).1 = 0%Z;
  fb_table_add_live id d b n slots rest :
    fb_open b = FbOpenTable n slots :: rest → id < n → (flatcc_builder_table_add id d b).1 = true;
  fb_table_add_offset_live id ref b n slots rest :
    fb_open b = FbOpenTable n slots :: rest → id < n →
    (flatcc_builder_table_add_offset id ref b).1 = true;
  fb_end_table_live b : (flatcc_builder_end_table b).1 ≠ 0%Z;
  fb_start_vector_live b : (flatcc_builder_start_offset_vector b).1 = 0%Z;
  fb_extend_vector_live ref b : (flatcc_builder_extend_offset_vector ref b).1 = true;
  fb_end_vector_live b : (flatcc_builder_end_offset_vector b).1 ≠ 0%Z;
  fb_end_buffer_live ref b : (flatcc_builder_end_buffer ref b).1 ≠ 0%Z;
  fb_direct_buffer_live b v :
    fb_root b = Some v → ∃ d buf, flatcc_builder_get_direct_buffer b = Some (d :: buf);
}.

(** What an export returns: its status, what it stores through [out_len] ([None]: nothing), and the
    caller's buffer. *)
Abbreviation export_result := (zdb_status_t * option nat * option (list byte))%type.

Section export.
Context {Cfg : Config} {B : Type} `{!Flatcc B}.

(** ** Fields *)

Definition ZDB_FB_FIELD_NAME : nat := 0.
Definition ZDB_FB_FIELD_TYPE : nat := 1.
Definition ZDB_FB_FIELD_I64 : nat := 2.
Definition ZDB_FB_FIELD_F64 : nat := 3.
Definition ZDB_FB_FIELD_BOOL : nat := 4.
Definition ZDB_FB_FIELD_STR : nat := 5.
Definition ZDB_FB_FIELD_BYTES : nat := 6.

Definition ZDB_FB_DOC_COLLECTION : nat := 0.
Definition ZDB_FB_DOC_ID : nat := 1.
Definition ZDB_FB_DOC_CREATED : nat := 2.
Definition ZDB_FB_DOC_UPDATED : nat := 3.
Definition ZDB_FB_DOC_FIELDS : nat := 4.

(** The slot of a field's value, in the table that is open. *)
Definition fb_add_value (field : zdb_doc_field_t) (str_ref : Z) : M B bool :=
  let v := fd_value field in
  match fd_type field with
  | ZDB_DOC_FIELD_INT64 => flatcc_builder_table_add ZDB_FB_FIELD_I64 (put_le 8 (u64 (value_i64 v)))
  | ZDB_DOC_FIELD_DOUBLE => flatcc_builder_table_add ZDB_FB_FIELD_F64 (put_le 8 (value_f64 v))
  | ZDB_DOC_FIELD_BOOL =>
      flatcc_builder_table_add ZDB_FB_FIELD_BOOL (put_le 1 (if value_b v then 1 else 0))
  | ZDB_DOC_FIELD_STRING => flatcc_builder_table_add_offset ZDB_FB_FIELD_STR str_ref
  | ZDB_DOC_FIELD_BYTES =>
      vec_ref ← flatcc_builder_create_vector
                  (take (value_bytes v).2 (default [] (value_bytes v).1));
      if (vec_ref =? 0)%Z then ret false
      else flatcc_builder_table_add_offset ZDB_FB_FIELD_BYTES vec_ref
  | _ => ret false
  end.

Definition zdb_doc_fb_build_field (field : zdb_doc_field_t) : M B Z :=
  name_ref ← flatcc_builder_create_string_str (default [] (fd_name field));
  if (name_ref =? 0)%Z then ret 0%Z
  else
    str_ref ← (if bool_decide (fd_type field = ZDB_DOC_FIELD_STRING)
               then flatcc_builder_create_string_str (default [] (value_str (fd_value field)))
               else ret 0%Z);
    if bool_decide (fd_type field = ZDB_DOC_FIELD_STRING) && (str_ref =? 0)%Z then ret 0%Z
    else
      rc ← flatcc_builder_start_table 7;
      if negb (rc =? 0)%Z then ret 0%Z
      else
        ok ← flatcc_builder_table_add_offset ZDB_FB_FIELD_NAME name_ref;
        if negb ok then ret 0%Z
        else
          ok ← flatcc_builder_table_add ZDB_FB_FIELD_TYPE (put_le 1 (field_type_num (fd_type field)));
          if negb ok then ret 0%Z
          else
            ok ← fb_add_value field str_ref;
            if negb ok then ret 0%Z else flatcc_builder_end_table.

(** The loop over the fields: what it returns with, when it does. *)
Fixpoint fb_build_fields (fields : list zdb_doc_field_t) : M B (option zdb_status_t) :=
  match fields with
  | [] => ret None
  | field :: fields =>
      field_ref ← zdb_doc_fb_build_field field;
      if (field_ref =? 0)%Z then ret (Some ZDB_ERR_UNSUPPORTED)
      else
        ok ← flatcc_builder_extend_offset_vector field_ref;
        if negb ok then ret (Some ZDB_ERR_IO) else fb_build_fields fields
  end.

(** The vector of the fields, 0 when there are none. *)
Definition fb_fields_vec (fields : list zdb_doc_field_t) : M B (option zdb_status_t * Z) :=
  match fields with
  | [] => ret (None, 0%Z)
  | _ =>
      rc ← flatcc_builder_start_offset_vector;
      if negb (rc =? 0)%Z then ret (Some ZDB_ERR_IO, 0%Z)
      else
        st ← fb_build_fields fields;
        match st with
        | Some st => ret (Some st, 0%Z)
        | None =>
            vec ← flatcc_builder_end_offset_vector;
            ret (if (vec =? 0)%Z then Some ZDB_ERR_IO else None, vec)
        end
  end.

(** The table of the document, and the end of the buffer: [false] is a failure. *)
Definition fb_build_root (doc : zdb_doc_t) (collection_ref id_ref fields_vec : Z) : M B bool :=
  rc ← flatcc_builder_start_table 5;
  if negb (rc =? 0)%Z then ret false
  else
    ok ← flatcc_builder_table_add_offset ZDB_FB_DOC_COLLECTION collection_ref;
    if negb ok then ret false
    else
      ok ← flatcc_builder_table_add_offset ZDB_FB_DOC_ID id_ref;
      if negb ok then ret false
      else
        ok ← flatcc_builder_table_add ZDB_FB_DOC_CREATED (put_le 8 (created_ms doc));
        if negb ok then ret false
        else
          ok ← flatcc_builder_table_add ZDB_FB_DOC_UPDATED (put_le 8 (updated_ms doc));
          if negb ok then ret false
          else
            ok ← (if negb (fields_vec =? 0)%Z
                  then flatcc_builder_table_add_offset ZDB_FB_DOC_FIELDS fields_vec else ret true);
            if negb ok then ret false
            else
              root ← flatcc_builder_end_table;
              if (root =? 0)%Z then ret false
              else
                ref ← flatcc_builder_end_buffer root;
                ret (negb (ref =? 0)%Z).

(** Handing the finished buffer out. *)
Definition fb_copy_out (out_buf : option (list byte)) (out_capacity : nat) (direct : list byte)
    : export_result :=
  match out_buf with
  | None => (ZDB_OK, Some (length direct), None)
  | Some out =>
      if out_capacity <? length direct then (ZDB_ERR_NOMEM, Some (length direct), Some out)
      else (ZDB_OK, Some (length direct), Some (buf_write out 0 direct))
  end.

Definition fb_clear : M B unit := λ b, (tt, flatcc_builder_clear b).

(** The body of the export, in the build that has it. *)
Definition doc_export (doc : zdb_doc_t) (out_buf : option (list byte)) (out_capacity : nat)
    : M B export_result :=
  let fail (st : zdb_status_t) : M B export_result := fb_clear;; ret (st, Some 0, out_buf) in
  rc ← flatcc_builder_init;
  if negb (rc =? 0)%Z then ret (ZDB_ERR_NOMEM, Some 0, out_buf)
  else
    rc ← flatcc_builder_start_buffer;
    if negb (rc =? 0)%Z then fail ZDB_ERR_IO
    else
      collection_ref ← flatcc_builder_create_string_str (default [] (collection_name doc));
      id_ref ← flatcc_builder_create_string_str (default [] (document_id doc));
      if (collection_ref =? 0)%Z || (id_ref =? 0)%Z then fail ZDB_ERR_IO
      else
        '(st, fields_vec) ← fb_fields_vec (doc_fields doc);
        match st with
        | Some st => fail st
        | None =>
            ok ← fb_build_root doc collection_ref id_ref fields_vec;
            if negb ok then fail ZDB_ERR_IO
            else
              direct ← mgets flatcc_builder_get_direct_buffer;
              match direct with
              | None | Some [] => fail ZDB_ERR_IO
              | Some ((_ :: _) as direct) =>
                  fb_clear;; ret (fb_copy_out out_buf out_capacity direct)
              end
        end.

(** [out_len] says whether the pointer is set. *)
Definition zdb_doc_export_flatbuffer (doc : option zdb_doc_t) (out_buf : option (list byte))
    (out_capacity : nat) (out_len : bool) : M B export_result :=
  match doc with
  | None => ret (ZDB_ERR_INVAL, None, out_buf)
  | Some d =>
      if negb out_len || negb (doc_valid d) then ret (ZDB_ERR_INVAL, None, out_buf)
      else if CONFIG_ZDB_FLATBUFFERS && CONFIG_FLATCC then doc_export d out_buf out_capacity
      else ret (ZDB_ERR_UNSUPPORTED, Some 0, out_buf)
  end.

(** ** Samples *)

Definition sample_export (sample : zdb_ts_sample_i64_t) (out_buf : option (list byte))
    (out_capacity : nat) (out_len : bool) : M B export_result :=
  let fail (st : zdb_status_t) : M B export_result := fb_clear;; ret (st, None, out_buf) in
  rc ← flatcc_builder_init;
  if negb (rc =? 0)%Z then ret (ZDB_ERR_NOMEM, None, out_buf)
  else
    rc ← flatcc_builder_start_buffer;
    if negb (rc =? 0)%Z then fail ZDB_ERR_IO
    else
      root ← flatcc_builder_create_struct (put_le 8 (ts_ms sample) ++ put_le 8 (u64 (value sample)));
      if (root =? 0)%Z then fail ZDB_ERR_NOMEM
      else
        ref ← flatcc_builder_end_buffer root;
        if (ref =? 0)%Z then fail ZDB_ERR_IO
        else
          direct ← mgets flatcc_builder_get_direct_buffer;
          match direct with
          | None | Some [] => fail ZDB_ERR_IO
          | Some ((_ :: _) as direct) =>
              if bool_decide (out_buf = None) && negb out_len then fail ZDB_ERR_INVAL
              else
                fb_clear;;
                let '(st, len, out) := fb_copy_out out_buf out_capacity direct in
                ret (st, if out_len then len else None, out)
          end.

Definition zdb_ts_sample_i64_export_flatbuffer (sample : option zdb_ts_sample_i64_t)
    (out_buf : option (list byte)) (out_capacity : nat) (out_len : bool) : M B export_result :=
  match sample with
  | None => ret (ZDB_ERR_INVAL, None, out_buf)
  | Some s =>
      if bool_decide (out_buf = None) && (0 <? out_capacity) then ret (ZDB_ERR_INVAL, None, out_buf)
      else if CONFIG_ZDB_FLATBUFFERS && CONFIG_FLATCC then sample_export s out_buf out_capacity out_len
      else ret (ZDB_ERR_UNSUPPORTED, if out_len then Some 0 else None, out_buf)
  end.
End export.
