(* ===== verification/Shell.v ===== *)
(** * The shell: helpers and core commands ([zephyrdb_shell.c])

    A command is run by Zephyr's shell with the words of its line, [argv];
    [argv !! length argv] is the NULL that ends them. What a command prints is
    the list of its calls of [shell_print] and [shell_error], each with its
    format and arguments: rendering them is the shell's. The state is the
    world with the statics of the file: the mutex, the registered instance and
    the scratch buffer. *)

From S2P Require Import Prelude Config Doubles CText Env Types Events Core.

(** ** What is printed *)

Inductive shell_arg :=
  | A_str (s : option cstring)
  | A_int (z : Z)
  | A_double (x : double).

Abbreviation A_lit s := (A_str (Some (s2b s))).

Record shell_line := mkLine {
  ln_error : bool;
  ln_fmt : String.string;
  ln_args : list shell_arg;
}.

(** A quotation mark, and words between two. *)
Definition dquote : String.string := String.String (Ascii.ascii_of_nat 34) String.EmptyString.
Definition quoted (s : String.string) : String.string := (dquote ++ s ++ dquote)%string.

Record shell_state (W : Type) := mkShell {
  sh_w : W;
  zdb_shell_mtx : nat;            (** how often this thread holds the mutex *)
  zdb_shell_db : db_ptr;
  zdb_shell_scratch : list byte;
  sh_out : list shell_line;
}.
Arguments mkShell {W}.
Arguments sh_w {W}.
Arguments zdb_shell_mtx {W}.
Arguments zdb_shell_db {W}.
Arguments zdb_shell_scratch {W}.
Arguments sh_out {W}.

(** ** Parsing: a negative errno, or the value *)

Section parse.
Context {Cfg : Config}.

Definition zdb_shell_parse_u64 (s : option cstring) : Z + Z :=
  match s with
  | None => inl (- EINVAL)%Z
  | Some s =>
      match strtoull s with
      | Some (v, [], false) => inr v
      | _ => inl (- EINVAL)%Z
      end
  end.

Definition zdb_shell_parse_i64 (s : option cstring) : Z + Z :=
  match s with
  | None => inl (- EINVAL)%Z
  | Some s =>
      match strtoll s with
      | Some (v, [], false) => inr v
      | _ => inl (- EINVAL)%Z
      end
  end.

(** The pattern of a [double]. *)
Definition zdb_shell_parse_f64 (s : option cstring) : Z + Z :=
  match s with
  | None => inl (- EINVAL)%Z
  | Some s =>
      match strtod s with
      | Some (v, [], false) => inr v
      | _ => inl (- EINVAL)%Z
      end
  end.

Definition zdb_shell_parse_bool (s : option cstring) : Z + bool :=
  match s with
  | None => inl (- EINVAL)%Z
  | Some s =>
      if bool_decide (s ∈ [s2b "1"; s2b "true"; s2b "yes"; s2b "on"]) then inr true
      else if bool_decide (s ∈ [s2b "0"; s2b "false"; s2b "no"; s2b "off"]) then inr false
      else inl (- EINVAL)%Z
  end.

Definition zdb_shell_hex_nibble (b : byte) : Z :=
  let c := byte.unsigned b in
  if (48 <=? c)%Z && (c <=? 57)%Z then (c - 48)%Z
  else if (97 <=? c)%Z && (c <=? 102)%Z then (c - 97 + 10)%Z
  else if (65 <=? c)%Z && (c <=? 70)%Z then (c - 65 + 10)%Z
  else (-1)%Z.

(** The bytes of pairs of digits: those written before a digit that is none,
    and whether all were digits. *)
Fixpoint hex_loop (s : cstring) : list byte * bool :=
  match s with
  | h :: l :: s =>
      let hi := zdb_shell_hex_nibble h in
      let lo := zdb_shell_hex_nibble l in
      if (hi <? 0)%Z || (lo <? 0)%Z then ([], false)
      else let r := hex_loop s in (byte.of_Z (Z.lor (Z.shiftl hi 4) lo) :: r.1, r.2)
  | _ => ([], true)
  end.

(** The status or the number of bytes, and what is in [out] afterwards. *)
Definition zdb_shell_parse_hex (s : option cstring) (out : list byte) (capacity : nat)
    : (Z + nat) * list byte :=
  match s with
  | None => (inl (- EINVAL)%Z, out)
  | Some s =>
      let s := match s with
               | z :: x :: r =>
                   if (byte.unsigned z =? 48)%Z &&
                      ((byte.unsigned x =? 120)%Z || (byte.unsigned x =? 88)%Z) then r else s
               | _ => s
               end in
      let digits := length s in
      if (digits =? 0) || negb (digits mod 2 =? 0) then (inl (- EINVAL)%Z, out)
      else if capacity <? digits / 2 then (inl (- ENOSPC)%Z, out)
      else
        let '(d, ok) := hex_loop s in
        (if ok then inr (digits / 2) else inl (- EINVAL)%Z, buf_write out 0 d)
  end.

Inductive k_timeout_t := K_FOREVER | K_NO_WAIT | K_MSEC (ms : Z).

Definition zdb_shell_parse_timeout (s : option cstring) : Z + k_timeout_t :=
  match s with
  | None => inl (- EINVAL)%Z
  | Some t =>
      if bool_decide (t = s2b "forever") then inr K_FOREVER
      else
        match zdb_shell_parse_u64 s with
        | inl _ => inl (- EINVAL)%Z
        | inr ms => inr (if (ms =? 0)%Z then K_NO_WAIT else K_MSEC ms)
        end
  end.

(** Of a pointer that is not NULL. *)
Definition zdb_shell_printable (data : list byte) (len : nat) : bool :=
  if len =? 0 then false
  else
    let len' := if (u8_at data (len - 1) =? 0)%Z then len - 1 else len in
    if len' =? 0 then false
    else forallb (λ b, (32 <=? byte.unsigned b)%Z && (byte.unsigned b <=? 126)%Z) (take len' data).

(** ** Status codes *)

Definition zdb_shell_errno (status : zdb_status_t) : Z :=
  match status with
  | ZDB_OK => 0
  | ZDB_ERR_INVAL => - EINVAL
  | ZDB_ERR_NOMEM => - ENOMEM
  | ZDB_ERR_NOT_FOUND => - ENOENT
  | ZDB_ERR_BUSY => - EBUSY
  | ZDB_ERR_TIMEOUT => - ETIMEDOUT
  | ZDB_ERR_UNSUPPORTED => - ENOTSUP
  | ZDB_ERR_CORRUPT => - EBADMSG
  | ZDB_ERR_COLLISION => - EEXIST
  | ZDB_ERR_IO | ZDB_ERR_INTERNAL => - EIO
  end%Z.
End parse.

Section shell.
Context {Cfg : Config} {W : Type}.
Abbreviation S := (shell_state W).

(** ** The mutex, printing, the world *)

Definition on_w {A} (m : M W A) : M S A :=
  λ s, let r := m (sh_w s) in (r.1, s <| sh_w := r.2 |>).

Definition shell_print (fmt : String.string) (args : list shell_arg) : M S unit :=
  mmodify (λ s, s <| sh_out ::= (λ l, l ++ [mkLine false fmt args]) |>).
Definition shell_error (fmt : String.string) (args : list shell_arg) : M S unit :=
  mmodify (λ s, s <| sh_out ::= (λ l, l ++ [mkLine true fmt args]) |>).

(** The mutex is recursive and waited for with [K_FOREVER]. *)
Definition shell_mutex_lock : M S unit := mmodify (λ s, s <| zdb_shell_mtx ::= Datatypes.S |>).
Definition shell_mutex_unlock : M S unit := mmodify (λ s, s <| zdb_shell_mtx ::= pred |>).

Definition zdb_shell_register (db : db_ptr) : M S unit :=
  shell_mutex_lock;;
  mmodify (λ s, s <| zdb_shell_db := db |>);;
  shell_mutex_unlock.

Definition zdb_shell_lock : M S (Z * db_ptr) :=
  shell_mutex_lock;;
  db ← mgets zdb_shell_db;
  match db with
  | None =>
      shell_mutex_unlock;;
      shell_error "error: ZephyrDB not registered; call zdb_shell_register() after zdb_init()" [];;
      ret (- ENODEV, None)%Z
  | Some _ => ret (0%Z, db)
  end.

Definition zdb_shell_unlock : M S unit := shell_mutex_unlock.

(** The frame of every command: the lock, and the unlock of every path that
    took it. *)
Definition shell_locked (body : db_ptr → M S Z) : M S Z :=
  '(rc, db) ← zdb_shell_lock;
  if negb (rc =? 0)%Z then ret rc
  else
    rc ← body db;
    zdb_shell_unlock;;
    ret rc.

(** The same for a command that loops, [None] when its fuel is used up. *)
Definition shell_locked_loop (body : db_ptr → M S (option Z)) : M S (option Z) :=
  '(rc, db) ← zdb_shell_lock;
  if negb (rc =? 0)%Z then ret (Some rc)
  else
    rc ← body db;
    zdb_shell_unlock;;
    ret rc.

Definition zdb_shell_fail (op : String.string) (status : zdb_status_t) : M S Z :=
  shell_error "error: %s failed: %s" [A_lit op; A_lit (zdb_status_str status)];;
  (match status with
   | ZDB_ERR_UNSUPPORTED =>
       shell_print ("hint: not supported by the active backend (see " ++ quoted "zdb info" ++ ")") []
   | ZDB_ERR_BUSY =>
       shell_print "hint: another handle is still open; see CONFIG_ZDB_TS_MAX_STREAMS" []
   | ZDB_ERR_NOMEM =>
       shell_print ("hint: a slab or the heap is exhausted, or the value exceeds its bound (see " ++
                    quoted "zdb info" ++ ")") []
   | _ => ret tt
   end);;
  ret (zdb_shell_errno status).

Definition zdb_shell_bad_arg (what : String.string) (got : option cstring) : M S Z :=
  shell_error "error: invalid %s: %s" [A_lit what; A_str (Some (default [] got))];;
  ret (- EINVAL)%Z.

(** ** Printing bytes *)

Definition ZDB_SHELL_HEX_PER_LINE : nat := 16.

(** [snprintk] of ["%02x"]. *)
Definition hex_digit (v : Z) : byte := byte.of_Z (if (v <? 10)%Z then 48 + v else 87 + v).
Definition fmt_02x (b : byte) : list byte :=
  let v := byte.unsigned b in [hex_digit (v / 16); hex_digit (v mod 16)].

(** The lines of a value, sixteen bytes each; [data] has at most [fuel]. *)
Fixpoint hex_lines (fuel : nat) (data : list byte) : list cstring :=
  match fuel, data with
  | Datatypes.S fuel, _ :: _ =>
      flat_map fmt_02x (take ZDB_SHELL_HEX_PER_LINE data) ::
      hex_lines fuel (drop ZDB_SHELL_HEX_PER_LINE data)
  | _, _ => []
  end.

Fixpoint print_each (label : cstring) (lines : list cstring) : M S unit :=
  match lines with
  | [] => ret tt
  | l :: lines => shell_print "%s: %s" [A_str (Some label); A_str (Some l)];; print_each label lines
  end.

(** [data] is the [len] bytes at the pointer, [None] for NULL. *)
Definition zdb_shell_print_hex (label : cstring) (data : option (list byte)) : M S unit :=
  match data with
  | None | Some [] => shell_print "%s:" [A_str (Some label)]
  | Some d => print_each label (hex_lines (length d) d)
  end.

(** ** Arguments of the listings *)

(** The in-out arguments [limit], [from_ms] and [to_ms] ([None]: NULL), and
    [windowed]. *)
Record listing_args := {
  la_limit : option Z;
  la_from : option Z;
  la_to : option Z;
  la_windowed : option bool;
}.

(** A number through an out pointer, which NULL leaves alone. *)
Definition parse_into (out : option Z) (s : option cstring) : Z + option Z :=
  match out with
  | None => inr None
  | Some _ => match zdb_shell_parse_u64 s with inl e => inl e | inr v => inr (Some v) end
  end.

(** The window pair, from [first] on. *)
Definition parse_window (argv : list cstring) (first : nat) (a : listing_args)
    : M S (Z * listing_args) :=
  match parse_into (la_from a) (argv !! first) with
  | inl _ => rc ← zdb_shell_bad_arg "from_ms" (argv !! first); ret (rc, a)
  | inr from =>
      let a := a <| la_from := from |> in
      match parse_into (la_to a) (argv !! (first + 1)) with
      | inl _ => rc ← zdb_shell_bad_arg "to_ms" (argv !! (first + 1)); ret (rc, a)
      | inr to =>
          ret (0%Z, a <| la_to := to |> <| la_windowed := option_map (λ _, true) (la_windowed a) |>)
      end
  end.

Definition zdb_shell_parse_listing_args (argv : list cstring) (first : nat) (a : listing_args)
    : M S (Z * listing_args) :=
  let extra := size_t (Z.of_nat (length argv) - Z.of_nat first) in
  let a := a <| la_windowed := option_map (λ _, false) (la_windowed a) |> in
  let has_limit := bool_decide (is_Some (la_limit a)) in
  match (if has_limit && (1 <=? extra) then parse_into (la_limit a) (argv !! first)
         else inr (la_limit a)) with
  | inl _ => rc ← zdb_shell_bad_arg "limit" (argv !! first); ret (rc, a)
  | inr limit =>
      let a := a <| la_limit := limit |> in
      let extra := if has_limit && (1 <=? extra) then extra - 1 else extra in
      if extra =? 0 then ret (0%Z, a)
      else if negb (extra =? 2) then
        shell_error "error: from_ms and to_ms must be given together" [];;
        ret (- EINVAL, a)%Z
      else parse_window argv (if has_limit then first + 1 else first) a
  end.
End shell.

(** ** The core commands *)

(** A command as the tables register it: its words, its handler (with fuel, of
    which [None] says it is used up), and how many words of [argv] it needs
    and may have besides. *)
Record shell_cmd (S : Type) := mkCmd {
  cmd_path : list String.string;
  cmd_handler : nat → list cstring → M S (option Z);
  cmd_mandatory : nat;
  cmd_optional : nat;
}.
Arguments mkCmd {S}.
Arguments cmd_path {S}.
Arguments cmd_handler {S}.
Arguments cmd_mandatory {S}.
Arguments cmd_optional {S}.

(** A handler that does not loop. *)
Definition once {S} (h : list cstring → M S Z) : nat → list cstring → M S (option Z) :=
  λ _ argv, rc ← h argv; ret (Some rc).

Section core_commands.
Context {Cfg : Config} {CRC : Crc32} {K F FS : Type} `{!Kernel K}.
Abbreviation S := (shell_state (world K F FS)).

Definition yes_no (b : bool) : shell_arg := if b then A_lit "yes" else A_lit "no".

Definition cmd_zdb_health (argv : list cstring) : M S Z :=
  shell_locked (λ db,
    h ← on_w (zdb_health db);
    shell_print "health: %s" [A_lit (zdb_health_str h)];;
    ret 0%Z).

Definition zdb_shell_kv_backend : String.string :=
  if CONFIG_ZDB_KV_BACKEND_ZMS then "zms" else if CONFIG_ZDB_KV_BACKEND_NVS then "nvs" else "none".

Definition zdb_shell_ts_backend : String.string :=
  if CONFIG_ZDB_TS_BACKEND_FCB then "fcb"
  else if CONFIG_ZDB_TS_BACKEND_LITTLEFS then "littlefs" else "none".

Definition ZDB_VERSION_STRING : String.string := "0.7.0".

(** The sizes of [zephyrdb_shell.h]; without the key-value module there is no
    block size, and 1 is used. *)
Definition ZDB_SHELL_KV_VALUE_MAX : nat := if CONFIG_ZDB_KV then CONFIG_ZDB_KV_IO_SLAB_BLOCK_SIZE else 1.
Definition ZDB_SHELL_HEX_MAX : nat := CONFIG_SHELL_CMD_BUFF_SIZE / 2.
Definition ZDB_SHELL_SCRATCH_SIZE : nat := Nat.max ZDB_SHELL_KV_VALUE_MAX ZDB_SHELL_HEX_MAX.
Definition ZDB_SHELL_LIST_DEFAULT : Z := 20.
Definition ZDB_SHELL_PREVIEW_BYTES : nat := 16.

Definition cmd_zdb_info (argv : list cstring) : M S Z :=
  shell_locked (λ db,
    shell_print "version: %s" [A_lit ZDB_VERSION_STRING];;
    h ← on_w (zdb_health db);
    shell_print "health: %s" [A_lit (zdb_health_str h)];;
    shell_print "kv: %s" [yes_no CONFIG_ZDB_KV];;
    shell_print "ts: %s" [yes_no CONFIG_ZDB_TS];;
    shell_print "doc: %s" [yes_no CONFIG_ZDB_DOC];;
    shell_print "eventing: %s" [yes_no CONFIG_ZDB_EVENTING];;
    shell_print "stats: %s" [yes_no CONFIG_ZDB_STATS];;
    shell_print "kv_backend: %s" [A_lit zdb_shell_kv_backend];;
    shell_print "ts_backend: %s" [A_lit zdb_shell_ts_backend];;
    shell_print "max_key_len: %d" [A_int CONFIG_ZDB_MAX_KEY_LEN];;
    shell_print "kv_value_max: %d" [A_int ZDB_SHELL_KV_VALUE_MAX];;
    shell_print "hex_input_max: %d" [A_int ZDB_SHELL_HEX_MAX];;
    ret 0%Z).

Definition cmd_zdb_stats_show (argv : list cstring) : M S Z :=
  shell_locked (λ db,
    stats ← on_w (zdb_ts_stats_get db (Some zero_stats));
    let stats := default zero_stats stats in
    shell_print "recover_runs: %u" [A_int (recover_runs stats)];;
    shell_print "recover_failures: %u" [A_int (recover_failures stats)];;
    shell_print "recover_truncated_bytes: %llu" [A_int (recover_truncated_bytes stats)];;
    shell_print "crc_failures: %u" [A_int (crc_failures stats)];;
    shell_print "corrupt_records: %u" [A_int (corrupt_records stats)];;
    shell_print "unsupported_versions: %u" [A_int (unsupported_versions stats)];;
    ret 0%Z).

Definition cmd_zdb_stats_reset (argv : list cstring) : M S Z :=
  shell_locked (λ db,
    on_w (zdb_ts_stats_reset db);;
    shell_print "status: ok" [];;
    ret 0%Z).

Definition zero_export : zdb_ts_stats_export_t :=
  {| ex_version := 0; ex_reserved := 0; ex_crc := 0; ex_recover_runs := 0; ex_recover_failures := 0;
     ex_recover_truncated_bytes := 0; ex_crc_failures := 0; ex_corrupt_records := 0;
     ex_unsupported_versions := 0 |}.

Definition cmd_zdb_stats_export (argv : list cstring) : M S Z :=
  shell_locked (λ db,
    '(st, e) ← on_w (zdb_ts_stats_export db (Some zero_export));
    if negb (bool_decide (st = ZDB_OK)) then zdb_shell_fail "stats export" st
    else
      let e := default zero_export e in
      shell_print "version: %u" [A_int (ex_version e)];;
      shell_print "crc: %08x" [A_int (ex_crc e)];;
      shell_print "bytes: %u" [A_int (length (export_bytes e))];;
      zdb_shell_print_hex (s2b "hex") (Some (export_bytes e));;
      shell_print "valid: %s" [yes_no (bool_decide (zdb_ts_stats_export_validate (Some e) = ZDB_OK))];;
      ret 0%Z).

Definition zdb_cmds : list (shell_cmd S) :=
  [mkCmd ["health"] (once cmd_zdb_health) 1 0;
   mkCmd ["info"] (once cmd_zdb_info) 1 0;
   mkCmd ["stats"; "show"] (once cmd_zdb_stats_show) 1 0;
   mkCmd ["stats"; "reset"] (once cmd_zdb_stats_reset) 1 0;
   mkCmd ["stats"; "export"] (once cmd_zdb_stats_export) 1 0]%string.
End core_commands.
