(* ===== verification/ShellKv.v ===== *)
(** * The shell's key-value commands ([zephyrdb_shell_kv.c])

    Each opens a handle on the namespace, does one operation, closes the handle
    and prints what happened. *)

From S2P Require Import Prelude Config CText Env Types Events KvFormat KvIndex Kv Core Shell.

Inductive zdb_shell_kv_enc :=
  | ZDB_SHELL_KV_ENC_STR | ZDB_SHELL_KV_ENC_RAW | ZDB_SHELL_KV_ENC_HEX.
#[global] Instance zdb_shell_kv_enc_eq_dec : EqDecision zdb_shell_kv_enc.
Proof. solve_decision. Defined.

(** A handle and an iterator before they are opened. *)
Definition no_kv : zdb_kv_t := {| kv_db := None; kv_namespace_name := None |}.
Definition no_iter : zdb_kv_iter_t := {| it_kv := None; it_position := 0 |}.

Section shell_kv.
Context {Cfg : Config} {CRC : Crc32} {K F FS : Type} `{!Kernel K, !KvBackend F}.
Abbreviation W := (world K F FS).
Abbreviation S := (shell_state W).

(** The digits of a value to store: the status, and the bytes decoded, which
    are in the scratch buffer. *)
Definition kv_set_parse (argv : list cstring) (enc : zdb_shell_kv_enc) : M S (Z * nat) :=
  if bool_decide (enc = ZDB_SHELL_KV_ENC_HEX) then
    scratch ← mgets zdb_shell_scratch;
    let '(r, scratch) := zdb_shell_parse_hex (argv !! 3) scratch ZDB_SHELL_SCRATCH_SIZE in
    mmodify (λ s, s <| zdb_shell_scratch := scratch |>);;
    match r with
    | inr len => ret (0%Z, len)
    | inl rc =>
        if (rc =? - ENOSPC)%Z then
          shell_error "error: value exceeds %u bytes" [A_int ZDB_SHELL_SCRATCH_SIZE];;
          ret (rc, 0)
        else rc ← zdb_shell_bad_arg "hex value" (argv !! 3); ret (rc, 0)
    end
  else ret (0%Z, 0).

(** Storing the value under its encoding: the status and the length. *)
Definition kv_set_value (argv : list cstring) (enc : zdb_shell_kv_enc) (kv : option zdb_kv_t)
    (len : nat) : M S (zdb_status_t * nat) :=
  let text := default [] (argv !! 3) in
  match enc with
  | ZDB_SHELL_KV_ENC_STR =>
      st ← on_w (zdb_kv_set_str kv (argv !! 2) (argv !! 3));
      ret (st, length text + 1)
  | ZDB_SHELL_KV_ENC_RAW =>
      st ← on_w (zdb_kv_set kv (argv !! 2) (Some text) (length text));
      ret (st, length text)
  | ZDB_SHELL_KV_ENC_HEX =>
      scratch ← mgets zdb_shell_scratch;
      st ← on_w (zdb_kv_set kv (argv !! 2) (Some scratch) len);
      ret (st, len)
  end.

Definition zdb_shell_kv_set (enc : zdb_shell_kv_enc) (argv : list cstring) : M S Z :=
  shell_locked (λ db,
    '(rc, len) ← kv_set_parse argv enc;
    if negb (rc =? 0)%Z then ret rc
    else
      '(st, kv) ← on_w (zdb_kv_open db (argv !! 1) (Some no_kv));
      if negb (bool_decide (st = ZDB_OK)) then zdb_shell_fail "kv open" st
      else
        '(st, len) ← kv_set_value argv enc kv len;
        if negb (bool_decide (st = ZDB_OK)) then zdb_shell_fail "kv set" st
        else
          shell_print "status: ok" [];;
          shell_print "namespace: %s" [A_str (argv !! 1)];;
          shell_print "key: %s" [A_str (argv !! 2)];;
          shell_print "bytes: %u" [A_int len];;
          ret 0%Z).

Definition cmd_zdb_kv_set_str := zdb_shell_kv_set ZDB_SHELL_KV_ENC_STR.
Definition cmd_zdb_kv_set_raw := zdb_shell_kv_set ZDB_SHELL_KV_ENC_RAW.
Definition cmd_zdb_kv_set_hex := zdb_shell_kv_set ZDB_SHELL_KV_ENC_HEX.

(** Printing what was read. *)
Definition kv_get_print (argv : list cstring) (out_len : nat) : M S Z :=
  scratch ← mgets zdb_shell_scratch;
  let shown := Nat.min out_len ZDB_SHELL_SCRATCH_SIZE in
  shell_print "namespace: %s" [A_str (argv !! 1)];;
  shell_print "key: %s" [A_str (argv !! 2)];;
  shell_print "len: %u" [A_int out_len];;
  shell_print "truncated: %s" [yes_no (shown <? out_len)];;
  zdb_shell_print_hex (s2b "hex") (Some (take shown scratch));;
  (if zdb_shell_printable scratch shown then
     let text_len := if (u8_at scratch (shown - 1) =? 0)%Z then shown - 1 else shown in
     shell_print "str: %.*s" [A_int text_len; A_str (Some (take text_len scratch))]
   else ret tt);;
  ret 0%Z.

Definition cmd_zdb_kv_get (argv : list cstring) : M S Z :=
  shell_locked (λ db,
    '(st, kv) ← on_w (zdb_kv_open db (argv !! 1) (Some no_kv));
    if negb (bool_decide (st = ZDB_OK)) then zdb_shell_fail "kv open" st
    else
      scratch ← mgets zdb_shell_scratch;
      '(st, out) ← on_w (zdb_kv_get kv (argv !! 2) (Some scratch) ZDB_SHELL_SCRATCH_SIZE true);
      mmodify (λ s, s <| zdb_shell_scratch := default [] (o_value out) |>);;
      if negb (bool_decide (st = ZDB_OK)) then zdb_shell_fail "kv get" st
      else kv_get_print argv (default 0 (o_len out))).

Definition cmd_zdb_kv_delete (argv : list cstring) : M S Z :=
  shell_locked (λ db,
    '(st, kv) ← on_w (zdb_kv_open db (argv !! 1) (Some no_kv));
    if negb (bool_decide (st = ZDB_OK)) then zdb_shell_fail "kv open" st
    else
      st ← on_w (zdb_kv_delete kv (argv !! 2));
      if negb (bool_decide (st = ZDB_OK)) then zdb_shell_fail "kv delete" st
      else
        shell_print "status: ok" [];;
        shell_print "namespace: %s" [A_str (argv !! 1)];;
        shell_print "key: %s" [A_str (argv !! 2)];;
        ret 0%Z).

(** ** Listing *)

(** The digits of the first [n] bytes, while there is room for three more
    characters; [off] are written. *)
Fixpoint preview_loop (data : list byte) (n off capacity : nat) : list byte :=
  match n, data with
  | Datatypes.S n, b :: data =>
      if off + 3 <? capacity then fmt_02x b ++ preview_loop data n (off + 2) capacity else []
  | _, _ => []
  end.

(** The text in [out]. *)
Definition zdb_shell_kv_preview (capacity : nat) (data : list byte) (len total : nat) : cstring :=
  let n := Nat.min len ZDB_SHELL_PREVIEW_BYTES in
  let out := preview_loop data n 0 capacity in
  if (n <? total) && (length out + 3 <? capacity) then out ++ s2b ".." else out.

(** [char preview[(ZDB_SHELL_PREVIEW_BYTES * 2U) + 3U]]. *)
Definition sizeof_preview : nat := ZDB_SHELL_PREVIEW_BYTES * 2 + 3.

(** The listing: [rc], the entries shown and whether there is one more. The
    iterator's position and the two buffers are carried from entry to entry. *)
Fixpoint kv_list_loop (fuel : nat) (kv : option zdb_kv_t) (pos : nat) (key value : list byte)
    (limit shown : Z) : M S (option (Z * Z * bool)) :=
  match fuel with
  | 0 => ret None
  | Datatypes.S fuel =>
      r ← on_w (zdb_kv_iter_next (Some {| it_kv := kv; it_position := pos |})
                  (Some key) (CONFIG_ZDB_MAX_KEY_LEN + 1) true
                  (Some value) ZDB_SHELL_PREVIEW_BYTES true);
      match r with
      | None => ret None
      | Some (st, pos, out) =>
          if bool_decide (st = ZDB_ERR_NOT_FOUND) then ret (Some (0%Z, shown, false))
          else if negb (bool_decide (st = ZDB_OK)) then
            rc ← zdb_shell_fail "kv iter next" st;
            ret (Some (rc, shown, false))
          else if (limit <=? shown)%Z then ret (Some (0%Z, shown, true))
          else
            let value_len := default 0 (o_len (io_value out)) in
            let value := default [] (o_value (io_value out)) in
            let preview := zdb_shell_kv_preview sizeof_preview value
                             (Nat.min value_len ZDB_SHELL_PREVIEW_BYTES) value_len in
            shell_print "[%u] key=%s len=%u hex=%s"
              [A_int shown; A_str (Some (c_str (io_key out))); A_int value_len; A_str (Some preview)];;
            kv_list_loop fuel kv pos (io_key out) value limit (u32 (shown + 1))
      end
  end.

Definition cmd_zdb_kv_list (fuel : nat) (argv : list cstring) : M S (option Z) :=
  shell_locked_loop (λ db,
    '(rc, a) ← zdb_shell_parse_listing_args argv 2
                 {| la_limit := Some ZDB_SHELL_LIST_DEFAULT; la_from := None; la_to := None;
                    la_windowed := None |};
    if negb (rc =? 0)%Z then ret (Some rc)
    else
      '(st, kv) ← on_w (zdb_kv_open db (argv !! 1) (Some no_kv));
      if negb (bool_decide (st = ZDB_OK)) then rc ← zdb_shell_fail "kv open" st; ret (Some rc)
      else
        '(st, iter) ← on_w (zdb_kv_iter_open kv (Some no_iter));
        if negb (bool_decide (st = ZDB_OK)) then rc ← zdb_shell_fail "kv iter open" st; ret (Some rc)
        else
          shell_print "namespace: %s" [A_str (argv !! 1)];;
          r ← kv_list_loop fuel (iter ≫= it_kv) (default 0 (it_position <$> iter))
                (replicate (CONFIG_ZDB_MAX_KEY_LEN + 1) nul) (replicate ZDB_SHELL_PREVIEW_BYTES nul)
                (default 0%Z (la_limit a)) 0;
          match r with
          | None => ret None
          | Some (rc, shown, more) =>
              shell_print "shown: %u" [A_int shown];;
              shell_print "truncated: %s" [yes_no more];;
              ret (Some rc)
          end).

(** ** Whole namespaces *)

Definition cmd_zdb_kv_reset (fuel : nat) (argv : list cstring) : M S (option Z) :=
  shell_locked_loop (λ db,
    '(st, kv) ← on_w (zdb_kv_open db (argv !! 1) (Some no_kv));
    if negb (bool_decide (st = ZDB_OK)) then rc ← zdb_shell_fail "kv open" st; ret (Some rc)
    else
      r ← on_w (zdb_kv_reset_namespace fuel kv);
      match r with
      | None => ret None
      | Some st =>
          if negb (bool_decide (st = ZDB_OK)) then rc ← zdb_shell_fail "kv reset" st; ret (Some rc)
          else
            shell_print "status: ok" [];;
            shell_print "namespace: %s" [A_str (argv !! 1)];;
            ret (Some 0%Z)
      end).

Definition cmd_zdb_kv_defaults (argv : list cstring) : M S Z :=
  shell_locked (λ db,
    st ← on_w (zdb_kv_defaults_apply db);
    if negb (bool_decide (st = ZDB_OK)) then zdb_shell_fail "kv defaults" st
    else shell_print "status: ok" [];; ret 0%Z).

Definition zdb_kv_cmds : list (shell_cmd S) :=
  [mkCmd ["kv"; "get"] (once cmd_zdb_kv_get) 3 0;
   mkCmd ["kv"; "list"] cmd_zdb_kv_list 2 1;
   mkCmd ["kv"; "delete"] (once cmd_zdb_kv_delete) 3 0;
   mkCmd ["kv"; "set"; "str"] (once cmd_zdb_kv_set_str) 4 0;
   mkCmd ["kv"; "set"; "raw"] (once cmd_zdb_kv_set_raw) 4 0;
   mkCmd ["kv"; "set"; "hex"] (once cmd_zdb_kv_set_hex) 4 0;
   mkCmd ["kv"; "reset"] cmd_zdb_kv_reset 2 0;
   mkCmd ["kv"; "defaults"] (once cmd_zdb_kv_defaults) 1 0]%string.
End shell_kv.
