(* ===== verification/ShellTs.v ===== *)
(** * The shell's time-series commands ([zephyrdb_shell_ts.c])

    Every command opens its stream, does its work, and closes it again. *)

From S2P Require Import Prelude Config CText Env Types FsEnv Events Cursor Doubles TsFormat TsStore.
From S2P Require Import TsSegment TsCursor TsRecover TsOps Core Shell.

Definition zdb_shell_parse_agg (s : option cstring) : Z + zdb_ts_agg_t :=
  match s with
  | None => inl (- EINVAL)%Z
  | Some s =>
      if bool_decide (s = s2b "min") then inr ZDB_TS_AGG_MIN
      else if bool_decide (s = s2b "max") then inr ZDB_TS_AGG_MAX
      else if bool_decide (s = s2b "avg") then inr ZDB_TS_AGG_AVG
      else if bool_decide (s = s2b "sum") then inr ZDB_TS_AGG_SUM
      else if bool_decide (s = s2b "count") then inr ZDB_TS_AGG_COUNT
      else inl (- EINVAL)%Z
  end.

Definition zdb_shell_agg_str (agg : zdb_ts_agg_t) : String.string :=
  match agg with
  | ZDB_TS_AGG_MIN => "min"
  | ZDB_TS_AGG_MAX => "max"
  | ZDB_TS_AGG_AVG => "avg"
  | ZDB_TS_AGG_SUM => "sum"
  | ZDB_TS_AGG_COUNT => "count"
  end.

(** A handle and a cursor before they are opened. *)
Definition no_ts : zdb_ts_t := {| ts_db := None; ts_stream_name := None |}.
Definition no_cursor {FH} : zdb_cursor_t FH :=
  {| cu_model := ZDB_MODEL_CORE; cu_backend := ZDB_BACKEND_NONE; cu_flags := 0; iter_count := 0;
     cu_position := 0; cu_current := None; cu_predicate := None; cu_impl := None |}.

Section shell_ts.
Context {Cfg : Config} {CRC : Crc32} {K F FS FH DH : Type} `{!Kernel K, !FileSys FS FH DH}.
Abbreviation W := (world K F FS).
Abbreviation S := (shell_state W).

(** Opening the stream that [argv[1]] names, for the rest of the command. *)
Definition with_stream {A} (db : db_ptr) (argv : list cstring) (failed : Z → A)
    (k : option zdb_ts_t → M S A) : M S A :=
  '(st, ts) ← on_w (zdb_ts_open db (argv !! 1) (Some no_ts));
  if negb (bool_decide (st = ZDB_OK)) then rc ← zdb_shell_fail "ts open" st; ret (failed rc)
  else k ts.

(** What most commands print when they are done. *)
Definition print_stream_ok (argv : list cstring) : M S unit :=
  shell_print "status: ok" [];;
  shell_print "stream: %s" [A_str (argv !! 1)].

Definition cmd_zdb_ts_append (argv : list cstring) : M S Z :=
  shell_locked (λ db,
    match zdb_shell_parse_u64 (argv !! 2) with
    | inl _ => zdb_shell_bad_arg "ts_ms" (argv !! 2)
    | inr t =>
        match zdb_shell_parse_i64 (argv !! 3) with
        | inl _ => zdb_shell_bad_arg "value" (argv !! 3)
        | inr v =>
            with_stream db argv id (λ ts,
              st ← on_w (zdb_ts_append_i64 ts (Some {| ts_ms := t; value := v |}));
              on_w (zdb_ts_close ts);;
              if negb (bool_decide (st = ZDB_OK)) then zdb_shell_fail "ts append" st
              else
                print_stream_ok argv;;
                shell_print "ts_ms: %llu" [A_int t];;
                shell_print "value: %lld" [A_int v];;
                ret 0%Z)
        end
    end).

(** ** Walking *)

(** The walk: [rc], the samples shown, whether there are more, the cursor. *)
Fixpoint ts_walk_loop (fuel : nat) (cursor : option (zdb_cursor_t FH)) (limit shown : Z)
    : M S (option (Z * Z * bool * option (zdb_cursor_t FH))) :=
  match fuel with
  | 0 => ret None
  | Datatypes.S fuel' =>
      r ← on_w (zdb_ts_cursor_next_sample fuel cursor true);
      match r with
      | None => ret None
      | Some (st, sample, cursor) =>
          if (limit <=? shown)%Z then
            ret (Some (0%Z, shown, bool_decide (st = ZDB_OK), cursor))
          else if bool_decide (st = ZDB_ERR_NOT_FOUND) then ret (Some (0%Z, shown, false, cursor))
          else if negb (bool_decide (st = ZDB_OK)) then
            rc ← zdb_shell_fail "ts cursor next" st;
            ret (Some (rc, shown, false, cursor))
          else
            let x := default {| ts_ms := 0; value := 0 |} sample in
            shell_print "[%u] ts_ms=%llu value=%lld" [A_int shown; A_int (ts_ms x); A_int (value x)];;
            ts_walk_loop fuel' cursor limit (u32 (shown + 1))
      end
  end.

Definition zdb_shell_ts_walk (desc : bool) (fuel : nat) (argv : list cstring) : M S (option Z) :=
  shell_locked_loop (λ db,
    '(rc, a) ← zdb_shell_parse_listing_args argv 2
                 {| la_limit := Some ZDB_SHELL_LIST_DEFAULT;
                    la_from := Some (from_ts_ms ZDB_TS_WINDOW_ALL);
                    la_to := Some (to_ts_ms ZDB_TS_WINDOW_ALL); la_windowed := None |};
    if negb (rc =? 0)%Z then ret (Some rc)
    else
      with_stream db argv Some (λ ts,
        let window := {| from_ts_ms := default 0%Z (la_from a); to_ts_ms := default 0%Z (la_to a) |} in
        '(st, cursor) ← on_w (if desc then zdb_ts_cursor_open_desc ts window None (Some no_cursor)
                              else zdb_ts_cursor_open ts window None (Some no_cursor));
        if negb (bool_decide (st = ZDB_OK)) then
          rc ← zdb_shell_fail "ts cursor open" st;
          (if bool_decide (st = ZDB_ERR_UNSUPPORTED) && desc
           then shell_print ("hint: this backend cannot walk backwards; use " ++ quoted "zdb ts read") []
           else ret tt);;
          on_w (zdb_ts_close ts);;
          ret (Some rc)
        else
          shell_print "stream: %s" [A_str (argv !! 1)];;
          shell_print "order: %s" [if desc then A_lit "desc" else A_lit "asc"];;
          r ← ts_walk_loop fuel cursor (default 0%Z (la_limit a)) 0;
          match r with
          | None => ret None
          | Some (rc, shown, more, cursor) =>
              on_w (zdb_cursor_close cursor);;
              on_w (zdb_ts_close ts);;
              shell_print "shown: %u" [A_int shown];;
              shell_print "truncated: %s" [yes_no more];;
              ret (Some rc)
          end)).

Definition cmd_zdb_ts_read := zdb_shell_ts_walk false.
Definition cmd_zdb_ts_tail := zdb_shell_ts_walk true.

Definition cmd_zdb_ts_agg (fuel : nat) (argv : list cstring) : M S (option Z) :=
  shell_locked_loop (λ db,
    match zdb_shell_parse_agg (argv !! 2) with
    | inl _ =>
        shell_error "error: unknown aggregate: %s (use min|max|avg|sum|count)" [A_str (argv !! 2)];;
        ret (Some (- EINVAL)%Z)
    | inr agg =>
        '(rc, a) ← zdb_shell_parse_listing_args argv 3
                     {| la_limit := None; la_from := Some (from_ts_ms ZDB_TS_WINDOW_ALL);
                        la_to := Some (to_ts_ms ZDB_TS_WINDOW_ALL); la_windowed := None |};
        if negb (rc =? 0)%Z then ret (Some rc)
        else
          with_stream db argv Some (λ ts,
            let window := {| from_ts_ms := default 0%Z (la_from a); to_ts_ms := default 0%Z (la_to a) |} in
            r ← on_w (zdb_ts_query_aggregate fuel ts window agg true no_cursor);
            match r with
            | None => ret None
            | Some (st, result) =>
                on_w (zdb_ts_close ts);;
                if bool_decide (st = ZDB_ERR_NOT_FOUND) then
                  shell_print "stream: %s" [A_str (argv !! 1)];;
                  shell_print "agg: %s" [A_lit (zdb_shell_agg_str agg)];;
                  shell_print "points: 0" [];;
                  shell_print "matched: none" [];;
                  ret (Some 0%Z)
                else if negb (bool_decide (st = ZDB_OK)) then
                  rc ← zdb_shell_fail "ts agg" st; ret (Some rc)
                else
                  let x := default {| ar_agg := agg; ar_value := S754_zero false; ar_points := 0;
                                      ar_truncated := false |} result in
                  shell_print "stream: %s" [A_str (argv !! 1)];;
                  shell_print "agg: %s" [A_lit (zdb_shell_agg_str (ar_agg x))];;
                  shell_print "points: %u" [A_int (ar_points x)];;
                  shell_print "value: %f" [A_double (ar_value x)];;
                  shell_print "truncated: %s" [yes_no (ar_truncated x)];;
                  ret (Some 0%Z)
            end)
    end).

(** ** Flushing and recovery *)

(** How long the semaphore of a flush is waited for is the kernel's part of
    the call: [k_sem_take] may fail. *)
Definition cmd_zdb_ts_flush_sync (argv : list cstring) : M S Z :=
  shell_locked (λ db,
    match (if 2 <? length argv then zdb_shell_parse_timeout (argv !! 2) else inr (K_MSEC 2000)) with
    | inl _ => zdb_shell_bad_arg "timeout_ms" (argv !! 2)
    | inr _ =>
        with_stream db argv id (λ ts,
          st ← on_w (zdb_ts_flush_sync ts);
          on_w (zdb_ts_close ts);;
          if negb (bool_decide (st = ZDB_OK)) then zdb_shell_fail "ts flush sync" st
          else print_stream_ok argv;; ret 0%Z)
    end).

Definition cmd_zdb_ts_flush_async (argv : list cstring) : M S Z :=
  shell_locked (λ db,
    with_stream db argv id (λ ts,
      st ← on_w (zdb_ts_flush_async ts);
      on_w (zdb_ts_close ts);;
      if negb (bool_decide (st = ZDB_OK)) then zdb_shell_fail "ts flush async" st
      else print_stream_ok argv;; ret 0%Z)).

Definition cmd_zdb_ts_recover (argv : list cstring) : M S Z :=
  shell_locked (λ db,
    with_stream db argv id (λ ts,
      '(st, truncated) ← on_w (zdb_ts_recover_stream ts true);
      on_w (zdb_ts_close ts);;
      if negb (bool_decide (st = ZDB_OK)) then zdb_shell_fail "ts recover" st
      else
        print_stream_ok argv;;
        shell_print "truncated_bytes: %u" [A_int (default 0 truncated)];;
        ret 0%Z)).

(** ** The watermark *)

Definition cmd_zdb_ts_watermark_get (argv : list cstring) : M S Z :=
  shell_locked (λ db,
    with_stream db argv id (λ ts,
      '(st, consumed) ← on_w (zdb_ts_watermark_get ts true);
      on_w (zdb_ts_close ts);;
      if negb (bool_decide (st = ZDB_OK)) then
        rc ← zdb_shell_fail "ts watermark get" st;
        (if bool_decide (st = ZDB_ERR_NOT_FOUND)
         then shell_print "hint: no watermark stored for this stream" [] else ret tt);;
        ret rc
      else
        shell_print "stream: %s" [A_str (argv !! 1)];;
        shell_print "consumed_ts_ms: %llu" [A_int (default 0%Z consumed)];;
        ret 0%Z)).

Definition cmd_zdb_ts_watermark_set (argv : list cstring) : M S Z :=
  shell_locked (λ db,
    match zdb_shell_parse_u64 (argv !! 2) with
    | inl _ => zdb_shell_bad_arg "ts_ms" (argv !! 2)
    | inr consumed =>
        with_stream db argv id (λ ts,
          st ← on_w (zdb_ts_watermark_set ts consumed);
          on_w (zdb_ts_close ts);;
          if negb (bool_decide (st = ZDB_OK)) then zdb_shell_fail "ts watermark set" st
          else
            print_stream_ok argv;;
            shell_print "consumed_ts_ms: %llu" [A_int consumed];;
            ret 0%Z)
    end).

Definition cmd_zdb_ts_watermark_clear (argv : list cstring) : M S Z :=
  shell_locked (λ db,
    with_stream db argv id (λ ts,
      st ← on_w (zdb_ts_watermark_clear ts);
      on_w (zdb_ts_close ts);;
      if negb (bool_decide (st = ZDB_OK)) then zdb_shell_fail "ts watermark clear" st
      else print_stream_ok argv;; ret 0%Z)).

Definition zdb_ts_cmds : list (shell_cmd S) :=
  [mkCmd ["ts"; "append"] (once cmd_zdb_ts_append) 4 0;
   mkCmd ["ts"; "read"] cmd_zdb_ts_read 2 3;
   mkCmd ["ts"; "tail"] cmd_zdb_ts_tail 2 3;
   mkCmd ["ts"; "agg"] cmd_zdb_ts_agg 3 2;
   mkCmd ["ts"; "flush"; "sync"] (once cmd_zdb_ts_flush_sync) 2 1;
   mkCmd ["ts"; "flush"; "async"] (once cmd_zdb_ts_flush_async) 2 0;
   mkCmd ["ts"; "recover"] (once cmd_zdb_ts_recover) 2 0;
   mkCmd ["ts"; "watermark"; "get"] (once cmd_zdb_ts_watermark_get) 2 0;
   mkCmd ["ts"; "watermark"; "set"] (once cmd_zdb_ts_watermark_set) 3 0;
   mkCmd ["ts"; "watermark"; "clear"] (once cmd_zdb_ts_watermark_clear) 2 0]%string.
End shell_ts.
