(* ===== verification/ShellDoc.v ===== *)
(** * The shell's document commands ([zephyrdb_shell_doc.c])

    Reading, setting and finding fields; a value to set is text, read as the
    type the command names. *)

From S2P Require Import Prelude Config Doubles CText Env Types FsEnv Events Doc DocFile DocQuery.
From S2P Require Import Core Shell.

Definition ZDB_SHELL_DOC_QUERY_MAX : nat := 16.

Definition zdb_shell_doc_type_str (type : zdb_doc_field_type_t) : String.string :=
  match type with
  | ZDB_DOC_FIELD_INT64 => "i64"
  | ZDB_DOC_FIELD_DOUBLE => "f64"
  | ZDB_DOC_FIELD_STRING => "str"
  | ZDB_DOC_FIELD_BOOL => "bool"
  | ZDB_DOC_FIELD_BYTES => "bytes"
  | _ => "unsupported"
  end.

(** A handle before it is opened. *)
Definition no_doc : zdb_doc_t :=
  {| doc_db := None; collection_name := None; document_id := None; fields := None; field_count := 0;
     max_fields := 0; created_ms := 0; updated_ms := 0; doc_valid := false |}.

Section shell_doc.
Context {Cfg : Config} {CRC : Crc32} {K F FS FH DH : Type} `{!Kernel K, !FileSys FS FH DH}.
Abbreviation W := (world K F FS).
Abbreviation S := (shell_state W).

Definition zdb_shell_doc_print_field (field : zdb_doc_field_t) : M S unit :=
  let v := fd_value field in
  match fd_type field with
  | ZDB_DOC_FIELD_INT64 => shell_print "%s i64 %lld" [A_str (fd_name field); A_int (value_i64 v)]
  | ZDB_DOC_FIELD_DOUBLE =>
      shell_print "%s f64 %f" [A_str (fd_name field); A_double (d_of_bits (value_f64 v))]
  | ZDB_DOC_FIELD_STRING =>
      shell_print "%s str %s" [A_str (fd_name field); A_str (Some (default [] (value_str v)))]
  | ZDB_DOC_FIELD_BOOL =>
      shell_print "%s bool %s" [A_str (fd_name field); if value_b v then A_lit "true" else A_lit "false"]
  | ZDB_DOC_FIELD_BYTES =>
      (* [char label[CONFIG_ZDB_DOC_MAX_FIELD_NAME_LEN + sizeof(" bytes")]] *)
      let label := take (CONFIG_ZDB_DOC_MAX_FIELD_NAME_LEN + 6) (default [] (fd_name field) ++ s2b " bytes") in
      zdb_shell_print_hex label (take (value_bytes v).2 <$> (value_bytes v).1)
  | _ =>
      shell_print "%s %s -" [A_str (fd_name field); A_lit (zdb_shell_doc_type_str (fd_type field))]
  end.

(** What a command that changed a document prints. *)
Definition print_doc_ok (argv : list cstring) : M S unit :=
  shell_print "status: ok" [];;
  shell_print "collection: %s" [A_str (argv !! 1)];;
  shell_print "document: %s" [A_str (argv !! 2)].

Definition cmd_zdb_doc_create (argv : list cstring) : M S Z :=
  shell_locked (λ db,
    '(st, doc) ← on_w (zdb_doc_open db (argv !! 1) (argv !! 2) (Some no_doc));
    if bool_decide (st = ZDB_OK) then
      on_w (zdb_doc_close doc);;
      shell_error "error: doc create failed: %s" [A_lit (zdb_status_str ZDB_ERR_COLLISION)];;
      shell_print "hint: document already exists; delete it first" [];;
      ret (zdb_shell_errno ZDB_ERR_COLLISION)
    else
      '(st, doc) ← on_w (zdb_doc_create db (argv !! 1) (argv !! 2) doc);
      if negb (bool_decide (st = ZDB_OK)) then zdb_shell_fail "doc create" st
      else
        '(st, doc) ← on_w (zdb_doc_save doc);
        on_w (zdb_doc_close doc);;
        if negb (bool_decide (st = ZDB_OK)) then zdb_shell_fail "doc save" st
        else print_doc_ok argv;; ret 0%Z).

Definition cmd_zdb_doc_delete (argv : list cstring) : M S Z :=
  shell_locked (λ db,
    st ← on_w (zdb_doc_delete db (argv !! 1) (argv !! 2));
    if negb (bool_decide (st = ZDB_OK)) then zdb_shell_fail "doc delete" st
    else print_doc_ok argv;; ret 0%Z).

(** ** Reading *)

Fixpoint print_fields (l : list zdb_doc_field_t) : M S unit :=
  match l with
  | [] => ret tt
  | f :: l => zdb_shell_doc_print_field f;; print_fields l
  end.

(** The first field of the name [argv[3]]. *)
Definition doc_find_named (argv : list cstring) (d : zdb_doc_t) : option zdb_doc_field_t :=
  List.find (λ f, bool_decide (fd_name f = argv !! 3)) (doc_fields d).

Definition cmd_zdb_doc_get (argv : list cstring) : M S Z :=
  shell_locked (λ db,
    '(st, doc) ← on_w (zdb_doc_open db (argv !! 1) (argv !! 2) (Some no_doc));
    if negb (bool_decide (st = ZDB_OK)) then zdb_shell_fail "doc open" st
    else
      let d := default no_doc doc in
      shell_print "collection: %s" [A_str (argv !! 1)];;
      shell_print "document: %s" [A_str (argv !! 2)];;
      if 3 <? length argv then
        match doc_find_named argv d with
        | Some f =>
            zdb_shell_doc_print_field f;;
            on_w (zdb_doc_close doc);;
            ret 0%Z
        | None =>
            on_w (zdb_doc_close doc);;
            zdb_shell_fail "doc get" ZDB_ERR_NOT_FOUND
        end
      else
        shell_print "created_ms: %llu" [A_int (created_ms d)];;
        shell_print "updated_ms: %llu" [A_int (updated_ms d)];;
        shell_print "field_count: %u" [A_int (field_count d)];;
        print_fields (doc_fields d);;
        on_w (zdb_doc_close doc);;
        shell_print "shown: %u" [A_int (u32 (Z.of_nat (length (doc_fields d))))];;
        ret 0%Z).

(** ** Setting a field *)

(** Parsing the value and storing it in the handle: the errno of the parse, the
    status of the setter and the handle. *)
Definition doc_set_value (type : zdb_doc_field_type_t) (argv : list cstring) (doc : option zdb_doc_t)
    : M S (Z * zdb_status_t * option zdb_doc_t) :=
  let set {A} (r : Z + A) (f : A → M W (zdb_status_t * option zdb_doc_t)) :=
    match r with
    | inl rc => ret (rc, ZDB_OK, doc)
    | inr v => '(st, doc) ← on_w (f v); ret (0%Z, st, doc)
    end in
  match type with
  | ZDB_DOC_FIELD_INT64 => set (zdb_shell_parse_i64 (argv !! 4)) (zdb_doc_field_set_i64 doc (argv !! 3))
  | ZDB_DOC_FIELD_DOUBLE => set (zdb_shell_parse_f64 (argv !! 4)) (zdb_doc_field_set_f64 doc (argv !! 3))
  | ZDB_DOC_FIELD_STRING =>
      '(st, doc) ← on_w (zdb_doc_field_set_string doc (argv !! 3) (argv !! 4));
      ret (0%Z, st, doc)
  | ZDB_DOC_FIELD_BOOL => set (zdb_shell_parse_bool (argv !! 4)) (zdb_doc_field_set_bool doc (argv !! 3))
  | _ =>
      scratch ← mgets zdb_shell_scratch;
      let '(r, scratch) := zdb_shell_parse_hex (argv !! 4) scratch ZDB_SHELL_SCRATCH_SIZE in
      mmodify (λ s, s <| zdb_shell_scratch := scratch |>);;
      set r (zdb_doc_field_set_bytes doc (argv !! 3) (Some scratch))
  end.

Definition zdb_shell_doc_set (type : zdb_doc_field_type_t) (argv : list cstring) : M S Z :=
  shell_locked (λ db,
    '(st, doc) ← on_w (zdb_doc_open db (argv !! 1) (argv !! 2) (Some no_doc));
    if negb (bool_decide (st = ZDB_OK)) then
      rc ← zdb_shell_fail "doc open" st;
      (if bool_decide (st = ZDB_ERR_NOT_FOUND)
       then shell_print ("hint: create it first with " ++ quoted "zdb doc create %s %s")
              [A_str (argv !! 1); A_str (argv !! 2)]
       else ret tt);;
      ret rc
    else
      '(rc, st, doc) ← doc_set_value type argv doc;
      if negb (rc =? 0)%Z then
        on_w (zdb_doc_close doc);;
        if (rc =? - ENOSPC)%Z then
          shell_error "error: value exceeds %u bytes" [A_int ZDB_SHELL_SCRATCH_SIZE];; ret rc
        else zdb_shell_bad_arg (zdb_shell_doc_type_str type) (argv !! 4)
      else if negb (bool_decide (st = ZDB_OK)) then
        on_w (zdb_doc_close doc);;
        zdb_shell_fail "doc field set" st
      else
        '(st, doc) ← on_w (zdb_doc_save doc);
        on_w (zdb_doc_close doc);;
        if negb (bool_decide (st = ZDB_OK)) then zdb_shell_fail "doc save" st
        else
          print_doc_ok argv;;
          shell_print "field: %s" [A_str (argv !! 3)];;
          shell_print "type: %s" [A_lit (zdb_shell_doc_type_str type)];;
          ret 0%Z).

Definition cmd_zdb_doc_set_i64 := zdb_shell_doc_set ZDB_DOC_FIELD_INT64.
Definition cmd_zdb_doc_set_f64 := zdb_shell_doc_set ZDB_DOC_FIELD_DOUBLE.
Definition cmd_zdb_doc_set_str := zdb_shell_doc_set ZDB_DOC_FIELD_STRING.
Definition cmd_zdb_doc_set_boolean := zdb_shell_doc_set ZDB_DOC_FIELD_BOOL.
Definition cmd_zdb_doc_set_bytes := zdb_shell_doc_set ZDB_DOC_FIELD_BYTES.

(** ** Queries *)

(** The rows, from number [i] on. *)
Fixpoint print_rows (i : Z) (l : list zdb_doc_metadata_t) : M S unit :=
  match l with
  | [] => ret tt
  | m :: l =>
      shell_print "[%u] collection=%s document=%s fields=%u updated_ms=%llu"
        [A_int i; A_str (md_collection_name m); A_str (md_document_id m); A_int (md_field_count m);
         A_int (md_updated_ms m)];;
      print_rows (i + 1) l
  end.

Definition zdb_shell_doc_report (db : db_ptr) (query : zdb_doc_query_t) : M S Z :=
  '(st, results, count) ← on_w (zdb_doc_query db (Some query) true (Some ZDB_SHELL_DOC_QUERY_MAX));
  if negb (bool_decide (st = ZDB_OK)) then zdb_shell_fail "doc query" st
  else
    let count := default 0 count in
    print_rows 0 (take count results);;
    on_w (zdb_doc_metadata_free (Some results) count);;
    shell_print "shown: %u" [A_int count];;
    shell_print "truncated: %s" [yes_no (ZDB_SHELL_DOC_QUERY_MAX <=? count)];;
    ret 0%Z.

(** [query = {0}] with a limit, which the results' array bounds. *)
Definition shell_query (filters : option (list zdb_doc_query_filter_t)) (from to limit : Z)
    : zdb_doc_query_t :=
  {| qu_filters := filters; qu_filter_count := length (default [] filters);
     qu_from_ms := from; qu_to_ms := to;
     qu_limit := Z.min limit (Z.of_nat ZDB_SHELL_DOC_QUERY_MAX) |}.

Definition cmd_zdb_doc_list (argv : list cstring) : M S Z :=
  shell_locked (λ db,
    '(rc, a) ← zdb_shell_parse_listing_args argv 1
                 {| la_limit := Some (Z.of_nat ZDB_SHELL_DOC_QUERY_MAX); la_from := Some 0%Z;
                    la_to := Some 0%Z; la_windowed := None |};
    if negb (rc =? 0)%Z then ret rc
    else
      zdb_shell_doc_report db
        (shell_query None (default 0%Z (la_from a)) (default 0%Z (la_to a)) (default 0%Z (la_limit a)))).

(** The filter a value gives, or the name of what it is not. *)
Definition doc_find_filter (type : zdb_doc_field_type_t) (argv : list cstring)
    : String.string + zdb_doc_query_filter_t :=
  let filter := {| qf_field_name := argv !! 1; qf_type := type; qf_numeric_value := S754_zero false;
                   qf_string_value := None; qf_bool_value := false |} in
  match type with
  | ZDB_DOC_FIELD_INT64 =>
      match zdb_shell_parse_i64 (argv !! 2) with
      | inl _ => inl "i64"%string
      | inr v => inr (filter <| qf_numeric_value := d_of_Z v |>)
      end
  | ZDB_DOC_FIELD_DOUBLE =>
      match zdb_shell_parse_f64 (argv !! 2) with
      | inl _ => inl "f64"%string
      | inr v => inr (filter <| qf_numeric_value := d_of_bits v |>)
      end
  | ZDB_DOC_FIELD_STRING => inr (filter <| qf_string_value := argv !! 2 |>)
  | _ =>
      match zdb_shell_parse_bool (argv !! 2) with
      | inl _ => inl "bool"%string
      | inr v => inr (filter <| qf_bool_value := v |>)
      end
  end.

Definition zdb_shell_doc_find (type : zdb_doc_field_type_t) (argv : list cstring) : M S Z :=
  shell_locked (λ db,
    match (if 3 <? length argv then zdb_shell_parse_u64 (argv !! 3)
           else inr (Z.of_nat ZDB_SHELL_DOC_QUERY_MAX)) with
    | inl _ => zdb_shell_bad_arg "limit" (argv !! 3)
    | inr limit =>
        match doc_find_filter type argv with
        | inl what => zdb_shell_bad_arg what (argv !! 2)
        | inr filter => zdb_shell_doc_report db (shell_query (Some [filter]) 0 0 limit)
        end
    end).

Definition cmd_zdb_doc_find_i64 := zdb_shell_doc_find ZDB_DOC_FIELD_INT64.
Definition cmd_zdb_doc_find_f64 := zdb_shell_doc_find ZDB_DOC_FIELD_DOUBLE.
Definition cmd_zdb_doc_find_str := zdb_shell_doc_find ZDB_DOC_FIELD_STRING.
Definition cmd_zdb_doc_find_boolean := zdb_shell_doc_find ZDB_DOC_FIELD_BOOL.

Definition zdb_doc_cmds : list (shell_cmd S) :=
  [mkCmd ["doc"; "create"] (once cmd_zdb_doc_create) 3 0;
   mkCmd ["doc"; "delete"] (once cmd_zdb_doc_delete) 3 0;
   mkCmd ["doc"; "get"] (once cmd_zdb_doc_get) 3 1;
   mkCmd ["doc"; "list"] (once cmd_zdb_doc_list) 1 3;
   mkCmd ["doc"; "set"; "i64"] (once cmd_zdb_doc_set_i64) 5 0;
   mkCmd ["doc"; "set"; "f64"] (once cmd_zdb_doc_set_f64) 5 0;
   mkCmd ["doc"; "set"; "str"] (once cmd_zdb_doc_set_str) 5 0;
   mkCmd ["doc"; "set"; "bool"] (once cmd_zdb_doc_set_boolean) 5 0;
   mkCmd ["doc"; "set"; "bytes"] (once cmd_zdb_doc_set_bytes) 5 0;
   mkCmd ["doc"; "find"; "i64"] (once cmd_zdb_doc_find_i64) 3 1;
   mkCmd ["doc"; "find"; "f64"] (once cmd_zdb_doc_find_f64) 3 1;
   mkCmd ["doc"; "find"; "str"] (once cmd_zdb_doc_find_str) 3 1;
   mkCmd ["doc"; "find"; "bool"] (once cmd_zdb_doc_find_boolean) 3 1]%string.
End shell_doc.
