(* ===== verification/CoreSpec.v ===== *)
(** * Lemmas on the instance lifecycle: what an initialisation, a teardown and
    a deferred publication leave behind *)

From S2P Require Import Prelude Config Env Types Events KvIndexSpec Kv KvSpec KvBulk Core.

Section spec.
Context {Cfg : Config} {CfgOk : ConfigOk Cfg} {K F FS : Type}.
Context `{!Kernel K, !KernelLaws K, !KvBackend F, !KvBackendLaws F}.
Abbreviation W := (world K F FS).
Implicit Types w : W.

(** ** Deferred events are consumed *)

Definition slot_settled (s : zdb_ts_stream_ctx) : Prop :=
  pending_flush_bytes s = 0 ∧ pending_discarded_bytes s = 0.

Definition slots_flushed (slots : list zdb_ts_stream_ctx) : nat :=
  sum_list_with pending_flush_bytes slots.
Definition slots_discarded (slots : list zdb_ts_stream_ctx) : nat :=
  sum_list_with pending_discarded_bytes slots.

Lemma take_deferred_slots_spec slots d :
  let r := take_deferred_slots slots d in
  Forall slot_settled r.1 ∧ map st_name r.1 = map st_name slots ∧
  df_flushed r.2 = df_flushed d + slots_flushed slots ∧
  df_discarded r.2 = df_discarded d + slots_discarded slots.
Proof.
  revert d. induction slots as [|s slots IH]; intros d; simpl.
  { split_and!; [constructor|done|lia..]. }
  destruct ((pending_flush_bytes s =? 0) && (pending_discarded_bytes s =? 0)) eqn:Hz; simpl.
  - apply andb_prop in Hz as [?%Nat.eqb_eq ?%Nat.eqb_eq].
    destruct (IH d) as (? & ? & ? & ?). split_and!; [by constructor|by f_equal|lia..].
  - edestruct IH as (? & ? & ? & ?).
    split_and!; [by constructor|simpl; by f_equal| |].
    all: etrans; [eassumption|]; simpl; lia.
Qed.

Lemma take_deferred_slots_settled slots d :
  Forall slot_settled slots → take_deferred_slots slots d = (slots, d).
Proof.
  induction 1 as [|s slots [Hf Hd] _ IH]; [done|]. simpl. by rewrite Hf, Hd, IH.
Qed.

(** The totals a context has to report. *)
Definition ctx_flushed (c : zdb_ts_core_ctx) : nat :=
  slots_flushed (streams c) + released_flush_bytes c.
Definition ctx_discarded (c : zdb_ts_core_ctx) : nat :=
  slots_discarded (streams c) + released_discarded_bytes c.

Lemma take_deferred_total n c :
  (zdb_ts_take_deferred_events n (Some c)).2.1 = (ctx_flushed c, ctx_discarded c).
Proof.
  unfold zdb_ts_take_deferred_events.
  pose proof (take_deferred_slots_spec (streams c)
    {| df_flushed := 0; df_discarded := 0; df_naming := 0; df_stream := None |}) as (_ & _ & H1 & H2).
  destruct (take_deferred_slots _ _) as [slots d]. simpl in *. unfold ctx_flushed, ctx_discarded.
  destruct ((0 <? released_flush_bytes c) || (0 <? released_discarded_bytes c)) eqn:Hr; simpl;
    rewrite H1, H2; [done|].
  apply orb_false_iff in Hr as [?%Nat.ltb_ge ?%Nat.ltb_ge]. f_equal; lia.
Qed.

(** Taking them twice in a row reports nothing the second time. *)
Lemma take_deferred_twice n c :
  let c' := (zdb_ts_take_deferred_events n c).1 in
  zdb_ts_take_deferred_events n c' = (c', (0, 0, [])).
Proof.
  destruct c as [c|]; [|done]. simpl.
  pose proof (take_deferred_slots_spec (streams c)
    {| df_flushed := 0; df_discarded := 0; df_naming := 0; df_stream := None |}) as (Hs & _).
  destruct (take_deferred_slots _ _) as [slots d]. simpl in Hs.
  destruct ((0 <? released_flush_bytes c) || (0 <? released_discarded_bytes c)) eqn:Hr; simpl;
    rewrite (take_deferred_slots_settled slots) by done; simpl.
  - by destruct c.
  - rewrite Hr. by destruct c.
Qed.

Lemma pending_of_unlock d :
  CONFIG_ZDB_EVENTING = true →
  pending_of (unlock_db d) = (0, 0, []) ∧ health_event_pending (unlock_db d) = false.
Proof.
  intros HE. unfold pending_of, unlock_db. rewrite HE.
  destruct CONFIG_ZDB_TS; [|done]. simpl. by rewrite take_deferred_twice.
Qed.

(** ** Health *)

(** What one report of a fault does to the instance: nothing when it is
    already degraded; otherwise it degrades, remembering the previous value. *)
Lemma wp_health_check (Q : unit → W → Prop) w :
  CONFIG_ZDB_EVENTING = true →
  (health_level ZDB_HEALTH_DEGRADED ≤ health_level (health (w_db w)) → Q tt w) →
  (health (w_db w) = ZDB_HEALTH_OK → 0 < lock_depth (w_k w) →
     Q tt (w <| w_db ::= λ d, d <| health_prev := ZDB_HEALTH_OK |>
               <| health := ZDB_HEALTH_DEGRADED |> <| health_event_pending := true |> |>)) →
  (∀ e w', health (w_db w) = ZDB_HEALTH_OK → lock_depth (w_k w) = 0 →
     ce_type e = ZDB_CORE_EVENT_HEALTH → ce_prev_health e = ZDB_HEALTH_OK →
     ce_health e = ZDB_HEALTH_DEGRADED → ce_status e = ZDB_OK →
     emitted (deliveries false (core_event_listeners (w_db w)) (EvCore e))
       (w <| w_db ::= λ d, d <| health_prev := ZDB_HEALTH_OK |>
                             <| health := ZDB_HEALTH_DEGRADED |> |>) w' → Q tt w') →
  wp (zdb_health_check (Some the_db)) Q w.
Proof.
  intros HE Hdeg Hlocked Hfree. unfold zdb_health_check. apply wp_bind, wp_db_get.
  destruct (Nat.leb_spec (health_level ZDB_HEALTH_DEGRADED) (health_level (health (w_db w))))
    as [Hle|Hlt]; [by apply wp_ret, Hdeg|].
  assert (health (w_db w) = ZDB_HEALTH_OK) as Hh by (destruct (health (w_db w)); simpl in *; lia || done).
  rewrite HE. apply wp_bind, wp_db_set, wp_bind, wp_db_set, wp_bind, wp_gets.
  rewrite k_mutex_owned_law.
  simpl. case_bool_decide as Hd.
  - apply wp_db_set. rewrite Hh. by apply Hlocked.
  - apply wp_bind, wp_db_get, wp_bind, wp_db_get, wp_emit_core.
    intros e w' ???? Hem. apply (Hfree e w'); [done|lia|done|simpl in *; congruence|done..|].
    rewrite Hh in Hem. simpl in Hem. rewrite k_mutex_owned_law in Hem.
    by rewrite bool_decide_false in Hem by (simpl; lia).
Qed.

(** ** Teardown *)

Definition frees (n : nat) (sl : k_mem_slab) (s : positive) : nat :=
  if decide (s = slab_name sl) then n else 0.

(** How many ingest buffers the slots hold. *)
Definition ingest_bufs (slots : list zdb_ts_stream_ctx) : nat :=
  length (filter (λ s, is_Some (ingest_buf s)) slots).

(** Only the kernel's slab counters may differ from [w]. *)
Definition slabs_freed (f : positive → nat) (w w' : W) : Prop :=
  ∃ k', w' = w <| w_k := k' |> ∧ lock_depth k' = lock_depth (w_k w) ∧
    heap_used k' = heap_used (w_k w) ∧ ∀ s, slab_used k' s = slab_used (w_k w) s - f s.

Lemma slabs_freed_trans f g w1 w2 w3 :
  slabs_freed f w1 w2 → slabs_freed g w2 w3 → slabs_freed (λ s, f s + g s) w1 w3.
Proof.
  intros (k2 & -> & Hl2 & Hh2 & Hs2) (k3 & -> & Hl3 & Hh3 & Hs3).
  exists k3. split_and!; simpl in *; [done|congruence..|]. intros s. rewrite Hs3, Hs2. lia.
Qed.

Lemma slabs_freed_0 w : slabs_freed (λ _, 0) w w.
Proof. exists (w_k w). split_and!; [by destruct w|done|done|]. intros s. lia. Qed.

Lemma slabs_freed_ext f g w w' : (∀ s, f s = g s) → slabs_freed f w w' → slabs_freed g w w'.
Proof.
  intros Hfg (k' & ? & ? & ? & Hs). exists k'. split_and!; try done. intros s.
  by rewrite Hs, Hfg.
Qed.

Lemma free_slabs_freed sl w : slabs_freed (frees 1 sl) w (w <| w_k ::= k_mem_slab_free sl |>).
Proof.
  pose proof (k_mem_slab_free_law sl (w_k w)) as (? & ? & Hs). exists (k_mem_slab_free sl (w_k w)).
  split_and!; [done..|]. intros s. rewrite Hs. unfold frees. case_decide; lia.
Qed.

Lemma free_ingest_bufs_freed slab slots w :
  slabs_freed (match slab with Some sl => frees (ingest_bufs slots) sl | None => λ _, 0 end)
    w (free_ingest_bufs slab slots w).2.
Proof.
  revert w. induction slots as [|s slots IH]; intros w; simpl.
  { eapply slabs_freed_ext, slabs_freed_0. intros n. destruct slab; [|done].
    unfold frees, ingest_bufs. by case_decide. }
  unfold bind. destruct slab as [sl|]; [|by apply IH]. destruct (ingest_buf s) as [b|] eqn:Hb; simpl.
  - eapply slabs_freed_ext, slabs_freed_trans, IH; [|apply free_slabs_freed].
    intros n. unfold frees, ingest_bufs. rewrite filter_cons_True by (rewrite Hb; by eexists).
    case_decide; simpl; lia.
  - eapply slabs_freed_ext, IH. intros n. unfold frees, ingest_bufs.
    rewrite filter_cons_False; [done|]. rewrite Hb. by intros [].
Qed.
(** [zdb_deinit] gives back the index, the time-series context and every
    ingest buffer, and nothing else; it announces one [ZDB_CORE_EVENT_DEINIT]
    while the listeners are still bound, and unbinds them. *)
Lemma wp_deinit cs w :
  CONFIG_ZDB_EVENTING = true → CONFIG_ZDB_TS = true → core_slab (w_db w) = Some cs →
  wp (zdb_deinit (Some the_db))
    (λ st w', st = ZDB_OK ∧ kv_ctx (w_db w') = None ∧ ts_ctx (w_db w') = None ∧
       zdb_health (Some the_db) w' = (ZDB_HEALTH_FAULT, w') ∧
       core_event_listeners (w_db w') = None ∧ event_listeners (w_db w') = None ∧
       w_f w' = w_f w ∧ w_fs w' = w_fs w ∧ lock_depth (w_k w') = lock_depth (w_k w) ∧
       heap_used (w_k w') = heap_used (w_k w) - ctx_blocks (w_db w) ∧
       (∀ s, slab_used (w_k w') s = slab_used (w_k w) s -
          match ts_ctx (w_db w) with
          | None => 0
          | Some c =>
              match ts_ingest_slab (w_db w) with
              | Some sl => frees (ingest_bufs (streams c)) sl s
              | None => 0
              end + frees 1 cs s
          end) ∧
       ∃ e, ce_type e = ZDB_CORE_EVENT_DEINIT ∧ ce_status e = ZDB_OK ∧
         w_log w' = w_log w ++
           deliveries (k_mutex_owned (w_k w)) (core_event_listeners (w_db w)) (EvCore e)) w.
Proof.
  intros HE HT Hcs. apply wp_bind, wp_db_get. apply wp_bind.
  apply (wp_mono _ (λ _ w1, ∃ k1, w1 = w <| w_k := k1 |> ∧ lock_depth k1 = lock_depth (w_k w) ∧
    heap_used k1 = heap_used (w_k w) - ctx_blocks (w_db w) ∧
    ∀ s, slab_used k1 s = slab_used (w_k w) s)).
  { unfold ctx_blocks. destruct (kv_ctx (w_db w)).
    - apply wp_on_k_. pose proof (k_free_law (w_k w)) as (? & ? & ?). eexists. split_and!; [done..|lia|done].
    - apply wp_ret. exists (w_k w). split_and!; [by destruct w|done|lia|done]. }
  intros _ ? (k1 & -> & Hl1 & Hh1 & Hs1). rewrite HT. apply wp_bind.
  apply (wp_mono _ (λ _ w2, slabs_freed (λ s,
    match ts_ctx (w_db w) with
    | None => 0
    | Some c => match ts_ingest_slab (w_db w) with
                | Some sl => frees (ingest_bufs (streams c)) sl s
                | None => 0
                end + frees 1 cs s
    end) (w <| w_k := k1 |>) w2)).
  { apply wp_bind, wp_db_get, wp_bind, wp_db_get. simpl. rewrite Hcs.
    destruct (ts_ctx (w_db w)) as [c|]; [|apply wp_ret, slabs_freed_0].
    apply wp_bind, wp_on_k_, wp_bind, wp_db_get. simpl.
    match goal with |- wp _ _ ?w0 => set (w2 := w0) end.
    assert (slabs_freed (λ _, 0) (w <| w_k := k1 |>) w2) as Hc.
    { pose proof (k_work_cancel_sync_law k1) as []. eexists. split_and!; [done..|].
      intros s. simpl. rewrite same_slab. lia. }
    apply wp_bind. unfold wp at 1. pose proof (free_ingest_bufs_freed (ts_ingest_slab (w_db w)) (streams c) w2) as Hfr.
    apply wp_on_k_. eapply slabs_freed_ext, slabs_freed_trans, free_slabs_freed;
      [|eapply slabs_freed_trans; [exact Hc|exact Hfr]].
    intros s. simpl. by destruct (ts_ingest_slab (w_db w)). }
  intros _ ? (k2 & -> & Hl2 & Hh2 & Hs2). simpl in *.
  apply wp_bind, wp_db_get. rewrite HE. apply wp_bind, wp_emit_core.
  intros e w' Hty _ _ Hst [Edb Ef Efs [Kl Ks Kh] Elog]. simpl in *.
  apply wp_bind, wp_db_set, wp_bind, wp_db_set, wp_ret. simpl.
  assert (k_mutex_owned k2 = k_mutex_owned (w_k w)) as Ho.
  { rewrite !k_mutex_owned_law, Hl2, Hl1. done. }
  unfold unbind_listeners, zdb_health, bind, db_get, mgets. rewrite Edb, Kl, Kh.
  split_and!; try (by destruct CONFIG_ZDB_TS, CONFIG_ZDB_DOC); try done; try congruence.
  - intros s. by rewrite Ks, Hs2, Hs1.
  - exists e. rewrite Elog, Ho. done.
Qed.
End spec.
