(* ===== verification/TsFormatSpec.v ===== *)
(** * Lemmas on the time-series formats: layouts, round trips, rejection *)

From S2P Require Import Prelude Config Env Types Events CoreSpec Cursor TsFormat.
From coqutil Require Import Word.LittleEndianList.

(** A sample whose fields have the width of their C types. *)
Definition sample_ok (s : zdb_ts_sample_i64_t) : Prop :=
  (0 ≤ ts_ms s < 2 ^ 64 ∧ - 2 ^ 63 ≤ value s < 2 ^ 63)%Z.

Definition version_ok (v : Z) : Prop := v = ZDB_TS_STREAM_VERSION ∨ v = ZDB_TS_STREAM_VERSION_V2.

Lemma fnv1a32_u32 s : (0 ≤ zdb_fnv1a32 s < 2 ^ 32)%Z.
Proof.
  unfold zdb_fnv1a32. assert (0 ≤ 0x811C9DC5 < 2 ^ 32)%Z as H by lia. revert H.
  generalize 0x811C9DC5%Z. induction s as [|c s IH]; intros z Hz; [done|]. simpl. apply IH.
  unfold u32. apply Z.mod_pos_bound. lia.
Qed.

(** Reassembling a field gives back its bytes. *)
Lemma put_get_le n buf off : off + n ≤ length buf → put_le n (get_le n buf off) = take n (drop off buf).
Proof.
  intros H. unfold put_le, get_le.
  replace n with (length (take n (drop off buf))) at 1
    by (rewrite length_take, length_drop; lia).
  apply split_le_combine.
Qed.

Lemma put_le_i64 z : (0 ≤ z < 2 ^ 64)%Z → put_le 8 (i64 z) = put_le 8 z.
Proof.
  intros Hz. unfold put_le, i64, u64. rewrite Z.mod_small by done.
  destruct (Z.ltb_spec z (2 ^ 63)); [done|].
  apply le_combine_inj; [by rewrite !length_le_split|].
  rewrite !le_combine_split. change (Z.of_nat 8 * 8)%Z with 64%Z.
  replace (z - 2 ^ 64)%Z with (z + (-1) * 2 ^ 64)%Z by lia.
  by rewrite Z.mod_add by lia.
Qed.

Section spec.
Context {Cfg : Config} {CfgOk : ConfigOk Cfg} {K F FS : Type}.
Context `{!Kernel K, !KernelLaws K} {CRC : Crc32} {CRCLaws : Crc32Laws}.
Abbreviation W := (world K F FS).
Implicit Types w : W.

(** ** Records *)

Lemma length_record_encode s : length (zdb_ts_record_encode s) = sizeof_record_i64.
Proof. unfold zdb_ts_record_encode. rewrite !length_app, !length_put_le. done. Qed.

Lemma length_record_v2 d v : length (record_v2_bytes d v) = sizeof_record_v2.
Proof. unfold record_v2_bytes. rewrite !length_app, !length_put_le. done. Qed.

Lemma length_encode_as v base s bytes :
  zdb_ts_record_encode_as v base s = Some bytes → length bytes = zdb_ts_rec_size_for v.
Proof.
  unfold zdb_ts_record_encode_as, zdb_ts_rec_size_for.
  destruct (v =? ZDB_TS_STREAM_VERSION_V2)%Z; simpl.
  - repeat case_match; try done. intros [= <-]. apply length_record_v2.
  - intros [= <-]. apply length_record_encode.
Qed.

Lemma rec_size_for_pos v : 0 < zdb_ts_rec_size_for v.
Proof. unfold zdb_ts_rec_size_for, sizeof_record_v2, sizeof_record_i64. case_match; lia. Qed.

(** Which samples the format in force can hold. *)
Lemma encode_as_Some v base s :
  is_Some (zdb_ts_record_encode_as v base s) ↔
  (v = ZDB_TS_STREAM_VERSION_V2 → (base ≤ ts_ms s ≤ base + UINT32_MAX)%Z).
Proof.
  unfold zdb_ts_record_encode_as.
  destruct (Z.eqb_spec v ZDB_TS_STREAM_VERSION_V2) as [->|Hv]; simpl; cycle 1.
  { split; [done|]. by eexists. }
  destruct (Z.ltb_spec (ts_ms s) base); simpl.
  { split; [by intros []|]. intros Hb. specialize (Hb eq_refl). lia. }
  destruct (Z.ltb_spec UINT32_MAX (ts_ms s - base)); simpl.
  - split; [by intros []|]. intros Hb. specialize (Hb eq_refl). lia.
  - split; [intros _ _; lia|]. by eexists.
Qed.

(** What a pair of the bytes is decoded to: [zdb_ts_record_decode_as] without
    its effects. *)
Definition decode_pure (v base : Z) (raw : list byte) : option zdb_ts_sample_i64_t :=
  if negb (v =? ZDB_TS_STREAM_VERSION_V2)%Z then
    let rec := take sizeof_record_i64 raw in
    if (get_le 4 rec 0 =? ZDB_TS_REC_MAGIC)%Z && (get_le 2 rec 4 =? ZDB_TS_REC_VERSION)%Z &&
       (get_le 4 rec 24 =? crc32_ieee (take 24 rec))%Z
    then Some {| ts_ms := get_le 8 rec 8; value := i64 (get_le 8 rec 16) |}
    else None
  else
    let rec := take sizeof_record_v2 raw in
    if (get_le 4 rec 12 =? crc32_ieee (take 12 rec))%Z
    then Some {| ts_ms := u64 (base + get_le 4 rec 0); value := i64 (get_le 8 rec 4) |}
    else None.

Lemma decode_pure_encode v base s bytes rest :
  sample_ok s → zdb_ts_record_encode_as v base s = Some bytes →
  decode_pure v base (bytes ++ rest) = Some s.
Proof.
  intros [Hts Hv] He. unfold decode_pure, zdb_ts_record_encode_as in *.
  destruct (v =? ZDB_TS_STREAM_VERSION_V2)%Z; simpl negb in *; cbn iota in *.
  - destruct (Z.ltb_spec (ts_ms s) base); [done|].
    destruct (Z.ltb_spec UINT32_MAX (ts_ms s - base)); [done|].
    injection He as <-. unfold UINT32_MAX in *.
    rewrite take_app_le, take_ge by (by rewrite length_record_v2).
    unfold record_v2_bytes. rewrite take_app_le, take_ge
      by (rewrite !length_app, !length_put_le; done).
    assert (get_le 4 ((put_le 4 (ts_ms s - base) ++ put_le 8 (value s)) ++
      put_le 4 (crc32_ieee (put_le 4 (ts_ms s - base) ++ put_le 8 (value s)))) 12 =
      crc32_ieee (put_le 4 (ts_ms s - base) ++ put_le 8 (value s))) as ->
      by (get_field; apply crc32_ieee_mod).
    rewrite Z.eqb_refl. f_equal. destruct s as [ts v']; cbn [ts_ms value] in *. f_equal.
    + get_field. change (2 ^ (Z.of_nat 4 * 8))%Z with (2 ^ 32)%Z.
      rewrite Z.mod_small by lia. unfold u64. rewrite Z.mod_small; lia.
    + get_field. change (2 ^ (Z.of_nat 8 * 8))%Z with (2 ^ 64)%Z. by apply i64_u64.
  - injection He as <-. rewrite take_app_le, take_ge by (by rewrite length_record_encode).
    unfold zdb_ts_record_encode. set (body := _ ++ _ ++ _ ++ _ ++ _).
    assert (length body = 24) as Hl by (unfold body; rewrite !length_app, !length_put_le; done).
    rewrite (take_app_le body), (take_ge body) by (rewrite Hl; lia).
    assert (get_le 4 (body ++ put_le 4 (crc32_ieee body)) 24 = crc32_ieee body) as ->.
    { rewrite get_le_skip, Hl by (rewrite Hl; lia). simpl Nat.sub. rewrite get_le_last.
      apply crc32_ieee_mod. }
    unfold body. clear Hl body.
    match goal with |- (if ?b then _ else _) = _ => assert (b = true) as -> end.
    { rewrite !andb_true_iff, !Z.eqb_eq. split_and!; [by get_field|by get_field|done]. }
    f_equal. destruct s as [ts v']; cbn [ts_ms value] in *. f_equal.
    + get_field. by apply Z.mod_small.
    + get_field. change (2 ^ (Z.of_nat 8 * 8))%Z with (2 ^ 64)%Z. by apply i64_u64.
Qed.

Lemma decode_pure_ok v base raw s :
  (0 ≤ base)%Z → decode_pure v base raw = Some s → sample_ok s.
Proof.
  intros Hb. assert (∀ z, - 2 ^ 63 ≤ i64 z < 2 ^ 63)%Z as Hi.
  { intros z. unfold i64, u64. pose proof (Z.mod_pos_bound z (2 ^ 64)).
    destruct (Z.ltb_spec (z mod 2 ^ 64) (2 ^ 63)); lia. }
  unfold decode_pure. repeat case_match; intros; simplify_eq; (split; [|apply Hi]); cbn [ts_ms].
  - pose proof (get_le_bound 8 (take sizeof_record_i64 raw) 8). simpl in *. lia.
  - unfold u64. apply Z.mod_pos_bound. lia.
Qed.

(** A record that decodes is the encoding of the sample it decodes to: nothing
    but the reserved half-word of a v1 record is left unchecked. *)
Lemma decode_pure_canonical v base raw s :
  version_ok v → (0 ≤ base)%Z → (base + UINT32_MAX < 2 ^ 64)%Z →
  length raw = zdb_ts_rec_size_for v → decode_pure v base raw = Some s →
  (v = ZDB_TS_STREAM_VERSION → get_le 2 raw 6 = 0%Z) →
  zdb_ts_record_encode_as v base s = Some raw.
Proof.
  intros Hv Hb0 Hb Hl Hd Hres. unfold decode_pure, zdb_ts_record_encode_as in *.
  unfold zdb_ts_rec_size_for in Hl.
  destruct Hv as [-> | ->]; simpl negb in *; cbn iota in *.
  - change (length raw = 28) in Hl. rewrite (take_ge raw) in Hd by (rewrite Hl; done).
    destruct ((_ && _) && _) eqn:Hc in Hd; [|done].
    rewrite !andb_true_iff, !Z.eqb_eq in Hc. destruct Hc as [[Hm Hver] Hcrc].
    injection Hd as <-. f_equal. unfold zdb_ts_record_encode. cbn [ts_ms value].
    rewrite put_le_i64 by (pose proof (get_le_bound 8 raw 16); simpl in *; lia).
    rewrite <- Hm, <- Hver, <- (Hres eq_refl), !put_get_le by lia.
    rewrite !slice_join by done. simpl Nat.add. rewrite drop_0.
    rewrite <- Hcrc, put_get_le by lia. rewrite (take_ge (drop 24 raw)) by (rewrite length_drop; lia).
    apply take_drop.
  - change (length raw = 16) in Hl. rewrite (take_ge raw) in Hd by (rewrite Hl; done).
    destruct (_ =? _)%Z eqn:Hcrc in Hd; [|done]. apply Z.eqb_eq in Hcrc.
    injection Hd as <-. cbn [ts_ms value].
    pose proof (get_le_bound 4 raw 0) as Hdl. change (2 ^ (8 * Z.of_nat 4))%Z with (2 ^ 32)%Z in Hdl.
    unfold UINT32_MAX in *. unfold u64. rewrite Z.mod_small by lia.
    destruct (Z.ltb_spec (base + get_le 4 raw 0) base); [lia|].
    destruct (Z.ltb_spec (2 ^ 32 - 1) (base + get_le 4 raw 0 - base)); [lia|].
    f_equal. unfold record_v2_bytes.
    replace (base + get_le 4 raw 0 - base)%Z with (get_le 4 raw 0) by lia.
    rewrite put_le_i64 by (pose proof (get_le_bound 8 raw 4); simpl in *; lia).
    rewrite !put_get_le by lia.
    rewrite !slice_join by done. simpl Nat.add. rewrite drop_0.
    rewrite <- Hcrc, put_get_le by lia. rewrite (take_ge (drop 12 raw)) by (rewrite length_drop; lia).
    apply take_drop.
Qed.

(** ** The effects of a rejection *)

(** Only statistics, health, the clock and the log may differ. *)
Record noise (w w' : W) : Prop := {
  no_db : w_db w' = (w_db w) <| ts_stats := ts_stats (w_db w') |>
            <| health := health (w_db w') |> <| health_prev := health_prev (w_db w') |>
            <| health_event_pending := health_event_pending (w_db w') |>;
  no_f : w_f w' = w_f w;
  no_fs : w_fs w' = w_fs w;
  no_k : k_same (w_k w) (w_k w');
  no_log : ∃ new, w_log w' = w_log w ++ new;
}.

#[global] Instance noise_preorder : PreOrder noise.
Proof.
  split.
  - intros w. split; try done; [by destruct w as [[] ? ? ? ?]|]. exists []. by rewrite app_nil_r.
  - intros w1 w2 w3 [D1 F1 S1 K1 (n1 & L1)] [D2 F2 S2 K2 (n2 & L2)].
    split; try congruence; [by rewrite D2, D1|by etrans|].
    exists (n1 ++ n2). by rewrite L2, L1, app_assoc.
Qed.

Lemma wp_stat_upd f (Q : unit → W → Prop) w :
  (∀ w', noise w w' → health (w_db w') = health (w_db w) →
     lock_depth (w_k w') = lock_depth (w_k w) →
     ts_stats (w_db w') = (if CONFIG_ZDB_STATS then f (ts_stats (w_db w)) else ts_stats (w_db w)) →
     Q tt w') →
  wp (ZDB_STAT_UPD (Some the_db) f) Q w.
Proof.
  intros HQ. unfold ZDB_STAT_UPD. destruct CONFIG_ZDB_STATS.
  - apply wp_db_set, HQ; try done. split; try done. exists []. by rewrite app_nil_r.
  - apply wp_ret, HQ; done.
Qed.

(** Reporting a fault leaves the instance degraded or worse. *)
Lemma wp_health_noise (Q : unit → W → Prop) w :
  (∀ w', noise w w' → 1 ≤ health_level (health (w_db w')) →
     ts_stats (w_db w') = ts_stats (w_db w) → Q tt w') →
  wp (zdb_health_check (Some the_db)) Q w.
Proof.
  intros HQ. unfold zdb_health_check. apply wp_bind, wp_db_get.
  destruct (Nat.leb_spec (health_level ZDB_HEALTH_DEGRADED) (health_level (health (w_db w)))) as [Hle|].
  { by apply wp_ret, HQ. }
  assert (∀ w', w_f w' = w_f w → w_fs w' = w_fs w → k_same (w_k w) (w_k w') →
    w_log w' = w_log w → w_db w' = (w_db w) <| health := ZDB_HEALTH_DEGRADED |>
      <| health_prev := health_prev (w_db w') |>
      <| health_event_pending := health_event_pending (w_db w') |> → noise w w') as Hn.
  { intros w' ? ? ? Hl Hd. split; try done; [by rewrite Hd|]. exists []. by rewrite app_nil_r. }
  destruct CONFIG_ZDB_EVENTING; apply wp_bind; [apply wp_db_set|apply wp_ret];
    apply wp_bind, wp_db_set.
  - apply wp_bind, wp_gets. destruct (k_mutex_owned _).
    + apply wp_db_set, HQ; [by apply Hn|simpl; lia|done].
    + apply wp_bind, wp_db_get, wp_bind, wp_db_get, wp_emit_core.
      intros e w' ???? [Edb Ef Efs Ek Elog]. apply HQ; [|rewrite Edb; simpl; lia|by rewrite Edb].
      split; [by rewrite Edb|done|done|done|by eexists].
  - apply wp_ret, HQ; [by apply Hn|simpl; lia|done].
Qed.

Lemma wp_decode_as v base raw (Q : zdb_status_t * option zdb_ts_sample_i64_t → W → Prop) w :
  (∀ s, decode_pure v base raw = Some s → Q (ZDB_OK, Some s) w) →
  (∀ st w', decode_pure v base raw = None → noise w w' →
     st = ZDB_ERR_CORRUPT ∧ 1 ≤ health_level (health (w_db w')) ∨ st = ZDB_ERR_UNSUPPORTED →
     Q (st, None) w') →
  wp (zdb_ts_record_decode_as (Some the_db) v base raw) Q w.
Proof.
  intros Hok Hbad. unfold zdb_ts_record_decode_as, zdb_ts_record_decode, decode_pure in *.
  destruct (v =? ZDB_TS_STREAM_VERSION_V2)%Z; simpl negb in *; cbn iota in *.
  - destruct (_ =? _)%Z; simpl negb; cbn iota; [by apply wp_ret, Hok|].
    apply wp_bind, wp_stat_upd. intros w1 N1 _ _ _. apply wp_bind, wp_stat_upd. intros w2 N2 _ _ _.
    apply wp_bind, wp_health_noise. intros w3 N3 H3 _. apply wp_ret, Hbad; [done| |by left].
    by do 2 (etrans; [eassumption|]).
  - destruct (get_le 4 _ 0 =? _)%Z; simpl negb; cbn iota; cycle 1.
    { apply wp_bind, wp_stat_upd. intros w1 N1 _ _ _. apply wp_bind, wp_health_noise.
      intros w2 N2 H2 _. apply wp_ret, Hbad; [done|by etrans|by left]. }
    destruct (get_le 2 _ 4 =? _)%Z; simpl negb; cbn iota; cycle 1.
    { apply wp_bind, wp_stat_upd. intros w1 N1 _ _ _. apply wp_ret, Hbad; [done..|by right]. }
    destruct (get_le 4 _ 24 =? _)%Z; simpl negb; cbn iota; [by apply wp_ret, Hok|].
    apply wp_bind, wp_stat_upd. intros w1 N1 _ _ _. apply wp_bind, wp_stat_upd. intros w2 N2 _ _ _.
    apply wp_bind, wp_health_noise. intros w3 N3 H3 _. apply wp_ret, Hbad; [done| |by left].
    by do 2 (etrans; [eassumption|]).
Qed.
End spec.
