(* ===== verification/TsSpec.v ===== *)
(** * The frame of the time-series operations, and the watermark

    [ts_step] says what no time-series operation touches; locking, unlocking,
    publishing and every file-system call are such steps. *)

From S2P Require Import Prelude Config Env Types FsEnv FsSpec Events CoreSpec Cursor TsFormat.
From S2P Require Import TsFormatSpec TsStore TsSegment TsCursor TsRecover.

Section spec.
Context {Cfg : Config} {CfgOk : ConfigOk Cfg} {K F FS FH DH : Type}.
Context `{!Kernel K, !KernelLaws K, !FileSys FS FH DH, !FileSysLaws FS FH DH}.
Context {CRC : Crc32} {CRCLaws : Crc32Laws}.
Abbreviation W := (world K F FS).
Implicit Types w : W.

(** ** The frame *)

Record ts_step (w w' : W) : Prop := {
  tp_db : w_db w' = (w_db w) <| ts_ctx := ts_ctx (w_db w') |>
            <| ts_stats := ts_stats (w_db w') |>
            <| health := health (w_db w') |> <| health_prev := health_prev (w_db w') |>
            <| health_event_pending := health_event_pending (w_db w') |>;
  tp_f : w_f w' = w_f w;
  tp_log : ∃ new, w_log w' = w_log w ++ new;
}.

#[global] Instance ts_step_preorder : PreOrder ts_step.
Proof.
  split.
  - intros w. split; try done; [by destruct w as [[] ? ? ? ?]|]. exists []. by rewrite app_nil_r.
  - intros w1 w2 w3 [D1 F1 (n1 & L1)] [D2 F2 (n2 & L2)].
    split; [by rewrite D2, D1|congruence|]. exists (n1 ++ n2). by rewrite L2, L1, app_assoc.
Qed.

Lemma ts_step_intro w w' c st h hp pe :
  w_db w' = (w_db w) <| ts_ctx := c |> <| ts_stats := st |> <| health := h |>
              <| health_prev := hp |> <| health_event_pending := pe |> →
  w_f w' = w_f w → w_log w' = w_log w → ts_step w w'.
Proof.
  intros Hd Hf Hl. split; [by rewrite Hd|done|]. exists []. by rewrite app_nil_r.
Qed.

Lemma ts_step_fs w fs' : ts_step w (w <| w_fs := fs' |>).
Proof. split; [by destruct w as [[] ? ? ? ?]|done|]. exists []. by rewrite app_nil_r. Qed.

Lemma ts_step_k w k' : ts_step w (w <| w_k := k' |>).
Proof. split; [by destruct w as [[] ? ? ? ?]|done|]. exists []. by rewrite app_nil_r. Qed.

Lemma ts_step_set_ctx w c : ts_step w (w <| w_db := (w_db w) <| ts_ctx := c |> |>).
Proof.
  by apply (ts_step_intro _ _ c (ts_stats (w_db w)) (health (w_db w)) (health_prev (w_db w))
    (health_event_pending (w_db w))).
Qed.

Lemma ts_step_noise w w' : noise w w' → ts_step w w'.
Proof.
  intros [D F0 S0 K0 L]. split; [|done|done]. rewrite D. by destruct w as [[] ? ? ? ?].
Qed.

Lemma ts_step_emitted n w w' : emitted n w w' → ts_step w w'.
Proof.
  intros [D F0 S0 K0 L]. split; [rewrite D; by destruct (w_db w)|done|]. by exists n.
Qed.

Lemma ts_step_cfg w w' : ts_step w w' → cfg (w_db w') = cfg (w_db w).
Proof. intros H. by rewrite (tp_db _ _ H). Qed.

Lemma ts_step_slabs w w' :
  ts_step w w' →
  core_slab (w_db w') = core_slab (w_db w) ∧ cursor_slab (w_db w') = cursor_slab (w_db w) ∧
  ts_ingest_slab (w_db w') = ts_ingest_slab (w_db w) ∧ kv_ctx (w_db w') = kv_ctx (w_db w).
Proof. intros H. by rewrite (tp_db _ _ H). Qed.

Lemma files_same w fs' : fs_files fs' = files w → files (w <| w_fs := fs' |>) = files w.
Proof. done. Qed.

(** What an unlock does to the time-series context: it consumes what was
    pending in the slots. *)
Definition settle (c : option zdb_ts_core_ctx) : option zdb_ts_core_ctx :=
  if CONFIG_ZDB_EVENTING && CONFIG_ZDB_TS
  then (zdb_ts_take_deferred_events (CONFIG_ZDB_TS_STREAM_NAME_MAX_LEN + 1) c).1 else c.

Lemma wp_ts_lock (Q : zdb_status_t → W → Prop) w db :
  (∀ k', lock_depth k' = S (lock_depth (w_k w)) →
     (∀ s, slab_used k' s = slab_used (w_k w) s) → heap_used k' = heap_used (w_k w) →
     Q ZDB_OK (w <| w_k := k' |>)) →
  (∀ k', k_same (w_k w) k' → Q ZDB_ERR_BUSY (w <| w_k := k' |>)) →
  wp (zdb_lock_write db) Q w.
Proof. intros Hok Hbusy. apply wp_lock; auto. Qed.

Lemma wp_ts_lock_live db (Q : zdb_status_t → W → Prop) w :
  LockLive K →
  (∀ k', lock_depth k' = S (lock_depth (w_k w)) →
     (∀ s, slab_used k' s = slab_used (w_k w) s) → heap_used k' = heap_used (w_k w) →
     Q ZDB_OK (w <| w_k := k' |>)) →
  wp (zdb_lock_write db) Q w.
Proof. intros Hlive HQ. apply wp_lock; auto. by intros k' _ []. Qed.

Lemma wp_ts_unlock db (Q : unit → W → Prop) w :
  (∀ w', ts_step w w' → w_fs w' = w_fs w → ts_ctx (w_db w') = settle (ts_ctx (w_db w)) →
     lock_depth (w_k w') = pred (lock_depth (w_k w)) →
     (∀ s, slab_used (w_k w') s = slab_used (w_k w) s) →
     heap_used (w_k w') = heap_used (w_k w) → Q tt w') →
  wp (zdb_unlock_write db) Q w.
Proof.
  intros HQ. apply wp_unlock. intros k1 w' evs Hl Hs Hh _ [D F0 S0 [Kl Ks Kh] L]. simpl in *.
  apply HQ; [|done| |congruence|intros s; congruence|congruence].
  - split; [|done|by eexists]. rewrite D. unfold unlock_db.
    destruct (w_db w), CONFIG_ZDB_EVENTING, CONFIG_ZDB_TS; done.
  - rewrite D. unfold unlock_db, settle. by destruct CONFIG_ZDB_EVENTING, CONFIG_ZDB_TS.
Qed.

(** An event changes nothing but the clock and the log. *)
Lemma wp_ts_event ts ty name sts v fl tr st (Q : unit → W → Prop) w :
  ts = Some the_db →
  (∀ w' n, emitted n w w' → Q tt w') →
  wp (if CONFIG_ZDB_EVENTING then zdb_emit_ts_event ts ty name sts v fl tr st else ret tt) Q w.
Proof.
  intros -> HQ. destruct CONFIG_ZDB_EVENTING.
  - apply wp_emit_ts. intros. by eapply HQ.
  - apply wp_ret. eapply HQ, emitted_refl.
Qed.

(** ** The watermark *)

Lemma length_watermark m : length (watermark_encode m) = sizeof_watermark_rec.
Proof. unfold watermark_encode. rewrite !length_app, !length_put_le. done. Qed.

Lemma watermark_roundtrip m :
  (0 ≤ m < 2 ^ 64)%Z → watermark_decode 20 (watermark_encode m) = Some m.
Proof.
  intros Hm. unfold watermark_decode, watermark_encode. set (body := _ ++ _ ++ _ ++ _).
  assert (length body = 16) as Hl by (unfold body; rewrite !length_app, !length_put_le; done).
  rewrite (take_app_le body), (take_ge body) by (rewrite Hl; lia).
  assert (get_le 4 (body ++ put_le 4 (crc32_ieee body)) 16 = crc32_ieee body) as ->.
  { rewrite get_le_skip, Hl by (rewrite Hl; lia). simpl Nat.sub. rewrite get_le_last.
    apply crc32_ieee_mod. }
  unfold body. clear Hl body. rewrite (proj2 (Z.eqb_eq (crc32_ieee _) _)) by done.
  assert (∀ b, (if negb b || negb true || negb true then None else if negb true then None
    else Some m) = if b then Some m else None) as Hif by (by intros []).
  match goal with |- (if negb ?a || negb ?b || negb ?c then _ else _) = _ =>
    assert (a = true) as -> by done;
    assert (b = true) as -> by (apply Z.eqb_eq; by get_field);
    assert (c = true) as -> by (apply Z.eqb_eq; by get_field)
  end.
  simpl negb. simpl orb. cbn iota. f_equal. get_field. by apply Z.mod_small.
Qed.

(** The path of the mark of a stream. *)
Definition wmk_path (w : W) (name : cstring) : Z + list byte :=
  zdb_ts_build_watermark_path (cfg (w_db w)) (Some name) ZDB_TS_PATH_MAX.

Definition handle (name : cstring) : option zdb_ts_t :=
  Some {| ts_db := Some the_db; ts_stream_name := Some name |}.
End spec.
