(* ===== verification/TsFileSpec.v ===== *)
(** * What the file operations of a stream do

    [calm] relates worlds that differ in files, context and statistics only.
    The rules of this file say what creating or checking a header, appending a
    buffer and learning a file's layout do to the files, on a volume whose
    closes do not fail. *)

From S2P Require Import Prelude Config Env Types FsEnv FsSpec Events CoreSpec Cursor TsFormat.
From S2P Require Import TsFormatSpec TsSpec TsStore TsSegment TsCursor.

Section spec.
Context {Cfg : Config} {CfgOk : ConfigOk Cfg} {K F FS FH DH : Type}.
Context `{!Kernel K, !KernelLaws K, !FileSys FS FH DH, !FileSysLaws FS FH DH}.
Context {CRC : Crc32} {CRCLaws : Crc32Laws} {CloseOk : FsCloseOk FS FH DH}.
Abbreviation W := (world K F FS).
Implicit Types w : W.

(** ** The frame *)

Record calm w w' : Prop := {
  ca_step : ts_step w w';
  ca_k : k_same (w_k w) (w_k w');
}.

#[global] Instance calm_preorder : PreOrder calm.
Proof.
  split; [by split|]. intros w1 w2 w3 [S1 K1] [S2 K2]. split; by etrans.
Qed.

Lemma calm_fs w fs' : calm w (w <| w_fs := fs' |>).
Proof. split; [apply ts_step_fs|done]. Qed.

Lemma calm_noise w w' : noise w w' → calm w w'.
Proof. intros N. split; [by apply ts_step_noise|apply N]. Qed.

Lemma noise_ctx w w' : noise w w' → ts_ctx (w_db w') = ts_ctx (w_db w) ∧ files w' = files w.
Proof. intros [D _ S0 _ _]. unfold files. by rewrite D, S0. Qed.

Lemma calm_cfg w w' : calm w w' → cfg (w_db w') = cfg (w_db w).
Proof. intros [S0 _]. by apply ts_step_cfg. Qed.

(** ** Headers *)

(** What the header of a file says, for the bytes a check reads: version and
    timestamp base. *)
Definition header_pure (name : cstring) (d : list byte) : option (Z * Z) :=
  let raw := take ZDB_TS_HDR_MAX_SIZE d in
  if length raw <? sizeof_stream_header then None
  else if (get_le 2 raw 4 =? ZDB_TS_STREAM_VERSION_V2)%Z then
    if length raw <? sizeof_stream_header_v2 then None
    else if (get_le 4 raw 0 =? ZDB_TS_STREAM_MAGIC)%Z &&
            (get_le 4 raw 20 =? crc32_ieee (take 20 raw))%Z &&
            (get_le 4 raw 8 =? zdb_fnv1a32 name)%Z
    then Some (ZDB_TS_STREAM_VERSION_V2, get_le 8 raw 12) else None
  else
    let hdr := take sizeof_stream_header raw in
    if (get_le 4 hdr 0 =? ZDB_TS_STREAM_MAGIC)%Z && (get_le 2 hdr 4 =? ZDB_TS_STREAM_VERSION)%Z &&
       (get_le 4 hdr 12 =? crc32_ieee (take 12 hdr))%Z &&
       (get_le 4 hdr 8 =? zdb_fnv1a32 name)%Z
    then Some (ZDB_TS_STREAM_VERSION, 0%Z) else None.

Lemma header_pure_ok name d v :
  header_pure name d = Some v →
  version_ok v.1 ∧ (0 ≤ v.2 < 2 ^ 64)%Z ∧ zdb_ts_hdr_size_for v.1 ≤ length d.
Proof.
  unfold header_pure, version_ok, zdb_ts_hdr_size_for, ZDB_TS_HDR_MAX_SIZE.
  destruct (Nat.ltb_spec (length (take sizeof_stream_header_v2 d)) sizeof_stream_header) as [|Hl1];
    [done|].
  destruct (_ =? _)%Z.
  - destruct (Nat.ltb_spec (length (take sizeof_stream_header_v2 d)) sizeof_stream_header_v2)
      as [|Hl2]; [done|].
    destruct (_ && _); [|done]. intros [= <-]. simpl. split_and!; [by right| | |].
    + apply get_le_bound.
    + apply get_le_bound.
    + rewrite length_take in Hl2. lia.
  - destruct (_ && _); [|done]. intros [= <-]. simpl. split_and!; [by left|lia..|].
    rewrite length_take in Hl1. unfold sizeof_stream_header_v2, sizeof_stream_header in *. lia.
Qed.

Lemma header_pure_nil name : header_pure name [] = None.
Proof. done. Qed.

(** Two names that one header passes for have the same hash. *)
Lemma header_pure_name name name' d v v' :
  header_pure name d = Some v → header_pure name' d = Some v' →
  v' = v ∧ zdb_fnv1a32 name' = zdb_fnv1a32 name.
Proof.
  unfold header_pure. intros H H'. repeat case_match; simplify_eq;
    repeat match goal with E : (_ && _) = true |- _ => apply andb_true_iff in E as [? ?] end;
    rewrite !Z.eqb_eq in *; split; congruence.
Qed.

Lemma length_stream_header name : length (zdb_ts_stream_header_encode name) = sizeof_stream_header.
Proof. unfold zdb_ts_stream_header_encode. rewrite !length_app, !length_put_le. done. Qed.

Lemma length_stream_header_v2 name base :
  length (stream_header_v2_encode name base) = sizeof_stream_header_v2.
Proof. unfold stream_header_v2_encode. rewrite !length_app, !length_put_le. done. Qed.

Lemma length_new_header name base :
  length (new_header name base).1 = zdb_ts_hdr_size_for (new_header name base).2.1.
Proof.
  unfold new_header. destruct CONFIG_ZDB_TS_DELTA_ENCODING.
  - apply length_stream_header_v2.
  - apply length_stream_header.
Qed.
(** Four bytes of CRC follow what they cover. *)
Lemma crc_trailer body rest n :
  length body = n → get_le 4 ((body ++ put_le 4 (crc32_ieee body)) ++ rest) n = crc32_ieee body.
Proof.
  intros <-. rewrite <- app_assoc, get_le_skip by lia. rewrite Nat.sub_diag, get_le_here.
  apply crc32_ieee_mod.
Qed.

Lemma fnv1a32_mod s : (zdb_fnv1a32 s mod 2 ^ (Z.of_nat 4 * 8))%Z = zdb_fnv1a32 s.
Proof. apply Z.mod_small, fnv1a32_u32. Qed.

Lemma header_v1_pure name rest :
  header_pure name (zdb_ts_stream_header_encode name ++ rest) = Some (ZDB_TS_STREAM_VERSION, 0%Z).
Proof.
  unfold header_pure. pose proof (length_stream_header name) as Hl.
  destruct (Nat.ltb_spec (length (take ZDB_TS_HDR_MAX_SIZE (zdb_ts_stream_header_encode name ++ rest)))
              sizeof_stream_header) as [Hlt|_].
  { rewrite length_take, length_app, Hl in Hlt.
    unfold ZDB_TS_HDR_MAX_SIZE, sizeof_stream_header, sizeof_stream_header_v2 in Hlt. lia. }
  rewrite (get_le_take 2 ZDB_TS_HDR_MAX_SIZE) by (unfold ZDB_TS_HDR_MAX_SIZE, sizeof_stream_header_v2; lia).
  rewrite (take_take _ sizeof_stream_header ZDB_TS_HDR_MAX_SIZE), Nat.min_l
    by (unfold ZDB_TS_HDR_MAX_SIZE, sizeof_stream_header_v2, sizeof_stream_header; lia).
  rewrite (take_app_le _ rest sizeof_stream_header), (take_ge (zdb_ts_stream_header_encode name))
    by (rewrite Hl; lia).
  unfold zdb_ts_stream_header_encode. set (body := _ ++ _ ++ _ ++ _).
  assert (length body = 12) as Hb by (unfold body; rewrite !length_app, !length_put_le; done).
  rewrite (take_app_le body), (take_ge body) by (rewrite Hb; lia).
  pose proof (crc_trailer body [] 12 Hb) as Hcrc. rewrite app_nil_r in Hcrc. rewrite Hcrc.
  assert (∀ tail, get_le 2 ((body ++ put_le 4 (crc32_ieee body)) ++ tail) 4 = ZDB_TS_STREAM_VERSION) as Hv.
  { intros tail. unfold body. rewrite <- !app_assoc. by get_field. }
  rewrite Hv. pose proof (Hv []) as Hv0. rewrite app_nil_r in Hv0. rewrite Hv0.
  change (ZDB_TS_STREAM_VERSION =? ZDB_TS_STREAM_VERSION_V2)%Z with false. cbn iota.
  match goal with |- (if ?b then _ else _) = _ => assert (b = true) as ->; [|done] end.
  rewrite !andb_true_iff, !Z.eqb_eq. split_and!; try done.
  - unfold body. clear. rewrite <- !app_assoc. get_field. apply fnv1a32_mod.
Qed.

Lemma header_v2_pure name base rest :
  (0 ≤ base < 2 ^ 64)%Z →
  header_pure name (stream_header_v2_encode name base ++ rest) =
    Some (ZDB_TS_STREAM_VERSION_V2, base).
Proof.
  intros Hbase. unfold header_pure. pose proof (length_stream_header_v2 name base) as Hl.
  rewrite (take_app_le _ rest), (take_ge (stream_header_v2_encode _ _)) by (rewrite Hl; done).
  rewrite Hl. unfold sizeof_stream_header_v2, sizeof_stream_header. cbn [Nat.ltb Nat.leb].
  unfold stream_header_v2_encode. set (body := _ ++ _ ++ _ ++ _ ++ _).
  assert (length body = 20) as Hb by (unfold body; rewrite !length_app, !length_put_le; done).
  rewrite (take_app_le body), (take_ge body) by (rewrite Hb; lia).
  pose proof (crc_trailer body [] 20 Hb) as Hcrc. rewrite app_nil_r in Hcrc. rewrite Hcrc.
  unfold body. clear Hcrc Hb body Hl.
  assert (∀ a b, a = true → b = true → (if a then if b then Some (ZDB_TS_STREAM_VERSION_V2, base)
    else None else None) = Some (ZDB_TS_STREAM_VERSION_V2, base)) as Hif by (by intros ? ? -> ->).
  match goal with |- (if ?a then if ?b && ?c && ?d then Some (_, ?x) else _ else _) = _ =>
    assert (a = true) as -> by (apply Z.eqb_eq; by get_field);
    assert (b = true) as -> by (apply Z.eqb_eq; by get_field);
    assert (c = true) as -> by (by apply Z.eqb_eq);
    assert (d = true) as -> by (apply Z.eqb_eq; get_field; apply fnv1a32_mod);
    assert (x = base) as -> by (get_field; by apply Z.mod_small)
  end. done.
Qed.

Lemma new_header_pure name base rest :
  (0 ≤ base < 2 ^ 64)%Z →
  header_pure name ((new_header name base).1 ++ rest) = Some (new_header name base).2.
Proof.
  intros Hb. unfold new_header. destruct CONFIG_ZDB_TS_DELTA_ENCODING; simpl fst; simpl snd.
  - by apply header_v2_pure.
  - apply header_v1_pure.
Qed.
Lemma wp_check_header name d (Q : zdb_status_t * option (Z * Z) → W → Prop) w :
  let raw := take ZDB_TS_HDR_MAX_SIZE d in
  sizeof_stream_header ≤ length raw →
  (∀ v, header_pure name d = Some v → Q (ZDB_OK, Some v) w) →
  (∀ st w', header_pure name d = None → st ≠ ZDB_OK → noise w w' → Q (st, None) w') →
  wp (check_header (Some the_db) name (Z.of_nat (length raw)) raw) Q w.
Proof.
  intros raw Hlen Hok Hbad. unfold check_header, header_pure in *. fold raw in Hok, Hbad.
  destruct (Nat.ltb_spec (length raw) sizeof_stream_header) as [|_]; [lia|].
  destruct (_ =? ZDB_TS_STREAM_VERSION_V2)%Z eqn:Hver.
  - destruct (Z.ltb_spec (length raw) sizeof_stream_header_v2) as [Hlt|Hge].
    { apply wp_ret, Hbad; [|done|done]. rewrite (proj2 (Nat.ltb_lt _ _)) by lia. done. }
    rewrite (proj2 (Nat.ltb_ge _ _)) in Hok, Hbad by lia.
    apply wp_bind. unfold stream_header_v2_decode. apply Z.eqb_eq in Hver.
    destruct (get_le 4 raw 0 =? _)%Z; cbn [negb andb] in *; cycle 1.
    { apply wp_bind, wp_stat_upd. intros w1 N1 _ _ _. by apply wp_ret, wp_ret, Hbad. }
    destruct (get_le 4 raw 20 =? _)%Z; cbn [negb andb] in *; cycle 1.
    { apply wp_bind, wp_stat_upd. intros w1 N1 _ _ _. apply wp_bind, wp_stat_upd.
      intros w2 N2 _ _ _. apply wp_ret, wp_ret, Hbad; [done|done|by etrans]. }
    destruct (get_le 4 raw 8 =? _)%Z; cbn [negb andb] in *; cycle 1.
    { apply wp_bind, wp_stat_upd. intros w1 N1 _ _ _. by apply wp_ret, wp_ret, Hbad. }
    apply wp_ret, wp_ret. rewrite Hver. by apply Hok.
  - apply wp_bind. unfold zdb_ts_stream_header_decode.
    destruct (get_le 4 (take _ raw) 0 =? _)%Z; cbn [negb andb] in *; cycle 1.
    { apply wp_bind, wp_stat_upd. intros w1 N1 _ _ _. by apply wp_ret, wp_ret, Hbad. }
    destruct (get_le 2 (take _ raw) 4 =? _)%Z eqn:Hv1; cbn [negb andb] in *; cycle 1.
    { apply wp_bind, wp_stat_upd. intros w1 N1 _ _ _. by apply wp_ret, wp_ret, Hbad. }
    destruct (get_le 4 (take _ raw) 12 =? _)%Z; cbn [negb andb] in *; cycle 1.
    { apply wp_bind, wp_stat_upd. intros w1 N1 _ _ _. apply wp_bind, wp_stat_upd.
      intros w2 N2 _ _ _. apply wp_ret, wp_ret, Hbad; [done|done|by etrans]. }
    destruct (get_le 4 (take _ raw) 8 =? _)%Z; cbn [negb andb] in *; cycle 1.
    { apply wp_bind, wp_stat_upd. intros w1 N1 _ _ _. by apply wp_ret, wp_ret, Hbad. }
    apply wp_ret, wp_ret. apply Z.eqb_eq in Hv1.
    rewrite get_le_take in Hv1 by (unfold sizeof_stream_header; lia). rewrite Hv1. by apply Hok.
Qed.

(** Only the file at [p] may have changed, and only if it was empty. *)
Definition touched (p : list byte) (w w' : W) : Prop :=
  files_but p (w_fs w) (w_fs w') ∧ (default [] (files w !! p) ≠ [] → files w' = files w).

Lemma touched_insert p d w w' :
  default [] (files w !! p) = [] → files w' = <[p := d]> (files w) → touched p w w'.
Proof.
  intros He Hf. split; [|done]. intros q Hq. unfold files in Hf. by rewrite Hf, lookup_insert_ne.
Qed.

Lemma touched_same p w w' :
  files w' = <[p := default [] (files w !! p)]> (files w) → touched p w w'.
Proof.
  intros Hf. split.
  - intros q Hq. unfold files in Hf. by rewrite Hf, lookup_insert_ne.
  - intros Hd. rewrite Hf. apply insert_id. by destruct (files w !! p).
Qed.

(** Writing the header of an empty file that has just been opened. *)
Lemma wp_write_header fh p hdr (Q : Z * FH → W → Prop) w d0 :
  at_pos fh p FS_CREATE_RDWR 0 → files w = <[p := []]> d0 →
  (∀ rc fh' w' d, calm w w' → ts_ctx (w_db w') = ts_ctx (w_db w) → files w' = <[p := d]> d0 →
     rc = Z.of_nat (length hdr) → d = hdr → Q (rc, fh') w') →
  (∀ rc fh' w' d, calm w w' → ts_ctx (w_db w') = ts_ctx (w_db w) → files w' = <[p := d]> d0 →
     rc ≠ Z.of_nat (length hdr) → Q (rc, fh') w') →
  wp (on_fs (fs_write fh hdr)) Q w.
Proof.
  intros Hap Hf Hok Hbad.
  eapply wp_fs_write; [exact Hap|rewrite Hf; apply lookup_insert_eq|].
  intros rc fh' fs' k Hk Hrc Hfs _ _. simpl fs_o_append in Hfs. cbn iota in Hfs.
  rewrite file_write_empty, Hf, insert_insert_eq in Hfs.
  destruct (decide (rc = Z.of_nat (length hdr))) as [->|Hne].
  - eapply Hok; [apply calm_fs|done|exact Hfs|done|]. destruct Hrc; [lia|]. apply take_ge. lia.
  - eapply Hbad; [apply calm_fs|done|exact Hfs|done].
Qed.

(** What [create_header] makes of an empty file. *)
Lemma wp_create_header fh p hdr out (Q : zdb_status_t * option (Z * Z) → W → Prop) w d0 :
  at_pos fh p FS_CREATE_RDWR 0 → files w = <[p := []]> d0 →
  (∀ st w' d, st ≠ ZDB_OK → calm w w' → ts_ctx (w_db w') = ts_ctx (w_db w) →
     files w' = <[p := d]> d0 → Q (st, None) w') →
  (∀ w', calm w w' → ts_ctx (w_db w') = ts_ctx (w_db w) → files w' = <[p := hdr]> d0 →
     Q (ZDB_OK, Some out) w') →
  wp (create_header fh (hdr, out)) Q w.
Proof.
  intros [Hp Hfl _] Hf Hbad Hok. unfold create_header. apply wp_bind, wp_fs_seek_set.
  { intros rc fh3 fs3 Hrc Hfs3 _ _. rewrite (proj2 (Z.ltb_lt _ _)) by done.
    apply wp_bind, wp_fs_close_ok; [done|]. intros fs4 Hfs4. apply wp_ret, (Hbad _ _ []).
    - rewrite status_from_errno_ok. lia.
    - etrans; apply calm_fs.
    - done.
    - unfold files in *. simpl in *. by rewrite Hfs4, Hfs3. }
  intros fh3 fs3 pos Hpos Hfs3 Hap3. change (0 <? 0)%Z with false. cbn iota.
  assert (pos = 0) as -> by lia. rewrite Hp, Hfl in Hap3.
  apply wp_bind. set (w3 := w <| w_fs := fs3 |>).
  eapply (wp_write_header _ _ _ _ w3 d0); [exact Hap3|by unfold files in *; simpl; rewrite Hfs3|..].
  - intros rc fh4 w4 h C4 Hctx4 Hf4 -> ->.
    apply wp_bind, wp_fs_close_ok; [done|]. intros fs5 Hfs5. apply wp_ret.
    rewrite (proj2 (Z.ltb_ge _ _)), Z.eqb_refl by lia. cbn [negb]. apply Hok.
    + etrans; [apply calm_fs|]. etrans; [exact C4|apply calm_fs].
    + done.
    + unfold files in *. simpl in *. by rewrite Hfs5.
  - intros rc fh4 w4 h C4 Hctx4 Hf4 Hne.
    apply wp_bind, wp_fs_close_ok; [done|]. intros fs5 Hfs5. apply wp_ret.
    match goal with |- Q (if ?b then (?a, None) else if ?c then (?e, None) else _) ?w' =>
      assert (∃ st, st ≠ ZDB_OK ∧
        (if b then (a, None) else if c then (e, None) else (ZDB_OK, Some out)) = (st, None))
        as (st & Hst & ->) end.
    { destruct (Z.ltb_spec rc 0); [eexists; split; [|done]; rewrite status_from_errno_ok; lia|].
      destruct (Z.eqb_spec rc (length hdr)); [done|]. by exists ZDB_ERR_IO. }
    apply (Hbad _ _ h); [done|..].
    + etrans; [apply calm_fs|]. etrans; [exact C4|apply calm_fs].
    + done.
    + unfold files in *. simpl in *. by rewrite Hfs5.
Qed.

(** Creating a file with its header, or checking the header it has. *)
Lemma wp_ensure_header_ex name p base (Q : zdb_status_t * option (Z * Z) → W → Prop) w :
  is_Some (cfg (w_db w)) →
  (∀ st w', st ≠ ZDB_OK → calm w w' → ts_ctx (w_db w') = ts_ctx (w_db w) → touched p w w' →
     Q (st, None) w') →
  (∀ w', default [] (files w !! p) = [] → calm w w' → ts_ctx (w_db w') = ts_ctx (w_db w) →
     files w' = <[p := (new_header name base).1]> (files w) →
     Q (ZDB_OK, Some (new_header name base).2) w') →
  (∀ d v w', files w !! p = Some d → header_pure name d = Some v → calm w w' →
     ts_ctx (w_db w') = ts_ctx (w_db w) → files w' = files w → Q (ZDB_OK, Some v) w') →
  wp (zdb_ts_ensure_header_ex (Some the_db) (Some name) (Some p) base) Q w.
Proof.
  intros [c Hc] Hbad Hnew Hold. unfold zdb_ts_ensure_header_ex. apply wp_bind, wp_db_get.
  rewrite Hc. apply wp_bind, wp_fs_open.
  { intros rc fh fs' Hrc Hfs _. rewrite (proj2 (Z.ltb_lt _ _)) by done. apply wp_ret, Hbad.
    - rewrite status_from_errno_ok. lia.
    - apply calm_fs.
    - done.
    - split; [|by intros]. intros q _. simpl. unfold files in Hfs. by rewrite Hfs. }
  intros fh fs1 d0 Hap Hop Hfs1. cbn iota. set (w1 := w <| w_fs := fs1 |>).
  assert (d0 = default [] (files w !! p)) as ->.
  { revert Hop. destruct (files w !! p); simpl; congruence. }
  assert (files w1 !! p = Some (default [] (files w !! p))) as Hd1.
  { unfold w1, files. simpl. rewrite Hfs1. apply lookup_insert_eq. }
  assert (calm w w1) as C1 by apply calm_fs.
  change (0 <? 0)%Z with false. cbn iota.
  apply wp_bind. eapply wp_fs_read; [exact Hap|exact Hd1|..].
  { intros rc data fh2 fs2 Hrc Hfs2 _ _. destruct (Z.eqb_spec rc 0); [lia|].
    apply wp_bind, wp_fs_close_ok; [done|]. intros fs3 Hfs3.
    rewrite (proj2 (Z.ltb_lt _ _)) by done. apply wp_ret, Hbad.
    - rewrite status_from_errno_ok. lia.
    - etrans; [exact C1|]. etrans; apply calm_fs.
    - done.
    - apply touched_same. unfold files in *. simpl in *. by rewrite Hfs3, Hfs2, Hfs1. }
  intros fh2 fs2 Hfs2 Hap2. rewrite drop_0 in *. set (w2 := w1 <| w_fs := fs2 |>).
  set (d := default [] (files w !! p)) in *.
  assert (files w2 = <[p := d]> (files w)) as Hf2 by (unfold files; simpl; by rewrite Hfs2).
  assert (calm w w2) as C2 by (etrans; apply calm_fs).
  destruct (Z.eqb_spec (length (take ZDB_TS_HDR_MAX_SIZE d)) 0) as [Hz|Hnz].
  - assert (d = []) as He.
    { destruct d; [done|]. simpl in Hz. lia. }
    rewrite He in Hf2. destruct (new_header name base) as [hdr out] eqn:Hhdr.
    assert (at_pos fh2 p FS_CREATE_RDWR 0) as Hap3.
    { rewrite He in Hap2. unfold ZDB_TS_HDR_MAX_SIZE in Hap2. by rewrite take_nil in Hap2. }
    eapply wp_create_header; [exact Hap3|exact Hf2|..].
    + intros st w3 h Hst C3 Hctx3 Hf3. apply Hbad; [done|by etrans|done|].
      by eapply touched_insert.
    + intros w3 C3 Hctx3 Hf3. assert (out = (new_header name base).2) as -> by (by rewrite Hhdr).
      apply Hnew; [done|by etrans|done|by rewrite Hhdr].
  - apply wp_bind, wp_fs_close_ok; [done|]. intros fs3 Hfs3. set (w3 := w2 <| w_fs := fs3 |>).
    assert (files w3 = <[p := d]> (files w)) as Hf3 by (etrans; [exact Hfs3|exact Hf2]).
    assert (calm w w3) as C3 by (etrans; [exact C2|apply calm_fs]).
    rewrite (proj2 (Z.ltb_ge _ _)) by lia.
    destruct (Z.ltb_spec (length (take ZDB_TS_HDR_MAX_SIZE d)) sizeof_stream_header).
    { apply wp_ret, Hbad; [done|done|done|by apply touched_same]. }
    apply wp_check_header; [lia|..].
    + intros v Hv. assert (files w !! p = Some d) as Hd.
      { unfold d in *. destruct (files w !! p); [done|]. done. }
      apply (Hold d v); [done..|]. rewrite Hf3. by apply insert_id.
    + intros st w4 Hv Hst N. destruct (noise_ctx _ _ N) as [Hctx4 Hf4].
      apply Hbad; [done|etrans; [exact C3|by apply calm_noise]|by rewrite Hctx4|].
      apply touched_same. by rewrite Hf4.
Qed.
End spec.
