(* ===== verification/TsInv.v ===== *)
(** * The invariant of the time-series context, and a logic to preserve it

    [ctx_ok] is what holds of the slots between any two operations. [moves a b
    R m] says that the program [m], run at lock depth [a], preserves it and ends
    at depth [b] with a result in [R]; it takes no heap block, no block of a
    slab but those the context records, takes no handle away from a stream, and
    stays within the frame of [ts_step]. The relation is closed under the
    constructs of the programs, so each operation's proof follows its text. *)

From S2P Require Import Prelude Config Env Types FsEnv FsSpec Events CoreSpec Cursor TsFormat.
From S2P Require Import TsFormatSpec TsSpec TsStore TsSegment TsCursor TsRecover Doubles TsOps.

(** ** The invariant *)

Definition ingest_limit `{Config} : nat :=
  Nat.min CONFIG_ZDB_TS_INGEST_BUFFER_BYTES CONFIG_ZDB_TS_INGEST_SLAB_BLOCK_SIZE.

(** The record size a slot works with is the one of its version. *)
Definition layout_ok (s : zdb_ts_stream_ctx) : Prop :=
  (seg_version s = 0%Z ∧ seg_rec_size s = 0) ∨
  (version_ok (seg_version s) ∧ seg_rec_size s = zdb_ts_rec_size_for (seg_version s)).

(** A slot in use owns a buffer of the fixed capacity, filled no further than
    that, and has between 1 and 255 handles; a free slot owns nothing. *)
Record slot_ok `{Config} (s : zdb_ts_stream_ctx) : Prop := {
  so_layout : layout_ok s;
  so_used : in_use s = true →
    (∃ b, ingest_buf s = Some b ∧ length b = ingest_limit) ∧
    ingest_capacity s = ingest_limit ∧ ingest_used s ≤ ingest_limit ∧
    (1 ≤ open_count s ≤ 255)%Z ∧ length (st_name s) ≤ CONFIG_ZDB_TS_STREAM_NAME_MAX_LEN;
  so_free : in_use s = false → ingest_buf s = None;
}.

Record slots_ok `{Config} (l : list zdb_ts_stream_ctx) : Prop := {
  sl_ok : ∀ i s, l !! i = Some s → slot_ok s;
  sl_len : length l = CONFIG_ZDB_TS_MAX_STREAMS;
  sl_names : ∀ i j s t, l !! i = Some s → l !! j = Some t →
    in_use s = true → in_use t = true → st_name s = st_name t → i = j;
}.

Definition ctx_ok `{Config} (c : option zdb_ts_core_ctx) : Prop :=
  match c with None => True | Some c => slots_ok (streams c) end.

(** The slab blocks the instance's context records. *)
Definition opt_frees (n : nat) (sl : option k_mem_slab) (s : positive) : nat :=
  match sl with Some sl => frees n sl s | None => 0 end.
Definition ts_held (d : zdb_t) (s : positive) : nat :=
  match ts_ctx d with
  | None => 0
  | Some c => opt_frees 1 (core_slab d) s + opt_frees (ingest_bufs (streams c)) (ts_ingest_slab d) s
  end.

(** ** Lists of slots *)

Section slot_lists.
Context {Cfg : Config}.
Implicit Types (l : list zdb_ts_stream_ctx) (s : zdb_ts_stream_ctx).

Definition has_buf s : nat := match ingest_buf s with Some _ => 1 | None => 0 end.

Lemma ingest_bufs_cons s l : ingest_bufs (s :: l) = has_buf s + ingest_bufs l.
Proof.
  unfold ingest_bufs, has_buf. destruct (ingest_buf s) eqn:Hb.
  - rewrite filter_cons_True by (rewrite Hb; by eexists). done.
  - rewrite filter_cons_False; [done|]. rewrite Hb. by intros [].
Qed.

Lemma ingest_bufs_alter f i l s :
  l !! i = Some s → ingest_bufs (alter f i l) + has_buf s = ingest_bufs l + has_buf (f s).
Proof.
  revert i. induction l as [|t l IH]; intros [|i] Hl; simplify_eq/=.
  - rewrite !ingest_bufs_cons. lia.
  - rewrite (ingest_bufs_cons t (alter f i l)), ingest_bufs_cons. specialize (IH i Hl). lia.
Qed.

Lemma alter_none {A} (f : A → A) i (l : list A) : l !! i = None → alter f i l = l.
Proof.
  revert i. induction l as [|x l IH]; intros [|i] H; simpl in *; [done..|]. f_equal. by apply IH.
Qed.

Lemma slot_index_Some P l i j :
  slot_index P l i = Some j →
  ∃ s, l !! (j - i) = Some s ∧ P s = true ∧ i ≤ j ∧
    ∀ k t, l !! k = Some t → k < j - i → P t = false.
Proof.
  revert i. induction l as [|t l IH]; intros i; simpl; [done|].
  destruct (P t) eqn:HP.
  - intros [= <-]. exists t. rewrite Nat.sub_diag. split_and!; try done. intros; lia.
  - intros (s & Hs & HPs & Hle & Hlt)%IH. exists s.
    replace (j - i) with (S (j - S i)) by lia. split_and!; [done|done|lia|].
    intros [|k] u Hu Hk; simplify_eq/=; [done|]. apply (Hlt k); [done|lia].
Qed.

Lemma slot_index_None P l i :
  slot_index P l i = None → ∀ k t, l !! k = Some t → P t = false.
Proof.
  revert i. induction l as [|t l IH]; intros i; simpl; [by intros _ k ? ?|].
  destruct (P t) eqn:HP; [done|]. intros Hn [|k] u Hu; simplify_eq/=; [done|]. by eapply IH.
Qed.

(** The slot a stream name denotes. *)
Lemma slot_find_Some c name i :
  zdb_ts_slot_find (Some c) (Some name) = Some i →
  ∃ s, streams c !! i = Some s ∧ in_use s = true ∧ st_name s = name.
Proof.
  intros (s & Hs & HP & _)%slot_index_Some. rewrite Nat.sub_0_r in Hs.
  exists s. rewrite andb_true_iff, bool_decide_eq_true in HP. naive_solver.
Qed.

Lemma slot_find_None c name :
  zdb_ts_slot_find (Some c) (Some name) = None →
  ∀ i s, streams c !! i = Some s → in_use s = true → st_name s ≠ name.
Proof.
  intros Hn i s Hs Hu Heq. pose proof (slot_index_None _ _ _ Hn i s Hs) as HP. simpl in HP.
  rewrite Hu, bool_decide_eq_true_2 in HP by done. done.
Qed.

Lemma zero_stream_ok : slot_ok zero_stream.
Proof. split; [by left|done|done]. Qed.

Lemma lookup_alter_Some f i j l s :
  alter f i l !! j = Some s ↔
  (i = j ∧ ∃ t, l !! i = Some t ∧ s = f t) ∨ (i ≠ j ∧ l !! j = Some s).
Proof.
  destruct (decide (i = j)) as [<-|Hne].
  - rewrite list_lookup_alter_eq. destruct (l !! i); naive_solver.
  - rewrite list_lookup_alter_ne by done. naive_solver.
Qed.

(** Updating a slot. *)
Lemma slots_ok_alter f i l :
  slots_ok l →
  (∀ s, l !! i = Some s → slot_ok (f s) ∧
     (in_use (f s) = true → (in_use s = true ∧ st_name (f s) = st_name s) ∨
        ∀ j t, l !! j = Some t → in_use t = true → st_name t ≠ st_name (f s))) →
  slots_ok (alter f i l).
Proof.
  intros [Hok Hlen Hnames] Hf. split.
  - intros j s. rewrite lookup_alter_Some. intros [(-> & u & Hu & ->)|[_ Hs]]; [|by eapply Hok].
    by apply Hf.
  - by rewrite length_alter.
  - intros j k s t Hs Ht Hus Hut Hn. apply lookup_alter_Some in Hs, Ht.
    destruct Hs as [(-> & u & Hu & ->)|[Hne Hs]], Ht as [(-> & v & Hv & ->)|[Hne' Ht]].
    + done.
    + destruct (Hf u Hu) as [_ [[Hiu Heq]|Hfresh]]; [done| |].
      * apply (Hnames j k u t); congruence.
      * exfalso. by apply (Hfresh k t Ht Hut).
    + destruct (Hf v Hv) as [_ [[Hiu Heq]|Hfresh]]; [done| |].
      * apply (Hnames j k s v); congruence.
      * exfalso. by apply (Hfresh j s Hs Hus).
    + by eapply Hnames.
Qed.
End slot_lists.

(** ** What an unlock leaves of the slots *)

Section settled.
Context {Cfg : Config}.

Lemma settle_sim c : ctx_sim c (settle c).
Proof. unfold settle. destruct (_ && _); [apply ctx_sim_taken|done]. Qed.

(** Settling changes no slot but for what it had pending. *)
Lemma settle_lookup c i s :
  streams c !! i = Some s → ∃ c' fb db, settle (Some c) = Some c' ∧
    streams c' !! i = Some (s <| pending_flush_bytes := fb |> <| pending_discarded_bytes := db |>).
Proof.
  intros Hs. pose proof (settle_sim (Some c)) as H. destruct (settle (Some c)) as [c'|]; [|done].
  destruct (Forall2_lookup_l _ _ _ _ _ H Hs) as (s' & Hs' & fb & db & ->). by exists c', fb, db.
Qed.

Lemma slot_ok_sim s s' : slot_sim s s' → slot_ok s → slot_ok s'.
Proof. intros (fb & db & ->) []. by split. Qed.

Lemma slots_ok_sim l l' : Forall2 slot_sim l l' → slots_ok l → slots_ok l'.
Proof.
  intros Hsim [Hok Hlen Hn]. split.
  - intros i s' Hs'. destruct (Forall2_lookup_r _ _ _ _ _ Hsim Hs') as (s & Hs & H).
    by eapply slot_ok_sim, Hok.
  - by rewrite <- (Forall2_length _ _ _ Hsim).
  - intros i j s' t' Hs' Ht'.
    destruct (Forall2_lookup_r _ _ _ _ _ Hsim Hs') as (s & Hs & a & b & ->).
    destruct (Forall2_lookup_r _ _ _ _ _ Hsim Ht') as (t & Ht & c & d & ->). exact (Hn i j s t Hs Ht).
Qed.

Lemma ctx_ok_sim c c' : ctx_sim c c' → ctx_ok c → ctx_ok c'.
Proof. destruct c, c'; try done. apply slots_ok_sim. Qed.

Lemma ingest_bufs_sim l l' : Forall2 slot_sim l l' → ingest_bufs l' = ingest_bufs l.
Proof.
  induction 1 as [|s s' l l' (fb & db & ->) _ IH]; [done|]. by rewrite !ingest_bufs_cons, IH.
Qed.

Lemma ts_held_sim d d' s :
  ctx_sim (ts_ctx d) (ts_ctx d') → core_slab d' = core_slab d → ts_ingest_slab d' = ts_ingest_slab d →
  ts_held d' s = ts_held d s.
Proof.
  unfold ts_held. intros H -> ->. destruct (ts_ctx d), (ts_ctx d'); try done.
  by rewrite (ingest_bufs_sim _ _ H).
Qed.
End settled.

(** ** A logic of programs that preserve the invariant *)

Section logic.
Context {Cfg : Config} {CfgOk : ConfigOk Cfg} {K F FS FH DH : Type}.
Context `{!Kernel K, !KernelLaws K, !FileSys FS FH DH}.
Context {CRC : Crc32}.
Abbreviation W := (world K F FS).
Implicit Types w : W.

(** The blocks of a slab that the context does not account for. *)
Definition slack w (s : positive) : Z := (slab_used (w_k w) s - ts_held (w_db w) s)%Z.

Record ts_inv w : Prop := {
  ti_ctx : ctx_ok (ts_ctx (w_db w));
  ti_slack : ∀ s, (0 ≤ slack w s)%Z;
}.

(** The stream is open, with at least [n] handles. *)
Definition counted_at (c : option zdb_ts_core_ctx) (i : nat) (name : cstring) (n : Z) : Prop :=
  ∃ x s, c = Some x ∧ streams x !! i = Some s ∧ in_use s = true ∧ st_name s = name ∧
    (n ≤ open_count s)%Z.
Definition counted (c : option zdb_ts_core_ctx) (name : cstring) (n : Z) : Prop :=
  ∃ i, counted_at c i name n.

(** The bytes buffered in a slot. *)
Definition used (d : zdb_t) (i : nat) : nat := ingest_used (default zero_stream (ctx_streams d !! i)).

(** From [w] to [w'] nothing is taken that the context does not account for,
    no stream has lost a handle, and no buffer was filled further. *)
Record moved w w' : Prop := {
  mv_step : ts_step w w';
  mv_ctx : ctx_ok (ts_ctx (w_db w')) ;
  mv_heap : heap_used (w_k w') = heap_used (w_k w);
  mv_slack : ∀ s, slack w' s = slack w s;
  mv_at : ∀ i name n, counted_at (ts_ctx (w_db w)) i name n → counted_at (ts_ctx (w_db w')) i name n;
  mv_used : ∀ i, used (w_db w') i = used (w_db w) i ∨ used (w_db w') i = 0;
}.

Lemma counted_le c name m n : (n ≤ m)%Z → counted c name m → counted c name n.
Proof. intros Hle (i & x & s & ? & ? & ? & ? & ?). exists i, x, s. split_and!; try done. lia. Qed.

Lemma mv_counted w w' : moved w w' →
  ∀ name n, counted (ts_ctx (w_db w)) name n → counted (ts_ctx (w_db w')) name n.
Proof. intros M name n [i H]. exists i. by eapply mv_at. Qed.

Lemma moved_inv w w' : moved w w' → ts_inv w → ts_inv w'.
Proof. intros [_ Hc _ Hs _ _] [_ Hp]. split; [done|]. intros s. by rewrite Hs. Qed.

Lemma moved_refl w : ts_inv w → moved w w.
Proof. intros []. split; try done. by left. Qed.

Lemma moved_trans w1 w2 w3 : moved w1 w2 → moved w2 w3 → moved w1 w3.
Proof.
  intros [S1 C1 H1 B1 R1 U1] [S2 C2 H2 B2 R2 U2]. split; [by etrans|done|congruence| |eauto|].
  - intros s. by rewrite B2.
  - intros i. destruct (U1 i), (U2 i); [left|right..]; congruence.
Qed.

(** The program runs from lock depth [a] to lock depth [b]. *)
Definition moves (a b : nat) {A} (R : A → Prop) (m : M W A) : Prop :=
  ∀ w, ts_inv w → lock_depth (w_k w) = a →
    wp m (λ r w', moved w w' ∧ lock_depth (w_k w') = b ∧ R r) w.
Definition any {A} : A → Prop := λ _, True.

Lemma wp_moves a b {A} (R : A → Prop) (m : M W A) (Q : A → W → Prop) w :
  moves a b R m → ts_inv w → lock_depth (w_k w) = a →
  (∀ r w', moved w w' → ts_inv w' → lock_depth (w_k w') = b → R r → Q r w') → wp m Q w.
Proof.
  intros Hm Hw Ha HQ. eapply wp_mono; [by apply Hm|]. intros r w' (M1 & L1 & Rr).
  apply HQ; [done|by eapply moved_inv|done..].
Qed.

(** ** Rules *)

Lemma moves_ret a {A} (R : A → Prop) x : R x → moves a a R (ret x : M W A).
Proof. intros Hx w Hw Ha. apply wp_ret. split; [by apply moved_refl|done]. Qed.

Lemma moves_weaken a b {A} (R R' : A → Prop) (m : M W A) :
  moves a b R m → (∀ x, R x → R' x) → moves a b R' m.
Proof. intros Hm HR w Hw Ha. eapply wp_mono; [by apply Hm|]. intros x w' (? & ? & ?). auto. Qed.

Lemma moves_any a b {A} (R : A → Prop) (m : M W A) : moves a b R m → moves a b any m.
Proof. intros Hm. by eapply moves_weaken. Qed.

Lemma moves_bind a b c {A B} (R : A → Prop) (R' : B → Prop) (m : M W A) (k : A → M W B) :
  moves a b R m → (∀ x, R x → moves b c R' (k x)) → moves a c R' (bind m k).
Proof.
  intros Hm Hk w Hw Ha. apply wp_bind. eapply wp_moves; [done..|]. intros x w1 M1 I1 L1 Rx.
  eapply wp_moves; [by apply Hk|done..|]. intros y w2 M2 I2 L2 Ry.
  split; [by eapply moved_trans|done].
Qed.

(** Steps that change neither the context nor the accounts. *)
Lemma moved_still w w' :
  ts_inv w → ts_step w w' → k_same (w_k w) (w_k w') → ts_ctx (w_db w') = ts_ctx (w_db w) → moved w w'.
Proof.
  intros [Hc _] Hst [Kl Ks Kh] Hctx. split; [done|by rewrite Hctx|done| |by rewrite Hctx|].
  - intros s. unfold slack, ts_held. rewrite Ks, Hctx.
    pose proof (ts_step_slabs _ _ Hst) as (-> & _ & -> & _). done.
  - intros i. left. unfold used, ctx_streams. by rewrite Hctx.
Qed.

Lemma moves_still a {A} (m : M W A) :
  (∀ w, wp m (λ _ w', ts_step w w' ∧ k_same (w_k w) (w_k w') ∧ ts_ctx (w_db w') = ts_ctx (w_db w)) w) →
  moves a a any m.
Proof.
  intros Hm w Hw Ha. eapply wp_mono; [apply Hm|]. intros r w' (Hst & Hk & Hctx).
  split; [by apply moved_still|]. split; [|done]. by rewrite (same_lock _ _ Hk).
Qed.

Lemma moves_on_fs a {A} (op : FS → A * FS) : moves a a any (on_fs op : M W A).
Proof. apply moves_still. intros w. apply wp_on_fs. intros r fs' _. split; [apply ts_step_fs|done]. Qed.

Lemma moves_on_k a {A} (op : K → A * K) : (∀ k, k_same k (op k).2) → moves a a any (on_k op : M W A).
Proof.
  intros Hop. apply moves_still. intros w. apply wp_on_k. intros r k' Heq.
  split; [apply ts_step_k|]. specialize (Hop (w_k w)). by rewrite Heq in Hop.
Qed.

Lemma moves_on_k_ a (op : K → K) : (∀ k, k_same k (op k)) → moves a a any (on_k_ op : M W unit).
Proof. intros Hop. apply moves_still. intros w. apply wp_on_k_. split; [apply ts_step_k|by split; try apply Hop]. Qed.

Lemma moves_gets a {A} (f : W → A) : moves a a any (mgets f).
Proof. apply moves_still. intros w. by apply wp_gets. Qed.

Lemma moves_db_get a {A} (f : zdb_t → A) : moves a a any (db_get f : M W A).
Proof. apply moves_gets. Qed.

Lemma moves_noise a {A} (m : M W A) : (∀ w, wp m (λ _ w', noise w w') w) → moves a a any m.
Proof.
  intros Hm. apply moves_still. intros w. eapply wp_mono; [apply Hm|]. intros r w' N.
  split; [by apply ts_step_noise|]. split; [apply N|by rewrite (no_db _ _ N)].
Qed.

Lemma moves_stat a f : moves a a any (ZDB_STAT_UPD (Some the_db) f : M W unit).
Proof. apply moves_noise. intros w. by apply wp_stat_upd. Qed.

Lemma moves_health a : moves a a any (zdb_health_check (Some the_db) : M W unit).
Proof. apply moves_noise. intros w. by apply wp_health_noise. Qed.

Lemma moves_decode a v base raw : moves a a any (zdb_ts_record_decode_as (Some the_db) v base raw : M W _).
Proof. apply moves_noise. intros w. by apply wp_decode_as. Qed.

Lemma moves_emit a ty name sts v fl tr st :
  moves a a any (zdb_emit_ts_event (Some the_db) ty name sts v fl tr st : M W unit).
Proof.
  apply moves_still. intros w. apply wp_emit_ts. intros e w' _ _ _ _ _ _ _ E.
  split; [by eapply ts_step_emitted|]. split; [apply E|by rewrite (em_db _ _ _ E)].
Qed.

Lemma moves_event a ts ty name sts v fl tr st :
  ts = Some the_db →
  moves a a any (if CONFIG_ZDB_EVENTING then zdb_emit_ts_event ts ty name sts v fl tr st else ret tt : M W unit).
Proof.
  intros Hts. apply moves_still. intros w. apply wp_ts_event; [done|]. intros w' n E.
  split; [by eapply ts_step_emitted|]. split; [apply E|by rewrite (em_db _ _ _ E)].
Qed.

(** ** The lock *)

Lemma wp_inv_lock db (Q : zdb_status_t → W → Prop) w :
  ts_inv w →
  (∀ w', moved w w' → lock_depth (w_k w') = S (lock_depth (w_k w)) → Q ZDB_OK w') →
  (∀ w', moved w w' → lock_depth (w_k w') = lock_depth (w_k w) → Q ZDB_ERR_BUSY w') →
  wp (zdb_lock_write db) Q w.
Proof.
  intros Hw Hok Hbusy. apply wp_ts_lock.
  - intros k' Hl Hs Hh. apply Hok; [|done]. split; [apply ts_step_k|apply Hw|done| |done|by left].
    intros s. unfold slack. simpl. by rewrite Hs.
  - intros k' Hk. apply Hbusy; [|apply (same_lock _ _ Hk)]. by apply moved_still; [|apply ts_step_k|..].
Qed.

Lemma moves_lock a b {B} (R : B → Prop) db (X : zdb_status_t → M W B) (Y : M W B) :
  (∀ rc, moves a b R (X rc)) → moves (S a) b R Y →
  moves a b R (rc ← zdb_lock_write db; if negb (bool_decide (rc = ZDB_OK)) then X rc else Y).
Proof.
  intros Hb Hok w Hw Ha. apply wp_bind, wp_inv_lock; [done|..]; intros w1 M1 L1; cbn.
  - eapply wp_moves; [exact Hok|by eapply moved_inv|congruence|]. intros r w2 M2 I2 L2 Rr.
    split; [by eapply moved_trans|done].
  - eapply wp_moves; [apply Hb|by eapply moved_inv|congruence|]. intros r w2 M2 I2 L2 Rr.
    split; [by eapply moved_trans|done].
Qed.

Lemma counted_at_sim c c' i name n : ctx_sim c c' → counted_at c i name n → counted_at c' i name n.
Proof.
  intros Hsim (x & s & -> & Hs & Hu & Hn & Ho). destruct c' as [x'|]; [|done].
  destruct (Forall2_lookup_l _ _ _ _ _ Hsim Hs) as (s' & Hs' & fb & db & ->).
  by exists x', (s <| pending_flush_bytes := fb |> <| pending_discarded_bytes := db |>).
Qed.

Lemma counted_sim c c' name n : ctx_sim c c' → counted c name n → counted c' name n.
Proof. intros Hsim [i H]. exists i. by eapply counted_at_sim. Qed.

Lemma used_sim d d' i : ctx_sim (ts_ctx d) (ts_ctx d') → used d' i = used d i.
Proof.
  unfold used, ctx_streams. intros Hsim. destruct (ts_ctx d) as [c|], (ts_ctx d') as [c'|]; try done.
  pose proof (proj1 (Forall2_lookup _ _ _) Hsim i) as H. destruct H as [s s' (fb & db & ->)|]; done.
Qed.

Lemma moves_unlock a db : moves (S a) a any (zdb_unlock_write db : M W unit).
Proof.
  intros w Hw Ha. apply wp_ts_unlock. intros w' Hst Hfs Hctx Hlk Hs Hh.
  pose proof (settle_sim (ts_ctx (w_db w))) as Hsim. rewrite <- Hctx in Hsim.
  split; [|split; [by rewrite Hlk, Ha|done]]. split; [done| |done| | |].
  - eapply ctx_ok_sim; [exact Hsim|apply Hw].
  - intros s. pose proof (ts_step_slabs _ _ Hst) as (Hc & _ & Hi & _).
    unfold slack. by rewrite Hs, (ts_held_sim _ _ _ Hsim Hc Hi).
  - intros i name n. by apply counted_at_sim.
  - intros i. left. by apply used_sim.
Qed.

(** ** Slots *)

Lemma moves_slot_get a i : moves a a slot_ok (slot_get i : M W zdb_ts_stream_ctx).
Proof.
  intros w Hw Ha. apply wp_gets. split; [by apply moved_refl|]. split; [done|].
  unfold ctx_streams. destruct Hw as [Hc _]. destruct (ts_ctx (w_db w)) as [c|]; [|apply zero_stream_ok].
  destruct (streams c !! i) as [s|] eqn:Hs; simpl; [by eapply sl_ok|apply zero_stream_ok].
Qed.

(** A slot keeps its stream, its handles and its buffer. *)
Record slot_keeps (s s' : zdb_ts_stream_ctx) : Prop := {
  kp_in_use : in_use s' = in_use s;
  kp_name : st_name s' = st_name s;
  kp_count : open_count s' = open_count s;
  kp_buf : has_buf s' = has_buf s;
}.

Lemma used_alter d i f :
  (∀ s, ctx_streams d !! i = Some s → ingest_used (f s) = ingest_used s ∨ ingest_used (f s) = 0) →
  ∀ j, let d' := d <| ts_ctx ::= option_map (λ c, c <| streams ::= alter f i |>) |> in
    used d' j = used d j ∨ used d' j = 0.
Proof.
  unfold used, ctx_streams. intros Hf j. simpl. destruct (ts_ctx d) as [c|]; [|by left]. simpl.
  destruct (decide (i = j)) as [<-|Hne]; [|left; by rewrite list_lookup_alter_ne].
  rewrite list_lookup_alter_eq. destruct (streams c !! i) as [s|] eqn:Hs; [|by left]. simpl. by apply Hf.
Qed.

Lemma counted_alter c i f j name n :
  (∀ s, streams c !! i = Some s → in_use s = true → st_name s = name →
     in_use (f s) = true ∧ st_name (f s) = name ∧ (open_count s ≤ open_count (f s))%Z) →
  counted_at (Some c) j name n → counted_at (Some (c <| streams ::= alter f i |>)) j name n.
Proof.
  intros Hf (x & s & [= <-] & Hs & Hu & Hn & Ho). exists (c <| streams ::= alter f i |>). destruct (decide (i = j)) as [<-|Hne].
  - destruct (Hf s Hs Hu Hn) as (? & ? & ?). exists (f s). split_and!; [done| |done|done|lia].
    simpl. by rewrite list_lookup_alter_eq, Hs.
  - exists s. split_and!; [done| |done..]. simpl. by rewrite list_lookup_alter_ne.
Qed.

(** Updating a slot that keeps its buffer changes no account. *)
Lemma slot_effect w i f (w' := w <| w_db := (w_db w) <| ts_ctx ::= option_map (λ c, c <| streams ::= alter f i |>) |> |>) :
  ts_inv w → (∀ s, ctx_streams (w_db w) !! i = Some s → slot_ok s → slot_ok (f s) ∧ slot_keeps s (f s)) →
  ctx_ok (ts_ctx (w_db w')) ∧ (∀ t, slack w' t = slack w t) ∧
  ∀ j name n, counted_at (ts_ctx (w_db w)) j name n → counted_at (ts_ctx (w_db w')) j name n.
Proof.
  intros [Hc Hp] Hf. unfold ctx_streams in Hf.
  assert (ts_ctx (w_db w') = option_map (λ c, c <| streams ::= alter f i |>) (ts_ctx (w_db w))) as Hctx by done.
  split_and!.
  - rewrite Hctx. destruct (ts_ctx (w_db w)) as [c|]; [|done]. apply slots_ok_alter; [done|].
    intros s Hs. destruct (Hf s Hs) as [Hok [Hu Hn _ _]]; [by eapply sl_ok|]. split; [done|].
    rewrite Hu, Hn. intros ?. by left.
  - intros t. unfold slack, ts_held. rewrite Hctx. destruct (ts_ctx (w_db w)) as [c|]; [|done]. simpl.
    f_equal. f_equal. destruct (streams c !! i) as [s|] eqn:Hs.
    + pose proof (ingest_bufs_alter f i (streams c) s Hs) as Hb.
      destruct (Hf s eq_refl) as [_ [_ _ _ Hk]]; [by eapply sl_ok|].
      by replace (ingest_bufs (alter f i (streams c))) with (ingest_bufs (streams c)) by lia.
    + by rewrite alter_none.
  - intros j name n. rewrite Hctx. destruct (ts_ctx (w_db w)) as [c|]; [|done]. apply counted_alter.
    intros s Hs Hu <-. destruct (Hf s Hs) as [_ [? ? ? _]]; [by eapply sl_ok|]. split_and!; [congruence..|lia].
Qed.

Lemma moved_slot w i f :
  ts_inv w →
  (∀ s, ctx_streams (w_db w) !! i = Some s → slot_ok s → slot_ok (f s) ∧ slot_keeps s (f s)) →
  (∀ s, ingest_used (f s) = ingest_used s ∨ ingest_used (f s) = 0) →
  moved w (w <| w_db := (w_db w) <| ts_ctx ::= option_map (λ c, c <| streams ::= alter f i |>) |> |>).
Proof.
  intros Hw Hf Hu. destruct (slot_effect w i f Hw Hf) as (Hok & Hsl & Hcnt).
  split; [apply ts_step_set_ctx|done..|]. apply used_alter. intros s _. apply Hu.
Qed.

(** An update of one slot that may take or return its buffer. *)
Definition with_slots w (f : list zdb_ts_stream_ctx → list zdb_ts_stream_ctx) : W :=
  w <| w_db := (w_db w) <| ts_ctx ::= option_map (λ c, c <| streams ::= f |>) |> |>.

Lemma slack_alter w k' c i f s0 t :
  ts_ctx (w_db w) = Some c → streams c !! i = Some s0 →
  (slab_used k' t + opt_frees (has_buf s0) (ts_ingest_slab (w_db w)) t =
   slab_used (w_k w) t + opt_frees (has_buf (f s0)) (ts_ingest_slab (w_db w)) t) →
  slack (with_slots (w <| w_k := k' |>) (alter f i)) t = slack w t.
Proof.
  intros Hctx Hs Hk. unfold slack, ts_held, with_slots. simpl. rewrite Hctx. simpl.
  pose proof (ingest_bufs_alter f i (streams c) s0 Hs).
  unfold opt_frees, frees in *. destruct (ts_ingest_slab (w_db w)); repeat case_decide; lia.
Qed.

Lemma moved_alter w k' c i f s0 :
  ts_inv w → ts_ctx (w_db w) = Some c → streams c !! i = Some s0 → slot_ok (f s0) →
  (in_use (f s0) = true → in_use s0 = true ∧ st_name (f s0) = st_name s0 ∨
     ∀ j t, streams c !! j = Some t → in_use t = true → st_name t ≠ st_name (f s0)) →
  (in_use s0 = true → in_use (f s0) = true ∧ st_name (f s0) = st_name s0 ∧ (open_count s0 ≤ open_count (f s0))%Z) →
  (ingest_used (f s0) = ingest_used s0 ∨ ingest_used (f s0) = 0) →
  heap_used k' = heap_used (w_k w) →
  (∀ t, slab_used k' t + opt_frees (has_buf s0) (ts_ingest_slab (w_db w)) t =
        slab_used (w_k w) t + opt_frees (has_buf (f s0)) (ts_ingest_slab (w_db w)) t) →
  moved w (with_slots (w <| w_k := k' |>) (alter f i)).
Proof.
  intros [Hc Hp] Hctx Hs Hok Hname Hcount Hused Hh Hk. split.
  - split; [by destruct w as [[] ? ? ? ?]|done|]. exists []. by rewrite app_nil_r.
  - simpl. rewrite Hctx in *. apply slots_ok_alter; [done|]. intros s Hs'. rewrite Hs in Hs'. by injection Hs' as <-.
  - done.
  - intros t. by eapply slack_alter.
  - intros j name n. simpl. rewrite Hctx. apply counted_alter. intros s Hs' Hu <-.
    rewrite Hs in Hs'. injection Hs' as <-. by apply Hcount.
  - apply (used_alter (w_db w)). intros s. unfold ctx_streams. rewrite Hctx. intros Hs'. rewrite Hs in Hs'. by injection Hs' as <-.
Qed.

Lemma moves_slot_upd a i f :
  (∀ s, slot_ok s → slot_ok (f s) ∧ slot_keeps s (f s)) →
  (∀ s, ingest_used (f s) = ingest_used s ∨ ingest_used (f s) = 0) →
  moves a a any (slot_upd i f : M W unit).
Proof.
  intros Hf Hu w Hw Ha. apply wp_db_set. split; [|done]. apply moved_slot; [done| |done]. intros s _. apply Hf.
Qed.

(** Fields of the context other than the slots. *)
Lemma moves_ctx_upd a f :
  (∀ c, streams (f c) = streams c) → moves a a any (ctx_upd f : M W unit).
Proof.
  intros Hf w Hw Ha. apply wp_db_set. split; [|done]. split; [apply ts_step_set_ctx| |done| | |]; simpl.
  - destruct Hw as [Hc _]. destruct (ts_ctx (w_db w)); [|done]. simpl in *. by rewrite Hf.
  - intros s. unfold slack, ts_held. simpl. destruct (ts_ctx (w_db w)); [|done]. simpl. by rewrite Hf.
  - intros i name n (x & s & -> & Hs & H). exists (f x), s. split; [done|]. by rewrite Hf.
  - intros i. left. unfold used, ctx_streams. simpl. destruct (ts_ctx (w_db w)); [|done]. simpl. by rewrite Hf.
Qed.

End logic.
