(* ===== verification/TsMoves.v ===== *)
(** * Every time-series operation preserves the invariant

    [moves] for the programs of [TsStore], [TsSegment], [TsCursor] and
    [TsRecover] that take nothing for their caller, whatever the file system and
    the kernel answer: the proofs follow the text of the programs, with the
    rules of [TsInv]. [TsAccount] has the calls that do take something. *)

From S2P Require Import Prelude Config Env Types FsEnv FsSpec Events CoreSpec Cursor TsFormat.
From S2P Require Import TsFormatSpec TsSpec TsStore TsSegment TsCursor TsRecover Doubles TsOps TsInv.

Create HintDb moves.
#[export] Hint Resolve moves_on_fs moves_gets moves_db_get moves_stat moves_health moves_decode moves_emit
  moves_unlock moves_slot_get : moves.
#[export] Hint Extern 1 (moves _ _ _ (on_k _)) =>
  apply moves_on_k; intros ?;
  first [apply k_uptime_get_law|apply k_work_submit_law|apply k_work_runs_law|apply k_sem_take_law] : moves.
#[export] Hint Extern 1 (moves _ _ _ (on_k_ _)) =>
  apply moves_on_k_; intros ?;
  first [apply k_yield_law|apply k_sem_reset_law|apply k_sem_give_law] : moves.
#[export] Hint Extern 1 (moves _ _ _ (ctx_upd _)) => apply moves_ctx_upd; intros ?; reflexivity : moves.
#[export] Hint Extern 1 (moves _ _ _ (if CONFIG_ZDB_EVENTING then zdb_emit_ts_event _ _ _ _ _ _ _ _ else ret tt)) =>
  apply moves_event; first [reflexivity|assumption] : moves.

(** One construct of a program: a known call, a lock, a sequence, a branch. *)
Ltac mv_step :=
  lazymatch goal with
  | |- moves _ _ _ (ret _) => apply moves_ret
  | |- moves _ _ _ (bind (zdb_lock_write _) _) => apply moves_lock; [intros ?|]
  | |- moves _ _ _ (bind (zdb_lock_read _) _) => apply moves_lock; [intros ?|]
  | |- moves ?a _ _ (bind _ _) =>
      first [ eapply moves_bind; [solve [eauto 2 with moves]|intros ? ?]
            | apply (moves_bind a a _ any); [|intros ? _] ]
  | |- moves _ _ _ (match ?x with _ => _ end) => destruct x eqn:?
  | |- moves _ _ _ _ => solve [eauto 2 with moves]
  end.
Ltac mv := repeat (mv_step; cbn beta iota); try exact I.

Section moves.
Context {Cfg : Config} {CfgOk : ConfigOk Cfg} {K F FS FH DH : Type}.
Context `{!Kernel K, !KernelLaws K, !FileSys FS FH DH}.
Context {CRC : Crc32}.
Abbreviation W := (world K F FS).
Implicit Types w : W.

(** ** Headers *)

Lemma moves_ensure_stream_dir a c ctx :
  moves a a any (zdb_ts_ensure_stream_dir c ctx : M W Z).
Proof. unfold zdb_ts_ensure_stream_dir. mv. Qed.

(** The version a header reports, if any, is one the records have. *)
Definition header_version (r : zdb_status_t * option (Z * Z)) : Prop :=
  ∀ v, r.2 = Some v → version_ok v.1.

Lemma new_header_known name base : version_ok (new_header name base).2.1.
Proof. unfold new_header. destruct CONFIG_ZDB_TS_DELTA_ENCODING; [by right|by left]. Qed.

Lemma moves_create_header a fh (h : list byte * (Z * Z)) :
  version_ok h.2.1 → moves a a header_version (create_header fh h : M W _).
Proof.
  intros Hv. unfold create_header. mv; intros u Hu; repeat case_match; simplify_eq/=; done.
Qed.

Lemma moves_header_decode a raw name :
  moves a a (λ rc, rc = ZDB_OK → get_le 2 raw 4 = ZDB_TS_STREAM_VERSION)
    (zdb_ts_stream_header_decode (Some the_db) (Some (take sizeof_stream_header raw)) name : M W zdb_status_t).
Proof.
  unfold zdb_ts_stream_header_decode. mv; try done. intros _.
  rewrite get_le_take in * by (unfold sizeof_stream_header; lia).
  match goal with H : negb (_ =? ZDB_TS_STREAM_VERSION)%Z = false |- _ => revert H end.
  by intros ?%negb_false_iff%Z.eqb_eq.
Qed.

Lemma moves_header_v2_decode a raw name :
  moves a a any (stream_header_v2_decode (Some the_db) raw name : M W zdb_status_t).
Proof. unfold stream_header_v2_decode. mv. Qed.
#[local] Hint Resolve moves_header_v2_decode moves_header_decode : moves.

Lemma moves_check_header a name rd raw :
  moves a a header_version (check_header (Some the_db) name rd raw : M W _).
Proof.
  unfold check_header. mv; intros v Hr; simpl in Hr; try done.
  - case_bool_decide; [|done]. injection Hr as <-. right. by apply Z.eqb_eq.
  - case_bool_decide; [|done]. injection Hr as <-. left. simpl. auto.
Qed.

Lemma moves_ensure_header_ex a name path base :
  moves a a header_version (zdb_ts_ensure_header_ex (Some the_db) name path base : M W _).
Proof.
  unfold zdb_ts_ensure_header_ex. mv; try (intros ? [=]).
  - apply moves_create_header, new_header_known.
  - apply moves_check_header.
Qed.
#[local] Hint Resolve moves_ensure_stream_dir moves_ensure_header_ex : moves.

Lemma moves_ensure_stream_header a name :
  moves a a any (zdb_ts_ensure_stream_header (Some the_db) name : M W zdb_status_t).
Proof. unfold zdb_ts_ensure_stream_header, zdb_ts_ensure_header_at. mv. Qed.

(** ** Segments *)

Lemma moves_scan_dir a fuel name dir acc : moves a a any (scan_dir fuel name dir acc : M W _).
Proof. revert dir acc. induction fuel as [|fuel IH]; intros dir acc; simpl; mv. Qed.

Lemma moves_adopt_legacy a c name : moves a a any (adopt_legacy c name : M W _).
Proof. unfold adopt_legacy. mv. Qed.
#[local] Hint Resolve moves_scan_dir moves_adopt_legacy moves_ensure_stream_header : moves.

(** Updates that leave a slot's stream, handles and buffer alone. *)
Definition tame (f : zdb_ts_stream_ctx → zdb_ts_stream_ctx) : Prop :=
  (∀ s, slot_ok s → slot_ok (f s) ∧ slot_keeps s (f s)) ∧
  ∀ s, ingest_used (f s) = ingest_used s ∨ ingest_used (f s) = 0.

Lemma moves_tame a i f : tame f → moves a a any (slot_upd i f : M W unit).
Proof. intros []. by apply moves_slot_upd. Qed.

Lemma slot_layout_tame v : version_ok v.1 → tame (slot_layout v).
Proof.
  intros Hv. split; [|by left]. intros s [Hl Hu Hf]. split; [|done]. split; [by right|done..].
Qed.

#[local] Hint Extern 1 (moves _ _ _ (slot_upd _ _)) =>
  apply moves_tame; split; [intros ? []; split; split; done|intros ?; by left] : moves.

Lemma moves_layout a i st o :
  header_version (st, o) →
  moves a a any (slot_upd i (slot_layout (default (ZDB_TS_STREAM_VERSION, 0%Z) o)) : M W unit).
Proof.
  intros Hr. apply moves_tame, slot_layout_tame. destruct o as [v|]; [by apply Hr|by left].
Qed.
#[local] Hint Extern 1 (moves _ _ _ (slot_upd _ (slot_layout _))) =>
  eapply moves_layout; eassumption : moves.

Lemma moves_scan_segments a db i : moves a a any (zdb_ts_scan_segments db i : M W _).
Proof. destruct db. unfold zdb_ts_scan_segments. mv. Qed.

Lemma moves_discard_oldest a fuel i : moves a a any (discard_oldest fuel i : M W _).
Proof. induction fuel as [|fuel IH]; simpl; mv. Qed.
#[local] Hint Resolve moves_scan_segments moves_discard_oldest : moves.

Lemma moves_start_segment a db i base : moves a a any (zdb_ts_start_segment db i base : M W _).
Proof. destruct db. unfold zdb_ts_start_segment. mv. Qed.
#[local] Hint Resolve moves_start_segment : moves.

Lemma moves_roll_segment a db i : moves a a any (zdb_ts_roll_segment_if_full db i : M W _).
Proof. unfold zdb_ts_roll_segment_if_full. mv. Qed.

Lemma moves_active_path a db i len : moves a a any (zdb_ts_active_path db i len : M W _).
Proof. unfold zdb_ts_active_path. mv. Qed.

Lemma moves_append_file a path data : moves a a any (append_file path data : M W Z).
Proof. unfold append_file. mv. Qed.
#[local] Hint Resolve moves_roll_segment moves_active_path moves_append_file : moves.

(** ** Flushing *)

Lemma moves_emptied a i : moves a a any (slot_upd i (λ s, s <| ingest_used := 0 |>) : M W unit).
Proof.
  apply moves_tame. split; [|by right]. intros s [Hl Hu Hf]. split; [|done]. split; [done| |done].
  intros (Hb & Hc & _ & Hn)%Hu. do 2 (split; [done|]). split; [simpl; lia|done].
Qed.
#[local] Hint Resolve moves_emptied : moves.

Lemma moves_flush_buffer a db i : moves a a any (zdb_ts_flush_buffer_locked db i : M W Z).
Proof. unfold zdb_ts_flush_buffer_locked. mv. Qed.
#[local] Hint Resolve moves_flush_buffer : moves.

Lemma moves_flush_slots a db l d : moves a a any (flush_slots db l d : M W drain).
Proof. revert d. induction l as [|i l IH]; intros d; simpl; mv. Qed.
#[local] Hint Resolve moves_flush_slots : moves.

Lemma moves_flush_all a db : moves a a any (zdb_ts_flush_all_locked db : M W drain).
Proof. unfold zdb_ts_flush_all_locked. mv. Qed.
#[local] Hint Resolve moves_flush_all : moves.

(** ** The context and its slots *)

Lemma ingest_bufs_zero n : ingest_bufs (replicate n zero_stream) = 0.
Proof. induction n as [|n IH]; [done|]. simpl. by rewrite ingest_bufs_cons, IH. Qed.

Lemma zero_slots_ok : slots_ok (replicate CONFIG_ZDB_TS_MAX_STREAMS zero_stream).
Proof.
  split.
  - intros i s [-> _]%lookup_replicate. apply zero_stream_ok.
  - apply length_replicate.
  - intros i j s t [-> _]%lookup_replicate. done.
Qed.

Lemma moves_ctx_alloc a db : moves a a any (zdb_ts_ctx_get_or_alloc db : M W bool).
Proof.
  destruct db as [db|]; [|by apply moves_ret]. intros w Hw Ha. unfold zdb_ts_ctx_get_or_alloc.
  apply wp_bind, wp_db_get, wp_bind, wp_db_get.
  destruct (core_slab (w_db w)) as [sl|] eqn:Hsl; [|by apply moves_ret].
  destruct (cfg (w_db w)); [|by apply moves_ret]. apply wp_bind, wp_db_get.
  destruct (ts_ctx (w_db w)) eqn:Hctx; [by apply moves_ret|].
  apply wp_bind, wp_on_k. intros rc k' Hal. pose proof (k_mem_slab_alloc_law sl (w_k w)) as (Hl & Hh & Hs).
  rewrite Hal in Hl, Hh, Hs. simpl in Hl, Hh, Hs. destruct (Z.eqb_spec rc 0) as [->|Hrc]; cbn [negb].
  - apply wp_bind, wp_on_k_, wp_bind, wp_db_set, wp_ret. pose proof (k_sem_reset_law k') as [Rl Rs Rh].
    split; [|split; [simpl; congruence|done]]. split.
    + split; [by destruct w as [[] ? ? ? ?]|done|]. exists []. by rewrite app_nil_r.
    + apply zero_slots_ok.
    + simpl. congruence.
    + intros s. unfold slack, ts_held. simpl. rewrite Rs, Hs, Hctx, Hsl. simpl.
      rewrite ingest_bufs_zero. unfold opt_frees, frees.
      destruct (ts_ingest_slab (w_db w)); repeat case_decide; naive_solver lia.
    + intros i name n (x & s & Hx & _). simpl in Hx. congruence.
    + intros i. right. unfold used, ctx_streams. simpl.
      destruct (replicate _ _ !! i) as [s|] eqn:Hi; [|done]. by apply lookup_replicate in Hi as [-> _].
  - apply wp_ret. split; [|split; [simpl; congruence|done]].
    apply moved_still; [done|apply ts_step_k| |done]. split; [done| |done].
    intros s. rewrite Hs, decide_False; [done|]. naive_solver.
Qed.
#[local] Hint Resolve moves_ctx_alloc : moves.

Lemma counted_slot c name i s n :
  slots_ok (streams c) → streams c !! i = Some s → in_use s = true → st_name s = name →
  counted (Some c) name n ↔ (n ≤ open_count s)%Z.
Proof.
  intros Hok Hs Hu Hn. split.
  - intros (j & x & t & [= <-] & Ht & Hut & Hnt & Hle).
    assert (i = j) as <- by (eapply (sl_names _ Hok); [exact Hs|exact Ht|done|done|congruence]).
    rewrite Hs in Ht. by injection Ht as <-.
  - intros Hle. by exists i, c, s.
Qed.

(** Claiming a slot adds a handle, but for the 256th. *)
Definition claimed (name : cstring) w w' : Prop :=
  counted (ts_ctx (w_db w')) name 1 ∧
  ∀ n, counted (ts_ctx (w_db w)) name n → (n < 255)%Z → counted (ts_ctx (w_db w')) name (n + 1).

Lemma wp_slot_claim_again name c i s (Q : option nat → W → Prop) w :
  ts_inv w → ts_ctx (w_db w) = Some c → streams c !! i = Some s → in_use s = true → st_name s = name →
  (∀ w', moved w w' → lock_depth (w_k w') = lock_depth (w_k w) → claimed name w w' → Q (Some i) w') →
  wp ((if (open_count s <? 255)%Z then slot_upd i (λ s, s <| open_count ::= Z.succ |>) else ret tt);; ret (Some i))
    Q w.
Proof.
  intros Hw Hctx Hs Hu Hn HQ. pose proof (ti_ctx _ Hw) as Hok. rewrite Hctx in Hok. simpl in Hok.
  pose proof (sl_ok _ Hok _ _ Hs) as Hsok. destruct (so_used _ Hsok Hu) as (Hb & Hc & Hle & Hoc & Hlen).
  apply wp_bind. destruct (Z.ltb_spec (open_count s) 255) as [Hlt|Hge].
  - apply wp_db_set, wp_ret.
    set (f := λ s : zdb_ts_stream_ctx, s <| open_count ::= Z.succ |>).
    assert (moved w (with_slots (w <| w_k := w_k w |>) (alter f i))) as M.
    { apply (moved_alter _ _ c _ _ s); [done..| | | |by left|done|done].
      - split; [apply Hsok| |apply Hsok]. intros _. split_and!; try done; simpl; lia.
      - intros _. by left.
      - intros _. split_and!; [done..|simpl; lia]. }
    apply HQ; [exact M|done|].
    assert (∀ n, (n ≤ open_count s + 1)%Z → counted (ts_ctx (w_db (with_slots (w <| w_k := w_k w |>) (alter f i)))) name n) as Hcnt.
    { intros n Hn'. simpl. rewrite Hctx. simpl. eexists i, _, (f s). split; [done|].
      split_and!; [simpl; by rewrite list_lookup_alter_eq, Hs|done|done|simpl; lia]. }
    split; [apply Hcnt; lia|]. intros n Hn' _. apply Hcnt.
    rewrite Hctx, (counted_slot _ _ _ _ _ Hok Hs Hu Hn) in Hn'. lia.
  - apply wp_ret, wp_ret, HQ; [by apply moved_refl|done|].
    split; [|intros n _ Hlt]; rewrite Hctx, (counted_slot _ _ _ _ _ Hok Hs Hu Hn); lia.
Qed.

Lemma wp_slot_claim name (Q : option nat → W → Prop) w :
  ts_inv w → length name ≤ CONFIG_ZDB_TS_STREAM_NAME_MAX_LEN →
  (∀ r w', moved w w' → lock_depth (w_k w') = lock_depth (w_k w) →
     (is_Some r → claimed name w w') → Q r w') →
  wp (zdb_ts_slot_claim name) Q w.
Proof.
  intros Hw Hname HQ. unfold zdb_ts_slot_claim. apply wp_bind, wp_db_get.
  destruct (ts_ctx (w_db w)) as [c|] eqn:Hctx; cycle 1.
  { cbn [zdb_ts_slot_find]. apply wp_bind, wp_db_get. unfold ctx_streams. rewrite Hctx. cbn [slot_index].
    apply wp_ret, HQ; [by apply moved_refl|done|by intros []]. }
  assert (ctx_streams (w_db w) = streams c) as Hst by (unfold ctx_streams; by rewrite Hctx).
  pose proof (ti_ctx _ Hw) as Hok. rewrite Hctx in Hok. simpl in Hok.
  destruct (zdb_ts_slot_find (Some c) (Some name)) as [i|] eqn:Hfind.
  { pose proof (slot_find_Some _ _ _ Hfind) as (s & Hs & Hu & Hn).
    apply wp_bind, wp_gets. rewrite Hst, Hs. cbn [default from_option id].
    eapply wp_slot_claim_again; [done..|]. intros w' M L C. by apply HQ. }
  apply wp_bind, wp_db_get. rewrite Hst.
  destruct (slot_index _ _ _) as [i|] eqn:Hfree; cycle 1.
  { apply wp_ret, HQ; [by apply moved_refl|done|by intros []]. }
  apply slot_index_Some in Hfree as (s & Hs & Hu%negb_true_iff & _). rewrite Nat.sub_0_r in Hs.
  pose proof (sl_ok _ Hok _ _ Hs) as Hsok.
  set (z := zero_stream <| st_name := strncpy_trunc CONFIG_ZDB_TS_STREAM_NAME_MAX_LEN name |>
              <| ingest_capacity := Nat.min CONFIG_ZDB_TS_INGEST_BUFFER_BYTES CONFIG_ZDB_TS_INGEST_SLAB_BLOCK_SIZE |>).
  cbv zeta. apply wp_bind, wp_db_set.
  set (w1 := w <| w_db ::= _ |>).
  assert (moved w w1) as M1.
  { apply (moved_alter w (w_k w) c i (λ _, z) s); [done..| | | |by right|done|].
    - by split; [left|..].
    - done.
    - congruence.
    - intros t. unfold has_buf. by rewrite (so_free _ Hsok Hu). }
  pose proof (moved_inv _ _ M1 Hw) as Hw1.
  set (c1 := c <| streams ::= alter (λ _, z) i |>).
  assert (ts_ctx (w_db w1) = Some c1) as Hctx1 by (unfold w1; simpl; by rewrite Hctx).
  assert (streams c1 !! i = Some z) as Hz by (simpl; by rewrite list_lookup_alter_eq, Hs).
  apply wp_bind, wp_db_get. destruct (ts_ingest_slab (w_db w1)) as [sl|] eqn:Hsl; cycle 1.
  { apply wp_ret, HQ; [done|done|by intros []]. }
  apply wp_bind, wp_on_k. intros rc k' Hal.
  pose proof (k_mem_slab_alloc_law sl (w_k w1)) as (Hl & Hh & Hk). rewrite Hal in Hl, Hh, Hk. simpl in Hl, Hh, Hk.
  destruct (Z.eqb_spec rc 0) as [->|Hrc]; cbn [negb]; cycle 1.
  { apply wp_ret, HQ; [|simpl; exact Hl|by intros []]. eapply moved_trans; [exact M1|].
    apply moved_still; [done|apply ts_step_k| |done]. split; [done| |done].
    intros s'. rewrite Hk, decide_False; [done|]. naive_solver. }
  set (g := λ s : zdb_ts_stream_ctx, _) at 1. apply wp_bind, wp_db_set, wp_ret.
  assert (st_name (g z) = name) as Hgn by (unfold g, z, strncpy_trunc; simpl; by apply take_ge).
  assert (moved w1 (with_slots (w1 <| w_k := k' |>) (alter g i))) as M2.
  { apply (moved_alter w1 k' c1 i g z); [done..| | |done|by left|done|].
    - split; [by left| |done]. intros _. split_and!; try done.
      + eexists. split; [done|]. apply length_replicate.
      + simpl. lia.
      + rewrite Hgn. done.
    - intros _. right. intros j t Ht Hut. rewrite Hgn. simpl in Ht.
      destruct (decide (i = j)) as [<-|Hne].
      + rewrite list_lookup_alter_eq, Hs in Ht. injection Ht as <-. done.
      + rewrite list_lookup_alter_ne in Ht by done. by eapply slot_find_None.
    - intros t. rewrite Hsl, Hk. unfold opt_frees, frees, has_buf. simpl. repeat case_decide; naive_solver lia. }
  apply HQ; [by eapply moved_trans|simpl; exact Hl|]. intros _. split.
  - unfold counted, counted_at. simpl. rewrite Hctx. simpl. eexists i, _, (g z). split; [done|].
    split_and!; [simpl; by rewrite list_lookup_alter_eq, list_lookup_alter_eq, Hs|done|done|done].
  - intros n (j & x & t & Hx & Ht & Hut & Hnt & _). rewrite Hctx in Hx. injection Hx as <-.
    exfalso. by eapply slot_find_None.
Qed.

(** Releasing the last handle of a slot frees it, with its buffer; before that
    it drops one handle. No other stream is concerned. *)
Record dropped (name : cstring) w w' : Prop := {
  dp_step : ts_step w w';
  dp_ctx : ctx_ok (ts_ctx (w_db w'));
  dp_heap : heap_used (w_k w') = heap_used (w_k w);
  dp_slack : ∀ s, slack w' s = slack w s;
  dp_counted : ∀ name' n, counted (ts_ctx (w_db w)) name' (if decide (name' = name) then n + 1 else n) →
    (1 ≤ n)%Z → counted (ts_ctx (w_db w')) name' n;
}.

Lemma moved_dropped name w w' : moved w w' → dropped name w w'.
Proof.
  intros M. split; [by apply M..|]. intros name' n Hn Hp.
  apply (counted_le _ _ _ n) in Hn; [by eapply mv_counted|case_decide; lia].
Qed.

Lemma dropped_moved name w1 w2 w3 : moved w1 w2 → dropped name w2 w3 → dropped name w1 w3.
Proof.
  intros M [S2 C2 H2 B2 R2]. pose proof (mv_counted _ _ M) as R1. destruct M as [S1 C1 H1 B1 _ _].
  split; [by etrans|done|congruence|intros s; by rewrite B2|]. intros name' n Hn. apply R2, R1, Hn.
Qed.

Lemma dropped_then name w1 w2 w3 : dropped name w1 w2 → moved w2 w3 → dropped name w1 w3.
Proof.
  intros [S1 C1 H1 B1 R1] M. pose proof (mv_counted _ _ M) as R2. destruct M as [S2 C2 H2 B2 _ _].
  split; [by etrans|done|congruence|intros s; by rewrite B2|]. intros name' n Hn Hp. by apply R2, R1.
Qed.

Lemma dropped_inv name w w' : dropped name w w' → ts_inv w → ts_inv w'.
Proof. intros [_ Hc _ Hs _] [_ Hp]. split; [done|]. intros s. by rewrite Hs. Qed.

Lemma dropped_alter name w w' c c' i f s0 :
  ts_inv w → ts_ctx (w_db w) = Some c → streams c !! i = Some s0 → in_use s0 = true → st_name s0 = name →
  slot_ok (f s0) → (in_use (f s0) = true → st_name (f s0) = name) →
  (∀ n, (1 ≤ n)%Z → (n + 1 ≤ open_count s0)%Z → in_use (f s0) = true ∧ (n ≤ open_count (f s0))%Z) →
  ts_step w w' → ts_ctx (w_db w') = Some c' → streams c' = alter f i (streams c) →
  heap_used (w_k w') = heap_used (w_k w) →
  (∀ t, slab_used (w_k w') t + opt_frees (has_buf s0) (ts_ingest_slab (w_db w)) t =
        slab_used (w_k w) t + opt_frees (has_buf (f s0)) (ts_ingest_slab (w_db w)) t) →
  dropped name w w'.
Proof.
  intros [Hc Hp] Hctx Hs Hu Hn Hok Hname Hcount Hst Hctx' Hstr Hh Hk. rewrite Hctx in Hc. simpl in Hc.
  split; [done| |done| |].
  - rewrite Hctx'. simpl. rewrite Hstr. apply slots_ok_alter; [done|].
    intros s Hs'. rewrite Hs in Hs'. injection Hs' as <-. split; [done|]. intros ?. left.
    split; [done|]. rewrite Hname; done.
  - intros t. pose proof (ts_step_slabs _ _ Hst) as (Hcs & _ & His & _).
    unfold slack, ts_held. rewrite Hctx, Hctx', Hcs, His, Hstr.
    pose proof (ingest_bufs_alter f i (streams c) s0 Hs). specialize (Hk t).
    unfold opt_frees, frees in *. destruct (ts_ingest_slab (w_db w)); repeat case_decide; lia.
  - intros name' n (j & x & s & Hx & Hs' & Hu' & Hn' & Hle) Hn1. rewrite Hctx in Hx. injection Hx as <-.
    rewrite Hctx'. exists j, c'. rewrite Hstr. destruct (decide (i = j)) as [<-|Hne].
    + rewrite Hs in Hs'. injection Hs' as <-. rewrite decide_True in Hle by congruence.
      destruct (Hcount n Hn1 Hle) as [Hfu Hfn]. exists (f s0). rewrite list_lookup_alter_eq, Hs.
      split_and!; [done..| |done]. rewrite Hname; congruence.
    + exists s. rewrite list_lookup_alter_ne by done. split_and!; [done..|]. case_decide; lia.
Qed.

Lemma wp_slot_drop name c i s (Q : bool → W → Prop) w :
  ts_inv w → ts_ctx (w_db w) = Some c → streams c !! i = Some s → in_use s = true → st_name s = name →
  (∀ r w', dropped name w w' → lock_depth (w_k w') = lock_depth (w_k w) → Q r w') →
  wp (zdb_ts_slot_release (Some i)) Q w.
Proof.
  intros Hw Hctx Hs Hu Hn HQ. pose proof (ti_ctx _ Hw) as Hok. rewrite Hctx in Hok. simpl in Hok.
  pose proof (sl_ok _ Hok _ _ Hs) as Hsok. destruct (so_used _ Hsok Hu) as ((b & Hb & Hlb) & Hc & Hle & Hoc & Hlen).
  unfold zdb_ts_slot_release. apply wp_bind, wp_gets. unfold ctx_streams. rewrite Hctx, Hs. cbn [default from_option id].
  rewrite Hu. cbn [negb]. destruct (Z.ltb_spec 1 (open_count s)) as [Hlt|Hge].
  - apply wp_bind, wp_db_set, wp_ret, HQ; [|done].
    set (f := λ s0 : zdb_ts_stream_ctx, s0 <| open_count ::= Z.pred |>).
    apply (dropped_alter name w _ c (c <| streams ::= alter f i |>) i f s Hw Hctx Hs Hu Hn); try done.
    + split; [apply Hsok| |apply Hsok]. intros _. split_and!; try done; simpl; try lia. by exists b.
    + simpl. intros n ? ?. split; [done|lia].
    + apply ts_step_set_ctx.
    + simpl. by rewrite Hctx.
  - apply wp_bind, wp_db_get. rewrite Hb. apply wp_bind.
    eapply (wp_mono _ (λ _ w1, ∃ k', w1 = w <| w_k := k' |> ∧ lock_depth k' = lock_depth (w_k w) ∧
      heap_used k' = heap_used (w_k w) ∧ ∀ t, slab_used k' t + opt_frees 1 (ts_ingest_slab (w_db w)) t = slab_used (w_k w) t)).
    { destruct (ts_ingest_slab (w_db w)) as [sl|] eqn:Hsl.
      - apply wp_on_k_. exists (k_mem_slab_free sl (w_k w)).
        pose proof (k_mem_slab_free_law sl (w_k w)) as (Hl & Hh & Hk). split_and!; [by destruct w|done|done|].
        intros t. rewrite Hk. unfold opt_frees, frees. case_decide as Ht; [|lia].
        pose proof (ti_slack _ Hw t) as Hpos. unfold slack, ts_held in Hpos. rewrite Hctx, Hsl in Hpos.
        unfold opt_frees, frees in Hpos. rewrite (decide_True (P := t = slab_name sl)) in Hpos by done.
        assert (ingest_bufs (streams c) ≠ 0); [|lia].
        pose proof (ingest_bufs_alter (λ _, zero_stream) i (streams c) s Hs) as H.
        assert (has_buf s = 1) as E by (unfold has_buf; by rewrite Hb).
        change (has_buf ((λ _, zero_stream) s)) with 0 in H. lia.
      - apply wp_ret. exists (w_k w). split_and!; [by destruct w|done|done|]. simpl. lia. }
    intros _ w1 (k' & -> & Hl & Hh & Hk). apply wp_bind.
    eapply (wp_mono _ (λ _ w2, w_k w2 = k' ∧ ts_step w w2 ∧
      ∃ c2, ts_ctx (w_db w2) = Some c2 ∧ streams c2 = streams c)).
    { destruct (_ && _).
      - apply wp_db_set. split_and!; [done| |simpl; rewrite Hctx; by eexists].
        etrans; [apply ts_step_k|]. apply ts_step_set_ctx.
      - apply wp_ret. split_and!; [done|apply ts_step_k|by exists c]. }
    intros _ w2 (K2 & S2 & c2 & Hc2 & Hstr). apply wp_bind, wp_db_set, wp_ret, HQ; [|simpl; by rewrite K2].
    eapply (dropped_alter name w _ c (c2 <| streams ::= alter (λ _, zero_stream) i |>) i (λ _, zero_stream) s
      Hw Hctx Hs Hu Hn); try done.
    + apply zero_stream_ok.
    + intros n ? ?. lia.
    + etrans; [exact S2|apply ts_step_set_ctx].
    + simpl. by rewrite Hc2.
    + simpl. by rewrite Hstr.
    + simpl. by rewrite K2.
    + intros t. simpl. rewrite K2. unfold has_buf. rewrite Hb. simpl. rewrite Hk.
      unfold opt_frees, frees. destruct (ts_ingest_slab (w_db w)); [case_decide|]; lia.
Qed.
(** ** Walks *)

(** A walk belongs to the instance, and an open cursor has one. *)
Definition owned_walk (cc : zdb_ts_cursor_ctx FH) : Prop := cc_db cc = Some the_db.
Definition owned_step {A} (r : A * zdb_ts_cursor_ctx FH) : Prop := owned_walk r.2.
Definition owned_cursor (c : zdb_cursor_t FH) : Prop :=
  cu_model c = ZDB_MODEL_TS ∧ ∃ cc, cu_impl c = Some cc ∧ owned_walk cc.

#[local] Hint Extern 1 (owned_walk _) => assumption : moves.
#[local] Hint Extern 1 (owned_step _) => assumption : moves.

Lemma moves_learn_layout a cc path :
  owned_walk cc → moves a a owned_step (zdb_ts_cursor_learn_layout cc path : M W _).
Proof. intros Hc. unfold zdb_ts_cursor_learn_layout. mv; [done|]. by repeat case_match. Qed.

Lemma moves_seek_last a cc : owned_walk cc → moves a a owned_step (cursor_seek_last cc : M W _).
Proof. intros Hc. unfold cursor_seek_last. by mv. Qed.

Lemma moves_seek_offset a cc : owned_walk cc → moves a a owned_step (cursor_seek_offset cc : M W _).
Proof. intros Hc. unfold cursor_seek_offset. by mv. Qed.
#[local] Hint Resolve moves_learn_layout moves_seek_last moves_seek_offset : moves.

(** A sequence whose first part hands on the walk. *)
Lemma moves_bind_step a c {A B} (R : B → Prop) (m : M W (A * zdb_ts_cursor_ctx FH)) k :
  moves a a owned_step m → (∀ r cc, owned_walk cc → moves a c R (k (r, cc))) → moves a c R (bind m k).
Proof. intros Hm Hk. eapply moves_bind; [exact Hm|]. intros [r cc] H. by apply Hk. Qed.

Ltac mvw_step :=
  lazymatch goal with
  | |- moves _ _ _ (@bind _ (_ * zdb_ts_cursor_ctx _) _ _ _) => apply moves_bind_step; [|intros ? ? ?]
  | |- _ => mv_step
  end.
Ltac mvw := repeat (mvw_step; cbn beta iota); try done; try (repeat case_match; done).

Lemma moves_open_segment a cc n :
  owned_walk cc → moves a a owned_step (zdb_ts_cursor_open_segment cc n : M W _).
Proof.
  intros Hc. unfold zdb_ts_cursor_open_segment.
  apply (moves_bind _ a _ owned_walk); [by mv|]. intros cc1 H1. mvw.
Qed.
#[local] Hint Resolve moves_open_segment : moves.

Lemma moves_next_segment_loop a fuel cc :
  owned_walk cc → moves a a owned_step (next_segment_loop fuel cc : M W _).
Proof. revert cc. induction fuel as [|fuel IH]; intros cc Hc; simpl; mvw. Qed.

Lemma moves_next_segment a cc :
  owned_walk cc → moves a a owned_step (zdb_ts_cursor_next_segment cc : M W _).
Proof. apply moves_next_segment_loop. Qed.
#[local] Hint Resolve moves_next_segment : moves.

Lemma moves_end_of_file a again cc :
  (∀ c, owned_walk c → moves a a owned_step (again c : M W _)) →
  owned_walk cc → moves a a owned_step (end_of_file again cc : M W _).
Proof. intros Ha Hc. unfold end_of_file. mvw. Qed.

Lemma moves_read_here a again cc :
  (∀ c, owned_walk c → moves a a owned_step (again c : M W _)) →
  owned_walk cc → moves a a owned_step (read_here again cc : M W _).
Proof.
  intros Ha Hc. unfold read_here. mvw; by apply moves_end_of_file.
Qed.
#[local] Hint Resolve moves_end_of_file moves_read_here : moves.

Lemma moves_read_file_record a fuel cc :
  owned_walk cc → moves a a owned_step (read_file_record fuel cc : M W _).
Proof. revert cc. induction fuel as [|fuel IH]; intros cc Hc; simpl; mvw. Qed.
#[local] Hint Resolve moves_read_file_record : moves.

Lemma moves_open_segmented a cc :
  owned_walk cc → moves a a owned_step (open_segmented cc : M W _).
Proof. intros Hc. unfold open_segmented. mvw. Qed.

Lemma moves_open_single a cc :
  owned_walk cc → moves a a owned_step (open_single cc : M W _).
Proof. intros Hc. unfold open_single. mvw. Qed.
#[local] Hint Resolve moves_open_segmented moves_open_single : moves.

(** ** Recovery and the watermark *)

Lemma moves_recover_fail a ts status :
  ts_db ts = Some the_db → moves a a any (recover_fail ts status : M W _).
Proof. intros Hts. unfold recover_fail. rewrite Hts. mv. Qed.

Lemma moves_recover_done a ts n :
  ts_db ts = Some the_db → moves a a any (recover_done ts n : M W _).
Proof. intros Hts. unfold recover_done. rewrite Hts. mv. Qed.

Lemma moves_recover_loop a fuel file rec_size good :
  moves a a any (recover_loop fuel (Some the_db) file rec_size good : M W _).
Proof. revert file good. induction fuel as [|fuel IH]; intros file good; simpl; mv. Qed.
#[local] Hint Resolve moves_recover_fail moves_recover_done moves_recover_loop : moves.

Lemma moves_recover_walk a file path h r :
  moves a a any (recover_walk (Some the_db) file path h r : M W _).
Proof. unfold recover_walk. mv. Qed.

Lemma moves_recover_path a ts : moves a a any (recover_path ts : M W _).
Proof. unfold recover_path. mv. Qed.

Lemma moves_probe a ts win path :
  ts_db ts = Some the_db →
  moves a a any (zdb_ts_cursor_learn_layout (new_walk ts win false : zdb_ts_cursor_ctx FH) path : M W _).
Proof. intros Hts. eapply moves_any, moves_learn_layout. done. Qed.
#[local] Hint Resolve moves_recover_walk moves_recover_path moves_probe : moves.

Lemma moves_recover_layout a ts path :
  ts_db ts = Some the_db → moves a a any (recover_layout ts path : M W _).
Proof. intros Hts. unfold recover_layout. mv. Qed.

Lemma moves_header_decode_any a raw name :
  moves a a any (zdb_ts_stream_header_decode (Some the_db) raw name : M W zdb_status_t).
Proof. unfold zdb_ts_stream_header_decode. mv. Qed.
#[local] Hint Resolve moves_recover_layout moves_header_decode_any : moves.

Lemma moves_recover_file a db name path h r :
  moves a a any (recover_file db name path h r : M W _).
Proof. destruct db. unfold recover_file. mv. Qed.
#[local] Hint Resolve moves_recover_file : moves.

Lemma moves_recover_stream a ts out : moves a a any (zdb_ts_recover_stream ts out : M W _).
Proof. unfold zdb_ts_recover_stream. destruct ts as [[[[]|] ?]|]; mv. Qed.

Lemma moves_watermark_event a ts m st :
  ts_db ts = Some the_db → moves a a any (watermark_event ts m st : M W _).
Proof. intros Hts. unfold watermark_event. rewrite Hts. mv. Qed.
#[local] Hint Resolve moves_recover_stream moves_watermark_event : moves.

Lemma moves_watermark_set a ts m : moves a a any (zdb_ts_watermark_set ts m : M W _).
Proof. unfold zdb_ts_watermark_set. destruct ts as [[[[]|] ?]|]; cbn [ts_db]; mv. Qed.

Lemma moves_watermark_get a ts out : moves a a any (zdb_ts_watermark_get ts out : M W _).
Proof. unfold zdb_ts_watermark_get. mv. Qed.

Lemma moves_watermark_clear a ts : moves a a any (zdb_ts_watermark_clear ts : M W _).
Proof. unfold zdb_ts_watermark_clear. destruct ts as [[[[]|] ?]|]; cbn [ts_db]; mv. Qed.
End moves.

#[export] Hint Resolve moves_ensure_stream_dir moves_ensure_stream_header moves_scan_segments
  moves_discard_oldest moves_start_segment moves_roll_segment moves_active_path moves_append_file
  moves_emptied moves_flush_buffer moves_flush_slots moves_flush_all moves_ctx_alloc
  moves_learn_layout moves_read_file_record moves_open_segmented moves_open_single moves_probe
  moves_recover_stream : moves.
#[export] Hint Extern 2 (moves _ _ _ (slot_upd _ _)) =>
  apply moves_tame; split; [intros ? []; split; split; done|intros ?; by left] : moves.
