(* ===== verification/TsAccount.v ===== *)
(** * What the time-series calls take and give back

    The calls that open, close or count something: a cursor takes one block of
    its slab, a handle one of the 255 of its stream, an append room in the
    buffer; every other call is neutral ([TsMoves]). *)

From S2P Require Import Prelude Config Env Types FsEnv FsSpec Events CoreSpec Cursor TsFormat.
From S2P Require Import TsFormatSpec TsSpec TsStore TsSegment TsCursor TsRecover Doubles TsOps TsInv TsMoves.

Section account.
Context {Cfg : Config} {CfgOk : ConfigOk Cfg} {K F FS FH DH : Type}.
Context `{!Kernel K, !KernelLaws K, !FileSys FS FH DH}.
Context {CRC : Crc32}.
Abbreviation W := (world K F FS).
Implicit Types w : W.

(** ** Cursors *)

(** From [w] to [w'], [n] more blocks of the cursor slab are in use. *)
Record took (n : Z) w w' : Prop := {
  tk_step : ts_step w w';
  tk_ctx : ctx_ok (ts_ctx (w_db w'));
  tk_heap : heap_used (w_k w') = heap_used (w_k w);
  tk_slack : ∀ s, slack w' s = (slack w s + n * opt_frees 1 (cursor_slab (w_db w)) s)%Z;
  tk_counted : ∀ name m, counted (ts_ctx (w_db w)) name m → counted (ts_ctx (w_db w')) name m;
}.

Lemma took_moved w w' : moved w w' → took 0 w w'.
Proof.
  intros M. pose proof (mv_counted _ _ M) as R. destruct M as [S C H B _ _]. split; [done..| |done].
  intros s. rewrite B. lia.
Qed.

Lemma took_trans n m w1 w2 w3 : took n w1 w2 → took m w2 w3 → took (n + m) w1 w3.
Proof.
  intros [S1 C1 H1 B1 R1] [S2 C2 H2 B2 R2]. split; [by etrans|done|congruence| |eauto].
  intros s. rewrite B2, B1. pose proof (ts_step_slabs _ _ S1) as (_ & -> & _). lia.
Qed.

Lemma took_inv n w w' : (0 ≤ n)%Z → took n w w' → ts_inv w → ts_inv w'.
Proof. intros Hn [_ Hc _ Hs _] [_ Hp]. split; [done|]. intros s. rewrite Hs. specialize (Hp s). lia. Qed.

Lemma took_k n w k' :
  ts_inv w → heap_used k' = heap_used (w_k w) →
  (∀ s, (Z.of_nat (slab_used k' s) = slab_used (w_k w) s + n * opt_frees 1 (cursor_slab (w_db w)) s)%Z) →
  took n w (w <| w_k := k' |>).
Proof.
  intros [Hc _] Hh Hs. split; [apply ts_step_k|done..| |done]. intros s. unfold slack. simpl. rewrite Hs. lia.
Qed.

(** A cursor object holds a block exactly when it has a walk. *)
Definition cursor_ok (c : zdb_cursor_t FH) : Prop := cu_impl c = None ∨ owned_cursor c.
Definition cursor_blocks (c : zdb_cursor_t FH) : Z :=
  match cu_impl c with Some _ => 1 | None => 0 end.

(** The object stays of its model, its walk of its instance. *)
Definition same_owner (c c' : zdb_cursor_t FH) : Prop :=
  cu_model c' = cu_model c ∧ cc_db <$> cu_impl c' = cc_db <$> cu_impl c.

Lemma same_owner_ok c c' : same_owner c c' → cursor_ok c → cursor_ok c'.
Proof.
  unfold same_owner, cursor_ok, owned_cursor, owned_walk. intros [Hm Hi] [Hn|(Ho & cc & Hc & Hdb)].
  - rewrite Hn in Hi. destruct (cu_impl c'); [done|by left].
  - rewrite Hc in Hi. destruct (cu_impl c') as [cc'|]; [|done]. injection Hi as Hi.
    right. split; [congruence|]. exists cc'. split; [done|congruence].
Qed.

Lemma same_owner_blocks c c' : same_owner c c' → cursor_blocks c' = cursor_blocks c.
Proof. unfold cursor_blocks. intros [_ Hi]. destruct (cu_impl c), (cu_impl c'); done. Qed.

Lemma moves_cursor_reset a (c : zdb_cursor_t FH) :
  moves a a (λ r, ∃ c', r.2 = Some c' ∧ same_owner c c') (zdb_cursor_reset (Some c) : M W _).
Proof.
  unfold zdb_cursor_reset, same_owner. cbv zeta. destruct c as [m ? ? ? ? ? ? [ctx|]]; cbn [cu_impl cu_model].
  - destruct (_ && bool_decide _); cbn iota; mv; (eexists; split; [reflexivity|split; [reflexivity|]]);
      simplify_eq/=; repeat case_match; done.
  - destruct (_ && _); cbn iota; mv; (eexists; split; [reflexivity|done]).
Qed.

(** The instance's account covers the block of a cursor. *)
Definition covered (n : Z) w : Prop := ∀ s, (n * opt_frees 1 (cursor_slab (w_db w)) s ≤ slack w s)%Z.

Lemma took_free w sl :
  ts_inv w → cursor_slab (w_db w) = Some sl → covered 1 w →
  took (-1) w (w <| w_k ::= k_mem_slab_free sl |>).
Proof.
  intros Hw Hsl Hcov. apply took_k; [done|apply k_mem_slab_free_law|]. intros s.
  destruct (k_mem_slab_free_law sl (w_k w)) as (_ & _ & Hs). rewrite Hs.
  specialize (Hcov s). unfold slack, opt_frees, frees in *. rewrite Hsl in *. repeat case_decide; lia.
Qed.

Lemma wp_cursor_close c (Q : zdb_status_t * option (zdb_cursor_t FH) → W → Prop) w :
  CONFIG_ZDB_TS = true → ts_inv w → cursor_ok c → covered (cursor_blocks c) w →
  (∀ rc c' w', took (- cursor_blocks c) w w' → lock_depth (w_k w') = lock_depth (w_k w) →
     cu_impl c' = None → Q (rc, Some c') w') →
  wp (zdb_cursor_close (Some c)) Q w.
Proof.
  intros HT Hw Hc Hcov HQ. unfold zdb_cursor_close. rewrite HT. cbn [andb].
  assert (∀ c1 w1, took (- cursor_blocks c) w w1 → ts_inv w1 → lock_depth (w_k w1) = lock_depth (w_k w) →
    cu_impl c1 = None → wp (zdb_cursor_reset (Some c1)) Q w1) as Hreset.
  { intros c1 w1 T1 I1 L1 Hn. eapply wp_moves; [apply moves_cursor_reset|done|reflexivity|].
    intros [rc [c'|]] w2 M2 _ L2 (? & [= <-] & [_ Hi]). apply HQ; [|congruence|].
    - replace (- cursor_blocks c)%Z with (- cursor_blocks c + 0)%Z by lia.
      by eapply took_trans, took_moved.
    - rewrite Hn in Hi. by destruct (cu_impl c'). }
  destruct Hc as [Hn|(Hm & cc & Hcc & Ho)].
  - unfold cursor_blocks in *. rewrite Hn in *. apply wp_bind.
    eapply (wp_mono _ (λ c1 w1, c1 = c ∧ w1 = w)); [by case_bool_decide; apply wp_ret|].
    intros _ _ [-> ->].
    apply Hreset; [by apply took_moved, moved_refl|done..].
  - rewrite Hm, bool_decide_true, Hcc by done. unfold cursor_blocks in *. rewrite Hcc in *.
    apply wp_bind, wp_bind. eapply (wp_moves _ _ any); [|done|reflexivity|].
    { destruct (file_open cc); mv. }
    intros [] w1 M1 I1 L1 _. apply wp_bind. rewrite Ho. apply wp_db_get, wp_bind.
    assert (covered 1 w1) as Hcov1.
    { intros s. rewrite (mv_slack _ _ M1). by rewrite (proj1 (proj2 (ts_step_slabs _ _ (mv_step _ _ M1)))). }
    destruct (cursor_slab (w_db w1)) as [sl|] eqn:Hsl.
    + apply wp_on_k_, wp_ret. pose proof (took_free _ _ I1 Hsl Hcov1) as T.
      apply Hreset; [|split; [apply T|]| |done].
      * by eapply (took_trans 0 (-1)), T; apply took_moved.
      * intros s. rewrite (tk_slack _ _ _ T). specialize (Hcov1 s). lia.
      * rewrite <- L1. apply (k_mem_slab_free_law sl (w_k w1)).
    + apply wp_ret, wp_ret, Hreset; [|done..]. apply took_moved in M1 as [S C H B R].
      split; [done..| |done]. intros s. rewrite B. unfold opt_frees.
      pose proof (ts_step_slabs _ _ S) as (_ & Hcs & _). rewrite Hsl in Hcs. rewrite <- Hcs. lia.
Qed.

Lemma wp_cursor_open_takes ts win pred desc c (Q : zdb_status_t * option (zdb_cursor_t FH) → W → Prop) w :
  ts_inv w → cu_impl c = None →
  (∀ rc c' w', took (cursor_blocks c') w w' → lock_depth (w_k w') = lock_depth (w_k w) →
     cursor_ok c' → (rc = ZDB_OK → is_Some (cu_impl c')) → Q (rc, Some c') w') →
  wp (zdb_ts_cursor_open_dir ts win pred desc (Some c)) Q w.
Proof.
  intros Hw Hc HQ.
  assert (∀ rc w', rc ≠ ZDB_OK → took 0 w w' → lock_depth (w_k w') = lock_depth (w_k w) → Q (rc, Some c) w') as Hno.
  { intros rc w' Hrc T L. apply HQ; [by unfold cursor_blocks; rewrite Hc|done|by left|done]. }
  assert (∀ rc w', rc ≠ ZDB_OK → moved w w' → lock_depth (w_k w') = lock_depth (w_k w) →
    wp (ret (rc, Some c)) Q w') as Hmoved by (intros; apply wp_ret, Hno; [done|by apply took_moved|done]).
  pose proof (moved_refl _ Hw) as M0. unfold zdb_ts_cursor_open_dir. destruct ts as [t|]; [|by apply Hmoved].
  destruct (ts_db t) as [[]|] eqn:Hdb; [|by apply Hmoved].
  apply wp_bind. eapply (wp_moves _ _ any); [by destruct ZDB_TS_SEGMENTED; mv|done|reflexivity|].
  intros rc w1 M1 I1 L1 _. case_bool_decide as Hrc; cbn [negb]; [|by apply Hmoved].
  apply wp_bind, wp_db_get. destruct (cursor_slab (w_db w1)) as [sl|] eqn:Hsl; [|by apply Hmoved].
  apply wp_bind, wp_on_k. intros e k' Hal. pose proof (k_mem_slab_alloc_law sl (w_k w1)) as (Hl & Hh & Hs).
  rewrite Hal in Hl, Hh, Hs. simpl in Hl, Hh, Hs.
  destruct (Z.eqb_spec e 0) as [->|He]; cbn [negb]; cycle 1.
  { apply wp_ret, Hno; [done| |simpl; congruence]. eapply (took_trans 0 0); [by apply took_moved|].
    apply took_k; [done..|]. intros s. rewrite Hs, decide_False by naive_solver. lia. }
  assert (took 1 w1 (w1 <| w_k := k' |>)) as T1.
  { apply took_k; [done..|]. intros s. rewrite Hs, Hsl. unfold opt_frees, frees.
    repeat case_decide; naive_solver lia. }
  assert (took 1 w (w1 <| w_k := k' |>)) as T1' by (by eapply (took_trans 0 1), T1; apply took_moved).
  apply wp_bind. eapply (wp_moves _ _ owned_step _ _ (w1 <| w_k := k' |>));
    [|by refine (took_inv 1 _ _ _ T1 I1)|reflexivity|].
  { destruct ZDB_TS_SEGMENTED; [apply moves_open_segmented|apply moves_open_single]; done. }
  intros [rc2 cc] w3 M3 I3 L3 Ho. case_bool_decide as Hrc2; cbn [negb].
  - eapply wp_moves; [apply moves_cursor_reset|done|reflexivity|].
    intros [rc4 [c4|]] w4 M4 _ L4 (? & [= <-] & Hown).
    match type of Hown with same_owner ?c' _ => assert (cursor_ok c') as Hok' end.
    { right. split; [done|]. by exists cc. }
    apply HQ; [|simpl in *; congruence|by eapply same_owner_ok|].
    + rewrite (same_owner_blocks _ _ Hown). change (took 1 w w4). eapply (took_trans 1 0); [exact T1'|].
      by eapply took_moved, moved_trans.
    + intros _. destruct Hown as [_ Hi]. by destruct (cu_impl c4).
  - apply wp_bind, wp_on_k_, wp_ret, Hno; [done| |].
    + assert (took 1 w w3) as T3 by (eapply (took_trans 1 0); [exact T1'|by apply took_moved]).
      assert (covered 1 w3) as Hcov.
      { intros s. rewrite (tk_slack _ _ _ T3). pose proof (ti_slack _ Hw s).
        pose proof (ts_step_slabs _ _ (tk_step _ _ _ T3)) as (_ & -> & _). lia. }
      assert (cursor_slab (w_db w3) = Some sl) as Hsl3.
      { pose proof (ts_step_slabs _ _ (mv_step _ _ M3)) as (_ & Hcs & _). simpl in Hcs. congruence. }
      eapply (took_trans 1 (-1)); [exact T3|by apply took_free].
    + destruct (k_mem_slab_free_law sl (w_k w3)) as (Hf & _). simpl in *. congruence.
Qed.

(** ** Stepping a cursor *)

Definition owned_result {A} (r : A * zdb_cursor_t FH) : Prop := owned_cursor r.2.

Lemma owned_with_walk (c : zdb_cursor_t FH) cc : owned_cursor c → owned_walk cc → owned_cursor (with_walk c cc).
Proof. intros [Hm _] Hc. split; [done|]. by exists cc. Qed.

Lemma moves_consider a (c : zdb_cursor_t FH) cc rec x :
  owned_cursor c → owned_walk cc →
  moves a a (λ r, owned_cursor r.1.2 ∧ owned_walk r.2) (consider c cc rec x : M W _).
Proof. intros Hc Hcc. unfold consider. mv; done. Qed.

(** [mv], keeping that the cursor and its walk are the instance's. *)
Ltac mvc_step :=
  lazymatch goal with
  | |- moves _ _ _ (bind (consider _ _ _ _) _) =>
      eapply moves_bind; [by apply moves_consider|]; intros [[? ?] ?] [? ?]; cbn [fst snd] in *
  | |- moves _ _ _ (ram_loop _ _ _ _) => solve [eauto 2]
  | |- _ => mv_step
  end.
Ltac mvc := repeat (mvc_step; cbn beta iota); try by apply owned_with_walk.

Lemma moves_ram_loop a fuel i (c : zdb_cursor_t FH) cc :
  owned_cursor c → owned_walk cc →
  moves (S a) a owned_result (ram_loop fuel i c cc : M W _).
Proof.
  revert c cc. induction fuel as [|fuel IH]; intros c cc Hc Hcc; simpl; rewrite ?Hcc; mvc.
Qed.

Lemma moves_next_ram a (c : zdb_cursor_t FH) cc :
  owned_cursor c → owned_walk cc →
  moves a a owned_result (zdb_ts_cursor_next_ram c cc : M W _).
Proof.
  intros Hc Hcc. unfold zdb_ts_cursor_next_ram. rewrite Hcc.
  pose proof (moves_ram_loop a). mvc.
Qed.

Lemma moves_read_record a (cc : zdb_ts_cursor_ctx FH) :
  owned_walk cc →
  moves a a (λ r, ∃ cc', r.2 = Some cc' ∧ owned_walk cc')
    (zdb_ts_cursor_read_file_record (Some cc) : M W _).
Proof.
  intros Hcc. unfold zdb_ts_cursor_read_file_record. rewrite Hcc.
  eapply moves_bind; [by apply moves_read_file_record|]. intros [[] cc'] H. apply moves_ret. by exists cc'.
Qed.

Definition owned_some {A} (r : option (A * zdb_cursor_t FH)) : Prop := ∀ x, r = Some x → owned_result x.

Lemma owned_some_walk {A} (r : A) (c : zdb_cursor_t FH) cc :
  owned_cursor c → owned_walk cc → owned_some (Some (r, with_walk c cc)).
Proof. intros Hc Hcc x [= <-]. by apply owned_with_walk. Qed.

Lemma moves_file_loop a fuel (c : zdb_cursor_t FH) cc :
  owned_cursor c → owned_walk cc →
  moves a a owned_some (file_loop fuel c cc : M W _).
Proof.
  revert c cc. induction fuel as [|fuel IH]; intros c cc Hc Hcc; simpl; [by apply moves_ret|].
  destruct (file_done cc); [by apply moves_ret, owned_some_walk|].
  eapply moves_bind; [by apply moves_read_record|]. intros [[rc rec] o] (cc' & [= ->] & Hcc').
  cbn [default from_option id]. rewrite Hcc'.
  mvc; try (by apply owned_some_walk); by apply IH.
Qed.

(** The cursor the step hands back is an open one of the instance. *)
Definition owned_next {A} (r : option (A * option (zdb_cursor_t FH))) : Prop :=
  ∀ x, r = Some x → ∃ c, x.2 = Some c ∧ owned_cursor c.

Lemma moves_cursor_next a fuel (c : zdb_cursor_t FH) out :
  owned_cursor c → moves a a owned_next (zdb_cursor_next fuel (Some c) out : M W _).
Proof.
  intros Hc. pose proof Hc as (Hm & cc & Hcc & Ho). unfold zdb_cursor_next. cbv zeta.
  destruct out; cbn [negb]; [|apply moves_ret; intros ? [= <-]; by exists c].
  rewrite Hm, bool_decide_true, Hcc by done.
  apply (moves_bind _ a _ owned_result).
  { destruct (descending cc); [by apply moves_next_ram|by apply moves_ret]. }
  intros [[rc1 o1] c1] H1. destruct (negb _); [apply moves_ret; intros ? [= <-]; by exists c1|].
  pose proof H1 as (_ & cc1 & Hcc1 & Ho1). cbn [snd] in *. rewrite Hcc1. cbn [default from_option id].
  eapply moves_bind; [by apply moves_file_loop|]. intros [[[rc2 o2] c2]|] H2; [|by apply moves_ret].
  specialize (H2 _ eq_refl). pose proof H2 as (_ & cc2 & Hcc2 & Ho2). cbn [snd] in *.
  assert (owned_next (A := zdb_status_t * option (list byte)) (Some (rc2, o2, Some c2))) as Hret
    by (intros ? [= <-]; by exists c2).
  destruct rc2; try by apply moves_ret.
  rewrite Hcc2. cbn [default from_option id].
  destruct (descending cc2); cbn [negb]; [apply moves_ret; intros ? [= <-]; by exists c2|].
  eapply moves_bind; [by apply moves_next_ram|]. intros [[rc3 o3] c3] H3. apply moves_ret.
  intros ? [= <-]. by exists c3.
Qed.

Lemma moves_next_sample a fuel (c : zdb_cursor_t FH) out :
  owned_cursor c → moves a a owned_next (zdb_ts_cursor_next_sample fuel (Some c) out : M W _).
Proof.
  intros Hc. unfold zdb_ts_cursor_next_sample.
  destruct out; cbn [negb]; [|apply moves_ret; intros ? [= <-]; by exists c].
  eapply moves_bind; [by apply moves_cursor_next|]. intros [[[rc o] c']|] H; apply moves_ret; [|done].
  destruct (H _ eq_refl) as (c1 & Hc1 & Ho). simpl in Hc1. subst c'.
  destruct rc; intros ? [= <-]; by exists c1.
Qed.

(** ** Aggregates *)

Lemma moves_agg_loop a fuel agg (c : zdb_cursor_t FH) points acc :
  owned_cursor c → moves a a owned_next (agg_loop fuel agg (Some c) points acc : M W _).
Proof.
  revert c points acc. induction fuel as [|fuel IH]; intros c points acc Hc; cbn [agg_loop]; [by apply moves_ret|].
  destruct (_ || _); [|apply moves_ret; intros ? [= <-]; by exists c].
  eapply moves_bind; [by apply moves_next_sample|]. intros [[[rc o] c']|] H; [|by apply moves_ret].
  destruct (H _ eq_refl) as (c1 & Hc1 & Ho). simpl in Hc1. subst c'.
  assert (∀ rc : zdb_status_t, moves a a owned_next (ret (Some (rc, points, acc, Some c1)) : M W _)) as Hret
    by (intros rc'; apply moves_ret; intros ? [= <-]; by exists c1).
  destruct rc; try apply Hret. destruct o; [|apply Hret].
  destruct (zdb_ts_agg_update _ _ _ _). by apply IH.
Qed.

Lemma moves_count_file a ts path :
  ts_db ts = Some the_db → moves a a any (count_file ts path : M W _).
Proof. intros Hts. unfold count_file. mv. Qed.
#[local] Hint Resolve moves_count_file : moves.

Lemma moves_count_segments a ts seqs n :
  ts_db ts = Some the_db → moves a a any (count_segments ts seqs n : M W _).
Proof. intros Hts. revert n. induction seqs as [|x seqs IH]; intros n; simpl; mv. Qed.
#[local] Hint Resolve moves_count_segments : moves.

Lemma moves_count_flushed a ts :
  ts_db ts = Some the_db → moves a a any (count_flushed ts : M W _).
Proof. intros Hts. unfold count_flushed. mv. Qed.
#[local] Hint Resolve moves_count_flushed : moves.

Lemma moves_count_all a ts :
  ts_db ts = Some the_db → moves a a any (zdb_ts_count_all ts : M W _).
Proof. intros Hts. unfold zdb_ts_count_all. mv. Qed.

Definition agg_status (r : option (zdb_status_t * option zdb_ts_agg_result_t)) : option zdb_status_t :=
  fst <$> r.

(** A query leaves the cursor slab as it found it, but when it fails: the
    cursor it opened stays open when its first positioning fails. *)
Lemma wp_query_aggregate_takes fuel ts win agg out c
    (Q : option (zdb_status_t * option zdb_ts_agg_result_t) → W → Prop) w :
  CONFIG_ZDB_TS = true → ts_inv w → cu_impl c = None →
  (∀ r n w', took n w w' → lock_depth (w_k w') = lock_depth (w_k w) → (0 ≤ n ≤ 1)%Z →
     (agg_status r = Some ZDB_OK → n = 0%Z) → Q r w') →
  wp (zdb_ts_query_aggregate fuel ts win agg out c) Q w.
Proof.
  intros HT Hw Hc HQ.
  assert (∀ r w', moved w w' → lock_depth (w_k w') = lock_depth (w_k w) → Q r w') as Hmoved
    by (intros; eapply (HQ _ 0%Z); [by apply took_moved|done|lia|done]).
  unfold zdb_ts_query_aggregate. destruct ts as [t|]; [|by apply wp_ret, Hmoved; [apply moved_refl|]].
  destruct (ts_db t) as [[]|] eqn:Hdb; [|by apply wp_ret, Hmoved; [apply moved_refl|]].
  destruct out; cbn [negb]; [|by apply wp_ret, Hmoved; [apply moved_refl|]].
  destruct (_ && _) eqn:Hcount.
  { apply wp_bind. eapply wp_moves; [by apply moves_count_all|done|reflexivity|].
    intros [rc n] w1 M1 _ L1 _. by apply wp_ret, Hmoved. }
  apply wp_bind, wp_cursor_open_takes; [done..|]. intros rc c1 w1 T1 L1 Ok1 Hok1.
  assert (0 ≤ cursor_blocks c1 ≤ 1)%Z as Hb by (unfold cursor_blocks; destruct (cu_impl c1); lia).
  destruct (bool_decide_reflect (rc = ZDB_OK)) as [Hrc|Hrc]; cbn [negb]; cycle 1.
  { apply wp_ret. eapply HQ; [done..|]. by intros [= ->]. }
  assert (owned_cursor c1) as Ho1.
  { destruct Ok1 as [Hn|]; [|done]. rewrite Hn in Hok1. by destruct (Hok1 Hrc). }
  assert (cursor_blocks c1 = 1)%Z as E1 by (destruct Ho1 as (_ & ? & Hi & _); unfold cursor_blocks; by rewrite Hi).
  rewrite E1 in T1. clear c E1 Hok1 Ok1 Hb Hc Hcount.
  assert (∀ w2, took 1 w w2 → lock_depth (w_k w2) = lock_depth (w_k w) → Q None w2) as Hnone
    by (intros; eapply (HQ _ 1%Z); [done..|lia|done]).
  assert (∀ w2 w3, took 1 w w2 → moved w2 w3 → took 1 w w3) as Hthen
    by (intros w2 w3 T M; by apply (took_trans 1 0 _ _ _ T), took_moved).
  assert (∀ r c2 w2, took 1 w w2 → lock_depth (w_k w2) = lock_depth (w_k w) → owned_cursor c2 →
    wp (zdb_cursor_close (Some c2);; ret r) Q w2) as Hclose.
  { intros r c2 w2 T2 L2 Ho2. pose proof Ho2 as (_ & cc & Hi & _).
    assert (cursor_blocks c2 = 1)%Z as E2 by (unfold cursor_blocks; by rewrite Hi).
    apply wp_bind, wp_cursor_close; [done| |by right|rewrite E2|].
    - eapply took_inv; [|exact T2|done]. lia.
    - intros s. rewrite (tk_slack _ _ _ T2). pose proof (ti_slack _ Hw s).
      pose proof (ts_step_slabs _ _ (tk_step _ _ _ T2)) as (_ & -> & _). lia.
    - rewrite E2. intros rc2 c3 w3 T3 L3 _. apply wp_ret. apply (HQ _ 0%Z); [|congruence|lia|done].
      by apply (took_trans 1 (-1) _ _ _ T2). }
  assert (ts_inv w1) as I1 by (eapply took_inv; [|exact T1|done]; lia).
  apply wp_bind. eapply wp_moves; [by apply moves_agg_loop|done|reflexivity|].
  intros [[[[rc2 points] acc] o]|] w2 M2 I2 L2 H2; [|apply wp_ret, Hnone; [by eapply Hthen|congruence]].
  destruct (H2 _ eq_refl) as (c2 & Hc2 & Ho2). cbn [snd] in Hc2. subst o.
  destruct (negb (bool_decide (rc2 = ZDB_OK))); [apply Hclose; [by eapply Hthen|congruence|done]|].
  apply wp_bind. eapply (wp_moves _ _ owned_next); [|done|reflexivity|].
  { destruct (_ && _); [by apply moves_next_sample|]. apply moves_ret. intros ? [= <-]. by exists c2. }
  intros [[[rc3 o3] o]|] w3 M3 I3 L3 H3; [|apply wp_ret, Hnone; [eapply Hthen, M3; by eapply Hthen|congruence]].
  destruct (H3 _ eq_refl) as (c3 & Hc3 & Ho3). cbn [snd] in Hc3. subst o.
  destruct (_ && _); (apply Hclose; [eapply Hthen, M3; by eapply Hthen|congruence|done]).
Qed.

(** ** Flushing *)

Lemma moves_flush_work_handler a db : moves a a any (zdb_ts_flush_work_handler db : M W unit).
Proof. destruct db. unfold zdb_ts_flush_work_handler. mv. Qed.
#[local] Hint Resolve moves_flush_work_handler : moves.

Lemma moves_let_work_run a db : moves a a any (let_work_run db : M W unit).
Proof. unfold let_work_run. mv. Qed.

Lemma moves_flush_async a ts : moves a a any (zdb_ts_flush_async ts : M W _).
Proof. unfold zdb_ts_flush_async. destruct ts as [[[[]|] ?]|]; mv. Qed.
#[local] Hint Resolve moves_let_work_run moves_flush_async : moves.

Lemma moves_flush_sync a ts : moves a a any (zdb_ts_flush_sync ts : M W _).
Proof. unfold zdb_ts_flush_sync. destruct ts as [[[[]|] ?]|]; mv. Qed.

(** ** Opening and closing a stream *)

Lemma moved_claimed name w1 w2 w3 : moved w1 w2 → claimed name w2 w3 → claimed name w1 w3.
Proof. intros M [C1 C2]. split; [done|]. intros n Hn. apply C2. by eapply mv_counted. Qed.

Lemma claimed_moved name w1 w2 w3 : claimed name w1 w2 → moved w2 w3 → claimed name w1 w3.
Proof. intros [C1 C2] M. split; [by eapply mv_counted|]. intros n Hn Hlt. eapply mv_counted; [done|]. by apply C2. Qed.

Lemma name_valid_length name :
  zdb_ts_stream_name_valid (Some name) = true → length name ≤ CONFIG_ZDB_TS_STREAM_NAME_MAX_LEN.
Proof. destruct name; [done|]. cbn [zdb_ts_stream_name_valid]. rewrite !andb_true_iff, Nat.leb_le. naive_solver. Qed.

(** A handle is an object that has an instance. *)
Lemma wp_ts_open_claims db name t0 (Q : zdb_status_t * option zdb_ts_t → W → Prop) w :
  ts_inv w → ts_db t0 = None →
  (∀ rc t w', moved w w' → lock_depth (w_k w') = lock_depth (w_k w) →
     (rc = ZDB_OK → is_Some (ts_db t)) →
     (is_Some (ts_db t) → ∃ n, name = Some n ∧ t = {| ts_db := db; ts_stream_name := Some n |} ∧ claimed n w w') →
     Q (rc, Some t) w') →
  wp (zdb_ts_open db name (Some t0)) Q w.
Proof.
  intros Hw H0 HQ.
  assert (∀ rc w', rc ≠ ZDB_OK → moved w w' → lock_depth (w_k w') = lock_depth (w_k w) →
    wp (ret (rc, Some t0)) Q w') as Hno.
  { intros rc w' Hrc M L. apply wp_ret, HQ; [done..|]. rewrite H0. by intros []. }
  pose proof (moved_refl _ Hw) as M0. unfold zdb_ts_open.
  destruct db as [[]|]; [|by apply Hno]. destruct name as [name|]; [|by apply Hno].
  destruct (zdb_ts_stream_name_valid (Some name)) eqn:Hvalid; cbn [negb]; [|by apply Hno].
  apply wp_bind, wp_db_get. destruct (cfg (w_db w)) as [c|]; [|by apply Hno].
  apply wp_bind. eapply wp_moves; [apply moves_ctx_alloc|done|reflexivity|]. intros ok w1 M1 I1 L1 _.
  destruct ok; cbn [negb]; [|by apply Hno].
  apply wp_bind. eapply wp_moves; [apply moves_ensure_stream_dir|done|reflexivity|]. intros e w2 M2 I2 L2 _.
  pose proof (moved_trans _ _ _ M1 M2) as M12. destruct (Z.ltb_spec e 0).
  { apply Hno; [rewrite status_from_errno_ok; lia|done|congruence]. }
  apply wp_bind. eapply (wp_moves _ _ any); [by destruct ZDB_TS_SEGMENTED; mv|done|reflexivity|]. intros rc w3 M3 I3 L3 _.
  pose proof (moved_trans _ _ _ M12 M3) as M13.
  destruct (bool_decide_reflect (rc = ZDB_OK)) as [->|Hrc]; cbn [negb]; [|apply Hno; [done..|congruence]].
  apply wp_bind, wp_slot_claim; [done|by apply name_valid_length|]. intros [i|] w4 M4 L4 C4; cycle 1.
  { apply Hno; [done|by eapply moved_trans|congruence]. }
  pose proof (moved_trans _ _ _ M13 M4) as M14.
  assert (claimed name w w4) as C by (by eapply moved_claimed, C4).
  assert (∀ (rc : zdb_status_t) w', moved w4 w' → lock_depth (w_k w') = lock_depth (w_k w4) →
    wp (ret (rc, Some {| ts_db := Some the_db; ts_stream_name := Some name |})) Q w') as Hyes.
  { intros rc w' M L. apply wp_ret, HQ; [by eapply moved_trans|congruence|by eexists|].
    intros _. exists name. split; [done|]. split; [done|by eapply claimed_moved]. }
  pose proof (moved_refl _ (moved_inv _ _ M14 Hw)) as M4'.
  destruct CONFIG_ZDB_TS_AUTO_RECOVER; [|by apply Hyes].
  apply wp_bind. eapply wp_moves; [apply moves_recover_stream|by apply (moved_inv _ _ M14)|reflexivity|].
  intros [rc tr] w5 M5 I5 L5 _.
  assert (∀ rc : zdb_status_t, wp (STAT_INC_recover_failures (Some the_db);;
    ret (rc, Some {| ts_db := Some the_db; ts_stream_name := Some name |})) Q w5) as Hstat.
  { intros rc1. apply wp_bind. eapply (wp_moves _ _ any); [apply moves_stat|done|reflexivity|]. intros [] w6 M6 _ L6 _.
    apply Hyes; [by eapply moved_trans|congruence]. }
  destruct (negb _); [apply Hstat|]. destruct (_ && _); [apply Hstat|by apply Hyes].
Qed.

Lemma wp_ts_close_drops name (Q : zdb_status_t * option zdb_ts_t → W → Prop) w :
  ts_inv w → counted (ts_ctx (w_db w)) name 1 →
  (∀ rc w', dropped name w w' → lock_depth (w_k w') = lock_depth (w_k w) →
     Q (rc, Some {| ts_db := None; ts_stream_name := None |}) w') →
  wp (zdb_ts_close (handle name)) Q w.
Proof.
  intros Hw Hcnt HQ. unfold zdb_ts_close, handle. cbn [ts_db ts_stream_name]. apply wp_bind.
  eapply (wp_mono _ (λ _ w', dropped name w w' ∧ lock_depth (w_k w') = lock_depth (w_k w))).
  2: { intros rc w' [D L]. by apply wp_ret, HQ. }
  apply wp_bind, wp_db_get. pose proof Hcnt as (i & c & s & Hctx & _). rewrite Hctx.
  apply wp_bind, wp_inv_lock; [done|..]; intros w1 M1 L1; cycle 1.
  { rewrite bool_decide_false by done. apply wp_ret. split; [by apply moved_dropped|done]. }
  rewrite bool_decide_true by done. cbn [negb]. apply wp_bind, wp_db_get. clear i c s Hctx.
  pose proof (moved_inv _ _ M1 Hw) as I1. pose proof (mv_counted _ _ M1 _ _ Hcnt) as (i & c & s & Hctx & Hs & Hu & Hn & Ho).
  cbv zeta. rewrite Hctx. destruct (zdb_ts_slot_find (Some c) (Some name)) as [j|] eqn:Hfind; cycle 1.
  { exfalso. by eapply slot_find_None. }
  apply slot_find_Some in Hfind as (s' & Hs' & Hu' & Hn').
  pose proof (ti_ctx _ I1) as Hok. rewrite Hctx in Hok. simpl in Hok.
  assert (i = j) as <- by (eapply (sl_names _ Hok); [exact Hs|exact Hs'|done|done|congruence]).
  apply wp_bind, wp_bind, wp_gets, wp_bind.
  eapply (wp_moves _ _ any); [by destruct (_ <=? _)%Z; mv|done|reflexivity|]. intros st w2 M2 I2 L2 _.
  assert (counted_at (ts_ctx (w_db w2)) i name 1) as (c2 & s2 & Hctx2 & Hs2 & Hu2 & Hn2 & _).
  { apply (mv_at _ _ M2). by exists c, s. }
  apply wp_bind. eapply wp_slot_drop; [done..|]. intros b w3 D3 L3. apply wp_ret, wp_bind.
  assert (dropped name w w3) as D by (eapply dropped_moved, D3; by eapply moved_trans).
  eapply wp_moves; [apply moves_unlock|by eapply dropped_inv|rewrite L3, L2; exact L1|]. intros [] w4 M4 _ L4 _.
  apply wp_ret. split; [by eapply dropped_then|done].
Qed.

(** ** Appending *)

(** An append fills buffers; apart from that it is neutral. *)
Definition fills (a b : nat) {A} (m : M W A) : Prop :=
  ∀ w, ts_inv w → lock_depth (w_k w) = a →
    wp m (λ _ w', took 0 w w' ∧ lock_depth (w_k w') = b) w.

Lemma moves_fills a b {A} (R : A → Prop) (m : M W A) : moves a b R m → fills a b m.
Proof. intros Hm w Hw Ha. eapply wp_mono; [by apply Hm|]. intros r w' (M & ? & _). split; [by apply took_moved|done]. Qed.

Lemma fills_bind a b c {A B} (m : M W A) (k : A → M W B) :
  fills a b m → (∀ x, fills b c (k x)) → fills a c (bind m k).
Proof.
  intros Hm Hk w Hw Ha. apply wp_bind. eapply wp_mono; [by apply Hm|]. intros x w1 [T1 L1].
  eapply wp_mono; [apply Hk; [|exact L1]; by eapply took_inv, Hw; [|done]|]. intros y w2 [T2 L2].
  split; [by apply (took_trans 0 0 _ _ _ T1)|done].
Qed.

(** A flush that reports no error has emptied the buffer. *)
Lemma moves_active_path_neg a db i len :
  moves a a (λ p, ∀ rc, p = inl rc → (rc < 0)%Z) (zdb_ts_active_path db i len : M W _).
Proof.
  unfold zdb_ts_active_path. mv; intros rc.
  - by intros [= <-].
  - unfold zdb_ts_build_segment_path, ts_path. repeat case_match; naive_solver.
  - unfold zdb_ts_build_path, ts_path. repeat case_match; naive_solver.
Qed.

Lemma wp_flush_empties db i (Q : Z → W → Prop) w :
  ts_inv w →
  (∀ rc w', moved w w' → lock_depth (w_k w') = lock_depth (w_k w) →
     ((0 ≤ rc)%Z → used (w_db w') i = 0) → Q rc w') →
  wp (zdb_ts_flush_buffer_locked db (Some i)) Q w.
Proof.
  intros Hw HQ. pose proof (moved_refl _ Hw) as M0. unfold zdb_ts_flush_buffer_locked. apply wp_bind, wp_db_get.
  destruct (cfg (w_db w)); [|by apply wp_ret, HQ]. apply wp_bind, wp_gets.
  set (s := default zero_stream _). destruct (if in_use s then _ else _) as [buf|]; [|by apply wp_ret, HQ].
  destruct (Nat.eqb_spec (ingest_used s) 0) as [H0|_]; [by apply wp_ret, HQ|].
  apply wp_bind. eapply wp_moves; [apply moves_active_path_neg|done|reflexivity|].
  intros [rc|path] w1 M1 I1 L1 Hneg.
  { apply wp_ret, HQ; [done..|]. specialize (Hneg rc eq_refl). lia. }
  apply wp_bind. eapply wp_moves; [apply moves_append_file|done|reflexivity|]. intros rc w2 M2 I2 L2 _.
  pose proof (moved_trans _ _ _ M1 M2) as M12.
  destruct (Z.ltb_spec rc 0); [apply wp_ret, HQ; [done|congruence|lia]|].
  apply wp_bind. eapply (wp_moves _ _ any); [by destruct ZDB_TS_SEGMENTED; mv|done|reflexivity|]. intros [] w3 M3 I3 L3 _.
  apply wp_bind. eapply (wp_moves _ _ any); [by destruct CONFIG_ZDB_EVENTING; mv|done|reflexivity|]. intros [] w4 M4 I4 L4 _.
  apply wp_bind, wp_db_set. set (w5 := w4 <| w_db ::= _ |>).
  assert (moved w4 w5) as M5.
  { apply (moves_emptied (lock_depth (w_k w4)) i w4 I4 eq_refl). }
  assert (used (w_db w5) i = 0) as U5.
  { unfold used, ctx_streams, w5. simpl. destruct (ts_ctx (w_db w4)) as [c|]; [|done]. simpl.
    rewrite list_lookup_alter_eq. by destruct (streams c !! i). }
  assert (moved w w5) as M by (eapply moved_trans, M5; eapply moved_trans, M4; by eapply moved_trans).
  assert (lock_depth (w_k w5) = lock_depth (w_k w)) as L5 by (simpl; congruence).
  eapply (wp_moves _ _ any); [by destruct ZDB_TS_SEGMENTED; mv|by eapply moved_inv|reflexivity|]. intros rc6 w6 M6 _ L6 _.
  apply HQ; [by eapply moved_trans|congruence|]. intros _. destruct (mv_used _ _ M6 i); congruence.
Qed.

(** A record of the format in force fits where one of its size does. *)
Lemma length_record s x bytes :
  layout_ok s → zdb_ts_record_encode_as (zdb_ts_slot_version s) (zdb_ts_slot_base_ts s) x = Some bytes →
  length bytes = zdb_ts_slot_rec_size s.
Proof.
  intros Hl ->%length_encode_as. unfold zdb_ts_slot_version, zdb_ts_slot_rec_size.
  destruct ZDB_TS_SEGMENTED; [|done]. destruct Hl as [[-> ->]|[Hv ->]]; [done|].
  pose proof (rec_size_for_pos (seg_version s)).
  destruct (Nat.eqb_spec (zdb_ts_rec_size_for (seg_version s)) 0), (Z.eqb_spec (seg_version s) 0) as [Hz|]; try done; [lia..|].
  rewrite Hz in Hv. by destruct Hv.
Qed.

Lemma slot_rec_size_le s : layout_ok s → zdb_ts_slot_rec_size s ≤ sizeof_record_i64.
Proof.
  unfold zdb_ts_slot_rec_size, zdb_ts_rec_size_for, layout_ok, sizeof_record_i64, sizeof_record_v2.
  intros [[_ ->]|[_ ->]]; unfold zdb_ts_rec_size_for, sizeof_record_i64, sizeof_record_v2; repeat case_match; lia.
Qed.

Definition the_slot w i : zdb_ts_stream_ctx := default zero_stream (ctx_streams (w_db w) !! i).

Lemma the_slot_ok w i : ts_inv w → slot_ok (the_slot w i).
Proof.
  intros [Hc _]. unfold the_slot, ctx_streams. destruct (ts_ctx (w_db w)) as [c|]; [|apply zero_stream_ok].
  destruct (streams c !! i) as [s|] eqn:Hs; simpl; [by eapply sl_ok|apply zero_stream_ok].
Qed.

Lemma wp_put_record_fills i bytes n w :
  ts_inv w → used (w_db w) i + n ≤ ingest_limit → used (w_db w) i + length bytes ≤ ingest_limit →
  wp (put_record i bytes n) (λ _ w', took 0 w w' ∧ lock_depth (w_k w') = lock_depth (w_k w)) w.
Proof.
  intros Hw Hn Hlen. apply wp_db_set. split; [|done].
  destruct (slot_effect w i (λ s, s <| ingest_buf ::= option_map (λ b, buf_write b (ingest_used s) bytes) |>
      <| ingest_used := ingest_used s + n |>) Hw) as (Hok & Hsl & Hcnt).
  - unfold used in *. intros s Hs [Hl Hu Hf]. rewrite Hs in Hn, Hlen. simpl in Hn, Hlen.
    split; [|split; try done; unfold has_buf; simpl; by destruct (ingest_buf s)]. split; [done| |].
    + intros ((b & Hb & Hlb) & Hc & Hle & Hrest)%Hu. split; [|split; [done|split; [done|done]]].
      exists (buf_write b (ingest_used s) bytes). simpl. rewrite Hb. split; [done|].
      by rewrite length_buf_write; rewrite Hlb.
    + intros Hn0%Hf. simpl. by rewrite Hn0.
  - split; [apply ts_step_set_ctx|done|done| |].
    + intros t. rewrite Hsl. lia.
    + intros name m [j Hj]. exists j. by apply Hcnt.
Qed.

(** A block of the ingest slab holds a record of either format. *)
Context (block_fits : sizeof_record_i64 ≤ ingest_limit).

Lemma wp_rebase_fills db i x n w :
  ts_inv w → wp (rebase_record db i x n) (λ _ w', took 0 w w' ∧ lock_depth (w_k w') = lock_depth (w_k w)) w.
Proof.
  intros Hw. unfold rebase_record. apply wp_bind, wp_flush_empties; [done|]. intros rc w1 M1 L1 U1.
  pose proof (moved_inv _ _ M1 Hw) as I1. apply wp_bind.
  eapply (wp_mono _ (λ rc2 w2, moved w1 w2 ∧ lock_depth (w_k w2) = lock_depth (w_k w1) ∧
    ((0 ≤ rc2)%Z → used (w_db w2) i = 0))).
  { destruct (Z.eqb_spec rc 0) as [->|Hne].
    - eapply wp_moves; [apply moves_start_segment|done|reflexivity|]. intros rc2 w2 M2 _ L2 _.
      split; [done|]. split; [done|]. intros _. destruct (mv_used _ _ M2 i) as [E|E]; [|done].
      rewrite E. by apply U1.
    - apply wp_ret. split; [by apply moved_refl|done]. }
  intros rc2 w2 (M2 & L2 & U2). pose proof (moved_trans _ _ _ M1 M2) as M.
  assert (took 0 w w2 ∧ lock_depth (w_k w2) = lock_depth (w_k w)) as Hret
    by (split; [by apply took_moved|congruence]).
  destruct (Z.ltb_spec rc2 0); [by apply wp_ret|]. apply wp_bind, wp_gets. fold (the_slot w2 i).
  pose proof (moved_inv _ _ M2 I1) as I2. pose proof (the_slot_ok w2 i I2) as Hs.
  pose proof (slot_rec_size_le _ (so_layout _ Hs)) as Hle.
  destruct (zdb_ts_record_encode_as _ _ _) as [bytes|] eqn:Henc; [|by apply wp_ret].
  apply length_record in Henc; [|apply Hs]. apply wp_bind. eapply wp_mono.
  { apply wp_put_record_fills; [done|rewrite U2 by done; lia..]. }
  intros [] w3 [T3 L3]. apply wp_ret. split; [by apply (took_trans 0 0 _ _ _ (proj1 Hret))|]. destruct Hret. congruence.
Qed.

Lemma wp_encode_record_fills db i x n w :
  ts_inv w → used (w_db w) i + n ≤ ingest_limit →
  used (w_db w) i + zdb_ts_slot_rec_size (the_slot w i) ≤ ingest_limit →
  wp (encode_record db i x n) (λ _ w', took 0 w w' ∧ lock_depth (w_k w') = lock_depth (w_k w)) w.
Proof.
  intros Hw Hn Hrec. unfold encode_record. apply wp_bind, wp_gets. fold (the_slot w i).
  destruct (zdb_ts_record_encode_as _ _ _) as [bytes|] eqn:Henc.
  - apply length_record in Henc; [|by apply so_layout, the_slot_ok]. apply wp_bind. eapply wp_mono.
    { apply wp_put_record_fills; [done..|lia]. }
    intros [] w1 [T1 L1]. by apply wp_ret.
  - destruct ZDB_TS_SEGMENTED; [by apply wp_rebase_fills|]. apply wp_ret. split; [by apply took_moved, moved_refl|done].
Qed.

Lemma fills_append_record a db i x : fills a a (append_record db i x : M W _).
Proof.
  intros w Hw <-. unfold append_record. apply wp_bind, wp_gets. fold (the_slot w i).
  pose proof (the_slot_ok w i Hw) as Hs. pose proof (slot_rec_size_le _ (so_layout _ Hs)) as Hle.
  assert (∀ (r : zdb_status_t * nat) w', moved w w' → lock_depth (w_k w') = lock_depth (w_k w) →
    wp (ret r) (λ _ w1, took 0 w w1 ∧ lock_depth (w_k w1) = lock_depth (w_k w)) w') as Hret.
  { intros r w' M L. apply wp_ret. split; [by apply took_moved|done]. }
  destruct (Nat.ltb_spec (ingest_capacity (the_slot w i)) (zdb_ts_slot_rec_size (the_slot w i))) as [|Hcap];
    [by apply Hret; [apply moved_refl|]|].
  case_bool_decide as Hbuf; cbn [negb orb]; [|by apply Hret; [apply moved_refl|]].
  assert (ingest_capacity (the_slot w i) = ingest_limit) as Ecap.
  { destruct (in_use (the_slot w i)) eqn:Hu; [by apply so_used|]. rewrite (so_free _ Hs Hu) in Hbuf. by destruct Hbuf. }
  apply wp_bind. eapply (wp_mono _ (λ rc w1, moved w w1 ∧ lock_depth (w_k w1) = lock_depth (w_k w) ∧ ((0 ≤ rc)%Z →
    used (w_db w1) i + zdb_ts_slot_rec_size (the_slot w i) ≤ ingest_limit ∧
    used (w_db w1) i + zdb_ts_slot_rec_size (the_slot w1 i) ≤ ingest_limit))).
  { destruct (Nat.ltb_spec (ingest_capacity (the_slot w i)) (ingest_used (the_slot w i) + zdb_ts_slot_rec_size (the_slot w i))).
    - apply wp_flush_empties; [done|]. intros rc w1 M1 L1 U1. split; [done|]. split; [done|]. intros Hrc.
      rewrite U1 by done. pose proof (the_slot_ok w1 i (moved_inv _ _ M1 Hw)) as Hs1.
      pose proof (slot_rec_size_le _ (so_layout _ Hs1)). lia.
    - apply wp_ret. split; [by apply moved_refl|]. split; [done|]. intros _. unfold used. fold (the_slot w i). lia. }
  intros rc w1 (M1 & L1 & Hroom). destruct (Z.ltb_spec rc 0); [by apply Hret|].
  destruct (Hroom ltac:(lia)) as [Hr1 Hr2]. eapply wp_mono.
  { apply wp_encode_record_fills; [by eapply moved_inv|exact Hr1|exact Hr2]. }
  intros r w2 [T2 L2]. split; [by apply (took_trans 0 0 _ _ _ (took_moved _ _ M1))|congruence].
Qed.

Lemma fills_ret a {A} (x : A) : fills a a (ret x : M W A).
Proof. by apply (moves_fills _ _ any), moves_ret. Qed.

Lemma fills_lock a b {B} db (X : zdb_status_t → M W B) (Y : M W B) :
  (∀ rc, fills a b (X rc)) → fills (S a) b Y →
  fills a b (rc ← zdb_lock_write db; if negb (bool_decide (rc = ZDB_OK)) then X rc else Y).
Proof.
  intros HX HY w Hw Ha. apply wp_bind, wp_inv_lock; [done|..]; intros w1 M1 L1; cbn.
  - eapply wp_mono; [apply HY; [by eapply moved_inv|congruence]|]. intros r w2 [T2 L2].
    split; [by apply (took_trans 0 0 _ _ _ (took_moved _ _ M1))|done].
  - eapply wp_mono; [apply HX; [by eapply moved_inv|congruence]|]. intros r w2 [T2 L2].
    split; [by apply (took_trans 0 0 _ _ _ (took_moved _ _ M1))|done].
Qed.

Lemma fills_append_batch a db i xs : fills a a (append_batch db i xs : M W _).
Proof.
  induction xs as [|x xs IH]; cbn [append_batch]; [apply fills_ret|].
  eapply fills_bind; [apply fills_append_record|]. intros [st n]. case_bool_decide; [done|apply fills_ret].
Qed.

Lemma moves_append_event a ts x st :
  ts_db ts = Some the_db → moves a a any (append_event ts x st : M W _).
Proof. intros Hts. unfold append_event. rewrite Hts. mv. Qed.
#[local] Hint Resolve moves_append_event : moves.

(** One construct of a program that appends. *)
Ltac fl_step :=
  lazymatch goal with
  | |- fills _ _ (ret _) => apply fills_ret
  | |- fills _ _ (bind (zdb_lock_write _) _) => apply fills_lock; [intros ?|]
  | |- fills ?a _ (bind _ _) =>
      first [ eapply fills_bind; [first [apply fills_append_record|apply fills_append_batch]|intros ?]
            | eapply fills_bind; [solve [eapply moves_fills; eauto 2 with moves]|intros ?]
            | apply (fills_bind a a); [|intros ?] ]
  | |- fills _ _ (match ?x with _ => _ end) => destruct x eqn:?
  | |- fills _ _ _ => solve [eapply moves_fills; eauto 2 with moves]
  end.
Ltac fl := repeat (fl_step; cbn beta iota).

Lemma fills_append_i64 a ts x : fills a a (zdb_ts_append_i64 ts x : M W _).
Proof. unfold zdb_ts_append_i64. destruct ts as [[[[]|] ?]|]; cbn [ts_db]; fl. Qed.

Lemma fills_append_batch_i64 a ts xs : fills a a (zdb_ts_append_batch_i64 ts xs : M W _).
Proof. unfold zdb_ts_append_batch_i64. destruct ts as [[[[]|] ?]|]; cbn [ts_db]; fl. Qed.

End account.
