(* ===== verification/TsStream.v ===== *)
(** * A stream as a sequence of samples

    The abstract view of a stream: the samples in the records of its segment
    files, oldest first, followed by those of its ingest buffer. [stream_ok] is
    what holds of an open stream whose segments have been scanned. *)

From S2P Require Import Prelude Config CText Env Types FsEnv FsSpec Events CoreSpec Cursor TsFormat.
From S2P Require Import TsFormatSpec TsSpec TsStore TsSegment TsCursor TsFileSpec TsInv.

(** ** Fixed-size records *)

(** The whole records of [n] bytes at the front of [d]. *)
Definition records (n : nat) (d : list byte) : list (list byte) :=
  map (λ k, take n (drop (k * n) d)) (seq 0 (length d / n)).

Lemma records_nil n : records n [] = [].
Proof. unfold records. destruct n; [done|]. by rewrite Nat.Div0.div_0_l. Qed.

Lemma records_app n a b :
  0 < n → (n | length a) → records n (a ++ b) = records n a ++ records n b.
Proof.
  intros Hn [k Hk]. unfold records. rewrite length_app, Hk.
  rewrite Nat.div_add_l, Nat.div_mul, seq_app, map_app by lia. f_equal.
  - apply map_ext_in. intros j [_ Hj]%in_seq. rewrite drop_app_le by nia.
    rewrite take_app_le; [done|]. rewrite length_drop. nia.
  - pose proof (fmap_add_seq k 0 (length b / n)) as Hseq. rewrite Nat.add_0_r in Hseq.
    simpl. rewrite <- Hseq. unfold fmap. change (list_fmap _ _) with (@map nat nat).
    rewrite map_map. apply map_ext. intros j.
    rewrite drop_app_ge by nia. do 2 f_equal. nia.
Qed.

Lemma records_one r : r ≠ [] → records (length r) r = [r].
Proof.
  intros Hr. assert (length r ≠ 0) by (by destruct r). unfold records.
  rewrite Nat.div_same by done. simpl. by rewrite drop_0, take_ge.
Qed.

Lemma length_records n d : length (records n d) = length d / n.
Proof. unfold records. by rewrite length_map, length_seq. Qed.

(** ** Names of segment files *)

Lemma fmt_04u_value n : (0 ≤ n < 2 ^ 32)%Z → fold_left digit_value (fmt_04u n) 0%Z = n.
Proof.
  intros Hn. unfold fmt_04u. rewrite fold_left_app.
  assert (∀ k, fold_left digit_value (replicate k (digit 0)) 0%Z = 0%Z) as ->.
  { intros k. induction k as [|k IH]; simpl; [done|]. by rewrite digit_value_digit by lia. }
  rewrite dec_digits_value; [done|]. simpl. lia.
Qed.

Section stream.
Context {Cfg : Config} {CRC : Crc32}.

Definition ts_dir (c : option zdb_cfg_t) : list byte :=
  default [] (c ≫= lfs_mount_point) ++ s2b "/" ++ CONFIG_ZDB_TS_DIRNAME ++ s2b "/".
Definition seg_file (c : option zdb_cfg_t) (name : cstring) (n : Z) : list byte :=
  ts_dir c ++ name ++ s2b "." ++ fmt_04u n ++ s2b ".zts".

Lemma seg_file_inj c name m n :
  (0 ≤ m < 2 ^ 32)%Z → (0 ≤ n < 2 ^ 32)%Z → seg_file c name m = seg_file c name n → m = n.
Proof.
  intros Hm Hn Heq. unfold seg_file in Heq. apply app_inv_head, app_inv_head, app_inv_head in Heq.
  apply app_inv_tail in Heq. rewrite <- (fmt_04u_value m), <- (fmt_04u_value n) by done. by f_equal.
Qed.

Lemma ts_path_cases c name len suffix :
  (∃ rc, ts_path c (Some name) len suffix = inl rc ∧ (rc < 0)%Z) ∨
  (ts_path c (Some name) len suffix = inr (ts_dir c ++ suffix name) ∧
   zdb_ts_stream_name_valid (Some name) = true).
Proof.
  assert (∀ rc A, (rc < 0)%Z → (∃ rc', @inl Z (list byte) rc = inl rc' ∧ (rc' < 0)%Z) ∨ A) as Hneg.
  { intros rc A Hrc. left. by exists rc. }
  unfold ts_path, ts_dir. destruct c as [c|]; [|by apply Hneg].
  change (Some c ≫= lfs_mount_point) with (lfs_mount_point c).
  destruct (lfs_mount_point c) as [mount|]; [|by apply Hneg]. cbn [default].
  destruct (len =? 0); [by apply Hneg|].
  destruct (negb (zdb_ts_stream_name_valid (Some name))) eqn:Hv; [by apply Hneg|].
  destruct (len <=? _); [by apply Hneg|]. right. split; [|by apply negb_false_iff].
  by rewrite <- !app_assoc.
Qed.

(** The file of segment [n]; there is only one in the single-file layout. *)
Definition stream_file (c : option zdb_cfg_t) (name : cstring) (n : Z) : list byte :=
  if ZDB_TS_SEGMENTED then seg_file c name n else ts_dir c ++ name ++ s2b ".zts".

Lemma stream_file_inj c name m n :
  ZDB_TS_SEGMENTED = true → (0 ≤ m < 2 ^ 32)%Z → (0 ≤ n < 2 ^ 32)%Z →
  stream_file c name m = stream_file c name n → m = n.
Proof. unfold stream_file. intros ->. apply seg_file_inj. Qed.

Lemma stream_path_cases c name len :
  (∃ rc, zdb_ts_build_path c (Some name) len = inl rc ∧ (rc < 0)%Z) ∨
  zdb_ts_build_path c (Some name) len = inr (ts_dir c ++ name ++ s2b ".zts").
Proof. destruct (ts_path_cases c name len (λ name, name ++ s2b ".zts")) as [?|[? _]]; auto. Qed.

Lemma segment_path_cases c name n len :
  (∃ rc, zdb_ts_build_segment_path c (Some name) n len = inl rc ∧ (rc < 0)%Z) ∨
  zdb_ts_build_segment_path c (Some name) n len = inr (seg_file c name n).
Proof. destruct (ts_path_cases c name len (λ name, name ++ s2b "." ++ fmt_04u n ++ s2b ".zts")) as [?|[? _]]; auto. Qed.

(** ** The samples of a stream *)

Definition samples (v base : Z) (d : list byte) : list zdb_ts_sample_i64_t :=
  omap (decode_pure v base) (records (zdb_ts_rec_size_for v) d).

Definition file_samples (name : cstring) (d : list byte) : list zdb_ts_sample_i64_t :=
  match header_pure name d with
  | Some (v, base) => samples v base (drop (zdb_ts_hdr_size_for v) d)
  | None => []
  end.

Definition seg_samples (c : option zdb_cfg_t) (fs : gmap (list byte) (list byte)) (name : cstring)
    (n : Z) : list zdb_ts_sample_i64_t :=
  match fs !! stream_file c name n with Some d => file_samples name d | None => [] end.

(** What is stored in the segments from [lo] on, and what is buffered. *)
Definition stored (c : option zdb_cfg_t) (fs : gmap (list byte) (list byte)) (name : cstring)
    (lo hi : Z) : list zdb_ts_sample_i64_t :=
  concat (map (seg_samples c fs name) (seqZ lo (hi - lo + 1))).

Definition buffered (s : zdb_ts_stream_ctx) : list zdb_ts_sample_i64_t :=
  samples (zdb_ts_slot_version s) (zdb_ts_slot_base_ts s)
    (take (ingest_used s) (default [] (ingest_buf s))).

Definition stream_samples (c : option zdb_cfg_t) (fs : gmap (list byte) (list byte))
    (s : zdb_ts_stream_ctx) : list zdb_ts_sample_i64_t :=
  stored c fs (st_name s) (oldest_seg s) (cur_seg s) ++ buffered s.

(** *** How the samples follow the files *)

Lemma header_pure_app name d r v :
  header_pure name d = Some v → header_pure name (d ++ r) = Some v.
Proof.
  intros Hh. pose proof (header_pure_ok _ _ _ Hh) as (_ & _ & Hlen).
  destruct (decide (ZDB_TS_HDR_MAX_SIZE ≤ length d)) as [Hge|Hlt].
  { unfold header_pure in *. by rewrite take_app_le. }
  unfold header_pure in *. set (raw := take ZDB_TS_HDR_MAX_SIZE d) in *.
  assert (raw = d) as Hraw by (unfold raw; apply take_ge; lia). clearbody raw. subst raw.
  set (raw := take ZDB_TS_HDR_MAX_SIZE (d ++ r)).
  destruct (Nat.ltb_spec (length d) sizeof_stream_header) as [|H16]; [done|].
  assert (∀ n, n ≤ length d → take n raw = take n d) as Htake.
  { intros n Hn. unfold raw. rewrite take_take, Nat.min_l by lia. by apply take_app_le. }
  assert (get_le 2 raw 4 = get_le 2 d 4) as Hv.
  { rewrite <- (get_le_take 2 sizeof_stream_header raw), <- (get_le_take 2 sizeof_stream_header d)
      by (unfold sizeof_stream_header; lia). by rewrite Htake. }
  rewrite Hv, (Htake sizeof_stream_header) by lia.
  destruct (Nat.ltb_spec (length raw) sizeof_stream_header) as [Hl|_].
  { unfold raw in Hl. rewrite length_take, length_app in Hl.
    unfold ZDB_TS_HDR_MAX_SIZE, sizeof_stream_header_v2, sizeof_stream_header in *. lia. }
  destruct (_ =? ZDB_TS_STREAM_VERSION_V2)%Z; [|done].
  destruct (Nat.ltb_spec (length d) sizeof_stream_header_v2); [done|].
  unfold ZDB_TS_HDR_MAX_SIZE in *. lia.
Qed.

(** The header is all a prefix needs to keep. *)
Lemma header_pure_take name d n v base :
  header_pure name d = Some (v, base) → zdb_ts_hdr_size_for v ≤ n →
  header_pure name (take n d) = Some (v, base).
Proof.
  intros Hh Hn. pose proof (header_pure_ok _ _ _ Hh) as (_ & _ & Hlen). cbn [fst] in Hlen.
  destruct (decide (ZDB_TS_HDR_MAX_SIZE ≤ n)) as [Hge|Hlt].
  { unfold header_pure in *. by rewrite take_take, Nat.min_l. }
  unfold header_pure in *. cbv zeta in *.
  set (raw := take ZDB_TS_HDR_MAX_SIZE d) in *. set (raw' := take ZDB_TS_HDR_MAX_SIZE (take n d)).
  destruct (Nat.ltb_spec (length raw) sizeof_stream_header) as [|H16]; [done|].
  destruct (Z.eqb_spec (get_le 2 raw 4) ZDB_TS_STREAM_VERSION_V2) as [Hv|Hv].
  { destruct (_ <? _); [done|]. destruct (_ && _); [|done]. injection Hh as <- <-.
    unfold zdb_ts_hdr_size_for, ZDB_TS_HDR_MAX_SIZE in *. simpl in Hn. lia. }
  assert (sizeof_stream_header ≤ n) as H16n.
  { unfold zdb_ts_hdr_size_for in Hn. unfold sizeof_stream_header, sizeof_stream_header_v2 in *.
    destruct (v =? ZDB_TS_STREAM_VERSION_V2)%Z; lia. }
  assert (take sizeof_stream_header raw' = take sizeof_stream_header raw) as Htake.
  { unfold raw, raw'. rewrite !take_take. f_equal.
    unfold ZDB_TS_HDR_MAX_SIZE, sizeof_stream_header_v2, sizeof_stream_header in *. lia. }
  assert (get_le 2 raw' 4 = get_le 2 raw 4) as Hg.
  { rewrite <- (get_le_take 2 sizeof_stream_header raw), <- (get_le_take 2 sizeof_stream_header raw')
      by (unfold sizeof_stream_header; lia). by rewrite Htake. }
  destruct (Nat.ltb_spec (length raw') sizeof_stream_header) as [Hl|_].
  { unfold raw, raw' in *. rewrite !length_take in *. lia. }
  rewrite Hg, Htake. by destruct (Z.eqb_spec (get_le 2 raw 4) ZDB_TS_STREAM_VERSION_V2).
Qed.

Lemma samples_app v base a b :
  (zdb_ts_rec_size_for v | length a) → samples v base (a ++ b) = samples v base a ++ samples v base b.
Proof.
  intros Hd. unfold samples. rewrite records_app by (done || apply rec_size_for_pos).
  by rewrite omap_app.
Qed.

Lemma samples_one v base r x :
  length r = zdb_ts_rec_size_for v → decode_pure v base r = Some x → samples v base r = [x].
Proof.
  intros Hl Hd. unfold samples. rewrite <- Hl, records_one.
  - simpl. by rewrite Hd.
  - intros ->. pose proof (rec_size_for_pos v). simpl in Hl. lia.
Qed.

(** A file whose records fill it exactly. *)
Definition aligned (d : list byte) (v : Z) : Prop :=
  (zdb_ts_rec_size_for v | length d - zdb_ts_hdr_size_for v).

Lemma file_samples_app name d r v base :
  header_pure name d = Some (v, base) → aligned d v →
  file_samples name (d ++ r) = file_samples name d ++ samples v base r.
Proof.
  intros Hh Ha. pose proof (header_pure_ok _ _ _ Hh) as (_ & _ & Hlen). simpl in Hlen.
  unfold file_samples. rewrite (header_pure_app _ _ r _ Hh), Hh, drop_app_le by done.
  apply samples_app. by rewrite length_drop.
Qed.

Lemma aligned_app d r v :
  zdb_ts_hdr_size_for v ≤ length d → aligned d v → (zdb_ts_rec_size_for v | length r) →
  aligned (d ++ r) v.
Proof.
  unfold aligned. intros Hl Ha Hr. rewrite length_app.
  replace (length d + length r - zdb_ts_hdr_size_for v)
    with (length d - zdb_ts_hdr_size_for v + length r) by lia.
  by apply Nat.divide_add_r.
Qed.

Lemma stored_ext c fs fs' name lo hi :
  (∀ n, (lo ≤ n ≤ hi)%Z → fs' !! stream_file c name n = fs !! stream_file c name n) →
  stored c fs' name lo hi = stored c fs name lo hi.
Proof.
  intros Heq. unfold stored. f_equal. apply map_ext_in. intros n Hn.
  apply list_elem_of_In, elem_of_seqZ in Hn. unfold seg_samples. rewrite Heq; [done|lia].
Qed.

Lemma stored_split c fs name lo m hi :
  (lo ≤ m ≤ hi + 1)%Z →
  stored c fs name lo hi = stored c fs name lo (m - 1) ++ stored c fs name m hi.
Proof.
  intros Hm. unfold stored. replace (hi - lo + 1)%Z with ((m - 1 - lo + 1) + (hi - m + 1))%Z by lia.
  rewrite seqZ_app, map_app, concat_app by lia. do 4 f_equal. lia.
Qed.

Lemma stored_none c fs name lo : stored c fs name lo (lo - 1) = [].
Proof. unfold stored. by replace (lo - 1 - lo + 1)%Z with 0%Z by lia. Qed.

Lemma stored_one c fs name n : stored c fs name n n = seg_samples c fs name n.
Proof.
  unfold stored. replace (n - n + 1)%Z with 1%Z by lia. unfold seqZ. simpl.
  by rewrite Z.add_0_l, app_nil_r.
Qed.

Lemma stored_last c fs name lo hi :
  (lo ≤ hi)%Z →
  stored c fs name lo hi = stored c fs name lo (hi - 1) ++ seg_samples c fs name hi.
Proof. intros Hle. rewrite (stored_split c fs name lo hi hi) by lia. by rewrite stored_one. Qed.

(** *** Open streams *)

(** The version a new file is written in. *)
Definition native_version : Z :=
  if CONFIG_ZDB_TS_DELTA_ENCODING then ZDB_TS_STREAM_VERSION_V2 else ZDB_TS_STREAM_VERSION.

(** An open stream: its slot is in use and its segments have been scanned, its
    active file exists, belongs to it, holds whole records of the version the
    build writes, and is the last one; the buffer holds whole records. *)
Record stream_ok (c : option zdb_cfg_t) (fs : gmap (list byte) (list byte))
    (s : zdb_ts_stream_ctx) : Prop := {
  sk_slot : slot_ok s;
  sk_used : in_use s = true;
  sk_scanned : if ZDB_TS_SEGMENTED then segs_scanned s = true
               else oldest_seg s = 0%Z ∧ cur_seg s = 0%Z;
  sk_window : (0 ≤ oldest_seg s ≤ cur_seg s)%Z ∧ (cur_seg s < 2 ^ 32)%Z;
  sk_base : (0 ≤ zdb_ts_slot_base_ts s < 2 ^ 64)%Z;
  sk_version : zdb_ts_slot_version s = native_version;
  sk_rec_size : zdb_ts_slot_rec_size s = zdb_ts_rec_size_for native_version;
  sk_active : ∃ d, fs !! stream_file c (st_name s) (cur_seg s) = Some d ∧
    header_pure (st_name s) d = Some (native_version, zdb_ts_slot_base_ts s) ∧
    aligned d native_version;
  sk_fresh : ZDB_TS_SEGMENTED = true → ∀ n, (cur_seg s < n < 2 ^ 32)%Z →
    fs !! seg_file c (st_name s) n = None;
  sk_buffer : (zdb_ts_rec_size_for native_version | ingest_used s);
}.

Lemma new_header_version name base : (new_header name base).2.1 = native_version.
Proof. unfold new_header, native_version. by destruct CONFIG_ZDB_TS_DELTA_ENCODING. Qed.

Lemma native_version_ok : version_ok native_version.
Proof. unfold native_version, version_ok. destruct CONFIG_ZDB_TS_DELTA_ENCODING; auto. Qed.

(** The samples only depend on some fields of the slot. *)
Lemma stream_samples_cong c fs s s' :
  st_name s' = st_name s → oldest_seg s' = oldest_seg s → cur_seg s' = cur_seg s →
  ingest_used s' = ingest_used s → ingest_buf s' = ingest_buf s →
  zdb_ts_slot_version s' = zdb_ts_slot_version s → zdb_ts_slot_base_ts s' = zdb_ts_slot_base_ts s →
  stream_samples c fs s' = stream_samples c fs s.
Proof. unfold stream_samples, buffered. by intros -> -> -> -> -> -> ->. Qed.

Lemma samples_nil v base : samples v base [] = [].
Proof. unfold samples. by rewrite records_nil. Qed.

(** Only the active file changes: the samples before it stay. *)
Lemma stored_active c fs s d' :
  stream_ok c fs s →
  stored c (<[stream_file c (st_name s) (cur_seg s) := d']> fs) (st_name s)
    (oldest_seg s) (cur_seg s) =
  stored c fs (st_name s) (oldest_seg s) (cur_seg s - 1) ++ file_samples (st_name s) d'.
Proof.
  intros [_ _ Hsc [Hw Hw32] _ _ _ _ _ _]. rewrite stored_last by lia. f_equal.
  - apply stored_ext. intros n Hn. apply lookup_insert_ne.
    destruct ZDB_TS_SEGMENTED eqn:HS; [|lia].
    intros Heq%stream_file_inj; [lia|done|lia..].
  - unfold seg_samples. by rewrite lookup_insert_eq.
Qed.

Lemma length_used s b : slot_ok s → in_use s = true → ingest_buf s = Some b →
  length (take (ingest_used s) b) = ingest_used s.
Proof.
  intros [_ Hu _] Hin Hb. destruct (Hu Hin) as ((b' & Hb' & Hl) & _ & Hle & _).
  rewrite Hb in Hb'. injection Hb' as <-. rewrite length_take. lia.
Qed.

(** A flushed buffer has moved to the end of the active file. *)
Lemma flushed_ok c fs s buf d cb pf :
  stream_ok c fs s → ingest_buf s = Some buf →
  fs !! stream_file c (st_name s) (cur_seg s) = Some d →
  let fs' := <[stream_file c (st_name s) (cur_seg s) := d ++ take (ingest_used s) buf]> fs in
  let s' := s <| cur_seg_bytes := cb |> <| pending_flush_bytes := pf |> <| ingest_used := 0 |> in
  stream_ok c fs' s' ∧ stream_samples c fs' s' = stream_samples c fs s.
Proof.
  intros Hok Hb Hd fs' s'. pose proof Hok as [Hs Hu Hsc [Hw Hw32] Hba Hv Hr Hact Hfr Hbuf].
  destruct Hact as (d' & Hd' & Hh & Ha). rewrite Hd in Hd'. injection Hd' as <-.
  pose proof (header_pure_ok _ _ _ Hh) as (_ & _ & Hlen). simpl in Hlen.
  pose proof (length_used _ _ Hs Hu Hb) as Hused. split.
  - split; try done.
    + destruct Hs as [Hl Hus Hfree]. split; try done. intros _. destruct (Hus Hu) as (? & ? & ? & ? & ?).
      split_and!; try done; simpl; lia.
    + exists (d ++ take (ingest_used s) buf). unfold fs'. rewrite lookup_insert_eq.
      split_and!; [done|by apply header_pure_app|]. apply aligned_app; [done..|]. by rewrite Hused.
    + intros HS n Hn. unfold fs'. rewrite lookup_insert_ne; [by apply Hfr|].
      unfold stream_file. rewrite HS. intros Heq%seg_file_inj; simpl in *; lia.
    + apply Nat.divide_0_r.
  - unfold stream_samples, fs'. simpl st_name. simpl oldest_seg. simpl cur_seg.
    rewrite stored_active by done. rewrite (file_samples_app _ _ _ _ _ Hh Ha), app_assoc.
    unfold buffered at 1. simpl ingest_used. rewrite take_0, samples_nil, app_nil_r.
    f_equal.
    + rewrite (stored_last _ _ _ _ (cur_seg s)) by lia. unfold seg_samples. by rewrite Hd.
    + unfold buffered. by rewrite Hv, Hb.
Qed.

(** *** What rollover may discard *)

(** [gone] may only be lost where rollover is on and the stream is left with
    its full complement of segments; and a new segment never exceeds that. *)
Definition discards (s s' : zdb_ts_stream_ctx) (gone : list zdb_ts_sample_i64_t) : Prop :=
  (oldest_seg s' = oldest_seg s ∧ gone = [] ∧
     (cur_seg s' = cur_seg s ∨ CONFIG_ZDB_TS_ROLLOVER = false ∨
      (cur_seg s' + 1 - oldest_seg s' ≤ CONFIG_ZDB_TS_ROLLOVER_MAX_SEGMENTS)%Z)) ∨
  (CONFIG_ZDB_TS_ROLLOVER = true ∧
     (cur_seg s' + 1 - oldest_seg s' = CONFIG_ZDB_TS_ROLLOVER_MAX_SEGMENTS)%Z).

Lemma discards_nil s s' :
  oldest_seg s' = oldest_seg s → cur_seg s' = cur_seg s → discards s s' [].
Proof. intros ? ?. left. auto. Qed.

Lemma discards_trans s1 s2 s3 g1 g2 :
  (cur_seg s1 ≤ cur_seg s2 ≤ cur_seg s3)%Z →
  discards s1 s2 g1 → discards s2 s3 g2 → discards s1 s3 (g1 ++ g2).
Proof.
  intros Hle [(O1 & -> & C1)|[R1 W1]] [(O2 & -> & C2)|[R2 W2]]; [|by right| |by right].
  - left. split_and!; [congruence|done|]. destruct C2 as [->|[?|?]]; auto.
    destruct C1 as [->|[?|?]]; auto. right. right. by rewrite O2.
  - right. split; [done|]. destruct C2 as [C2|[?|?]]; [|congruence|]; lia.
Qed.

Lemma discards_bound s s' gone :
  discards s s' gone → CONFIG_ZDB_TS_ROLLOVER = true →
  (cur_seg s + 1 - oldest_seg s ≤ CONFIG_ZDB_TS_ROLLOVER_MAX_SEGMENTS)%Z →
  (cur_seg s' + 1 - oldest_seg s' ≤ CONFIG_ZDB_TS_ROLLOVER_MAX_SEGMENTS)%Z.
Proof. intros [(O & _ & [C|[?|?]])|[_ W]] HR Hb; [|congruence| |]; lia. Qed.
End stream.
