(* ===== verification/TsFlushSpec.v ===== *)
(** * What flushing a slot does to the slot and to the files

    [at_slot i s w0 w] says that [w] is [w0] with the [i]-th slot set to [s],
    up to files, statistics and the clock. The rules of this file follow the
    flush of an open, scanned stream: the buffer goes to the end of the active
    segment, a full segment is succeeded by a new one, and the oldest segments
    beyond the bound are unlinked. *)

From S2P Require Import Prelude Config Env Types FsEnv FsSpec Events CoreSpec Cursor TsFormat.
From S2P Require Import TsFormatSpec TsSpec TsStore TsSegment TsCursor TsFileSpec TsInv TsStream.

Section slots.
Context {Cfg : Config} {CfgOk : ConfigOk Cfg} {K F FS : Type}.
Context `{!Kernel K, !KernelLaws K}.
Abbreviation W := (world K F FS).
Implicit Types w : W.

Definition slot_is w (i : nat) (s : zdb_ts_stream_ctx) : Prop := ctx_streams (w_db w) !! i = Some s.

Definition set_slot (i : nat) (s : zdb_ts_stream_ctx) (c : option zdb_ts_core_ctx)
    : option zdb_ts_core_ctx :=
  option_map (λ c, c <| streams ::= alter (λ _, s) i |>) c.

Record at_slot (i : nat) (s : zdb_ts_stream_ctx) w0 w : Prop := {
  as_calm : calm w0 w;
  as_ctx : ts_ctx (w_db w) = set_slot i s (ts_ctx (w_db w0));
  as_slot : slot_is w i s;
}.

Lemma set_slot_id i s c : (∃ c', c = Some c' ∧ streams c' !! i = Some s) → set_slot i s c = c.
Proof.
  intros (c' & -> & Hs). simpl. f_equal. destruct c'; simpl in *.
  unfold RecordSettersUsingExistingGetters.set; simpl. f_equal.
  apply list_eq. intros j. destruct (decide (i = j)) as [<-|Hne].
  - by rewrite list_lookup_alter_eq, Hs.
  - by rewrite list_lookup_alter_ne.
Qed.

Lemma set_slot_twice i s s' c : set_slot i s' (set_slot i s c) = set_slot i s' c.
Proof.
  destruct c as [c|]; [|done]. simpl. f_equal. destruct c; simpl.
  unfold RecordSettersUsingExistingGetters.set; simpl. f_equal.
  apply list_eq. intros j. destruct (decide (i = j)) as [<-|Hne].
  - rewrite !list_lookup_alter_eq. by destruct (_ !! i).
  - by rewrite !list_lookup_alter_ne.
Qed.

Lemma slot_is_ctx w i s : slot_is w i s → ∃ c, ts_ctx (w_db w) = Some c ∧ streams c !! i = Some s.
Proof. unfold slot_is, ctx_streams. destruct (ts_ctx (w_db w)) as [c|]; [|done]. by exists c. Qed.

Lemma slot_is_set w w' i s s' :
  slot_is w i s → ts_ctx (w_db w') = set_slot i s' (ts_ctx (w_db w)) → slot_is w' i s'.
Proof.
  intros (c & Hc & Hs)%slot_is_ctx Hctx. unfold slot_is, ctx_streams. rewrite Hctx, Hc. simpl.
  by rewrite list_lookup_alter_eq, Hs.
Qed.

Lemma at_slot_refl w i s : slot_is w i s → at_slot i s w w.
Proof.
  intros Hs. split; [done| |done]. symmetry. by apply set_slot_id, slot_is_ctx.
Qed.

Lemma at_slot_calm i s w0 w w' :
  at_slot i s w0 w → calm w w' → ts_ctx (w_db w') = ts_ctx (w_db w) → at_slot i s w0 w'.
Proof.
  intros [C X S0] C' X'. split; [by etrans|congruence|]. unfold slot_is, ctx_streams in *. by rewrite X'.
Qed.

Lemma at_slot_set i s s' w0 w w' :
  at_slot i s w0 w → calm w w' → ts_ctx (w_db w') = set_slot i s' (ts_ctx (w_db w)) →
  at_slot i s' w0 w'.
Proof.
  intros [C X S0] C' X'. split; [by etrans|rewrite X', X; apply set_slot_twice|].
  by eapply slot_is_set.
Qed.

Lemma at_slot_trans i s s' w0 w1 w2 : at_slot i s w0 w1 → at_slot i s' w1 w2 → at_slot i s' w0 w2.
Proof. intros A [C X _]. by eapply at_slot_set. Qed.

Lemma at_slot_cfg i s w0 w : at_slot i s w0 w → cfg (w_db w) = cfg (w_db w0).
Proof. intros A. apply calm_cfg, A. Qed.

Lemma wp_slot_get i s (Q : zdb_ts_stream_ctx → W → Prop) w :
  slot_is w i s → Q s w → wp (slot_get i) Q w.
Proof. intros Hs HQ. unfold slot_get. apply wp_db_get. unfold slot_is in Hs. by rewrite Hs. Qed.

Lemma alter_const {A} (f : A → A) i s (l : list A) :
  l !! i = Some s → alter f i l = alter (λ _, f s) i l.
Proof.
  intros Hs. apply list_eq. intros j. destruct (decide (i = j)) as [<-|Hne].
  - by rewrite !list_lookup_alter_eq, Hs.
  - by rewrite !list_lookup_alter_ne.
Qed.

Lemma wp_slot_upd i s f (Q : unit → W → Prop) w0 w :
  at_slot i s w0 w →
  (∀ w', at_slot i (f s) w0 w' → w_fs w' = w_fs w → Q tt w') →
  wp (slot_upd i f) Q w.
Proof.
  intros A HQ. unfold slot_upd, ctx_upd. apply wp_db_set, HQ; [|done].
  pose proof (as_slot _ _ _ _ A) as Hs. apply slot_is_ctx in Hs as (c & Hc & Hs).
  eapply at_slot_set; [exact A|split; [|done]|].
  - apply (ts_step_intro _ _ (option_map (λ c, c <| streams ::= alter f i |>) (ts_ctx (w_db w)))
      (ts_stats (w_db w)) (health (w_db w)) (health_prev (w_db w)) (health_event_pending (w_db w)));
      done.
  - simpl. rewrite Hc. simpl. f_equal. destruct c; simpl in *.
    unfold RecordSettersUsingExistingGetters.set; simpl. f_equal.
    by apply alter_const.
Qed.
End slots.

Section flush.
Context {Cfg : Config} {CfgOk : ConfigOk Cfg} {K F FS FH DH : Type}.
Context `{!Kernel K, !KernelLaws K, !FileSys FS FH DH, !FileSysLaws FS FH DH}.
Context {CRC : Crc32} {CRCLaws : Crc32Laws} {CloseOk : FsCloseOk FS FH DH}.
Abbreviation W := (world K F FS).
Implicit Types w : W.

(** ** Appending to a file *)

Lemma wp_append_file p data (Q : Z → W → Prop) w :
  (∀ rc w', (rc < 0)%Z → calm w w' → ts_ctx (w_db w') = ts_ctx (w_db w) →
     files_but p (w_fs w) (w_fs w') → Q rc w') →
  (∀ w', calm w w' → ts_ctx (w_db w') = ts_ctx (w_db w) →
     files w' = <[p := default [] (files w !! p) ++ data]> (files w) → Q 0%Z w') →
  wp (append_file p data) Q w.
Proof.
  intros Hbad Hok. unfold append_file. apply wp_bind, wp_fs_open.
  { intros rc fh fs' Hrc Hfs _. rewrite (proj2 (Z.ltb_lt _ _)) by done.
    apply wp_ret, Hbad; [done|apply calm_fs|done|]. intros q _. unfold files in Hfs. simpl. by rewrite Hfs. }
  intros fh fs1 d0 Hap Hop Hfs1. change (0 <? 0)%Z with false. cbn iota. set (w1 := w <| w_fs := fs1 |>).
  assert (d0 = default [] (files w !! p)) as ->.
  { revert Hop. destruct (files w !! p); simpl; congruence. }
  set (d := default [] (files w !! p)) in *.
  assert (files w1 = <[p := d]> (files w)) as Hf1 by exact Hfs1.
  apply wp_bind. eapply (wp_fs_write _ _ _ _ d); [exact Hap|by rewrite Hf1, lookup_insert_eq|].
  intros rc fh2 fs2 k Hk Hrc Hfs2 _ _. simpl fs_o_append in Hfs2. cbn iota in Hfs2.
  rewrite Hf1, insert_insert_eq in Hfs2.
  destruct ((rc <? 0)%Z || negb (rc =? length data)%Z) eqn:Hcond.
  - apply wp_bind, wp_fs_close_ok; [done|]. intros fs3 Hfs3. apply wp_ret, Hbad.
    + destruct (Z.ltb_spec rc 0); [done|]. unfold EIO. lia.
    + do 2 (etrans; [apply calm_fs|]). apply calm_fs.
    + done.
    + intros q Hq. unfold files in *. simpl in *. by rewrite Hfs3, Hfs2, lookup_insert_ne.
  - apply orb_false_iff in Hcond as [?%Z.ltb_ge Heq%negb_false_iff%Z.eqb_eq].
    assert (k = length data) as -> by (destruct Hrc; lia).
    rewrite take_ge in Hfs2 by done. rewrite file_write_end in Hfs2.
    apply wp_bind, wp_fs_close_ok; [done|]. intros fs3 Hfs3. apply wp_ret, Hok.
    + do 2 (etrans; [apply calm_fs|]). apply calm_fs.
    + done.
    + unfold files in *. simpl in *. by rewrite Hfs3.
Qed.

(** ** Discarding the oldest segments *)

(** The segments numbered from [lo] up to but excluding [hi] are gone from
    [fs'], and nothing else differs from [fs]. *)
Record unlinked (c : option zdb_cfg_t) (name : cstring) (lo hi : Z)
    (fs fs' : gmap (list byte) (list byte)) : Prop := {
  ul_gone : ∀ n, (lo ≤ n < hi)%Z → fs' !! seg_file c name n = None;
  ul_rest : ∀ q, (∀ n, (lo ≤ n < hi)%Z → q ≠ seg_file c name n) → fs' !! q = fs !! q;
}.

Lemma unlinked_refl c name lo fs : unlinked c name lo lo fs fs.
Proof. split; [lia|done]. Qed.

Lemma unlinked_step c name lo hi fs fs1 fs2 :
  (lo < hi)%Z → fs1 = delete (seg_file c name lo) fs → unlinked c name (lo + 1) hi fs1 fs2 →
  (0 ≤ lo)%Z → (hi < 2 ^ 32)%Z → unlinked c name lo hi fs fs2.
Proof.
  intros Hlt -> [Hg Hr] H0 H32. split.
  - intros n Hn. destruct (decide (n = lo)) as [->|Hne]; [|apply Hg; lia].
    rewrite Hr, lookup_delete_eq; [done|]. intros m Hm Heq%seg_file_inj; lia.
  - intros q Hq. rewrite Hr, lookup_delete_ne; [done| |].
    + intros <-. by apply (Hq lo); [lia|].
    + intros n Hn. apply Hq. lia.
Qed.

(** The oldest segment that stays when the newest is [cur]. *)
Definition kept_from (oldest cur : Z) : Z :=
  Z.max oldest (cur + 1 - CONFIG_ZDB_TS_ROLLOVER_MAX_SEGMENTS).

Lemma wp_stat_discarded p i s (Q : unit → W → Prop) w0 w :
  at_slot i s w0 w →
  (∀ w' pd, at_slot i (s <| pending_discarded_bytes := pd |>) w0 w' → files w' = files w → Q tt w') →
  wp (if CONFIG_ZDB_EVENTING then
        '(rc, discarded) ← on_fs (fs_stat p);
        if (rc =? 0)%Z
        then slot_upd i (λ s, s <| pending_discarded_bytes ::= λ n, n + de_size discarded |>)
        else ret tt
      else ret tt) Q w.
Proof.
  intros A HQ. assert (s = s <| pending_discarded_bytes := pending_discarded_bytes s |>) as Hs
    by (by destruct s).
  destruct CONFIG_ZDB_EVENTING.
  - apply wp_bind, wp_fs_stat.
    + intros rc e fs' Hrc Hfs _. rewrite (proj2 (Z.eqb_neq rc 0)) by lia. apply wp_ret.
      eapply HQ; [rewrite <- Hs; eapply at_slot_calm; [exact A|apply calm_fs|done]|done].
    + intros e fs' Hfs _. change (0 =? 0)%Z with true. cbn iota.
      eapply wp_slot_upd; [eapply at_slot_calm; [exact A|apply calm_fs|done]|].
      intros w' A' Hw'. eapply HQ; [exact A'|]. unfold files. by rewrite Hw'.
  - apply wp_ret. eapply HQ; [rewrite <- Hs; exact A|done].
Qed.

Lemma wp_discard_oldest fuel i s (Q : Z → W → Prop) w0 w :
  at_slot i s w0 w → (0 ≤ oldest_seg s ≤ cur_seg s)%Z → (cur_seg s + 1 < 2 ^ 32)%Z →
  (cur_seg s - oldest_seg s + 1 ≤ Z.of_nat fuel)%Z →
  (∀ rc s' w', (rc < 0)%Z → at_slot i s' w0 w' → Q rc w') →
  (∀ w' pd, let m := kept_from (oldest_seg s) (cur_seg s) in
     at_slot i (s <| pending_discarded_bytes := pd |> <| oldest_seg := m |>) w0 w' →
     unlinked (cfg (w_db w)) (st_name s) (oldest_seg s) m (files w) (files w') → Q 0%Z w') →
  wp (discard_oldest fuel i) Q w.
Proof.
  pose proof ts_max_segments_range as Hmax.
  revert s w. induction fuel as [|fuel IH]; intros s w A Hseg H32 Hfuel Hbad Hok; [lia|].
  simpl. apply wp_bind, (wp_slot_get _ s); [apply A|].
  unfold u32. rewrite Z.mod_small by lia.
  assert (∀ pd, s <| pending_discarded_bytes := pd |> <| oldest_seg := oldest_seg s |> =
                s <| pending_discarded_bytes := pd |>) as Hs by (by intros; destruct s).
  destruct (Z.leb_spec (cur_seg s - oldest_seg s + 1) CONFIG_ZDB_TS_ROLLOVER_MAX_SEGMENTS) as [Hle|Hgt].
  { apply wp_ret. assert (kept_from (oldest_seg s) (cur_seg s) = oldest_seg s) as Hm
      by (unfold kept_from; lia). rewrite Hm in Hok.
    apply (Hok w (pending_discarded_bytes s)); [rewrite Hs; by destruct s|apply unlinked_refl]. }
  apply wp_bind, wp_db_get.
  destruct (segment_path_cases (cfg (w_db w)) (st_name s) (oldest_seg s) ZDB_TS_PATH_MAX)
    as [(rc & -> & Hrc)| ->]; [by apply wp_ret, (Hbad _ s)|].
  apply wp_bind. eapply wp_stat_discarded; [exact A|]. intros w1 pd A1 Hf1.
  apply wp_bind.
  assert (∀ w2, calm w1 w2 → ts_ctx (w_db w2) = ts_ctx (w_db w1) →
    files w2 = delete (seg_file (cfg (w_db w)) (st_name s) (oldest_seg s)) (files w1) →
    wp (slot_upd i (λ s, s <| oldest_seg ::= λ n, u32 (n + 1) |>);; discard_oldest fuel i) Q w2) as Hnext.
  { intros w2 C2 X2 Hf2. apply wp_bind. eapply wp_slot_upd; [by eapply at_slot_calm|].
    intros w3 A3 Hw3. simpl in A3.
    assert (u32 (oldest_seg s + 1) = oldest_seg s + 1)%Z as Hu by (unfold u32; rewrite Z.mod_small; lia).
    assert (kept_from (oldest_seg s + 1) (cur_seg s) = kept_from (oldest_seg s) (cur_seg s)) as Hk
      by (unfold kept_from; lia).
    eapply IH; [exact A3|simpl; rewrite ?Hu; lia..|done|].
    intros w4 pd' m A4 Hul. subst m. simpl in *. rewrite Hu, Hk in *.
    assert (cfg (w_db w3) = cfg (w_db w)) as Hcfg
      by (rewrite (at_slot_cfg _ _ _ _ A3), (at_slot_cfg _ _ _ _ A); done).
    rewrite Hcfg in Hul. apply (Hok w4 pd'); [exact A4|].
    eapply unlinked_step; [unfold kept_from; lia| |exact Hul|lia|unfold kept_from; lia].
    unfold files in *. by rewrite Hw3, Hf2, Hf1. }
  apply wp_fs_unlink.
  - intros rc fs' Hrc Hfs Hnoent. rewrite (proj2 (Z.ltb_lt _ _)) by done. simpl andb.
    destruct (Z.eqb_spec rc (- ENOENT)) as [->|Hne]; simpl negb; cbn iota.
    + apply Hnext; [apply calm_fs|done|]. unfold files in *. simpl. rewrite Hfs.
      symmetry. apply delete_id. auto.
    + eapply wp_ret, Hbad; [done|]. eapply at_slot_calm; [exact A1|apply calm_fs|done].
  - intros fs' Hfs. change (0 <? 0)%Z with false. simpl andb. cbn iota.
    apply Hnext; [apply calm_fs|done|done].
Qed.

(** ** Starting a segment *)

Definition first_kept (oldest cur : Z) : Z :=
  if CONFIG_ZDB_TS_ROLLOVER then kept_from oldest cur else oldest.

(** The slot after a new segment with base [base] has been started. *)
Definition next_slot (s : zdb_ts_stream_ctx) (base : Z) (pd : nat) : zdb_ts_stream_ctx :=
  slot_layout (new_header (st_name s) base).2
    (s <| cur_seg ::= Z.succ |> <| cur_seg_bytes := 0 |>)
    <| pending_discarded_bytes := pd |>
    <| oldest_seg := first_kept (oldest_seg s) (cur_seg s + 1) |>.

(** The files then: the header of the new segment, and the old ones gone. *)
Definition next_files (c : option zdb_cfg_t) (s : zdb_ts_stream_ctx) (base : Z)
    (fs fs' : gmap (list byte) (list byte)) : Prop :=
  unlinked c (st_name s) (oldest_seg s) (first_kept (oldest_seg s) (cur_seg s + 1))
    (<[seg_file c (st_name s) (cur_seg s + 1) := (new_header (st_name s) base).1]> fs) fs'.

Lemma wp_start_segment db i s base (Q : Z → W → Prop) w0 w :
  at_slot i s w0 w → is_Some (cfg (w_db w)) →
  (0 ≤ oldest_seg s ≤ cur_seg s)%Z → (cur_seg s + 2 < 2 ^ 32)%Z →
  files w !! seg_file (cfg (w_db w)) (st_name s) (cur_seg s + 1) = None →
  (∀ rc s' w', (rc < 0)%Z → at_slot i s' w0 w' → Q rc w') →
  (∀ w' pd, at_slot i (next_slot s base pd) w0 w' →
     next_files (cfg (w_db w)) s base (files w) (files w') → Q 0%Z w') →
  wp (zdb_ts_start_segment db i base) Q w.
Proof.
  intros A Hcfg Hseg H32 Hnone Hbad Hok. unfold zdb_ts_start_segment. apply wp_bind.
  eapply wp_slot_upd; [exact A|]. intros w1 A1 Hw1.
  assert (s <| cur_seg ::= λ n, u32 (n + 1) |> = s <| cur_seg ::= Z.succ |>) as Hu.
  { assert (u32 (cur_seg s + 1) = Z.succ (cur_seg s)) as Hu by (unfold u32; rewrite Z.mod_small; lia).
    destruct s; simpl in *. unfold RecordSettersUsingExistingGetters.set. simpl. by rewrite Hu. }
  rewrite Hu in A1. apply wp_bind. eapply wp_slot_get; [apply A1|].
  apply wp_bind, wp_db_get. simpl. change (Z.succ (cur_seg s)) with (cur_seg s + 1)%Z.
  assert (cfg (w_db w1) = cfg (w_db w)) as Hc1.
  { rewrite (at_slot_cfg _ _ _ _ A1). symmetry. apply (at_slot_cfg _ _ _ _ A). }
  assert (files w1 = files w) as Hf1 by (unfold files; by rewrite Hw1). rewrite Hc1.
  destruct (segment_path_cases (cfg (w_db w)) (st_name s) (cur_seg s + 1) ZDB_TS_PATH_MAX)
    as [(rc & -> & Hrc)| ->]; [by eapply wp_ret, Hbad|].
  set (p := seg_file _ _ _) in *. destruct db.
  apply wp_bind, (wp_ensure_header_ex _ p); [by rewrite Hc1|..].
  { intros st w2 Hst C2 X2 _. rewrite bool_decide_false by done.
    eapply wp_ret, Hbad; [done|by eapply at_slot_calm]. }
  2: { intros d v w2 Hd. rewrite Hf1, Hnone in Hd. done. }
  intros w2 _ C2 X2 Hf2. rewrite bool_decide_true by done. simpl negb. cbn iota.
  apply wp_bind. eapply wp_slot_upd; [by eapply at_slot_calm|]. intros w3 A3 Hw3.
  assert (files w3 = <[p := (new_header (st_name s) base).1]> (files w)) as Hf3
    by (unfold files in *; by rewrite Hw3, Hf2, Hf1).
  assert (cfg (w_db w3) = cfg (w_db w)) as Hc3.
  { rewrite (at_slot_cfg _ _ _ _ A3). symmetry. apply (at_slot_cfg _ _ _ _ A). }
  unfold next_files, next_slot, first_kept in Hok. fold p in Hok. rewrite <- Hf3, <- Hc3 in Hok.
  destruct CONFIG_ZDB_TS_ROLLOVER.
  - unfold u32. rewrite Z.mod_small by lia.
    eapply wp_discard_oldest; [exact A3|simpl; lia..|done|].
    simpl. intros w4 pd A4 Hul. by apply (Hok w4 pd).
  - apply wp_ret, (Hok w3 (pending_discarded_bytes s)); [|apply unlinked_refl].
    by destruct s.
Qed.

Lemma first_kept_bounds oldest cur :
  (oldest ≤ cur)%Z → (oldest ≤ first_kept oldest (cur + 1) ≤ cur)%Z.
Proof.
  pose proof ts_max_segments_range. unfold first_kept, kept_from.
  destruct CONFIG_ZDB_TS_ROLLOVER; lia.
Qed.

Lemma new_header_base name base :
  (0 ≤ base < 2 ^ 64)%Z → (0 ≤ (new_header name base).2.2 < 2 ^ 64)%Z.
Proof. unfold new_header. by destruct CONFIG_ZDB_TS_DELTA_ENCODING. Qed.

Lemma next_slot_fields s base pd :
  ZDB_TS_SEGMENTED = true →
  zdb_ts_slot_version (next_slot s base pd) = native_version ∧
  zdb_ts_slot_rec_size (next_slot s base pd) = zdb_ts_rec_size_for native_version ∧
  zdb_ts_slot_base_ts (next_slot s base pd) = (new_header (st_name s) base).2.2.
Proof.
  intros HS. unfold zdb_ts_slot_version, zdb_ts_slot_rec_size, zdb_ts_slot_base_ts. rewrite HS.
  unfold next_slot, slot_layout. simpl. rewrite new_header_version.
  unfold native_version. by destruct CONFIG_ZDB_TS_DELTA_ENCODING.
Qed.

(** The files after a segment was started, one by one. *)
Lemma next_files_lookup c s base fs fs' :
  (0 ≤ oldest_seg s ≤ cur_seg s)%Z → (cur_seg s + 1 < 2 ^ 32)%Z → next_files c s base fs fs' →
  fs' !! seg_file c (st_name s) (cur_seg s + 1) = Some (new_header (st_name s) base).1 ∧
  (∀ n, (first_kept (oldest_seg s) (cur_seg s + 1) ≤ n < 2 ^ 32)%Z → n ≠ (cur_seg s + 1)%Z →
     fs' !! seg_file c (st_name s) n = fs !! seg_file c (st_name s) n).
Proof.
  intros Hw H32 [_ Hrest]. pose proof (first_kept_bounds (oldest_seg s) (cur_seg s)) as Hk.
  split.
  - rewrite Hrest, lookup_insert_eq; [done|]. intros n Hn Heq%seg_file_inj; lia.
  - intros n Hn Hne. rewrite Hrest, lookup_insert_ne; [done| |].
    + intros Heq%seg_file_inj; lia.
    + intros m Hm Heq%seg_file_inj; lia.
Qed.

(** Starting a segment for an empty buffer loses no sample but those of the
    segments it discards. *)
Lemma next_ok c fs fs' s base pd :
  ZDB_TS_SEGMENTED = true → stream_ok c fs s → ingest_used s = 0 → (0 ≤ base < 2 ^ 64)%Z →
  (cur_seg s + 1 < 2 ^ 32)%Z → next_files c s base fs fs' →
  let s' := next_slot s base pd in
  let gone := stored c fs (st_name s) (oldest_seg s) (oldest_seg s' - 1) in
  stream_ok c fs' s' ∧ stream_samples c fs s = gone ++ stream_samples c fs' s' ∧ discards s s' gone.
Proof.
  intros HS [Hs Hu Hsc [Hw Hw32] Hba Hv Hr Hact Hfr Hbuf] H0 Hbase H32 Hnf s' gone.
  destruct (next_files_lookup _ _ _ _ _ Hw H32 Hnf) as [Hnew Hkeep].
  destruct (next_slot_fields s base pd HS) as (Fv & Fr & Fb).
  pose proof (first_kept_bounds (oldest_seg s) (cur_seg s)) as Hk.
  pose proof (new_header_pure (st_name s) base [] Hbase) as Hh. rewrite app_nil_r in Hh.
  pose proof (length_new_header (st_name s) base) as Hlh. rewrite new_header_version in Hlh.
  assert (Hpair : (new_header (st_name s) base).2 = (native_version, zdb_ts_slot_base_ts s')).
  { unfold s'. rewrite Fb, <- (new_header_version (st_name s) base). by destruct (new_header _ _).2. }
  rewrite Hpair in Hh. split.
  - split; try done.
    + destruct Hs as [Hl Hus Hfree]. split; try done. right. unfold s'. simpl.
      rewrite new_header_version. split; [apply native_version_ok|done].
    + unfold s'. simpl. rewrite HS in Hsc. by rewrite HS.
    + unfold s'. simpl. lia.
    + unfold s'. rewrite Fb. by apply new_header_base.
    + exists (new_header (st_name s) base).1. unfold stream_file. rewrite HS.
      split_and!; [done|exact Hh|]. unfold aligned. rewrite Hlh, Nat.sub_diag. apply Nat.divide_0_r.
    + intros _ n Hn. simpl in *. rewrite Hkeep by lia. apply Hfr; [done|lia].
  - change gone with
      (stored c fs (st_name s) (oldest_seg s) (first_kept (oldest_seg s) (cur_seg s + 1) - 1)).
    assert (∀ t, ingest_used t = 0 → buffered t = []) as Hbuf0.
    { intros t Ht. unfold buffered. by rewrite Ht, take_0, samples_nil. }
    split.
    + unfold stream_samples. rewrite !Hbuf0, !app_nil_r by done. simpl.
      rewrite (stored_split c fs _ _ (first_kept (oldest_seg s) (cur_seg s + 1))) by lia. f_equal.
      rewrite (stored_last c fs' _ _ (cur_seg s + 1)) by lia.
      replace (cur_seg s + 1 - 1)%Z with (cur_seg s) by lia.
      unfold seg_samples, stream_file. rewrite HS, Hnew. unfold file_samples.
      rewrite Hh. rewrite drop_ge by lia. rewrite samples_nil, app_nil_r. symmetry.
      apply stored_ext. intros n Hn. unfold stream_file. rewrite HS. apply Hkeep; lia.
    + unfold discards. simpl. unfold first_kept, kept_from, stored in *.
      destruct CONFIG_ZDB_TS_ROLLOVER; cycle 1.
      { left. split_and!; [done| |by right; left].
        by replace (oldest_seg s - 1 - oldest_seg s + 1)%Z with 0%Z by lia. }
      set (mx := Z.of_nat CONFIG_ZDB_TS_ROLLOVER_MAX_SEGMENTS) in *.
      destruct (Z.leb_spec (cur_seg s + 1 + 1 - mx) (oldest_seg s)).
      * left. rewrite Z.max_l by lia. split_and!; [done| |right; right; lia].
        by replace (oldest_seg s - 1 - oldest_seg s + 1)%Z with 0%Z by lia.
      * right. split; [done|]. rewrite Z.max_r by lia. lia.
Qed.

(** ** Flushing *)

Lemma sk_scanned_seg c fs s : stream_ok c fs s → ZDB_TS_SEGMENTED = true → segs_scanned s = true.
Proof. intros Hok HS. pose proof (sk_scanned _ _ _ Hok) as Hsc. by rewrite HS in Hsc. Qed.

Lemma wp_active_path db i s (Q : Z + list byte → W → Prop) w0 w :
  at_slot i s w0 w → (ZDB_TS_SEGMENTED = true → segs_scanned s = true) →
  (∀ rc, (rc < 0)%Z → Q (inl rc) w) →
  Q (inr (stream_file (cfg (w_db w)) (st_name s) (cur_seg s))) w →
  wp (zdb_ts_active_path db i ZDB_TS_PATH_MAX) Q w.
Proof.
  intros A Hsc Hbad HQ.
  unfold zdb_ts_active_path, stream_file in *. destruct ZDB_TS_SEGMENTED.
  - apply wp_bind. unfold zdb_ts_scan_segments. apply wp_bind, (wp_slot_get _ s); [apply A|].
    rewrite Hsc by done. apply wp_ret. rewrite bool_decide_true by done. simpl negb. cbn iota.
    apply wp_bind, (wp_slot_get _ s); [apply A|]. apply wp_bind, wp_db_get, wp_ret.
    destruct (segment_path_cases (cfg (w_db w)) (st_name s) (cur_seg s) ZDB_TS_PATH_MAX)
      as [(rc & -> & Hrc)| ->]; auto.
  - apply wp_bind, (wp_slot_get _ s); [apply A|]. apply wp_bind, wp_db_get, wp_ret.
    destruct (stream_path_cases (cfg (w_db w)) (st_name s) ZDB_TS_PATH_MAX)
      as [(rc & -> & Hrc)| ->]; auto.
Qed.

(** The oldest segment of stream [s] once its newest is [cur]: starting another
    segment gives up those beyond the bound. *)
Definition oldest_after (s : zdb_ts_stream_ctx) (cur : Z) : Z :=
  if bool_decide (cur = cur_seg s) then oldest_seg s else first_kept (oldest_seg s) cur.

Lemma oldest_after_le s cur :
  (oldest_seg s ≤ cur_seg s)%Z → (cur_seg s ≤ cur ≤ cur_seg s + 1)%Z → (oldest_after s cur ≤ cur_seg s)%Z.
Proof.
  intros Hw Hcur. unfold oldest_after. case_bool_decide; [done|].
  replace cur with (cur_seg s + 1)%Z by lia. apply first_kept_bounds. lia.
Qed.

(** What a flush of slot [s] leaves: the samples are those before it, short of
    those of the segments given up, and the buffer is empty. *)
Record flushed (c : option zdb_cfg_t) (fs fs' : gmap (list byte) (list byte))
    (s s' : zdb_ts_stream_ctx) : Prop := {
  fl_ok : stream_ok c fs' s';
  fl_used : ingest_used s' = 0;
  fl_name : st_name s' = st_name s;
  fl_count : open_count s' = open_count s;
  fl_cur : (cur_seg s ≤ cur_seg s' ≤ cur_seg s + 1)%Z;
  fl_samples : ∃ gone, stream_samples c fs s = gone ++ stream_samples c fs' s' ∧ discards s s' gone;
  fl_oldest : oldest_seg s' = oldest_after s (cur_seg s');
  fl_exact : stream_samples c fs s =
    stored c fs (st_name s) (oldest_seg s) (oldest_seg s' - 1) ++ stream_samples c fs' s';
}.

Lemma fl_discards c fs fs' s s' :
  flushed c fs fs' s s' → discards s s' (stored c fs (st_name s) (oldest_seg s) (oldest_seg s' - 1)).
Proof.
  intros [_ _ _ _ _ (gone & Hg & Hd) _ He]. rewrite Hg in He. by apply app_inv_tail in He as <-.
Qed.

(** Nothing is buffered, so the samples left are those stored. *)
Lemma fl_stored c fs fs' s s' :
  flushed c fs fs' s s' →
  stream_samples c fs s = stored c fs (st_name s) (oldest_seg s) (oldest_seg s' - 1) ++
    stored c fs' (st_name s) (oldest_seg s') (cur_seg s').
Proof.
  intros [_ Hu Hn _ _ _ _ He]. rewrite He. unfold stream_samples. unfold buffered at 1.
  by rewrite Hu, take_0, samples_nil, app_nil_r, Hn.
Qed.

(** A flush that stays in its segment gives up none. *)
Lemma flushed_here c fs fs' s s' :
  stream_ok c fs' s' → ingest_used s' = 0 → st_name s' = st_name s → open_count s' = open_count s →
  oldest_seg s' = oldest_seg s → cur_seg s' = cur_seg s →
  stream_samples c fs' s' = stream_samples c fs s → flushed c fs fs' s s'.
Proof.
  intros Hok Hu Hn Hc Ho Hcur Hs. split; [done..|lia| | |].
  - exists []. split; [done|by apply discards_nil].
  - unfold oldest_after. by rewrite bool_decide_true.
  - by rewrite Ho, stored_none.
Qed.

Lemma wp_start_flushed db i s base (Q : Z → W → Prop) w0 w :
  ZDB_TS_SEGMENTED = true → at_slot i s w0 w → stream_ok (cfg (w_db w)) (files w) s →
  ingest_used s = 0 → is_Some (cfg (w_db w)) → (0 ≤ base < 2 ^ 64)%Z → (cur_seg s + 2 < 2 ^ 32)%Z →
  (∀ rc s' w', (rc < 0)%Z → at_slot i s' w0 w' → Q rc w') →
  (∀ w' pd, let s' := next_slot s base pd in
     at_slot i s' w0 w' → flushed (cfg (w_db w)) (files w) (files w') s s' → Q 0%Z w') →
  wp (zdb_ts_start_segment db i base) Q w.
Proof.
  intros HS A Hok H0 Hcfg Hbase H32 Hbad HQ. pose proof (sk_window _ _ _ Hok) as [Hw _].
  eapply wp_start_segment; [exact A|done|done|lia|apply (sk_fresh _ _ _ Hok); [done|lia]|done|].
  intros w' pd A' Hnf. destruct (next_ok _ _ _ _ _ pd HS Hok H0 Hbase ltac:(lia) Hnf) as (Hok' & Hsamp & Hd).
  apply (HQ w' pd); [done|]. split; [done..|simpl; lia|by eexists| |done].
  unfold oldest_after. rewrite bool_decide_false; [done|]. simpl. lia.
Qed.

Lemma wp_roll_segment db i s (Q : Z → W → Prop) w0 w :
  ZDB_TS_SEGMENTED = true → at_slot i s w0 w → stream_ok (cfg (w_db w)) (files w) s →
  ingest_used s = 0 → is_Some (cfg (w_db w)) → (cur_seg s + 2 < 2 ^ 32)%Z →
  (∀ rc s' w', (rc < 0)%Z → at_slot i s' w0 w' → Q rc w') →
  (∀ w' s', at_slot i s' w0 w' → flushed (cfg (w_db w)) (files w) (files w') s s' → Q 0%Z w') →
  wp (zdb_ts_roll_segment_if_full db i) Q w.
Proof.
  intros HS A Hok H0 Hcfg H32 Hbad HQ. unfold zdb_ts_roll_segment_if_full.
  apply wp_bind, (wp_slot_get _ s); [apply A|]. destruct (_ <? _).
  - apply wp_ret, (HQ w s); [done|]. by apply flushed_here.
  - eapply wp_start_flushed; eauto.
    pose proof (sk_base _ _ _ Hok) as Hb. unfold zdb_ts_slot_base_ts in Hb. by rewrite HS in Hb.
Qed.

Lemma wp_flush_buffer db i s (Q : Z → W → Prop) w0 w :
  at_slot i s w0 w → stream_ok (cfg (w_db w)) (files w) s → is_Some (cfg (w_db w)) →
  (cur_seg s + 2 < 2 ^ 32)%Z →
  (∀ rc s' w', (rc < 0)%Z → at_slot i s' w0 w' → Q rc w') →
  (∀ w' s', at_slot i s' w0 w' → flushed (cfg (w_db w)) (files w) (files w') s s' → Q 0%Z w') →
  wp (zdb_ts_flush_buffer_locked db (Some i)) Q w.
Proof.
  intros A Hok Hcfg H32 Hbad HQ. unfold zdb_ts_flush_buffer_locked.
  apply wp_bind, wp_db_get. destruct Hcfg as [cf Hcf]. rewrite Hcf.
  apply wp_bind, (wp_slot_get _ s); [apply A|]. rewrite (sk_used _ _ _ Hok).
  destruct (so_used _ (sk_slot _ _ _ Hok) (sk_used _ _ _ Hok)) as ((buf & Hbuf & _) & _).
  rewrite Hbuf. destruct (Nat.eqb_spec (ingest_used s) 0) as [H0|_].
  { apply wp_ret, (HQ w s); [done|]. by apply flushed_here. }
  apply wp_bind. eapply wp_active_path;
    [exact A|by eapply sk_scanned_seg|intros; by eapply wp_ret, Hbad|].
  destruct (sk_active _ _ _ Hok) as (d & Hd & Hh & Ha). set (p := stream_file _ _ _) in *.
  apply wp_bind, wp_append_file.
  { intros rc w1 Hrc C1 X1 _. rewrite (proj2 (Z.ltb_lt _ _)) by done.
    eapply wp_ret, Hbad; [done|by eapply at_slot_calm]. }
  intros w1 C1 X1 Hf1. change (0 <? 0)%Z with false. cbn iota. rewrite Hd in Hf1. simpl in Hf1.
  assert (at_slot i s w0 w1) as A1 by (by eapply at_slot_calm).
  apply wp_bind. eapply (wp_mono _ (λ _ w2, ∃ cb, at_slot i (s <| cur_seg_bytes := cb |>) w0 w2 ∧
    w_fs w2 = w_fs w1)).
  { destruct ZDB_TS_SEGMENTED; [eapply wp_slot_upd; [done|]; intros; by eexists|].
    apply wp_ret. exists (cur_seg_bytes s). split; [by destruct s|done]. }
  intros _ w2 (cb & A2 & Hw2). apply wp_bind.
  eapply (wp_mono _ (λ _ w3, ∃ pf, at_slot i (s <| cur_seg_bytes := cb |>
    <| pending_flush_bytes := pf |>) w0 w3 ∧ w_fs w3 = w_fs w1)).
  { destruct CONFIG_ZDB_EVENTING.
    - eapply wp_slot_upd; [done|]. intros w3 A3 Hw3. eexists. split; [exact A3|congruence].
    - apply wp_ret. exists (pending_flush_bytes s). split; [by destruct s|done]. }
  intros _ w3 (pf & A3 & Hw3). apply wp_bind. eapply wp_slot_upd; [exact A3|].
  intros w4 A4 Hw4. destruct (flushed_ok _ _ s buf d cb pf Hok Hbuf Hd) as [Hok4 Hs4].
  fold p in Hok4, Hs4. set (s4 := s <| cur_seg_bytes := cb |> <| pending_flush_bytes := pf |>
    <| ingest_used := 0 |>) in *.
  assert (files w4 = <[p := d ++ take (ingest_used s) buf]> (files w)) as Hf4
    by (unfold files in *; by rewrite Hw4, Hw3).
  assert (cfg (w_db w4) = cfg (w_db w)) as Hc4.
  { rewrite (at_slot_cfg _ _ _ _ A4). symmetry. apply (at_slot_cfg _ _ _ _ A). }
  rewrite <- Hf4 in Hok4, Hs4.
  assert (∀ w' s', flushed (cfg (w_db w)) (files w4) (files w') s4 s' →
    flushed (cfg (w_db w)) (files w) (files w') s s') as Hfl.
  { intros w' s' [? ? ? ? ? (g & Hg & Hd') Ho He]. split; try done; [exists g; by rewrite <- Hs4|].
    rewrite <- Hs4, He, Hf4. f_equal. apply stored_ext. intros n Hn. apply lookup_insert_ne.
    pose proof (sk_window _ _ _ Hok) as [Hw Hw32].
    assert (oldest_seg s' ≤ cur_seg s)%Z as Hle by (rewrite Ho; apply (oldest_after_le s4); simpl in *; lia).
    pose proof (sk_scanned _ _ _ Hok) as Hsc. simpl in Hn. destruct ZDB_TS_SEGMENTED eqn:HS; [|lia].
    intros Heq%stream_file_inj; simpl in *; (done || lia). }
  destruct ZDB_TS_SEGMENTED eqn:HS.
  - apply wp_bind. eapply wp_roll_segment; [done|exact A4|by rewrite Hc4|done|by rewrite Hc4|done|..].
    + intros rc s' w' Hrc A'. rewrite (proj2 (Z.ltb_lt _ _)) by done. by eapply wp_ret, Hbad.
    + intros w5 s5 A5 F5. rewrite Hc4 in F5. by eapply wp_ret, HQ; [|apply Hfl].
  - apply wp_ret, (HQ w4 s4); [exact A4|]. by apply flushed_here.
Qed.
End flush.
