(* ===== verification/TsAppendSpec.v ===== *)
(** * Appending adds one sample at the end of the stream *)

From S2P Require Import Prelude Config Env Types FsEnv FsSpec Events CoreSpec Cursor TsFormat.
From S2P Require Import TsFormatSpec TsSpec TsStore TsSegment TsCursor TsRecover Doubles TsOps.
From S2P Require Import TsFileSpec TsInv TsStream TsFlushSpec.

Section append.
Context {Cfg : Config} {CfgOk : ConfigOk Cfg} {K F FS FH DH : Type}.
Context `{!Kernel K, !KernelLaws K, !FileSys FS FH DH, !FileSysLaws FS FH DH}.
Context {CRC : Crc32} {CRCLaws : Crc32Laws} {CloseOk : FsCloseOk FS FH DH}.
Abbreviation W := (world K F FS).
Implicit Types w : W.

(** The slot after a record has been put in its buffer. *)
Definition put_slot (s : zdb_ts_stream_ctx) (bytes : list byte) (rec_size : nat) : zdb_ts_stream_ctx :=
  s <| ingest_buf ::= option_map (λ b, buf_write b (ingest_used s) bytes) |>
    <| ingest_used := ingest_used s + rec_size |>.

Lemma take_buf_write_at buf off data :
  off + length data ≤ length buf → take (off + length data) (buf_write buf off data) = take off buf ++ data.
Proof.
  intros Hl. unfold buf_write. rewrite app_assoc, take_app_le.
  - apply take_ge. rewrite length_app, length_take. lia.
  - rewrite length_app, length_take. lia.
Qed.

Lemma put_ok c fs s bytes x :
  stream_ok c fs s → sample_ok x →
  ingest_used s + zdb_ts_rec_size_for native_version ≤ ingest_limit →
  zdb_ts_record_encode_as native_version (zdb_ts_slot_base_ts s) x = Some bytes →
  let s' := put_slot s bytes (zdb_ts_rec_size_for native_version) in
  stream_ok c fs s' ∧ stream_samples c fs s' = stream_samples c fs s ++ [x].
Proof.
  intros Hok Hx Hroom Henc s'. pose proof (length_encode_as _ _ _ _ Henc) as Hlen.
  destruct (so_used _ (sk_slot _ _ _ Hok) (sk_used _ _ _ Hok)) as ((buf & Hbuf & Hbl) & Hcap & Hle & Hoc & Hnm).
  assert (ingest_buf s' = Some (buf_write buf (ingest_used s) bytes)) as Hbuf'.
  { unfold s', put_slot. simpl. by rewrite Hbuf. }
  pose proof Hok as [Hs Hu Hsc Hw Hba Hv Hr Hact Hfr Hdiv]. split.
  - split; try done.
    + destruct Hs as [Hl _ _]. split; [done| |by intros Hf; simpl in Hf; congruence].
      intros _. split; [|split_and!; try done; simpl; lia]. eexists. split; [exact Hbuf'|].
      rewrite length_buf_write; [done|]. lia.
    + simpl. apply Nat.divide_add_r; [done|apply Nat.divide_refl].
  - unfold stream_samples. simpl st_name. simpl oldest_seg. simpl cur_seg. rewrite <- app_assoc.
    f_equal. unfold buffered. rewrite Hbuf', Hbuf.
    change (zdb_ts_slot_version s') with (zdb_ts_slot_version s).
    change (zdb_ts_slot_base_ts s') with (zdb_ts_slot_base_ts s).
    change (ingest_used s') with (ingest_used s + zdb_ts_rec_size_for native_version).
    simpl default. rewrite Hv, <- Hlen, take_buf_write_at by lia.
    pose proof (length_used _ _ Hs Hu Hbuf) as Hused.
    rewrite samples_app by (by rewrite Hused). f_equal. apply samples_one; [done|].
    rewrite <- (app_nil_r bytes). by apply decode_pure_encode.
Qed.

(** One more sample, and possibly fewer old segments. *)
Record appended (c : option zdb_cfg_t) (fs fs' : gmap (list byte) (list byte))
    (s s' : zdb_ts_stream_ctx) (xs : list zdb_ts_sample_i64_t) : Prop := {
  apd_ok : stream_ok c fs' s';
  apd_name : st_name s' = st_name s;
  apd_cur : (cur_seg s ≤ cur_seg s' ≤ cur_seg s + 3 * length xs)%Z;
  apd_samples : ∃ gone, stream_samples c fs s ++ xs = gone ++ stream_samples c fs' s' ∧ discards s s' gone;
}.

Lemma appended_flushed c fs fs1 fs2 s s1 s2 x :
  flushed c fs fs1 s s1 → appended c fs1 fs2 s1 s2 [x] → (cur_seg s2 ≤ cur_seg s1 + 2)%Z →
  appended c fs fs2 s s2 [x].
Proof.
  intros [? ? ? ? ? (g1 & E1 & N1)] [? ? ? (g2 & E2 & N2)] Hle. split; [done|congruence|simpl in *; lia|].
  exists (g1 ++ g2). split; [by rewrite E1, <- !app_assoc, <- E2|].
  eapply discards_trans; [|done..]. simpl in *. lia.
Qed.

Lemma appended_trans c fs fs1 fs2 s s1 s2 xs ys :
  appended c fs fs1 s s1 xs → appended c fs1 fs2 s1 s2 ys → appended c fs fs2 s s2 (xs ++ ys).
Proof.
  intros [? ? ? (g1 & E1 & N1)] [? ? ? (g2 & E2 & N2)].
  split; [done|congruence|rewrite length_app; lia|].
  exists (g1 ++ g2). split; [by rewrite app_assoc, E1, <- !app_assoc, <- E2|].
  eapply discards_trans; [|done..]. lia.
Qed.

(** ** One record *)

Lemma wp_put_record i s bytes x (Q : unit → W → Prop) w0 w :
  at_slot i s w0 w → stream_ok (cfg (w_db w)) (files w) s → sample_ok x →
  ingest_used s + zdb_ts_rec_size_for native_version ≤ ingest_limit →
  zdb_ts_record_encode_as native_version (zdb_ts_slot_base_ts s) x = Some bytes →
  (∀ w' s', at_slot i s' w0 w' →
     appended (cfg (w_db w)) (files w) (files w') s s' [x] → cur_seg s' = cur_seg s → Q tt w') →
  wp (put_record i bytes (zdb_ts_rec_size_for native_version)) Q w.
Proof.
  intros A Hok Hx Hroom Henc HQ. destruct (put_ok _ _ _ _ _ Hok Hx Hroom Henc) as [Hok' Hs'].
  eapply (wp_slot_upd _ _ (λ s, put_slot s bytes _)); [exact A|]. intros w' A' Hw'.
  eapply HQ; [exact A'| |done]. assert (files w' = files w) as -> by (unfold files; by rewrite Hw').
  split; [done|done|simpl; lia|]. exists []. rewrite Hs'. split; [done|by apply discards_nil].
Qed.

(** The encoding fails only for a sample outside the span of the segment, and
    succeeds in a segment based on it. *)
Lemma encode_native_fails base x :
  zdb_ts_record_encode_as native_version base x = None →
  CONFIG_ZDB_TS_DELTA_ENCODING = true ∧ ZDB_TS_SEGMENTED = true.
Proof.
  unfold native_version, ZDB_TS_SEGMENTED. destruct CONFIG_ZDB_TS_DELTA_ENCODING; [|done].
  by destruct CONFIG_ZDB_TS_ROLLOVER.
Qed.

Lemma encode_native_based x :
  is_Some (zdb_ts_record_encode_as native_version (ts_ms x) x).
Proof. apply encode_as_Some. intros _. unfold UINT32_MAX. lia. Qed.

(** Room for a record, flushing the buffer when it is full. *)
Lemma wp_make_room db i s (Q : Z → W → Prop) w0 w :
  at_slot i s w0 w → stream_ok (cfg (w_db w)) (files w) s → is_Some (cfg (w_db w)) →
  (cur_seg s + 2 < 2 ^ 32)%Z → zdb_ts_rec_size_for native_version ≤ ingest_limit →
  (∀ rc s' w', (rc < 0)%Z → at_slot i s' w0 w' → Q rc w') →
  (∀ w' s', at_slot i s' w0 w' → flushed (cfg (w_db w)) (files w) (files w') s s' → Q 0%Z w') →
  (at_slot i s w0 w → ingest_used s + zdb_ts_rec_size_for native_version ≤ ingest_limit → Q 0%Z w) →
  wp (if ingest_capacity s <? ingest_used s + zdb_ts_slot_rec_size s
      then zdb_ts_flush_buffer_locked db (Some i) else ret 0%Z) Q w.
Proof.
  intros A Hok Hcfg H32 Hrec Hbad Hfl HQ. rewrite (sk_rec_size _ _ _ Hok).
  destruct (so_used _ (sk_slot _ _ _ Hok) (sk_used _ _ _ Hok)) as (_ & -> & _).
  destruct (Nat.ltb_spec ingest_limit (ingest_used s + zdb_ts_rec_size_for native_version)).
  - eapply wp_flush_buffer; eauto.
  - by apply wp_ret, HQ.
Qed.

(** A new segment based on the sample, and the record in it. *)
Lemma wp_rebase db i s x (Q : zdb_status_t * nat → W → Prop) w0 w n :
  ZDB_TS_SEGMENTED = true → CONFIG_ZDB_TS_DELTA_ENCODING = true →
  at_slot i s w0 w → stream_ok (cfg (w_db w)) (files w) s → is_Some (cfg (w_db w)) →
  (cur_seg s + 3 < 2 ^ 32)%Z → zdb_ts_rec_size_for native_version ≤ ingest_limit →
  sample_ok x →
  (∀ st m s' w', st ≠ ZDB_OK → at_slot i s' w0 w' → Q (st, m) w') →
  (∀ w' s' m, at_slot i s' w0 w' → appended (cfg (w_db w)) (files w) (files w') s s' [x] →
     (cur_seg s' ≤ cur_seg s + 2)%Z → Q (ZDB_OK, m) w') →
  wp (rebase_record db i x n) Q w.
Proof.
  intros HS HD A Hok Hcfg H32 Hrec Hx Hbad HQ.
  assert (∀ rc, (rc < 0)%Z → zdb_status_from_errno rc ≠ ZDB_OK) as Hneg
    by (intros rc Hrc; rewrite status_from_errno_ok; lia).
  apply wp_bind. eapply wp_flush_buffer; [exact A|done|done|lia|..].
  { intros rc s' w' Hrc A'. rewrite (proj2 (Z.eqb_neq rc 0)) by lia. apply wp_bind, wp_ret.
    rewrite (proj2 (Z.ltb_lt _ _)) by done. eapply wp_ret, Hbad; [by apply Hneg|exact A']. }
  intros w1 s1 A1 F1. change (0 =? 0)%Z with true. cbn iota.
  assert (cfg (w_db w1) = cfg (w_db w)) as Hc1.
  { rewrite (at_slot_cfg _ _ _ _ A1). symmetry. apply (at_slot_cfg _ _ _ _ A). }
  pose proof (fl_cur _ _ _ _ _ F1) as Hcur1. apply wp_bind.
  eapply wp_start_flushed; [done|exact A1|rewrite Hc1; apply F1|apply F1|by rewrite Hc1|apply Hx|lia|..].
  { intros rc s' w' Hrc A'. rewrite (proj2 (Z.ltb_lt _ _)) by done.
    eapply wp_ret, Hbad; [by apply Hneg|exact A']. }
  rewrite Hc1. intros w2 pd s2 A2 F2. change (0 <? 0)%Z with false. cbn iota.
  assert (cfg (w_db w2) = cfg (w_db w)) as Hc2.
  { rewrite (at_slot_cfg _ _ _ _ A2). symmetry. apply (at_slot_cfg _ _ _ _ A). }
  apply wp_bind, (wp_slot_get _ s2); [apply A2|].
  pose proof (fl_ok _ _ _ _ _ F2) as Hok2. rewrite (sk_version _ _ _ Hok2), (sk_rec_size _ _ _ Hok2).
  assert (zdb_ts_slot_base_ts s2 = ts_ms x) as Hb2.
  { unfold s2. destruct (next_slot_fields s1 (ts_ms x) pd HS) as (_ & _ & ->).
    unfold new_header. by rewrite HD. }
  destruct (encode_native_based x) as [bytes Henc]. rewrite Hb2, Henc. cbv zeta. apply wp_bind.
  pose proof (fl_used _ _ _ _ _ F2) as Hu2. pose proof (fl_cur _ _ _ _ _ F2) as Hcur2.
  eapply wp_put_record; [exact A2|by rewrite Hc2|exact Hx|by rewrite Hu2|by rewrite Hb2|].
  intros w3 s3 A3 Ap3 Hcur3. apply wp_ret, (HQ w3 s3); [done| |lia].
  rewrite Hc2 in Ap3. eapply appended_flushed; [exact F1| |lia].
  eapply appended_flushed; [done..|lia].
Qed.

Lemma wp_encode_record db i s x (Q : zdb_status_t * nat → W → Prop) w0 w :
  at_slot i s w0 w → stream_ok (cfg (w_db w)) (files w) s → is_Some (cfg (w_db w)) →
  (cur_seg s + 3 < 2 ^ 32)%Z → zdb_ts_rec_size_for native_version ≤ ingest_limit →
  ingest_used s + zdb_ts_rec_size_for native_version ≤ ingest_limit → sample_ok x →
  (∀ st m s' w', st ≠ ZDB_OK → at_slot i s' w0 w' → Q (st, m) w') →
  (∀ w' s' m, at_slot i s' w0 w' → appended (cfg (w_db w)) (files w) (files w') s s' [x] →
     (cur_seg s' ≤ cur_seg s + 2)%Z → Q (ZDB_OK, m) w') →
  wp (encode_record db i x (zdb_ts_rec_size_for native_version)) Q w.
Proof.
  intros A Hok Hcfg H32 Hrec Hroom Hx Hbad HQ. unfold encode_record.
  apply wp_bind, (wp_slot_get _ s); [apply A|]. rewrite (sk_version _ _ _ Hok).
  destruct (zdb_ts_record_encode_as _ _ x) as [bytes|] eqn:Henc.
  - apply wp_bind. eapply wp_put_record; [done..|]. intros w1 s1 A1 Ap1 Hcur1.
    apply wp_ret, (HQ w1 s1); [done..|lia].
  - destruct (encode_native_fails _ _ Henc) as [HD HS]. rewrite HS. by eapply wp_rebase.
Qed.

Lemma wp_append_record db i s x (Q : zdb_status_t * nat → W → Prop) w0 w :
  at_slot i s w0 w → stream_ok (cfg (w_db w)) (files w) s → is_Some (cfg (w_db w)) →
  (cur_seg s + 4 < 2 ^ 32)%Z → zdb_ts_rec_size_for native_version ≤ ingest_limit → sample_ok x →
  (∀ st m s' w', st ≠ ZDB_OK → at_slot i s' w0 w' → Q (st, m) w') →
  (∀ w' s' m, at_slot i s' w0 w' → appended (cfg (w_db w)) (files w) (files w') s s' [x] →
     Q (ZDB_OK, m) w') →
  wp (append_record db i x) Q w.
Proof.
  intros A Hok Hcfg H32 Hrec Hx Hbad HQ. unfold append_record.
  apply wp_bind, (wp_slot_get _ s); [apply A|].
  destruct (so_used _ (sk_slot _ _ _ Hok) (sk_used _ _ _ Hok)) as ((buf & Hbuf & _) & Hcap & _).
  pose proof (sk_rec_size _ _ _ Hok) as Hr. cbv zeta.
  assert ((ingest_capacity s <? zdb_ts_slot_rec_size s) ||
    negb (bool_decide (is_Some (ingest_buf s))) = false) as ->.
  { rewrite Hr, Hcap, Hbuf, (proj2 (Nat.ltb_ge _ _)) by done. by rewrite bool_decide_true. }
  apply wp_bind. eapply wp_make_room; [exact A|done|done|lia|done|..].
  - intros rc s' w' Hrc A'. rewrite (proj2 (Z.ltb_lt _ _)) by done.
    eapply wp_ret, Hbad; [rewrite status_from_errno_ok; lia|exact A'].
  - intros w1 s1 A1 F1. change (0 <? 0)%Z with false. cbn iota. rewrite Hr.
    assert (cfg (w_db w1) = cfg (w_db w)) as Hc1.
    { rewrite (at_slot_cfg _ _ _ _ A1). symmetry. apply (at_slot_cfg _ _ _ _ A). }
    pose proof (fl_cur _ _ _ _ _ F1). rewrite <- Hc1 in F1.
    eapply wp_encode_record; [exact A1|apply F1|by rewrite Hc1|lia|done| |done|done|].
    + by rewrite (fl_used _ _ _ _ _ F1).
    + intros w2 s2 m A2 Ap2 Hcur2. eapply HQ; [exact A2|]. rewrite <- Hc1.
      by eapply appended_flushed.
  - intros _ Hroom. change (0 <? 0)%Z with false. cbn iota. rewrite Hr.
    eapply wp_encode_record; [exact A|done|done|lia|done..|]. intros w1 s1 m A1 Ap1 _. by eapply HQ.
Qed.

(** ** The locked section, and after it *)

(** The slot is the same up to what it has pending for publication. *)
Lemma stream_ok_sim c fs s s' : slot_sim s s' → stream_ok c fs s → stream_ok c fs s'.
Proof. intros (a & b & ->) [Hs ?????????]. split; try done. by destruct Hs. Qed.

Lemma appended_sim c fs fs' s s1 s2 xs :
  appended c fs fs' s s1 xs → slot_sim s1 s2 → appended c fs fs' s s2 xs.
Proof.
  intros [Hok Hn Hc Hs] Hsim. pose proof (stream_ok_sim _ _ _ _ Hsim Hok).
  destruct Hsim as (a & b & ->). by split.
Qed.

(** Neither the files nor, up to what is pending, the slot have changed. *)
Record still (i : nat) (s : zdb_ts_stream_ctx) w w' : Prop := {
  st_step : ts_step w w';
  st_files : files w' = files w;
  st_slot : ∃ s', slot_is w' i s' ∧ slot_sim s s';
}.

Lemma still_refl i s w : slot_is w i s → still i s w w.
Proof. intros Hs. split; [done..|]. exists s. split; [done|apply slot_sim_refl]. Qed.

Lemma still_trans i s s1 w w1 w2 :
  still i s w w1 → slot_is w1 i s1 → still i s1 w1 w2 → still i s w w2.
Proof.
  intros [S1 F1 (t & T1 & Sim1)] Hs1 [S2 F2 (s2 & T2 & Sim2)].
  unfold slot_is in *. assert (t = s1) as -> by congruence.
  split; [by etrans|congruence|]. exists s2. split; [done|by eapply slot_sim_trans].
Qed.

Lemma still_same i s w w' :
  slot_is w i s → ts_step w w' → w_fs w' = w_fs w → ts_ctx (w_db w') = ts_ctx (w_db w) →
  still i s w w'.
Proof.
  intros Hs Hst Hf Hc. split; [done|unfold files; by rewrite Hf|]. exists s.
  split; [|apply slot_sim_refl]. unfold slot_is, ctx_streams in *. by rewrite Hc.
Qed.

Lemma wp_unlock_still db i s (Q : unit → W → Prop) w :
  slot_is w i s → (∀ w', still i s w w' → Q tt w') → wp (zdb_unlock_write db) Q w.
Proof.
  intros Hs HQ. apply wp_ts_unlock. intros w' Hst Hf Hctx _ _ _. apply HQ.
  split; [done|unfold files; by rewrite Hf|].
  apply slot_is_ctx in Hs as (c & Hc & Hs).
  destruct (settle_lookup c i s Hs) as (c' & a & b & Hset & Hl).
  eexists. split; [|by exists a, b]. unfold slot_is, ctx_streams. by rewrite Hctx, Hc, Hset.
Qed.

Lemma wp_ctx_ready (Q : bool → W → Prop) w :
  is_Some (core_slab (w_db w)) → is_Some (cfg (w_db w)) → is_Some (ts_ctx (w_db w)) →
  Q true w → wp (zdb_ts_ctx_get_or_alloc (Some the_db)) Q w.
Proof.
  intros [sl Hsl] [c Hc] [x Hx] HQ. unfold zdb_ts_ctx_get_or_alloc.
  apply wp_bind, wp_db_get, wp_bind, wp_db_get. rewrite Hsl, Hc. apply wp_bind, wp_db_get.
  rewrite Hx. by apply wp_ret.
Qed.

(** The instance can serve streams. *)
Record ready w : Prop := {
  rd_slab : is_Some (core_slab (w_db w));
  rd_cfg : is_Some (cfg (w_db w));
}.

Lemma ready_step w w' : ts_step w w' → ready w → ready w'.
Proof.
  intros Hst [Hs Hc]. destruct (ts_step_slabs _ _ Hst) as (E & _). split.
  - by rewrite E.
  - by rewrite (ts_step_cfg _ _ Hst).
Qed.

Lemma slot_is_some w i s : slot_is w i s → is_Some (ts_ctx (w_db w)).
Proof. intros (c & -> & _)%slot_is_ctx. by eexists. Qed.

Lemma wp_pending_upd i s b (Q : unit → W → Prop) w :
  slot_is w i s → (∀ w', still i s w w' → slot_is w' i s → Q tt w') →
  wp (ctx_upd (λ c, c <| flush_pending := b |>)) Q w.
Proof.
  intros Hs HQ. apply wp_db_set. apply slot_is_ctx in Hs as (c & Hc & Hs).
  assert (slot_is (w <| w_db ::= λ d, d <| ts_ctx ::= option_map (λ c, c <| flush_pending := b |>) |> |>) i s)
    as Hs' by (unfold slot_is, ctx_streams; simpl; rewrite Hc; done).
  apply HQ; [|exact Hs']. split; [|done|exists s; split; [exact Hs'|apply slot_sim_refl]].
  by apply (ts_step_intro _ _ (option_map (λ c, c <| flush_pending := b |>) (ts_ctx (w_db w)))
    (ts_stats (w_db w)) (health (w_db w)) (health_prev (w_db w)) (health_event_pending (w_db w))).
Qed.

Lemma wp_flush_async i s t (Q : zdb_status_t → W → Prop) w :
  ready w → slot_is w i s → ts_db t = Some the_db → (∀ st w', still i s w w' → Q st w') →
  wp (zdb_ts_flush_async (Some t)) Q w.
Proof.
  intros Hr Hs Ht HQ. destruct t as [db n]. simpl in Ht. subst db. unfold zdb_ts_flush_async.
  destruct (rd_cfg _ Hr) as [c Hc]. apply wp_bind, wp_db_get. rewrite Hc.
  apply wp_bind, wp_ctx_ready; [apply Hr..|by eapply slot_is_some|]. simpl negb. cbn iota.
  apply wp_bind, wp_ts_lock; cycle 1.
  { intros k' _. rewrite bool_decide_false by done. apply wp_ret, HQ.
    apply still_same; [done|apply ts_step_k|done|done]. }
  intros k' _ _ _. rewrite bool_decide_true by done. simpl negb. cbn iota. set (w1 := w <| w_k := k' |>).
  assert (still i s w w1) as S1 by (apply still_same; [done|apply ts_step_k|done|done]).
  assert (slot_is w1 i s) as Hs1 by done.
  apply wp_bind, wp_db_get. destruct (is_flush_pending (w_db w1)).
  - apply wp_bind. eapply wp_unlock_still; [done|]. intros w2 S2. apply wp_ret, HQ. by eapply still_trans.
  - apply wp_bind. eapply wp_pending_upd; [done|]. intros w2 S2 Hs2.
    apply wp_bind, wp_on_k. intros rc k2 _. set (w3 := w2 <| w_k := k2 |>).
    assert (still i s w w3) as S3.
    { eapply still_trans; [exact S1|done|]. eapply still_trans; [exact S2|done|].
      apply still_same; [done|apply ts_step_k|done|done]. }
    apply wp_bind. eapply (wp_unlock_still _ i s); [done|]. intros w4 S4.
    assert (still i s w w4) as S5 by (by eapply still_trans).
    destruct (rc <? 0)%Z; [|by apply wp_ret, HQ].
    destruct (st_slot _ _ _ _ S4) as (s4 & Hs4 & Hsim). apply wp_bind.
    eapply wp_pending_upd; [done|]. intros w5 S6 _. apply wp_ret, HQ.
    destruct S5 as [Sst Sf _], S6 as [Sst' Sf' (s6 & ? & ?)].
    split; [by etrans|congruence|]. exists s6. split; [done|by eapply slot_sim_trans].
Qed.

Lemma wp_append_event t x st (Q : zdb_status_t → W → Prop) w i s :
  ts_db t = Some the_db → slot_is w i s → (∀ w', still i s w w' → Q st w') →
  wp (append_event t x st) Q w.
Proof.
  intros Ht Hs HQ. unfold append_event. apply wp_bind, wp_ts_event; [done|]. intros w' n E.
  apply wp_ret, HQ. apply still_same; [done|by eapply ts_step_emitted|apply E|].
  by rewrite (em_db _ _ _ E).
Qed.

(** What the entry of an append establishes: the instance is ready and the
    handle denotes the open stream in slot [i]. *)
Record opened_as (name : cstring) (i : nat) (s : zdb_ts_stream_ctx) w : Prop := {
  oa_ready : ready w;
  oa_find : zdb_ts_slot_find (ts_ctx (w_db w)) (Some name) = Some i;
  oa_slot : slot_is w i s;
  oa_ok : stream_ok (cfg (w_db w)) (files w) s;
  oa_record : zdb_ts_rec_size_for native_version ≤ ingest_limit;
}.

(** What an append reports and leaves: with [ZDB_OK], the samples are there. *)
Definition append_post i s xs w (st : zdb_status_t) w' : Prop :=
  st = ZDB_OK → ∃ s', slot_is w' i s' ∧ appended (cfg (w_db w)) (files w) (files w') s s' xs.

Lemma append_post_still i s xs w w1 w2 s1 st :
  slot_is w1 i s1 → still i s1 w1 w2 →
  (st = ZDB_OK → appended (cfg (w_db w)) (files w) (files w1) s s1 xs) →
  append_post i s xs w st w2.
Proof.
  intros Hs [_ Hf (s2 & Hs2 & Hsim)] Ha Hst. exists s2. split; [done|]. rewrite Hf.
  by eapply appended_sim; [apply Ha|].
Qed.

(** The unlock, the flush in the background and the event that end an append. *)
Lemma wp_append_tail i s s1 xs t x st (b : bool) (f : zdb_status_t → zdb_status_t)
    (Q : zdb_status_t → W → Prop) w w1 :
  ready w1 → slot_is w1 i s1 → ts_db t = Some the_db →
  (st = ZDB_OK → appended (cfg (w_db w)) (files w) (files w1) s s1 xs) →
  (b = true → st = ZDB_OK) →
  (∀ st' w', append_post i s xs w st' w' → Q st' w') →
  wp (zdb_unlock_write the_db;;
      status ← (if b then flush_rc ← zdb_ts_flush_async (Some t); ret (f flush_rc) else ret st);
      append_event t x status) Q w1.
Proof.
  intros Hr Hs Ht Ha Hb HQ. apply wp_bind. eapply wp_unlock_still; [done|]. intros w2 S2.
  assert (ready w2) as Hr2 by (eapply ready_step; [apply S2|done]).
  destruct (st_slot _ _ _ _ S2) as (s2 & Hs2 & Hsim2).
  assert (∀ st' w', (st' = ZDB_OK → st = ZDB_OK) → still i s2 w2 w' → append_post i s xs w st' w') as Hpost.
  { intros st' w' Himp S'. eapply append_post_still; [exact Hs2|exact S'|]. intros Hst'.
    rewrite (st_files _ _ _ _ S2). eapply appended_sim; [|done]. auto. }
  apply wp_bind. destruct b.
  - apply wp_bind. eapply wp_flush_async; [done|done|done|]. intros st3 w3 S3. apply wp_ret.
    destruct (st_slot _ _ _ _ S3) as (s3 & Hs3 & Hsim3).
    eapply wp_append_event; [done|done|]. intros w4 [Sst Sf (s4 & Hs4 & Hsim4)].
    apply HQ, Hpost; [by rewrite Hb|]. destruct S3 as [Sst3 Sf3 _].
    split; [by etrans|congruence|]. exists s4. split; [done|by eapply slot_sim_trans].
  - apply wp_ret. eapply wp_append_event; [done|done|]. intros w4 S4. by apply HQ, Hpost.
Qed.

Lemma wp_append_i64 name i s x (Q : zdb_status_t → W → Prop) w :
  opened_as name i s w → (cur_seg s + 4 < 2 ^ 32)%Z → sample_ok x →
  (∀ st w', append_post i s [x] w st w' → Q st w') →
  wp (zdb_ts_append_i64 (handle name) (Some x)) Q w.
Proof.
  intros [Hr Hfind Hs Hok Hrec] H32 Hx HQ. unfold zdb_ts_append_i64, handle. cbn [ts_db ts_stream_name].
  apply wp_bind, wp_ctx_ready; [apply Hr..|by eapply slot_is_some|]. simpl negb. cbn iota.
  apply wp_bind, wp_db_get. rewrite Hfind. apply wp_bind, wp_ts_lock; cycle 1.
  { intros k' _. rewrite bool_decide_false by done. apply wp_ret, HQ. by intros. }
  intros k' _ _ _. rewrite bool_decide_true by done. simpl negb. cbn iota. set (w1 := w <| w_k := k' |>).
  assert (slot_is w1 i s) as Hs1 by done. apply wp_bind.
  assert (∀ st m s' w', at_slot i s' w1 w' →
    (st = ZDB_OK → appended (cfg (w_db w)) (files w) (files w') s s' [x]) →
    wp (let '(status, rec_size) := (st, m) in
        s ← slot_get i;
        let need_async_flush := bool_decide (status = ZDB_OK) &&
          (ingest_capacity s <? ingest_used s + rec_size) in
        zdb_unlock_write the_db;;
        status ← (if need_async_flush then
                    flush_rc ← zdb_ts_flush_async (handle name);
                    ret (if bool_decide (flush_rc = ZDB_ERR_BUSY) then status else flush_rc)
                  else ret status);
        append_event {| ts_db := Some the_db; ts_stream_name := Some name |} x status) Q w') as Htail.
  { intros st m s' w' A' Ha. cbn iota. apply wp_bind, (wp_slot_get _ s'); [apply A'|]. cbv zeta.
    unfold handle. eapply (wp_append_tail _ _ _ _ _ _ _ _
      (λ flush_rc, if bool_decide (flush_rc = ZDB_ERR_BUSY) then st else flush_rc));
      [|apply A'|done|exact Ha| |exact HQ].
    - eapply ready_step; [apply A'|]. eapply ready_step; [apply (ts_step_k w k')|done].
    - rewrite andb_true_iff, bool_decide_eq_true. by intros [? _]. }
  eapply wp_append_record; [by apply at_slot_refl|done|apply Hr|done..| |].
  - intros st m s' w' Hst A'. eapply Htail; [exact A'|by intros].
  - intros w' s' m A' Ap'. eapply Htail; [exact A'|by intros].
Qed.

(** ** Batches *)

Lemma appended_nil c fs s : stream_ok c fs s → appended c fs fs s s [].
Proof. intros Hok. split; [done..|simpl; lia|]. exists []. rewrite app_nil_r.
  split; [done|by apply discards_nil]. Qed.

Lemma wp_append_batch db i xs (Q : zdb_status_t → W → Prop) w0 s w :
  at_slot i s w0 w → stream_ok (cfg (w_db w)) (files w) s → is_Some (cfg (w_db w)) →
  (cur_seg s + 3 * length xs + 1 < 2 ^ 32)%Z → zdb_ts_rec_size_for native_version ≤ ingest_limit →
  Forall sample_ok xs →
  (∀ st s' w', st ≠ ZDB_OK → at_slot i s' w0 w' → Q st w') →
  (∀ w' s', at_slot i s' w0 w' → appended (cfg (w_db w)) (files w) (files w') s s' xs →
     Q ZDB_OK w') →
  wp (append_batch db i xs) Q w.
Proof.
  revert s w. induction xs as [|x xs IH]; intros s w A Hok Hcfg H32 Hrec Hxs Hbad HQ; simpl.
  { apply wp_ret. eapply HQ; [exact A|by apply appended_nil]. }
  inversion Hxs as [|? ? Hx Hxs']; subst. cbn [length] in H32.
  apply wp_bind. eapply wp_append_record; [exact A|done|done|lia|done|done|..].
  - intros st m s' w' Hst A'. rewrite bool_decide_false by done. by eapply wp_ret, Hbad.
  - intros w1 s1 m A1 Ap1. rewrite bool_decide_true by done.
    assert (cfg (w_db w1) = cfg (w_db w)) as Hc1.
    { rewrite (at_slot_cfg _ _ _ _ A1). symmetry. apply (at_slot_cfg _ _ _ _ A). }
    pose proof (apd_cur _ _ _ _ _ _ Ap1) as Hcur. simpl in Hcur.
    eapply IH; [exact A1|rewrite Hc1; apply Ap1|by rewrite Hc1|lia|done|done|done|].
    intros w2 s2 A2 Ap2. rewrite Hc1 in Ap2. eapply HQ; [exact A2|]. exact (appended_trans _ _ _ _ _ _ _ [x] xs Ap1 Ap2).
Qed.

Lemma wp_append_batch_i64 name i s x xs (Q : zdb_status_t → W → Prop) w :
  opened_as name i s w → (cur_seg s + 3 * length (x :: xs) + 1 < 2 ^ 32)%Z →
  Forall sample_ok (x :: xs) →
  (∀ st w', append_post i s (x :: xs) w st w' → Q st w') →
  wp (zdb_ts_append_batch_i64 (handle name) (Some (x :: xs))) Q w.
Proof.
  intros [Hr Hfind Hs Hok Hrec] H32 Hx HQ. unfold zdb_ts_append_batch_i64, handle.
  cbn [ts_db ts_stream_name].
  apply wp_bind, wp_ctx_ready; [apply Hr..|by eapply slot_is_some|]. simpl negb. cbn iota.
  apply wp_bind, wp_ts_lock; cycle 1.
  { intros k' _. rewrite bool_decide_false by done. apply wp_ret, HQ. by intros. }
  intros k' _ _ _. rewrite bool_decide_true by done. simpl negb. cbn iota. set (w1 := w <| w_k := k' |>).
  apply wp_bind, wp_db_get. assert (zdb_ts_slot_find (ts_ctx (w_db w1)) (Some name) = Some i) as -> by done.
  assert (slot_is w1 i s) as Hs1 by done. apply wp_bind.
  assert (∀ st s' w', at_slot i s' w1 w' →
    (st = ZDB_OK → appended (cfg (w_db w)) (files w) (files w') s s' (x :: xs)) →
    wp (zdb_unlock_write the_db;;
        s ← slot_get i;
        (if bool_decide (st = ZDB_OK) && (ingest_capacity s <? ingest_used s + zdb_ts_slot_rec_size s)
         then zdb_ts_flush_async (handle name);; ret tt else ret tt);;
        append_event {| ts_db := Some the_db; ts_stream_name := Some name |} x st) Q w') as Htail.
  { intros st s' w' A' Ha. apply wp_bind. eapply wp_unlock_still; [apply A'|]. intros w2 S2.
    assert (ready w2) as Hr2.
    { eapply ready_step; [apply S2|]. eapply ready_step; [apply A'|].
      eapply ready_step; [apply (ts_step_k w k')|done]. }
    destruct (st_slot _ _ _ _ S2) as (s2 & Hs2 & Hsim2).
    assert (∀ w', still i s2 w2 w' → append_post i s (x :: xs) w st w') as Hpost.
    { intros w3 S3. eapply append_post_still; [exact Hs2|exact S3|]. intros Hst.
      rewrite (st_files _ _ _ _ S2). eapply appended_sim; [|done]. auto. }
    apply wp_bind, (wp_slot_get _ s2); [done|]. apply wp_bind.
    eapply (wp_mono _ (λ _ w3, still i s2 w2 w3)).
    { destruct (_ && _); [|by apply wp_ret, still_refl]. apply wp_bind.
      eapply wp_flush_async; [done|done|done|]. intros st3 w3 S3. by apply wp_ret. }
    intros [] w3 S3. destruct (st_slot _ _ _ _ S3) as (s3 & Hs3 & Hsim3).
    eapply wp_append_event; [done|done|]. intros w4 S4. by eapply HQ, Hpost, still_trans. }
  eapply wp_append_batch; [by apply at_slot_refl|done|apply Hr|simpl in *; lia|done..| |].
  - intros st s' w' Hst A'. eapply Htail; [exact A'|by intros].
  - intros w' s' A' Ap'. eapply Htail; [exact A'|by intros].
Qed.

(** ** Closing *)

Lemma wp_slot_release i s (Q : bool → W → Prop) w :
  slot_is w i s → in_use s = true → (open_count s ≤ 1)%Z →
  (∀ w', ts_step w w' → w_fs w' = w_fs w → slot_is w' i zero_stream → Q true w') →
  wp (zdb_ts_slot_release (Some i)) Q w.
Proof.
  intros Hs Hu Hoc HQ. unfold zdb_ts_slot_release. apply wp_bind, (wp_slot_get _ s); [done|].
  rewrite Hu. cbn [negb]. rewrite (proj2 (Z.ltb_ge _ _)) by lia. apply wp_bind, wp_db_get, wp_bind.
  eapply (wp_mono _ (λ _ w1, ts_step w w1 ∧ w_fs w1 = w_fs w ∧ ts_ctx (w_db w1) = ts_ctx (w_db w))).
  { destruct (ingest_buf s), (ts_ingest_slab (w_db w)); try by apply wp_ret.
    apply wp_on_k_. split_and!; [apply ts_step_k|done|done]. }
  intros _ w1 (S1 & F1 & X1). apply slot_is_ctx in Hs as (c & Hc & Hl). apply wp_bind.
  eapply (wp_mono _ (λ _ w2, ts_step w w2 ∧ w_fs w2 = w_fs w ∧
    ∃ c2, ts_ctx (w_db w2) = Some c2 ∧ streams c2 = streams c)).
  { destruct (_ && _); [|apply wp_ret; split_and!; [done..|exists c; by rewrite X1]].
    apply wp_db_set. split_and!; [etrans; [exact S1|apply ts_step_set_ctx]|done|].
    simpl. rewrite X1, Hc. by eexists. }
  intros _ w2 (S2 & F2 & c2 & Hc2 & Hst). apply wp_bind, wp_db_set, wp_ret, HQ.
  - etrans; [exact S2|apply ts_step_set_ctx].
  - done.
  - unfold slot_is, ctx_streams. simpl. rewrite Hc2. simpl. rewrite list_lookup_alter_eq, Hst, Hl. done.
Qed.

Lemma opened_name name i s w : opened_as name i s w → st_name s = name.
Proof.
  intros [_ Hfind Hs _ _]. pose proof (slot_is_ctx _ _ _ Hs) as (c & Hc & Hl).
  rewrite Hc in Hfind. apply slot_find_Some in Hfind as (t & Hl' & _ & Hnm). congruence.
Qed.

Lemma wp_close_last name i s (Q : zdb_status_t * option zdb_ts_t → W → Prop) w :
  LockLive K → opened_as name i s w → (open_count s ≤ 1)%Z → (cur_seg s + 2 < 2 ^ 32)%Z →
  (∀ st t w', st ≠ ZDB_OK → Q (st, t) w') →
  (∀ w1 w' s', flushed (cfg (w_db w)) (files w) (files w1) s s' → files w' = files w1 →
     (∃ s0, slot_is w' i s0 ∧ slot_sim zero_stream s0) →
     Q (ZDB_OK, Some {| ts_db := None; ts_stream_name := None |}) w') →
  wp (zdb_ts_close (handle name)) Q w.
Proof.
  intros Hlive [Hr Hfind Hs Hok Hrec] Hoc H32 Hbad HQ. unfold zdb_ts_close, handle.
  cbn [ts_db ts_stream_name]. apply wp_bind, wp_bind, wp_db_get.
  pose proof (slot_is_ctx _ _ _ Hs) as (c & Hc & _). rewrite Hc.
  apply wp_bind, wp_lock; [|intros k' _ Hno; by destruct Hno].
  intros k' _ _ _. rewrite bool_decide_true by done. cbn [negb]. set (w1 := w <| w_k := k' |>).
  apply wp_bind, wp_db_get. change (ts_ctx (w_db w1)) with (ts_ctx (w_db w)). rewrite Hfind.
  assert (slot_is w1 i s) as Hs1 by done.
  apply wp_bind, wp_bind, (wp_slot_get _ s); [done|]. rewrite (proj2 (Z.leb_le _ _)) by lia.
  apply wp_bind, wp_bind. eapply (wp_flush_buffer _ _ _ _ w1); [by apply at_slot_refl|done|apply Hr|done|..].
  { intros rc s' w2 Hrc _. rewrite (proj2 (Z.ltb_lt _ _)) by done.
    refine (Hbad (zdb_status_from_errno rc) _ _ _). rewrite status_from_errno_ok. lia. }
  intros w2 s2 A2 F2. change (0 <? 0)%Z with false. cbn iota. apply wp_ret, wp_bind.
  pose proof (fl_ok _ _ _ _ _ F2) as Hok2.
  eapply wp_slot_release; [apply A2|apply Hok2|by rewrite (fl_count _ _ _ _ _ F2)|].
  intros w3 S3 F3 Hs3. apply wp_ret, wp_bind. eapply wp_unlock_still; [exact Hs3|].
  intros w4 S4. apply wp_ret, wp_ret. destruct (st_slot _ _ _ _ S4) as (s4 & ? & ?).
  eapply (HQ w2); [exact F2| |by exists s4]. rewrite (st_files _ _ _ _ S4). unfold files. by rewrite F3.
Qed.
End append.
