(* ===== verification/TsRecoverSpec.v ===== *)
(** * Recovery keeps the longest valid prefix of a file *)

From S2P Require Import Prelude Config Env Types FsEnv FsSpec Events CoreSpec Cursor TsFormat.
From S2P Require Import TsFormatSpec TsSpec TsStore TsSegment TsCursor TsRecover.
From S2P Require Import TsFileSpec TsInv TsStream TsFlushSpec TsAppendSpec.

(** ** Walking fixed-size records *)

Lemma records_cons n d :
  0 < n → n ≤ length d → records n d = take n d :: records n (drop n d).
Proof.
  intros Hn Hle. assert (length (take n d) = n) as Hl by (rewrite length_take; lia).
  rewrite <- (take_drop n d) at 1. rewrite records_app; [|done|by rewrite Hl].
  rewrite <- Hl at 1. rewrite records_one; [done|]. intros He. rewrite He in Hl. simpl in Hl. lia.
Qed.

Lemma records_short n d : length d < n → records n d = [].
Proof. intros Hlt. unfold records. by rewrite Nat.div_small. Qed.

Section good.
Context {Cfg : Config} {CRC : Crc32}.

(** How many records decode before the first that does not. *)
Fixpoint good_prefix (v : Z) (rs : list (list byte)) : nat :=
  match rs with
  | r :: rs => match decode_pure v 0 r with Some _ => S (good_prefix v rs) | None => 0 end
  | [] => 0
  end.

Definition good_records (v : Z) (d : list byte) : nat :=
  good_prefix v (records (zdb_ts_rec_size_for v) (drop (zdb_ts_hdr_size_for v) d)).

(** The end of the valid prefix of a file. *)
Definition good_end (v : Z) (d : list byte) : nat :=
  zdb_ts_hdr_size_for v + good_records v d * zdb_ts_rec_size_for v.

Lemma good_prefix_le v rs : good_prefix v rs ≤ length rs.
Proof. induction rs as [|r rs IH]; simpl; [done|]. case_match; lia. Qed.

(** Whether a record decodes does not depend on the timestamp base. *)
Lemma decode_pure_base v b b' r : is_Some (decode_pure v b r) ↔ is_Some (decode_pure v b' r).
Proof. unfold decode_pure. repeat case_match; split; intros []; done. Qed.

Lemma good_end_bound v d :
  zdb_ts_hdr_size_for v ≤ length d → zdb_ts_hdr_size_for v ≤ good_end v d ≤ length d.
Proof.
  intros Hl. unfold good_end, good_records.
  pose proof (good_prefix_le v (records (zdb_ts_rec_size_for v) (drop (zdb_ts_hdr_size_for v) d))) as Hg.
  rewrite length_records, length_drop in Hg.
  pose proof (Nat.Div0.mul_div_le (length d - zdb_ts_hdr_size_for v) (zdb_ts_rec_size_for v)). nia.
Qed.

Lemma records_take n k d :
  0 < n → k * n ≤ length d → records n (take (k * n) d) = take k (records n d).
Proof.
  intros Hn. revert d. induction k as [|k IH]; intros d Hle; [by rewrite records_nil|].
  assert (length (take (S k * n) d) = S k * n) as Hl by (rewrite length_take; lia).
  rewrite records_cons by lia. rewrite (records_cons n d) by lia. rewrite firstn_cons.
  rewrite take_take, Nat.min_l by lia. f_equal.
  rewrite skipn_firstn_comm. replace (S k * n - n) with (k * n) by lia.
  apply IH. rewrite length_drop. lia.
Qed.

(** The samples of the valid prefix are the leading samples of the file, and
    all its records decode. *)
Lemma good_take v d :
  zdb_ts_hdr_size_for v ≤ length d →
  let d' := take (good_end v d) d in
  aligned d' v ∧ good_records v d' = good_records v d ∧
  ∀ base, length (samples v base (drop (zdb_ts_hdr_size_for v) d')) = good_records v d ∧
    samples v base (drop (zdb_ts_hdr_size_for v) d') =
    take (good_records v d) (samples v base (drop (zdb_ts_hdr_size_for v) d)).
Proof.
  intros Hl d'. pose proof (good_end_bound v d Hl) as Hb. pose proof (rec_size_for_pos v) as Hpos.
  assert (length d' = good_end v d) as Hld by (unfold d'; rewrite length_take; lia).
  assert (drop (zdb_ts_hdr_size_for v) d' =
    take (good_records v d * zdb_ts_rec_size_for v) (drop (zdb_ts_hdr_size_for v) d)) as Hdrop.
  { unfold d'. rewrite skipn_firstn_comm. f_equal. unfold good_end. lia. }
  assert (good_records v d * zdb_ts_rec_size_for v ≤ length (drop (zdb_ts_hdr_size_for v) d)) as Hle.
  { rewrite length_drop. unfold good_end in *. lia. }
  assert (∀ rs, good_prefix v (take (good_prefix v rs) rs) = good_prefix v rs) as Hgg.
  { induction rs as [|r rs IH]; simpl; [done|]. destruct (decode_pure v 0 r) eqn:He; simpl; [|done].
    by rewrite He, IH. }
  assert (∀ base rs, omap (decode_pure v base) (take (good_prefix v rs) rs) =
    take (good_prefix v rs) (omap (decode_pure v base) rs) ∧
    length (omap (decode_pure v base) (take (good_prefix v rs) rs)) = good_prefix v rs) as Homap.
  { intros base. induction rs as [|r rs [IH1 IH2]]; simpl; [done|].
    destruct (decode_pure v 0 r) eqn:He; simpl; [|done].
    destruct (proj1 (decode_pure_base v 0 base r) ltac:(by eexists)) as [x Hx]. rewrite Hx.
    rewrite firstn_cons. split; [by f_equal|simpl; by f_equal]. }
  split_and!.
  - unfold aligned. rewrite Hld. unfold good_end.
    exists (good_records v d). lia.
  - unfold good_records at 1. rewrite Hdrop, records_take by done. apply Hgg.
  - intros base. unfold samples. rewrite Hdrop, records_take by done.
    destruct (Homap base (records (zdb_ts_rec_size_for v) (drop (zdb_ts_hdr_size_for v) d))). done.
Qed.
End good.

Section spec.
Context {Cfg : Config} {CfgOk : ConfigOk Cfg} {K F FS FH DH : Type}.
Context `{!Kernel K, !KernelLaws K, !FileSys FS FH DH, !FileSysLaws FS FH DH}.
Context {CRC : Crc32} {CRCLaws : Crc32Laws} {CloseOk : FsCloseOk FS FH DH}.
Abbreviation W := (world K F FS).
Implicit Types w : W.

(** ** Layouts *)

(** The walk [cctx] for files of version [v] and base [base]. *)
Definition with_layout (cctx : zdb_ts_cursor_ctx FH) (v base : Z) : zdb_ts_cursor_ctx FH :=
  cctx <| hdr_size := zdb_ts_hdr_size_for v |> <| rec_size := zdb_ts_rec_size_for v |>
       <| base_ts_ms := base |>.

(** What [zdb_ts_cursor_learn_layout] makes of a file with a header: its layout,
    an error, or, when the read fails, the layout of version 1. *)
Lemma wp_learn_layout cctx name p d v base (Q : zdb_status_t * zdb_ts_cursor_ctx FH → W → Prop) w :
  files w !! p = Some d → header_pure name d = Some (v, base) →
  (∀ w', calm w w' → ts_ctx (w_db w') = ts_ctx (w_db w) → files w' = files w →
     Q (ZDB_OK, with_layout cctx v base) w') →
  (∀ st w', calm w w' → ts_ctx (w_db w') = ts_ctx (w_db w) → files w' = files w →
     Q (st, with_layout cctx ZDB_TS_STREAM_VERSION 0) w') →
  wp (zdb_ts_cursor_learn_layout cctx p) Q w.
Proof.
  intros Hd Hh Hok Hbad. unfold zdb_ts_cursor_learn_layout. cbv zeta.
  set (def := cctx <| hdr_size := sizeof_stream_header |> <| rec_size := sizeof_record_i64 |>
                   <| base_ts_ms := 0%Z |>).
  assert (def = with_layout cctx ZDB_TS_STREAM_VERSION 0) as Hdef by done.
  apply wp_bind, wp_fs_open.
  { intros rc fh fs' Hrc Hfs _. rewrite (proj2 (Z.ltb_lt _ _)), Hdef by done.
    apply wp_ret, Hbad; [apply calm_fs|done|done]. }
  intros fh fs1 d0 Hap Hop Hfs1. change (0 <? 0)%Z with false. cbn iota.
  rewrite Hd in Hop. injection Hop as <-. set (w1 := w <| w_fs := fs1 |>).
  assert (files w1 = files w) as Hf1 by (etrans; [exact Hfs1|]; by apply insert_id).
  apply wp_bind. eapply wp_fs_read; [exact Hap|by rewrite Hf1|..].
  { intros rc raw fh2 fs2 Hrc Hfs2 _ _. apply wp_bind, wp_fs_close_ok; [done|]. intros fs3 Hfs3.
    rewrite (proj2 (Z.ltb_lt rc _)) by (unfold sizeof_stream_header; lia). rewrite Hdef.
    apply wp_ret, Hbad; [do 2 (etrans; [apply calm_fs|]); apply calm_fs|done|].
    unfold files in *. simpl in *. congruence. }
  intros fh2 fs2 Hfs2 _. rewrite drop_0. apply wp_bind, wp_fs_close_ok; [done|]. intros fs3 Hfs3.
  apply wp_ret. set (w3 := _ <| w_fs := fs3 |>).
  assert (calm w w3) as C3 by (do 2 (etrans; [apply calm_fs|]); apply calm_fs).
  assert (files w3 = files w) as Hf3 by (unfold files in *; simpl in *; congruence).
  unfold header_pure in Hh. cbv zeta in Hh. set (raw := take ZDB_TS_HDR_MAX_SIZE d) in *.
  destruct (Nat.ltb_spec (length raw) sizeof_stream_header); [done|].
  destruct (Z.ltb_spec (length raw) sizeof_stream_header); [lia|].
  destruct (get_le 2 raw 4 =? ZDB_TS_STREAM_VERSION_V2)%Z; cbn [negb].
  - destruct (Nat.ltb_spec (length raw) sizeof_stream_header_v2); [done|].
    destruct (Z.ltb_spec (length raw) sizeof_stream_header_v2); [lia|].
    destruct (_ && _) in Hh; [|done]. injection Hh as <- <-. by apply Hok.
  - destruct (_ && _) in Hh; [|done]. injection Hh as <- <-. rewrite Hdef. by apply Hok.
Qed.

(** ** The walk over the records *)

Lemma wp_recover_loop fuel v fh p fl d pos ge (Q : zdb_status_t * nat * FH → W → Prop) w :
  version_ok v → zdb_ts_rec_size_for v ≤ ZDB_TS_HDR_MAX_SIZE →
  at_pos fh p fl pos → files w !! p = Some d → pos ≤ length d →
  length d - pos < fuel →
  (∀ st n fh' w', st ≠ ZDB_OK → calm w w' → ts_ctx (w_db w') = ts_ctx (w_db w) →
     files w' = files w → Q (st, n, fh') w') →
  (∀ fh' w' k, k = good_prefix v (records (zdb_ts_rec_size_for v) (drop pos d)) →
     calm w w' → ts_ctx (w_db w') = ts_ctx (w_db w) → files w' = files w →
     at_pos fh' p fl (Nat.min (length d) (pos + k * zdb_ts_rec_size_for v + zdb_ts_rec_size_for v)) →
     Q (ZDB_OK, ge + k * zdb_ts_rec_size_for v, fh') w') →
  wp (recover_loop fuel (Some the_db) fh (zdb_ts_rec_size_for v) ge) Q w.
Proof.
  intros Hv Hfit. pose proof (rec_size_for_pos v) as Hpos. set (n := zdb_ts_rec_size_for v) in *.
  revert fh pos ge w. induction fuel as [|fuel IH]; intros fh pos ge w Hap Hd Hle Hfuel Hbad Hok; [lia|].
  simpl. apply wp_bind. eapply wp_fs_read; [exact Hap|exact Hd|..].
  { intros rc data fh' fs' Hrc Hfs Hp _. rewrite (proj2 (Z.eqb_neq rc 0)), (proj2 (Z.ltb_lt rc 0)) by lia.
    apply wp_ret, Hbad; [rewrite status_from_errno_ok; lia|apply calm_fs|done|done]. }
  intros fh' fs' Hfs Hap'. set (w1 := w <| w_fs := fs' |>).
  assert (calm w w1) as C1 by apply calm_fs.
  assert (length (take n (drop pos d)) = Nat.min n (length d - pos)) as Hlen
    by (rewrite length_take, length_drop; lia).
  set (got := length (take n (drop pos d))) in *.
  assert (∀ w2, got = 0 ∨ got < n ∨ decode_pure v 0 (take n (drop pos d)) = None →
    calm w1 w2 → ts_ctx (w_db w2) = ts_ctx (w_db w1) → files w2 = files w1 → Q (ZDB_OK, ge, fh') w2) as Hend.
  { intros w2 Hstop C2 X2 F2. rewrite <- (Nat.add_0_r ge). change 0 with (0 * n).
    apply (Hok fh' w2 0); [|by etrans|by rewrite X2|by rewrite F2|].
    - destruct (decide (n ≤ length d - pos)) as [Hfull|Hshort].
      + rewrite records_cons by (rewrite ?length_drop; lia). simpl.
        destruct Hstop as [?|[?| ->]]; [lia|lia|done].
      + rewrite records_short; [done|]. rewrite length_drop. lia.
    - replace (Nat.min (length d) (pos + 0 * n + n)) with (pos + got) by lia. done. }
  destruct (Z.eqb_spec got 0) as [Hz|Hnz]; [apply wp_ret, Hend; [lia|done..]|].
  rewrite (proj2 (Z.ltb_ge _ _)) by lia.
  destruct (Z.eqb_spec got n) as [Hn|Hn]; cbn [negb]; cycle 1.
  { apply wp_ret, Hend; [lia|done..]. }
  assert ((if n =? sizeof_record_v2 then ZDB_TS_STREAM_VERSION_V2 else ZDB_TS_STREAM_VERSION) = v) as ->
    by (unfold n; by destruct Hv as [-> | ->]).
  unfold recover_buffer. rewrite (proj2 (Nat.leb_le _ _)) by (unfold got in *; lia).
  apply wp_bind, wp_decode_as; cycle 1.
  { intros st w2 Hnone N Hst. destruct (noise_ctx _ _ N).
    rewrite bool_decide_false by (by destruct Hst as [[-> _]| ->]).
    apply wp_ret, Hend; [by right; right|by apply calm_noise|done|done]. }
  intros x Hx. rewrite bool_decide_true by done. cbn [negb].
  assert (pos + got = pos + n) as Hpn by lia. rewrite Hpn in Hap'.
  eapply IH; [exact Hap'|by rewrite <- Hd; unfold files; simpl; rewrite Hfs|lia|lia|..].
  - intros st m fh2 w2 Hst C2 X2 F2. apply Hbad; [done|by etrans|done|]. by rewrite F2.
  - intros fh2 w2 k Hk C2 X2 F2 Hap2. replace (ge + n + k * n) with (ge + (S k) * n) by lia.
    apply Hok; [|by etrans|done|by rewrite F2|by replace (pos + S k * n) with (pos + n + k * n) by lia].
    rewrite records_cons by (rewrite ?length_drop; lia). simpl. rewrite Hx. f_equal.
    by rewrite Hk, drop_drop.
Qed.

(** The bytes recovery reports as removed: what the walk had read past the valid
    prefix, which is at most one record. *)
Definition reported (v : Z) (d : list byte) : nat :=
  Nat.min (length d) (good_end v d + zdb_ts_rec_size_for v) - good_end v d.

(** What a run that succeeds leaves of a file [d]. *)
Definition recovered (p : list byte) (v : Z) (d : list byte) w w' : Prop :=
  calm w w' ∧ ts_ctx (w_db w') = ts_ctx (w_db w) ∧
  files w' = <[p := take (good_end v d) d]> (files w).

Lemma off_t_hdr v : off_t (zdb_ts_hdr_size_for v) = zdb_ts_hdr_size_for v.
Proof.
  pose proof size_width_range as Hw. apply off_t_small.
  assert (2 ^ 31 ≤ 2 ^ (SIZE_WIDTH - 1))%Z as H31 by (apply Z.pow_le_mono_r; lia).
  change (2 ^ 31)%Z with 2147483648%Z in H31.
  unfold zdb_ts_hdr_size_for, sizeof_stream_header_v2, sizeof_stream_header.
  destruct (_ =? _)%Z; simpl Z.of_nat; lia.
Qed.

Lemma wp_recover_walk v fh p pos d (Q : zdb_status_t * nat → W → Prop) w :
  version_ok v → zdb_ts_rec_size_for v ≤ ZDB_TS_HDR_MAX_SIZE →
  at_pos fh p FS_CREATE_RDWR pos → files w !! p = Some d →
  zdb_ts_hdr_size_for v ≤ length d → (Z.of_nat (length d) < 2 ^ SIZE_WIDTH)%Z →
  (∀ st n w', st ≠ ZDB_OK → calm w w' → ts_ctx (w_db w') = ts_ctx (w_db w) →
     files w' = files w → Q (st, n) w') →
  (∀ w', recovered p v d w w' → Q (ZDB_OK, reported v d) w') →
  wp (recover_walk (Some the_db) fh p (zdb_ts_hdr_size_for v) (zdb_ts_rec_size_for v)) Q w.
Proof.
  intros Hv Hfit [Hp Hfl _] Hd Hhdr Hsize Hbad Hok. unfold recover_walk.
  assert (∀ st w1, st ≠ ZDB_OK → calm w w1 → ts_ctx (w_db w1) = ts_ctx (w_db w) → files w1 = files w →
    ∀ fh, wp (on_fs (fs_close fh);; ret (st, 0)) Q w1) as Hfail.
  { intros st w1 Hst C1 X1 F1 fh1. apply wp_bind, wp_fs_close_ok; [done|]. intros fs2 Hfs2.
    apply wp_ret, Hbad; [done|etrans; [exact C1|apply calm_fs]|done|].
    etrans; [exact Hfs2|exact F1]. }
  apply wp_bind, wp_fs_seek_set.
  { intros rc fh1 fs1 Hrc Hfs1 _ _. rewrite (proj2 (Z.ltb_lt _ _)) by done.
    apply Hfail; [rewrite status_from_errno_ok; lia|apply calm_fs|done|done]. }
  intros fh1 fs1 pos1 Hpos1 Hfs1 Hap1. change (0 <? 0)%Z with false. cbn iota.
  rewrite off_t_hdr in Hpos1. apply Nat2Z.inj in Hpos1 as ->. rewrite Hp, Hfl in Hap1.
  set (w1 := w <| w_fs := fs1 |>). assert (files w1 = files w) as Hf1 by exact Hfs1.
  assert (calm w w1) as C1 by apply calm_fs.
  apply wp_bind, wp_gets. change (fs_files (w_fs w1)) with (files w1). rewrite Hf1, Hd. change (default [] (Some d)) with d.
  apply wp_bind. eapply wp_recover_loop; [done|done|exact Hap1|by rewrite Hf1|done|lia|..].
  { intros st n fh2 w2 Hst C2 X2 F2. rewrite bool_decide_false by done.
    apply Hfail; [done|by etrans|done|by rewrite F2]. }
  intros fh2 w2 k Hk C2 X2 F2 Hap2. rewrite bool_decide_true by done. cbn [negb].
  fold (good_records v d) in Hk. subst k. fold (good_end v d) in *.
  assert (calm w w2) as C02 by (by etrans).
  set (e := Nat.min (length d) (good_end v d + zdb_ts_rec_size_for v)) in *.
  assert (∀ w', calm w2 w' → ts_ctx (w_db w') = ts_ctx (w_db w2) →
    files w' = <[p := take (good_end v d) d]> (files w) → recovered p v d w w') as Hrec.
  { intros w' C' X' F'. split_and!; [by etrans|by rewrite X'|done]. }
  apply wp_bind. eapply wp_fs_tell; [exact Hap2|..].
  { intros rc fs3 Hrc Hfs3. rewrite (proj2 (Z.ltb_lt _ _)) by done.
    apply Hfail; [rewrite status_from_errno_ok; lia|etrans; [exact C02|apply calm_fs]|done|].
    etrans; [exact Hfs3|by rewrite F2]. }
  intros fs3 Hfs3. rewrite (proj2 (Z.ltb_ge e 0)) by lia.
  set (w3 := w2 <| w_fs := fs3 |>). assert (files w3 = files w) as Hf3 by (etrans; [exact Hfs3|by rewrite F2]).
  rewrite size_t_nat by lia. pose proof (good_end_bound v d Hhdr) as Hge.
  destruct (Nat.ltb_spec (good_end v d) e) as [Hlt|Hnlt].
  - apply wp_bind. eapply (wp_fs_truncate _ p d); [apply Hap2|by rewrite Hf3|lia|..].
    { intros rc fs4 Hrc Hfs4. rewrite (proj2 (Z.ltb_lt _ _)) by done.
      apply Hfail; [rewrite status_from_errno_ok; lia|..].
      - etrans; [exact C02|]. etrans; apply calm_fs.
      - done.
      - etrans; [exact Hfs4|done]. }
    intros fs4 Hfs4. change (0 <? 0)%Z with false. cbn iota.
    apply wp_bind, wp_stat_upd. intros w5 N5 _ _ _. destruct (noise_ctx _ _ N5) as [X5 F5].
    apply wp_bind, wp_fs_close_ok; [done|]. intros fs6 Hfs6. apply wp_ret, Hok, Hrec.
    + etrans; [|apply calm_fs]. etrans; [|by apply calm_noise]. etrans; apply calm_fs.
    + exact X5.
    + etrans; [exact Hfs6|]. rewrite F5. etrans; [exact Hfs4|]. by rewrite Hf3.
  - apply wp_bind, wp_fs_close_ok; [done|]. intros fs4 Hfs4. apply wp_ret.
    assert (length d ≤ good_end v d) as Hall by (pose proof (rec_size_for_pos v); lia).
    replace 0 with (reported v d) by (unfold reported; lia). apply Hok, Hrec.
    + etrans; apply calm_fs.
    + done.
    + etrans; [exact Hfs4|]. rewrite Hf3, take_ge by done. symmetry. by apply insert_id.
Qed.

(** ** The whole run *)

Lemma calm_emitted n w w' : emitted n w w' → calm w w' ∧ ts_ctx (w_db w') = ts_ctx (w_db w) ∧ files w' = files w.
Proof.
  intros E. split_and!; [split; [by eapply ts_step_emitted|apply E]|by rewrite (em_db _ _ _ E)|].
  unfold files. by rewrite (em_fs _ _ _ E).
Qed.

Lemma wp_recover_fail t st (Q : zdb_status_t → W → Prop) w :
  ts_db t = Some the_db →
  (∀ w', calm w w' → ts_ctx (w_db w') = ts_ctx (w_db w) → files w' = files w → Q st w') →
  wp (recover_fail t st) Q w.
Proof.
  intros Ht HQ. unfold recover_fail. rewrite Ht. apply wp_bind, wp_stat_upd. intros w1 N1 _ _ _.
  apply wp_bind, wp_health_noise. intros w2 N2 _ _. destruct (noise_ctx _ _ N1), (noise_ctx _ _ N2).
  apply wp_bind, wp_ts_event; [done|]. intros w3 n (C3 & X3 & F3)%calm_emitted.
  apply wp_ret, HQ; [|congruence..].
  etrans; [by apply calm_noise|]. etrans; [by apply calm_noise|done].
Qed.

Lemma wp_recover_done t n (Q : zdb_status_t → W → Prop) w :
  ts_db t = Some the_db →
  (∀ w', calm w w' → ts_ctx (w_db w') = ts_ctx (w_db w) → files w' = files w → Q ZDB_OK w') →
  wp (recover_done t n) Q w.
Proof.
  intros Ht HQ. unfold recover_done. rewrite Ht. apply wp_bind, wp_ts_event; [done|].
  intros w3 m (C3 & X3 & F3)%calm_emitted. by apply wp_ret, HQ.
Qed.

Lemma wp_header_decode_v1 hdr name (Q : zdb_status_t → W → Prop) w :
  (get_le 2 hdr 4 = ZDB_TS_STREAM_VERSION → Q ZDB_OK w) →
  (∀ st w', st ≠ ZDB_OK → noise w w' → Q st w') →
  wp (zdb_ts_stream_header_decode (Some the_db) (Some hdr) (Some name)) Q w.
Proof.
  intros Hok Hbad. unfold zdb_ts_stream_header_decode.
  destruct (get_le 4 hdr 0 =? _)%Z; cbn [negb].
  2: { apply wp_bind, wp_stat_upd. intros w1 N1 _ _ _. by apply wp_ret, Hbad. }
  destruct (Z.eqb_spec (get_le 2 hdr 4) ZDB_TS_STREAM_VERSION); cbn [negb].
  2: { apply wp_bind, wp_stat_upd. intros w1 N1 _ _ _. by apply wp_ret, Hbad. }
  destruct (get_le 4 hdr 12 =? _)%Z; cbn [negb].
  2: { apply wp_bind, wp_stat_upd. intros w1 N1 _ _ _. apply wp_bind, wp_stat_upd.
       intros w2 N2 _ _ _. apply wp_ret, Hbad; [done|by etrans]. }
  destruct (get_le 4 hdr 8 =? _)%Z; cbn [negb]; [by apply wp_ret, Hok|].
  apply wp_bind, wp_stat_upd. intros w1 N1 _ _ _. by apply wp_ret, Hbad.
Qed.

(** The version field of a file with a header. *)
Lemma header_version name d v base :
  header_pure name d = Some (v, base) →
  get_le 2 (take sizeof_stream_header d) 4 = v ∧ sizeof_stream_header ≤ length d.
Proof.
  unfold header_pure. cbv zeta. 
  rewrite !(get_le_take 2 sizeof_stream_header) by (unfold sizeof_stream_header; lia).
  rewrite (get_le_take 2 ZDB_TS_HDR_MAX_SIZE)
    by (unfold ZDB_TS_HDR_MAX_SIZE, sizeof_stream_header_v2; lia).
  destruct (Nat.ltb_spec (length (take ZDB_TS_HDR_MAX_SIZE d)) sizeof_stream_header) as [|Hl]; [done|].
  rewrite length_take in Hl. intros Hh. split; [|lia]. revert Hh.
  destruct (Z.eqb_spec (get_le 2 d 4) ZDB_TS_STREAM_VERSION_V2) as [->|].
  - destruct (_ <? _); [done|]. destruct (_ && _); [|done]. by intros [= <- _].
  - destruct (_ && _) eqn:Hc; [|done]. rewrite !andb_true_iff, !Z.eqb_eq in Hc.
    destruct Hc as [[[_ Hv] _] _]. intros [= <- _]. done.
Qed.

Lemma wp_recover_layout t name p d v base (Q : nat * nat → W → Prop) w :
  files w !! p = Some d → header_pure name d = Some (v, base) →
  (∀ v' w', v' = v ∨ v' = ZDB_TS_STREAM_VERSION → calm w w' →
     ts_ctx (w_db w') = ts_ctx (w_db w) → files w' = files w →
     Q (zdb_ts_hdr_size_for v', zdb_ts_rec_size_for v') w') →
  wp (recover_layout t p) Q w.
Proof.
  intros Hd Hh HQ. unfold recover_layout. apply wp_bind, wp_fs_stat.
  { intros rc e fs' Hrc Hfs _. rewrite (proj2 (Z.eqb_neq rc 0)) by lia.
    apply wp_ret, (HQ ZDB_TS_STREAM_VERSION); [by right|apply calm_fs|done|done]. }
  intros e fs' Hfs _. change (0 =? 0)%Z with true. cbn iota. set (w1 := w <| w_fs := fs' |>).
  assert (calm w w1) as C1 by apply calm_fs. assert (files w1 = files w) as F1 by exact Hfs.
  apply wp_bind. eapply wp_learn_layout; [by rewrite F1|exact Hh|..].
  - intros w2 C2 X2 F2. rewrite bool_decide_true by done.
    apply wp_ret, HQ; [by left|by etrans|done|by rewrite F2].
  - intros st w2 C2 X2 F2. assert (∀ b : bool, (if b then
      (hdr_size (with_layout (new_walk t {| from_ts_ms := 0; to_ts_ms := 0 |} false) ZDB_TS_STREAM_VERSION 0),
       rec_size (with_layout (new_walk t {| from_ts_ms := 0; to_ts_ms := 0 |} false) ZDB_TS_STREAM_VERSION 0))
      else (sizeof_stream_header, sizeof_record_i64)) =
      (zdb_ts_hdr_size_for ZDB_TS_STREAM_VERSION, zdb_ts_rec_size_for ZDB_TS_STREAM_VERSION)) as Hdef
      by (by intros []).
    apply wp_ret. rewrite Hdef. apply HQ; [by right|by etrans|done|by rewrite F2].
Qed.

(** The path is that of the active file of the stream. *)
Lemma wp_recover_path name i s (Q : zdb_status_t + list byte → W → Prop) w :
  ready w → zdb_ts_slot_find (ts_ctx (w_db w)) (Some name) = Some i → slot_is w i s →
  (ZDB_TS_SEGMENTED = true → segs_scanned s = true) →
  (∀ st, st ≠ ZDB_OK → Q (inl st) w) →
  Q (inr (stream_file (cfg (w_db w)) name (cur_seg s))) w →
  wp (recover_path {| ts_db := Some the_db; ts_stream_name := Some name |}) Q w.
Proof.
  intros Hr Hfind Hs Hsc Hbad HQ. unfold recover_path, stream_file in *. cbn [ts_db ts_stream_name].
  assert (st_name s = name) as Hname.
  { pose proof (slot_is_ctx _ _ _ Hs) as (c & Hc & Hl). rewrite Hc in Hfind.
    apply slot_find_Some in Hfind as (s' & Hl' & _ & Hn). congruence. }
  assert (∀ rc, (rc < 0)%Z → Q (inl (zdb_status_from_errno rc)) w) as Hneg.
  { intros rc Hrc. apply Hbad. rewrite status_from_errno_ok. lia. }
  destruct ZDB_TS_SEGMENTED eqn:HS.
  - apply wp_bind, wp_ctx_ready; [apply Hr..|by eapply slot_is_some|]. apply wp_bind, wp_db_get.
    rewrite Hfind. apply wp_bind. eapply wp_active_path; [by apply at_slot_refl|intros _; by apply Hsc|..].
    + intros rc Hrc. by apply wp_ret, Hneg.
    + apply wp_ret. unfold stream_file. by rewrite HS, Hname.
  - apply wp_bind, wp_db_get, wp_ret.
    destruct (stream_path_cases (cfg (w_db w)) name ZDB_TS_PATH_MAX) as [(rc & -> & Hrc)| ->]; auto.
Qed.

Lemma wp_recover_file name p d v base v' (Q : zdb_status_t * nat → W → Prop) w :
  v' = v ∨ v' = ZDB_TS_STREAM_VERSION → zdb_ts_rec_size_for v ≤ ZDB_TS_HDR_MAX_SIZE →
  files w !! p = Some d → header_pure name d = Some (v, base) →
  (Z.of_nat (length d) < 2 ^ SIZE_WIDTH)%Z →
  (∀ st n w', st ≠ ZDB_OK → calm w w' → ts_ctx (w_db w') = ts_ctx (w_db w) →
     files w' = files w → Q (st, n) w') →
  (∀ w', recovered p v d w w' → Q (ZDB_OK, reported v d) w') →
  wp (recover_file the_db name p (zdb_ts_hdr_size_for v') (zdb_ts_rec_size_for v')) Q w.
Proof.
  intros Hv' Hfit Hd Hh Hsize Hbad Hok. unfold recover_file.
  pose proof (header_version _ _ _ _ Hh) as [Hver Hlen].
  pose proof (header_pure_ok _ _ _ Hh) as (Hvok & _ & Hhdr). cbn [fst] in *.
  assert (∀ rc, (rc < 0)%Z → zdb_status_from_errno rc ≠ ZDB_OK) as Hneg
    by (intros rc Hrc; rewrite status_from_errno_ok; lia).
  assert (∀ fh st w1, st ≠ ZDB_OK → calm w w1 → ts_ctx (w_db w1) = ts_ctx (w_db w) → files w1 = files w →
    wp (on_fs (fs_close fh);; ret (st, 0)) Q w1) as Hclose.
  { intros fh st w1 Hst C1 X1 F1. apply wp_bind, wp_fs_close_ok; [done|]. intros fs2 Hfs2.
    apply wp_ret, Hbad; [done|etrans; [exact C1|apply calm_fs]|done|by etrans]. }
  apply wp_bind, wp_fs_open.
  { intros rc fh fs1 Hrc Hfs1 _. rewrite (proj2 (Z.ltb_lt _ _)) by done.
    apply wp_ret, Hbad; [auto|apply calm_fs|done|done]. }
  intros fh fs1 d1 Hap Hop Hfs1. change (0 <? 0)%Z with false. cbn iota.
  rewrite Hd in Hop. injection Hop as <-. set (w1 := w <| w_fs := fs1 |>).
  assert (files w1 = files w) as F1 by (etrans; [exact Hfs1|by apply insert_id]).
  apply wp_bind. eapply wp_fs_read; [exact Hap|by rewrite F1|..].
  { intros rc data fh2 fs2 Hrc Hfs2 _ _. rewrite (proj2 (Z.eqb_neq rc 0)), (proj2 (Z.ltb_lt rc 0)) by lia.
    apply Hclose; [auto|etrans; apply calm_fs|done|by etrans]. }
  intros fh2 fs2 Hfs2 Hap2. set (w2 := w1 <| w_fs := fs2 |>). rewrite drop_0 in *.
  assert (length (take sizeof_stream_header d) = sizeof_stream_header) as Hl by (rewrite length_take; lia).
  rewrite Hl. change (Z.of_nat sizeof_stream_header =? 0)%Z with false.
  change (Z.of_nat sizeof_stream_header <? 0)%Z with false.
  rewrite Z.eqb_refl. cbn [negb]. cbn iota.
  assert (calm w w2) as C2 by (etrans; apply calm_fs). assert (files w2 = files w) as F2 by (by etrans).
  assert (∀ w3 pos, calm w w3 → ts_ctx (w_db w3) = ts_ctx (w_db w) → files w3 = files w → v' = v →
    at_pos fh2 p FS_CREATE_RDWR pos →
    wp (recover_walk (Some the_db) fh2 p (zdb_ts_hdr_size_for v') (zdb_ts_rec_size_for v')) Q w3) as Hwalk.
  { intros w3 pos C3 X3 F3 -> Hap3. eapply wp_recover_walk; [done|done|exact Hap3|by rewrite F3|done|done|..].
    - intros st n w4 Hst C4 X4 F4. apply Hbad; [done|by etrans|by rewrite X4|by rewrite F4].
    - intros w4 (C4 & X4 & F4). apply Hok. split_and!; [by etrans|by rewrite X4|by rewrite F4, F3]. }
  apply wp_bind. destruct (Nat.eqb_spec (zdb_ts_hdr_size_for v') sizeof_stream_header) as [Hv1|Hv2].
  - apply wp_header_decode_v1.
    + rewrite Hver. intros ->. rewrite bool_decide_true by done. cbn [negb].
      eapply Hwalk; [exact C2|done|done|by destruct Hv'|exact Hap2].
    + intros st w3 Hst N3. destruct (noise_ctx _ _ N3). rewrite bool_decide_false by done.
      apply Hclose; [done|etrans; [exact C2|by apply calm_noise]|done|by etrans].
  - apply wp_ret. rewrite bool_decide_true by done. cbn [negb].
    eapply Hwalk; [exact C2|done|done|by destruct Hv' as [| ->]|exact Hap2].
Qed.

Lemma wp_recover_stream name i s d v base (out : bool) (Q : zdb_status_t * option nat → W → Prop) w :
  let p := stream_file (cfg (w_db w)) name (cur_seg s) in
  ready w → zdb_ts_slot_find (ts_ctx (w_db w)) (Some name) = Some i → slot_is w i s →
  (ZDB_TS_SEGMENTED = true → segs_scanned s = true) →
  files w !! p = Some d → header_pure name d = Some (v, base) →
  zdb_ts_rec_size_for v ≤ ZDB_TS_HDR_MAX_SIZE →
  (Z.of_nat (length d) < 2 ^ SIZE_WIDTH)%Z →
  (∀ st n w', st ≠ ZDB_OK → calm w w' → ts_ctx (w_db w') = ts_ctx (w_db w) →
     files w' = files w → Q (st, n) w') →
  (∀ w', recovered p v d w w' → Q (ZDB_OK, if out then Some (reported v d) else None) w') →
  wp (zdb_ts_recover_stream (handle name) out) Q w.
Proof.
  intros p Hr Hfind Hs Hsc Hd Hh Hfit Hsize Hbad Hok. unfold zdb_ts_recover_stream, handle.
  set (t := {| ts_db := Some the_db; ts_stream_name := Some name |}). cbv zeta.
  assert (∀ st w1, st ≠ ZDB_OK → calm w w1 → ts_ctx (w_db w1) = ts_ctx (w_db w) → files w1 = files w →
    wp (rc ← recover_fail t st; ret (rc, if out then Some 0 else None)) Q w1) as Hfail.
  { intros st w1 Hst C1 X1 F1. apply wp_bind, wp_recover_fail; [done|]. intros w2 C2 X2 F2.
    apply wp_ret, Hbad; [done|by etrans|by rewrite X2|by rewrite F2]. }
  apply wp_bind, wp_stat_upd. intros w1 N1 _ _ _. destruct (noise_ctx _ _ N1) as [X1 F1].
  assert (calm w w1) as C1 by (by apply calm_noise).
  assert (slot_is w1 i s) as Hs1 by (unfold slot_is, ctx_streams; by rewrite X1).
  apply wp_bind, (wp_recover_path name i s); [by eapply ready_step; [apply C1|]|by rewrite X1|done|done|..].
  { intros st Hst. by apply Hfail. }
  rewrite (calm_cfg _ _ C1). fold p. apply wp_bind.
  eapply wp_recover_layout; [by rewrite F1|exact Hh|]. intros v' w2 Hv' C2 X2 F2.
  assert (calm w w2) as C02 by (by etrans). apply wp_bind.
  eapply wp_recover_file; [exact Hv'|done|by rewrite F2, F1|exact Hh|done|..].
  - intros st n w3 Hst C3 X3 F3. rewrite bool_decide_false by done. cbn [negb].
    apply Hfail; [done|by etrans|congruence|congruence].
  - intros w3 (C3 & X3 & F3). rewrite bool_decide_true by done. cbn [negb].
    apply wp_bind, wp_recover_done; [done|]. intros w4 C4 X4 F4. apply wp_ret, Hok.
    split_and!; [etrans; [exact C02|]; by etrans|congruence|by rewrite F4, F3, F2, F1].
Qed.
End spec.
