(* ===== verification/TsWatermarkSpec.v ===== *)
(** * The consumed watermark: what is set is read back, and nothing else is *)

From S2P Require Import Prelude Config Env Types FsEnv FsSpec Events CoreSpec Cursor TsFormat.
From S2P Require Import TsFormatSpec TsSpec TsStore TsSegment TsCursor TsRecover TsFileSpec TsInv.
From S2P Require Import TsStream TsFlushSpec TsAppendSpec.

Section spec.
Context {Cfg : Config} {CfgOk : ConfigOk Cfg} {K F FS FH DH : Type}.
Context `{!Kernel K, !KernelLaws K, !FileSys FS FH DH, !FileSysLaws FS FH DH}.
Context {CRC : Crc32} {CRCLaws : Crc32Laws} {CloseOk : FsCloseOk FS FH DH}.
Abbreviation W := (world K F FS).
Implicit Types w : W.

(** Setting up the context and the directory touches no file. *)
Lemma wp_ctx_any (Q : bool → W → Prop) w :
  (∀ b w', ts_step w w' → files w' = files w → Q b w') →
  wp (zdb_ts_ctx_get_or_alloc (Some the_db)) Q w.
Proof.
  intros HQ. unfold zdb_ts_ctx_get_or_alloc. apply wp_bind, wp_db_get, wp_bind, wp_db_get.
  destruct (core_slab (w_db w)) as [sl|]; [|by apply wp_ret, HQ].
  destruct (cfg (w_db w)); [|by apply wp_ret, HQ].
  apply wp_bind, wp_db_get. destruct (ts_ctx (w_db w)) eqn:Hctx; [by apply wp_ret, HQ|].
  apply wp_bind, wp_on_k. intros rc k' _. destruct (negb _).
  { apply wp_ret, HQ; [apply ts_step_k|done]. }
  apply wp_bind, wp_on_k_. apply wp_bind, wp_db_set, wp_ret, HQ; [|done].
  etrans; [apply (ts_step_k w k')|]. etrans; [apply ts_step_k|].
  apply ts_step_set_ctx.
Qed.

Lemma wp_stream_dir c (b : bool) (Q : Z → W → Prop) w :
  (∀ rc w', ts_step w w' → files w' = files w → Q rc w') →
  wp (zdb_ts_ensure_stream_dir c b) Q w.
Proof.
  intros HQ. unfold zdb_ts_ensure_stream_dir. destruct c as [c|]; [|by apply wp_ret, HQ].
  destruct (lfs_mount_point c); [|by apply wp_ret, HQ]. destruct (negb b); [by apply wp_ret, HQ|].
  apply wp_bind, wp_db_get. destruct (match ts_ctx (w_db w) with Some c => _ | None => _ end);
    [by apply wp_ret, HQ|]. cbv zeta. destruct (_ <=? _); [by apply wp_ret, HQ|].
  apply wp_bind, wp_fs_mkdir. intros rc fs' Hfs. destruct (_ && _).
  { apply wp_ret, HQ; [apply ts_step_fs|done]. }
  apply wp_bind, wp_db_set, wp_ret, HQ; [|done]. etrans; [apply ts_step_fs|].
  apply ts_step_set_ctx.
Qed.

Lemma wp_watermark_event t m st (Q : zdb_status_t → W → Prop) w :
  ts_db t = Some the_db → (∀ w', ts_step w w' → files w' = files w → Q st w') →
  wp (watermark_event t m st) Q w.
Proof.
  intros Ht HQ. unfold watermark_event. apply wp_bind, wp_ts_event; [done|]. intros w' n E.
  apply wp_ret, HQ; [by eapply ts_step_emitted|]. unfold files. by rewrite (em_fs _ _ _ E).
Qed.

Lemma wp_unlock_files db (Q : unit → W → Prop) w :
  (∀ w', ts_step w w' → files w' = files w → Q tt w') → wp (zdb_unlock_write db) Q w.
Proof.
  intros HQ. apply wp_ts_unlock. intros w' Hst Hf _ _ _ _. apply HQ; [done|]. unfold files. by rewrite Hf.
Qed.

Lemma wmk_path_step w w' name : ts_step w w' → wmk_path w' name = wmk_path w name.
Proof. intros Hst. unfold wmk_path. by rewrite (ts_step_cfg _ _ Hst). Qed.

Lemma wmk_path_neg w name rc : wmk_path w name = inl rc → (rc < 0)%Z.
Proof.
  unfold wmk_path, zdb_ts_build_watermark_path.
  destruct (ts_path_cases (cfg (w_db w)) name ZDB_TS_PATH_MAX (λ name, name ++ s2b ".wmk"))
    as [(rc0 & -> & Hlt)|[-> _]]; [|done]. by intros [= <-].
Qed.

Lemma wp_watermark_set name m (Q : zdb_status_t → W → Prop) w :
  (∀ st w', st ≠ ZDB_OK → ts_step w w' →
     (∀ p q, wmk_path w name = inr p → q ≠ p → files w' !! q = files w !! q) → Q st w') →
  (∀ w' p, ts_step w w' → wmk_path w name = inr p →
     files w' = <[p := watermark_encode m]> (files w) → Q ZDB_OK w') →
  wp (zdb_ts_watermark_set (handle name) m) Q w.
Proof.
  intros Hbad Hok. unfold zdb_ts_watermark_set, handle. cbn [ts_db ts_stream_name].
  apply wp_bind, wp_db_get. destruct (cfg (w_db w)) as [c|] eqn:Hc; [|by apply wp_ret, Hbad].
  apply wp_bind, wp_ctx_any. intros b w1 S1 F1. destruct (negb b).
  { apply wp_ret, Hbad; [done|done|]. intros. by rewrite F1. }
  apply wp_bind, wp_stream_dir. intros rc w2 S2 F2.
  assert (ts_step w w2) as S02 by (by etrans). assert (files w2 = files w) as F02 by (by rewrite F2).
  destruct (Z.ltb_spec rc 0).
  { apply wp_ret, Hbad; [rewrite status_from_errno_ok; lia|done|]. intros. by rewrite F02. }
  assert (zdb_ts_build_watermark_path (Some c) (Some name) ZDB_TS_PATH_MAX = wmk_path w name) as ->
    by (unfold wmk_path; by rewrite Hc).
  destruct (wmk_path w name) as [rc'|p] eqn:Hp.
  { apply wp_ret, Hbad; [|done|by intros; rewrite F02].
    apply wmk_path_neg in Hp. rewrite status_from_errno_ok. lia. }
  cbv zeta. apply wp_bind, wp_ts_lock; cycle 1.
  { intros k' _. rewrite bool_decide_false by done. apply wp_ret, Hbad; [done| |by intros; rewrite <- F02].
    etrans; [exact S02|apply ts_step_k]. }
  intros k' _ _ _. rewrite bool_decide_true by done. cbn [negb]. set (w3 := w2 <| w_k := k' |>).
  assert (ts_step w w3) as S3 by (etrans; [exact S02|apply ts_step_k]).
  assert (files w3 = files w) as F3 by exact F02.
  apply wp_bind, wp_fs_open.
  { intros rc' fh fs4 Hrc Hfs4 _. rewrite (proj2 (Z.ltb_lt _ _)) by done.
    apply wp_bind, wp_unlock_files. intros w5 S5 F5.
    apply wp_ret, Hbad; [rewrite status_from_errno_ok; lia| |].
    - etrans; [exact S3|]. etrans; [apply ts_step_fs|done].
    - intros. rewrite F5. change (fs_files fs4 !! q = files w !! q). by rewrite Hfs4, F3. }
  intros fh fs4 d Hap Hop Hfs4. change (0 <? 0)%Z with false. cbn iota.
  assert (d = []) as ->.
  { revert Hop. destruct (files w3 !! p); simpl; congruence. }
  set (w4 := w3 <| w_fs := fs4 |>). assert (files w4 = <[p := []]> (files w)) as F4 by (rewrite <- F3; exact Hfs4).
  apply wp_bind. eapply (wp_fs_write _ _ _ _ []); [exact Hap|by rewrite F4, lookup_insert_eq|].
  intros wr fh5 fs5 n Hn Hwr Hfs5 _ _. simpl fs_o_append in Hfs5. cbn iota in Hfs5.
  rewrite file_write_empty, F4, insert_insert_eq in Hfs5.
  apply wp_bind, wp_fs_close_ok; [done|]. intros fs6 Hfs6. set (w6 := _ <| w_fs := fs6 |>).
  assert (files w6 = <[p := take n (watermark_encode m)]> (files w)) as F6 by (etrans; [exact Hfs6|exact Hfs5]).
  assert (ts_step w w6) as S6.
  { etrans; [exact S3|]. do 2 (etrans; [apply ts_step_fs|]). apply ts_step_fs. }
  apply wp_bind, wp_unlock_files. intros w7 S7 F7.
  apply wp_watermark_event; [done|]. intros w8 S8 F8.
  assert (ts_step w w8) as S08 by (by do 2 (etrans; [eassumption|])).
  rewrite length_watermark in Hn.
  destruct (Z.ltb_spec wr 0) as [|Hge].
  { apply Hbad; [rewrite status_from_errno_ok; lia|done|]. intros p' q [= <-] Hq.
    by rewrite F8, F7, F6, lookup_insert_ne. }
  destruct (Z.eqb_spec wr sizeof_watermark_rec) as [->|].
  - apply (Hok _ p); [done|done|]. rewrite F8, F7, F6. f_equal. apply take_ge.
    rewrite length_watermark. destruct Hwr; lia.
  - apply Hbad; [done|done|]. intros p' q [= <-] Hq. by rewrite F8, F7, F6, lookup_insert_ne.
Qed.

(** The mark a file holds. *)
Definition mark_of (d : list byte) : option Z :=
  watermark_decode (length (take sizeof_watermark_rec d)) (take sizeof_watermark_rec d).

Lemma mark_of_encode m : (0 ≤ m < 2 ^ 64)%Z → mark_of (watermark_encode m) = Some m.
Proof.
  intros Hm. unfold mark_of. rewrite take_ge by (by rewrite length_watermark).
  rewrite length_watermark. by apply watermark_roundtrip.
Qed.

(** A mark is 20 bytes with the right magic, version and CRC. *)
Lemma mark_of_canonical d m :
  mark_of d = Some m → get_le 2 d 6 = 0%Z →
  take sizeof_watermark_rec d = watermark_encode m ∧ (0 ≤ m < 2 ^ 64)%Z.
Proof.
  unfold mark_of, watermark_decode. intros Hd Hres. set (raw := take sizeof_watermark_rec d) in *.
  assert (get_le 2 raw 6 = 0%Z) as Hres' by (unfold raw; rewrite get_le_take; [done|unfold sizeof_watermark_rec; lia]).
  destruct (Z.eqb_spec (length raw) sizeof_watermark_rec) as [Hl|]; [|done]. apply Nat2Z.inj in Hl.
  destruct (Z.eqb_spec (get_le 4 raw 0) ZDB_TS_WMK_MAGIC) as [Hm|]; [|done].
  destruct (Z.eqb_spec (get_le 2 raw 4) ZDB_TS_WMK_VERSION) as [Hv|]; [|done].
  destruct (Z.eqb_spec (get_le 4 raw 16) (crc32_ieee (take 16 raw))) as [Hc|]; [|done].
  injection Hd as <-. split; [|apply (get_le_bound 8 raw 8)].
  unfold watermark_encode. change sizeof_watermark_rec with 20 in Hl.
  rewrite <- Hm, <- Hv, <- Hres', !put_get_le by lia.
  rewrite !slice_join by done. simpl Nat.add. rewrite drop_0.
  rewrite <- Hc, put_get_le by lia. rewrite (take_ge (drop 16 raw)) by (rewrite length_drop; lia).
  symmetry. apply take_drop.
Qed.

Lemma mark_of_bound d m : mark_of d = Some m → (0 ≤ m < 2 ^ 64)%Z.
Proof.
  unfold mark_of, watermark_decode. repeat case_match; intros; simplify_eq. apply (get_le_bound 8).
Qed.

Lemma wp_watermark_get name (Q : zdb_status_t * option Z → W → Prop) w :
  (∀ st w', st ≠ ZDB_OK → ts_step w w' → files w' = files w → Q (st, None) w') →
  (∀ w' p d m, ts_step w w' → files w' = files w → wmk_path w name = inr p →
     files w !! p = Some d → mark_of d = Some m → Q (ZDB_OK, Some m) w') →
  wp (zdb_ts_watermark_get (handle name) true) Q w.
Proof.
  intros Hbad Hok. unfold zdb_ts_watermark_get, handle. cbn [ts_db ts_stream_name].
  apply wp_bind, wp_db_get. destruct (cfg (w_db w)) as [c|] eqn:Hc; [|by apply wp_ret, Hbad]. cbn [negb].
  assert (zdb_ts_build_watermark_path (Some c) (Some name) ZDB_TS_PATH_MAX = wmk_path w name) as ->
    by (unfold wmk_path; by rewrite Hc).
  destruct (wmk_path w name) as [rc|p] eqn:Hp.
  { apply wp_ret, Hbad; [|done..].
    apply wmk_path_neg in Hp. rewrite status_from_errno_ok. lia. }
  apply wp_bind, wp_ts_lock; cycle 1.
  { intros k' _. rewrite bool_decide_false by done. apply wp_ret, Hbad; [done|apply ts_step_k|done]. }
  intros k' _ _ _. rewrite bool_decide_true by done. cbn [negb]. set (w1 := w <| w_k := k' |>).
  assert (ts_step w w1) as S1 by apply ts_step_k.
  apply wp_bind, wp_fs_open.
  { intros rc fh fs2 Hrc Hfs2 _. rewrite (proj2 (Z.ltb_lt _ _)) by done.
    apply wp_bind, wp_unlock_files. intros w3 S3 F3.
    apply wp_ret, Hbad.
    - destruct (rc =? - ENOENT)%Z; [done|]. rewrite status_from_errno_ok. lia.
    - etrans; [exact S1|]. etrans; [apply ts_step_fs|done].
    - rewrite F3. exact Hfs2. }
  intros fh fs2 d Hap Hop Hfs2. change (0 <? 0)%Z with false. cbn iota.
  change (files w1) with (files w) in *.
  assert (files w !! p = Some d) as Hd.
  { revert Hop. destruct (files w !! p); simpl; congruence. }
  set (w2 := w1 <| w_fs := fs2 |>).
  assert (files w2 = files w) as F2 by (etrans; [exact Hfs2|by apply insert_id]).
  assert (∀ fs3 r, fs_files fs3 = files w →
    (∀ w5, ts_step w w5 → files w5 = files w → Q r w5) → ∀ fh3,
    wp (on_fs (fs_close fh3);; zdb_unlock_read the_db;; ret r) Q (w2 <| w_fs := fs3 |>)) as Htail.
  { intros fs3 r Hfs3 HQ fh3. apply wp_bind, wp_fs_close_ok; [done|]. intros fs4 Hfs4.
    apply wp_bind, wp_unlock_files. intros w5 S5 F5. apply wp_ret, HQ.
    - etrans; [exact S1|]. do 3 (etrans; [apply ts_step_fs|]). done.
    - rewrite F5. etrans; [exact Hfs4|exact Hfs3]. }
  apply wp_bind. eapply wp_fs_read; [exact Hap|by rewrite F2|..].
  - intros rc data fh3 fs3 Hrc Hfs3 _ _. rewrite (proj2 (Z.ltb_lt _ _)) by done.
    apply (Htail _ _); [by etrans|]. intros w5 S5 F5.
    apply Hbad; [rewrite status_from_errno_ok; lia|done..].
  - intros fh3 fs3 Hfs3 _. rewrite drop_0, (proj2 (Z.ltb_ge _ 0)) by lia.
    apply (Htail _ _); [by etrans|]. intros w5 S5 F5.
    fold (mark_of d). destruct (mark_of d) as [m|] eqn:Hm; [by eapply Hok|by apply Hbad].
Qed.

(** Where nothing fails, a mark that is there is read. *)
Lemma wp_watermark_get_live name p d m (Q : zdb_status_t * option Z → W → Prop) w :
  LockLive K → FsLive FS FH DH → is_Some (cfg (w_db w)) →
  wmk_path w name = inr p → files w !! p = Some d → mark_of d = Some m →
  (∀ w', ts_step w w' → files w' = files w → Q (ZDB_OK, Some m) w') →
  wp (zdb_ts_watermark_get (handle name) true) Q w.
Proof.
  intros Hlive HFS [c Hc] Hp Hd Hm HQ. unfold zdb_ts_watermark_get, handle. cbn [ts_db ts_stream_name].
  apply wp_bind, wp_db_get. rewrite Hc. cbn [negb].
  unfold wmk_path in Hp. rewrite Hc in Hp. rewrite Hp.
  apply wp_bind, (wp_ts_lock_live the_db); [done|]. intros k' _ _ _. rewrite bool_decide_true by done. cbn [negb].
  set (w1 := w <| w_k := k' |>). apply wp_bind.
  eapply (wp_live_open _ _ FS_READ d); [exact Hd|done|]. intros fh fs2 Hap Hf2.
  change (0 <? 0)%Z with false. cbn iota. apply wp_bind.
  eapply wp_live_read; [exact Hap|unfold files; simpl; by rewrite Hf2|]. intros fh3 fs3 Hf3 _.
  rewrite drop_0, (proj2 (Z.ltb_ge _ 0)) by lia. fold (mark_of d). rewrite Hm.
  apply wp_bind, wp_fs_close_ok; [apply _|]. intros fs4 Hf4.
  apply wp_bind, wp_unlock_files. intros w5 S5 F5. apply wp_ret, HQ.
  - etrans; [apply (ts_step_k w k')|]. do 3 (etrans; [apply ts_step_fs|]). exact S5.
  - rewrite F5. unfold files in *. simpl in *. by rewrite Hf4, Hf3, Hf2.
Qed.

Lemma wp_watermark_clear name (Q : zdb_status_t → W → Prop) w :
  (∀ st w', st ≠ ZDB_OK → ts_step w w' → files w' = files w → Q st w') →
  (∀ w' p, ts_step w w' → wmk_path w name = inr p → files w' = delete p (files w) → Q ZDB_OK w') →
  wp (zdb_ts_watermark_clear (handle name)) Q w.
Proof.
  intros Hbad Hok. unfold zdb_ts_watermark_clear, handle. cbn [ts_db ts_stream_name].
  apply wp_bind, wp_db_get. destruct (cfg (w_db w)) as [c|] eqn:Hc; [|by apply wp_ret, Hbad].
  assert (zdb_ts_build_watermark_path (Some c) (Some name) ZDB_TS_PATH_MAX = wmk_path w name) as ->
    by (unfold wmk_path; by rewrite Hc).
  destruct (wmk_path w name) as [rc|p] eqn:Hp.
  { apply wp_ret, Hbad; [|done..].
    apply wmk_path_neg in Hp. rewrite status_from_errno_ok. lia. }
  apply wp_bind, wp_ts_lock; cycle 1.
  { intros k' _. rewrite bool_decide_false by done. apply wp_ret, Hbad; [done|apply ts_step_k|done]. }
  intros k' _ _ _. rewrite bool_decide_true by done. cbn [negb]. set (w1 := w <| w_k := k' |>).
  assert (ts_step w w1) as S1 by apply ts_step_k.
  assert (∀ fs2 st, (∀ w', ts_step w w' → files w' = fs_files fs2 → Q st w') →
    wp (zdb_unlock_write the_db;; watermark_event {| ts_db := Some the_db; ts_stream_name := Some name |} 0 st)
      Q (w1 <| w_fs := fs2 |>)) as Htail.
  { intros fs2 st HQ. apply wp_bind, wp_unlock_files. intros w3 S3 F3.
    apply wp_watermark_event; [done|]. intros w4 S4 F4. apply HQ; [|by rewrite F4, F3].
    etrans; [exact S1|]. etrans; [apply ts_step_fs|]. by etrans. }
  apply wp_bind, wp_fs_unlink.
  - intros rc fs2 Hrc Hfs2 Hno. rewrite (proj2 (Z.ltb_lt _ _)) by done. cbn [andb].
    apply Htail. intros w' S' F'. rewrite Hfs2 in F'. destruct (Z.eqb_spec rc (- ENOENT)) as [->|]; cbn [negb].
    + apply (Hok _ p); [done|done|]. rewrite F'. symmetry. apply delete_id. by apply Hno.
    + apply Hbad; [rewrite status_from_errno_ok; lia|done..].
  - intros fs2 Hfs2. change (0 <? 0)%Z with false. cbn [andb]. apply Htail. intros w' S' F'.
    apply (Hok _ p); [done|done|]. by rewrite F'.
Qed.
End spec.
