(* ===== verification/TsCursorSpec.v ===== *)
(** * Walking the files of a stream

    A readable stream is one whose files have its header and hold records that
    decode. [walk_at c fs cctx rest] says that a cursor stands in a file of the
    stream with the entries [rest] (records with their samples) ahead of it in
    its direction; reading a record is then taking the head of [rest]. *)

From S2P Require Import Prelude Config Env Types FsEnv FsSpec Events CoreSpec Cursor TsFormat.
From S2P Require Import TsFormatSpec TsSpec TsStore TsSegment TsCursor TsFileSpec TsInv TsStream.

(** ** Entries: records with what they say *)

Section entries.
Context {Cfg : Config} {CRC : Crc32}.

Definition entry : Type := list byte * zdb_ts_sample_i64_t.

Definition entries (v base : Z) (d : list byte) : list entry :=
  omap (λ r, pair r <$> decode_pure v base r) (records (zdb_ts_rec_size_for v) d).

Definition file_entries (name : cstring) (d : list byte) : list entry :=
  match header_pure name d with
  | Some (v, base) => entries v base (drop (zdb_ts_hdr_size_for v) d)
  | None => []
  end.

Definition seg_entries (c : option zdb_cfg_t) (fs : gmap (list byte) (list byte)) (name : cstring)
    (n : Z) : list entry :=
  match fs !! stream_file c name n with Some d => file_entries name d | None => [] end.

Definition stored_entries (c : option zdb_cfg_t) (fs : gmap (list byte) (list byte))
    (name : cstring) (lo hi : Z) : list entry :=
  concat (map (seg_entries c fs name) (seqZ lo (hi - lo + 1))).

Definition buffered_entries (s : zdb_ts_stream_ctx) : list entry :=
  entries (zdb_ts_slot_version s) (zdb_ts_slot_base_ts s)
    (take (ingest_used s) (default [] (ingest_buf s))).

Definition stream_entries (c : option zdb_cfg_t) (fs : gmap (list byte) (list byte))
    (s : zdb_ts_stream_ctx) : list entry :=
  stored_entries c fs (st_name s) (oldest_seg s) (cur_seg s) ++ buffered_entries s.

Lemma entries_samples v base d : (entries v base d).*2 = samples v base d.
Proof.
  unfold entries, samples. induction (records _ d) as [|r rs IH]; [done|].
  cbn [omap list_omap]. destruct (decode_pure v base r); csimpl; by rewrite IH.
Qed.

Lemma seg_entries_samples c fs name n : (seg_entries c fs name n).*2 = seg_samples c fs name n.
Proof.
  unfold seg_entries, seg_samples, file_entries, file_samples.
  destruct (fs !! _); [|done]. destruct (header_pure name l) as [[v base]|]; [|done].
  apply entries_samples.
Qed.

Lemma stream_entries_samples c fs s : (stream_entries c fs s).*2 = stream_samples c fs s.
Proof.
  unfold stream_entries, stream_samples, stored_entries, stored, buffered_entries, buffered.
  rewrite fmap_app, entries_samples. f_equal.
  induction (seqZ _ _) as [|n l IH]; [done|]. simpl. by rewrite fmap_app, seg_entries_samples, IH.
Qed.

(** Where every record decodes, the entries are the records, in place. *)
Lemma entries_lookup v base d k r :
  Forall (λ r, is_Some (decode_pure v base r)) (records (zdb_ts_rec_size_for v) d) →
  records (zdb_ts_rec_size_for v) d !! k = Some r →
  ∃ x, decode_pure v base r = Some x ∧ entries v base d !! k = Some (r, x).
Proof.
  unfold entries. intros Hall. revert k. induction Hall as [|r' rs [x Hx] _ IH]; intros k; [done|].
  simpl. rewrite Hx. simpl. destruct k as [|k]; simpl; [|apply IH].
  intros [= <-]. by exists x.
Qed.

Lemma length_entries v base d :
  Forall (λ r, is_Some (decode_pure v base r)) (records (zdb_ts_rec_size_for v) d) →
  length (entries v base d) = length d / zdb_ts_rec_size_for v.
Proof.
  rewrite <- length_records. unfold entries. induction 1 as [|r rs [x Hx] _ IH]; [done|].
  simpl. rewrite Hx. simpl. f_equal. apply IH.
Qed.

Lemma records_lookup n d k :
  k < length d / n → records n d !! k = Some (take n (drop (k * n) d)).
Proof.
  intros Hk. unfold records. change (@map ?A ?B) with (@fmap list _ A B).
  rewrite list_lookup_fmap, lookup_seq_lt by done. done.
Qed.

(** Splitting the stored entries at a segment. *)
Lemma stored_entries_after c fs name n hi :
  (n ≤ hi)%Z →
  stored_entries c fs name n hi = seg_entries c fs name n ++ stored_entries c fs name (n + 1) hi.
Proof.
  intros Hn. unfold stored_entries. replace (hi - n + 1)%Z with (Z.succ (hi - n)) by lia.
  rewrite seqZ_cons by lia. replace (Z.pred (Z.succ (hi - n))) with (hi - (n + 1) + 1)%Z by lia.
  by replace (Z.succ n) with (n + 1)%Z by lia.
Qed.

Lemma stored_entries_before c fs name lo n :
  (lo ≤ n)%Z →
  stored_entries c fs name lo n = stored_entries c fs name lo (n - 1) ++ seg_entries c fs name n.
Proof.
  intros Hn. unfold stored_entries. replace (n - lo + 1)%Z with ((n - 1 - lo + 1) + 1)%Z by lia.
  rewrite seqZ_app, map_app, concat_app by lia. f_equal.
  replace (lo + (n - 1 - lo + 1))%Z with n by lia. simpl. by rewrite Z.add_0_l, app_nil_r.
Qed.

Lemma stored_entries_none c fs name lo hi : (hi < lo)%Z → stored_entries c fs name lo hi = [].
Proof. intros Hlt. unfold stored_entries. by rewrite seqZ_nil by lia. Qed.

(** ** Readable files *)

Record readable (name : cstring) (d : list byte) (v base : Z) : Prop := {
  rb_header : header_pure name d = Some (v, base);
  rb_aligned : aligned d v;
  rb_decodes : Forall (λ r, is_Some (decode_pure v base r))
    (records (zdb_ts_rec_size_for v) (drop (zdb_ts_hdr_size_for v) d));
  rb_fits : (Z.of_nat (length d) < 2 ^ (SIZE_WIDTH - 1))%Z;
}.

(** The number of records of a file. *)
Definition rec_count (d : list byte) (v : Z) : nat :=
  (length d - zdb_ts_hdr_size_for v) / zdb_ts_rec_size_for v.

(** The segments from [lo] to [hi] are readable wherever they exist, at paths
    that fit the buffer the cursor builds them in. *)
Record readable_segs (c : option zdb_cfg_t) (fs : gmap (list byte) (list byte)) (name : cstring)
    (lo hi : Z) : Prop := {
  rs_window : (0 ≤ lo ≤ hi)%Z ∧ (hi < 2 ^ 32)%Z;
  rs_single : ZDB_TS_SEGMENTED = false → hi = lo;
  rs_files n d : (lo ≤ n ≤ hi)%Z → fs !! stream_file c name n = Some d → ∃ v base, readable name d v base;
  rs_paths n : ZDB_TS_SEGMENTED = true → (lo ≤ n ≤ hi)%Z →
    zdb_ts_build_segment_path c (Some name) n ZDB_TS_PATH_MAX = inr (stream_file c name n);
}.

Lemma readable_layout name d v base :
  readable name d v base →
  version_ok v ∧ length d = zdb_ts_hdr_size_for v + rec_count d v * zdb_ts_rec_size_for v ∧
  length (file_entries name d) = rec_count d v.
Proof.
  intros [Hh [k Hk] Hdec _]. pose proof (header_pure_ok _ _ _ Hh) as (Hv & _ & Hl). cbn [fst] in *.
  pose proof (rec_size_for_pos v). split_and!; [done|unfold rec_count; rewrite Hk, Nat.div_mul; lia|].
  unfold file_entries. rewrite Hh, length_entries, length_drop by done. done.
Qed.

(** The [k]-th record of a readable file, where a read finds it. *)
Lemma readable_record name d v base k :
  readable name d v base → k < rec_count d v →
  let n := zdb_ts_rec_size_for v in
  let r := take n (drop (zdb_ts_hdr_size_for v + k * n) d) in
  length r = n ∧ ∃ x, decode_pure v base r = Some x ∧ file_entries name d !! k = Some (r, x).
Proof.
  intros Hr Hk n r. destruct (readable_layout _ _ _ _ Hr) as (_ & Hlen & _). fold n in Hlen.
  destruct Hr as [Hh _ Hdec _]. split.
  - unfold r. rewrite length_take, length_drop. nia.
  - unfold file_entries. rewrite Hh. apply entries_lookup; [done|].
    rewrite records_lookup by (rewrite length_drop; exact Hk). unfold r.
    by rewrite drop_drop.
Qed.
End entries.

Section walk.
Context {Cfg : Config} {CfgOk : ConfigOk Cfg} {K F FS FH DH : Type}.
Context `{!Kernel K, !KernelLaws K, !FileSys FS FH DH, !FileSysLaws FS FH DH}.
Context {CRC : Crc32} {CRCLaws : Crc32Laws} {Live : FsLive FS FH DH}.
Abbreviation W := (world K F FS).
Abbreviation walk := (zdb_ts_cursor_ctx FH).
Implicit Types (w : W) (cc : walk).

(** Nothing changed but the clock, the log and what the file system keeps
    about open files. *)
Record quiet w w' : Prop := {
  qu_calm : calm w w';
  qu_files : files w' = files w;
  qu_ctx : ts_ctx (w_db w') = ts_ctx (w_db w);
}.

#[global] Instance quiet_preorder : PreOrder quiet.
Proof.
  split; [by split|]. intros w1 w2 w3 [C1 F1 X1] [C2 F2 X2]. split; [by etrans|congruence..].
Qed.

Lemma quiet_fs w fs' : fs_files fs' = files w → quiet w (w <| w_fs := fs' |>).
Proof. intros Hf. split; [apply calm_fs|done|done]. Qed.

Lemma quiet_cfg w w' : quiet w w' → cfg (w_db w') = cfg (w_db w).
Proof. intros [C _ _]. by apply calm_cfg. Qed.

(** What moving through the files leaves of a walk. *)
Definition walk_key cc :=
  (cc_db cc, cc_stream_name cc, window cc, ram_offset cc, file_done cc, descending cc,
   seg_lo cc, seg_hi cc).
Definition moved cc cc' : Prop := walk_key cc' = walk_key cc.

#[global] Instance moved_preorder : PreOrder moved.
Proof. split; [done|]. intros c1 c2 c3 H1 H2. by etrans. Qed.

Lemma moved_descending cc cc' : moved cc cc' → descending cc' = descending cc.
Proof. intros [=]. done. Qed.

Lemma wp_learn_layout_live cc p name d v base (Q : zdb_status_t * walk → W → Prop) w :
  files w !! p = Some d → header_pure name d = Some (v, base) →
  (∀ w', quiet w w' →
     Q (ZDB_OK, cc <| hdr_size := zdb_ts_hdr_size_for v |> <| rec_size := zdb_ts_rec_size_for v |>
                   <| base_ts_ms := base |>) w') →
  wp (zdb_ts_cursor_learn_layout cc p) Q w.
Proof.
  intros Hd Hh HQ. unfold zdb_ts_cursor_learn_layout. cbv zeta.
  apply wp_bind. eapply wp_live_open; [exact Hd|done|]. intros fh fs1 Hap Hf1.
  change (0 <? 0)%Z with false. cbn iota. apply wp_bind.
  eapply wp_live_read; [exact Hap|unfold files in *; simpl; by rewrite Hf1|].
  intros fh2 fs2 Hf2 _. rewrite drop_0. apply wp_bind, wp_fs_close_ok; [apply live_close|].
  intros fs3 Hf3. apply wp_ret.
  match goal with |- Q _ ?w' => assert (quiet w w') as Hq end.
  { etrans; [by apply quiet_fs|]. etrans; [by apply quiet_fs|by apply quiet_fs]. }
  unfold header_pure in Hh. cbv zeta in Hh. set (raw := take ZDB_TS_HDR_MAX_SIZE d) in *.
  destruct (Nat.ltb_spec (length raw) sizeof_stream_header) as [|H16]; [done|].
  rewrite (proj2 (Z.ltb_ge _ _)) by lia.
  destruct (Z.eqb_spec (get_le 2 raw 4) ZDB_TS_STREAM_VERSION_V2) as [Hv|Hv]; cbn [negb].
  - destruct (Nat.ltb_spec (length raw) sizeof_stream_header_v2) as [|H24]; [done|].
    rewrite (proj2 (Z.ltb_ge _ _)) by lia. destruct (_ && _); [|done]. injection Hh as <- <-.
    exact (HQ _ Hq).
  - destruct (_ && _); [|done]. injection Hh as <- <-. exact (HQ _ Hq).
Qed.

(** ** Where a walk stands *)

Context (c : option zdb_cfg_t) (fs : gmap (list byte) (list byte)) (name : cstring) (lo hi : Z).

Definition sees w : Prop := cfg (w_db w) = c ∧ files w = fs.

Lemma sees_quiet w w' : sees w → quiet w w' → sees w'.
Proof. intros [Hc Hf] Hq. split; [by rewrite (quiet_cfg _ _ Hq)|by rewrite (qu_files _ _ Hq)]. Qed.

Record walk_in cc : Prop := {
  wi_db : cc_db cc = Some the_db;
  wi_name : cc_stream_name cc = Some name;
  wi_lo : seg_lo cc = lo;
  wi_hi : seg_hi cc = hi;
  wi_cur : (lo ≤ cc_cur_seg cc ≤ hi)%Z;
  wi_cache : length (cache cc) = sizeof_record_i64;
}.

Lemma walk_in_moved cc cc' :
  walk_in cc → moved cc cc' → (lo ≤ cc_cur_seg cc' ≤ hi)%Z → cache cc' = cache cc → walk_in cc'.
Proof. intros [????? Hca] [=] Hc Heq. split; congruence. Qed.

(** A walk stands before the [k]-th record of the file with contents [d], or
    behind it when it descends. *)
Record stands cc (d : list byte) (v base : Z) (k : nat) : Prop := {
  sd_in : walk_in cc;
  sd_open : file_open cc = true;
  sd_file : fs !! stream_file c name (cc_cur_seg cc) = Some d;
  sd_readable : readable name d v base;
  sd_hdr : hdr_size cc = zdb_ts_hdr_size_for v;
  sd_rec : rec_size cc = zdb_ts_rec_size_for v;
  sd_base : base_ts_ms cc = base;
  sd_k : k ≤ rec_count d v;
  sd_offset : file_offset cc = zdb_ts_hdr_size_for v + k * zdb_ts_rec_size_for v;
  sd_path : fh_path (cc_file cc) = stream_file c name (cc_cur_seg cc);
  sd_pos : descending cc = false → fh_pos (cc_file cc) = file_offset cc;
}.

(** The entries ahead in the file, and in the files after it. *)
Definition here (desc : bool) (d : list byte) (k : nat) : list entry :=
  if desc then rev (take k (file_entries name d)) else drop k (file_entries name d).

Definition ahead (desc : bool) (n : Z) : list entry :=
  if desc then rev (stored_entries c fs name lo (n - 1)) else stored_entries c fs name (n + 1) hi.

Definition walk_at cc (rest : list entry) : Prop :=
  ∃ d v base k, stands cc d v base k ∧
    rest = here (descending cc) d k ++ ahead (descending cc) (cc_cur_seg cc).

(** ** Positions *)

Lemma size_t_fits n : (Z.of_nat n < 2 ^ (SIZE_WIDTH - 1))%Z → size_t n = n.
Proof.
  intros Hn. apply size_t_nat. pose proof size_width_range. etrans; [exact Hn|].
  apply Z.pow_lt_mono_r; lia.
Qed.

Lemma last_record_end_aligned len hdr rec k :
  0 < rec → len = hdr + k * rec → (Z.of_nat len < 2 ^ (SIZE_WIDTH - 1))%Z →
  last_record_end len hdr rec = len.
Proof.
  intros Hr Hl Hf. unfold last_record_end.
  replace (Z.of_nat len - Z.of_nat hdr)%Z with (Z.of_nat (k * rec)) by lia.
  rewrite (size_t_fits (k * rec)) by lia. rewrite (Nat2Z.inj_mul k), Z.div_mul by lia.
  rewrite <- Nat2Z.inj_mul, <- Nat2Z.inj_add, <- Hl. by apply size_t_fits.
Qed.

(** Moving to a place in the file that is open. *)
Lemma wp_seek_offset cc (Q : zdb_status_t * walk → W → Prop) w :
  (Z.of_nat (file_offset cc) < 2 ^ (SIZE_WIDTH - 1))%Z →
  (∀ fh w', quiet w w' → fh_path fh = fh_path (cc_file cc) → fh_pos fh = file_offset cc →
     Q (ZDB_OK, cc <| cc_file := fh |>) w') →
  wp (cursor_seek_offset cc) Q w.
Proof.
  intros Hoff HQ. unfold cursor_seek_offset. apply wp_bind. rewrite off_t_small by done.
  eapply wp_live_seek; [by split|lia|]. intros fh fs' Hf [Hp _ Hpos]. apply wp_ret.
  change (0 <? 0)%Z with false. cbn iota. apply HQ; [by apply quiet_fs|done|]. by rewrite Hpos, Nat2Z.id.
Qed.

Lemma wp_seek_last cc p d (Q : zdb_status_t * walk → W → Prop) w :
  files w !! p = Some d → fh_path (cc_file cc) = p → (Z.of_nat (length d) < 2 ^ (SIZE_WIDTH - 1))%Z →
  (∀ fh w', quiet w w' → fh_path fh = p →
     Q (ZDB_OK, cc <| cc_file := fh |> <| file_size := length d |>) w') →
  wp (cursor_seek_last cc) Q w.
Proof.
  intros Hd Hp Hl HQ. unfold cursor_seek_last. apply wp_bind.
  eapply wp_live_seek_end; [by split|exact Hd|]. intros fh fs1 Hf1 Hap.
  change (0 <? 0)%Z with false. cbv zeta. cbn iota. apply wp_bind. cbn [cc_file].
  eapply wp_live_tell; [exact Hap|]. intros fs2 Hf2. apply wp_ret. rewrite size_t_fits by done.
  apply HQ; [|apply Hap]. etrans; by apply quiet_fs.
Qed.

(** ** Opening the file of a segment *)

Context (Hread : readable_segs c fs name lo hi).

(** Where a walk that has just entered a file stands. *)
Definition entered cc d : Prop :=
  ∃ v base, stands cc d v base (if descending cc then rec_count d v else 0) ∧
    (descending cc = true → file_size cc = length d).

Lemma entered_at cc d :
  entered cc d →
  walk_at cc ((if descending cc then rev (file_entries name d) else file_entries name d) ++
              ahead (descending cc) (cc_cur_seg cc)).
Proof.
  intros (v & base & Hs & _). eexists d, v, base, _. split; [done|]. f_equal. unfold here.
  pose proof (readable_layout _ _ _ _ (sd_readable _ _ _ _ _ Hs)) as (_ & _ & Hl).
  destruct (descending cc); [|done]. rewrite take_ge; [done|lia].
Qed.

Lemma wp_open_segment cc n (Q : zdb_status_t * walk → W → Prop) w :
  ZDB_TS_SEGMENTED = true → sees w → (lo ≤ n ≤ hi)%Z → walk_in cc →
  (∀ d cc' w', fs !! stream_file c name n = Some d → quiet w w' → moved cc cc' →
     cc_cur_seg cc' = n → entered cc' d → Q (ZDB_OK, cc') w') →
  (∀ st cc' w', fs !! stream_file c name n = None → st ≠ ZDB_OK → quiet w w' → moved cc cc' →
     walk_in cc' → file_open cc' = false → Q (st, cc') w') →
  wp (zdb_ts_cursor_open_segment cc n) Q w.
Proof.
  intros HS [Hc Hf] Hn Hin Hok Hbad. unfold zdb_ts_cursor_open_segment. apply wp_bind.
  set (cc1 := cc <| file_open := false |>).
  assert (wp (if file_open cc then on_fs (fs_close (cc_file cc));; ret (cc <| file_open := false |>)
              else ret cc) (λ cc' w', cc' = cc1 ∧ quiet w w') w) as Hclose.
  { destruct (file_open cc) eqn:Ho.
    - apply wp_bind, wp_fs_close_ok; [apply live_close|]. intros fs' Hfs'. apply wp_ret.
      split; [done|by apply quiet_fs].
    - apply wp_ret. split; [|done]. unfold cc1. destruct cc. cbn in Ho. by subst. }
  eapply wp_mono; [exact Hclose|]. intros ? w1 [-> Q1].
  apply wp_bind, wp_db_get. rewrite (quiet_cfg _ _ Q1), Hc.
  change (cc_stream_name cc1) with (cc_stream_name cc). rewrite (wi_name _ Hin).
  rewrite (rs_paths _ _ _ _ _ Hread n HS Hn). apply wp_bind.
  destruct (fs !! stream_file c name n) as [d|] eqn:Hd; cycle 1.
  { apply wp_fs_open.
    - intros rc fh fs' Hrc Hf' _. cbv zeta. rewrite (proj2 (Z.ltb_lt _ _)) by done. apply wp_ret, Hbad; [done| | | | |done].
      + destruct (rc =? _)%Z; [done|]. rewrite status_from_errno_ok. lia.
      + etrans; [exact Q1|by apply quiet_fs].
      + done.
      + destruct Hin. by split.
    - intros fh fs' d _ Hop _. rewrite (qu_files _ _ Q1), Hf, Hd in Hop. done. }
  destruct (rs_files _ _ _ _ _ Hread n d Hn Hd) as (v & base & Hr).
  assert (files w1 !! stream_file c name n = Some d) as Hd1 by (by rewrite (qu_files _ _ Q1), Hf).
  eapply wp_live_open; [exact Hd1|done|]. intros fh fs2 Hap Hf2. cbv zeta.
  change (0 <? 0)%Z with false. cbn iota. apply wp_bind.
  assert (quiet w (w1 <| w_fs := fs2 |>)) as Q2 by (etrans; [exact Q1|by apply quiet_fs]).
  eapply wp_learn_layout_live; [by rewrite (qu_files _ _ Q2), Hf|apply Hr|]. intros w3 Q3.
  rewrite bool_decide_true by done. cbn [negb]. apply wp_bind.
  change (descending (?x <| base_ts_ms := _ |>)) with (descending cc).
  destruct (readable_layout _ _ _ _ Hr) as (_ & Hlen & _). pose proof (rb_fits _ _ _ _ Hr) as Hfit.
  destruct (descending cc) eqn:Hdesc.
  - apply wp_bind. eapply wp_seek_last; [|apply Hap|done|].
    { by rewrite (qu_files _ _ Q3), (qu_files _ _ Q2), Hf. }
    intros fh4 w4 Q4 Hp4. apply wp_ret. rewrite bool_decide_true by done. cbn [negb].
    cbn [file_size hdr_size rec_size]. erewrite last_record_end_aligned; [|apply rec_size_for_pos|exact Hlen|done].
    apply wp_seek_offset; [done|]. intros fh5 w5 Q5 Hp5 Hpos5.
    eapply (Hok d); [done|by do 3 (etrans; [eassumption|])|done|done|].
    exists v, base. match goal with |- stands ?x _ _ _ _ ∧ _ => assert (descending x = true) as Hdx by exact Hdesc end.
    rewrite Hdx. split; [|reflexivity]. split; cbn; [|reflexivity|exact Hd|exact Hr|reflexivity..|apply le_n|exact Hlen| |].
    + destruct Hin. by split.
    + by rewrite Hp5.
    + intros Hno. congruence.
  - apply wp_ret. rewrite bool_decide_true by done. cbn [negb].
    apply wp_seek_offset; [change (Z.of_nat (zdb_ts_hdr_size_for v) < 2 ^ (SIZE_WIDTH - 1))%Z; lia|]. intros fh5 w5 Q5 Hp5 Hpos5.
    eapply (Hok d); [done|by do 2 (etrans; [eassumption|])|done|done|].
    exists v, base. match goal with |- stands ?x _ _ _ _ ∧ _ => assert (descending x = false) as Hdx by exact Hdesc end.
    rewrite Hdx. split; [|intros; congruence].
    split; cbn; [|reflexivity|exact Hd|exact Hr|reflexivity..|apply Nat.le_0_l|apply plus_n_O| |].
    + destruct Hin. by split.
    + rewrite Hp5. apply Hap.
    + intros _. exact Hpos5.
Qed.

(** ** On to the next segment *)

Definition toward (desc : bool) (es : list entry) : list entry := if desc then rev es else es.

(** The segment after [n] in the walk's direction, if there is one. *)
Definition next_of (desc : bool) (n : Z) : option Z :=
  if desc then (if (n =? lo)%Z then None else Some (n - 1)%Z)
  else (if (hi <=? n)%Z then None else Some (n + 1)%Z).

Lemma ahead_last desc n : (lo ≤ n ≤ hi)%Z → next_of desc n = None → ahead desc n = [].
Proof.
  unfold next_of, ahead. intros Hn. destruct desc; case_match; try done; intros _;
    rewrite stored_entries_none by lia; done.
Qed.

Lemma ahead_next desc n m :
  (lo ≤ n ≤ hi)%Z → next_of desc n = Some m →
  ahead desc n = toward desc (seg_entries c fs name m) ++ ahead desc m ∧ (lo ≤ m ≤ hi)%Z.
Proof.
  unfold next_of, ahead, toward. intros Hn. destruct desc.
  - destruct (Z.eqb_spec n lo); [done|]. intros [= <-]. split; [|lia].
    rewrite (stored_entries_before _ _ _ lo (n - 1)) by lia. by rewrite rev_app_distr.
  - destruct (Z.leb_spec hi n); [done|]. intros [= <-]. split; [|lia].
    by rewrite (stored_entries_after _ _ _ (n + 1) hi) by lia.
Qed.

(** How far a walk has to go, for the fuel of its loops. *)
Definition distance (desc : bool) (n : Z) : nat := Z.to_nat (if desc then n - lo else hi - n)%Z.

Lemma segments_left_distance cc :
  walk_in cc → segments_left cc = distance (descending cc) (cc_cur_seg cc).
Proof.
  intros [_ _ Hl Hh Hc _]. destruct Hread as [[Hw Hw32] _ _ _]. unfold segments_left, distance.
  rewrite Hl, Hh. destruct (descending cc); [|done]. unfold u32. by rewrite Z.mod_small by lia.
Qed.

Lemma distance_next desc n m :
  (lo ≤ n ≤ hi)%Z → next_of desc n = Some m → distance desc m < distance desc n.
Proof.
  unfold next_of, distance. intros Hn. destruct desc; case_match; try done; intros [= <-]; lia.
Qed.

Lemma wp_next_segment_loop fuel cc (Q : zdb_status_t * walk → W → Prop) w :
  ZDB_TS_SEGMENTED = true → sees w → walk_in cc →
  distance (descending cc) (cc_cur_seg cc) < fuel →
  (∀ d cc' w', quiet w w' → moved cc cc' → entered cc' d →
     distance (descending cc) (cc_cur_seg cc') < distance (descending cc) (cc_cur_seg cc) →
     ahead (descending cc) (cc_cur_seg cc) =
       toward (descending cc) (file_entries name d) ++ ahead (descending cc) (cc_cur_seg cc') →
     Q (ZDB_OK, cc') w') →
  (∀ cc' w', quiet w w' → moved cc cc' → ahead (descending cc) (cc_cur_seg cc) = [] →
     Q (ZDB_ERR_NOT_FOUND, cc') w') →
  wp (next_segment_loop fuel cc) Q w.
Proof.
  intros HS. revert cc w. induction fuel as [|fuel IH]; intros cc w Hw Hin Hfuel Hok Hend; [lia|].
  cbn [next_segment_loop]. pose proof Hin as [_ _ Hl Hh Hcur _].
  destruct Hread as [[Hlo Hhi] _ _ _].
  assert ((if descending cc then (cc_cur_seg cc =? seg_lo cc)%Z else (seg_hi cc <=? cc_cur_seg cc)%Z) =
    bool_decide (next_of (descending cc) (cc_cur_seg cc) = None)) as ->.
  { unfold next_of. rewrite Hl, Hh. by destruct (descending cc); case_match. }
  destruct (next_of (descending cc) (cc_cur_seg cc)) as [m|] eqn:Hnext; cycle 1.
  { rewrite bool_decide_true by done. apply wp_ret, Hend; [done..|]. by apply ahead_last. }
  rewrite bool_decide_false by done.
  destruct (ahead_next _ _ _ Hcur Hnext) as [Hah Hm].
  assert ((if descending cc then u32 (cc_cur_seg cc - 1) else u32 (cc_cur_seg cc + 1)) = m) as ->.
  { revert Hnext. unfold next_of, u32. destruct (descending cc); case_match; try done;
      intros [= <-]; rewrite Z.mod_small by lia; done. }
  pose proof (distance_next _ _ _ Hcur Hnext) as Hdist.
  unfold seg_entries in Hah. apply wp_bind, wp_open_segment; [done..| |].
  - intros d cc' w' Hd Hq Hmv Hm' Hent. rewrite bool_decide_true by done. apply wp_ret.
    rewrite Hd in Hah. by apply (Hok d); rewrite ?Hm'.
  - intros st cc' w' Hd Hst Hq Hmv Hin' _. rewrite bool_decide_false by done.
    rewrite Hd in Hah. set (cc2 := cc' <| cc_cur_seg := m |>).
    assert (moved cc cc2) as Hmv2 by done.
    assert (descending cc2 = descending cc) as Hdesc by (by apply moved_descending).
    assert (ahead (descending cc) (cc_cur_seg cc) = ahead (descending cc) m) as Hah'.
    { rewrite Hah. unfold toward. by destruct (descending cc). }
    apply IH; [by eapply sees_quiet| | |..]; rewrite ?Hdesc.
    + destruct Hin'. by split.
    + change (cc_cur_seg cc2) with m. lia.
    + intros d cc3 w3 Q3 M3 Hent. change (cc_cur_seg cc2) with m. intros Hd3 Ha3.
      apply (Hok d); [by etrans|by etrans|done|lia|by rewrite Hah'].
    + intros cc3 w3 Q3 M3 Ha3. apply Hend; [by etrans|by etrans|by rewrite Hah'].
Qed.

(** ** Reading the next record *)

Lemma here_next_asc d k e :
  file_entries name d !! k = Some e → here false d k = e :: here false d (S k).
Proof. intros He. unfold here. by apply drop_S. Qed.

Lemma here_next_desc d k e :
  file_entries name d !! k = Some e → here true d (S k) = e :: here true d k.
Proof. intros He. unfold here. erewrite take_S_r by done. by rewrite rev_app_distr. Qed.

Lemma here_end d v base k (desc : bool) :
  readable name d v base → k = (if desc then 0 else rec_count d v) → here desc d k = [].
Proof.
  intros Hr ->. destruct (readable_layout _ _ _ _ Hr) as (_ & _ & Hl). unfold here.
  destruct desc; [by rewrite take_0|]. apply drop_ge. lia.
Qed.

(** The record read into the cache is the one of the entry. *)
Lemma take_cache data buf : take (length data) (buf_write buf 0 data) = data.
Proof. unfold buf_write. by rewrite take_0, app_nil_l, take_app_length. Qed.

Definition decodes cc (r : list byte) (x : zdb_ts_sample_i64_t) : Prop :=
  decode_pure (if rec_size cc =? sizeof_record_v2 then ZDB_TS_STREAM_VERSION_V2
               else ZDB_TS_STREAM_VERSION) (base_ts_ms cc) r = Some x.

Lemma decodes_version cc v r x :
  version_ok v → rec_size cc = zdb_ts_rec_size_for v →
  decode_pure v (base_ts_ms cc) r = Some x → decodes cc r x.
Proof. intros [-> | ->] Hr; unfold decodes; by rewrite Hr. Qed.

Lemma wp_end_of_file again cc (Q : zdb_status_t * option (list byte) * walk → W → Prop) w :
  sees w → walk_in cc →
  (∀ cc' w', quiet w w' → moved cc cc' →
     distance (descending cc) (cc_cur_seg cc') < distance (descending cc) (cc_cur_seg cc) →
     walk_at cc' (ahead (descending cc) (cc_cur_seg cc)) → wp (again cc') Q w') →
  (∀ cc' w', quiet w w' → moved cc cc' → ahead (descending cc) (cc_cur_seg cc) = [] →
     Q (ZDB_ERR_NOT_FOUND, None, cc') w') →
  wp (end_of_file again cc) Q w.
Proof.
  intros Hw Hin Hagain Hend. unfold end_of_file. destruct ZDB_TS_SEGMENTED eqn:HS; cycle 1.
  { apply wp_ret, Hend; [done..|]. pose proof (wi_cur _ Hin). apply ahead_last; [done|].
    pose proof (rs_single _ _ _ _ _ Hread HS). unfold next_of.
    destruct (descending cc); case_match; try done; lia. }
  apply wp_bind. unfold zdb_ts_cursor_next_segment. rewrite segments_left_distance by done.
  apply wp_next_segment_loop; [done..|lia| |].
  - intros d cc' w' Hq Hmv Hent Hdist Hah. rewrite bool_decide_true by done.
    apply Hagain; [done..|]. rewrite Hah. pose proof (entered_at _ _ Hent) as Hat.
    by rewrite (moved_descending _ _ Hmv) in Hat.
  - intros cc' w' Hq Hmv Hah. rewrite bool_decide_false by done. by apply wp_ret, Hend.
Qed.

(** Reading at the position of the [k]-th record. *)
Lemma wp_read_here again cc d v base k (Q : zdb_status_t * option (list byte) * walk → W → Prop) w :
  sees w → walk_in cc → fs !! stream_file c name (cc_cur_seg cc) = Some d → readable name d v base →
  rec_size cc = zdb_ts_rec_size_for v → base_ts_ms cc = base →
  file_offset cc = zdb_ts_hdr_size_for v + k * zdb_ts_rec_size_for v →
  fh_path (cc_file cc) = stream_file c name (cc_cur_seg cc) → fh_pos (cc_file cc) = file_offset cc →
  k ≤ rec_count d v →
  (k = rec_count d v → ∀ fh w', quiet w w' → wp (end_of_file again (cc <| cc_file := fh |>)) Q w') →
  (∀ r x fh w', k < rec_count d v → quiet w w' → file_entries name d !! k = Some (r, x) →
     decodes cc r x → fh_path fh = fh_path (cc_file cc) →
     (descending cc = false → fh_pos fh = file_offset cc + rec_size cc) →
     Q (ZDB_OK, Some r, cc <| cc_file := fh |> <| cache := buf_write (cache cc) 0 r |>
        <| file_offset := if descending cc then file_offset cc else file_offset cc + rec_size cc |>) w') →
  wp (read_here again cc) Q w.
Proof.
  intros [Hc Hf] Hin Hd Hr Hrec Hbase Hoff Hpath Hpos Hk Hend Hok. unfold read_here.
  destruct (readable_layout _ _ _ _ Hr) as (Hver & Hlen & _). pose proof (rec_size_for_pos v) as Hrp.
  apply wp_bind. eapply (wp_live_read _ _ (fh_flags (cc_file cc)) (file_offset cc) d);
    [by split|by rewrite Hf|]. intros fh fs1 Hf1 [Hp1 _ Hpos1].
  assert (quiet w (w <| w_fs := fs1 |>)) as Q1 by (by apply quiet_fs).
  rewrite Hoff, Hrec in *.
  destruct (decide (k = rec_count d v)) as [->|Hne].
  { rewrite drop_ge, take_nil by lia. cbn [length]. change (Z.of_nat 0 =? 0)%Z with true. cbv zeta. cbn iota.
    assert (cc <| cc_file := fh |> <| cache := buf_write (cache cc) 0 [] |>
      = cc <| cc_file := fh |>) as -> by (by destruct cc). by apply Hend. }
  destruct (readable_record _ _ _ _ k Hr) as (Hl & x & Hx & He); [lia|].
  set (r := take (zdb_ts_rec_size_for v) _) in *. rewrite Hl in *. cbv zeta.
  destruct (Z.eqb_spec (zdb_ts_rec_size_for v) 0) as [|_]; [lia|].
  rewrite (proj2 (Z.ltb_ge _ _)) by lia.
  change (rec_size (cc <| cc_file := fh |> <| cache := _ |>)) with (rec_size cc).
  change (descending (cc <| cc_file := fh |> <| cache := _ |>)) with (descending cc).
  rewrite Hrec, Z.eqb_refl. cbn [negb].
  change (cache (?y <| cache := ?b |>)) with b.
  assert (take (zdb_ts_rec_size_for v) (buf_write (cache cc) 0 r) = r) as -> by (rewrite <- Hl; apply take_cache).
  assert (decodes cc r x) as Hdec by (apply (decodes_version _ v); congruence).
  pose proof (rb_fits _ _ _ _ Hr) as Hfit.
  destruct (descending cc) eqn:Hdesc.
  - apply wp_bind, wp_seek_offset; [change (Z.of_nat (file_offset cc) < 2 ^ (SIZE_WIDTH - 1))%Z; rewrite Hoff; nia|].
    intros fh2 w2 Q2 Hp2 _. apply wp_ret. rewrite bool_decide_true by done.
    eassert (_ = _) as Heq; [|rewrite Heq; eapply (Hok r x fh2); [lia|by etrans|done|done|etrans; [exact Hp2|cbn; congruence]|done]].
    f_equal. destruct cc. cbn in *. by rewrite Hoff.
  - apply wp_ret. eassert (_ = _) as Heq; [|rewrite Heq; eapply (Hok r x fh); [lia|done|done|done|congruence|]].
    { f_equal. destruct cc. cbn in *. by rewrite Hoff. }
    done.
Qed.

Lemma stands_at cc d v base k k' fh r :
  stands cc d v base k → k' ≤ rec_count d v → length r ≤ sizeof_record_i64 →
  fh_path fh = fh_path (cc_file cc) →
  (descending cc = false → fh_pos fh = zdb_ts_hdr_size_for v + k' * zdb_ts_rec_size_for v) →
  stands (cc <| cc_file := fh |> <| cache := buf_write (cache cc) 0 r |>
             <| file_offset := zdb_ts_hdr_size_for v + k' * zdb_ts_rec_size_for v |>) d v base k'.
Proof.
  intros [[????? Hl] Ho Hd Hr Hh Hrec Hb _ _ Hp _] Hk Hlr Hfh Hpos.
  split; [|exact Ho|exact Hd|exact Hr|exact Hh|exact Hrec|exact Hb|exact Hk|reflexivity| |exact Hpos].
  - split; try done. cbn. rewrite length_buf_write; [done|]. rewrite Hl. exact Hlr.
  - cbn. by rewrite Hfh.
Qed.

Lemma entry_length d v base k r x :
  readable name d v base → file_entries name d !! k = Some (r, x) → length r ≤ sizeof_record_i64.
Proof.
  intros Hr He. destruct (readable_layout _ _ _ _ Hr) as (Hver & _ & Hl).
  destruct (readable_record _ _ _ _ k Hr) as (Hlen & y & _ & He'); [rewrite <- Hl; by eapply lookup_lt_Some|].
  rewrite He in He'. injection He' as -> _. rewrite Hlen.
  destruct Hver as [-> | ->]; apply (bool_decide_unpack _); vm_compute; exact I.
Qed.

(** Reading a record takes the head of what is ahead. *)
Lemma wp_read_file_record fuel cc rest (Q : zdb_status_t * option (list byte) * walk → W → Prop) w :
  sees w → walk_at cc rest → distance (descending cc) (cc_cur_seg cc) < fuel →
  (∀ cc' w', quiet w w' → moved cc cc' → rest = [] → Q (ZDB_ERR_NOT_FOUND, None, cc') w') →
  (∀ r x rest' cc' w', quiet w w' → moved cc cc' → rest = (r, x) :: rest' → walk_at cc' rest' →
     decodes cc' r x → Q (ZDB_OK, Some r, cc') w') →
  wp (read_file_record fuel cc) Q w.
Proof.
  revert cc rest w. induction fuel as [|fuel IH]; intros cc rest w Hw Hat Hfuel Hend Hok; [lia|].
  destruct Hat as (d & v & base & k & Hs & ->).
  pose proof Hs as [Hin Ho Hd Hr Hh Hrec Hb Hk Hoff Hp Hpos].
  destruct (readable_layout _ _ _ _ Hr) as (Hver & Hlen & _). pose proof (rec_size_for_pos v) as Hrp.
  cbn [read_file_record]. rewrite Ho. cbn [negb].
  assert (∀ cc1 w1, quiet w w1 → moved cc cc1 → walk_in cc1 → cc_cur_seg cc1 = cc_cur_seg cc →
    here (descending cc) d k = [] →
    wp (end_of_file (read_file_record fuel) cc1) Q w1) as Heof.
  { intros cc1 w1 Q1 M1 Hin1 Hc1 Hhere. rewrite Hhere in *. cbn [app] in *.
    pose proof (moved_descending _ _ M1) as Hd1.
    apply wp_end_of_file; [by eapply sees_quiet|done| |]; rewrite ?Hd1, ?Hc1.
    - intros cc2 w2 Q2 M2 Hdist Hat2. pose proof (moved_descending _ _ M2) as Hd2.
      eapply IH; [by do 2 (eapply sees_quiet; [|eassumption])|exact Hat2|..].
      + rewrite Hd2, Hd1. lia.
      + intros cc3 w3 Q3 M3 Hnil. apply Hend; [by do 2 (etrans; [eassumption|])|by do 2 (etrans; [eassumption|])|done].
      + intros r x rest' cc3 w3 Q3 M3 Heq Hat3 Hdec.
        eapply Hok; [by do 2 (etrans; [eassumption|])|by do 2 (etrans; [eassumption|])|done..].
    - intros cc2 w2 Q2 M2 Hnil. apply Hend; [by etrans|by etrans|done]. }
  destruct (descending cc) eqn:Hdesc.
  - rewrite Hoff, Hh, Hrec. destruct k as [|k].
    { rewrite (proj2 (Nat.ltb_lt _ _)) by lia. by apply Heof. }
    rewrite (proj2 (Nat.ltb_ge _ _)) by nia. cbv zeta.
    set (cc1 := cc <| file_offset := _ |>).
    assert (file_offset cc1 = zdb_ts_hdr_size_for v + k * zdb_ts_rec_size_for v) as Hoff1 by (cbn; nia).
    pose proof (rb_fits _ _ _ _ Hr) as Hfit.
    apply wp_bind, wp_seek_offset; [rewrite Hoff1; nia|]. intros fh w1 Q1 Hp1 Hpos1.
    rewrite bool_decide_true by done. cbn [negb].
    eapply (wp_read_here _ _ d v base k); [by eapply sees_quiet|by destruct Hin|done..|by etrans|done|lia| |].
    { intros ->. lia. }
    intros r x fh2 w2 Hlt Q2 He Hdec Hp2 _. rewrite (here_next_desc _ _ _ He) in Hok.
    eapply Hok; [by etrans|done|done| |exact Hdec].
    exists d, v, base, k. split; [|by rewrite <- Hdesc].
    assert (length r ≤ sizeof_record_i64) as Hlr by (by eapply entry_length).
    pose proof (stands_at cc d v base (S k) k fh2 r Hs) as Hst. rewrite <- Hoff1 in Hst at 2.
    change (descending (cc1 <| cc_file := fh |>)) with (descending cc). rewrite Hdesc. apply Hst; [lia|done|by rewrite Hp2|congruence].
  - eapply (wp_read_here _ _ d v base k); [done..|by apply Hpos|done| |].
    { intros -> fh w1 Q1. apply Heof; [done|done|by destruct Hin|done|]. by eapply here_end. }
    intros r x fh2 w2 Hlt Q2 He Hdec Hp2 Hpos2. rewrite (here_next_asc _ _ _ He) in Hok.
    eapply Hok; [done|done|done| |exact Hdec].
    exists d, v, base, (S k). split; [|by rewrite <- Hdesc].
    assert (length r ≤ sizeof_record_i64) as Hlr by (by eapply entry_length).
    assert (zdb_ts_hdr_size_for v + S k * zdb_ts_rec_size_for v = file_offset cc + rec_size cc) as Hnext by lia.
    pose proof (stands_at cc d v base k (S k) fh2 r Hs) as Hst. rewrite Hnext in Hst.
    rewrite Hdesc. apply Hst; [lia|done..].
Qed.
End walk.
