(* ===== verification/TsWalkSpec.v ===== *)
(** * Walking a stream, files and buffer

    [seek f l] is what one step of a cursor does to the entries [l] ahead of
    it: the first that satisfies [f], and the entries behind it. The rules of
    this file show that [zdb_cursor_next] is that step on the entries of the
    stream, in either direction. *)

From S2P Require Import Prelude Config Env Types FsEnv FsSpec Events CoreSpec Cursor TsFormat.
From S2P Require Import TsFormatSpec TsSpec TsStore TsSegment TsCursor TsFileSpec TsInv TsStream.
From S2P Require Import TsFlushSpec TsAppendSpec TsCursorSpec.

(** ** One step on a list *)

Section seek.
Context {A : Type} (f : A → bool).

Fixpoint seek (l : list A) : option (A * list A) :=
  match l with
  | [] => None
  | e :: l => if f e then Some (e, l) else seek l
  end.

Lemma seek_app l1 l2 :
  seek (l1 ++ l2) =
  match seek l1 with Some (e, l) => Some (e, l ++ l2) | None => seek l2 end.
Proof. induction l1 as [|e l1 IH]; simpl; [done|]. by destruct (f e). Qed.

Lemma seek_filter l :
  List.filter f l = match seek l with Some (e, l') => e :: List.filter f l' | None => [] end.
Proof. induction l as [|e l IH]; simpl; [done|]. by destruct (f e). Qed.

Lemma seek_length l e l' : seek l = Some (e, l') → length l' < length l.
Proof.
  induction l as [|x l IH]; simpl; [done|]. destruct (f x); [intros [= <- <-]; lia|].
  intros H%IH. lia.
Qed.
End seek.

(** What a window and a predicate admit. *)
Definition admits (wi : zdb_ts_window_t) (p : option zdb_predicate_fn) (e : entry) : bool :=
  zdb_ts_window_match wi (ts_ms e.2) &&
  match p with None => true | Some p => p ZDB_MODEL_TS e.1 end.

Section walk.
Context {Cfg : Config} {CfgOk : ConfigOk Cfg} {K F FS FH DH : Type}.
Context `{!Kernel K, !KernelLaws K, !FileSys FS FH DH, !FileSysLaws FS FH DH}.
Context {CRC : Crc32} {CRCLaws : Crc32Laws} {Live : FsLive FS FH DH}.
Abbreviation W := (world K F FS).
Abbreviation walk := (zdb_ts_cursor_ctx FH).
Abbreviation cursor := (zdb_cursor_t FH).
Implicit Types (w : W) (cc : walk) (cu : cursor).

(** The counters and the current record of a cursor may differ, and its walk. *)
Definition kin cu cu' : Prop := cu_model cu' = cu_model cu ∧ cu_predicate cu' = cu_predicate cu.

#[global] Instance kin_preorder : PreOrder kin.
Proof. split; [done|]. intros ??? [] []. split; congruence. Qed.

Definition told cc (x : zdb_ts_sample_i64_t) : Prop := last_ts_ms cc = ts_ms x ∧ last_value cc = value x.

(** The kernel may have been given the processor; nothing else changes. *)
Lemma wp_consider_k cu cc r x (Q : bool * cursor * walk → W → Prop) w :
  (∀ k' cu', k_same (w_k w) k' → kin cu cu' → cu_backend cu' = cu_backend cu →
     let keep := admits (window cc) (cu_predicate cu) (r, x) in
     Q (keep, cu', if keep then cc <| last_ts_ms := ts_ms x |> <| last_value := value x |> else cc)
       (w <| w_k := k' |>)) →
  wp (consider cu cc r x) Q w.
Proof.
  intros HQ. unfold consider. cbv zeta in *. apply wp_bind.
  set (cu1 := cu <| iter_count ::= λ n, u32 (n + 1) |>).
  assert (∀ k', k_same (w_k w) k' →
    wp (if negb (zdb_ts_window_match (window cc) (ts_ms x)) then ret (false, cu1, cc)
        else if negb (zdb_ts_predicate_match cu1 r) then ret (false, cu1, cc)
        else ret (true, cu1 <| cu_current := Some r |>,
                  cc <| last_ts_ms := ts_ms x |> <| last_value := value x |>)) Q (w <| w_k := k' |>)) as Hdec.
  { intros k' Hk. unfold admits, zdb_ts_predicate_match in *. change (cu_predicate cu1) with (cu_predicate cu).
    cbn [fst snd] in *. destruct (zdb_ts_window_match _ _); cbn [negb andb] in *; cycle 1.
    { by apply wp_ret, HQ. }
    destruct (match cu_predicate cu with None => _ | _ => _ end); cbn [negb] in *; by apply wp_ret, HQ. }
  destruct (_ && _); [apply wp_on_k_, Hdec, k_yield_law|].
  destruct w as [db k f fs log]. by apply wp_ret, (Hdec k).
Qed.

Lemma wp_consider cu cc r x (Q : bool * cursor * walk → W → Prop) w :
  (∀ cu' w', quiet w w' → kin cu cu' → admits (window cc) (cu_predicate cu) (r, x) = false →
     Q (false, cu', cc) w') →
  (∀ cu' w', quiet w w' → kin cu cu' → admits (window cc) (cu_predicate cu) (r, x) = true →
     Q (true, cu', cc <| last_ts_ms := ts_ms x |> <| last_value := value x |>) w') →
  wp (consider cu cc r x) Q w.
Proof.
  intros Hno Hyes. apply wp_consider_k. intros k' cu' Hk Hkin _. cbv zeta.
  assert (quiet w (w <| w_k := k' |>)) as Hq by (split; [split; [apply ts_step_k|done]|done|done]).
  destruct (admits _ _ _) eqn:Ha; [by apply Hyes|by apply Hno].
Qed.

Context (c : option zdb_cfg_t) (fs : gmap (list byte) (list byte)) (name : cstring) (lo hi : Z).
Context (Hread : readable_segs c fs name lo hi).
Abbreviation sees := (sees c fs).
Abbreviation walk_at := (walk_at c fs name lo hi).
Abbreviation entered := (entered c fs name lo hi).

(** A walk does not depend on what it has reported. *)
Lemma walk_at_cong cc cc' rest :
  walk_at cc rest →
  cc' = cc <| ram_offset := ram_offset cc' |> <| file_done := file_done cc' |>
           <| last_ts_ms := last_ts_ms cc' |> <| last_value := last_value cc' |> →
  walk_at cc' rest.
Proof.
  intros (d & v & base & k & [Hin Ho Hf Hr Hh Hrc Hb Hk Hoff Hp Hpos] & ->) Heq.
  exists d, v, base, k. rewrite Heq. split; [|done].
  split; [by destruct Hin|exact Ho|exact Hf|exact Hr|exact Hh|exact Hrc|exact Hb|exact Hk|exact Hoff|exact Hp|exact Hpos].
Qed.

(** ** The loop over the files *)

Lemma wp_file_loop fuel cu cc rest (Q : option (zdb_status_t * option (list byte) * cursor) → W → Prop) w :
  sees w → walk_at cc rest → file_done cc = false → length rest < fuel →
  (∀ cu' cc' w', seek (admits (window cc) (cu_predicate cu)) rest = None → quiet w w' → kin cu cu' →
     moved cc cc' → Q (Some (ZDB_ERR_NOT_FOUND, None, with_walk cu' (cc' <| file_done := true |>))) w') →
  (∀ e rest' cu' cc' w', seek (admits (window cc) (cu_predicate cu)) rest = Some (e, rest') →
     quiet w w' → kin cu cu' → moved cc cc' → walk_at cc' rest' → told cc' e.2 →
     Q (Some (ZDB_OK, Some e.1, with_walk cu' cc')) w') →
  wp (file_loop fuel cu cc) Q w.
Proof.
  revert cu cc rest w. induction fuel as [|fuel IH]; intros cu cc rest w Hw Hat Hdone Hfuel Hend Hok; [lia|].
  cbn [file_loop]. rewrite Hdone. apply wp_bind. unfold zdb_ts_cursor_read_file_record.
  pose proof Hat as (d & v & base & k & [Hin _ _ _ _ _ _ _ _ _ _] & _).
  rewrite (wi_db _ _ _ _ Hin). rewrite (segments_left_distance _ _ _ _ _ Hread) by done.
  apply wp_bind. eapply wp_read_file_record; [done..|lia| |].
  { intros cc' w' Hq Hmv ->. apply wp_ret. cbn [default]. by apply wp_ret, Hend. }
  intros r x rest' cc' w' Hq Hmv -> Hat' Hdec. apply wp_ret. cbn [default from_option id].
  pose proof Hat' as (d' & v' & base' & k' & [Hin' _ _ _ _ _ _ _ _ _ _] & _).
  rewrite (wi_db _ _ _ _ Hin'). apply wp_bind, wp_decode_as; cycle 1.
  { intros st w1 Hnone. unfold decodes in Hdec. congruence. }
  intros y Hy. unfold decodes in Hdec. rewrite Hdec in Hy. injection Hy as <-.
  cbn [seek length] in *.
  assert (window cc' = window cc) as Hwin by (by injection Hmv).
  apply wp_bind, wp_consider; rewrite Hwin; intros cu' w1 Q1 K1 Ha; rewrite Ha in *.
  - assert (file_done cc' = false) as Hdone' by (injection Hmv; congruence).
    pose proof K1 as [_ Hpred].
    eapply IH; [by do 2 (eapply sees_quiet; [|eassumption])|exact Hat'|done|lia|..]; rewrite ?Hwin, ?Hpred.
    + intros cu2 cc2 w2 Hs Q2 K2 M2.
      apply Hend; [done|by do 2 (etrans; [eassumption|])|by etrans|by etrans].
    + intros e rest2 cu2 cc2 w2 Hs Q2 K2 M2 Hat2 Ht.
      eapply Hok; [done|by do 2 (etrans; [eassumption|])|by etrans|by etrans|done|done].
  - apply wp_ret. eapply (Hok (r, x)); [done|by etrans|done|exact Hmv| |done].
    by eapply walk_at_cong.
Qed.

(** ** The ingest buffer *)

(** A buffer of whole records that decode. *)
Record buffer_ok (s : zdb_ts_stream_ctx) : Prop := {
  bo_version : version_ok (zdb_ts_slot_version s);
  bo_rec_size : zdb_ts_slot_rec_size s = zdb_ts_rec_size_for (zdb_ts_slot_version s);
  bo_buf : ∃ b, ingest_buf s = Some b ∧ ingest_used s ≤ length b;
  bo_whole : (zdb_ts_rec_size_for (zdb_ts_slot_version s) | ingest_used s);
  bo_decodes : Forall (λ r, is_Some (decode_pure (zdb_ts_slot_version s) (zdb_ts_slot_base_ts s) r))
    (records (zdb_ts_rec_size_for (zdb_ts_slot_version s))
       (take (ingest_used s) (default [] (ingest_buf s))));
}.

Definition buf_count (s : zdb_ts_stream_ctx) : nat := ingest_used s / zdb_ts_slot_rec_size s.

Lemma buffer_layout s :
  buffer_ok s → 0 < zdb_ts_slot_rec_size s ∧ ingest_used s = buf_count s * zdb_ts_slot_rec_size s ∧
  length (buffered_entries s) = buf_count s.
Proof.
  intros [_ Hrs (b & Hb & Hl) [k Hk] Hdec]. unfold buf_count. rewrite Hrs.
  pose proof (rec_size_for_pos (zdb_ts_slot_version s)). split_and!; [done| |].
  - rewrite Hk, Nat.div_mul; lia.
  - unfold buffered_entries. rewrite length_entries by done. rewrite Hb. cbn [default from_option id].
    by rewrite length_take, Nat.min_l by lia.
Qed.

Lemma buffer_record s k :
  buffer_ok s → k < buf_count s →
  let r := take (zdb_ts_slot_rec_size s)
             (drop (k * zdb_ts_slot_rec_size s) (default [] (ingest_buf s))) in
  ∃ x, decode_pure (zdb_ts_slot_version s) (zdb_ts_slot_base_ts s) r = Some x ∧
       buffered_entries s !! k = Some (r, x).
Proof.
  intros Hb Hk. cbv zeta. destruct (buffer_layout s Hb) as (Hp & Hu & _).
  destruct Hb as [_ Hrs (b & Hb & Hl) _ Hdec]. unfold buf_count in *.
  unfold buffered_entries. apply entries_lookup; [done|]. rewrite <- Hrs, Hb in *.
  cbn [default from_option id] in *. rewrite records_lookup; cycle 1.
  { by rewrite length_take, Nat.min_l by lia. }
  f_equal. rewrite skipn_firstn_comm, take_take, Nat.min_l; [done|nia].
Qed.

(** What is ahead of a walk in the buffer. *)
Definition ram_ahead (desc : bool) (s : zdb_ts_stream_ctx) (k : nat) : list entry :=
  if desc then rev (take (buf_count s - k) (buffered_entries s)) else drop k (buffered_entries s).

Definition ram_at cc (s : zdb_ts_stream_ctx) (rest : list entry) : Prop :=
  ∃ k, k ≤ buf_count s ∧ ram_offset cc = k * zdb_ts_slot_rec_size s ∧
       rest = ram_ahead (descending cc) s k.

(** The lock was released: what was pending has been published. *)
Record unlocked w w' : Prop := {
  un_step : ts_step w w';
  un_files : files w' = files w;
  un_ctx : ts_ctx (w_db w') = settle (ts_ctx (w_db w));
}.

Lemma unlocked_quiet w w1 w' : quiet w w1 → unlocked w1 w' → unlocked w w'.
Proof. intros [[C _] Fq X] [S1 F1 X1]. split; [by etrans|congruence|by rewrite X1, X]. Qed.

Lemma wp_unlock_read (Q : unit → W → Prop) w :
  (∀ w', unlocked w w' → Q tt w') → wp (zdb_unlock_read the_db) Q w.
Proof.
  intros HQ. apply wp_ts_unlock. intros w' Hst Hf Hctx _ _ _. apply HQ.
  split; [done|unfold files; by rewrite Hf|done].
Qed.

(** The buffer loop touches nothing but the offset and what is reported. *)
Definition ram_moved cc cc' : Prop :=
  cc' = cc <| ram_offset := ram_offset cc' |> <| last_ts_ms := last_ts_ms cc' |>
           <| last_value := last_value cc' |>.

#[global] Instance ram_moved_preorder : PreOrder ram_moved.
Proof.
  split; [by intros []|]. unfold ram_moved. intros c1 c2 c3 H1 H2. rewrite H2, H1. by destruct c1.
Qed.

Lemma ram_ahead_next desc s k r x :
  k < buf_count s →
  buffered_entries s !! (if desc : bool then buf_count s - S k else k) = Some (r, x) →
  ram_ahead desc s k = (r, x) :: ram_ahead desc s (S k).
Proof.
  intros Hk He. unfold ram_ahead. destruct desc; [|by apply drop_S].
  replace (buf_count s - k) with (S (buf_count s - S k)) by lia.
  erewrite take_S_r by done. by rewrite rev_app_distr.
Qed.

Lemma ram_ahead_end desc s k : buffer_ok s → k = buf_count s → ram_ahead desc s k = [].
Proof.
  intros (_ & _ & Hl)%buffer_layout ->. unfold ram_ahead.
  destruct desc; [by rewrite Nat.sub_diag|]. apply drop_ge. lia.
Qed.

Lemma wp_ram_loop fuel i s cu cc rest (Q : zdb_status_t * option (list byte) * cursor → W → Prop) w :
  slot_is w i s → buffer_ok s → cc_db cc = Some the_db → ram_at cc s rest → length rest < fuel →
  (∀ cu' cc' w', seek (admits (window cc) (cu_predicate cu)) rest = None → unlocked w w' →
     kin cu cu' → ram_moved cc cc' → ram_at cc' s [] → Q (ZDB_ERR_NOT_FOUND, None, with_walk cu' cc') w') →
  (∀ e rest' cu' cc' w', seek (admits (window cc) (cu_predicate cu)) rest = Some (e, rest') →
     unlocked w w' → kin cu cu' → ram_moved cc cc' → ram_at cc' s rest' → told cc' e.2 →
     Q (ZDB_OK, Some e.1, with_walk cu' cc') w') →
  wp (ram_loop fuel i cu cc) Q w.
Proof.
  revert cu cc rest w. induction fuel as [|fuel IH]; intros cu cc rest w Hs Hb Hdb Hat Hfuel Hend Hok; [lia|].
  destruct (buffer_layout s Hb) as (Hrp & Hused & _). destruct Hat as (k & Hk & Hoff & ->).
  cbn [ram_loop]. apply wp_bind, (wp_slot_get _ s); [done|]. rewrite Hoff.
  destruct (Nat.ltb_spec (ingest_used s) (k * zdb_ts_slot_rec_size s + zdb_ts_slot_rec_size s)) as [Hlt|Hge].
  { assert (k = buf_count s) as Hkc by nia. rewrite (ram_ahead_end _ _ _ Hb Hkc) in *.
    apply wp_bind, wp_unlock_read. intros w' Hu. apply wp_ret, Hend; [done..|].
    exists k. split_and!; [done|done|]. by rewrite (ram_ahead_end _ _ _ Hb Hkc). }
  assert (k < buf_count s) as Hlt by nia.
  set (j := if descending cc then buf_count s - S k else k).
  assert ((if descending cc then ingest_used s - k * zdb_ts_slot_rec_size s - zdb_ts_slot_rec_size s
           else k * zdb_ts_slot_rec_size s) = j * zdb_ts_slot_rec_size s) as ->.
  { unfold j. destruct (descending cc); [|done]. rewrite Hused. nia. }
  destruct (buffer_record s j Hb) as (x & Hx & He); [unfold j; destruct (descending cc); lia|].
  rewrite (ram_ahead_next _ _ _ _ _ Hlt He) in *. set (r := take _ (drop _ _)) in *.
  set (cc1 := cc <| ram_offset := k * zdb_ts_slot_rec_size s + zdb_ts_slot_rec_size s |>).
  assert (ram_at cc1 s (ram_ahead (descending cc) s (S k))) as Hat1 by (exists (S k); split_and!; [lia|cbn; lia|done]).
  cbv zeta. rewrite Hdb. apply wp_bind, wp_decode_as; [|intros; congruence].
  intros y Hy. rewrite Hx in Hy. injection Hy as <-. cbn [seek length] in *.
  apply wp_bind, wp_consider; change (window cc1) with (window cc); intros cu' w1 Q1 K1 Ha; rewrite Ha in *.
  - pose proof K1 as [_ Hpred].
    eapply IH; [unfold slot_is, ctx_streams; by rewrite (qu_ctx _ _ Q1)|done|done|exact Hat1|lia|..];
      change (window cc1) with (window cc); rewrite ?Hpred.
    + intros cu2 cc2 w2 Hsk Hu K2 M2.
      apply Hend; [done|by eapply unlocked_quiet|by etrans|by etrans].
    + intros e rest2 cu2 cc2 w2 Hsk Hu K2 M2.
      apply (Hok e rest2); [done|by eapply unlocked_quiet|by etrans|by etrans].
  - apply wp_bind, wp_unlock_read. intros w2 Hu. apply wp_ret.
    apply (Hok (r, x) (ram_ahead (descending cc) s (S k)));
      [done|by eapply unlocked_quiet|done|done|exact Hat1|done].
Qed.

(** ** A world in which the stream can be walked *)

Lemma slot_index_deferred P l d j :
  (∀ s a b, P (s <| pending_flush_bytes := a |> <| pending_discarded_bytes := b |>) = P s) →
  slot_index P (take_deferred_slots l d).1 j = slot_index P l j.
Proof.
  intros HP. revert d j. induction l as [|s l IH]; intros d j; cbn [take_deferred_slots]; [done|].
  destruct (_ && _); cbn [fst slot_index]; [|rewrite HP]; destruct (P s); auto.
Qed.

Lemma slot_find_settle x n : zdb_ts_slot_find (settle x) n = zdb_ts_slot_find x n.
Proof.
  unfold settle. destruct (_ && _); [|done]. destruct x as [x|]; [|done]. cbn.
  set (d := {| df_flushed := 0; df_discarded := 0; df_naming := 0; df_stream := None |}).
  assert (∀ P, (∀ s a b, P (s <| pending_flush_bytes := a |> <| pending_discarded_bytes := b |>) = P s) →
    slot_index P (take_deferred_slots (streams x) d).1 0 = slot_index P (streams x) 0) as Hidx.
  { intros P HP. by apply slot_index_deferred. }
  destruct n as [n|]; [|by destruct (take_deferred_slots _ _), (_ || _)].
  unfold zdb_ts_slot_find.
  destruct (take_deferred_slots _ _) as [slots d'], (_ || _); cbn in *; by apply Hidx.
Qed.

Context (i : nat) (s : zdb_ts_stream_ctx) (Hbuf : buffer_ok s).

Record serving w : Prop := {
  sv_ready : ready w;
  sv_sees : sees w;
  sv_find : zdb_ts_slot_find (ts_ctx (w_db w)) (Some name) = Some i;
  sv_slot : ∃ s', slot_is w i s' ∧ slot_sim s s';
}.

Lemma serving_quiet w w' : serving w → quiet w w' → serving w'.
Proof.
  intros [Hr Hv Hf (s' & Hs & Hsim)] Hq. split.
  - eapply ready_step; [apply Hq|done].
  - by eapply sees_quiet.
  - by rewrite (qu_ctx _ _ Hq).
  - exists s'. split; [|done]. unfold slot_is, ctx_streams in *. by rewrite (qu_ctx _ _ Hq).
Qed.

Lemma serving_k w k' : serving w → serving (w <| w_k := k' |>).
Proof. intros [[? ?] [? ?] ? ?]. by split. Qed.

Lemma serving_unlocked w w' : serving w → unlocked w w' → serving w'.
Proof.
  intros [Hr [Hc Hfs] Hf (s' & Hs & Hsim)] [Hst F1 X1]. split.
  - by eapply ready_step.
  - split; [by rewrite (ts_step_cfg _ _ Hst)|congruence].
  - by rewrite X1, slot_find_settle.
  - apply slot_is_ctx in Hs as (x & Hx & Hs). rewrite Hx in X1.
    destruct (settle_lookup x i s' Hs) as (x' & a & b & Hset & Hl). eexists. split.
    + unfold slot_is, ctx_streams. rewrite X1, Hset. exact Hl.
    + eapply slot_sim_trans; [done|]. by exists a, b.
Qed.

Lemma buffer_ok_sim s' : slot_sim s s' → buffer_ok s'.
Proof. intros (a & b & ->). by destruct Hbuf. Qed.

Lemma ram_at_sim cc s' rest : slot_sim s s' → ram_at cc s' rest ↔ ram_at cc s rest.
Proof. by intros (a & b & ->). Qed.

Lemma ram_at_length cc rest : ram_at cc s rest → length rest ≤ ingest_used s.
Proof.
  destruct (buffer_layout s Hbuf) as (Hp & Hu & Hl). intros (k & Hk & _ & ->). unfold ram_ahead.
  destruct (descending cc); rewrite ?length_rev, ?length_take, ?length_drop; nia.
Qed.

Lemma wp_next_ram cu cc rest (Q : zdb_status_t * option (list byte) * cursor → W → Prop) w :
  LockLive K → serving w → cc_db cc = Some the_db → cc_stream_name cc = Some name → ram_at cc s rest →
  (∀ cu' cc' w', seek (admits (window cc) (cu_predicate cu)) rest = None → serving w' →
     kin cu cu' → ram_moved cc cc' → ram_at cc' s [] → Q (ZDB_ERR_NOT_FOUND, None, with_walk cu' cc') w') →
  (∀ e rest' cu' cc' w', seek (admits (window cc) (cu_predicate cu)) rest = Some (e, rest') →
     serving w' → kin cu cu' → ram_moved cc cc' → ram_at cc' s rest' → told cc' e.2 →
     Q (ZDB_OK, Some e.1, with_walk cu' cc') w') →
  wp (zdb_ts_cursor_next_ram cu cc) Q w.
Proof.
  intros Hlive Hsv Hdb Hname Hat Hend Hok. pose proof Hsv as [[Hrs Hrc] Hv Hf (s' & Hs & Hsim)].
  unfold zdb_ts_cursor_next_ram. rewrite Hdb, Hname.
  apply wp_bind, wp_ctx_ready; [done|done|by eapply slot_is_some|]. cbn [negb].
  apply wp_bind, wp_db_get. rewrite Hf. apply wp_bind, (wp_slot_get _ s'); [done|].
  destruct (bo_buf _ (buffer_ok_sim _ Hsim)) as (b & -> & _).
  apply wp_bind, wp_ts_lock_live; [done|]. intros k' _ _ _. rewrite bool_decide_true by done. cbn [negb].
  apply wp_bind, wp_db_get.
  change (ctx_streams (w_db (w <| w_k := k' |>))) with (ctx_streams (w_db w)).
  assert (ctx_streams (w_db w) !! i = Some s') as -> by exact Hs. cbn [default from_option id].
  pose proof (ram_at_length _ _ Hat) as Hlen.
  assert (ingest_used s' = ingest_used s) as Hus by (by destruct Hsim as (? & ? & ->)).
  apply (wp_ram_loop _ _ s' _ _ rest); [exact Hs|by apply buffer_ok_sim|done|by apply ram_at_sim|lia|..].
  - intros cu' cc' w' Hsk Hu K1 M1 Hat'. apply Hend; [done| |done|done|by apply (ram_at_sim cc' s')].
    eapply serving_unlocked; [|exact Hu]. by apply serving_k.
  - intros e rest' cu' cc' w' Hsk Hu K1 M1 Hat' Ht.
    apply (Hok e rest'); [done| |done|done|by apply (ram_at_sim cc' s')|done].
    eapply serving_unlocked; [|exact Hu]. by apply serving_k.
Qed.

(** ** One step of a cursor *)

Definition file_ahead cc (rest : list entry) : Prop :=
  if file_done cc then rest = [] else walk_at cc rest.

(** What no step changes of a walk. *)
Definition same_walk cc cc' : Prop :=
  (cc_db cc', cc_stream_name cc', window cc', descending cc') =
  (cc_db cc, cc_stream_name cc, window cc, descending cc).

Lemma moved_same_walk cc cc' : moved cc cc' → same_walk cc cc' ∧ ram_offset cc' = ram_offset cc.
Proof. unfold same_walk. intros [=]. split; congruence. Qed.

Lemma ram_moved_same_walk cc cc' : ram_moved cc cc' → same_walk cc cc'.
Proof. by intros ->. Qed.

Lemma file_ahead_ram cc cc' rest : ram_moved cc cc' → file_ahead cc rest → file_ahead cc' rest.
Proof.
  intros Hm. unfold file_ahead. assert (file_done cc' = file_done cc) as -> by (by rewrite Hm).
  destruct (file_done cc) eqn:Hd; [done|]. intros Hat. eapply walk_at_cong; [exact Hat|].
  rewrite Hm. cbn. destruct cc. cbn in *. by rewrite Hd.
Qed.

Lemma ram_at_offset cc cc' rest :
  same_walk cc cc' → ram_offset cc' = ram_offset cc → ram_at cc s rest → ram_at cc' s rest.
Proof. intros [=] Ho (k & Hk & Hoff & ->). exists k. split_and!; [done|congruence|by f_equal]. Qed.

Lemma wp_files fuel cu cc rest (Q : option (zdb_status_t * option (list byte) * cursor) → W → Prop) w :
  sees w → file_ahead cc rest → length rest < fuel →
  (∀ cu' cc' w', seek (admits (window cc) (cu_predicate cu)) rest = None → quiet w w' → kin cu cu' →
     same_walk cc cc' → ram_offset cc' = ram_offset cc → file_done cc' = true →
     Q (Some (ZDB_ERR_NOT_FOUND, None, with_walk cu' cc')) w') →
  (∀ e rest' cu' cc' w', seek (admits (window cc) (cu_predicate cu)) rest = Some (e, rest') →
     quiet w w' → kin cu cu' → same_walk cc cc' → ram_offset cc' = ram_offset cc →
     file_ahead cc' rest' → told cc' e.2 → Q (Some (ZDB_OK, Some e.1, with_walk cu' cc')) w') →
  wp (file_loop fuel cu cc) Q w.
Proof.
  intros Hv Hat Hfuel Hend Hok. unfold file_ahead in Hat. destruct (file_done cc) eqn:Hd.
  - subst rest. destruct fuel; [simpl in Hfuel; lia|]. cbn [file_loop]. rewrite Hd. by apply wp_ret, Hend.
  - eapply wp_file_loop; [done..| |].
    + intros cu' cc' w' Hs Hq Hk [Hm Ho]%moved_same_walk. by apply Hend.
    + intros e rest' cu' cc' w' Hs Hq Hk Hm Hat' Ht. pose proof (moved_same_walk _ _ Hm) as [Hm' Ho].
      apply (Hok e rest'); [done..| |done]. unfold file_ahead.
      assert (file_done cc' = false) as -> by (injection Hm; congruence). done.
Qed.

(** A cursor with the entries [rest] ahead of it. *)
Definition walking (wi : zdb_ts_window_t) (p : option zdb_predicate_fn) (desc : bool)
    cu (rest : list entry) : Prop :=
  ∃ cc frest rrest, cu_model cu = ZDB_MODEL_TS ∧ cu_predicate cu = p ∧ cu_impl cu = Some cc ∧
    (cc_db cc, cc_stream_name cc, window cc, descending cc) = (Some the_db, Some name, wi, desc) ∧
    file_ahead cc frest ∧ ram_at cc s rrest ∧
    rest = if desc then rrest ++ frest else frest ++ rrest.

(** What a step that finds an entry has recorded of it. *)
Definition reports cu (x : zdb_ts_sample_i64_t) : Prop :=
  ∃ cc, cu_impl cu = Some cc ∧ told cc x.

Lemma walking_intro wi p desc cu cu' cc cc' frest rrest rest :
  kin cu cu' → cu_model cu = ZDB_MODEL_TS → cu_predicate cu = p →
  (cc_db cc, cc_stream_name cc, window cc, descending cc) = (Some the_db, Some name, wi, desc) →
  same_walk cc cc' → file_ahead cc' frest → ram_at cc' s rrest →
  rest = (if desc then rrest ++ frest else frest ++ rrest) →
  walking wi p desc (with_walk cu' cc') rest.
Proof.
  intros [Km Kp] Hm Hp Hk Hs Hf Hr ->. exists cc', frest, rrest.
  split_and!; [by rewrite <- Hm|by rewrite <- Hp|done|by rewrite Hs|done..].
Qed.

Context (Hlive : LockLive K).

Lemma wp_next_asc fuel wi p cu rest
    (Q : option (zdb_status_t * option (list byte) * option cursor) → W → Prop) w :
  serving w → walking wi p false cu rest → length rest < fuel →
  (∀ cu' w', seek (admits wi p) rest = None → serving w' → walking wi p false cu' [] →
     Q (Some (ZDB_ERR_NOT_FOUND, None, Some cu')) w') →
  (∀ e rest' cu' w', seek (admits wi p) rest = Some (e, rest') → serving w' →
     walking wi p false cu' rest' → reports cu' e.2 → Q (Some (ZDB_OK, Some e.1, Some cu')) w') →
  wp (zdb_cursor_next fuel (Some cu) true) Q w.
Proof.
  intros Hsv (cc & frest & rrest & Hm & <- & Hi & Hk & Hfa & Hra & ->) Hfuel Hend Hok.
  pose proof Hk as [= Hdb Hn Hwi Hdesc]. subst wi.
  unfold zdb_cursor_next. cbn [negb]. rewrite Hm, bool_decide_true, Hi, Hdesc by done. cbv zeta.
  apply wp_bind, wp_ret. rewrite bool_decide_true by done. cbn [negb]. rewrite Hi. cbn [default from_option id].
  rewrite length_app in Hfuel. rewrite seek_app in Hend, Hok.
  apply wp_bind. eapply wp_files; [apply Hsv|exact Hfa|lia|..].
  - intros cu1 cc1 w1 Hs Q1 K1 S1 O1 D1. rewrite Hs in Hend, Hok.
    change (cu_impl (with_walk cu1 cc1)) with (Some cc1). cbn [default from_option id].
    pose proof (ram_at_offset _ _ _ S1 O1 Hra) as Hra1. pose proof S1 as [= S1a S1b S1c S1d].
    rewrite S1d, Hdesc. cbn [negb]. apply wp_bind.
    eapply wp_next_ram; [done|by eapply serving_quiet|congruence|congruence|exact Hra1|..];
      rewrite S1c; change (cu_predicate (with_walk cu1 cc1)) with (cu_predicate cu1);
      rewrite (proj2 K1).
    + intros cu2 cc2 w2 Hs2 Hsv2 K2 M2 Hra2. apply wp_ret. apply Hend; [done|done|].
      eapply (walking_intro _ _ _ cu _ cc _ [] []); [by etrans|done|done|done| | |done|done].
      * unfold same_walk. rewrite (ram_moved_same_walk _ _ M2). exact S1.
      * eapply file_ahead_ram; [exact M2|]. unfold file_ahead. by rewrite D1.
    + intros e rest' cu2 cc2 w2 Hs2 Hsv2 K2 M2 Hra2 Ht. apply wp_ret. rewrite Hs2 in Hok.
      eapply Hok; [done|done| |by eexists].
      eapply (walking_intro _ _ _ cu _ cc _ [] rest'); [by etrans|done|done|done| | |done|done].
      * unfold same_walk. rewrite (ram_moved_same_walk _ _ M2). exact S1.
      * eapply file_ahead_ram; [exact M2|]. unfold file_ahead. by rewrite D1.
  - intros e rest' cu1 cc1 w1 Hs Q1 K1 S1 O1 Hfa1 Ht. rewrite Hs in Hok. apply wp_ret.
    eapply Hok; [done|by eapply serving_quiet| |by eexists].
    eapply (walking_intro _ _ _ cu _ cc _ rest' rrest); [done..|by eapply ram_at_offset|done].
Qed.

Lemma wp_next_desc fuel wi p cu rest
    (Q : option (zdb_status_t * option (list byte) * option cursor) → W → Prop) w :
  serving w → walking wi p true cu rest → length rest < fuel →
  (∀ cu' w', seek (admits wi p) rest = None → serving w' → walking wi p true cu' [] →
     Q (Some (ZDB_ERR_NOT_FOUND, None, Some cu')) w') →
  (∀ e rest' cu' w', seek (admits wi p) rest = Some (e, rest') → serving w' →
     walking wi p true cu' rest' → reports cu' e.2 → Q (Some (ZDB_OK, Some e.1, Some cu')) w') →
  wp (zdb_cursor_next fuel (Some cu) true) Q w.
Proof.
  intros Hsv (cc & frest & rrest & Hm & <- & Hi & Hk & Hfa & Hra & ->) Hfuel Hend Hok.
  pose proof Hk as [= Hdb Hn Hwi Hdesc]. subst wi.
  unfold zdb_cursor_next. cbn [negb]. rewrite Hm, bool_decide_true, Hi, Hdesc by done. cbv zeta.
  rewrite length_app in Hfuel. rewrite seek_app in Hend, Hok.
  apply wp_bind. eapply wp_next_ram; [done|done|done|done|exact Hra|..].
  - intros cu1 cc1 w1 Hs Hsv1 K1 M1 Hra1. rewrite Hs in Hend, Hok.
    rewrite bool_decide_true by done. cbn [negb].
    change (cu_impl (with_walk cu1 cc1)) with (Some cc1). cbn [default from_option id].
    pose proof (ram_moved_same_walk _ _ M1) as S1. pose proof S1 as [= S1a S1b S1c S1d].
    apply wp_bind. eapply (wp_files _ _ _ frest); [apply Hsv1|by eapply file_ahead_ram|lia|..];
      rewrite S1c; change (cu_predicate (with_walk cu1 cc1)) with (cu_predicate cu1);
      rewrite (proj2 K1).
    + intros cu2 cc2 w2 Hs2 Q2 K2 S2 O2 D2.
      change (cu_impl (with_walk cu2 cc2)) with (Some cc2). cbn [default from_option id].
      pose proof S2 as [= _ _ _ S2d]. rewrite S2d, S1d, Hdesc. cbn [negb]. apply wp_ret.
      apply Hend; [done|by eapply serving_quiet|].
      eapply (walking_intro _ _ _ cu _ cc _ [] []); [by etrans|done|done|done|by etrans| |by eapply ram_at_offset|done].
      unfold file_ahead. by rewrite D2.
    + intros e rest' cu2 cc2 w2 Hs2 Q2 K2 S2 O2 Hfa2 Ht. apply wp_ret. rewrite Hs2 in Hok.
      eapply Hok; [done|by eapply serving_quiet| |by eexists].
      eapply (walking_intro _ _ _ cu _ cc _ rest' []);
        [by etrans|done|done|done|by etrans|done|by eapply ram_at_offset|done].
  - intros e rest' cu1 cc1 w1 Hs Hsv1 K1 M1 Hra1 Ht. rewrite Hs in Hok.
    rewrite bool_decide_false by done. cbn [negb]. apply wp_ret.
    eapply Hok; [done|done| |by eexists].
    eapply (walking_intro _ _ _ cu _ cc _ frest rest');
      [done..|by apply ram_moved_same_walk|by eapply file_ahead_ram|done|done].
Qed.

(** ** Walking to the end *)

Lemma wp_next_sample fuel wi p desc cu rest
    (Q : option (zdb_status_t * option zdb_ts_sample_i64_t * option cursor) → W → Prop) w :
  serving w → walking wi p desc cu rest → length rest < fuel →
  (∀ cu' w', seek (admits wi p) rest = None → serving w' → walking wi p desc cu' [] →
     Q (Some (ZDB_ERR_NOT_FOUND, None, Some cu')) w') →
  (∀ e rest' cu' w', seek (admits wi p) rest = Some (e, rest') → serving w' →
     walking wi p desc cu' rest' → Q (Some (ZDB_OK, Some e.2, Some cu')) w') →
  wp (zdb_ts_cursor_next_sample fuel (Some cu) true) Q w.
Proof.
  intros Hsv Hw Hfuel Hend Hok. unfold zdb_ts_cursor_next_sample. cbn [negb].
  assert (∀ e rest' cu' w', seek (admits wi p) rest = Some (e, rest') → serving w' →
     walking wi p desc cu' rest' → reports cu' e.2 →
     Q (Some (ZDB_OK, (λ cc, {| ts_ms := last_ts_ms cc; value := last_value cc |}) <$>
                        (Some cu' ≫= cu_impl), Some cu')) w') as Hok'.
  { intros e rest' cu' w' Hs Hsv' Hw' (cc & Hi & Ht1 & Ht2). cbn. rewrite Hi. cbn.
    rewrite Ht1, Ht2. destruct e as [r [t v]]. by apply (Hok (r, Build_zdb_ts_sample_i64_t t v) rest'). }
  apply wp_bind. destruct desc; [eapply wp_next_desc|eapply wp_next_asc]; try done;
    first [by intros cu' w' ???; apply wp_ret, Hend
          |intros e rest' cu' w' ????; apply wp_ret; by eapply Hok'].
Qed.

(** The loop of a client: ask for samples until there is none. *)
Fixpoint collect (n fuel : nat) cu : M W (option (zdb_status_t * list zdb_ts_sample_i64_t)) :=
  match n with
  | 0 => ret None
  | S n =>
      r ← zdb_ts_cursor_next_sample fuel (Some cu) true;
      match r with
      | Some (ZDB_OK, Some x, Some cu) =>
          r ← collect n fuel cu;
          ret ((λ r, (r.1, x :: r.2)) <$> r)
      | Some (st, _, _) => ret (Some (st, []))
      | None => ret None
      end
  end.

Lemma wp_collect n fuel wi p desc cu rest
    (Q : option (zdb_status_t * list zdb_ts_sample_i64_t) → W → Prop) w :
  serving w → walking wi p desc cu rest → length rest < fuel → length rest < n →
  (∀ w', serving w' → Q (Some (ZDB_ERR_NOT_FOUND, (List.filter (admits wi p) rest).*2)) w') →
  wp (collect n fuel cu) Q w.
Proof.
  revert cu rest w Q. induction n as [|n IH]; intros cu rest w Q Hsv Hw Hfuel Hn HQ; [lia|].
  cbn [collect]. rewrite seek_filter in HQ. apply wp_bind. eapply wp_next_sample; [done..| |].
  - intros cu' w' Hs Hsv' _. rewrite Hs in HQ. by apply wp_ret, HQ.
  - intros e rest' cu' w' Hs Hsv' Hw'. rewrite Hs in HQ. pose proof (seek_length _ _ _ _ Hs) as Hlt.
    apply wp_bind. eapply IH; [done..|lia|lia|]. intros w2 Hsv2. by apply wp_ret, HQ.
Qed.

(** ** Opening a cursor *)

Definition cursor_of (out : cursor) (p : option zdb_predicate_fn) cc : cursor :=
  out <| cu_model := ZDB_MODEL_TS |> <| cu_backend := ZDB_BACKEND_LFS |> <| cu_predicate := p |>
      <| cu_impl := Some cc |>.

Lemma entered_stands cc d v base :
  stands c fs name lo hi cc d v base (if descending cc then rec_count d v else 0) →
  walk_at cc (toward (descending cc) (file_entries name d) ++
              ahead c fs name lo hi (descending cc) (cc_cur_seg cc)).
Proof.
  intros Hs. eexists d, v, base, _. split; [exact Hs|]. f_equal. unfold here, toward.
  pose proof (readable_layout _ _ _ _ (sd_readable _ _ _ _ _ _ _ _ _ _ Hs)) as (_ & _ & Hl).
  destruct (descending cc); [|done]. rewrite take_ge; [done|lia].
Qed.

(** Everything ahead of a walk that has just entered its first file. *)
Definition first_seg (desc : bool) : Z := if desc then hi else lo.

Lemma first_ahead desc d :
  fs !! stream_file c name (first_seg desc) = Some d →
  toward desc (file_entries name d) ++ ahead c fs name lo hi desc (first_seg desc) =
  toward desc (stored_entries c fs name lo hi).
Proof.
  intros Hd. destruct Hread as [[Hlo Hhi] _ _ _]. unfold first_seg, ahead, toward in *.
  assert (seg_entries c fs name (if desc then hi else lo) = file_entries name d) as Hse
    by (unfold seg_entries; by rewrite Hd).
  destruct desc.
  - rewrite (stored_entries_before _ _ _ lo hi) by lia. by rewrite rev_app_distr, Hse.
  - rewrite (stored_entries_after _ _ _ lo hi) by lia. by rewrite Hse.
Qed.

(** The reset that ends an opening leaves the walk at the start. *)
Lemma wp_reset_entered out p wi cc d (Q : zdb_status_t * option cursor → W → Prop) w :
  serving w → entered cc d → window cc = wi → ram_offset cc = 0 → file_done cc = false →
  cc_cur_seg cc = first_seg (descending cc) →
  (∀ cu w', serving w' →
     walking wi p (descending cc) cu
       (toward (descending cc) (stored_entries c fs name lo hi ++ buffered_entries s)) →
     Q (ZDB_OK, Some cu) w') →
  wp (zdb_cursor_reset (Some (cursor_of out p cc))) Q w.
Proof.
  intros Hsv (v & base & Hs & Hsize) Hwi Hram Hdone Hcur HQ.
  pose proof Hs as [[Hdb Hn Hl Hh Hc Hca] Ho Hf Hr Hhs Hrs Hb Hk Hoff Hp Hpos].
  destruct (readable_layout _ _ _ _ Hr) as (_ & Hlen & _). pose proof (rec_size_for_pos v) as Hrp.
  pose proof (rb_fits _ _ _ _ Hr) as Hfit.
  assert (∀ cc' cu' w', serving w' →
    stands c fs name lo hi cc' d v base (if descending cc' then rec_count d v else 0) →
    same_walk cc cc' → ram_offset cc' = 0 → file_done cc' = false → cc_cur_seg cc' = cc_cur_seg cc →
    cu_model cu' = ZDB_MODEL_TS → cu_predicate cu' = p → cu_impl cu' = Some cc' →
    Q (ZDB_OK, Some cu') w') as Hfin.
  { intros cc' cu' w' Hsv' Hs' Hsw Hr' Hd' Hc' Hm' Hp' Hi'. apply HQ; [done|].
    pose proof Hsw as [= S1 S2 S3 S4]. rewrite <- S4 in *.
    eexists cc', _, (ram_ahead (descending cc') s 0). split_and!; [done|done|done| | | |].
    - rewrite S1, S2, S3. by rewrite Hdb, Hn, Hwi.
    - unfold file_ahead. rewrite Hd'. by eapply entered_stands.
    - exists 0. split_and!; [lia|by rewrite Hr'|done].
    - rewrite Hc', Hcur. rewrite first_ahead by (by rewrite <- Hcur).
      destruct (buffer_layout s Hbuf) as (_ & _ & Hlb). unfold ram_ahead, toward.
      destruct (descending cc'); [|by rewrite drop_0].
      rewrite rev_app_distr. f_equal. rewrite take_ge by lia. done. }
  unfold zdb_cursor_reset. cbv zeta.
  change (cu_impl (_ <| cu_current := None |>)) with (Some cc).
  change (cu_model (_ <| cu_current := None |>)) with ZDB_MODEL_TS.
  rewrite bool_decide_true, andb_true_r by done. destruct CONFIG_ZDB_TS; cycle 1.
  { apply wp_ret. by apply (Hfin cc). }
  set (cc1 := cc <| ram_offset := 0 |> <| file_done := false |> <| file_offset := hdr_size cc |>).
  assert ((if descending cc1 && (0 <? rec_size cc1) && (hdr_size cc1 <? file_size cc1)
           then cc1 <| file_offset := last_record_end (file_size cc1) (hdr_size cc1) (rec_size cc1) |>
           else cc1) = cc) as Heq.
  { change (descending cc1) with (descending cc). change (rec_size cc1) with (rec_size cc).
    change (hdr_size cc1) with (hdr_size cc). change (file_size cc1) with (file_size cc).
    assert (hdr_size cc = file_offset cc → cc1 = cc) as Hsame.
    { intros He. unfold cc1. rewrite He. destruct cc. cbn in *. by subst. }
    rewrite Hhs, Hrs in *. destruct (descending cc); cbn [andb]; [|apply Hsame; lia].
    rewrite (proj2 (Nat.ltb_lt _ _)) by done. cbn [andb]. rewrite Hsize in * by done.
    destruct (Nat.ltb_spec (zdb_ts_hdr_size_for v) (length d)); [|apply Hsame; lia].
    rewrite (last_record_end_aligned _ _ _ (rec_count d v)) by done.
    rewrite Hlen, <- Hoff. unfold cc1. destruct cc. cbn in *. by subst. }
  rewrite Heq, Ho.
  apply wp_bind. rewrite off_t_small by (destruct (descending cc); nia).
  eapply wp_live_seek; [by split|lia|]. intros fh fs' Hfs [Hp' _ Hpos']. cbv zeta.
  apply wp_ret. change (0 <? 0)%Z with false. cbn iota.
  apply (Hfin (cc <| cc_file := fh |>)); try done.
  - eapply serving_quiet; [exact Hsv|by apply quiet_fs].
  - change (descending (cc <| cc_file := fh |>)) with (descending cc).
    split; [by split|exact Ho|exact Hf|exact Hr|exact Hhs|exact Hrs|exact Hb|exact Hk|exact Hoff| |].
    + cbn. by rewrite Hp'.
    + intros _. cbn. by rewrite Hpos', Nat2Z.id.
Qed.

(** The slot is the open stream the walk is about. *)
Context (Hok : stream_ok c fs s) (Hname : st_name s = name) (Hlo : oldest_seg s = lo) (Hhi : cur_seg s = hi).

Definition begun (wi : zdb_ts_window_t) (desc : bool) cc : Prop :=
  (window cc, ram_offset cc, file_done cc, descending cc, cc_cur_seg cc) =
  (wi, 0, false, desc, first_seg desc) ∧ ∃ d, entered cc d.

Definition stream_handle : zdb_ts_t := {| ts_db := Some the_db; ts_stream_name := Some name |}.

Lemma first_seg_bounds desc : (lo ≤ first_seg desc ≤ hi)%Z.
Proof. destruct Hread as [[? ?] _ _ _]. unfold first_seg. destruct desc; lia. Qed.

Lemma wp_open_segmented wi desc (Q : zdb_status_t * walk → W → Prop) w :
  ZDB_TS_SEGMENTED = true → serving w →
  (∀ st cc w', st ≠ ZDB_OK → Q (st, cc) w') →
  (∀ cc w', serving w' → begun wi desc cc → Q (ZDB_OK, cc) w') →
  wp (open_segmented (new_walk stream_handle wi desc)) Q w.
Proof.
  intros HS Hsv Hbad HQ. pose proof Hsv as [[Hrs Hrc] Hv Hf (s' & Hs & Hsim)].
  assert (segs_scanned s' = true ∧ oldest_seg s' = lo ∧ cur_seg s' = hi) as (Hsc & Hl' & Hh').
  { pose proof (sk_scanned_seg _ _ _ Hok HS). destruct Hsim as (? & ? & ->). done. }
  unfold open_segmented. cbn [cc_db cc_stream_name new_walk stream_handle ts_db ts_stream_name].
  apply wp_bind, wp_ctx_ready; [done|done|by eapply slot_is_some|].
  apply wp_bind, wp_db_get. rewrite Hf. apply wp_bind. unfold zdb_ts_scan_segments.
  apply wp_bind, (wp_slot_get _ s'); [done|]. rewrite Hsc. apply wp_ret.
  rewrite bool_decide_true by done. cbn [negb]. apply wp_bind, (wp_slot_get _ s'); [done|]. cbv zeta.
  set (cc1 := (new_walk stream_handle wi desc : walk) <| cc_file := fs_file_t_init |> <| file_open := false |>
    <| seg_lo := oldest_seg s' |> <| seg_hi := cur_seg s' |>).
  set (cc2 := cc1 <| cc_cur_seg := if descending cc1 then seg_hi cc1 else seg_lo cc1 |>).
  assert (cc_cur_seg cc2 = first_seg desc) as Hc2.
  { unfold first_seg. cbn. rewrite Hl', Hh'. by destruct desc. }
  pose proof (first_seg_bounds desc) as Hfb.
  assert (walk_in name lo hi cc2) as Hin2 by (split; try done; by rewrite Hc2).
  apply wp_bind. rewrite Hc2. eapply (wp_open_segment _ _ _ _ _ Hread); [done|exact Hv|done|done|..].
  - intros d cc' w' Hd Hq Hm Hc' Hent. rewrite bool_decide_true by done. cbn [negb andb].
    apply wp_bind, wp_ret, wp_ret, HQ; [by eapply serving_quiet|]. split; [|by exists d].
    injection Hm as _ _ -> -> -> -> _ _. by rewrite Hc'.
  - intros st cc' w' _ Hst _ _ _ ->. rewrite andb_false_r. by apply wp_bind, wp_ret, wp_ret, Hbad.
Qed.

Lemma wp_open_single wi desc (Q : zdb_status_t * walk → W → Prop) w :
  ZDB_TS_SEGMENTED = false → serving w →
  (∀ st cc w', st ≠ ZDB_OK → Q (st, cc) w') →
  (∀ cc w', serving w' → begun wi desc cc → Q (ZDB_OK, cc) w') →
  wp (open_single (new_walk stream_handle wi desc)) Q w.
Proof.
  intros HS Hsv Hbad HQ. pose proof Hsv as [_ [Hc Hf] _ _].
  pose proof (sk_scanned _ _ _ Hok) as Hsc. rewrite HS in Hsc. rewrite Hlo, Hhi in Hsc.
  destruct Hsc as [Hlo0 Hhi0]. destruct (sk_active _ _ _ Hok) as (d & Hd & _).
  rewrite Hname, Hhi, Hhi0 in Hd.
  destruct (rs_files _ _ _ _ _ Hread 0 d) as (v & base & Hr); [lia|done|].
  destruct (readable_layout _ _ _ _ Hr) as (_ & Hlen & _). pose proof (rb_fits _ _ _ _ Hr) as Hfit.
  unfold open_single. cbn [cc_stream_name new_walk stream_handle ts_stream_name].
  apply wp_bind, wp_db_get. rewrite Hc.
  destruct (stream_path_cases c name ZDB_TS_PATH_MAX) as [(rc & -> & Hrc)| ->].
  { apply wp_ret, Hbad. rewrite status_from_errno_ok. lia. }
  assert (stream_file c name 0 = ts_dir c ++ name ++ s2b ".zts") as Hsf by (unfold stream_file; by rewrite HS).
  rewrite <- Hsf. apply wp_bind. eapply wp_live_open; [by rewrite Hf|done|]. intros fh fs1 Hap Hf1.
  cbv zeta. change (negb (0 =? 0)%Z) with false. cbn iota.
  assert (quiet w (w <| w_fs := fs1 |>)) as Q1 by (by apply quiet_fs).
  apply wp_bind. eapply wp_learn_layout_live; [by rewrite (qu_files _ _ Q1), Hf|apply Hr|]. intros w2 Q2.
  rewrite bool_decide_true by done. cbn [negb].
  apply wp_bind. eapply wp_seek_last; [|apply Hap|done|]. { by rewrite (qu_files _ _ Q2), (qu_files _ _ Q1), Hf. }
  intros fh3 w3 Q3 Hp3. rewrite bool_decide_true by done. cbn [negb].
  set (off := if desc then length d else zdb_ts_hdr_size_for v).
  match goal with |- wp (bind (on_fs (fs_seek_set _ (off_t ?o))) _) _ _ => assert (o = off) as Hoo end.
  { unfold off. cbn. destruct desc; [|done]. eapply last_record_end_aligned; [apply rec_size_for_pos|exact Hlen|done]. }
  rewrite Hoo.
  assert (Z.of_nat off < 2 ^ (SIZE_WIDTH - 1))%Z as Hoff by (unfold off; destruct desc; lia).
  rewrite off_t_small by done. apply wp_bind. eapply wp_live_seek; [by split|lia|].
  intros fh4 fs4 Hf4 [Hp4 _ Hpos4]. change (negb (0 =? 0)%Z) with false. cbn iota. apply wp_ret, HQ.
  - eapply serving_quiet; [exact Hsv|]. do 3 (etrans; [eassumption|]). by apply quiet_fs.
  - split; [cbn; f_equal; unfold first_seg; destruct desc; lia|].
    exists d, v, base. cbn [descending]. split; [|done]. split; cbn.
    + split; cbn; try done; lia.
    + done.
    + done.
    + done.
    + done.
    + done.
    + done.
    + by destruct desc; [|lia].
    + etrans; [exact Hoo|]. unfold off. destruct desc; [exact Hlen|lia].
    + rewrite Hp4. done.
    + intros _. rewrite Hpos4, Nat2Z.id. symmetry. exact Hoo.
Qed.

Lemma wp_ensure_active (Q : zdb_status_t → W → Prop) w :
  ZDB_TS_SEGMENTED = false → serving w →
  (∀ st w', st ≠ ZDB_OK → Q st w') → (∀ w', serving w' → Q ZDB_OK w') →
  wp (zdb_ts_ensure_stream_header (Some the_db) (Some name)) Q w.
Proof.
  intros HS Hsv Hbad HQ. pose proof Hsv as [[_ Hrc] [Hc Hf] _ _].
  destruct (sk_active _ _ _ Hok) as (d & Hd & Hh & _).
  assert (stream_file c (st_name s) (cur_seg s) = ts_dir c ++ name ++ s2b ".zts") as Hsf
    by (unfold stream_file; by rewrite HS, Hname).
  rewrite Hsf in Hd. unfold zdb_ts_ensure_stream_header. apply wp_bind, wp_db_get. rewrite Hc.
  destruct c as [c'|] eqn:Hcc; [|rewrite Hc in Hrc; by destruct Hrc].
  destruct (stream_path_cases (Some c') name ZDB_TS_PATH_MAX) as [(rc & -> & Hrc')| ->].
  { apply wp_ret, Hbad. rewrite status_from_errno_ok. lia. }
  unfold zdb_ts_ensure_header_at. apply wp_bind, wp_ensure_header_ex; [by rewrite Hc|..].
  - intros st w' Hst _ _ _. by apply wp_ret, Hbad.
  - intros w' He. rewrite Hf, Hd in He. cbn in He. subst d. by rewrite header_pure_nil in Hh.
  - intros d' v w' _ _ C1 X1 F1. apply wp_ret, HQ. eapply serving_quiet; [exact Hsv|by split].
Qed.

Lemma wp_cursor_open wi p desc out (Q : zdb_status_t * option cursor → W → Prop) w :
  serving w →
  (∀ st (o : option cursor) w', st ≠ ZDB_OK → Q (st, o) w') →
  (∀ cu w', serving w' → walking wi p desc cu (toward desc (stream_entries c fs s)) →
     Q (ZDB_OK, Some cu) w') →
  wp (zdb_ts_cursor_open_dir (handle name) wi p desc (Some out)) Q w.
Proof.
  intros Hsv Hbad HQ. unfold zdb_ts_cursor_open_dir, handle. cbn [ts_db ts_stream_name].
  apply wp_bind.
  assert (wp (if negb ZDB_TS_SEGMENTED
              then zdb_ts_ensure_stream_header (Some the_db) (Some name) else ret ZDB_OK)
             (λ st w', st = ZDB_OK → serving w') w) as Hens.
  { destruct ZDB_TS_SEGMENTED eqn:HS; cbn [negb]; [by apply wp_ret|].
    by apply wp_ensure_active. }
  eapply wp_mono; [exact Hens|]. intros st w1 Hsv1.
  destruct (bool_decide_reflect (st = ZDB_OK)) as [->|Hst]; cbn [negb]; [|by apply wp_ret, Hbad].
  specialize (Hsv1 eq_refl). apply wp_bind, wp_db_get.
  destruct (cursor_slab (w_db w1)) as [sl|]; [|by apply wp_ret, Hbad].
  apply wp_bind, wp_on_k. intros rc k2 _. destruct (negb (rc =? 0)%Z); [by apply wp_ret, Hbad|].
  pose proof (serving_k _ k2 Hsv1) as Hsv2. apply wp_bind. fold stream_handle.
  assert (∀ r w', (r.1 = ZDB_OK → serving w' ∧ begun wi desc r.2) →
    wp (let '(rc, cctx) := r in
        if negb (bool_decide (rc = ZDB_OK)) then on_k_ (k_mem_slab_free sl);; ret (rc, Some out)
        else zdb_cursor_reset (Some (cursor_of out p cctx))) Q w') as Htail.
  { intros [st cc] w' Hr. cbn [fst snd] in Hr.
    destruct (bool_decide_reflect (st = ZDB_OK)) as [->|Hst]; cbn [negb]; cycle 1.
    { apply wp_bind, wp_on_k_, wp_ret. by apply Hbad. }
    destruct (Hr eq_refl) as [Hsv' [Hb (d & Hent)]]. injection Hb as Hw0 Hr0 Hd0 Hdesc Hc0.
    eapply wp_reset_entered; [done..|by rewrite Hdesc|]. intros cu w3 Hsv3 Hwalk. apply HQ; [done|].
    rewrite Hdesc in Hwalk. unfold stream_entries. by rewrite Hname, Hlo, Hhi. }
  destruct ZDB_TS_SEGMENTED eqn:HS; [apply wp_open_segmented|apply wp_open_single]; try done;
    first [intros st cc w' Hst; by apply (Htail (st, cc))
          |intros cc w' Hsv' Hb; by apply (Htail (ZDB_OK, cc))].
Qed.
End walk.

Section stream_walk.
Context {Cfg : Config} {CfgOk : ConfigOk Cfg} {K F FS FH DH : Type}.
Context `{!Kernel K, !KernelLaws K, !FileSys FS FH DH, !FileSysLaws FS FH DH}.
Context {CRC : Crc32} {CRCLaws : Crc32Laws} {Live : FsLive FS FH DH}.
Abbreviation W := (world K F FS).
Implicit Types w : W.

(** ** Readable streams *)

(** What is stored and buffered is readable, at paths that fit. *)
Record walkable (c : option zdb_cfg_t) (fs : gmap (list byte) (list byte))
    (s : zdb_ts_stream_ctx) : Prop := {
  wk_segs : readable_segs c fs (st_name s) (oldest_seg s) (cur_seg s);
  wk_buffer : Forall (λ r, is_Some (decode_pure (zdb_ts_slot_version s) (zdb_ts_slot_base_ts s) r))
    (records (zdb_ts_rec_size_for (zdb_ts_slot_version s))
       (take (ingest_used s) (default [] (ingest_buf s))));
}.

Lemma walkable_buffer c fs s : stream_ok c fs s → walkable c fs s → buffer_ok s.
Proof.
  intros Hok [_ Hdec]. pose proof Hok as [[_ Hu _] Hin _ _ _ Hv Hr _ _ Hb].
  destruct (Hu Hin) as ((b & Hib & Hlb) & _ & Hle & _). split; [|by rewrite Hr, Hv| | |done].
  - rewrite Hv. apply native_version_ok.
  - exists b. split; [done|lia].
  - by rewrite Hv.
Qed.

Lemma length_toward desc es : length (toward desc es) = length es.
Proof. unfold toward. destruct desc; [apply length_rev|done]. Qed.

(** Opening a cursor and asking for samples to the end. *)
Lemma wp_walk name i s wi p desc out n fuel w :
  LockLive K → opened_as name i s w → walkable (cfg (w_db w)) (files w) s →
  let all := stream_entries (cfg (w_db w)) (files w) s in
  length all < fuel → length all < n →
  wp (zdb_ts_cursor_open_dir (handle name) wi p desc (Some out))
    (λ r w', r.1 = ZDB_OK → ∃ cu, r.2 = Some cu ∧
       wp (collect n fuel cu) (λ r' _,
         r' = Some (ZDB_ERR_NOT_FOUND, (List.filter (admits wi p) (toward desc all)).*2)) w') w.
Proof.
  intros Hlive [Hr Hfind Hs Hok _] Hwk all Hfuel Hn.
  assert (st_name s = name) as Hname.
  { pose proof Hs as (x & Hx & Hl)%slot_is_ctx. rewrite Hx in Hfind.
    apply slot_find_Some in Hfind as (t & Hl' & _ & Hnm). congruence. }
  pose proof (walkable_buffer _ _ _ Hok Hwk) as Hbuf. destruct Hwk as [Hsegs _]. rewrite Hname in Hsegs.
  eapply (wp_cursor_open _ _ name _ _ Hsegs i s Hbuf); [done..| | |].
  - split; [done|by split|done|]. exists s. split; [done|apply slot_sim_refl].
  - intros st o w' Hst Heq. done.
  - intros cu w' Hsv Hw _. exists cu. split; [done|].
    rewrite <- (length_toward desc) in Hfuel, Hn.
    eapply (wp_collect _ _ name _ _ Hsegs i s Hbuf); [done..|]. by intros.
Qed.
End stream_walk.
