(* ===== verification/TsFcbSpec.v ===== *)
(** * The log of samples on a flash circular buffer

    [holds s xs] says that the store [s] holds exactly the samples [xs], oldest
    first. The rules of this file show what appending does to it, and that a
    cursor walks it. *)

From S2P Require Import Prelude Config Env FcbEnv Types Events CoreSpec Cursor TsFormat.
From S2P Require Import TsFormatSpec TsSpec TsStore TsOps TsCursor TsFcb TsAppendSpec TsCursorSpec TsWalkSpec.

(** A suffix of a list that was mapped. *)
Lemma suffix_map {A B} (f : A → B) l xs :
  l `suffix_of` map f xs → ∃ ys, ys `suffix_of` xs ∧ l = map f ys.
Proof.
  intros [k Hk]. exists (drop (length k) xs). split; [apply suffix_drop|].
  by rewrite <- skipn_map, Hk, drop_app_length.
Qed.

Section spec.
Context {Cfg : Config} {CfgOk : ConfigOk Cfg} {K F B D Sec L : Type}.
Context `{!Kernel K, !KernelLaws K, !Fcb B D Sec L, !FcbLaws B D Sec L}.
Context {CRC : Crc32} {CRCLaws : Crc32Laws}.
Abbreviation store := (fcb_store B D Sec).
Abbreviation W := (world K F (fcb_store B D Sec)).
Abbreviation walk := (zdb_ts_cursor_ctx (fcb_walk L)).
Abbreviation fcur := (zdb_cursor_t (fcb_walk L)).
Implicit Types (w : W) (s : store) (cc : walk) (cu : fcur).

(** ** Stores *)

Definition fdev s : B * D := (ts_fcb s, flash s).
Definition store_wf s : Prop := fcb_initialized s = true → fcb_mounted (fdev s).
Definition store_log s : list (list byte) := fcb_entries (flash s).

Definition holds s (xs : list zdb_ts_sample_i64_t) : Prop :=
  store_wf s ∧ Forall sample_ok xs ∧ store_log s = map zdb_ts_record_encode xs.

(** What a call of the library leaves. *)
Definition put_dev s (y : B * D) : store := s <| ts_fcb := y.1 |> <| flash := y.2 |>.

Lemma fdev_put s y : fdev (put_dev s y) = y.
Proof. by destruct y. Qed.

Lemma fdev_at w y : fdev (w_fs (w <| w_fs := put_dev (w_fs w) y |>)) = y.
Proof. apply fdev_put. Qed.

(** Only the store may have changed. *)
Definition on_store w w' : Prop := w' = w <| w_fs := w_fs w' |>.

Lemma on_store_intro w s : on_store w (w <| w_fs := s |>).
Proof. done. Qed.

#[global] Instance on_store_preorder : PreOrder on_store.
Proof.
  split; [by intros []|]. unfold on_store. intros w1 w2 w3 H12 H23. rewrite H23, H12. done.
Qed.

Lemma wp_on_fcb {A} (op : B * D → A * (B * D)) (Q : A → W → Prop) w :
  (∀ a y, op (fdev (w_fs w)) = (a, y) → Q a (w <| w_fs := put_dev (w_fs w) y |>)) →
  wp (on_fcb op) Q w.
Proof.
  intros HQ. unfold on_fcb. apply wp_on_fs. intros a s' Hs. injection Hs as <- <-.
  apply HQ. apply surjective_pairing.
Qed.

(** ** Making the log ready *)

Lemma wp_ensure_init (Q : Z → W → Prop) w :
  store_wf (w_fs w) →
  (∀ rc w', (rc < 0)%Z → on_store w w' → store_wf (w_fs w') →
     store_log (w_fs w') = store_log (w_fs w) → Q rc w') →
  (∀ w', on_store w w' → fcb_mounted (fdev (w_fs w')) →
     store_log (w_fs w') = store_log (w_fs w) → Q 0%Z w') →
  wp (zdb_ts_fcb_ensure_init true) Q w.
Proof.
  intros Hwf Hbad Hok. unfold zdb_ts_fcb_ensure_init. cbn [negb]. apply wp_bind, wp_gets.
  destruct (fcb_initialized (w_fs w)) eqn:Hi; [apply wp_ret, Hok; [by destruct w|by apply Hwf|done]|].
  assert (∀ rc s, (rc < 0)%Z → fcb_initialized s = false → store_log s = store_log (w_fs w) →
    Q rc (w <| w_fs := s |>)) as Hbad'.
  { intros rc s Hrc Hs Hl. apply Hbad; [done|done| |done]. intros Ht. cbn in Ht. congruence. }
  apply wp_bind, wp_modify, wp_bind, wp_gets. destruct (flash_area_get_sectors _ _ _) as [rc sectors].
  destruct (Z.ltb_spec rc 0); [by apply wp_ret, Hbad'|]. apply wp_bind, wp_modify.
  destruct (_ <? 2); [by apply wp_ret, Hbad'|]. apply wp_bind, wp_on_fcb.
  intros rc' y Hy.
  match type of Hy with fcb_init ?a ?st ?ss ?d = _ => pose proof (fcb_init_law a st ss d) as [Hl Hc] end.
  rewrite Hy in Hl, Hc. cbn [fst snd] in Hl, Hc. destruct (Z.ltb_spec rc' 0); [by apply wp_ret, Hbad'|].
  destruct Hc as [[-> Hm]|]; [|lia]. apply wp_bind, wp_modify, wp_ret, Hok; [done| |done].
  by destruct y.
Qed.

(** ** Appending to the log *)

(** The oldest entries may go, where the build lets them, to make room for the
    records [recs]. *)
Record fed (log log' recs : list (list byte)) : Prop := {
  fed_suffix : log' `suffix_of` log ++ recs;
  fed_whole : ZDB_TS_SEGMENTED = false → log' = log ++ recs;
}.

Lemma fed_refl log : fed log log [].
Proof. split; by rewrite app_nil_r. Qed.

Lemma fed_trans log1 log2 log3 a b : fed log1 log2 a → fed log2 log3 b → fed log1 log3 (a ++ b).
Proof.
  intros [S1 W1] [S2 W2]. split.
  - etrans; [exact S2|]. destruct S1 as [k Hk]. exists k. by rewrite app_assoc, Hk, app_assoc.
  - intros HS. by rewrite W2, W1, app_assoc by done.
Qed.

Lemma wp_fcb_reserve (Q : Z * L → W → Prop) w :
  fcb_mounted (fdev (w_fs w)) →
  (∀ rc loc w', on_store w w' → fcb_mounted (fdev (w_fs w')) →
     fed (store_log (w_fs w)) (store_log (w_fs w')) [] →
     (rc < 0)%Z ∨ rc = 0%Z ∧ fe_data_len loc = sizeof_record_i64 ∧
                  fcb_writing (fdev (w_fs w')) = Some (loc, None) → Q (rc, loc) w') →
  wp fcb_reserve Q w.
Proof.
  intros Hm HQ. unfold fcb_reserve.
  assert (∀ P w, fcb_mounted (fdev (w_fs w)) →
    (∀ rc loc w', on_store w w' → fcb_mounted (fdev (w_fs w')) →
       store_log (w_fs w') = store_log (w_fs w) →
       (rc < 0)%Z ∨ rc = 0%Z ∧ fe_data_len loc = sizeof_record_i64 ∧
                  fcb_writing (fdev (w_fs w')) = Some (loc, None) → P (rc, loc) w') →
    wp (on_fcb (fcb_append sizeof_record_i64)) P w) as Happ.
  { clear Q w Hm HQ. intros P w Hm HP. apply wp_on_fcb. intros [rc loc] y Hy.
    pose proof (fcb_append_law sizeof_record_i64 _ Hm) as [Hs Hc]. rewrite Hy in Hs, Hc.
    cbn [fst snd] in *. apply HP; [done|rewrite fdev_at; by eapply fs_mounted|by apply (fs_entries _ _ Hs)|].
    rewrite fdev_at. tauto. }
  apply wp_bind, Happ; [done|]. intros rc loc w1 H1 Hm1 Hl1 Hc.
  assert (fed (store_log (w_fs w)) (store_log (w_fs w1)) []) as Hf1 by (rewrite Hl1; apply fed_refl).
  destruct (Z.eqb_spec rc (- ENOSPC)) as [->|_]; [|by apply wp_ret, HQ].
  destruct ZDB_TS_SEGMENTED eqn:HS; [|apply wp_ret, HQ; [done..|by left]].
  apply wp_bind, wp_on_fcb. intros rc2 y Hy. pose proof (fcb_rotate_law _ Hm1) as [[Hm2 Hs2] Hrc].
  rewrite Hy in Hm2, Hs2, Hrc. cbn [fst snd] in *. specialize (Hm2 Hm1).
  set (w2 := w1 <| w_fs := _ |>). assert (on_store w w2) as H2 by (etrans; [exact H1|done]).
  assert (fed (store_log (w_fs w)) (store_log (w_fs w2)) []) as Hf2.
  { split; [|by rewrite HS]. rewrite app_nil_r, <- Hl1. exact Hs2. }
  assert (fcb_mounted (fdev (w_fs w2))) as Hm2' by (unfold w2; by rewrite fdev_at).
  destruct (Z.ltb_spec rc2 0); [apply wp_ret, HQ; [done..|by left]|].
  apply Happ; [done|]. intros rc3 loc3 w3 H3 Hm3 Hl3 Hc3.
  apply HQ; [by etrans|done|by rewrite Hl3|done].
Qed.

(** What an append of records leaves of a store. *)
Definition feeds s s' (recs : list (list byte)) : Prop :=
  store_wf s' ∧ fed (store_log s) (store_log s') recs.

Lemma wp_fcb_record rec (Q : Z → W → Prop) w :
  store_wf (w_fs w) → length rec = sizeof_record_i64 →
  (∀ rc w' recs, (rc < 0)%Z → on_store w w' → recs = [] ∨ recs = [rec] →
     feeds (w_fs w) (w_fs w') recs → Q rc w') →
  (∀ w', on_store w w' → feeds (w_fs w) (w_fs w') [rec] →
     last (store_log (w_fs w')) = Some rec → Q 0%Z w') →
  wp (zdb_ts_fcb_append_record true (Some rec)) Q w.
Proof.
  intros Hwf Hlen Hbad Hok. unfold zdb_ts_fcb_append_record. apply wp_bind, wp_ensure_init; [done|..].
  { intros rc w' Hrc Hon Hwf' Hl. rewrite (proj2 (Z.ltb_lt _ _) Hrc).
    apply wp_ret, (Hbad _ _ []); [done..|by left|]. split; [done|]. rewrite Hl. apply fed_refl. }
  intros w1 H1 Hm1 Hl1. change (0 <? 0)%Z with false. cbn iota. apply wp_bind, wp_fcb_reserve; [done|].
  intros rc loc w2 H2 Hm2 Hf2 Hc. rewrite Hl1 in Hf2.
  assert (on_store w w2) as H02 by (by etrans).
  assert (∀ s, fcb_mounted (fdev s) → store_log s = store_log (w_fs w2) → feeds (w_fs w) s []) as Hnone.
  { intros s Hm Hl. split; [by intros _|]. by rewrite Hl. }
  destruct (Z.ltb_spec rc 0); [apply wp_ret, (Hbad _ _ []); [done..|by left|by apply Hnone]|].
  destruct Hc as [|(-> & Hdl & Hwr)]; [lia|]. apply wp_bind, wp_on_fcb. intros rc3 y Hy.
  pose proof (flash_write_law loc None rec _ Hm2 Hwr) as [Hs3 Hc3]; [by rewrite Hdl|].
  rewrite Hy in Hs3, Hc3. cbn [fst snd] in *.
  set (w3 := w2 <| w_fs := _ |>). assert (on_store w w3) as H03 by (etrans; [exact H02|done]).
  assert (fcb_mounted y) as Hm3 by (by eapply fs_mounted).
  assert (store_log (w_fs w3) = store_log (w_fs w2)) as Hl3 by apply (fs_entries _ _ Hs3).
  destruct (Z.ltb_spec rc3 0); [apply wp_ret, (Hbad _ _ []); [done..|by left|]|].
  { apply Hnone; [unfold w3; by rewrite fdev_at|done]. }
  destruct Hc3 as [[-> Hwr3]|]; [|lia]. apply wp_on_fcb. intros rc4 z Hz.
  unfold w3 in Hz. rewrite fdev_at in Hz. pose proof (fcb_append_finish_law loc rec _ Hm3 Hwr3) as [Hm4 Hc4].
  rewrite Hz in Hm4, Hc4. cbn [fst snd] in *. set (w4 := w3 <| w_fs := _ |>).
  assert (on_store w w4) as H04 by (etrans; [exact H03|done]).
  change (fcb_entries y.2) with (store_log (w_fs w3)) in Hc4. rewrite Hl3 in Hc4.
  change (fcb_entries z.2) with (store_log (w_fs w4)) in Hc4.
  assert (store_log (w_fs w4) = store_log (w_fs w2) ++ [rec] → feeds (w_fs w) (w_fs w4) [rec]) as Hone.
  { intros Hl. split; [intros _; unfold w4; by rewrite fdev_at|].
    apply (fed_trans _ (store_log (w_fs w2)) _ [] [rec]); [done|]. by rewrite Hl; split. }
  destruct Hc4 as [[-> Hl]|[Hneg [Hl|Hl]]].
  - apply Hok; [done|by apply Hone|]. by rewrite Hl, last_snoc.
  - apply (Hbad _ _ []); [done..|by left|]. apply Hnone; [unfold w4; by rewrite fdev_at|done].
  - apply (Hbad _ _ [rec]); [done..|by right|by apply Hone].
Qed.

(** ** Appending samples *)

(** The samples after new ones have been appended: all of them, but for the
    oldest where rollover makes room. *)
Definition grows (xs new ys : list zdb_ts_sample_i64_t) : Prop :=
  ys `suffix_of` xs ++ new ∧ (ZDB_TS_SEGMENTED = false → ys = xs ++ new).

Lemma grows_trans xs ys zs a b : grows xs a ys → grows ys b zs → grows xs (a ++ b) zs.
Proof.
  intros [[k Hk] W1] [S2 W2]. split.
  - etrans; [exact S2|]. exists k. by rewrite app_assoc, Hk, app_assoc.
  - intros HS. by rewrite W2, W1, app_assoc by done.
Qed.

Lemma grows_refl xs : grows xs [] xs.
Proof. split; by rewrite app_nil_r. Qed.

Lemma record_decodes x : sample_ok x → decode_pure ZDB_TS_STREAM_VERSION 0 (zdb_ts_record_encode x) = Some x.
Proof.
  intros Hx. rewrite <- (app_nil_r (zdb_ts_record_encode x)). by apply decode_pure_encode.
Qed.

Lemma feeds_holds s s' xs new :
  holds s xs → Forall sample_ok new → feeds s s' (map zdb_ts_record_encode new) →
  ∃ ys, holds s' ys ∧ grows xs new ys.
Proof.
  intros (_ & Hxs & Hl) Hnew [Hwf [Hsuf Hall]]. rewrite Hl, <- map_app in *.
  assert (Forall sample_ok (xs ++ new)) as Hok by (by apply Forall_app).
  destruct ZDB_TS_SEGMENTED eqn:HS.
  - apply suffix_map in Hsuf as (ys & [k Hk] & Hys). exists ys. split; [|by split; [exists k|rewrite HS]].
    split_and!; [done| |done]. rewrite Hk in Hok. by apply Forall_app in Hok as [_ ?].
  - exists (xs ++ new). split; [by split_and!; [..|apply Hall]|]. by split.
Qed.

Lemma holds_last s ys x :
  holds s ys → sample_ok x → last (store_log s) = Some (zdb_ts_record_encode x) → last ys = Some x.
Proof.
  intros (_ & Hok & ->) Hx Hl. destruct ys as [|y ys _] using rev_ind; [done|].
  rewrite map_app in Hl. cbn [map] in Hl. rewrite last_snoc in Hl; rewrite last_snoc. apply (inj Some) in Hl.
  apply Forall_app in Hok as [_ Hy%Forall_inv]. rewrite <- (record_decodes y Hy), Hl.
  by rewrite record_decodes.
Qed.

Lemma wp_append_sample x xs (Q : zdb_status_t → W → Prop) w :
  holds (w_fs w) xs → sample_ok x →
  (∀ st w' new ys, st ≠ ZDB_OK → on_store w w' → new = [] ∨ new = [x] → holds (w_fs w') ys →
     grows xs new ys → Q st w') →
  (∀ w' ys, on_store w w' → holds (w_fs w') ys → grows xs [x] ys → last ys = Some x → Q ZDB_OK w') →
  wp (fcb_append_sample x) Q w.
Proof.
  intros Hh Hx Hbad Hok. unfold fcb_append_sample. apply wp_bind, wp_fcb_record.
  - apply Hh.
  - apply length_record_encode.
  - intros rc w' recs Hrc Hon Hrecs Hf. rewrite (proj2 (Z.ltb_lt _ _) Hrc). apply wp_ret.
    assert (∃ new, (new = [] ∨ new = [x]) ∧ recs = map zdb_ts_record_encode new) as (new & Hnew & ->).
    { destruct Hrecs as [-> | ->]; [exists []|exists [x]]; auto. }
    destruct (feeds_holds _ (w_fs w') xs new Hh) as (ys & Hys & Hg); [by destruct Hnew as [-> | ->]; auto|done|].
    eapply Hbad; [by apply status_from_errno_neg|done..].
  - intros w' Hon Hf Hl. apply wp_ret. destruct (feeds_holds _ (w_fs w') xs [x] Hh) as (ys & Hys & Hg); [by auto|done|].
    eapply Hok; [done..|by eapply holds_last].
Qed.

Lemma wp_fcb_records samples xs (Q : zdb_status_t → W → Prop) w :
  holds (w_fs w) xs → Forall sample_ok samples →
  (∀ st w' new ys, on_store w w' → new `prefix_of` samples → holds (w_fs w') ys → grows xs new ys →
     (st = ZDB_OK → new = samples ∧ last ys = last (xs ++ samples)) → Q st w') →
  wp (fcb_append_batch samples) Q w.
Proof.
  intros Hh Hs. revert xs w Q Hh. induction Hs as [|x samples Hx Hs IH]; intros xs w Q Hh HQ; cbn [fcb_append_batch].
  { apply wp_ret, (HQ _ _ [] xs); [by destruct w|done|done|apply grows_refl|]. by rewrite app_nil_r. }
  apply wp_bind, (wp_append_sample x xs); [done..| |].
  - intros st w1 new ys Hst Hon Hnew Hys Hg. rewrite bool_decide_false by done. apply wp_ret.
    apply (HQ _ _ new ys); [done| |done..]. destruct Hnew as [-> | ->]; [apply prefix_nil|by exists samples].
  - intros w1 ys H1 Hys Hg Hl. rewrite bool_decide_true by done. apply (IH ys); [done|].
    intros st w2 new zs H2 Hpre Hzs Hg2 Hst.
    apply (HQ _ _ (x :: new) zs); [by etrans|by destruct Hpre as [k ->]; exists k|done|by apply (grows_trans xs ys zs [x] new)|].
    intros Hok. destruct (Hst Hok) as [-> Hlast]. split; [done|]. rewrite Hlast.
    rewrite !last_app, last_cons, Hl. by destruct (last samples).
Qed.

(** ** The calls *)

Lemma wp_fcb_alloc db (Q : bool → W → Prop) w :
  (∀ ok w', (∀ xs, holds (w_fs w) xs → holds (w_fs w') xs) → Q ok w') →
  wp (fcb_ctx_get_or_alloc db) Q w.
Proof.
  intros HQ. unfold fcb_ctx_get_or_alloc. apply wp_bind, wp_db_get, wp_bind.
  assert (wp (zdb_ts_ctx_get_or_alloc db) (λ _ w', w_fs w' = w_fs w) w) as Halloc.
  { unfold zdb_ts_ctx_get_or_alloc. destruct db; [|by apply wp_ret]. do 2 apply wp_bind, wp_db_get.
    destruct (core_slab (w_db w)), (cfg (w_db w)); try by apply wp_ret. apply wp_bind, wp_db_get.
    destruct (ts_ctx (w_db w)); [by apply wp_ret|]. apply wp_bind, wp_on_k. intros rc k' _.
    destruct (negb _); [by apply wp_ret|]. apply wp_bind, wp_on_k_, wp_bind, wp_db_set. by apply wp_ret. }
  eapply wp_mono; [exact Halloc|]. intros ok w' Hfs. apply wp_bind. destruct (_ && _).
  - apply wp_modify, wp_ret, HQ. intros xs (_ & Hok & Hl). split_and!; [done|done|].
    cbn. by rewrite Hfs.
  - apply wp_ret, wp_ret, HQ. by rewrite Hfs.
Qed.

Lemma wp_fcb_event t x st (Q : zdb_status_t → W → Prop) w :
  ts_db t = Some the_db → (∀ w', w_fs w' = w_fs w → Q st w') → wp (append_event t x st) Q w.
Proof.
  intros Ht HQ. unfold append_event. apply wp_bind, wp_ts_event; [done|].
  intros w' n []. by apply wp_ret, HQ.
Qed.

(** What an append that may store [samples] reports and leaves. *)
Definition appended (xs samples : list zdb_ts_sample_i64_t) (st : zdb_status_t) w : Prop :=
  ∃ new ys, holds (w_fs w) ys ∧ grows xs new ys ∧ new `prefix_of` samples ∧
    (st = ZDB_OK → new = samples ∧ last ys = last (xs ++ samples)).

Lemma appended_none xs samples st w :
  holds (w_fs w) xs → st ≠ ZDB_OK → appended xs samples st w.
Proof. intros Hh Hst. exists [], xs. split_and!; [done|apply grows_refl|apply prefix_nil|done]. Qed.

Lemma appended_fs xs samples st w w' :
  w_fs w' = w_fs w → appended xs samples st w → appended xs samples st w'.
Proof. unfold appended. by intros ->. Qed.

Lemma wp_fcb_append name x xs w :
  holds (w_fs w) xs → sample_ok x →
  wp (fcb_ts_append_i64 (handle name) (Some x)) (appended xs [x]) w.
Proof.
  intros Hh Hx. unfold fcb_ts_append_i64, handle. cbn [ts_db ts_stream_name].
  apply wp_bind, wp_fcb_alloc. intros ok w1 H1%(λ H, H xs Hh).
  destruct ok; cbn [negb]; [|by apply wp_ret, appended_none]. apply wp_bind, wp_db_get.
  destruct (zdb_ts_slot_find _ _); [|by apply wp_ret, appended_none].
  apply wp_bind, wp_ts_lock; cycle 1.
  { intros k2 _. rewrite bool_decide_false by done. by apply wp_ret, appended_none. }
  intros k2 _ _ _. rewrite bool_decide_true by done. cbn [negb].
  apply wp_bind, (wp_append_sample x xs); [done..| |].
  - intros st w3 new ys Hst _ Hnew Hys Hg.
    apply wp_bind, wp_ts_unlock. intros w4 _ Hf4 _ _ _ _. apply wp_fcb_event; [done|].
    intros w5 Hf5. apply (appended_fs _ _ _ w3); [by rewrite Hf5|]. exists new, ys.
    split_and!; [done..| |done]. destruct Hnew as [-> | ->]; [apply prefix_nil|done].
  - intros w3 ys _ Hys Hg Hl.
    apply wp_bind, wp_ts_unlock. intros w4 _ Hf4 _ _ _ _. apply wp_fcb_event; [done|].
    intros w5 Hf5. apply (appended_fs _ _ _ w3); [by rewrite Hf5|]. exists [x], ys.
    split_and!; [done..|]. intros _. by rewrite last_snoc.
Qed.

Lemma wp_fcb_batch name x samples xs w :
  holds (w_fs w) xs → Forall sample_ok (x :: samples) →
  wp (fcb_ts_append_batch_i64 (handle name) (Some (x :: samples))) (appended xs (x :: samples)) w.
Proof.
  intros Hh Hx. unfold fcb_ts_append_batch_i64, handle. cbn [ts_db ts_stream_name].
  apply wp_bind, wp_fcb_alloc. intros ok w1 H1%(λ H, H xs Hh).
  destruct ok; cbn [negb]; [|by apply wp_ret, appended_none].
  apply wp_bind, wp_ts_lock; cycle 1.
  { intros k2 _. rewrite bool_decide_false by done. by apply wp_ret, appended_none. }
  intros k2 _ _ _. rewrite bool_decide_true by done. cbn [negb]. apply wp_bind, wp_db_get.
  destruct (zdb_ts_slot_find _ _); cycle 1.
  { apply wp_bind, wp_ts_unlock. intros w3 _ Hf3 _ _ _ _. apply wp_ret, appended_none; [|done].
    by rewrite Hf3. }
  apply wp_bind, (wp_fcb_records (x :: samples) xs); [done..|].
  intros st w3 new ys _ Hnew Hys Hg Hst.
  apply wp_bind, wp_ts_unlock. intros w4 _ Hf4 _ _ _ _. apply wp_fcb_event; [done|].
  intros w5 Hf5. apply (appended_fs _ _ _ w3); [by rewrite Hf5|]. by exists new, ys.
Qed.

(** ** Walking the log *)

Context {Live : FcbLive B D Sec L}.

(** A world in which the log can be read. *)
Record fcb_ready w : Prop := {
  rd_mounted : fcb_mounted (fdev (w_fs w));
  rd_ctx : is_Some (ts_ctx (w_db w));
  rd_cfg : is_Some (cfg (w_db w));
  rd_core : is_Some (core_slab (w_db w));
}.

Record fcb_serving (xs : list zdb_ts_sample_i64_t) w : Prop := {
  sv_mounted : fcb_mounted (fdev (w_fs w));
  sv_holds : holds (w_fs w) xs;
  sv_ctx : is_Some (ts_ctx (w_db w));
  sv_cfg : is_Some (cfg (w_db w));
  sv_core : is_Some (core_slab (w_db w));
}.

Lemma fcb_ready_serving xs w : fcb_ready w → holds (w_fs w) xs → fcb_serving xs w.
Proof. by intros [] ?. Qed.

(** ** A device that one stream writes to *)

(** From an empty log to [w], the stream [name] was the only one whose appends
    reached the log, and they succeeded; [given] is what it was given. Anything
    else may have happened that leaves the log alone. *)
Inductive sole_writer (name : cstring) : list zdb_ts_sample_i64_t → W → Prop :=
  | sole_empty w : holds (w_fs w) [] → sole_writer name [] w
  | sole_append given x w w' :
      sole_writer name given w → sample_ok x →
      fcb_ts_append_i64 (handle name) (Some x) w = (ZDB_OK, w') → sole_writer name (given ++ [x]) w'
  | sole_batch given x xs w w' :
      sole_writer name given w → Forall sample_ok (x :: xs) →
      fcb_ts_append_batch_i64 (handle name) (Some (x :: xs)) w = (ZDB_OK, w') →
      sole_writer name (given ++ x :: xs) w'
  | sole_else given w w' :
      sole_writer name given w → store_wf (w_fs w') → store_log (w_fs w') = store_log (w_fs w) →
      sole_writer name given w'.

(** What the log then holds. *)
Definition newest_of (given xs : list zdb_ts_sample_i64_t) : Prop :=
  xs `suffix_of` given ∧ last xs = last given ∧ (ZDB_TS_SEGMENTED = false → xs = given).

Lemma newest_of_app given xs new ys :
  newest_of given xs → grows xs new ys → last ys = last (xs ++ new) → newest_of (given ++ new) ys.
Proof.
  intros ([k Hk] & Hl & Hw) [[k' Hk'] Hw'] Hlast. split_and!.
  - exists (k ++ k'). by rewrite Hk, <- app_assoc, Hk', app_assoc.
  - by rewrite Hlast, !last_app, Hl.
  - intros HS. by rewrite Hw', Hw by done.
Qed.

Lemma sole_writer_holds name given w :
  sole_writer name given w → ∃ xs, holds (w_fs w) xs ∧ newest_of given xs.
Proof.
  induction 1 as [w Hh|given x w w' _ (xs & Hh & Hn) Hx Hrun|given x samples w w' _ (xs & Hh & Hn) Hx Hrun
    |given w w' _ (xs & (_ & Hok & Hl) & Hn) Hwf Hlog].
  - by exists [].
  - pose proof (wp_fcb_append name x xs w Hh Hx) as Happ. unfold wp in Happ. rewrite Hrun in Happ.
    destruct Happ as (new & ys & Hys & Hg & _ & Hst). destruct (Hst eq_refl) as [-> Hlast].
    exists ys. split; [done|]. by eapply newest_of_app.
  - pose proof (wp_fcb_batch name x samples xs w Hh Hx) as Happ. unfold wp in Happ. rewrite Hrun in Happ.
    destruct Happ as (new & ys & Hys & Hg & _ & Hst). destruct (Hst eq_refl) as [-> Hlast].
    exists ys. split; [done|]. by eapply newest_of_app.
  - exists xs. split; [|done]. split_and!; [done..|congruence].
Qed.

(** ** The walk *)

(** Neither the instance nor the log changed. *)
Record fcb_quiet w w' : Prop := {
  fq_db : w_db w' = w_db w;
  fq_init : fcb_initialized (w_fs w') = fcb_initialized (w_fs w);
  fq_same : fcb_same (fdev (w_fs w)) (fdev (w_fs w'));
}.

#[global] Instance fcb_quiet_preorder : PreOrder fcb_quiet.
Proof. split; [by intros w|]. intros w1 w2 w3 [] []. split; [congruence..|by etrans]. Qed.

Lemma fcb_quiet_k w k' : fcb_quiet w (w <| w_k := k' |>).
Proof. by split. Qed.

Lemma fcb_serving_quiet xs w w' : fcb_serving xs w → fcb_quiet w w' → fcb_serving xs w'.
Proof.
  intros [Hm (Hwf & Hok & Hl) Hx Hc Hs] [Hd Hi Hq].
  assert (fcb_mounted (fdev (w_fs w'))) as Hm' by (by eapply fs_mounted).
  split; [done| |by rewrite Hd..]. split_and!; [by intros _|done|].
  rewrite <- Hl. apply (fs_entries _ _ Hq).
Qed.

(** The entries ahead of a cursor. *)
Definition fcb_pos w cc : list (list byte) :=
  if fcb_started (cc_file cc) then fcb_ahead (fdev (w_fs w)) (fcb_loc (cc_file cc))
  else store_log (w_fs w).

Lemma fcb_pos_quiet w w' cc : fcb_quiet w w' → fcb_pos w' cc = fcb_pos w cc.
Proof.
  intros [_ _ Hq]. unfold fcb_pos. destruct (fcb_started _); [apply (fs_ahead _ _ Hq)|].
  apply (fs_entries _ _ Hq).
Qed.

(** What a read leaves of a cursor's context. *)
Definition fcb_walk_key cc := (cc_db cc, window cc, length (cache cc)).

Lemma on_fcb_quiet w y : fcb_same (fdev (w_fs w)) y → fcb_quiet w (w <| w_fs := put_dev (w_fs w) y |>).
Proof. intros Hs. split; [done..|]. by rewrite fdev_at. Qed.

Lemma wp_read_record cc rest (Q : zdb_status_t * option (list byte) * walk → W → Prop) w :
  fcb_mounted (fdev (w_fs w)) → length (cache cc) = sizeof_record_i64 →
  fcb_pos w cc = rest → Forall (λ e, length e = sizeof_record_i64) rest →
  (∀ cc' w', rest = [] → fcb_quiet w w' → Q (zdb_status_from_errno fcb_end_errno, None, cc') w') →
  (∀ e rest' cc' w', rest = e :: rest' → fcb_quiet w w' → fcb_walk_key cc' = fcb_walk_key cc →
     fcb_pos w' cc' = rest' → Q (ZDB_OK, Some e, cc') w') →
  wp (zdb_ts_fcb_cursor_read_record true cc true) Q w.
Proof.
  intros Hm Hc Hpos Hlen Hend Hok. unfold zdb_ts_fcb_cursor_read_record. cbn [negb orb]. cbv zeta.
  set (cc1 := if fcb_started (cc_file cc) then cc else _).
  assert (fcb_walk_key cc1 = fcb_walk_key cc) as Hkey by (unfold cc1; by destruct (fcb_started _)).
  assert (fcb_started (cc_file cc1) = true) as Hst1 by (unfold cc1; by destruct (fcb_started (cc_file cc)) eqn:Hst).
  assert (fcb_ahead (fdev (w_fs w)) (fcb_loc (cc_file cc1)) = rest) as Hah.
  { rewrite <- Hpos. unfold fcb_pos, cc1. destruct (fcb_started _); [done|by apply fcb_ahead_zero]. }
  assert (length (cache cc1) = sizeof_record_i64) as Hc1 by (injection Hkey; congruence).
  clearbody cc1. apply wp_bind, wp_on_fcb. intros [rc loc] y Hy.
  pose proof (fcb_getnext_law (fcb_loc (cc_file cc1)) _ Hm) as [Hs Hn].
  pose proof (fcb_getnext_live (fcb_loc (cc_file cc1)) _ Hm) as Hl. rewrite Hah in Hn, Hl.
  rewrite Hy in Hs, Hn, Hl. cbn [fst snd] in *. pose proof (on_fcb_quiet _ _ Hs) as Hq.
  set (w1 := w <| w_fs := _ |>) in *. pose proof fcb_end_law as Hneg.
  destruct rest as [|e rest].
  { subst rc. rewrite (proj2 (Z.ltb_lt _ _) Hneg). apply wp_ret.
    destruct (Z.eqb_spec fcb_end_errno (- ENOENT)) as [Hen|_]; [|by apply Hend].
    replace ZDB_ERR_NOT_FOUND with (zdb_status_from_errno fcb_end_errno) by (by rewrite Hen).
    by apply Hend. }
  subst rc. destruct Hn as [(_ & Hdl & Hrest & Hat)|]; [|lia].
  apply Forall_cons in Hlen as [He _]. change (0 <? 0)%Z with false. cbn iota.
  rewrite Hdl, He, Nat.eqb_refl. cbn [negb]. apply wp_bind, wp_on_fcb. intros [rc data] z Hz.
  assert (fcb_mounted y) as Hmy by (by eapply fs_mounted).
  assert (fcb_at y loc = Some e) as Haty by (by rewrite (fs_at _ _ Hs)).
  pose proof (flash_read_law loc e y Hmy Haty) as [Hs2 Hr].
  pose proof (flash_read_live loc e y Hmy Haty) as Hr0.
  rewrite Hdl, He in Hs2, Hr, Hr0. unfold w1 in Hz. rewrite fdev_at in Hz. rewrite Hz in Hs2, Hr, Hr0.
  cbn [fst snd] in *. subst rc. destruct Hr as [[= ->]|]; [|lia]. change (0 <? 0)%Z with false. cbn iota.
  assert (fcb_quiet w1 (w1 <| w_fs := put_dev (w_fs w1) z |>)) as Hq2.
  { apply on_fcb_quiet. unfold w1. by rewrite fdev_at. }
  assert (buf_write (cache cc1) 0 e = e) as Hbuf.
  { unfold buf_write. rewrite take_0, drop_ge by lia. apply app_nil_r. }
  apply wp_ret. set (cc2 := cc1 <| cc_file ::= _ |>). change (cache cc2) with (cache cc1). rewrite Hbuf.
  change (cache (cc2 <| cache := e |>)) with e. rewrite take_ge by lia. eapply Hok; [done|by etrans| |].
  - rewrite <- Hkey. unfold fcb_walk_key. cbn. by rewrite He, Hc1.
  - rewrite (fcb_pos_quiet _ _ _ Hq2), (fcb_pos_quiet _ _ _ Hq). unfold fcb_pos. cbn. by rewrite Hst1.
Qed.

(** A sample with the record that stores it. *)
Definition fcb_entry (x : zdb_ts_sample_i64_t) : entry := (zdb_ts_record_encode x, x).

Lemma wp_record_decode x (Q : zdb_status_t * option zdb_ts_sample_i64_t → W → Prop) w :
  sample_ok x → Q (ZDB_OK, Some x) w →
  wp (zdb_ts_record_decode (Some the_db) (Some (zdb_ts_record_encode x))) Q w.
Proof.
  intros Hx HQ.
  assert (zdb_ts_record_decode (Some the_db) (Some (zdb_ts_record_encode x)) =
          @zdb_ts_record_decode_as _ K F store _ _ (Some the_db) ZDB_TS_STREAM_VERSION 0
            (zdb_ts_record_encode x)) as ->.
  { unfold zdb_ts_record_decode_as. change (negb (ZDB_TS_STREAM_VERSION =? ZDB_TS_STREAM_VERSION_V2)%Z) with true. cbn iota.
    by rewrite take_ge by (by rewrite length_record_encode). }
  pose proof (record_decodes x Hx) as Hd. apply wp_decode_as; intros *; rewrite Hd; [|done].
  by intros [= <-].
Qed.

(** What stepping keeps of a cursor. *)
Definition fcb_kin cu cu' : Prop := kin cu cu' ∧ cu_backend cu' = cu_backend cu.

#[global] Instance fcb_kin_preorder : PreOrder fcb_kin.
Proof. split; [done|]. intros c1 c2 c3 [? ?] [? ?]. split; [by etrans|congruence]. Qed.

Definition end_status : zdb_status_t := zdb_status_from_errno fcb_end_errno.

Lemma wp_fcb_loop fuel cu cc rest (Q : option (zdb_status_t * option (list byte) * fcur) → W → Prop) w :
  fcb_mounted (fdev (w_fs w)) → cc_db cc = Some the_db → length (cache cc) = sizeof_record_i64 →
  fcb_pos w cc = map zdb_ts_record_encode rest → Forall sample_ok rest → length rest < fuel →
  let found := seek (λ x, admits (window cc) (cu_predicate cu) (fcb_entry x)) rest in
  (∀ cu' cc' w', found = None → fcb_quiet w w' →
     Q (Some (end_status, None, with_walk cu' cc')) w') →
  (∀ x rest' cu' cc' w', found = Some (x, rest') → fcb_quiet w w' →
     fcb_kin cu cu' → fcb_walk_key cc' = fcb_walk_key cc → Forall sample_ok rest' →
     fcb_pos w' cc' = map zdb_ts_record_encode rest' → told cc' x →
     Q (Some (ZDB_OK, Some (zdb_ts_record_encode x), with_walk cu' cc')) w') →
  wp (fcb_loop fuel cu cc) Q w.
Proof.
  cbv zeta. revert cu cc rest w.
  induction fuel as [|fuel IH]; intros cu cc rest w Hm Hdb Hc Hpos Hrest Hfuel Hend Hok; [lia|].
  cbn [fcb_loop]. apply wp_bind. eapply wp_read_record; [done|done|exact Hpos| | |].
  { apply Forall_map, Forall_true. intros x. apply length_record_encode. }
  { intros cc' w' Hr Hq. destruct rest; [|done]. fold end_status.
    assert (end_status ≠ ZDB_OK) as Hne by (apply status_from_errno_neg, fcb_end_law).
    pose proof (Hend cu cc' w' eq_refl Hq) as Hfin. by destruct end_status. }
  intros e rest' cc1 w1 Hr Hq1 Hk1 Hpos1. destruct rest as [|x rest]; [done|]. injection Hr as <- <-.
  apply Forall_cons in Hrest as [Hx Hrest]. injection Hk1 as Hdb1 Hwin1 Hc1. rewrite Hdb1, Hdb.
  apply wp_bind, wp_record_decode; [done|]. apply wp_bind, wp_consider_k. intros k2 cu2 _ Hkin Hbe.
  cbv zeta. rewrite Hwin1. cbn [seek] in Hend, Hok. change (zdb_ts_record_encode x, x) with (fcb_entry x).
  assert (fcb_quiet w (w1 <| w_k := k2 |>)) as Hq2 by (etrans; [exact Hq1|apply fcb_quiet_k]).
  destruct (admits _ _ (fcb_entry x)) eqn:Ha.
  - apply wp_ret. eapply Hok; [done|done|by split| |exact Hrest|exact Hpos1|done].
    unfold fcb_walk_key. cbn. congruence.
  - pose proof Hkin as [_ Hpred]. cbn [length] in Hfuel.
    eapply (IH _ _ rest); [by eapply fs_mounted; [apply (fq_same _ _ Hq2)|]|congruence|congruence|exact Hpos1|done|lia|..];
      rewrite Hwin1, Hpred.
    + intros cu3 cc3 w3 Hs Hq3. apply Hend; [done|by etrans].
    + intros y rest3 cu3 cc3 w3 Hs Hq3 Hk3 Hw3 Hr3 Hp3 Ht.
      eapply Hok; [exact Hs|by etrans|etrans; [by split|exact Hk3]| |done|done|done].
      rewrite Hw3. unfold fcb_walk_key. congruence.
Qed.

(** A cursor with the samples [rest] ahead of it. *)
Definition fcb_walking (wi : zdb_ts_window_t) (p : option zdb_predicate_fn) w cu
    (rest : list zdb_ts_sample_i64_t) : Prop :=
  ∃ cc, cu_model cu = ZDB_MODEL_TS ∧ cu_backend cu = ZDB_BACKEND_FCB ∧ cu_predicate cu = p ∧
    cu_impl cu = Some cc ∧ fcb_walk_key cc = (Some the_db, wi, sizeof_record_i64) ∧
    Forall sample_ok rest ∧ fcb_pos w cc = map zdb_ts_record_encode rest.

Lemma wp_fcb_alloc_present (Q : bool → W → Prop) xs w :
  fcb_serving xs w → Q true w → wp (fcb_ctx_get_or_alloc (Some the_db)) Q w.
Proof.
  intros [_ _ Hx Hc Hs] HQ. unfold fcb_ctx_get_or_alloc. apply wp_bind, wp_db_get, wp_bind, wp_ctx_ready; [done..|].
  cbn [andb negb]. rewrite bool_decide_true by done. by apply wp_ret.
Qed.

Lemma wp_fcb_next_sample fuel wi p cu xs rest
    (Q : option (zdb_status_t * option zdb_ts_sample_i64_t * option fcur) → W → Prop) w :
  fcb_serving xs w → fcb_walking wi p w cu rest → length rest < fuel →
  let found := seek (λ x, admits wi p (fcb_entry x)) rest in
  (∀ cu' w', found = None → fcb_quiet w w' → Q (Some (end_status, None, Some cu')) w') →
  (∀ x rest' cu' w', found = Some (x, rest') → fcb_quiet w w' →
     fcb_walking wi p w' cu' rest' → Q (Some (ZDB_OK, Some x, Some cu')) w') →
  wp (fcb_cursor_next_sample fuel (Some cu) true) Q w.
Proof.
  cbv zeta. intros Hsv (cc & Hmo & Hbe & <- & Hi & [= Hdb <- Hc] & Hrest & Hpos) Hfuel Hend Hok.
  unfold fcb_cursor_next_sample, fcb_cursor_next. cbn [negb].
  rewrite Hmo, bool_decide_true, Hi, Hbe, Hdb by done.
  do 2 apply wp_bind. eapply wp_fcb_alloc_present; [done|]. cbn [negb].
  apply wp_bind. eapply wp_fcb_loop; [apply Hsv|done..| |].
  - intros cu' cc' w' Hs Hq. apply wp_ret, wp_ret.
    assert (end_status ≠ ZDB_OK) as Hne by (apply status_from_errno_neg, fcb_end_law).
    pose proof (Hend (with_walk cu' cc') w' Hs Hq) as Hfin. cbn. by destruct end_status.
  - intros x rest' cu' cc' w' Hs Hq [[Km Kp] Kb] Hk Hr' Hp' [Ht Hv]. apply wp_ret, wp_ret.
    cbn. rewrite Ht, Hv. destruct x as [t v]. eapply Hok; [done|done|].
    exists cc'. cbn. split_and!; [congruence..|done| |done|done].
    rewrite Hk. unfold fcb_walk_key. congruence.
Qed.

(** The loop of a client: ask for samples until there is none. *)
Fixpoint fcb_collect (n fuel : nat) cu : M W (option (zdb_status_t * list zdb_ts_sample_i64_t)) :=
  match n with
  | 0 => ret None
  | S n =>
      r ← fcb_cursor_next_sample fuel (Some cu) true;
      match r with
      | Some (ZDB_OK, Some x, Some cu) =>
          r ← fcb_collect n fuel cu;
          ret ((λ r, (r.1, x :: r.2)) <$> r)
      | Some (st, _, _) => ret (Some (st, []))
      | None => ret None
      end
  end.

(** The samples a window and a predicate admit. *)
Definition admitted wi p (xs : list zdb_ts_sample_i64_t) : list zdb_ts_sample_i64_t :=
  List.filter (λ x, admits wi p (fcb_entry x)) xs.

Lemma admitted_seek wi p xs :
  admitted wi p xs =
  match seek (λ x, admits wi p (fcb_entry x)) xs with
  | Some (x, rest) => x :: admitted wi p rest
  | None => []
  end.
Proof. apply seek_filter. Qed.

Lemma wp_fcb_collect n fuel wi p cu xs rest
    (Q : option (zdb_status_t * list zdb_ts_sample_i64_t) → W → Prop) w :
  fcb_serving xs w → fcb_walking wi p w cu rest → length rest < fuel → length rest < n →
  (∀ w', fcb_quiet w w' → Q (Some (end_status, admitted wi p rest)) w') →
  wp (fcb_collect n fuel cu) Q w.
Proof.
  revert cu rest w Q. induction n as [|n IH]; intros cu rest w Q Hsv Hw Hfuel Hn HQ; [lia|].
  cbn [fcb_collect]. rewrite admitted_seek in HQ. apply wp_bind. eapply wp_fcb_next_sample; [done..| |].
  - intros cu' w' Hs Hq. rewrite Hs in HQ. assert (end_status ≠ ZDB_OK) as Hne by (apply status_from_errno_neg, fcb_end_law).
    specialize (HQ w' Hq). by destruct end_status.
  - intros x rest' cu' w' Hs Hq Hw'. rewrite Hs in HQ. pose proof (seek_length _ _ _ _ Hs) as Hlt.
    apply wp_bind. eapply IH; [by eapply fcb_serving_quiet|done|lia..|].
    intros w2 Hq2. apply wp_ret, HQ. by etrans.
Qed.

(** A cursor just opened has the whole log ahead of it. *)
Lemma wp_fcb_cursor_open name wi p out xs (Q : zdb_status_t * option fcur → W → Prop) w :
  fcb_serving xs w →
  (∀ st o w', st ≠ ZDB_OK → Q (st, o) w') →
  (∀ cu w', fcb_serving xs w' → fcb_walking wi p w' cu xs → Q (ZDB_OK, Some cu) w') →
  wp (fcb_ts_cursor_open (handle name) wi p (Some out)) Q w.
Proof.
  intros Hsv Hbad HQ. unfold fcb_ts_cursor_open, fcb_cursor_open_dir, handle. cbn [ts_db].
  apply wp_bind, wp_db_get. destruct (cursor_slab (w_db w)) as [sl|]; [|by apply wp_ret, Hbad].
  apply wp_bind, wp_on_k. intros rc k' _. destruct (negb _); [by apply wp_ret, Hbad|]. apply wp_ret.
  assert (fcb_serving xs (w <| w_k := k' |>)) as Hsv' by (eapply fcb_serving_quiet; [done|apply fcb_quiet_k]).
  pose proof (sv_holds _ _ Hsv) as (_ & Hok & Hl). unfold fcb_cursor_reset. cbn.
  destruct (CONFIG_ZDB_TS && bool_decide _); (apply HQ; [done|]); eexists;
    (split_and!; [done|done|done|reflexivity|done|exact Hok|exact Hl]).
Qed.

(** Opening a cursor and asking for samples to the end. *)
Lemma wp_fcb_walk name wi p out xs n fuel w :
  fcb_serving xs w → length xs < fuel → length xs < n →
  wp (fcb_ts_cursor_open (handle name) wi p (Some out))
    (λ r w', r.1 = ZDB_OK → ∃ cu, r.2 = Some cu ∧
       wp (fcb_collect n fuel cu) (λ r' _, r' = Some (end_status, admitted wi p xs)) w') w.
Proof.
  intros Hsv Hfuel Hn. eapply wp_fcb_cursor_open; [done| |].
  - intros st o w' Hst. done.
  - intros cu w' Hsv' Hw _. exists cu. split; [done|]. eapply wp_fcb_collect; [done..|]. by intros.
Qed.
End spec.
