(* ===== verification/TsAggSpec.v ===== *)
(** * Aggregates over a stream

    [aggregate agg xs] is the reference: what an aggregate of the values [xs]
    is, without streams or cursors. The rules of this file show that
    [zdb_ts_query_aggregate] computes it, by a walk, or for the number of all
    samples by counting the records of the files and of the buffer. *)

From S2P Require Import Prelude Config Doubles Env Types FsEnv FsSpec Events CoreSpec Cursor TsFormat.
From S2P Require Import TsFormatSpec TsSpec TsStore TsSegment TsCursor TsOps TsFileSpec TsInv TsStream.
From S2P Require Import TsFlushSpec TsAppendSpec TsCursorSpec TsWalkSpec.

(** ** The reference *)

Section reference.
Context {Cfg : Config}.

(** A fold of a binary operation without a unit, from the first value. *)
Definition fold1 (f : double → double → double) (xs : list double) : option double :=
  match xs with [] => None | x :: xs => Some (fold_left f xs x) end.

Definition d_min (a x : double) : double := if d_lt x a then x else a.
Definition d_max (a x : double) : double := if d_lt a x then x else a.

(** The samples an aggregate looks at: all of them to count, else the first
    [CONFIG_ZDB_TS_MAX_AGG_POINTS]. *)
Definition agg_looks (agg : zdb_ts_agg_t) {A} (xs : list A) : list A :=
  if bool_decide (agg = ZDB_TS_AGG_COUNT) then xs else take CONFIG_ZDB_TS_MAX_AGG_POINTS xs.

Definition agg_value (agg : zdb_ts_agg_t) (xs : list double) : option double :=
  match agg with
  | ZDB_TS_AGG_COUNT => Some (d_of_Z (length xs))
  | ZDB_TS_AGG_MIN => fold1 d_min xs
  | ZDB_TS_AGG_MAX => fold1 d_max xs
  | ZDB_TS_AGG_SUM => fold1 d_add xs
  | ZDB_TS_AGG_AVG => (λ s, d_div s (d_of_Z (length xs))) <$> fold1 d_add xs
  end.

(** The aggregate of the values of the samples, [None] when there is none. *)
Definition aggregate (agg : zdb_ts_agg_t) (vs : list Z) : option zdb_ts_agg_result_t :=
  let xs := map d_of_Z (agg_looks agg vs) in
  (λ v, {| ar_agg := agg; ar_value := v; ar_points := length xs;
           ar_truncated := length (agg_looks agg vs) <? length vs |}) <$> agg_value agg xs.

(** The fold that keeps whichever of two is better: [better] is a strict order. *)
Section best.
Context (better : double → double → bool).
Context (Hirr : ∀ a, better a a = false).
Context (Htrans : ∀ a b c, better a b = true → better b c = true → better a c = true).
Abbreviation best := (fold_left (λ a x, if better x a then x else a)).

Lemma best_first xs a : best xs a = a ∨ better (best xs a) a = true.
Proof.
  revert a. induction xs as [|x xs IH]; intros a; [by left|]. cbn [fold_left].
  destruct (better x a) eqn:Hx; [|apply IH]. right.
  destruct (IH x) as [->|Hb]; [done|by eapply Htrans].
Qed.

Lemma best_spec xs a : best xs a ∈ a :: xs ∧ Forall (λ x, better x (best xs a) = false) (a :: xs).
Proof.
  assert (∀ a m y, m = a ∨ better m a = true → better y a = false → better y m = false) as Hnb.
  { intros a' m y [->|Hm] Hy; [done|]. apply not_true_is_false. intros Hc.
    by rewrite (Htrans _ _ _ Hc Hm) in Hy. }
  revert a. induction xs as [|x xs IH]; intros a; cbn [fold_left].
  { split; [by left|by repeat constructor]. }
  destruct (better x a) eqn:Hx.
  - destruct (IH x) as [Hin Hall]. split; [by right|]. constructor; [|done].
    apply (Hnb x _ _ (best_first xs x)). apply not_true_is_false. intros Hc.
    pose proof (Hirr a) as Ha. by rewrite (Htrans _ _ _ Hc Hx) in Ha.
  - destruct (IH a) as [Hin Hall]. apply Forall_cons in Hall as [Ha Hall]. split.
    + rewrite !elem_of_cons in *. tauto.
    + repeat constructor; [done| |done]. by apply (Hnb a _ _ (best_first xs a)).
Qed.
End best.

(** The least and the greatest of the values, in the order of [double]. *)
Lemma fold_min xs a :
  let m := fold_left d_min xs a in m ∈ a :: xs ∧ Forall (λ x, d_lt x m = false) (a :: xs).
Proof. apply (best_spec d_lt d_lt_irrefl d_lt_trans). Qed.

Lemma fold_max xs a :
  let m := fold_left d_max xs a in m ∈ a :: xs ∧ Forall (λ x, d_lt m x = false) (a :: xs).
Proof.
  apply (best_spec (λ a b, d_lt b a) d_lt_irrefl). intros x y z Hxy Hyz. by eapply d_lt_trans.
Qed.

(** The loop's fold, from what it has so far. *)
Definition agg_fold (agg : zdb_ts_agg_t) (xs : list double) (points : Z) (acc : double) : Z * double :=
  fold_left (λ pa x, zdb_ts_agg_update agg x pa.1 pa.2) xs (points, acc).

Definition agg_op (agg : zdb_ts_agg_t) : double → double → double :=
  match agg with
  | ZDB_TS_AGG_MIN => d_min
  | ZDB_TS_AGG_MAX => d_max
  | ZDB_TS_AGG_AVG | ZDB_TS_AGG_SUM => d_add
  | ZDB_TS_AGG_COUNT => λ a _, a
  end.

Lemma agg_fold_some agg xs points acc :
  (0 < points)%Z → (points + length xs < 2 ^ 32)%Z →
  agg_fold agg xs points acc = (points + length xs, fold_left (agg_op agg) xs acc)%Z.
Proof.
  unfold agg_fold. revert points acc. induction xs as [|x xs IH]; intros points acc Hp Hlt; cbn [fold_left length].
  { f_equal. lia. }
  cbn [length] in Hlt. unfold zdb_ts_agg_update at 2. cbn [fst snd].
  rewrite (proj2 (Z.eqb_neq _ _)) by lia. unfold u32. rewrite Z.mod_small by lia.
  rewrite IH by lia. f_equal; [lia|]. by destruct agg.
Qed.

Lemma agg_fold_start agg x xs acc :
  (Z.of_nat (length (x :: xs)) < 2 ^ 32)%Z →
  agg_fold agg (x :: xs) 0 acc = (Z.of_nat (length (x :: xs)), fold_left (agg_op agg) xs x).
Proof.
  intros Hlt. cbn [length] in Hlt. change (agg_fold agg (x :: xs) 0 acc) with (agg_fold agg xs 1 x).
  rewrite agg_fold_some by lia. f_equal. cbn [length]. lia.
Qed.

Lemma length_looks agg {A} (xs : list A) : length (agg_looks agg xs) ≤ length xs.
Proof. unfold agg_looks. case_bool_decide; [done|]. rewrite length_take. lia. Qed.
End reference.

Section agg.
Context {Cfg : Config} {CfgOk : ConfigOk Cfg} {K F FS FH DH : Type}.
Context `{!Kernel K, !KernelLaws K, !FileSys FS FH DH, !FileSysLaws FS FH DH}.
Context {CRC : Crc32} {CRCLaws : Crc32Laws} {Live : FsLive FS FH DH} (Hlive : LockLive K).
Abbreviation W := (world K F FS).
Abbreviation cursor := (zdb_cursor_t FH).
Implicit Types (w : W) (cu : cursor).

Context (c : option zdb_cfg_t) (fs : gmap (list byte) (list byte)) (name : cstring) (lo hi : Z).
Context (Hread : readable_segs c fs name lo hi).
Context (i : nat) (s : zdb_ts_stream_ctx) (Hbuf : buffer_ok s).
Context (Hok : stream_ok c fs s) (Hname : st_name s = name) (Hlo : oldest_seg s = lo) (Hhi : cur_seg s = hi).
Abbreviation serving := (serving c fs name i s).
Abbreviation walking := (walking c fs name lo hi s).

(** ** Counting records *)

Lemma records_in_count d v :
  length d = zdb_ts_hdr_size_for v + rec_count d v * zdb_ts_rec_size_for v →
  records_in (length d) (zdb_ts_hdr_size_for v) (zdb_ts_rec_size_for v) = rec_count d v.
Proof.
  intros Hl. unfold records_in, rec_count. destruct (Nat.ltb_spec (zdb_ts_hdr_size_for v) (length d)); [done|].
  replace (length d - zdb_ts_hdr_size_for v) with 0 by lia. by rewrite Nat.Div0.div_0_l.
Qed.

Lemma wp_count_file n (Q : Z * nat → W → Prop) w :
  (lo ≤ n ≤ hi)%Z → serving w →
  (∀ rc w', serving w' → (is_Some (fs !! stream_file c name n) → rc = 0%Z) →
     Q (rc, length (seg_entries c fs name n)) w') →
  wp (count_file (stream_handle name) (stream_file c name n)) Q w.
Proof.
  intros Hn Hsv HQ. pose proof Hsv as [_ [_ Hf] _ _]. unfold count_file, seg_entries in *.
  destruct (fs !! stream_file c name n) as [d|] eqn:Hd.
  - destruct (rs_files _ _ _ _ _ Hread n d Hn Hd) as (v & base & Hr).
    destruct (readable_layout _ _ _ _ Hr) as (_ & Hlen & Hent).
    apply wp_bind. eapply wp_live_stat; [by rewrite Hf|]. intros e fs1 Hf1 Hsz.
    change (negb (0 =? 0)%Z) with false. cbn iota.
    assert (quiet w (w <| w_fs := fs1 |>)) as Q1 by (by apply quiet_fs).
    apply wp_bind. eapply wp_learn_layout_live; [by rewrite (qu_files _ _ Q1), Hf|apply Hr|]. intros w2 Q2.
    rewrite bool_decide_true by done. apply wp_ret. cbn [hdr_size rec_size].
    match goal with |- Q (_, ?x) _ => assert (x = rec_count d v) as -> end.
    { rewrite Hsz. by apply records_in_count. }
    rewrite <- Hent. apply HQ; [|done]. eapply serving_quiet; [exact Hsv|by etrans].
  - assert (∀ fs', fs_files fs' = files w → serving (w <| w_fs := fs' |>)) as Hsv'.
    { intros fs' Hfs. eapply serving_quiet; [exact Hsv|by apply quiet_fs]. }
    apply wp_bind, wp_fs_stat.
    + intros rc e fs1 Hrc Hf1 _. rewrite (proj2 (Z.eqb_neq rc 0)) by lia. apply wp_ret, HQ; [by apply Hsv'|].
      by intros [].
    + intros e fs1 Hf1 _. change (negb (0 =? 0)%Z) with false. cbn iota.
      unfold zdb_ts_cursor_learn_layout. cbv zeta. apply wp_bind, wp_bind, wp_fs_open.
      * intros rc fh fs2 Hrc Hf2 _. rewrite (proj2 (Z.ltb_lt rc 0)) by done. apply wp_ret.
        rewrite bool_decide_false by (rewrite status_from_errno_ok; lia). apply wp_ret, HQ; [|done].
        eapply serving_quiet; [by apply (Hsv' fs1)|by apply quiet_fs].
      * intros fh fs2 d _ Hop _. change (files (w <| w_fs := fs1 |>)) with (fs_files fs1) in Hop.
        rewrite Hf1, Hf, Hd in Hop. done.
Qed.

Lemma wp_count_segments ns flushed (Q : Z + nat → W → Prop) w :
  ZDB_TS_SEGMENTED = true → serving w → Forall (λ n, lo ≤ n ≤ hi)%Z ns →
  (∀ w', serving w' → Q (inr (flushed + length (concat (map (seg_entries c fs name) ns)))) w') →
  wp (count_segments (stream_handle name) ns flushed) Q w.
Proof.
  intros HS. revert flushed w. induction ns as [|n ns IH]; intros flushed w Hsv Hns HQ.
  { apply wp_ret. cbn in HQ. rewrite Nat.add_0_r in HQ. by apply HQ. }
  apply Forall_cons in Hns as [Hn Hns]. cbn [count_segments map concat] in *. rewrite length_app in HQ.
  pose proof Hsv as [_ [Hc _] _ _]. apply wp_bind, wp_db_get. rewrite Hc.
  cbn [stream_handle ts_stream_name]. rewrite (rs_paths _ _ _ _ _ Hread n HS Hn).
  apply wp_bind, wp_count_file; [done|done|]. intros rc w1 Hsv1 _.
  apply IH; [done|done|]. intros w2 Hsv2. rewrite <- Nat.add_assoc. by apply HQ.
Qed.

Lemma wp_count_flushed (Q : zdb_status_t + nat → W → Prop) w :
  serving w → (∀ st w', st ≠ ZDB_OK → Q (inl st) w') →
  (∀ w', serving w' → Q (inr (length (stored_entries c fs name lo hi))) w') →
  wp (count_flushed (stream_handle name)) Q w.
Proof.
  intros Hsv Hbad HQ. unfold count_flushed. pose proof Hsv as [_ [Hc _] Hf (s' & Hs & Hsim)].
  cbn [stream_handle ts_stream_name]. destruct ZDB_TS_SEGMENTED eqn:HS.
  - apply wp_bind, wp_db_get. rewrite Hf. apply wp_bind, (wp_slot_get _ s'); [done|].
    assert (oldest_seg s' = lo ∧ cur_seg s' = hi) as [-> ->] by (destruct Hsim as (? & ? & ->); done).
    apply wp_bind, wp_count_segments; [done|done| |].
    + apply Forall_forall. intros n Hn%elem_of_seqZ. lia.
    + intros w' Hsv'. by apply wp_ret, HQ.
  - apply wp_bind, wp_db_get. rewrite Hc. pose proof (rs_single _ _ _ _ _ Hread HS) as Hhl.
    pose proof (rs_window _ _ _ _ _ Hread) as [? _].
    destruct (stream_path_cases c name ZDB_TS_PATH_MAX) as [(rc & -> & Hrc)| ->].
    { apply wp_ret, Hbad. rewrite status_from_errno_ok. lia. }
    assert (stream_file c name lo = ts_dir c ++ name ++ s2b ".zts") as Hsf by (unfold stream_file; by rewrite HS).
    rewrite <- Hsf. apply wp_bind, wp_count_file; [lia|done|]. intros rc w1 Hsv1 Hex. apply wp_ret.
    destruct (sk_active _ _ _ Hok) as (d & Hd & _). rewrite Hname, Hhi, Hhl in Hd.
    rewrite Hex by (by exists d). change ((0 =? 0)%Z || _) with true. cbn iota.
    replace (seg_entries c fs name lo) with (stored_entries c fs name lo hi); [by apply HQ|].
    rewrite Hhl, stored_entries_after by lia. rewrite (stored_entries_none _ _ _ (lo + 1)) by lia.
    by rewrite app_nil_r.
Qed.

Lemma wp_count_all (Q : zdb_status_t * option Z → W → Prop) w :
  serving w → (∀ st w', st ≠ ZDB_OK → Q (st, None) w') →
  (∀ w', serving w' → Q (ZDB_OK, Some (u32 (Z.of_nat (length (stream_entries c fs s))))) w') →
  wp (zdb_ts_count_all (stream_handle name)) Q w.
Proof.
  intros Hsv Hbad HQ. unfold zdb_ts_count_all.
  apply wp_bind, wp_ts_lock_live; [done|]. intros k' _ _ _. rewrite bool_decide_true by done. cbn [negb].
  apply wp_bind, wp_count_flushed; [by apply serving_k| |].
  { intros st w1 Hst. apply wp_bind, wp_unlock_read. intros w2 _. by apply wp_ret, Hbad. }
  intros w1 Hsv1. pose proof Hsv1 as [_ _ Hf (s' & Hs & Hsim)].
  cbn [stream_handle ts_stream_name]. apply wp_bind, wp_db_get. rewrite Hf.
  apply wp_bind, wp_bind, (wp_slot_get _ s'); [done|]. apply wp_ret, wp_bind, wp_unlock_read.
  intros w2 Hu. apply wp_ret.
  assert (ingest_used s' / zdb_ts_slot_rec_size s' = length (buffered_entries s)) as ->.
  { destruct (buffer_layout s Hbuf) as (_ & _ & ->). by destruct Hsim as (? & ? & ->). }
  rewrite <- Nat2Z.inj_add, <- length_app.
  assert (stored_entries c fs name lo hi ++ buffered_entries s = stream_entries c fs s) as ->.
  { unfold stream_entries. by rewrite Hname, Hlo, Hhi. }
  apply HQ. by eapply serving_unlocked.
Qed.

(** ** The loop *)

(** The values of what a window admits of entries. *)
Definition values (wi : zdb_ts_window_t) (es : list entry) : list Z :=
  map (λ e : entry, value e.2) (List.filter (admits wi None) es).

Lemma values_seek wi es :
  values wi es =
  match seek (admits wi None) es with Some (e, es') => value e.2 :: values wi es' | None => [] end.
Proof. unfold values. rewrite seek_filter. by destruct (seek _ _) as [[e es']|]. Qed.

(** How many more samples the loop takes after [points]. *)
Definition agg_room (agg : zdb_ts_agg_t) (points : nat) (xs : list Z) : nat :=
  if bool_decide (agg = ZDB_TS_AGG_COUNT) then length xs else CONFIG_ZDB_TS_MAX_AGG_POINTS - points.

Lemma wp_agg_loop fuel agg wi cu rest points acc
    (Q : option (zdb_status_t * Z * double * option cursor) → W → Prop) w :
  serving w → walking wi None false cu rest → length rest < fuel →
  (agg ≠ ZDB_TS_AGG_COUNT → points ≤ CONFIG_ZDB_TS_MAX_AGG_POINTS) →
  (Z.of_nat points + length rest < 2 ^ 32)%Z →
  let taken := take (agg_room agg points (values wi rest)) (values wi rest) in
  (∀ cu' rest' w', serving w' → walking wi None false cu' rest' → length rest' ≤ length rest →
     values wi rest' = drop (agg_room agg points (values wi rest)) (values wi rest) →
     let r := agg_fold agg (map d_of_Z taken) points acc in
     Q (Some (ZDB_OK, r.1, r.2, Some cu')) w') →
  wp (agg_loop fuel agg (Some cu) points acc) Q w.
Proof.
  revert cu rest points acc w. induction fuel as [|fuel IH]; intros cu rest points acc w Hsv Hw Hfuel Hp Hlt; [lia|].
  cbv zeta. intros HQ. cbn [agg_loop].
  destruct (bool_decide (agg = ZDB_TS_AGG_COUNT) || (points <? CONFIG_ZDB_TS_MAX_AGG_POINTS)%Z) eqn:Hgo; cycle 1.
  { apply orb_false_iff in Hgo as [Hc Hcap]. apply Z.ltb_ge in Hcap.
    assert (agg_room agg points (values wi rest) = 0) as Hz by (unfold agg_room; rewrite Hc; lia).
    rewrite Hz in HQ. apply wp_ret. by apply (HQ cu rest). }
  assert (∀ x xs, agg_room agg points (x :: xs) = S (agg_room agg (S points) xs)) as Hroom.
  { intros x xs. unfold agg_room. case_bool_decide; [done|]. rewrite orb_false_l in Hgo.
    apply Z.ltb_lt in Hgo. lia. }
  apply wp_bind. eapply wp_next_sample; [done..| |].
  - intros cu' w' Hs Hsv' Hw'. apply wp_ret. rewrite values_seek, Hs in HQ. cbn [take drop] in HQ.
    rewrite take_nil, drop_nil in HQ. apply (HQ cu' []); [done|done|simpl; lia|done].
  - intros e rest' cu' w' Hs Hsv' Hw'. pose proof (seek_length _ _ _ _ Hs) as Hlen.
    rewrite (values_seek wi rest), Hs, Hroom in HQ. cbn [take drop map] in HQ.
    set (x := d_of_Z (value e.2)) in *.
    assert (∃ acc', zdb_ts_agg_update agg x points acc = (Z.of_nat (S points), acc')) as [acc' Hupd].
    { unfold zdb_ts_agg_update. destruct (Z.eqb_spec points 0) as [Hz|Hnz]; eexists; f_equal; [lia|].
      unfold u32. rewrite Z.mod_small; lia. }
    rewrite Hupd. apply (IH cu' rest' (S points) acc'); [done|done|lia| |lia|].
    { intros Hc. rewrite bool_decide_false, orb_false_l in Hgo by done. apply Z.ltb_lt in Hgo. lia. }
    cbv zeta. intros cu2 rest2 w2 Hsv2 Hw2 Hl2 Hv2. unfold agg_fold in HQ. cbn [fold_left fst snd] in HQ.
    rewrite Hupd in HQ. apply (HQ cu2 rest2); [done|done|lia|done].
Qed.

(** ** The query *)

Lemma entries_time v base d e : e ∈ entries v base d → (0 ≤ ts_ms e.2 ≤ UINT64_MAX)%Z.
Proof.
  unfold entries. intros (r & _ & Hr)%list_elem_of_omap.
  destruct (decode_pure v base r) as [x|] eqn:Hx; [|done]. injection Hr as <-. cbn [snd].
  assert (0 ≤ ts_ms x < 2 ^ 64)%Z; [|unfold UINT64_MAX; lia]. unfold decode_pure in Hx.
  repeat case_match; simplify_eq; cbn [ts_ms]; [apply (get_le_bound 8)|apply Z.mod_pos_bound; lia].
Qed.

Lemma file_entries_time n d e : e ∈ file_entries n d → (0 ≤ ts_ms e.2 ≤ UINT64_MAX)%Z.
Proof.
  unfold file_entries. destruct (header_pure n d) as [[v base]|]; [apply entries_time|].
  by intros ?%elem_of_nil.
Qed.

Lemma stream_entries_time e : e ∈ stream_entries c fs s → (0 ≤ ts_ms e.2 ≤ UINT64_MAX)%Z.
Proof.
  unfold stream_entries, stored_entries. rewrite elem_of_app. intros [He|He]; [|by eapply entries_time].
  induction (seqZ _ _) as [|n l IH]; cbn [map concat] in He; [by apply elem_of_nil in He|].
  apply elem_of_app in He as [He|He]; [|by apply IH].
  unfold seg_entries in He. destruct (fs !! _); [by eapply file_entries_time|by apply elem_of_nil in He].
Qed.

(** An unbounded window admits every sample. *)
Lemma unbounded_admits wi e : zdb_ts_window_is_unbounded wi = true →
  (0 ≤ ts_ms e.2 ≤ UINT64_MAX)%Z → admits wi None e = true.
Proof.
  unfold zdb_ts_window_is_unbounded, admits, zdb_ts_window_match. rewrite andb_true_r.
  intros [Hf Ht]%andb_true_iff [Hlo' Hhi']. apply Z.eqb_eq in Hf. rewrite Hf. cbn [andb].
  apply orb_true_iff in Ht as [->|Ht]; [done|]. apply Z.eqb_eq in Ht. rewrite Ht.
  rewrite (proj2 (Z.ltb_ge (ts_ms e.2) 0)), (proj2 (Z.ltb_ge UINT64_MAX (ts_ms e.2))) by done.
  rewrite andb_false_r. by destruct (_ =? _)%Z.
Qed.

Lemma values_unbounded wi es :
  zdb_ts_window_is_unbounded wi = true → (∀ e, e ∈ es → (0 ≤ ts_ms e.2 ≤ UINT64_MAX)%Z) →
  length (values wi es) = length es.
Proof.
  intros Hu. unfold values. rewrite length_map. induction es as [|e es IH]; intros Hes; [done|].
  cbn [List.filter]. rewrite unbounded_admits by (done || (apply Hes; by left)). cbn [length].
  rewrite IH; [done|]. intros e' He'. apply Hes. by right.
Qed.

Lemma length_values wi es : length (values wi es) ≤ length es.
Proof. unfold values. rewrite length_map. induction es as [|e es IH]; simpl; [lia|]. destruct (admits _ _ _); simpl; lia. Qed.

(** What the loop has found, in terms of the reference. *)
Lemma aggregate_fold agg vs :
  (Z.of_nat (length vs) < 2 ^ 32)%Z →
  let r := agg_fold agg (map d_of_Z (agg_looks agg vs)) 0 (d_of_Z 0) in
  r.1 = Z.of_nat (length (agg_looks agg vs)) ∧
  aggregate agg vs =
    if (r.1 =? 0)%Z && negb (bool_decide (agg = ZDB_TS_AGG_COUNT)) then None
    else Some {| ar_agg := agg;
                 ar_value := match agg with
                             | ZDB_TS_AGG_COUNT => d_of_Z r.1
                             | ZDB_TS_AGG_AVG => d_div r.2 (d_of_Z r.1)
                             | _ => r.2
                             end;
                 ar_points := r.1;
                 ar_truncated := length (agg_looks agg vs) <? length vs |}.
Proof.
  intros Hlt. cbv zeta. pose proof (length_looks agg vs) as Hl. unfold aggregate. rewrite length_map.
  assert (∀ xs, length xs = length (map d_of_Z (agg_looks agg vs)) → xs = map d_of_Z (agg_looks agg vs) →
    (agg_fold agg xs 0 (d_of_Z 0)).1 = Z.of_nat (length xs)) as Hpts.
  { intros [|x xs] Hx _; [done|]. rewrite agg_fold_start; [done|]. rewrite Hx, length_map. lia. }
  specialize (Hpts _ eq_refl eq_refl). rewrite length_map in Hpts. split; [done|]. rewrite Hpts.
  destruct (agg_looks agg vs) as [|v l] eqn:Hlook; [by destruct agg|].
  cbn [map] in *. rewrite agg_fold_start by (cbn [length] in *; rewrite length_map; lia).
  destruct agg; cbn [agg_value fold1 fmap option_fmap option_map length agg_op snd];
    rewrite ?length_map; done.
Qed.

Lemma wp_query_aggregate fuel agg wi out
    (Q : option (zdb_status_t * option zdb_ts_agg_result_t) → W → Prop) w :
  serving w → length (stream_entries c fs s) < fuel →
  (Z.of_nat (length (stream_entries c fs s)) < 2 ^ 32)%Z →
  (∀ st w', st ≠ ZDB_OK → Q (Some (st, None)) w') →
  (∀ r w', aggregate agg (values wi (stream_entries c fs s)) = Some r → Q (Some (ZDB_OK, Some r)) w') →
  wp (zdb_ts_query_aggregate fuel (Some (stream_handle name)) wi agg true out) Q w.
Proof.
  intros Hsv Hfuel Hlt Hbad HQ. unfold zdb_ts_query_aggregate. cbn [stream_handle ts_db negb].
  fold (stream_handle name).
  destruct (bool_decide (agg = ZDB_TS_AGG_COUNT) && zdb_ts_window_is_unbounded wi) eqn:Hfast.
  { apply andb_true_iff in Hfast as [Hc Hu]. apply bool_decide_eq_true_1 in Hc. subst agg.
    apply wp_bind, wp_count_all; [done|..].
    { intros st w1 Hst. by apply wp_ret, Hbad. }
    intros w1 Hsv1. apply wp_ret, HQ. unfold aggregate, agg_looks. rewrite bool_decide_true by done.
    rewrite length_map, (values_unbounded wi) by (done || apply stream_entries_time).
    rewrite Nat.ltb_irrefl. unfold u32. rewrite Z.mod_small by lia. cbn [agg_value fmap option_fmap option_map].
    by rewrite length_map, (values_unbounded wi) by (done || apply stream_entries_time). }
  apply wp_bind. unfold zdb_ts_cursor_open. change (Some (stream_handle name)) with (handle name).
  eapply wp_cursor_open; [done..| |].
  { intros st o w1 Hst. rewrite bool_decide_false by done. cbn [negb]. by apply wp_ret, Hbad. }
  intros cu w1 Hsv1 Hw1. rewrite bool_decide_true by done. cbn [negb].
  unfold toward in Hw1. set (all := stream_entries c fs s) in *.
  apply wp_bind, (wp_agg_loop fuel agg wi cu all 0); [done|done|done|lia|lia|].
  intros cu2 rest w2 Hsv2 Hw2 Hrest Hdrop. cbv zeta. set (vs := values wi all) in *.
  assert (length vs ≤ length all) as Hlv by apply length_values.
  assert (take (agg_room agg 0 vs) vs = agg_looks agg vs) as Hlooks.
  { unfold agg_room, agg_looks. case_bool_decide; [by rewrite take_ge|by rewrite Nat.sub_0_r]. }
  rewrite Hlooks. destruct (aggregate_fold agg vs ltac:(lia)) as [Hpts Hagg].
  change (Z.of_nat 0) with 0%Z in *. set (r := agg_fold agg _ 0 _) in *.
  change (negb (bool_decide (ZDB_OK = ZDB_OK))) with false. cbn iota.
  apply wp_bind.
  assert (∀ peek_rc cu3 w3, bool_decide (peek_rc = ZDB_OK) = (length (agg_looks agg vs) <? length vs) →
    wp (zdb_cursor_close (Some cu3);;
        if (r.1 =? 0)%Z && negb (bool_decide (agg = ZDB_TS_AGG_COUNT)) then ret (Some (ZDB_ERR_NOT_FOUND, None))
        else ret (Some (ZDB_OK, Some
               {| ar_agg := agg;
                  ar_value := match agg with
                              | ZDB_TS_AGG_COUNT => d_of_Z r.1
                              | ZDB_TS_AGG_AVG => d_div r.2 (d_of_Z r.1)
                              | _ => r.2
                              end;
                  ar_points := r.1; ar_truncated := bool_decide (peek_rc = ZDB_OK) |}))) Q w3) as Hend.
  { intros peek_rc cu3 w3 ->. apply wp_bind. unfold wp at 1.
    destruct (_ && negb _) eqn:Hz; [by apply wp_ret, Hbad|]. by apply wp_ret, HQ. }
  assert (length (agg_looks agg vs) < length vs ↔ values wi rest ≠ []) as Hmore.
  { rewrite Hdrop, <- Hlooks, length_take. rewrite <- length_zero_iff_nil, length_drop. lia. }
  destruct (negb (bool_decide (agg = ZDB_TS_AGG_COUNT)) && (r.1 =? CONFIG_ZDB_TS_MAX_AGG_POINTS)%Z) eqn:Hpeek.
  - eapply wp_next_sample; [done..|lia| |].
    + intros cu3 w3 Hs _ _. apply Hend. rewrite bool_decide_false by done. symmetry.
      apply Nat.ltb_ge. rewrite values_seek, Hs in Hmore. destruct (Nat.lt_ge_cases (length (agg_looks agg vs)) (length vs)); [|done].
      by apply Hmore in H.
    + intros e rest' cu3 w3 Hs _ _. apply Hend. rewrite bool_decide_true by done. symmetry.
      apply Nat.ltb_lt. apply Hmore. by rewrite values_seek, Hs.
  - apply wp_ret. apply Hend. rewrite bool_decide_false by done. symmetry. apply Nat.ltb_ge.
    apply andb_false_iff in Hpeek as [Hc|Hne].
    + unfold agg_looks. by rewrite <- (negb_involutive (bool_decide _)), Hc.
    + rewrite Hpts in Hne. apply Z.eqb_neq in Hne. revert Hne. unfold agg_looks.
      case_bool_decide; [done|]. rewrite length_take. lia.
Qed.

(** The values in terms of the samples of the stream. *)
Definition window_values (wi : zdb_ts_window_t) (xs : list zdb_ts_sample_i64_t) : list Z :=
  map value (List.filter (λ x, zdb_ts_window_match wi (ts_ms x)) xs).

Lemma values_samples wi es : values wi es = window_values wi es.*2.
Proof.
  unfold values, window_values. induction es as [|e es IH]; [done|]. cbn [fmap list_fmap List.filter].
  unfold admits at 1. rewrite andb_true_r. destruct (zdb_ts_window_match wi (ts_ms e.2)); [|done].
  cbn [map]. by rewrite IH.
Qed.

Lemma aggregate_min vs a :
  aggregate ZDB_TS_AGG_MIN vs = Some a →
  let xs := map d_of_Z (agg_looks ZDB_TS_AGG_MIN vs) in
  ar_value a ∈ xs ∧ Forall (λ x, d_lt x (ar_value a) = false) xs.
Proof.
  unfold aggregate. cbv zeta. destruct (map d_of_Z _) as [|x xs]; [done|]. intros [= <-].
  apply fold_min.
Qed.

Lemma aggregate_max vs a :
  aggregate ZDB_TS_AGG_MAX vs = Some a →
  let xs := map d_of_Z (agg_looks ZDB_TS_AGG_MAX vs) in
  ar_value a ∈ xs ∧ Forall (λ x, d_lt (ar_value a) x = false) xs.
Proof.
  unfold aggregate. cbv zeta. destruct (map d_of_Z _) as [|x xs]; [done|]. intros [= <-].
  apply fold_max.
Qed.
End agg.

Section stream_agg.
Context {Cfg : Config} {CfgOk : ConfigOk Cfg} {K F FS FH DH : Type}.
Context `{!Kernel K, !KernelLaws K, !FileSys FS FH DH, !FileSysLaws FS FH DH}.
Context {CRC : Crc32} {CRCLaws : Crc32Laws} {Live : FsLive FS FH DH}.
Implicit Types w : world K F FS.

(** An aggregate over an open, readable stream. *)
Lemma wp_aggregate name i s agg wi (out : zdb_cursor_t FH) fuel
    (Q : option (zdb_status_t * option zdb_ts_agg_result_t) → world K F FS → Prop) w :
  LockLive K → opened_as name i s w → walkable (cfg (w_db w)) (files w) s →
  let samples := stream_samples (cfg (w_db w)) (files w) s in
  length samples < fuel → (Z.of_nat (length samples) < 2 ^ 32)%Z →
  (∀ st w', st ≠ ZDB_OK → Q (Some (st, None)) w') →
  (∀ a w', aggregate agg (window_values wi samples) = Some a → Q (Some (ZDB_OK, Some a)) w') →
  wp (zdb_ts_query_aggregate fuel (handle name) wi agg true out) Q w.
Proof.
  intros Hlive [Hr Hfind Hs Hok _] Hwk samples. unfold samples.
  rewrite <- stream_entries_samples, length_fmap, <- values_samples. intros Hfuel Hlt Hbad HQ.
  assert (st_name s = name) as Hname.
  { pose proof Hs as (x & Hx & Hl)%slot_is_ctx. rewrite Hx in Hfind.
    apply slot_find_Some in Hfind as (t & Hl' & _ & Hnm). congruence. }
  pose proof (walkable_buffer _ _ _ Hok Hwk) as Hbuf. destruct Hwk as [Hsegs _]. rewrite Hname in Hsegs.
  eapply (wp_query_aggregate Hlive _ _ name _ _ Hsegs i s Hbuf); [done..| |exact Hfuel|exact Hlt|exact Hbad|exact HQ].
  split; [done|by split|done|]. exists s. split; [done|apply slot_sim_refl].
Qed.
End stream_agg.
