(* ===== verification/DocSpec.v ===== *)
(** * Lemmas on documents in memory

    [held a b w w'] says that a program which was given [a] heap blocks leaves
    [b] of them, and touches nothing else but the clock and the log. [doc_ok]
    is what holds of a handle between any two calls; [doc_blocks] counts the
    blocks it owns. *)

From S2P Require Import Prelude Config CText Env Types FsEnv FsSpec Events Doubles Doc.

Section spec.
Context {Cfg : Config} {CfgOk : ConfigOk Cfg} {K F FS FH DH : Type}.
Context `{!Kernel K, !KernelLaws K, !FileSys FS FH DH}.
Abbreviation W := (world K F FS).
Implicit Types (w : W) (d : zdb_doc_t) (f : zdb_doc_field_t).

(** ** The frame, and the heap *)

Record held (a b : nat) w w' : Prop := {
  he_db : w_db w' = w_db w;
  he_f : w_f w' = w_f w;
  he_files : files w' = files w;
  he_lock : lock_depth (w_k w') = lock_depth (w_k w);
  he_slab : ∀ s, slab_used (w_k w') s = slab_used (w_k w) s;
  he_heap : heap_used (w_k w') + a = heap_used (w_k w) + b;
  he_log : ∃ new, w_log w' = w_log w ++ new;
}.

Lemma held_refl a w : held a a w w.
Proof. split; try done. exists []. by rewrite app_nil_r. Qed.

Lemma held_trans b a c w1 w2 w3 : held a b w1 w2 → held b c w2 w3 → held a c w1 w3.
Proof.
  intros [D1 F1 S1 L1 B1 H1 (n1 & G1)] [D2 F2 S2 L2 B2 H2 (n2 & G2)].
  split; [congruence..| | |]; [intros s; congruence|lia|].
  exists (n1 ++ n2). by rewrite G2, G1, app_assoc.
Qed.

(** Blocks that the program does not know of. *)
Lemma held_frame n a b a' b' w w' :
  a' = a + n → b' = b + n → held a b w w' → held a' b' w w'.
Proof. intros -> -> [D1 F1 S1 L1 B1 H1 G1]. split; try done. lia. Qed.

Lemma held_enough a b w w' : held a b w w' → a ≤ heap_used (w_k w) → b ≤ heap_used (w_k w').
Proof. intros H ?. pose proof (he_heap _ _ _ _ H). lia. Qed.

Lemma held_k w k' a b :
  lock_depth k' = lock_depth (w_k w) → (∀ s, slab_used k' s = slab_used (w_k w) s) →
  heap_used k' + a = heap_used (w_k w) + b → held a b w (w <| w_k := k' |>).
Proof. intros. split; try done. exists []. by rewrite app_nil_r. Qed.

Lemma held_fs w fs' : fs_files fs' = files w → held 0 0 w (w <| w_fs := fs' |>).
Proof. intros. split; try done. exists []. by rewrite app_nil_r. Qed.

Lemma held_emitted n w w' : emitted n w w' → held 0 0 w w'.
Proof.
  intros [D F0 S0 [Kl Ks Kh] L]. split; try done; [unfold files; by rewrite S0|lia|by exists n].
Qed.

(** ** Calls *)

Lemma wp_malloc n (Q : bool → W → Prop) w :
  (∀ w', held 0 1 w w' → w_fs w' = w_fs w → Q true w') →
  (∀ w', held 0 0 w w' → w_fs w' = w_fs w → ¬ HeapLive K → Q false w') →
  wp (on_k (k_malloc n)) Q w.
Proof.
  intros Hok Hbad. apply wp_on_k. intros b k' Heq.
  pose proof (k_malloc_law n (w_k w)) as (Hl & Hs & Hh). rewrite Heq in Hl, Hs, Hh. cbn [fst snd] in *.
  destruct b; [apply Hok|apply Hbad]; try done.
  - apply held_k; [done..|lia].
  - apply held_k; [done..|lia].
  - intros Hlive. pose proof (Hlive n (w_k w)) as E. by rewrite Heq in E.
Qed.

Lemma wp_heap_free (Q : unit → W → Prop) w :
  1 ≤ heap_used (w_k w) → (∀ w', held 1 0 w w' → w_fs w' = w_fs w → Q tt w') →
  wp (on_k_ k_free) Q w.
Proof.
  intros H1 HQ. apply wp_on_k_, HQ; [|done].
  destruct (k_free_law (w_k w)) as (Hl & Hs & Hh). apply held_k; [done..|lia].
Qed.

Definition opt_block {A} (p : option A) : nat := match p with Some _ => 1 | None => 0 end.

Lemma wp_free_ptr {A} (p : option A) (Q : unit → W → Prop) w :
  opt_block p ≤ heap_used (w_k w) → (∀ w', held (opt_block p) 0 w w' → w_fs w' = w_fs w → Q tt w') →
  wp (free_ptr p) Q w.
Proof. intros Hp HQ. destruct p; [by apply wp_heap_free|]. apply wp_ret, HQ; [apply held_refl|done]. Qed.

Lemma wp_uptime (Q : Z → W → Prop) w :
  (∀ now w', (0 ≤ now < 2 ^ 63)%Z → held 0 0 w w' → w_fs w' = w_fs w → Q now w') →
  wp (on_k k_uptime_get) Q w.
Proof.
  intros HQ. apply wp_on_k. intros now k' Heq.
  destruct (k_uptime_get_law (w_k w)) as (Hn & [Hl Hs Hh]). rewrite Heq in *. cbn [fst snd] in *.
  apply HQ; [done| |done]. apply held_k; [done..|lia].
Qed.

Lemma wp_alloc_copy src (Q : option (list byte) → W → Prop) w :
  (∀ data w', src = Some data → data ≠ [] → held 0 1 w w' → w_fs w' = w_fs w → Q src w') →
  (∀ w', held 0 0 w w' → w_fs w' = w_fs w → (HeapLive K → src = None ∨ src = Some []) → Q None w') →
  wp (zdb_alloc_copy src) Q w.
Proof.
  intros Hok Hnone. unfold zdb_alloc_copy. destruct src as [[|b data]|].
  - apply wp_ret, Hnone; [apply held_refl|done|auto].
  - apply wp_bind, wp_malloc; intros w' H1 H2; [by apply wp_ret, (Hok (b :: data))|].
    intros Hl. by apply wp_ret, Hnone.
  - apply wp_ret, Hnone; [apply held_refl|done|auto].
Qed.

Lemma wp_strdup s (Q : option cstring → W → Prop) w :
  c_string s →
  (∀ w', held 0 1 w w' → w_fs w' = w_fs w → Q (Some s) w') →
  (∀ w', held 0 0 w w' → w_fs w' = w_fs w → ¬ HeapLive K → Q None w') →
  wp (zdb_strdup_local (Some s)) Q w.
Proof.
  intros Hs Hok Hbad. unfold zdb_strdup_local. apply wp_bind, wp_alloc_copy.
  - intros data w' [= <-] _ H1 H2. apply wp_ret. simpl. rewrite c_str_id by done. by apply Hok.
  - intros w' H1 H2 Hl. apply wp_ret, Hbad; [done..|]. intros Hlive.
    destruct (Hl Hlive) as [?|[= Hz]]; [done|]. by destruct s.
Qed.

Lemma wp_doc_event db ty coll id fc sb st (Q : unit → W → Prop) w :
  db = Some the_db → (∀ w', held 0 0 w w' → w_fs w' = w_fs w → Q tt w') →
  wp (doc_event db ty coll id fc sb st) Q w.
Proof.
  intros -> HQ. unfold doc_event. destruct CONFIG_ZDB_EVENTING.
  - apply wp_emit_doc. intros e w' ?????? E. apply HQ; [by eapply held_emitted|apply E].
  - apply wp_ret, HQ; [apply held_refl|done].
Qed.
End spec.

(** ** Lists of fields *)

Definition payload_blocks (v : zdb_doc_field_value_t) : nat :=
  match v with V_str (Some _) | V_bytes (Some _) _ => 1 | _ => 0 end.
Definition field_blocks (f : zdb_doc_field_t) : nat :=
  opt_block (fd_name f) + payload_blocks (fd_value f).
Definition fields_blocks (l : list zdb_doc_field_t) : nat := sum_list_with field_blocks l.

(** The list with the field of this name set to [f], at its end if it is new. *)
Definition put_field (l : list zdb_doc_field_t) (name : cstring) (f : zdb_doc_field_t)
    : list zdb_doc_field_t :=
  match field_index l name 0 with
  | Some i => <[i := f]> l
  | None => l ++ [f]
  end.

Definition field_lookup (l : list zdb_doc_field_t) (name : cstring) : option zdb_doc_field_t :=
  field_index l name 0 ≫= λ i, l !! i.

Section field_lists.
Implicit Types (l : list zdb_doc_field_t) (f : zdb_doc_field_t) (name : cstring).

Lemma field_index_Some l name i j :
  field_index l name i = Some j →
  ∃ f, l !! (j - i) = Some f ∧ fd_name f = Some name ∧ i ≤ j ∧
    ∀ k g, k < j - i → l !! k = Some g → fd_name g ≠ Some name.
Proof.
  revert i. induction l as [|f l IH]; intros i; simpl; [done|]. case_bool_decide as Hf.
  - intros [= <-]. exists f. rewrite Nat.sub_diag. split_and!; try done. intros; lia.
  - intros (g & Hg & Hn & Hle & Hno)%IH. exists g.
    replace (j - i) with (S (j - S i)) by lia. split_and!; [done|done|lia|].
    intros [|k] h Hk Hh; simplify_eq/=; [done|]. apply (Hno k); [lia|done].
Qed.

Lemma field_index_None l name i :
  field_index l name i = None ↔ Some name ∉ map fd_name l.
Proof.
  revert i. induction l as [|f l IH]; intros i; simpl; [split; [intros _; apply not_elem_of_nil|done]|].
  rewrite elem_of_cons. case_bool_decide as Hf; [split; [done|]|rewrite IH]; naive_solver.
Qed.

Lemma field_index_lookup l name i :
  field_index l name 0 = Some i → ∃ f, l !! i = Some f ∧ fd_name f = Some name.
Proof. intros (f & Hf & Hn & _)%field_index_Some. rewrite Nat.sub_0_r in Hf. by exists f. Qed.

Lemma field_lookup_Some l name f :
  field_lookup l name = Some f → f ∈ l ∧ fd_name f = Some name.
Proof.
  unfold field_lookup. destruct (field_index l name 0) as [i|] eqn:Hi; [|done]. simpl. intros Hf.
  apply field_index_lookup in Hi as (g & Hg & Hn). simplify_eq. split; [|done].
  by eapply list_elem_of_lookup_2.
Qed.

Lemma field_lookup_unique l name f :
  NoDup (map fd_name l) → f ∈ l → fd_name f = Some name → field_lookup l name = Some f.
Proof.
  intros Hnd (k & Hk)%list_elem_of_lookup Hn. unfold field_lookup.
  destruct (field_index l name 0) as [i|] eqn:Hi.
  - simpl. apply field_index_lookup in Hi as (g & Hg & Hgn).
    assert (i = k) as ->; [|done]. eapply NoDup_lookup; [exact Hnd|..]; rewrite list_lookup_fmap.
    + by rewrite Hg.
    + rewrite Hk. simpl. by rewrite Hn, Hgn.
  - apply field_index_None in Hi. destruct Hi. apply list_elem_of_fmap.
    exists f. split; [done|]. by eapply list_elem_of_lookup_2.
Qed.

Lemma map_insert_same {A B} (g : A → B) (l : list A) i x y :
  l !! i = Some y → g x = g y → map g (<[i := x]> l) = map g l.
Proof.
  intros Hi Hg. change (g <$> <[i := x]> l = g <$> l). rewrite list_fmap_insert, Hg.
  apply list_insert_id. by rewrite list_lookup_fmap, Hi.
Qed.

Lemma put_field_names l name f :
  fd_name f = Some name → NoDup (map fd_name l) → NoDup (map fd_name (put_field l name f)).
Proof.
  intros Hf Hnd. unfold put_field. destruct (field_index l name 0) as [i|] eqn:Hi.
  - apply field_index_lookup in Hi as (g & Hg & Hn). erewrite map_insert_same; [done|done|congruence].
  - apply field_index_None in Hi. rewrite map_app. simpl. rewrite Hf.
    apply NoDup_app. split_and!; [done| |apply NoDup_singleton].
    intros x Hx ->%list_elem_of_singleton. done.
Qed.

Lemma put_field_Forall (P : zdb_doc_field_t → Prop) l name f :
  P f → Forall P l → Forall P (put_field l name f).
Proof.
  intros Hf Hl. unfold put_field. destruct (field_index l name 0).
  - by apply Forall_insert.
  - apply Forall_app. auto.
Qed.

Lemma put_field_lookup l name f :
  fd_name f = Some name → NoDup (map fd_name l) → field_lookup (put_field l name f) name = Some f.
Proof.
  intros Hf Hnd. apply field_lookup_unique; [by apply put_field_names| |done].
  unfold put_field. destruct (field_index l name 0) as [i|] eqn:Hi.
  - apply field_index_lookup in Hi as (g & Hg & _). apply (list_elem_of_lookup_2 _ i).
    apply list_lookup_insert_eq. by eapply lookup_lt_Some.
  - set_solver.
Qed.

Lemma put_field_lookup_ne l name name' f :
  fd_name f = Some name → NoDup (map fd_name l) → name' ≠ name →
  field_lookup (put_field l name f) name' = field_lookup l name'.
Proof.
  intros Hf Hnd Hne. pose proof (put_field_names l name f Hf Hnd) as Hnd'.
  assert (∀ g, fd_name g = Some name' → g ∈ put_field l name f ↔ g ∈ l) as Hin.
  { intros g Hg. unfold put_field. destruct (field_index l name 0) as [i|] eqn:Hi; [|set_solver by congruence].
    apply field_index_lookup in Hi as (h & Hh & Hn). rewrite !list_elem_of_lookup.
    split; intros [k Hk]; exists k; (destruct (decide (k = i)) as [->|Hki];
      [|by rewrite list_lookup_insert_ne in *]).
    - rewrite list_lookup_insert_eq in Hk by (by eapply lookup_lt_Some). congruence.
    - congruence. }
  destruct (field_lookup l name') as [g|] eqn:Hg.
  - apply field_lookup_Some in Hg as [Hin' Hn]. apply field_lookup_unique; [done|by apply Hin|done].
  - destruct (field_lookup (put_field l name f) name') as [g|] eqn:Hg'; [|done].
    apply field_lookup_Some in Hg' as [Hin' Hn]. apply Hin in Hin'; [|done].
    rewrite (field_lookup_unique l name' g) in Hg; done.
Qed.

Lemma fields_blocks_app a b : fields_blocks (a ++ b) = fields_blocks a + fields_blocks b.
Proof. apply sum_list_with_app. Qed.

Lemma fields_blocks_insert l i f g :
  l !! i = Some g → fields_blocks (<[i := f]> l) + field_blocks g = fields_blocks l + field_blocks f.
Proof.
  intros Hi. rewrite (insert_take_drop l i f) by (by eapply lookup_lt_Some).
  rewrite <- (take_drop_middle l i g Hi) at 3. rewrite !fields_blocks_app. unfold fields_blocks. simpl. lia.
Qed.

Lemma put_field_twice l name f f' :
  fd_name f = Some name → put_field (put_field l name f) name f' = put_field l name f'.
Proof.
  intros Hf. unfold put_field. destruct (field_index l name 0) as [i|] eqn:Hi.
  - assert (field_index (<[i := f]> l) name 0 = Some i) as ->; [|apply list_insert_insert_eq].
    apply field_index_Some in Hi as (g & Hg & Hn & _ & Hno). rewrite Nat.sub_0_r in *.
    destruct (field_index (<[i := f]> l) name 0) as [j|] eqn:Hj.
    + apply field_index_Some in Hj as (h & Hh & Hhn & _ & Hjno). rewrite Nat.sub_0_r in *. f_equal.
      destruct (decide (j < i)).
      { exfalso. eapply (Hno j h); [done| |done]. by rewrite list_lookup_insert_ne in Hh by lia. }
      destruct (decide (i < j)); [|lia]. exfalso. eapply (Hjno i f); [done| |done].
      apply list_lookup_insert_eq. by eapply lookup_lt_Some.
    + apply field_index_None in Hj. destruct Hj. apply list_elem_of_fmap. exists f. split; [done|].
      eapply (list_elem_of_lookup_2 _ i), list_lookup_insert_eq. by eapply lookup_lt_Some.
  - assert (field_index (l ++ [f]) name 0 = Some (length l)) as ->.
    { apply field_index_None in Hi. assert (∀ k, field_index (l ++ [f]) name k = Some (length l + k)) as H.
      { induction l as [|g l IH]; intros k; simpl.
        - by rewrite bool_decide_true.
        - rewrite bool_decide_false by set_solver. rewrite IH by set_solver. f_equal. lia. }
      rewrite H. f_equal. lia. }
    by rewrite insert_app_r_alt, Nat.sub_diag by lia.
Qed.
End field_lists.
