(* ===== verification/DocFieldSpec.v ===== *)
(** * What the field accessors do to a handle

    [doc_ok] is the invariant of an open handle; [puts d name f d'] says that
    [d'] is [d] with the field called [name] set to [f]. Every setter either
    fails and changes no other field, or puts its value. *)

From S2P Require Import Prelude Config Env Types FsEnv FsSpec Events Doubles Doc DocSpec.

Section values.
Context {Cfg : Config}.

(** The values a field of a type can hold. A string or byte field whose copy
    could not be allocated holds nothing. *)
Definition value_ok (t : zdb_doc_field_type_t) (v : zdb_doc_field_value_t) : Prop :=
  match t, v with
  | ZDB_DOC_FIELD_INT64, V_i64 z => (- 2 ^ 63 ≤ z < 2 ^ 63)%Z
  | ZDB_DOC_FIELD_DOUBLE, V_f64 z => (0 ≤ z < 2 ^ 64)%Z
  | ZDB_DOC_FIELD_BOOL, V_bool _ => True
  | ZDB_DOC_FIELD_STRING, V_str (Some s) => c_string s ∧ length s ≤ CONFIG_ZDB_DOC_MAX_STRING_LEN
  | ZDB_DOC_FIELD_BYTES, V_bytes (Some data) n =>
      length data = n ∧ 0 < n ≤ CONFIG_ZDB_DOC_MAX_BYTES_LEN
  | ZDB_DOC_FIELD_BYTES, V_bytes None n => n = 0
  | ZDB_DOC_FIELD_STRING, V_zero | ZDB_DOC_FIELD_BYTES, V_zero => True
  | _, _ => False
  end.

Definition name_ok (n : cstring) : Prop :=
  c_string n ∧ 1 ≤ length n ≤ CONFIG_ZDB_DOC_MAX_FIELD_NAME_LEN.

Definition field_ok (f : zdb_doc_field_t) : Prop :=
  (∃ n, fd_name f = Some n ∧ name_ok n) ∧ value_ok (fd_type f) (fd_value f).

Definition u64_ok (z : Z) : Prop := (0 ≤ z < 2 ^ 64)%Z.

(** An open handle. *)
Record doc_ok (d : zdb_doc_t) : Prop := {
  dk_valid : doc_valid d = true;
  dk_db : doc_db d = Some the_db;
  dk_coll : is_Some (collection_name d);
  dk_id : is_Some (document_id d);
  dk_max : max_fields d = CONFIG_ZDB_DOC_MAX_FIELD_COUNT;
  dk_array : ∃ l, fields d = Some l ∧ length l = max_fields d;
  dk_count : field_count d ≤ max_fields d;
  dk_fields : Forall field_ok (doc_fields d);
  dk_names : NoDup (map fd_name (doc_fields d));
  dk_created : u64_ok (created_ms d);
  dk_updated : u64_ok (updated_ms d);
}.

(** The heap blocks a handle owns. *)
Definition doc_blocks (d : zdb_doc_t) : nat :=
  opt_block (collection_name d) + opt_block (document_id d) + opt_block (fields d) +
  fields_blocks (doc_fields d).

Definition the_field (name : cstring) (t : zdb_doc_field_type_t) (v : zdb_doc_field_value_t)
    : zdb_doc_field_t := {| fd_name := Some name; fd_type := t; fd_value := v |}.

(** What [d] says of the field called [name]. *)
Definition doc_lookup (d : zdb_doc_t) (name : cstring)
    : option (zdb_doc_field_type_t * zdb_doc_field_value_t) :=
  (λ f, (fd_type f, fd_value f)) <$> field_lookup (doc_fields d) name.

(** What a handle keeps whatever is done to its fields. *)
Definition same_handle (d d' : zdb_doc_t) : Prop :=
  doc_valid d' = doc_valid d ∧ doc_db d' = doc_db d ∧ collection_name d' = collection_name d ∧
  document_id d' = document_id d ∧ max_fields d' = max_fields d ∧ created_ms d' = created_ms d.

#[global] Instance same_handle_preorder : PreOrder same_handle.
Proof.
  split; [by intros d|]. intros d1 d2 d3. unfold same_handle. naive_solver congruence.
Qed.

Record puts d (name : cstring) (f : zdb_doc_field_t) d' : Prop := {
  pt_fields : doc_fields d' = put_field (doc_fields d) name f;
  pt_array : ∃ l, fields d' = Some l ∧ length l = max_fields d';
  pt_count : field_count d' ≤ max_fields d';
  pt_rest : same_handle d d';
}.

Lemma u64_u64 z : u64_ok (u64 z).
Proof. apply Z.mod_pos_bound. lia. Qed.

Lemma puts_ok d name t v d' :
  doc_ok d → puts d name (the_field name t v) d' → name_ok name → value_ok t v →
  u64_ok (updated_ms d') → doc_ok d'.
Proof.
  intros [] [] Hn Hv Hu. destruct pt_rest0 as (? & ? & ? & ? & ? & ?).
  split; rewrite ?pt_fields0; try congruence.
  - apply put_field_Forall; [|done]. split; [by exists name|done].
  - by apply put_field_names.
Qed.

Lemma puts_lookup d name t v d' :
  doc_ok d → puts d name (the_field name t v) d' → doc_lookup d' name = Some (t, v).
Proof.
  intros Hd Hp. unfold doc_lookup. rewrite (pt_fields _ _ _ _ Hp), put_field_lookup; [done|done|apply Hd].
Qed.

Lemma puts_lookup_ne d name t v d' name' :
  doc_ok d → puts d name (the_field name t v) d' → name' ≠ name →
  doc_lookup d' name' = doc_lookup d name'.
Proof.
  intros Hd Hp Hne. unfold doc_lookup. rewrite (pt_fields _ _ _ _ Hp), put_field_lookup_ne; [done|done|apply Hd|done].
Qed.

Lemma puts_twice d name t v t' v' d' d'' :
  puts d name (the_field name t v) d' → puts d' name (the_field name t' v') d'' →
  puts d name (the_field name t' v') d''.
Proof.
  intros [F1 A1 C1 R1] [F2 A2 C2 R2]. split; [|done|done|by etrans].
  rewrite F2, F1. by apply put_field_twice.
Qed.

Lemma doc_fields_upd d i g l :
  fields d = Some l → i < field_count d → doc_fields (field_upd i g d) = alter g i (doc_fields d).
Proof.
  intros Hl Hi. unfold doc_fields, field_upd. simpl. rewrite Hl. simpl.
  apply list_eq. intros j. destruct (decide (j < field_count d)).
  - destruct (decide (j = i)) as [->|].
    + by rewrite list_lookup_alter_eq, !lookup_take_lt, list_lookup_alter_eq.
    + by rewrite list_lookup_alter_ne, !lookup_take_lt, list_lookup_alter_ne.
  - rewrite lookup_take_ge by lia. symmetry. apply lookup_ge_None. rewrite length_alter, length_take. lia.
Qed.

Lemma field_at_fields d i : i < field_count d → field_at d i = default zero_field (doc_fields d !! i).
Proof. intros Hi. unfold field_at, doc_fields. by rewrite lookup_take_lt. Qed.

Lemma doc_fields_insert d i f l :
  fields d = Some l → i < field_count d →
  doc_fields (field_upd i (λ _, f) d) = <[i := f]> (doc_fields d).
Proof.
  intros Hl Hi. rewrite (doc_fields_upd _ _ _ l) by done. apply list_eq. intros j.
  destruct (decide (j = i)) as [->|]; [|by rewrite list_lookup_alter_ne, list_lookup_insert_ne].
  rewrite list_lookup_alter_eq. destruct (doc_fields d !! i) eqn:E.
  - by rewrite list_lookup_insert_eq by (by eapply lookup_lt_Some).
  - simpl. symmetry. apply lookup_ge_None. rewrite length_insert. by apply lookup_ge_None.
Qed.

Lemma field_upd_array d i g l :
  fields d = Some l → length l = max_fields d →
  ∃ l', fields (field_upd i g d) = Some l' ∧ length l' = max_fields (field_upd i g d).
Proof. intros Hl Hlen. exists (alter g i l). unfold field_upd. cbn. by rewrite Hl, length_alter. Qed.

(** Replacing the field that was put. *)
Lemma puts_upd d name t v d' i t' v' :
  puts d name (the_field name t v) d' →
  field_index (doc_fields d') name 0 = Some i → doc_fields d' !! i = Some (the_field name t v) →
  let d'' := field_upd i (λ _, the_field name t' v') d' in
  puts d name (the_field name t' v') d'' ∧
  doc_blocks d'' + payload_blocks v = doc_blocks d' + payload_blocks v'.
Proof.
  intros [F1 (l & Hl & Hlen) C1 R1] Hx Hi d''.
  assert (i < field_count d') as Hlt.
  { apply lookup_lt_Some in Hi. unfold doc_fields in Hi. rewrite length_take in Hi. lia. }
  pose proof (doc_fields_insert d' i (the_field name t' v') l Hl Hlt) as Hf. fold d'' in Hf. split.
  - split; [|by eapply field_upd_array|done|done].
    rewrite Hf, <- (put_field_twice (doc_fields d) name (the_field name t v)) by done.
    rewrite <- F1. unfold put_field. by rewrite Hx.
  - unfold doc_blocks. rewrite Hf.
    pose proof (fields_blocks_insert _ _ (the_field name t' v') _ Hi) as Hb.
    unfold field_blocks in Hb. unfold d'', field_upd. cbn in *. rewrite Hl. cbn. lia.
Qed.
End values.

Section setters.
Context {Cfg : Config} {CfgOk : ConfigOk Cfg} {K F FS FH DH : Type}.
Context `{!Kernel K, !KernelLaws K, !FileSys FS FH DH}.
Abbreviation W := (world K F FS).
Implicit Types w : W.

(** Applying a function to a field that is known. *)
Lemma field_upd_const d i h g :
  doc_fields d !! i = Some g → field_upd i h d = field_upd i (λ _, h g) d.
Proof.
  intros Hg. unfold doc_fields in Hg. apply lookup_take_Some in Hg as [Hg _].
  unfold field_upd. destruct d; simpl in *. unfold RecordSettersUsingExistingGetters.set; simpl.
  destruct fields as [l|]; [|done]. simpl in *. do 2 f_equal. apply list_eq. intros j.
  destruct (decide (j = i)) as [->|]; [|by rewrite !list_lookup_alter_ne].
  by rewrite !list_lookup_alter_eq, Hg.
Qed.

Lemma payload_blocks_ok t v :
  value_ok t v → t = ZDB_DOC_FIELD_STRING ∨ t = ZDB_DOC_FIELD_BYTES ∨ payload_blocks v = 0.
Proof. destruct t, v; simpl; auto; done. Qed.

Lemma wp_payload_free f (Q : zdb_doc_field_t → W → Prop) w :
  value_ok (fd_type f) (fd_value f) → payload_blocks (fd_value f) ≤ heap_used (w_k w) →
  (∀ v' w', payload_blocks v' = 0 → held (payload_blocks (fd_value f)) 0 w w' → w_fs w' = w_fs w →
     Q (f <| fd_value := v' |>) w') →
  wp (zdb_doc_field_payload_free f) Q w.
Proof.
  intros Hv Hh HQ. unfold zdb_doc_field_payload_free. apply wp_bind.
  assert (payload_blocks (fd_value f) = 0 → Q f w) as Hsame.
  { intros H0. specialize (HQ (fd_value f) w H0). rewrite H0 in HQ.
    assert (f <| fd_value := fd_value f |> = f) as E by (by destruct f). rewrite E in HQ.
    apply HQ; [apply held_refl|done]. }
  destruct f as [n t v]. simpl in *.
  destruct t, v as [| | |[s|]| |[data|] len]; simpl in *; try done;
    try (apply wp_ret; simpl; apply wp_ret, Hsame; done).
  - apply wp_bind, wp_heap_free; [lia|]. intros w' H1 H2. apply wp_ret. simpl. apply wp_ret.
    by apply (HQ (V_str None)).
  - apply wp_ret. simpl. apply wp_bind, wp_heap_free; [lia|]. intros w' H1 H2. apply wp_ret.
    by apply (HQ (V_bytes None 0)).
Qed.

Lemma in_fields_blocks l i f : l !! i = Some f → field_blocks f ≤ fields_blocks l.
Proof.
  intros Hi. rewrite <- (take_drop_middle l i f Hi), fields_blocks_app. unfold fields_blocks. simpl. lia.
Qed.

(** What a setter finds: the field by its name, of its type, holding what it
    held, or nothing when it is new or was of another type. *)
Record prepared d (name : cstring) (t : zdb_doc_field_type_t) d' (i : nat)
    (v : zdb_doc_field_value_t) : Prop := {
  pp_name : name_ok name;
  pp_puts : puts d name (the_field name t v) d';
  pp_index : field_index (doc_fields d') name 0 = Some i;
  pp_field : doc_fields d' !! i = Some (the_field name t v);
  pp_value : (v = V_zero ∧ (doc_lookup d name = None ∨ ∃ t' v', doc_lookup d name = Some (t', v') ∧ t' ≠ t)) ∨
             (value_ok t v ∧ doc_lookup d name = Some (t, v) ∧ doc_fields d' = doc_fields d);
  pp_updated : updated_ms d' = updated_ms d;
}.

(** Making a field that is not there. *)
Lemma prepared_new d name t l :
  doc_ok d → name_ok name → fields d = Some l → field_count d < max_fields d →
  field_index (doc_fields d) name 0 = None →
  let d' := field_upd (field_count d) (λ _, the_field name t V_zero)
              (d <| field_count := S (field_count d) |>) in
  prepared d name t d' (field_count d) V_zero ∧ doc_blocks d' = S (doc_blocks d).
Proof.
  intros Hd Hn Hl Hc Hx d'. destruct (dk_array _ Hd) as (l' & Hl' & Hlen). simplify_eq.
  assert (length (doc_fields d) = field_count d) as Hlf.
  { unfold doc_fields. rewrite Hl, length_take. simpl. lia. }
  assert (doc_fields d' = doc_fields d ++ [the_field name t V_zero]) as Hf.
  { unfold d'. rewrite (doc_fields_insert _ _ _ l) by (simpl; done || lia).
    unfold doc_fields at 1. simpl. rewrite Hl. simpl.
    destruct (lookup_lt_is_Some_2 l (field_count d)) as [g Hg]; [lia|].
    rewrite (take_S_r _ _ _ Hg), insert_app_r_alt by (rewrite length_take; lia).
    rewrite length_take, Nat.min_l, Nat.sub_diag by lia. unfold doc_fields. by rewrite Hl. }
  split.
  - assert (puts d name (the_field name t V_zero) d') as Hp.
    { split; [|apply (field_upd_array _ _ _ l); [done|exact Hlen]|simpl; lia|done].
      rewrite Hf. unfold put_field. by rewrite Hx. }
    pose proof Hx as Hx'. apply field_index_None in Hx'.
    split; [done|done| | | |done].
    + rewrite Hf. assert (field_lookup (put_field (doc_fields d) name (the_field name t V_zero)) name =
        Some (the_field name t V_zero)) as Hlk by (apply put_field_lookup; [done|apply Hd]).
      destruct (field_index (doc_fields d ++ _) name 0) as [j|] eqn:Hj.
      * f_equal. apply field_index_lookup in Hj as (g & Hg & Hgn).
        destruct (decide (j < length (doc_fields d))).
        -- rewrite lookup_app_l in Hg by done. destruct Hx'. apply list_elem_of_fmap.
           exists g. split; [done|]. by eapply list_elem_of_lookup_2.
        -- apply lookup_lt_Some in Hg. rewrite length_app in Hg. simpl in Hg. lia.
      * apply field_index_None in Hj. destruct Hj. rewrite map_app. set_solver.
    + rewrite Hf, <- Hlf. by rewrite lookup_app_r, Nat.sub_diag by lia.
    + left. split; [done|]. left. unfold doc_lookup, field_lookup. by rewrite Hx.
  - unfold doc_blocks. rewrite Hf, fields_blocks_app. unfold d', field_upd. cbn. rewrite Hl. cbn. lia.
Qed.
(** Setting the type of a field that is there, with a value for it. *)
Lemma prepared_old d name t v i g :
  doc_ok d → name_ok name → field_index (doc_fields d) name 0 = Some i →
  doc_fields d !! i = Some g → fd_name g = Some name →
  (v = V_zero ∧ fd_type g ≠ t) ∨ (v = fd_value g ∧ fd_type g = t) →
  let d' := field_upd i (λ _, the_field name t v) d in
  prepared d name t d' i v ∧ doc_blocks d' + payload_blocks (fd_value g) = doc_blocks d + payload_blocks v.
Proof.
  intros Hd Hn Hx Hg Hgn Hv d'. destruct (dk_array _ Hd) as (l & Hl & Hlen).
  assert (i < field_count d) as Hi.
  { apply lookup_lt_Some in Hg. unfold doc_fields in Hg. rewrite length_take in Hg. lia. }
  pose proof (doc_fields_insert d i (the_field name t v) l Hl Hi) as Hf. fold d' in Hf.
  assert (g = the_field name (fd_type g) (fd_value g)) as Eg by (destruct g; simpl in *; by subst).
  assert (puts d name (the_field name (fd_type g) (fd_value g)) d) as Hp0.
  { split; [|by exists l|apply Hd|done]. unfold put_field. rewrite Hx, <- Eg. by rewrite list_insert_id. }
  destruct (puts_upd d name _ _ d i t v Hp0 Hx) as [Hp Hb]; [by rewrite <- Eg|]. fold d' in Hp, Hb.
  split; [|exact Hb].
  assert (doc_lookup d name = Some (fd_type g, fd_value g)) as Hlk.
  { unfold doc_lookup, field_lookup. rewrite Hx. simpl. by rewrite Hg. }
  split; [done|done| | | |done].
  - rewrite Hf. assert (field_index (put_field (doc_fields d) name (the_field name t v)) name 0 = Some i) as E;
      [|unfold put_field in E; by rewrite Hx in E].
    pose proof (put_field_twice (doc_fields d) name (the_field name t v) (the_field name t V_zero) eq_refl) as H2.
    unfold put_field in *. rewrite Hx in *.
    destruct (field_index (<[i:=_]> _) name 0) as [j|] eqn:Hj.
    + f_equal. apply field_index_lookup in Hj as (h & Hh & Hhn).
      eapply (NoDup_lookup (map fd_name (doc_fields d))); [apply Hd|..].
      * erewrite <- (map_insert_same fd_name (doc_fields d) i (the_field name t v)), list_lookup_fmap
          by (done || by rewrite Hgn). rewrite Hh. simpl. by rewrite Hhn.
      * rewrite list_lookup_fmap, Hg. simpl. by rewrite Hgn.
    + apply field_index_None in Hj. destruct Hj. apply list_elem_of_fmap.
      exists (the_field name t v). split; [done|].
      eapply (list_elem_of_lookup_2 _ i), list_lookup_insert_eq. by eapply lookup_lt_Some.
  - rewrite Hf. apply list_lookup_insert_eq. by eapply lookup_lt_Some.
  - destruct Hv as [[-> Ht]|[-> Ht]].
    + left. split; [done|]. right. by exists (fd_type g), (fd_value g).
    + right. rewrite <- Ht. split_and!; [|done|].
      * pose proof (dk_fields _ Hd) as HF. rewrite Forall_lookup in HF. by apply (HF i g Hg).
      * rewrite Hf, <- Ht, <- Eg. by apply list_insert_id.
Qed.

Lemma wp_find_or_create d name t (Q : zdb_status_t * option zdb_doc_t * nat → W → Prop) w :
  doc_ok d → doc_blocks d ≤ heap_used (w_k w) → c_string name →
  (∀ st w', (st = ZDB_ERR_INVAL ∧ ¬ name_ok name) ∨
     (st = ZDB_ERR_NOMEM ∧ (doc_lookup d name = None) ∧
        (field_count d = max_fields d ∨ ¬ HeapLive K)) →
     held (doc_blocks d) (doc_blocks d) w w' → w_fs w' = w_fs w → Q (st, Some d, 0) w') →
  (∀ d' i v w', prepared d name t d' i v → held (doc_blocks d) (doc_blocks d') w w' →
     w_fs w' = w_fs w → Q (ZDB_OK, Some d', i) w') →
  wp (zdb_doc_field_find_or_create (Some d) (Some name) t) Q w.
Proof.
  intros Hd Hh Hname Hbad Hok. unfold zdb_doc_field_find_or_create. rewrite (dk_valid _ Hd). cbn [negb].
  destruct (_ || _) eqn:Hlen.
  { apply wp_ret, Hbad; [|apply held_refl|done]. left. split; [done|]. intros [_ Hl].
    apply orb_true_iff in Hlen as [?%Nat.eqb_eq|?%Nat.ltb_lt]; lia. }
  assert (name_ok name) as Hn.
  { split; [done|]. apply orb_false_iff in Hlen as [?%Nat.eqb_neq ?%Nat.ltb_ge]. lia. }
  destruct (field_index (doc_fields d) name 0) as [i|] eqn:Hx; cycle 1.
  - assert (doc_lookup d name = None) as Hnone by (unfold doc_lookup, field_lookup; by rewrite Hx).
    pose proof (dk_count _ Hd). destruct (Nat.leb_spec (max_fields d) (field_count d)).
    { apply wp_ret, Hbad; [|apply held_refl|done]. right. split_and!; [done|done|]. left. lia. }
    apply wp_bind, wp_strdup; [done| |].
    + intros w' H1 H2. apply wp_ret. destruct (dk_array _ Hd) as (l & Hl & _).
      destruct (prepared_new d name t l Hd Hn Hl) as [Hp Hb]; [lia|done|].
      eapply Hok; [exact Hp| |done]. eapply (held_frame (doc_blocks d)); [| |exact H1]; [lia|exact Hb].
    + intros w' H1 H2 Hl. apply wp_ret, Hbad; [right; auto| |done].
      eapply (held_frame (doc_blocks d)); [| |exact H1]; lia.
  - destruct (field_index_lookup _ _ _ Hx) as (g & Hg & Hgn).
    assert (i < field_count d) as Hi.
    { apply lookup_lt_Some in Hg. unfold doc_fields in Hg. rewrite length_take in Hg. lia. }
    assert (field_at d i = g) as -> by (by rewrite field_at_fields, Hg).
    assert (g = the_field name (fd_type g) (fd_value g)) as Eg by (destruct g; simpl in *; by subst).
    assert (field_ok g) as [_ Hvok].
    { pose proof (dk_fields _ Hd) as HF. rewrite Forall_lookup in HF. by apply (HF i g Hg). }
    apply wp_bind. case_bool_decide as Ht.
    + apply wp_ret, wp_ret. destruct (prepared_old d name t (fd_value g) i g) as [Hp Hb]; auto.
      rewrite (field_upd_const d i _ g) by done.
      replace (g <| fd_type := t |>) with (the_field name t (fd_value g)) by (rewrite Eg; by rewrite <- Ht).
      eapply Hok; [exact Hp| |done]. replace (doc_blocks (field_upd _ _ _)) with (doc_blocks d) by lia.
      apply held_refl.
    + apply wp_bind, wp_payload_free; [done| |].
      { pose proof (in_fields_blocks _ _ _ Hg). unfold field_blocks, doc_blocks in *. lia. }
      intros v' w' Hv' H1 H2. apply wp_ret, wp_ret.
      destruct (prepared_old d name t V_zero i g) as [Hp Hb]; auto.
      assert (field_upd i (λ f, f <| fd_type := t |>)
        (field_upd i (λ _, g <| fd_value := v' |> <| fd_value := V_zero |>) d) =
        field_upd i (λ _, the_field name t V_zero) d) as ->.
      { rewrite Eg. unfold field_upd. destruct d; simpl in *.
        unfold RecordSettersUsingExistingGetters.set; simpl. destruct fields as [l|]; [|done].
        simpl. do 2 f_equal. apply list_eq. intros j. destruct (decide (j = i)) as [->|].
        - rewrite !list_lookup_alter_eq. by destruct (l !! i).
        - by rewrite !list_lookup_alter_ne. }
      eapply Hok; [exact Hp| |done].
      pose proof (in_fields_blocks _ _ _ Hg). unfold field_blocks in *. simpl in Hb.
      assert (payload_blocks (fd_value g) ≤ doc_blocks d) by (unfold doc_blocks; lia).
      eapply (held_frame (doc_blocks d - payload_blocks (fd_value g))); [| |exact H1]; lia.
Qed.

Lemma wp_store_value d i v (Q : zdb_status_t * option zdb_doc_t → W → Prop) w :
  (∀ now w', u64_ok now → held 0 0 w w' → w_fs w' = w_fs w →
     Q (ZDB_OK, Some (field_upd i (λ f, f <| fd_value := v |>) d <| updated_ms := now |>)) w') →
  wp (store_value (Some d) i v) Q w.
Proof.
  intros HQ. unfold store_value. apply wp_bind, wp_uptime. intros now w' Hnow H1 H2. apply wp_ret.
  apply HQ; [apply u64_u64|done|done].
Qed.

(** The end of a setter. *)
Lemma wp_store_put d name t d' i v v' (Q : zdb_status_t * option zdb_doc_t → W → Prop) w :
  doc_ok d → prepared d name t d' i v → value_ok t v' →
  (∀ d'' w', doc_ok d'' → puts d name (the_field name t v') d'' →
     doc_blocks d'' + payload_blocks v = doc_blocks d' + payload_blocks v' →
     held 0 0 w w' → w_fs w' = w_fs w → Q (ZDB_OK, Some d'') w') →
  wp (store_value (Some d') i v') Q w.
Proof.
  intros Hd [Hn Hp Hx Hf _ _] Hv HQ. apply wp_store_value. intros now w' Hnow H1 H2.
  set (d1 := d' <| updated_ms := now |>).
  assert (puts d name (the_field name t v) d1) as Hp1 by (destruct Hp; by split).
  assert (doc_fields d1 !! i = Some (the_field name t v)) as Hf1 by exact Hf.
  change (Q (ZDB_OK, Some (field_upd i (λ f, f <| fd_value := v' |>) d1)) w').
  rewrite (field_upd_const d1 i _ _ Hf1).
  destruct (puts_upd d name t v d1 i t v' Hp1 Hx Hf1) as [Hp2 Hb].
  apply HQ; [|exact Hp2|exact Hb|done|done]. by eapply puts_ok.
Qed.
(** ** The setters *)

(** What a call that sets the field called [name] to [v] reports and leaves. A
    failure leaves every field as it was, but for a field of this name whose
    old value was of another type, or which is new: it may be left empty. *)
Record set_result d name t v (st : zdb_status_t) d' w w' : Prop := {
  sr_ok : doc_ok d';
  sr_held : held (doc_blocks d) (doc_blocks d') w w';
  sr_fs : w_fs w' = w_fs w;
  sr_done : st = ZDB_OK → name_ok name ∧ puts d name (the_field name t v) d';
  sr_fail : st ≠ ZDB_OK → (st = ZDB_ERR_INVAL ∨ st = ZDB_ERR_NOMEM) ∧
    (d' = d ∨ doc_fields d' = doc_fields d ∨
     (puts d name (the_field name t V_zero) d' ∧ (t = ZDB_DOC_FIELD_STRING ∨ t = ZDB_DOC_FIELD_BYTES)));
  sr_live : HeapLive K → name_ok name → value_ok t v →
    (is_Some (doc_lookup d name) ∨ field_count d < max_fields d) → st = ZDB_OK;
  sr_same : same_handle d d';
}.

Lemma set_result_fail d name t v st w w' :
  doc_ok d → held (doc_blocks d) (doc_blocks d) w w' → w_fs w' = w_fs w →
  st = ZDB_ERR_INVAL ∨ st = ZDB_ERR_NOMEM →
  (HeapLive K → name_ok name → value_ok t v →
    (is_Some (doc_lookup d name) ∨ field_count d < max_fields d) → False) →
  set_result d name t v st d w w'.
Proof.
  intros Hd Hh Hf Hst Hno. split; try done; auto.
  - intros ->. by destruct Hst.
  - intros. by exfalso; eauto.
Qed.

Lemma prepared_ok d name t d' i v :
  doc_ok d → prepared d name t d' i v → value_ok t v → doc_ok d'.
Proof.
  intros Hd Hp Hv. eapply puts_ok; [done|apply Hp|apply Hp|done|].
  rewrite (pp_updated _ _ _ _ _ _ Hp). apply Hd.
Qed.

Lemma find_fail d name t v st w w' :
  doc_ok d →
  (st = ZDB_ERR_INVAL ∧ ¬ name_ok name) ∨
  (st = ZDB_ERR_NOMEM ∧ doc_lookup d name = None ∧ (field_count d = max_fields d ∨ ¬ HeapLive K)) →
  held (doc_blocks d) (doc_blocks d) w w' → w_fs w' = w_fs w → set_result d name t v st d w w'.
Proof.
  intros Hd Hc H1 H2. apply set_result_fail; [done..|naive_solver|].
  intros Hlive Hn _ Hroom. destruct Hc as [[_ ?]|(_ & Hnone & [?|?])]; [done| |done].
  rewrite Hnone in Hroom. destruct Hroom as [[? ?]|?]; [done|lia].
Qed.

Lemma find_status d name st :
  (st = ZDB_ERR_INVAL ∧ ¬ name_ok name) ∨
  (st = ZDB_ERR_NOMEM ∧ doc_lookup d name = None ∧ (field_count d = max_fields d ∨ ¬ HeapLive K)) →
  bool_decide (st = ZDB_OK) = false.
Proof. intros [[-> _]|[-> _]]; by apply bool_decide_false. Qed.

(** Setters of values that need no allocation. *)
Lemma wp_set_scalar d name t v (Q : zdb_status_t * option zdb_doc_t → W → Prop) w :
  doc_ok d → doc_blocks d ≤ heap_used (w_k w) → c_string name → value_ok t v → payload_blocks v = 0 →
  (∀ v', value_ok t v' → payload_blocks v' = 0) →
  (∀ st d' w', set_result d name t v st d' w w' → Q (st, Some d') w') →
  wp ('(rc, doc, i) ← zdb_doc_field_find_or_create (Some d) (Some name) t;
      if negb (bool_decide (rc = ZDB_OK)) then ret (rc, doc) else store_value doc i v) Q w.
Proof.
  intros Hd Hh Hn Hv H0 Hany HQ. apply wp_bind, wp_find_or_create; [done..| |].
  - intros st w' Hc H1 H2. rewrite (find_status _ _ _ Hc). cbn [negb]. apply wp_ret, HQ. by apply find_fail.
  - intros d' i v0 w' Hp H1 H2. rewrite bool_decide_true by done. cbn [negb].
    assert (payload_blocks v0 = 0) as Hv0.
    { destruct (pp_value _ _ _ _ _ _ Hp) as [[-> _]|[? _]]; [done|by apply Hany]. }
    eapply wp_store_put; [exact Hd|exact Hp|done|]. intros d'' w'' Hok Hput Hb H3 H4. apply HQ.
    split; [done| |congruence|by split; [apply Hp|]|done|done|apply Hput].
    eapply held_trans; [exact H1|]. eapply (held_frame (doc_blocks d'')); [| |exact H3]; lia.
Qed.

Lemma wp_set_i64 d name z (Q : zdb_status_t * option zdb_doc_t → W → Prop) w :
  doc_ok d → doc_blocks d ≤ heap_used (w_k w) → c_string name → (- 2 ^ 63 ≤ z < 2 ^ 63)%Z →
  (∀ st d' w', set_result d name ZDB_DOC_FIELD_INT64 (V_i64 z) st d' w w' → Q (st, Some d') w') →
  wp (zdb_doc_field_set_i64 (Some d) (Some name) z) Q w.
Proof. intros. apply wp_set_scalar; try done. by intros []. Qed.

Lemma wp_set_f64 d name z (Q : zdb_status_t * option zdb_doc_t → W → Prop) w :
  doc_ok d → doc_blocks d ≤ heap_used (w_k w) → c_string name → (0 ≤ z < 2 ^ 64)%Z →
  (∀ st d' w', set_result d name ZDB_DOC_FIELD_DOUBLE (V_f64 z) st d' w w' → Q (st, Some d') w') →
  wp (zdb_doc_field_set_f64 (Some d) (Some name) z) Q w.
Proof. intros. apply wp_set_scalar; try done. by intros []. Qed.

Lemma wp_set_bool d name b (Q : zdb_status_t * option zdb_doc_t → W → Prop) w :
  doc_ok d → doc_blocks d ≤ heap_used (w_k w) → c_string name →
  (∀ st d' w', set_result d name ZDB_DOC_FIELD_BOOL (V_bool b) st d' w w' → Q (st, Some d') w') →
  wp (zdb_doc_field_set_bool (Some d) (Some name) b) Q w.
Proof. intros. apply wp_set_scalar; try done. by intros []. Qed.

(** The field a failed copy leaves. *)
Lemma prepared_fail d name t d' i v v' st w w' :
  doc_ok d → prepared d name t d' i v → value_ok t V_zero →
  t = ZDB_DOC_FIELD_STRING ∨ t = ZDB_DOC_FIELD_BYTES → st = ZDB_ERR_NOMEM → ¬ HeapLive K →
  held (doc_blocks d) (doc_blocks d') w w' → w_fs w' = w_fs w → set_result d name t v' st d' w w'.
Proof.
  intros Hd Hp Hz Ht -> Hl Hh Hf.
  split; [|done|done|done|intros _; split; [by right|]; right|by intros|apply Hp].
  - destruct (pp_value _ _ _ _ _ _ Hp) as [[-> _]|[? _]]; by eapply prepared_ok.
  - destruct (pp_value _ _ _ _ _ _ Hp) as [[-> _]|(_ & _ & ?)]; [|by left].
    right. split; [apply Hp|done].
Qed.

(** The end of a setter that allocates: the old copy is freed and the new one
    stored. *)
Lemma wp_store_copy {A} d name t d' i v v' (old : option A) (Q : zdb_status_t * option zdb_doc_t → W → Prop) w0 w :
  doc_ok d → prepared d name t d' i v → value_ok t v' → opt_block old = payload_blocks v →
  doc_blocks d ≤ heap_used (w_k w0) →
  held (doc_blocks d) (doc_blocks d' + payload_blocks v') w0 w → w_fs w = w_fs w0 →
  (∀ d'' w', set_result d name t v' ZDB_OK d'' w0 w' → Q (ZDB_OK, Some d'') w') →
  wp (free_ptr old;; store_value (Some d') i v') Q w.
Proof.
  intros Hd Hp Hv Hold Hh H1 H2 HQ. apply wp_bind.
  assert (payload_blocks v ≤ doc_blocks d') as Hle.
  { pose proof (in_fields_blocks _ _ _ (pp_field _ _ _ _ _ _ Hp)) as Hb.
    unfold field_blocks in Hb. simpl in Hb. unfold doc_blocks. lia. }
  apply wp_free_ptr; [rewrite Hold; pose proof (held_enough _ _ _ _ H1 Hh); lia|].
  intros w1 H3 H4. eapply wp_store_put; [exact Hd|exact Hp|done|].
  intros d'' w2 Hok Hput Hb H5 H6. apply HQ. split; [done| |congruence|by split; [apply Hp|]|done|done|apply Hput].
  eapply held_trans; [exact H1|]. rewrite Hold in H3.
  eapply (held_trans (doc_blocks d' + payload_blocks v' - payload_blocks v)).
  - eapply (held_frame (doc_blocks d' + payload_blocks v' - payload_blocks v)); [| |exact H3]; lia.
  - eapply (held_frame (doc_blocks d'')); [| |exact H5]; lia.
Qed.

Lemma prepared_field_at d name t d' i v :
  prepared d name t d' i v → field_at d' i = the_field name t v.
Proof.
  intros Hp. pose proof (pp_field _ _ _ _ _ _ Hp) as Hf. rewrite field_at_fields, Hf; [done|].
  apply lookup_lt_Some in Hf. unfold doc_fields in Hf. rewrite length_take in Hf. lia.
Qed.

Lemma wp_set_string d name s (Q : zdb_status_t * option zdb_doc_t → W → Prop) w :
  doc_ok d → doc_blocks d ≤ heap_used (w_k w) → c_string name → c_string s →
  (∀ st d' w', set_result d name ZDB_DOC_FIELD_STRING (V_str (Some s)) st d' w w' → Q (st, Some d') w') →
  wp (zdb_doc_field_set_string (Some d) (Some name) (Some s)) Q w.
Proof.
  intros Hd Hh Hn Hs HQ. unfold zdb_doc_field_set_string.
  destruct (Nat.ltb_spec CONFIG_ZDB_DOC_MAX_STRING_LEN (length s)).
  { apply wp_ret, HQ, set_result_fail; [done|apply held_refl|done|by left|]. intros _ _ [_ ?]. lia. }
  apply wp_bind, wp_find_or_create; [done..| |].
  { intros st w' Hc H1 H2. rewrite (find_status _ _ _ Hc). cbn [negb]. apply wp_ret, HQ. by apply find_fail. }
  intros d' i v w' Hp H1 H2. rewrite bool_decide_true by done. cbn [negb].
  apply wp_bind, wp_strdup; [done| |].
  - intros w1 H3 H4. cbn [fmap option_fmap option_map default].
    rewrite (prepared_field_at _ _ _ _ _ _ Hp), bool_decide_true by done.
    eapply (wp_store_copy _ _ _ _ _ _ (V_str (Some s))); [exact Hd|exact Hp|done| |exact Hh| |congruence|].
    + simpl. destruct (pp_value _ _ _ _ _ _ Hp) as [[-> _]|[Hv _]]; [done|]. destruct v as [| | |[]| |]; done.
    + eapply held_trans; [exact H1|]. simpl. eapply (held_frame (doc_blocks d')); [| |exact H3]; lia.
    + intros d'' w2 Hr. by apply HQ.
  - intros w1 H3 H4 Hl. apply wp_ret, HQ. eapply prepared_fail; [exact Hd|exact Hp|done|by left|done|done| |congruence].
    eapply held_trans; [exact H1|]. eapply (held_frame (doc_blocks d')); [| |exact H3]; lia.
Qed.

(** What a span of [len] bytes is stored as. *)
Definition bytes_value (value : option (list byte)) (len : nat) : zdb_doc_field_value_t :=
  if len =? 0 then V_bytes None 0 else V_bytes (take len <$> value) len.

Lemma wp_set_bytes d name value len (Q : zdb_status_t * option zdb_doc_t → W → Prop) w :
  doc_ok d → doc_blocks d ≤ heap_used (w_k w) → c_string name →
  (∀ data, value = Some data → len ≤ length data) →
  (∀ st d' w', set_result d name ZDB_DOC_FIELD_BYTES (bytes_value value len) st d' w w' → Q (st, Some d') w') →
  wp (zdb_doc_field_set_bytes (Some d) (Some name) value len) Q w.
Proof.
  intros Hd Hh Hn Hlen HQ. unfold zdb_doc_field_set_bytes.
  destruct (negb (bool_decide (is_Some value)) && (0 <? len)) eqn:Hnull.
  { apply andb_true_iff in Hnull as [Hnull%negb_true_iff%bool_decide_eq_false Hlt%Nat.ltb_lt].
    apply wp_ret, HQ, set_result_fail; [done|apply held_refl|done|by left|].
    intros _ _ Hv. unfold bytes_value in Hv. destruct (Nat.eqb_spec len 0); [lia|].
    destruct value; [by destruct Hnull|]. simpl in Hv. lia. }
  destruct (Nat.ltb_spec CONFIG_ZDB_DOC_MAX_BYTES_LEN len) as [Hbig|Hsmall].
  { apply wp_ret, HQ, set_result_fail; [done|apply held_refl|done|by left|].
    intros _ _ Hv. unfold bytes_value in Hv. destruct (Nat.eqb_spec len 0); [lia|].
    destruct value; simpl in Hv; lia. }
  apply wp_bind, wp_find_or_create; [done..| |].
  { intros st w' Hc H1 H2. rewrite (find_status _ _ _ Hc). cbn [negb]. apply wp_ret, HQ. by apply find_fail. }
  intros d' i v w' Hp H1 H2. rewrite bool_decide_true by done. cbn [negb].
  assert (value_ok ZDB_DOC_FIELD_BYTES (bytes_value value len)) as Hv.
  { unfold bytes_value. destruct (Nat.eqb_spec len 0); [done|]. destruct value as [data|].
    - simpl. specialize (Hlen data eq_refl). rewrite length_take. lia.
    - apply andb_false_iff in Hnull as [?|Hz%Nat.ltb_ge]; [done|lia]. }
  assert (opt_block (value_bytes v).1 = payload_blocks v) as Hold.
  { destruct (pp_value _ _ _ _ _ _ Hp) as [[-> _]|[Hv' _]]; [done|]. destruct v as [| | |?| |[] ?]; done. }
  assert (∀ w1 dup, dup = (if len =? 0 then None else take len <$> value) →
    held (doc_blocks d) (doc_blocks d' + payload_blocks (bytes_value value len)) w w1 → w_fs w1 = w_fs w →
    wp (if (0 <? len) && negb (bool_decide (is_Some dup)) then ret (ZDB_ERR_NOMEM, Some d')
        else let field := default zero_field ((λ d, field_at d i) <$> Some d') in
             (if bool_decide (fd_type field = ZDB_DOC_FIELD_BYTES)
              then free_ptr (value_bytes (fd_value field)).1 else ret tt);;
             store_value (Some d') i (V_bytes dup len)) Q w1) as Hend.
  { intros w1 dup Hdup H3 H4. assert (V_bytes dup len = bytes_value value len) as ->.
    { unfold bytes_value. rewrite Hdup. destruct (Nat.eqb_spec len 0) as [->|]; done. }
    destruct ((0 <? len) && _) eqn:Hoom.
    { apply andb_true_iff in Hoom as [Hlt%Nat.ltb_lt Hno%negb_true_iff%bool_decide_eq_false]. exfalso. apply Hno.
      rewrite Hdup. destruct (Nat.eqb_spec len 0); [lia|]. destruct value; [by eexists|].
      apply andb_false_iff in Hnull as [?|Hz%Nat.ltb_ge]; [done|lia]. }
    cbv zeta. cbn [fmap option_fmap option_map default].
    rewrite (prepared_field_at _ _ _ _ _ _ Hp), bool_decide_true by done.
    eapply wp_store_copy; [exact Hd|exact Hp|done|exact Hold|exact Hh|exact H3|done|]. intros d'' w2 Hr. by apply HQ. }
  apply wp_bind, wp_alloc_copy.
  - intros data w1 Hdata Hne H3 H4. destruct value as [data'|]; [|done]. simpl in Hdata.
    injection Hdata as Hdata. assert (len ≠ 0) by (intros ->; by rewrite take_0 in Hdata).
    apply Hend; [|unfold bytes_value|congruence]; (destruct (Nat.eqb_spec len 0); [done|]).
    + done.
    + simpl. eapply held_trans; [exact H1|]. eapply (held_frame (doc_blocks d')); [| |exact H3]; lia.
  - intros w1 H3 H4 Hl. destruct (decide (len = 0)) as [Hz|Hnz].
    + apply Hend; [by rewrite Hz|unfold bytes_value; rewrite Hz; simpl|congruence].
      eapply held_trans; [exact H1|]. eapply (held_frame (doc_blocks d')); [| |exact H3]; lia.
    + assert (∃ data, value = Some data) as [data ->].
      { destruct value; [by eexists|]. apply andb_false_iff in Hnull as [?|Hz%Nat.ltb_ge]; [done|lia]. }
      rewrite (proj2 (Nat.ltb_lt 0 len)) by lia. rewrite bool_decide_false by (by intros []). cbn [negb andb].
      apply wp_ret, HQ. eapply prepared_fail; [exact Hd|exact Hp|done|by right|done| | |congruence].
      * intros Hlive. destruct (Hl Hlive) as [?|[= Hz]]; [done|].
        specialize (Hlen data eq_refl). apply (f_equal length) in Hz. rewrite length_take in Hz. simpl in Hz. lia.
      * eapply held_trans; [exact H1|]. eapply (held_frame (doc_blocks d')); [| |exact H3]; lia.
Qed.
End setters.
