(* ===== verification/DocHandleSpec.v ===== *)
(** * Creating, resetting and closing handles, and reading fields *)

From S2P Require Import Prelude Config Env Types FsEnv FsSpec Events Doubles Doc DocSpec DocFieldSpec.

Section handles.
Context {Cfg : Config} {CfgOk : ConfigOk Cfg} {K F FS FH DH : Type}.
Context `{!Kernel K, !KernelLaws K, !FileSys FS FH DH}.
Abbreviation W := (world K F FS).
Implicit Types (w : W) (d : zdb_doc_t).

(** ** Releasing *)

Lemma wp_free_fields l (Q : unit → W → Prop) w :
  Forall field_ok l → fields_blocks l ≤ heap_used (w_k w) →
  (∀ w', held (fields_blocks l) 0 w w' → w_fs w' = w_fs w → Q tt w') →
  wp (free_fields l) Q w.
Proof.
  intros Hl. revert Q w. induction Hl as [|f l [(n & Hn & _) Hv] _ IH]; intros Q w Hh HQ.
  { apply wp_ret, HQ; [apply held_refl|done]. }
  simpl in Hh. unfold field_blocks in Hh. rewrite Hn in Hh. simpl in Hh.
  simpl. apply wp_bind. unfold zdb_doc_field_value_free. rewrite Hn.
  apply wp_bind, wp_free_ptr; [simpl; lia|]. intros w1 H1 H2. simpl in H1.
  apply wp_payload_free; [done|simpl; pose proof (he_heap _ _ _ _ H1); lia|].
  intros v' w2 _ H3 H4. simpl in H3.
  pose proof (he_heap _ _ _ _ H1). pose proof (he_heap _ _ _ _ H3).
  unfold fields_blocks in *. apply IH; [lia|]. intros w3 H5 H6. apply HQ; [|congruence].
  replace (sum_list_with field_blocks (f :: l))
    with (1 + payload_blocks (fd_value f) + sum_list_with field_blocks l)
    by (simpl; unfold field_blocks at 2; by rewrite Hn).
  eapply (held_trans (payload_blocks (fd_value f) + sum_list_with field_blocks l)).
  - eapply (held_frame (payload_blocks (fd_value f) + sum_list_with field_blocks l)); [| |exact H1]; lia.
  - eapply held_trans; [|exact H5].
    eapply (held_frame (sum_list_with field_blocks l)); [| |exact H3]; lia.
Qed.

Lemma doc_ok_reset d :
  doc_ok d →
  let d' := d <| fields := Some (replicate (max_fields d) zero_field) |> <| field_count := 0 |> in
  doc_ok d' ∧ doc_fields d' = [] ∧ doc_blocks d = doc_blocks d' + fields_blocks (doc_fields d).
Proof.
  intros [] d'. split_and!.
  - split; simpl; try done.
    + eexists. split; [done|]. by rewrite length_replicate.
    + lia.
    + constructor.
  - done.
  - destruct dk_array as (l & Hl & _). unfold doc_blocks. assert (fields_blocks (doc_fields d') = 0) as -> by done.
    rewrite Hl. simpl. lia.
Qed.

Lemma wp_fields_reset d (Q : zdb_doc_t → W → Prop) w :
  doc_ok d → doc_blocks d ≤ heap_used (w_k w) →
  (∀ w', let d' := d <| fields := Some (replicate (max_fields d) zero_field) |> <| field_count := 0 |> in
     doc_ok d' → doc_fields d' = [] → held (doc_blocks d) (doc_blocks d') w w' → w_fs w' = w_fs w →
     Q d' w') →
  wp (zdb_doc_fields_reset d) Q w.
Proof.
  intros Hd Hh HQ. destruct (doc_ok_reset d Hd) as (Hok & Hnil & Hb). unfold zdb_doc_fields_reset.
  destruct (dk_array _ Hd) as (l & Hl & Hlen). rewrite Hl.
  assert (take (field_count d) l = doc_fields d) as -> by (unfold doc_fields; by rewrite Hl).
  apply wp_bind, wp_free_fields; [apply Hd|lia|]. intros w' H1 H2. apply wp_ret, HQ; [done|done| |done].
  eapply held_frame; [rewrite Hb; apply Nat.add_comm| |exact H1]. done.
Qed.

(** A closed handle owns nothing. *)
Definition closed d : Prop :=
  fields d = None ∧ collection_name d = None ∧ document_id d = None ∧ doc_valid d = false.

Lemma wp_doc_close d (Q : zdb_status_t * option zdb_doc_t → W → Prop) w :
  doc_ok d → doc_blocks d ≤ heap_used (w_k w) →
  (∀ d' w', closed d' → held (doc_blocks d) 0 w w' → w_fs w' = w_fs w → Q (ZDB_OK, Some d') w') →
  wp (zdb_doc_close (Some d)) Q w.
Proof.
  intros Hd Hh HQ. unfold zdb_doc_close. apply wp_bind, wp_fields_reset; [done..|].
  intros w1 d1 Hok Hnil H1 H2. clearbody d1.
  destruct (dk_coll _ Hok) as [c Hc], (dk_id _ Hok) as [i Hi], (dk_array _ Hok) as (l & Hl & _).
  assert (doc_blocks d1 = 3) as H3 by (unfold doc_blocks; by rewrite Hnil, Hc, Hi, Hl).
  pose proof (held_enough _ _ _ _ H1 Hh). rewrite H3 in *. rewrite Hl, Hc, Hi.
  apply wp_bind, wp_free_ptr; [simpl; lia|]. intros w2 K2 G2. pose proof (he_heap _ _ _ _ K2). cbn [opt_block] in *.
  apply wp_bind, wp_free_ptr; [simpl; lia|]. intros w3 K3 G3. pose proof (he_heap _ _ _ _ K3). cbn [opt_block] in *.
  apply wp_bind, wp_free_ptr; [simpl; lia|]. intros w4 K4 G4.
  apply wp_ret, HQ; [done| |congruence].
  eapply held_trans; [exact H1|]. eapply (held_trans 2); [eapply (held_frame 2); [| |exact K2]; done|].
  eapply (held_trans 1); [eapply (held_frame 1); [| |exact K3]; done|exact K4].
Qed.

(** ** Creating *)

(** What a document can be called. *)
Definition doc_named (coll id : cstring) : Prop :=
  c_string coll ∧ c_string id ∧ doc_names_valid coll id = true.

Record fresh d coll id : Prop := {
  fr_ok : doc_ok d;
  fr_empty : doc_fields d = [];
  fr_count : field_count d = 0;
  fr_coll : collection_name d = Some coll;
  fr_id : document_id d = Some id;
  fr_blocks : doc_blocks d = 3;
}.

(** The handle once its array is there. *)
Lemma fresh_handle coll id now :
  let d := {| doc_db := Some the_db; collection_name := Some coll; document_id := Some id;
              fields := Some (replicate CONFIG_ZDB_DOC_MAX_FIELD_COUNT zero_field); field_count := 0;
              max_fields := CONFIG_ZDB_DOC_MAX_FIELD_COUNT;
              created_ms := u64 now; updated_ms := u64 now; doc_valid := true |} in
  fresh d coll id.
Proof.
  split; try done. split; try done; simpl; try (by eexists); try apply u64_u64; try constructor.
  - eexists. split; [done|]. by rewrite length_replicate.
  - lia.
Qed.

Lemma wp_doc_create coll id out (Q : zdb_status_t * option zdb_doc_t → W → Prop) w :
  c_string coll → c_string id →
  (∀ st d' w', st ≠ ZDB_OK → held 0 0 w w' → w_fs w' = w_fs w →
     (HeapLive K → is_Some (cfg (w_db w) ≫= lfs_mount_point) → doc_names_valid coll id = true → False) →
     Q (st, Some d') w') →
  (∀ d w', fresh d coll id → doc_names_valid coll id = true →
     is_Some (cfg (w_db w) ≫= lfs_mount_point) → held 0 3 w w' → w_fs w' = w_fs w →
     Q (ZDB_OK, Some d) w') →
  wp (zdb_doc_create (Some the_db) (Some coll) (Some id) (Some out)) Q w.
Proof.
  intros Hcs Hids Hbad Hok. unfold zdb_doc_create. apply wp_bind, wp_db_get.
  destruct (cfg (w_db w) ≫= lfs_mount_point) as [m|] eqn:Hm; cycle 1.
  { apply wp_ret, Hbad; [done|apply held_refl|done|]. by intros _ [? ?]. }
  destruct (doc_names_valid coll id) eqn:Hv; cbn [negb]; cycle 1.
  { apply wp_ret, Hbad; [done|apply held_refl|done|done]. }
  apply wp_bind, wp_strdup; [done|intros w1 H1 G1|intros w1 H1 G1 Hl1];
    (apply wp_bind, wp_strdup; [done|intros w2 H2 G2|intros w2 H2 G2 Hl2]).
  - apply wp_bind, wp_uptime. intros now w3 _ H3 G3. cbv zeta.
    assert (held 0 2 w w3) as H03.
    { eapply held_trans; [exact H1|]. eapply held_trans; [|eapply (held_frame 2); [| |exact H3]; done].
      eapply (held_frame 1); [| |exact H2]; done. }
    apply wp_bind, wp_malloc; intros w4 H4; [intros G4|intros G4 Hl].
    + cbn [negb]. apply wp_bind, wp_doc_event; [done|]. intros w5 H5 G5. apply wp_ret.
      eapply Hok; [apply (fresh_handle coll id now)|done|by eexists| |congruence].
      eapply held_trans; [exact H03|]. eapply (held_trans 3); [eapply (held_frame 2); [| |exact H4]; done|].
      eapply (held_frame 3); [| |exact H5]; done.
    + cbn [negb]. pose proof (he_heap _ _ _ _ H03). pose proof (he_heap _ _ _ _ H4).
      apply wp_bind, wp_heap_free; [lia|]. intros w5 K5 G5. pose proof (he_heap _ _ _ _ K5).
      apply wp_bind, wp_heap_free; [lia|]. intros w6 K6 G6.
      apply wp_bind, wp_doc_event; [done|]. intros w7 H7 G7. apply wp_ret, Hbad; [done| |congruence|done].
      eapply held_trans; [exact H03|]. eapply (held_trans 2); [eapply (held_frame 2); [| |exact H4]; done|].
      eapply (held_trans 1); [eapply (held_frame 1); [| |exact K5]; done|]. by eapply held_trans.
  - pose proof (he_heap _ _ _ _ H1). pose proof (he_heap _ _ _ _ H2).
    apply wp_bind, wp_free_ptr; [cbn [opt_block]; lia|]. intros w3 H3 G3. cbn [opt_block] in H3.
    apply wp_bind, wp_ret, wp_ret, Hbad; [done| |congruence|done].
    eapply held_trans; [exact H1|]. eapply (held_trans 1); [eapply (held_frame 1); [| |exact H2]; done|done].
  - apply wp_bind, wp_ret. pose proof (he_heap _ _ _ _ H1). pose proof (he_heap _ _ _ _ H2).
    apply wp_bind, wp_free_ptr; [cbn [opt_block]; lia|]. intros w3 H3 G3. cbn [opt_block] in H3.
    apply wp_ret, Hbad; [done| |congruence|done].
    eapply held_trans; [exact H1|]. by eapply held_trans.
  - apply wp_bind, wp_ret, wp_bind, wp_ret, wp_ret, Hbad; [done| |congruence|done]. by eapply held_trans.
Qed.
End handles.
