(* ===== verification/DocMatchSpec.v ===== *)
(** * What a query asks of a document

    [doc_satisfies] states when a document satisfies a query: it was updated in
    the window, and for every filter it has a field of that name and type whose
    value is the filter's. An integer field and a numeric filter are compared
    as numbers: [d_integral] is the integer the filter's double stands for. *)

From S2P Require Import Prelude Config Env Types FsEnv Events Doubles Doc DocFile DocQuery DocSpec.
From S2P Require Import DocFieldSpec.

(** ** The integer range of a double *)

Definition d_valid (x : double) : Prop := valid_binary 53 1024 x = true.

Lemma digits2_pos_bounds m : (2 ^ (Z.pos (digits2_pos m) - 1) ≤ Z.pos m < 2 ^ Z.pos (digits2_pos m))%Z.
Proof.
  induction m as [m IH|m IH|]; [..|by vm_compute]; simpl digits2_pos; rewrite Pos2Z.inj_succ;
    replace (Z.succ (Z.pos (digits2_pos m)) - 1)%Z with (Z.succ (Z.pos (digits2_pos m) - 1))%Z by lia;
    rewrite !Z.pow_succ_r by lia; lia.
Qed.

(** A canonical finite double has 53 digits, or its exponent is the least. *)
Lemma d_valid_mantissa s m e :
  d_valid (S754_finite s m e) →
  (Z.pos m < 2 ^ 53)%Z ∧ ((2 ^ 52 ≤ Z.pos m)%Z ∨ (e = - 1074)%Z).
Proof.
  unfold d_valid. simpl. unfold bounded, canonical_mantissa, fexp, SpecFloat.emin.
  rewrite andb_true_iff. intros [H%Z.eqb_eq _].
  pose proof (digits2_pos_bounds m) as [Hlo Hhi].
  assert (Z.pos (digits2_pos m) ≤ 53)%Z as Hd by lia. split.
  - eapply Z.lt_le_trans; [exact Hhi|]. by apply Z.pow_le_mono_r.
  - destruct (Z.eq_dec (Z.pos (digits2_pos m)) 53) as [Heq|Hne]; [left|right; lia].
    by rewrite Heq in Hlo.
Qed.

Definition d_int64_range (x : double) : bool :=
  negb (d_lt x (d_of_Z INT64_MIN) || d_lt (d_of_Z INT64_MAX) x).

(** Whether a magnitude [m * 2^e] is at most [2^63], by its parts. *)
Lemma magnitude_cases m e :
  (Z.pos m < 2 ^ 53)%Z → ((2 ^ 52 ≤ Z.pos m)%Z ∨ (e = - 1074)%Z) →
  ((11 < e)%Z ∧ (2 ^ 63 < Z.pos m * 2 ^ e)%Z) ∨
  (e = 11%Z ∧ (2 ^ 52 ≤ Z.pos m)%Z) ∨ ((e < 11)%Z ∧ (0 ≤ e → Z.pos m * 2 ^ e < 2 ^ 63)%Z).
Proof.
  intros Hhi Hlo. destruct (Z.lt_trichotomy e 11) as [He|[->|He]].
  - right; right. split; [done|]. intros H0.
    assert (2 ^ e ≤ 2 ^ 10)%Z by (apply Z.pow_le_mono_r; lia).
    assert (Z.pos m * 2 ^ e ≤ Z.pos m * 2 ^ 10)%Z by (apply Z.mul_le_mono_nonneg_l; lia). lia.
  - right; left. split; [done|]. destruct Hlo; [done|lia].
  - left. split; [done|]. destruct Hlo as [Hlo| ->]; [|lia].
    assert (2 ^ 12 ≤ 2 ^ e)%Z by (apply Z.pow_le_mono_r; lia).
    assert (2 ^ 52 * 2 ^ 12 ≤ Z.pos m * 2 ^ e)%Z by (apply Z.mul_le_mono_nonneg; lia). lia.
Qed.

Lemma d_int64_range_finite s m e :
  d_int64_range (S754_finite s m e) =
  match (e ?= 11)%Z with Lt => true | Eq => (Z.pos m <=? Z.pos 4503599627370496)%Z | Gt => false end.
Proof.
  unfold d_int64_range, d_lt.
  change (d_of_Z INT64_MIN) with (S754_finite true 4503599627370496 11).
  change (d_of_Z INT64_MAX) with (S754_finite false 4503599627370496 11).
  generalize 4503599627370496%positive as k. intros k. unfold SFltb, SFcompare, Z.leb.
  change (Z.pos m ?= Z.pos k)%Z with (m ?= k)%positive.
  change (PosDef.Pos.compare_cont Eq) with Pos.compare. rewrite (Z.compare_antisym e 11), (Pos.compare_antisym m k).
  destruct s; destruct (e ?= 11)%Z; cbn [CompOpp negb orb]; try done; by destruct (m ?= k)%positive.
Qed.

Lemma d_int64_range_spec x z :
  d_valid x → d_integral x = Some z → d_int64_range x = true ↔ (- 2 ^ 63 ≤ z ≤ 2 ^ 63)%Z.
Proof.
  destruct x as [s|s| |s m e]; intros Hv Hz; simpl in Hz; try done.
  { injection Hz as <-. by destruct s. }
  pose proof (d_valid_mantissa _ _ _ Hv) as [Hhi Hlo].
  assert (∃ a, z = (if s then - a else a)%Z ∧ (0 ≤ a)%Z ∧
    ((0 ≤ e)%Z ∧ a = (Z.pos m * 2 ^ e)%Z ∨ (e < 0)%Z ∧ (a < 2 ^ 63)%Z)) as (a & -> & Ha & Hcase).
  { destruct (Z.leb_spec 0 e) as [He|He].
    - injection Hz as <-. exists (Z.pos m * 2 ^ e)%Z. split_and!; [done|nia|by left].
    - destruct (_ =? 0)%Z; [|done]. injection Hz as <-. exists (Z.pos m / 2 ^ (- e))%Z.
      assert (0 < 2 ^ (- e))%Z by (apply Z.pow_pos_nonneg; lia).
      split_and!; [done|by apply Z.div_pos|]. right. split; [done|].
      apply (Z.le_lt_trans _ (Z.pos m)); [|lia]. apply Z.div_le_upper_bound; [done|].
      rewrite <- (Z.mul_1_l (Z.pos m)) at 1. apply Z.mul_le_mono_nonneg_r; lia. }
  assert ((a ≤ 2 ^ 63)%Z ↔ (e < 11 ∨ e = 11 ∧ Z.pos m ≤ 2 ^ 52)%Z) as Hle.
  { destruct (magnitude_cases m e Hhi Hlo) as [[He Hbig]|[[-> _]|[He Hsmall]]];
      destruct Hcase as [[He0 ->]|[He0 Hlt]]; lia. }
  assert ((- 2 ^ 63 ≤ (if s then - a else a) ≤ 2 ^ 63)%Z ↔ (a ≤ 2 ^ 63)%Z) as -> by (destruct s; lia).
  rewrite Hle, d_int64_range_finite. destruct (Z.compare_spec e 11) as [He|He|He].
  - replace (Z.pos 4503599627370496) with (2 ^ 52)%Z by reflexivity. rewrite Z.leb_le. clear -He. intuition lia.
  - clear -He. intuition lia.
  - clear -He. intuition (lia || discriminate).
Qed.

(** ** The match *)

Section match_spec.
Context {Cfg : Config} {CfgOk : ConfigOk Cfg}.

(** The filter's value is the field's. *)
Definition filter_holds (f : zdb_doc_query_filter_t) (v : zdb_doc_field_value_t) : Prop :=
  match v with
  | V_i64 z => d_integral (qf_numeric_value f) = Some z
  | V_f64 bits => d_eq (d_of_bits bits) (qf_numeric_value f) = true
  | V_bool b => b = qf_bool_value f
  | V_str (Some s) => qf_string_value f = Some s
  | V_bytes (Some data) _ => qf_string_value f = Some data
  | _ => False
  end.

Definition doc_satisfies (d : zdb_doc_t) (q : zdb_doc_query_t) : Prop :=
  (qu_from_ms q = 0%Z ∨ (qu_from_ms q ≤ updated_ms d)%Z) ∧
  (qu_to_ms q = 0%Z ∨ (updated_ms d ≤ qu_to_ms q)%Z) ∧
  (0 < qu_filter_count q → qu_filters q ≠ None) ∧
  ∀ f, f ∈ take (qu_filter_count q) (default [] (qu_filters q)) →
    ∃ name v, qf_field_name f = Some name ∧ doc_lookup d name = Some (qf_type f, v) ∧ filter_holds f v.

(** A numeric filter is a double as the machine has it, and not [2^63], whose
    conversion to [int64_t] C leaves undefined. *)
Definition filter_ok (f : zdb_doc_query_filter_t) : Prop :=
  d_valid (qf_numeric_value f) ∧ d_integral (qf_numeric_value f) ≠ Some (2 ^ 63)%Z.

Lemma int64_filter_spec x z :
  d_valid x → d_integral x ≠ Some (2 ^ 63)%Z → (- 2 ^ 63 ≤ z < 2 ^ 63)%Z →
  (if d_lt x (d_of_Z INT64_MIN) || d_lt (d_of_Z INT64_MAX) x then false
   else match d_integral x with Some ipart => (z =? int64_cast ipart)%Z | None => false end) = true
  ↔ d_integral x = Some z.
Proof.
  intros Hv Hne Hz. fold (d_int64_range x).
  assert (d_lt x (d_of_Z INT64_MIN) || d_lt (d_of_Z INT64_MAX) x = negb (d_int64_range x)) as ->.
  { unfold d_int64_range. by rewrite negb_involutive. }
  destruct (d_integral x) as [y|] eqn:Hy; cycle 1.
  { by destruct (d_int64_range x). }
  pose proof (d_int64_range_spec x y Hv Hy) as Hr.
  assert (∀ y, (- 2 ^ 63 ≤ y < 2 ^ 63)%Z → int64_cast y = y) as Hcast.
  { intros y' Hy'. unfold int64_cast, INT64_MIN, INT64_MAX.
    by rewrite (proj2 (Z.leb_le _ _)), (proj2 (Z.leb_le y' _)) by lia. }
  destruct (d_int64_range x); cbn [negb].
  - assert (y ≠ 2 ^ 63)%Z by congruence. rewrite Hcast by (destruct Hr as [Hr _]; specialize (Hr eq_refl); lia).
    rewrite Z.eqb_eq. split; congruence.
  - split; [done|]. intros [= ->]. destruct Hr as [_ Hr]. apply Hr. lia.
Qed.

Lemma field_match_spec name t v f :
  name ≠ [] → value_ok t v → filter_ok f →
  zdb_doc_field_filter_match (the_field name t v) f = true ↔
  qf_field_name f = Some name ∧ t = qf_type f ∧ filter_holds f v.
Proof.
  intros Hn Hv [Hd Hi]. unfold zdb_doc_field_filter_match, the_field. cbn [fd_name fd_type fd_value].
  destruct name as [|b name]; [done|].
  destruct (qf_field_name f) as [[|b' name']|]; try (split; [done|by intros [[=] _]]).
  destruct (decide (@eq cstring (b :: name) (b' :: name'))) as [Hne|Hne];
    [rewrite bool_decide_true by exact Hne|rewrite bool_decide_false by exact Hne]; cbn [negb]; cycle 1.
  { split; [done|]. intros ([= E1 E2] & _). congruence. }
  destruct (decide (t = qf_type f)) as [Ht|Ht];
    [rewrite bool_decide_true by exact Ht|rewrite bool_decide_false by exact Ht]; cbn [negb]; cycle 1.
  { split; [done|]. by intros (_ & ? & _). }
  transitivity (filter_holds f v); [|split; [intros; split_and!; congruence|by intros (_ & _ & ?)]].
  destruct t, v as [|z|z|[s|]|c|[data|] n]; try done; unfold filter_holds; cbn [value_i64 value_f64 value_b value_str value_bytes].
  - by apply int64_filter_spec.
  - destruct (qf_string_value f) as [u|]; [|done]. rewrite bool_decide_eq_true. split; congruence.
  - by rewrite bool_decide_eq_true.
  - by destruct (qf_string_value f).
  - destruct Hv as [<- _]. destruct (qf_string_value f) as [u|]; [|done].
    rewrite andb_true_iff, Nat.eqb_eq, bool_decide_eq_true, take_ge by done.
    split; [intros [_ ->]|intros [= ->]]; done.
  - by destruct (qf_string_value f).
Qed.

(** Some field of the document matches the filter. *)
Lemma any_field_match d f :
  doc_ok d → filter_ok f →
  existsb (λ field, zdb_doc_field_filter_match field f) (doc_fields d) = true ↔
  ∃ name v, qf_field_name f = Some name ∧ doc_lookup d name = Some (qf_type f, v) ∧ filter_holds f v.
Proof.
  intros Hd Hf. pose proof (dk_fields _ Hd) as HF. rewrite Forall_forall in HF.
  assert (∀ fd, fd ∈ doc_fields d → ∃ n, n ≠ [] ∧ fd_name fd = Some n ∧ value_ok (fd_type fd) (fd_value fd) ∧
    fd = the_field n (fd_type fd) (fd_value fd)) as Hshape.
  { intros fd Hin. destruct (HF fd Hin) as [(n & Hn & _ & Hl) Hv]. exists n.
    split_and!; [intros ->; simpl in Hl; lia|done|done|]. destruct fd. simpl in *. by subst. }
  rewrite existsb_exists. split.
  - intros (fd & Hin%list_elem_of_In & Hm). destruct (Hshape fd Hin) as (n & Hne & Hn & Hv & Heq).
    rewrite Heq, field_match_spec in Hm by done. destruct Hm as (Hname & Ht & Hh).
    exists n, (fd_value fd). split_and!; [done| |done]. unfold doc_lookup.
    rewrite (field_lookup_unique _ n fd) by (done || apply Hd). simpl. by rewrite Ht.
  - intros (n & v & Hname & Hl & Hh). unfold doc_lookup in Hl.
    destruct (field_lookup (doc_fields d) n) as [fd|] eqn:Hfd; [|done]. simpl in Hl.
    apply field_lookup_Some in Hfd as [Hin Hn]. exists fd. split; [by apply list_elem_of_In|].
    destruct (Hshape fd Hin) as (n' & Hne & Hn' & Hv & Heq). rewrite Heq, field_match_spec by done.
    simplify_eq. split_and!; congruence.
Qed.

Lemma window_spec (b : Z) (lt : bool) :
  negb (b =? 0)%Z && lt = false ↔ b = 0%Z ∨ lt = false.
Proof. destruct (Z.eqb_spec b 0), lt; simpl; naive_solver. Qed.
End match_spec.
