(* ===== verification/DocDecode.v ===== *)
(** * What a document file says

    [dec_doc] is the meaning of a file's bytes, without the file system, the
    heap or a handle: the fields in the order they are stored, and the two
    timestamps. [doc_bytes] is what a save writes. A document that was written
    decodes to itself. *)

From S2P Require Import Prelude Config CText Env Types FsEnv FsSpec Events Doubles Doc DocFile DocSpec.
From S2P Require Import DocFieldSpec.

Section decode.
Context {Cfg : Config} {CfgOk : ConfigOk Cfg} {CRC : Crc32} {CRCLaws : Crc32Laws}.

Abbreviation typed_value := (zdb_doc_field_type_t * zdb_doc_field_value_t)%type.

(** A value at the start of [b], and how many bytes it takes. *)
Definition dec_value (t : option zdb_doc_field_type_t) (b : list byte) : option (typed_value * nat) :=
  match t with
  | Some ZDB_DOC_FIELD_INT64 =>
      if length b <? 8 then None else Some ((ZDB_DOC_FIELD_INT64, V_i64 (i64 (get_le 8 b 0))), 8)
  | Some ZDB_DOC_FIELD_DOUBLE =>
      if length b <? 8 then None else Some ((ZDB_DOC_FIELD_DOUBLE, V_f64 (get_le 8 b 0)), 8)
  | Some ZDB_DOC_FIELD_BOOL =>
      if length b <? 1 then None
      else Some ((ZDB_DOC_FIELD_BOOL, V_bool (negb (get_le 1 b 0 =? 0)%Z)), 1)
  | Some ZDB_DOC_FIELD_STRING =>
      let n := Z.to_nat (get_le 4 b 0) in
      if length b <? 4 then None
      else if (CONFIG_ZDB_DOC_MAX_STRING_LEN <? n) || (length b <? 4 + n) then None
      else Some ((ZDB_DOC_FIELD_STRING, V_str (Some (c_str (take n (drop 4 b) ++ [nul])))), 4 + n)
  | Some ZDB_DOC_FIELD_BYTES =>
      let n := Z.to_nat (get_le 4 b 0) in
      if length b <? 4 then None
      else if (CONFIG_ZDB_DOC_MAX_BYTES_LEN <? n) || (length b <? 4 + n) then None
      else Some ((ZDB_DOC_FIELD_BYTES, bytes_value (Some (take n (drop 4 b))) n), 4 + n)
  | _ => None
  end.

Definition dec_field (b : list byte) : option (cstring * typed_value * nat) :=
  let n := Z.to_nat (get_le 2 b 0) in
  if length b <? sizeof_doc_field_hdr then None
  else if (n =? 0) || (CONFIG_ZDB_DOC_MAX_FIELD_NAME_LEN <? n) then None
  else if length b <? sizeof_doc_field_hdr + n then None
  else
    let name := c_str (take n (drop sizeof_doc_field_hdr b) ++ [nul]) in
    if bool_decide (name = []) then None
    else
      (λ r : typed_value * nat, (name, r.1, sizeof_doc_field_hdr + n + r.2)) <$>
        dec_value (field_type_of (u8_at b 4)) (drop (sizeof_doc_field_hdr + n) b).

Fixpoint dec_fields (count : nat) (b : list byte) : option (list (cstring * typed_value) * nat) :=
  match count with
  | 0 => Some ([], 0)
  | S count =>
      '(name, tv, n) ← dec_field b;
      '(l, m) ← dec_fields count (drop n b);
      Some ((name, tv) :: l, n + m)
  end%stdpp.

(** The fields a handle ends up with: later ones replace earlier ones of the
    same name. *)
Definition put_all (l0 : list zdb_doc_field_t) (l : list (cstring * typed_value))
    : list zdb_doc_field_t :=
  fold_left (λ acc f, put_field acc f.1 (the_field f.1 f.2.1 f.2.2)) l l0.

Record doc_contents := {
  ct_fields : list (cstring * typed_value);
  ct_created : Z;
  ct_updated : Z;
}.

Definition dec_doc (d : list byte) : option doc_contents :=
  let version := get_le 2 d 4 in
  let count := Z.to_nat (get_le 2 d 6) in
  let stored := get_le 4 d doc_hdr_crc_off in
  if length d <? sizeof_doc_hdr then None
  else if negb (get_le 4 d 0 =? ZDB_DOC_MAGIC)%Z ||
          (negb (version =? ZDB_DOC_VERSION)%Z && negb (version =? ZDB_DOC_VERSION_V1)%Z) then None
  else if (version =? ZDB_DOC_VERSION_V1)%Z && negb (stored =? crc32_ieee (take doc_hdr_crc_off d))%Z
  then None
  else if CONFIG_ZDB_DOC_MAX_FIELD_COUNT <? count then None
  else
    match dec_fields count (drop sizeof_doc_hdr d) with
    | None => None
    | Some (l, n) =>
        if negb (version =? ZDB_DOC_VERSION_V1)%Z &&
           negb (stored =? crc32_ieee (take doc_hdr_crc_off d ++ take n (drop sizeof_doc_hdr d)))%Z
        then None
        else Some {| ct_fields := l; ct_created := get_le 8 d 8; ct_updated := get_le 8 d 16 |}
    end.

(** ** What is written *)

Definition value_bytes_of (t : zdb_doc_field_type_t) (v : zdb_doc_field_value_t) : list byte :=
  match t with
  | ZDB_DOC_FIELD_INT64 => put_le 8 (u64 (value_i64 v))
  | ZDB_DOC_FIELD_DOUBLE => put_le 8 (value_f64 v)
  | ZDB_DOC_FIELD_BOOL => put_le 1 (if value_b v then 1 else 0)
  | ZDB_DOC_FIELD_STRING =>
      let s := default [] (value_str v) in put_le 4 (length s) ++ s
  | ZDB_DOC_FIELD_BYTES =>
      put_le 4 (value_bytes v).2 ++ take (value_bytes v).2 (default [] (value_bytes v).1)
  | _ => []
  end.

Definition field_bytes (f : zdb_doc_field_t) : list byte :=
  let name := default [] (fd_name f) in
  field_hdr f (length name) ++ name ++ value_bytes_of (fd_type f) (fd_value f).

Definition fields_bytes (l : list zdb_doc_field_t) : list byte := concat (map field_bytes l).

Definition doc_bytes (d : zdb_doc_t) : list byte :=
  doc_hdr_prefix d ++
  put_le 4 (crc32_ieee (doc_hdr_prefix d ++ fields_bytes (doc_fields d))) ++ fields_bytes (doc_fields d).

(** A value as it is read back: a string or byte field that holds nothing reads
    as an empty one. *)
Definition stored_value (t : zdb_doc_field_type_t) (v : zdb_doc_field_value_t) : zdb_doc_field_value_t :=
  match t with
  | ZDB_DOC_FIELD_STRING => V_str (Some (default [] (value_str v)))
  | ZDB_DOC_FIELD_BYTES => V_bytes (value_bytes v).1 (value_bytes v).2
  | _ => v
  end.

Definition as_stored (f : zdb_doc_field_t) : cstring * typed_value :=
  (default [] (fd_name f), (fd_type f, stored_value (fd_type f) (fd_value f))).
(** ** The round trip *)

Lemma field_type_of_num t : field_type_of (field_type_num t) = Some t.
Proof. by destruct t. Qed.

Lemma put_le_bool b : get_le 1 (put_le 1 (if b : bool then 1 else 0)) 0 = (if b then 1 else 0)%Z.
Proof. by destruct b. Qed.

Lemma get_le_small n v post : (0 ≤ v < 2 ^ (Z.of_nat n * 8))%Z → get_le n (put_le n v ++ post) 0 = v.
Proof. intros Hv. rewrite get_le_here. by apply Z.mod_small. Qed.

Lemma dec_value_bytes t v rest :
  value_ok t v →
  dec_value (Some t) (value_bytes_of t v ++ rest) =
    Some ((t, stored_value t v), length (value_bytes_of t v)).
Proof.
  intros Hv. pose proof doc_string_range. pose proof doc_bytes_range.
  destruct t; try (by destruct v); unfold dec_value, value_bytes_of, stored_value.
  - destruct v as [|z| | | |]; try done. cbn [value_i64]. simpl in Hv.
    rewrite length_app, length_put_le. cbn [Nat.ltb Nat.leb Nat.add].
    rewrite get_le_small by (unfold u64; apply Z.mod_pos_bound; lia). by rewrite i64_u64.
  - destruct v as [| |z| | |]; try done. cbn [value_f64]. simpl in Hv.
    rewrite length_app, length_put_le. cbn [Nat.ltb Nat.leb Nat.add]. by rewrite get_le_small.
  - set (s := default [] (value_str v)).
    assert (c_string s ∧ length s ≤ CONFIG_ZDB_DOC_MAX_STRING_LEN) as [Hc Hl].
    { unfold s. destruct v as [| | |[s'|]| |]; try done; simpl; (split; [apply not_elem_of_nil|lia]). }
    assert ((0 ≤ Z.of_nat (length s) < 2 ^ (Z.of_nat 4 * 8))%Z) as Hr by lia.
    rewrite <- app_assoc, get_le_small by done. rewrite Nat2Z.id.
    rewrite !length_app, length_put_le. rewrite (proj2 (Nat.ltb_ge _ 4)) by lia.
    rewrite (proj2 (Nat.ltb_ge _ (length s))) by lia.
    rewrite (proj2 (Nat.ltb_ge _ (4 + length s))) by lia. cbn [orb].
    rewrite drop_app_length' by (by rewrite length_put_le).
    rewrite take_app_length' by done. by rewrite c_str_id.
  - destruct v as [| | | |b|]; try done. cbn [value_b].
    rewrite length_app, length_put_le. cbn [Nat.ltb Nat.leb Nat.add].
    rewrite get_le_small by (by destruct b). by destruct b.
  - set (n := (value_bytes v).2). set (data := take n (default [] (value_bytes v).1)).
    assert (length data = n ∧ n ≤ CONFIG_ZDB_DOC_MAX_BYTES_LEN ∧
      bytes_value (Some data) n = V_bytes (value_bytes v).1 n) as (Hl & Hn & Hb).
    { unfold data, n. destruct v as [| | | | |[d|] m]; simpl in *; try done.
      - split_and!; [done|lia|done].
      - destruct Hv as (<- & H1 & H2). rewrite take_ge by lia. split_and!; [done|done|].
        unfold bytes_value. rewrite (proj2 (Nat.eqb_neq _ 0)) by lia. simpl. by rewrite take_ge.
      - subst m. split_and!; [done|lia|done]. }
    assert ((0 ≤ Z.of_nat n < 2 ^ (Z.of_nat 4 * 8))%Z) as Hr by lia.
    rewrite <- app_assoc, get_le_small by done. rewrite Nat2Z.id.
    rewrite !length_app, length_put_le, Hl. rewrite (proj2 (Nat.ltb_ge _ 4)) by lia.
    rewrite (proj2 (Nat.ltb_ge _ n)) by lia. rewrite (proj2 (Nat.ltb_ge _ (4 + n))) by lia. cbn [orb].
    rewrite drop_app_length' by (by rewrite length_put_le).
    rewrite take_app_length' by done. by rewrite Hb.
Qed.

Lemma length_field_hdr f n : length (field_hdr f n) = sizeof_doc_field_hdr.
Proof. unfold field_hdr. rewrite !length_app, !length_put_le. done. Qed.

Lemma field_hdr_type f n : u8_at (field_hdr f n) 4 = field_type_num (fd_type f).
Proof. unfold field_hdr. by destruct (fd_type f). Qed.

Lemma u8_at_app_l a b i : i < length a → u8_at (a ++ b) i = u8_at a i.
Proof. intros Hi. unfold u8_at. by rewrite lookup_app_l. Qed.

Lemma dec_field_bytes f rest :
  field_ok f →
  dec_field (field_bytes f ++ rest) = Some ((as_stored f).1, (as_stored f).2, length (field_bytes f)).
Proof.
  intros [(name & Hn & Hc & Hl) Hv]. unfold dec_field, field_bytes, as_stored. rewrite Hn.
  change (default [] (Some name)) with name. cbn [fst snd].
  pose proof doc_name_range as Hrange. set (vb := value_bytes_of (fd_type f) (fd_value f)).
  pose proof (length_field_hdr f (length name)) as Hh. unfold sizeof_doc_field_hdr in *.
  assert (get_le 2 ((field_hdr f (length name) ++ name ++ vb) ++ rest) 0 = length name) as ->.
  { unfold field_hdr. rewrite <- !app_assoc. apply get_le_small. lia. }
  rewrite Nat2Z.id. rewrite <- !app_assoc, !length_app, Hh.
  rewrite (proj2 (Nat.ltb_ge _ 8)) by lia. rewrite (proj2 (Nat.eqb_neq (length name) 0)) by lia.
  rewrite (proj2 (Nat.ltb_ge _ (length name))) by lia. cbn [orb].
  rewrite (proj2 (Nat.ltb_ge _ (8 + length name))) by lia.
  rewrite drop_app_length' by done. rewrite take_app_length' by done. rewrite c_str_id by done.
  rewrite bool_decide_false by (intros ->; simpl in Hl; lia).
  rewrite u8_at_app_l by (rewrite Hh; lia). rewrite field_hdr_type, field_type_of_num.
  assert (drop (8 + length name) (field_hdr f (length name) ++ name ++ vb ++ rest) = vb ++ rest) as ->.
  { rewrite <- Hh, app_assoc, <- length_app. apply drop_app_length. }
  unfold vb. rewrite dec_value_bytes by done. simpl. do 2 f_equal.
Qed.

Lemma dec_fields_bytes l rest :
  Forall field_ok l →
  dec_fields (length l) (fields_bytes l ++ rest) = Some (map as_stored l, length (fields_bytes l)).
Proof.
  induction 1 as [|f l Hf _ IH]; [done|]. unfold fields_bytes in *. cbn [length dec_fields map concat].
  rewrite <- app_assoc, (dec_field_bytes f _ Hf). cbn [mbind option_bind]. rewrite drop_app_length, IH.
  cbn [mbind option_bind]. by rewrite length_app, <- surjective_pairing.
Qed.

Lemma length_doc_hdr_prefix d : length (doc_hdr_prefix d) = doc_hdr_crc_off.
Proof. unfold doc_hdr_prefix. rewrite !length_app, !length_put_le. done. Qed.

Lemma length_doc_fields d : doc_ok d → length (doc_fields d) = field_count d.
Proof.
  intros []. destruct dk_array as (l & Hl & Hlen). unfold doc_fields. rewrite Hl, length_take. simpl. lia.
Qed.

Theorem dec_doc_bytes d rest :
  doc_ok d →
  dec_doc (doc_bytes d ++ rest) =
    Some {| ct_fields := map as_stored (doc_fields d); ct_created := created_ms d;
            ct_updated := updated_ms d |}.
Proof.
  intros Hd. pose proof (length_doc_hdr_prefix d) as Hp. pose proof (dk_count _ Hd) as Hc.
  rewrite (dk_max _ Hd) in Hc. pose proof doc_count_range as Hr.
  unfold dec_doc, doc_bytes. set (pre := doc_hdr_prefix d). set (fb := fields_bytes (doc_fields d)).
  fold pre in Hp. set (crc := crc32_ieee (pre ++ fb)).
  assert (length (pre ++ put_le 4 crc) = sizeof_doc_hdr) as Hh.
  { rewrite length_app, Hp, length_put_le. done. }
  assert (∀ n off, off + n ≤ 24 → get_le n ((pre ++ put_le 4 crc ++ fb) ++ rest) off = get_le n pre off) as Hget.
  { intros n off Hoff. rewrite <- (get_le_take n 24 ((pre ++ _) ++ rest)) by done.
    rewrite <- app_assoc, take_app_le, (take_ge pre) by (rewrite Hp; unfold doc_hdr_crc_off; lia). done. }
  rewrite (Hget 2 4), (Hget 4 0), (Hget 2 6), (Hget 8 8), (Hget 8 16) by lia.
  assert (get_le 2 pre 4 = ZDB_DOC_VERSION) as ->.
  { unfold pre, doc_hdr_prefix. by get_field. }
  assert (get_le 4 pre 0 = ZDB_DOC_MAGIC) as ->.
  { unfold pre, doc_hdr_prefix. by get_field. }
  assert (get_le 2 pre 6 = field_count d) as ->.
  { unfold pre, doc_hdr_prefix. get_field. unfold u16. rewrite Z.mod_mod by lia. apply Z.mod_small. lia. }
  assert (get_le 8 pre 8 = created_ms d) as ->.
  { unfold pre, doc_hdr_prefix. get_field. apply Z.mod_small, Hd. }
  assert (get_le 8 pre 16 = updated_ms d) as ->.
  { unfold pre, doc_hdr_prefix. get_field. apply Z.mod_small, Hd. }
  assert (get_le 4 ((pre ++ put_le 4 crc ++ fb) ++ rest) doc_hdr_crc_off = crc) as ->.
  { rewrite <- !app_assoc, get_le_skip, Hp, Nat.sub_diag, get_le_here by (rewrite Hp; lia).
    apply crc32_ieee_mod. }
  rewrite !length_app, Hp, length_put_le. rewrite (proj2 (Nat.ltb_ge _ sizeof_doc_hdr))
    by (unfold doc_hdr_crc_off, sizeof_doc_hdr; lia).
  cbn [Z.eqb negb andb orb ZDB_DOC_VERSION ZDB_DOC_VERSION_V1 Pos.eqb ZDB_DOC_MAGIC].
  rewrite Nat2Z.id, (proj2 (Nat.ltb_ge _ (field_count d))) by lia.
  rewrite app_assoc, <- (app_assoc _ fb rest).
  assert (drop sizeof_doc_hdr ((pre ++ put_le 4 crc) ++ fb ++ rest) = fb ++ rest) as ->.
  { rewrite <- Hh. apply drop_app_length. }
  unfold fb at 1. rewrite <- (length_doc_fields d Hd), dec_fields_bytes by apply Hd.
  rewrite take_app_length, <- app_assoc, (take_app_length' pre) by done.
  fold fb. unfold crc. by rewrite Z.eqb_refl.
Qed.

Lemma put_all_new l0 l :
  NoDup (map fd_name l0 ++ map (λ f : cstring * typed_value, Some f.1) l) →
  put_all l0 l = l0 ++ map (λ f, the_field f.1 f.2.1 f.2.2) l.
Proof.
  revert l0. induction l as [|[n [t v]] l IH]; intros l0 Hnd; simpl; [by rewrite app_nil_r|].
  unfold put_all in *. simpl. simpl in Hnd.
  assert (put_field l0 n (the_field n t v) = l0 ++ [the_field n t v]) as Hput.
  { unfold put_field. assert (field_index l0 n 0 = None) as ->; [|done]. apply field_index_None.
    apply NoDup_app in Hnd as (_ & Hno & _). intros Hin. apply (Hno _ Hin). by left. }
  simpl. rewrite Hput, IH, <- app_assoc; [done|]. rewrite map_app, <- app_assoc. done.
Qed.

(** The fields as they are read back. *)
Definition reread (f : zdb_doc_field_t) : zdb_doc_field_t :=
  f <| fd_value := stored_value (fd_type f) (fd_value f) |>.

Lemma put_all_stored d :
  doc_ok d → put_all [] (map as_stored (doc_fields d)) = map reread (doc_fields d).
Proof.
  intros Hd. assert (∀ f, f ∈ doc_fields d → ∃ n, fd_name f = Some n) as Hn.
  { intros f Hf. pose proof (dk_fields _ Hd) as HF. rewrite Forall_forall in HF.
    destruct (HF f Hf) as [(n & ? & _) _]. by exists n. }
  assert (map (λ f : cstring * typed_value, Some f.1) (map as_stored (doc_fields d)) =
    map fd_name (doc_fields d)) as Hnames.
  { rewrite map_map. apply map_ext_in. intros f Hf%list_elem_of_In. destruct (Hn f Hf) as [n E].
    unfold as_stored. by rewrite E. }
  rewrite put_all_new; simpl.
  - rewrite map_map. apply map_ext_in. intros f Hf%list_elem_of_In. destruct (Hn f Hf) as [n E].
    unfold as_stored, reread, the_field. rewrite E. destruct f; simpl in *. by subst.
  - rewrite Hnames. apply Hd.
Qed.
End decode.
