(* ===== verification/DocParseSpec.v ===== *)
(** * Reading a document file implements its meaning

    Whatever the bytes of a file, parsing it leaves a well-formed handle and
    touches no file; when it succeeds, the fields are those of [dec_doc], and on
    a volume and with a heap that answer it succeeds when [dec_doc] does. *)

From S2P Require Import Prelude Config CText Env Types FsEnv FsSpec Events Doubles Doc DocFile DocSpec.
From S2P Require Import DocFieldSpec DocHandleSpec DocDecode.

Section parse.
Context {Cfg : Config} {CfgOk : ConfigOk Cfg} {K F FS FH DH : Type}.
Context `{!Kernel K, !KernelLaws K, !FileSys FS FH DH, !FileSysLaws FS FH DH}.
Context {CRC : Crc32} {CRCLaws : Crc32Laws}.
Abbreviation W := (world K F FS).
Abbreviation pstate := (parse_state FH).
Implicit Types (w : W) (ps : pstate).

(** A volume and a heap that serve every request. *)
Definition live : Prop := FsLive FS FH DH ∧ HeapLive K.

(** Reading [p], whose contents are [d], at [pos]; the handle is well-formed
    and its blocks are accounted for. *)
Record at_read (p d : list byte) ps (pos : nat) w : Prop := {
  ar_pos : at_pos (ps_file ps) p FS_READ pos;
  ar_file : files w !! p = Some d;
  ar_len : pos ≤ length d;
  ar_doc : doc_ok (ps_doc ps);
  ar_heap : doc_blocks (ps_doc ps) ≤ heap_used (w_k w);
}.

Definition crc_over (crc : option Z) (b : list byte) : option Z := (λ c, crc32_ieee_update c b) <$> crc.

(** What a piece of the parser leaves: always a well-formed handle; on success
    [n] bytes consumed. *)
Record piece ps ps' w w' : Prop := {
  pc_flags : fh_flags (ps_file ps') = FS_READ;
  pc_doc : doc_ok (ps_doc ps');
  pc_held : held (doc_blocks (ps_doc ps)) (doc_blocks (ps_doc ps')) w w';
  pc_same : same_handle (ps_doc ps) (ps_doc ps');
}.

Record consumed (p d : list byte) (pos : nat) ps ps' (n : nat) : Prop := {
  cs_pos : at_pos (ps_file ps') p FS_READ (pos + n);
  cs_len : pos + n ≤ length d;
  cs_crc : ps_crc ps' = crc_over (ps_crc ps) (take n (drop pos d));
}.

Lemma crc_over_app crc a b : crc_over (crc_over crc a) b = crc_over crc (a ++ b).
Proof. destruct crc; simpl; [|done]. by rewrite crc32_app. Qed.

Lemma consumed_trans p d pos ps1 ps2 ps3 n m :
  consumed p d pos ps1 ps2 n → consumed p d (pos + n) ps2 ps3 m → consumed p d pos ps1 ps3 (n + m).
Proof.
  intros [P1 L1 C1] [P2 L2 C2]. split.
  - by rewrite Nat.add_assoc.
  - lia.
  - rewrite C2, C1, crc_over_app. f_equal. rewrite <- (take_take_drop _ n m), drop_drop. done.
Qed.

Lemma at_read_next p d pos ps ps' n w w' :
  at_read p d ps pos w → piece ps ps' w w' → consumed p d pos ps ps' n → at_read p d ps' (pos + n) w'.
Proof.
  intros [Hp Hf Hl Hd Hh] [_ Hd' Hheld _] [Hp' Hl' _]. split; try done.
  - by rewrite (he_files _ _ _ _ Hheld).
  - by eapply held_enough.
Qed.

Lemma piece_trans ps1 ps2 ps3 w1 w2 w3 :
  piece ps1 ps2 w1 w2 → piece ps2 ps3 w2 w3 → piece ps1 ps3 w1 w3.
Proof. intros [_ _ H1 E1] [F2 D2 H2 E2]. split; [done|done|by eapply held_trans|by etrans]. Qed.

(** ** Reading bytes *)

Lemma wp_ps_read p d ps pos n (Q : zdb_status_t * list byte * pstate → W → Prop) w :
  at_read p d ps pos w →
  (∀ st buf ps' w', st ≠ ZDB_OK → ps_doc ps' = ps_doc ps → piece ps ps' w w' →
     (FsLive FS FH DH → st = ZDB_ERR_CORRUPT ∧ length (drop pos d) < n) → Q (st, buf, ps') w') →
  (∀ ps' w', n ≤ length (drop pos d) → ps_doc ps' = ps_doc ps → piece ps ps' w w' →
     consumed p d pos ps ps' n → Q (ZDB_OK, take n (drop pos d), ps') w') →
  wp (ps_read ps n) Q w.
Proof.
  intros [Hp Hf Hl Hd Hh] Hbad Hok. unfold ps_read, zdb_fs_read_exact. apply wp_bind, wp_bind.
  assert (∀ fh' crc fs', fh_flags fh' = FS_READ → fs_files fs' = files w →
    piece ps (ps <| ps_file := fh' |> <| ps_crc := crc |>) w (w <| w_fs := fs' |>)) as Hpiece.
  { intros fh' crc fs' Hfl Hfs. split; [done|done| |done]. simpl.
    eapply (held_frame (doc_blocks (ps_doc ps))); [| |by apply held_fs]; done. }
  apply wp_on_fs. intros [[rc buf] fh'] fs' Heq.
  pose proof (fs_read_law (ps_file ps) n (w_fs w)) as Hlaw. rewrite Heq in Hlaw. cbv zeta in Hlaw. cbn [fst snd] in Hlaw.
  destruct Hlaw as (Hfs & Hp' & Hfl & Hcases).
  assert (fh_flags fh' = FS_READ) as Hflags by (rewrite Hfl; apply Hp).
  destruct Hcases as [Hrc|(d' & Hd' & Hr & Hpos')].
  - rewrite (proj2 (Z.ltb_lt _ _)) by done. apply wp_ret, wp_ret, Hbad; [|done|by apply Hpiece|].
    + rewrite status_from_errno_ok. lia.
    + intros Hlive. pose proof (live_read (ps_file ps) n (w_fs w)) as Hge. rewrite Heq in Hge. simpl in Hge.
      rewrite (ap_path _ _ _ _ Hp) in Hge. unfold files in Hf. rewrite Hf in Hge.
      specialize (Hge ltac:(by eexists)). lia.
  - rewrite (ap_path _ _ _ _ Hp) in Hd'. unfold files in Hf. rewrite Hf in Hd'. injection Hd' as <-.
    rewrite (ap_pos _ _ _ _ Hp) in Hr, Hpos'. injection Hr as -> ->.
    rewrite (proj2 (Z.ltb_ge _ 0)) by lia. rewrite length_take.
    destruct (Z.eqb_spec (Z.of_nat (n `min` length (drop pos d))) (Z.of_nat n)) as [Hn|Hn]; cbn [negb].
    + assert (n ≤ length (drop pos d)) as Hle by lia.
      apply wp_ret, wp_ret, Hok; [done|done|by apply Hpiece|]. split.
      * simpl. split; [rewrite Hp'; apply Hp|done|]. rewrite Hpos', length_take. simpl. lia.
      * rewrite length_drop in Hle. lia.
      * done.
    + apply wp_ret, wp_ret, Hbad; [done|done|by apply Hpiece|]. intros _. split; [done|]. lia.
Qed.
(** ** Values *)

Definition room d (name : cstring) : Prop :=
  is_Some (doc_lookup d name) ∨ field_count d < max_fields d.

Record value_post (p d : list byte) (pos : nat) (name : cstring) (t : option zdb_doc_field_type_t)
    ps w (st : zdb_status_t) ps' w' : Prop := {
  vp_piece : piece ps ps' w w';
  vp_done : st = ZDB_OK → ∃ tv n, dec_value t (drop pos d) = Some (tv, n) ∧
    consumed p d pos ps ps' n ∧ name_ok name ∧
    puts (ps_doc ps) name (the_field name tv.1 tv.2) (ps_doc ps');
  vp_live : live → name_ok name → room (ps_doc ps) name → dec_value t (drop pos d) ≠ None → st = ZDB_OK;
  vp_found : FsLive FS FH DH → st ≠ ZDB_ERR_NOT_FOUND;
}.

(** A failure that is not for want of resources. *)
Lemma value_post_fail p d pos name t ps w st ps' w' :
  st ≠ ZDB_OK → piece ps ps' w w' →
  (FsLive FS FH DH → st ≠ ZDB_ERR_NOT_FOUND ∧ (HeapLive K → dec_value t (drop pos d) = None)) →
  value_post p d pos name t ps w st ps' w'.
Proof.
  intros Hst Hp Hl. split; [done|done| |].
  - intros [HF HH] _ _ Hd. destruct Hd. by apply Hl.
  - intros HF. by apply Hl.
Qed.

Lemma piece_refl ps p d pos w : at_read p d ps pos w → piece ps ps w w.
Proof. intros [[] ? ? ? ?]. split; [done|done|apply held_refl|done]. Qed.

(** Calling a setter on the handle once the bytes were read. *)
Lemma set_value_post p d pos name t tv n ps ps1 w w1 st d' w2 w3 :
  dec_value t (drop pos d) = Some (tv, n) → value_ok tv.1 tv.2 →
  ps_doc ps1 = ps_doc ps → consumed p d pos ps ps1 n →
  set_result (ps_doc ps1) name tv.1 tv.2 st d' w1 w2 → piece ps (ps1 <| ps_doc := d' |>) w w3 →
  value_post p d pos name t ps w st (ps1 <| ps_doc := d' |>) w3.
Proof.
  intros Hdec Hv Hdoc Hc [Hok Hheld Hfs Hdone Hfail Hlive _] Hp. split; [done| | |].
  - intros Hst. destruct (Hdone Hst) as [Hn Hput]. exists tv, n. rewrite <- Hdoc.
    split_and!; [done| |done|done]. by destruct Hc.
  - intros [_ HH] Hn Hroom _. apply Hlive; [done|done|done|by rewrite Hdoc].
  - intros _ ->. by destruct (Hfail ltac:(done)) as [[?|?] _].
Qed.

Lemma set_piece p d pos ps n ps1 name t v st d' w1 w2 :
  consumed p d pos ps ps1 n → set_result (ps_doc ps1) name t v st d' w1 w2 →
  piece ps1 (ps1 <| ps_doc := d' |>) w1 w2.
Proof. intros Hc [? ? _ _ _ _ ?]. split; [apply Hc|done|done|done]. Qed.

Lemma wp_parse_scalar p d pos name t ps len
    (set : Z → option zdb_doc_t → M W (zdb_status_t * option zdb_doc_t)) tv
    (Q : zdb_status_t * pstate → W → Prop) w :
  at_read p d ps pos w →
  (dec_value t (drop pos d) = if length (drop pos d) <? len then None
     else Some (tv (get_le len (drop pos d) 0), len)) →
  (∀ z, (0 ≤ z < 2 ^ (8 * Z.of_nat len))%Z → value_ok (tv z).1 (tv z).2) →
  (∀ z d0 w0 (Q' : _ → _ → Prop), doc_ok d0 → doc_blocks d0 ≤ heap_used (w_k w0) →
     (0 ≤ z < 2 ^ (8 * Z.of_nat len))%Z →
     (∀ st d' w', set_result d0 name (tv z).1 (tv z).2 st d' w0 w' → Q' (st, Some d') w') →
     wp (set z (Some d0)) Q' w0) →
  (∀ st ps' w', value_post p d pos name t ps w st ps' w' → Q (st, ps') w') →
  wp (parse_scalar ps len set) Q w.
Proof.
  intros Hat Hdec Hv Hset HQ. unfold parse_scalar. apply wp_bind. eapply wp_ps_read; [exact Hat| |].
  - intros st buf ps' w' Hst _ Hp Hl. rewrite bool_decide_false by done. cbn [negb].
    apply wp_ret, HQ, value_post_fail; [done|done|]. intros HF. destruct (Hl HF) as [-> Hlt].
    split; [done|]. intros _. by rewrite Hdec, (proj2 (Nat.ltb_lt _ _)).
  - intros ps' w' Hle Hdoc Hp Hc. rewrite bool_decide_true by done. cbn [negb].
    rewrite (proj2 (Nat.ltb_ge _ _)) in Hdec by done. rewrite get_le_take by lia.
    pose proof (get_le_bound len (drop pos d) 0) as Hb.
    pose proof (at_read_next _ _ _ _ _ _ _ _ Hat Hp Hc) as Hat'.
    unfold ps_set. apply wp_bind, Hset; [apply Hat'|apply Hat'|done|]. intros st d' w2 Hr.
    apply wp_ret, HQ. eapply set_value_post; [exact Hdec|by apply Hv|done|exact Hc|exact Hr|].
    eapply piece_trans; [exact Hp|]. by eapply set_piece.
Qed.

(** A block that is taken before and given back after. *)
Lemma held_bracket a b w0 w1 w2 w3 :
  held 0 1 w0 w1 → held a b w1 w2 → held 1 0 w2 w3 → held a b w0 w3.
Proof.
  intros H1 H2 H3. eapply (held_trans (a + 1)); [eapply (held_frame a); [| |exact H1]; lia|].
  eapply (held_trans (b + 1)); [eapply (held_frame 1); [| |exact H2]; lia|].
  eapply (held_frame b); [| |exact H3]; lia.
Qed.

Lemma held_bracket_enough a b w0 w1 w2 :
  a ≤ heap_used (w_k w0) → held 0 1 w0 w1 → held a b w1 w2 → 1 ≤ heap_used (w_k w2).
Proof. intros Ha H1 H2. pose proof (he_heap _ _ _ _ H1). pose proof (he_heap _ _ _ _ H2). lia. Qed.

(** The rest of a parser after it took a block: the program between [k_malloc]
    and [k_free]. *)
Lemma at_read_malloc p d ps pos w w' : at_read p d ps pos w → held 0 1 w w' → at_read p d ps pos w'.
Proof.
  intros [] H. split; try done; [by rewrite (he_files _ _ _ _ H)|].
  pose proof (he_heap _ _ _ _ H). lia.
Qed.

Lemma piece_bracket ps ps' w0 w1 w2 w3 :
  held 0 1 w0 w1 → piece ps ps' w1 w2 → held 1 0 w2 w3 → piece ps ps' w0 w3.
Proof. intros H1 [? ? H2 ?] H3. split; [done|done|by eapply held_bracket|done]. Qed.
Lemma set_result_with_block d name t v st d' w w' :
  set_result d name t v st d' w w' → doc_blocks d + 1 ≤ heap_used (w_k w) → 1 ≤ heap_used (w_k w').
Proof. intros [_ H _ _ _ _ _] ?. pose proof (he_heap _ _ _ _ H). lia. Qed.

(** Bytes whose length was read before them, in a block of their own. *)
Lemma wp_sized p d pos name t tv n k ps ps1
    (set : list byte → option zdb_doc_t → M W (zdb_status_t * option zdb_doc_t))
    (Q : zdb_status_t * pstate → W → Prop) w w1 :
  let data := take n (drop 4 (drop pos d)) in
  at_read p d ps pos w → piece ps ps1 w w1 → consumed p d pos ps ps1 4 → ps_doc ps1 = ps_doc ps →
  dec_value t (drop pos d) = (if length (drop pos d) <? 4 + n then None else Some (tv, 4 + n)) →
  (4 + n ≤ length (drop pos d) → value_ok tv.1 tv.2) →
  (∀ d0 w0 (Q' : _ → _ → Prop), doc_ok d0 → doc_blocks d0 ≤ heap_used (w_k w0) → length data = n →
     (∀ st d' w', set_result d0 name tv.1 tv.2 st d' w0 w' → Q' (st, Some d') w') →
     wp (set data (Some d0)) Q' w0) →
  (∀ st ps' w', value_post p d pos name t ps w st ps' w' → Q (st, ps') w') →
  wp (ok ← on_k (k_malloc k);
      if negb ok then ret (ZDB_ERR_NOMEM, ps1)
      else
        '(st, buf, ps2) ← ps_read ps1 n;
        if negb (bool_decide (st = ZDB_OK)) then on_k_ k_free;; ret (st, ps2)
        else '(rc, ps3) ← ps_set ps2 (set buf); on_k_ k_free;; ret (rc, ps3)) Q w1.
Proof.
  intros data Hat Hp1 Hc1 Hdoc1 Hdec Hv Hset HQ.
  pose proof (at_read_next _ _ _ _ _ _ _ _ Hat Hp1 Hc1) as Hat1.
  assert (drop (pos + 4) d = drop 4 (drop pos d)) as Hdrop by (by rewrite drop_drop).
  apply wp_bind, wp_malloc; [intros w2 M2 G2|intros w2 M2 G2 Hl]; cbn [negb]; cycle 1.
  { apply wp_ret, HQ, value_post_fail; [done| |done]. eapply piece_trans; [exact Hp1|].
    split; [apply Hat1 || apply (ar_pos _ _ _ _ _ Hat1)|apply Hat1| |done].
    eapply (held_frame (doc_blocks (ps_doc ps1))); [| |exact M2]; lia. }
  pose proof (at_read_malloc _ _ _ _ _ _ Hat1 M2) as Hat2. apply wp_bind. eapply wp_ps_read; [exact Hat2| |].
  - intros st buf ps2 w3 Hst Hdoc2 Hp2 Hfl. rewrite bool_decide_false by done. cbn [negb].
    apply wp_bind, wp_heap_free; [by eapply (held_bracket_enough _ _ w1); [apply Hat1|exact M2|apply Hp2]|].
    intros w4 M4 G4. apply wp_ret, HQ, value_post_fail; [done| |].
    + eapply piece_trans; [exact Hp1|]. by eapply piece_bracket.
    + intros HF. destruct (Hfl HF) as [-> Hlt]. split; [done|]. intros _.
      rewrite Hdec, (proj2 (Nat.ltb_lt _ _)); [done|]. rewrite Hdrop, length_drop in Hlt. lia.
  - intros ps2 w3 Hle Hdoc2 Hp2 Hc2. rewrite bool_decide_true by done. cbn [negb]. rewrite Hdrop in *.
    assert (4 + n ≤ length (drop pos d)) as Hlen.
    { pose proof (cs_len _ _ _ _ _ _ Hc2). rewrite length_drop. lia. }
    fold data. unfold ps_set. do 2 apply wp_bind.
    pose proof (at_read_next _ _ _ _ _ _ _ _ Hat2 Hp2 Hc2) as Hat3.
    apply Hset; [apply Hat3|apply Hat3|unfold data; rewrite length_take; lia|]. intros st d' w4 Hr.
    apply wp_ret, wp_bind, wp_heap_free; [|intros w5 M5 G5].
    { eapply set_result_with_block; [exact Hr|]. pose proof (ar_heap _ _ _ _ _ Hat1).
      pose proof (he_heap _ _ _ _ M2). pose proof (he_heap _ _ _ _ (pc_held _ _ _ _ Hp2)). lia. }
    apply wp_ret, HQ. cbn [default from_option].
    eapply set_value_post; [by rewrite Hdec, (proj2 (Nat.ltb_ge _ _))|by apply Hv|congruence| |exact Hr|].
    + by eapply consumed_trans.
    + eapply piece_trans; [exact Hp1|]. eapply piece_bracket; [exact M2| |exact M5].
      eapply piece_trans; [exact Hp2|]. by eapply set_piece.
Qed.

Lemma wp_parse_string p d pos name ps (Q : zdb_status_t * pstate → W → Prop) w :
  at_read p d ps pos w → c_string name →
  (∀ st ps' w', value_post p d pos name (Some ZDB_DOC_FIELD_STRING) ps w st ps' w' → Q (st, ps') w') →
  wp (parse_string ps name) Q w.
Proof.
  intros Hat Hname HQ. unfold parse_string. apply wp_bind. eapply wp_ps_read; [exact Hat| |].
  { intros st buf ps' w' Hst _ Hp Hl. rewrite bool_decide_false by done. cbn [negb].
    apply wp_ret, HQ, value_post_fail; [done|done|]. intros HF. destruct (Hl HF) as [-> Hlt].
    split; [done|]. intros _. unfold dec_value. by rewrite (proj2 (Nat.ltb_lt _ _)). }
  intros ps1 w1 Hle Hdoc Hp Hc. rewrite bool_decide_true by done. cbn [negb].
  rewrite get_le_take by lia. set (n := Z.to_nat (get_le 4 (drop pos d) 0)).
  pose proof (get_le_bound 4 (drop pos d) 0) as Hb.
  assert (get_le 4 (drop pos d) 0 = Z.of_nat n) as -> by (unfold n; lia).
  destruct (Z.ltb_spec (Z.of_nat CONFIG_ZDB_DOC_MAX_STRING_LEN) (Z.of_nat n)) as [Hbig|Hsmall].
  { apply wp_ret, HQ, value_post_fail; [done|done|]. intros _. split; [done|]. intros _. unfold dec_value.
    fold n. rewrite (proj2 (Nat.ltb_ge _ 4)), (proj2 (Nat.ltb_lt _ n)) by lia. done. }
  set (data := take n (drop 4 (drop pos d))).
  eapply (wp_sized _ _ _ name _ (ZDB_DOC_FIELD_STRING, V_str (Some (c_str (data ++ [nul])))) n _ ps ps1
    (λ str d, zdb_doc_field_set_string d (Some name) (Some (c_str (str ++ [nul])))));
    [exact Hat|exact Hp|exact Hc|done| | | |exact HQ].
  - unfold dec_value. fold n. rewrite (proj2 (Nat.ltb_ge _ 4)), (proj2 (Nat.ltb_ge _ n)) by lia. done.
  - intros _. split; [apply c_str_no_nul|]. pose proof (length_c_str_nul data).
    assert (length data ≤ n) by (unfold data; rewrite length_take; lia). lia.
  - intros d0 w0 Q' Hd0 Hh0 _ HQ'. apply wp_set_string; [done|done|done|apply c_str_no_nul|done].
Qed.

Lemma wp_parse_bytes p d pos name ps (Q : zdb_status_t * pstate → W → Prop) w :
  at_read p d ps pos w → c_string name →
  (∀ st ps' w', value_post p d pos name (Some ZDB_DOC_FIELD_BYTES) ps w st ps' w' → Q (st, ps') w') →
  wp (parse_bytes ps name) Q w.
Proof.
  intros Hat Hname HQ. unfold parse_bytes. apply wp_bind. eapply wp_ps_read; [exact Hat| |].
  { intros st buf ps' w' Hst _ Hp Hl. rewrite bool_decide_false by done. cbn [negb].
    apply wp_ret, HQ, value_post_fail; [done|done|]. intros HF. destruct (Hl HF) as [-> Hlt].
    split; [done|]. intros _. unfold dec_value. by rewrite (proj2 (Nat.ltb_lt _ _)). }
  intros ps1 w1 Hle Hdoc Hp Hc. rewrite bool_decide_true by done. cbn [negb].
  rewrite get_le_take by lia. set (n := Z.to_nat (get_le 4 (drop pos d) 0)).
  pose proof (get_le_bound 4 (drop pos d) 0) as Hb.
  assert (get_le 4 (drop pos d) 0 = Z.of_nat n) as -> by (unfold n; lia).
  assert (dec_value (Some ZDB_DOC_FIELD_BYTES) (drop pos d) =
    if (CONFIG_ZDB_DOC_MAX_BYTES_LEN <? n) || (length (drop pos d) <? 4 + n) then None
    else Some ((ZDB_DOC_FIELD_BYTES, bytes_value (Some (take n (drop 4 (drop pos d)))) n), 4 + n)) as Hdec.
  { unfold dec_value. fold n. by rewrite (proj2 (Nat.ltb_ge _ 4)) by lia. }
  destruct (Z.ltb_spec (Z.of_nat CONFIG_ZDB_DOC_MAX_BYTES_LEN) (Z.of_nat n)) as [Hbig|Hsmall].
  { apply wp_ret, HQ, value_post_fail; [done|done|]. intros _. split; [done|]. intros _.
    rewrite Hdec, (proj2 (Nat.ltb_lt _ n)) by lia. done. }
  rewrite (proj2 (Nat.ltb_ge _ n)) in Hdec by lia. cbn [orb] in Hdec.
  pose proof (at_read_next _ _ _ _ _ _ _ _ Hat Hp Hc) as Hat1.
  destruct (Z.ltb_spec 0 (Z.of_nat n)).
  - eapply (wp_sized _ _ _ name _ _ n n ps ps1 (λ data d, zdb_doc_field_set_bytes d (Some name) (Some data) n));
      [exact Hat|exact Hp|exact Hc|done|exact Hdec| | |exact HQ].
    + intros Hlen. simpl. unfold bytes_value. rewrite (proj2 (Nat.eqb_neq n 0)) by lia. simpl.
      rewrite !length_take. rewrite length_drop. lia.
    + intros d0 w0 Q' Hd0 Hh0 Hlen HQ'. apply wp_set_bytes; [done..| |done]. intros data [= <-]. lia.
  - assert (n = 0) as Hn0 by lia. rewrite Hn0 in Hdec.
    rewrite (proj2 (Nat.ltb_ge _ (4 + 0))) in Hdec by lia.
    unfold ps_set. apply wp_bind, wp_set_bytes; [apply Hat1|apply Hat1|done|done|]. intros st d' w2 Hr.
    apply wp_ret, HQ. eapply set_value_post; [exact Hdec|done|done|exact Hc|exact Hr|].
    eapply piece_trans; [exact Hp|]. by eapply set_piece.
Qed.

Lemma wp_parse_value p d pos name t ps (Q : zdb_status_t * pstate → W → Prop) w :
  at_read p d ps pos w → c_string name →
  (∀ st ps' w', value_post p d pos name t ps w st ps' w' → Q (st, ps') w') →
  wp (parse_value ps name t) Q w.
Proof.
  intros Hat Hname HQ.
  assert (dec_value t (drop pos d) = None → wp (ret (ZDB_ERR_UNSUPPORTED, ps)) Q w) as Hno.
  { intros Hd. apply wp_ret, HQ, value_post_fail; [done|by eapply piece_refl|]. done. }
  unfold parse_value. destruct t as [[]|]; try (apply Hno; reflexivity).
  - eapply (wp_parse_scalar _ _ _ _ (Some ZDB_DOC_FIELD_INT64) _ _ _ (λ z, (ZDB_DOC_FIELD_INT64, V_i64 (i64 z)))); [exact Hat|reflexivity| | |exact HQ].
    + intros z _. apply i64_range.
    + intros z d0 w0 Q' Hd Hh _ HQ'. apply wp_set_i64; [done..|apply i64_range|done].
  - eapply (wp_parse_scalar _ _ _ _ (Some ZDB_DOC_FIELD_DOUBLE) _ _ _ (λ z, (ZDB_DOC_FIELD_DOUBLE, V_f64 z))); [exact Hat|reflexivity| | |exact HQ].
    + intros z Hz. exact Hz.
    + intros z d0 w0 Q' Hd Hh Hz HQ'. by apply wp_set_f64.
  - by eapply wp_parse_string.
  - eapply (wp_parse_scalar _ _ _ _ (Some ZDB_DOC_FIELD_BOOL) _ _ _ (λ z, (ZDB_DOC_FIELD_BOOL, V_bool (negb (z =? 0)%Z)))); [exact Hat|reflexivity| | |exact HQ].
    + done.
    + intros z d0 w0 Q' Hd Hh _ HQ'. by apply wp_set_bool.
  - by eapply wp_parse_bytes.
Qed.
(** ** Fields *)

Record field_post (p d : list byte) (pos : nat) ps w (st : zdb_status_t) ps' w' : Prop := {
  fp_piece : piece ps ps' w w';
  fp_done : st = ZDB_OK → ∃ name tv n, dec_field (drop pos d) = Some (name, tv, n) ∧
    consumed p d pos ps ps' n ∧ puts (ps_doc ps) name (the_field name tv.1 tv.2) (ps_doc ps');
  fp_live : live → field_count (ps_doc ps) < max_fields (ps_doc ps) →
    dec_field (drop pos d) ≠ None → st = ZDB_OK;
  fp_found : FsLive FS FH DH → st ≠ ZDB_ERR_NOT_FOUND;
}.

Lemma field_post_fail p d pos ps w st ps' w' :
  st ≠ ZDB_OK → piece ps ps' w w' →
  (FsLive FS FH DH → st ≠ ZDB_ERR_NOT_FOUND ∧ (HeapLive K → dec_field (drop pos d) = None)) →
  field_post p d pos ps w st ps' w'.
Proof.
  intros Hst Hp Hl. split; [done|done| |].
  - intros [HF HH] _ Hd. destruct Hd. by apply Hl.
  - intros HF. by apply Hl.
Qed.

(** From the value to the field it belongs to. *)
Lemma field_post_value p d pos ps ps2 w w2 st ps' w3 w4 n name t :
  let b := drop pos d in
  dec_field b = (if bool_decide (name = []) then None else
    (λ r : (zdb_doc_field_type_t * zdb_doc_field_value_t) * nat,
       (name, r.1, sizeof_doc_field_hdr + n + r.2)) <$> dec_value t (drop (sizeof_doc_field_hdr + n) b)) →
  c_string name → length name ≤ CONFIG_ZDB_DOC_MAX_FIELD_NAME_LEN →
  ps_doc ps2 = ps_doc ps → consumed p d pos ps ps2 (sizeof_doc_field_hdr + n) →
  value_post p d (pos + (sizeof_doc_field_hdr + n)) name t ps2 w2 st ps' w3 →
  piece ps ps' w w4 → field_post p d pos ps w st ps' w4.
Proof.
  intros b Hdec Hc Hl Hdoc Hcs [_ Hdone Hlive Hfound] Hp. subst b. rewrite drop_drop in Hdec.
  split; [done| | |done].
  - intros Hst. destruct (Hdone Hst) as (tv & m & Hv & Hcs2 & [_ Hn] & Hput).
    exists name, tv, (sizeof_doc_field_hdr + n + m). rewrite Hdec, Hv, bool_decide_false.
    + split_and!; [done|by eapply consumed_trans|by rewrite <- Hdoc].
    + intros ->. simpl in Hn. lia.
  - intros Hlv Hroom Hd. rewrite Hdec in Hd. case_bool_decide as Hne; [done|].
    apply Hlive; [done| |rewrite Hdoc; by right|].
    + split; [done|]. destruct name; [done|simpl in *; lia].
    + intros Hz. by rewrite Hz in Hd.
Qed.

Lemma dec_field_short b : length b < sizeof_doc_field_hdr → dec_field b = None.
Proof. intros H. unfold dec_field. by rewrite (proj2 (Nat.ltb_lt _ _)). Qed.

Lemma wp_parse_field p d pos ps (Q : zdb_status_t * pstate → W → Prop) w :
  at_read p d ps pos w →
  (∀ st ps' w', field_post p d pos ps w st ps' w' → Q (st, ps') w') →
  wp (parse_field ps) Q w.
Proof.
  intros Hat HQ. unfold parse_field. apply wp_bind. eapply wp_ps_read; [exact Hat| |].
  { intros st buf ps' w' Hst _ Hp Hl. rewrite bool_decide_false by done. cbn [negb].
    apply wp_ret, HQ, field_post_fail; [done|done|]. intros HF. destruct (Hl HF) as [-> Hlt].
    split; [done|]. intros _. by apply dec_field_short. }
  intros ps1 w1 Hle Hdoc1 Hp1 Hc1. rewrite bool_decide_true by done. cbn [negb].
  set (b := drop pos d) in *.
  assert (u8_at (take sizeof_doc_field_hdr b) 4 = u8_at b 4) as ->.
  { unfold u8_at. by rewrite lookup_take_lt by (unfold sizeof_doc_field_hdr; lia). }
  rewrite get_le_take by (unfold sizeof_doc_field_hdr; lia). set (n := Z.to_nat (get_le 2 b 0)).
  pose proof (at_read_next _ _ _ _ _ _ _ _ Hat Hp1 Hc1) as Hat1.
  assert (dec_field b = if (n =? 0) || (CONFIG_ZDB_DOC_MAX_FIELD_NAME_LEN <? n) then None
    else if length b <? sizeof_doc_field_hdr + n then None
    else let name := c_str (take n (drop sizeof_doc_field_hdr b) ++ [nul]) in
      if bool_decide (name = []) then None
      else (λ r : (zdb_doc_field_type_t * zdb_doc_field_value_t) * nat,
              (name, r.1, sizeof_doc_field_hdr + n + r.2)) <$>
             dec_value (field_type_of (u8_at b 4)) (drop (sizeof_doc_field_hdr + n) b)) as Hdec.
  { unfold dec_field. fold n. by rewrite (proj2 (Nat.ltb_ge _ _)). }
  destruct (_ || _) eqn:Hbad.
  { apply wp_ret, HQ, field_post_fail; [done|done|]. done. }
  apply orb_false_iff in Hbad as [_ Hmax%Nat.ltb_ge].
  apply wp_bind, wp_malloc; [intros w2 M2 G2|intros w2 M2 G2 Hl]; cbn [negb]; cycle 1.
  { apply wp_ret, HQ, field_post_fail; [done| |done]. eapply piece_trans; [exact Hp1|].
    split; [apply (ar_pos _ _ _ _ _ Hat1)|apply Hat1| |done].
    eapply (held_frame (doc_blocks (ps_doc ps1))); [| |exact M2]; lia. }
  pose proof (at_read_malloc _ _ _ _ _ _ Hat1 M2) as Hat2.
  apply wp_bind. eapply wp_ps_read; [exact Hat2| |].
  - intros st buf ps2 w3 Hst Hdoc2 Hp2 Hfl. apply wp_bind. rewrite bool_decide_false by done. cbn [negb].
    apply wp_ret, wp_bind, wp_heap_free; [by eapply (held_bracket_enough _ _ w1); [apply Hat1|exact M2|apply Hp2]|].
    intros w4 M4 G4. apply wp_ret, HQ, field_post_fail; [done| |].
    + eapply piece_trans; [exact Hp1|]. by eapply piece_bracket.
    + intros HF. destruct (Hfl HF) as [-> Hlt]. split; [done|]. intros _. fold b.
      rewrite Hdec, (proj2 (Nat.ltb_lt _ _)); [done|]. rewrite length_drop in Hlt. unfold b in *.
      rewrite length_drop in *. lia.
  - intros ps2 w3 Hle2 Hdoc2 Hp2 Hc2. apply wp_bind. rewrite bool_decide_true by done. cbn [negb].
    pose proof (at_read_next _ _ _ _ _ _ _ _ Hat2 Hp2 Hc2) as Hat3. rewrite <- Nat.add_assoc in Hat3.
    assert (drop (pos + sizeof_doc_field_hdr) d = drop sizeof_doc_field_hdr b) as Hdrop
      by (unfold b; by rewrite drop_drop).
    rewrite Hdrop in *. set (raw := take n (drop sizeof_doc_field_hdr b)) in *.
    rewrite (proj2 (Nat.ltb_ge _ (sizeof_doc_field_hdr + n))) in Hdec
      by (rewrite length_drop in Hle2; unfold sizeof_doc_field_hdr in *; lia).
    eapply wp_parse_value; [exact Hat3|apply c_str_no_nul|]. intros st ps3 w4 Hv.
    apply wp_bind, wp_heap_free.
    { eapply (held_bracket_enough _ _ w1); [apply Hat1|exact M2|]. eapply held_trans; [apply Hp2|apply Hv]. }
    intros w5 M5 G5. apply wp_ret, HQ.
    eapply (field_post_value _ _ _ _ ps2 _ _ _ _ _ _ n); [exact Hdec|apply c_str_no_nul| |congruence| |exact Hv|].
    + pose proof (length_c_str_nul raw). assert (length raw ≤ n) by (unfold raw; rewrite length_take; lia). lia.
    + by eapply consumed_trans.
    + eapply piece_trans; [exact Hp1|]. eapply piece_bracket; [exact M2| |exact M5].
      eapply piece_trans; [exact Hp2|apply Hv].
Qed.
Record fields_post (count : nat) (p d : list byte) (pos : nat) ps w (st : zdb_status_t) ps' w' : Prop := {
  fs_piece : piece ps ps' w w';
  fs_done : st = ZDB_OK → ∃ l n, dec_fields count (drop pos d) = Some (l, n) ∧
    consumed p d pos ps ps' n ∧ doc_fields (ps_doc ps') = put_all (doc_fields (ps_doc ps)) l ∧
    same_handle (ps_doc ps) (ps_doc ps');
  fs_live : live → field_count (ps_doc ps) + count ≤ max_fields (ps_doc ps) →
    dec_fields count (drop pos d) ≠ None → st = ZDB_OK;
  fs_found : FsLive FS FH DH → st ≠ ZDB_ERR_NOT_FOUND;
}.

Lemma put_field_length l name f : length (put_field l name f) ≤ S (length l).
Proof.
  unfold put_field. destruct (field_index l name 0); [rewrite length_insert|rewrite length_app; simpl]; lia.
Qed.

Lemma puts_count d name f d' : doc_ok d → doc_ok d' → puts d name f d' → field_count d' ≤ S (field_count d).
Proof.
  intros Hd Hd' Hp. rewrite <- (length_doc_fields d), <- (length_doc_fields d'), (pt_fields _ _ _ _ Hp) by done.
  apply put_field_length.
Qed.

Lemma wp_parse_fields count p d pos ps (Q : zdb_status_t * pstate → W → Prop) w :
  at_read p d ps pos w →
  (∀ st ps' w', fields_post count p d pos ps w st ps' w' → Q (st, ps') w') →
  wp (parse_fields count ps) Q w.
Proof.
  revert pos ps Q w. induction count as [|count IH]; intros pos ps Q w Hat HQ.
  { apply wp_ret, HQ. split; [by eapply piece_refl| |done|done]. intros _. exists [], 0.
    split_and!; [done| |done|done]. split.
    - rewrite Nat.add_0_r. apply Hat.
    - rewrite Nat.add_0_r. apply Hat.
    - rewrite take_0. destruct (ps_crc ps); simpl; [|done]. by rewrite crc32_nil. }
  simpl. apply wp_bind. eapply wp_parse_field; [exact Hat|].
  intros st ps1 w1 [Hp1 Hdone1 Hlive1 Hfound1]. case_bool_decide as Hst; cbn [negb]; cycle 1.
  { apply wp_ret, HQ. split; [done|done| |done]. intros Hl Hroom Hd. apply Hlive1; [done|lia|].
    intros Hz. apply Hd. cbn [dec_fields]. by rewrite Hz. }
  destruct (Hdone1 Hst) as (name & tv & n & Hf & Hc1 & Hput).
  pose proof (at_read_next _ _ _ _ _ _ _ _ Hat Hp1 Hc1) as Hat1.
  eapply IH; [exact Hat1|]. intros st2 ps2 w2 [Hp2 Hdone2 Hlive2 Hfound2].
  rewrite <- drop_drop in Hdone2, Hlive2.
  apply HQ. split; [by eapply piece_trans| | |done].
  - intros Hst2. destruct (Hdone2 Hst2) as (l & m & Hl & Hc2 & Hfs & Hsame).
    exists ((name, tv) :: l), (n + m). cbn [dec_fields]. rewrite Hf. cbn [mbind option_bind].
    rewrite Hl. split_and!; [done|by eapply consumed_trans| |].
    + rewrite Hfs, (pt_fields _ _ _ _ Hput). done.
    + by etrans; [apply Hput|].
  - intros Hl Hroom Hd. apply Hlive2; [done| |].
    + pose proof (puts_count _ _ _ _ (ar_doc _ _ _ _ _ Hat) (pc_doc _ _ _ _ Hp1) Hput).
      destruct (pt_rest _ _ _ _ Hput) as (_ & _ & _ & _ & -> & _). lia.
    + intros Hz. apply Hd. cbn [dec_fields]. rewrite Hf. cbn [mbind option_bind]. by rewrite Hz.
Qed.

(** The header and the fields, once the header was read. *)
Record body_post (p d : list byte) ps w (st : zdb_status_t) ps' w' : Prop := {
  bp_piece : piece ps ps' w w';
  bp_done : st = ZDB_OK → ∃ l, dec_doc d = Some {| ct_fields := l; ct_created := get_le 8 d 8;
      ct_updated := get_le 8 d 16 |} ∧
    doc_fields (ps_doc ps') = put_all (doc_fields (ps_doc ps)) l ∧ same_handle (ps_doc ps) (ps_doc ps');
  bp_live : live → dec_doc d ≠ None → st = ZDB_OK;
  bp_found : FsLive FS FH DH → st ≠ ZDB_ERR_NOT_FOUND;
}.

Lemma body_post_fail p d ps w st ps' w' :
  st ≠ ZDB_OK → piece ps ps' w w' →
  (FsLive FS FH DH → st ≠ ZDB_ERR_NOT_FOUND ∧ (HeapLive K → dec_doc d = None)) →
  body_post p d ps w st ps' w'.
Proof.
  intros Hst Hp Hl. split; [done|done| |].
  - intros [HF HH] Hd. destruct Hd. by apply Hl.
  - intros HF. by apply Hl.
Qed.

Lemma crc_fields d n :
  crc32_ieee_update (crc32_ieee (take doc_hdr_crc_off d)) (take n (drop sizeof_doc_hdr d)) =
  crc32_ieee (take doc_hdr_crc_off d ++ take n (drop sizeof_doc_hdr d)).
Proof. apply crc32_app. Qed.

Lemma wp_parse_body p d ps (Q : zdb_status_t * pstate → W → Prop) w :
  at_read p d ps sizeof_doc_hdr w → field_count (ps_doc ps) = 0 →
  (∀ st ps' w', body_post p d ps w st ps' w' → Q (st, ps') w') →
  wp (parse_body (take sizeof_doc_hdr d) ps) Q w.
Proof.
  intros Hat H0 HQ. unfold parse_body. pose proof (ar_len _ _ _ _ _ Hat) as Hlen.
  rewrite !get_le_take, take_take by (unfold sizeof_doc_hdr, doc_hdr_crc_off; lia).
  replace (doc_hdr_crc_off `min` sizeof_doc_hdr) with doc_hdr_crc_off by done.
  set (version := get_le 2 d 4). set (stored := get_le 4 d doc_hdr_crc_off).
  set (count := Z.to_nat (get_le 2 d 6)). rewrite (dk_max _ (ar_doc _ _ _ _ _ Hat)).
  set (v1 := (version =? ZDB_DOC_VERSION_V1)%Z).
  assert (dec_doc d = if negb (get_le 4 d 0 =? ZDB_DOC_MAGIC)%Z || (negb (version =? ZDB_DOC_VERSION)%Z && negb v1)
    then None else if v1 && negb (stored =? crc32_ieee (take doc_hdr_crc_off d))%Z then None
    else if CONFIG_ZDB_DOC_MAX_FIELD_COUNT <? count then None
    else match dec_fields count (drop sizeof_doc_hdr d) with
         | None => None
         | Some (l, n) => if negb v1 && negb (stored =? crc32_ieee (take doc_hdr_crc_off d ++
                            take n (drop sizeof_doc_hdr d)))%Z then None
             else Some {| ct_fields := l; ct_created := get_le 8 d 8; ct_updated := get_le 8 d 16 |}
         end) as Hdec.
  { unfold dec_doc. fold version stored count v1. by rewrite (proj2 (Nat.ltb_ge _ _)). }
  assert (piece ps ps w w) as Hrefl by (by eapply piece_refl).
  destruct (_ || _); [by apply wp_ret, HQ, body_post_fail|].
  destruct (v1 && _); [by apply wp_ret, HQ, body_post_fail|].
  set (crc := if v1 then None else Some (crc32_ieee (take doc_hdr_crc_off d))).
  assert (piece ps (ps <| ps_crc := crc |>) w w) as Hp1 by (destruct Hrefl; by split).
  destruct (_ <? _) eqn:Hcount; [by apply wp_ret, HQ, body_post_fail|]. apply Nat.ltb_ge in Hcount.
  assert (at_read p d (ps <| ps_crc := crc |>) sizeof_doc_hdr w) as Hat1 by (destruct Hat; by split).
  apply wp_bind. eapply wp_parse_fields; [exact Hat1|].
  intros st ps2 w2 [Hp2 Hdone Hlive Hfound]. apply wp_ret, HQ. simpl in Hdone, Hlive.
  assert (piece ps ps2 w w2) as Hp by (by eapply piece_trans).
  rewrite H0, (dk_max _ (ar_doc _ _ _ _ _ Hat)) in Hlive.
  case_bool_decide as Hst; cbn [andb]; cycle 1.
  { split; [done|done| |done]. intros Hl Hd. apply Hlive; [done|lia|]. intros Hz. by rewrite Hdec, Hz in Hd. }
  destruct (Hdone Hst) as (l & n & Hl & Hc & Hfs & Hsame). pose proof (cs_crc _ _ _ _ _ _ Hc) as Hcrc.
  rewrite Hl in Hdec. simpl in Hcrc. unfold crc in Hcrc.
  destruct v1; simpl in Hcrc, Hdec; rewrite Hcrc.
  - split; [done| |done|done]. intros _. by exists l.
  - rewrite crc_fields. destruct (negb _).
    + by apply body_post_fail.
    + split; [done| |done|done]. intros _. by exists l.
Qed.
(** ** The file *)

(** What parsing leaves: on success, the contents of the file. *)
Record parse_post (path : list byte) d w (st : zdb_status_t) d' w' : Prop := {
  pr_doc : doc_ok d';
  pr_same : collection_name d' = collection_name d ∧ document_id d' = document_id d;
  pr_held : held (doc_blocks d) (doc_blocks d') w w';
  pr_done : st = ZDB_OK → ∃ data c, files w !! path = Some data ∧ dec_doc data = Some c ∧
    doc_fields d' = put_all [] (ct_fields c) ∧ created_ms d' = ct_created c ∧
    updated_ms d' = ct_updated c;
  pr_live : live → ∀ data, files w !! path = Some data → dec_doc data ≠ None → st = ZDB_OK;
  pr_found : FsLive FS FH DH → is_Some (files w !! path) → st ≠ ZDB_ERR_NOT_FOUND;
  pr_missing : FsMissing FS FH DH → files w !! path = None → st = ZDB_ERR_NOT_FOUND;
}.

Lemma held_fs_at n w fs' : fs_files fs' = files w → held n n w (w <| w_fs := fs' |>).
Proof. intros H. eapply (held_frame n); [| |by apply held_fs]; done. Qed.

Lemma wp_parse_file path d (Q : zdb_status_t * zdb_doc_t → W → Prop) w :
  doc_ok d → doc_fields d = [] → doc_blocks d ≤ heap_used (w_k w) →
  (∀ st d' w', parse_post path d w st d' w' → Q (st, d') w') →
  wp (zdb_doc_parse_file path d) Q w.
Proof.
  intros Hd Hnil Hh HQ. unfold zdb_doc_parse_file. apply wp_bind, wp_on_fs. intros [rc fh] fs1 Heq.
  pose proof (fs_open_law fs_file_t_init path FS_READ (w_fs w)) as Hl. rewrite Heq in Hl. cbn [fst snd] in Hl.
  destruct Hl as [(Hrc & Hfs & Hno)|(-> & Hp & Hpos & Hfl & Hcase)].
  { rewrite (proj2 (Z.ltb_lt _ _)) by done. apply wp_ret, HQ.
    assert (FsLive FS FH DH → is_Some (files w !! path) → False) as Habs.
    { intros Hlv Hs. pose proof (live_open fs_file_t_init path FS_READ (w_fs w) Hs) as Hge.
      rewrite Heq in Hge. simpl in Hge. lia. }
    split; [done|done|by apply held_fs_at|..].
    - intros Hst. apply status_from_errno_ok in Hst. lia.
    - intros [HF _] data Hdata _. exfalso. by eapply Habs.
    - intros HF Hs. exfalso. by eapply Habs.
    - intros HM Hn. pose proof (HM fs_file_t_init path FS_READ (w_fs w) Hn eq_refl) as Hrc'.
      rewrite Heq in Hrc'. simpl in Hrc'. by subst rc. }
  change (0 <? 0)%Z with false. cbn iota. set (w1 := w <| w_fs := fs1 |>).
  destruct Hcase as [(data & Hdata & Hfs)|(_ & Hcr & _)]; [|done]. simpl in Hfs.
  assert (held (doc_blocks d) (doc_blocks d) w w1) as H1 by (by apply held_fs_at).
  set (ps0 := {| ps_file := fh; ps_crc := None; ps_doc := d |}).
  assert (at_read path data ps0 0 w1) as Hat.
  { split; [by split|unfold files; simpl; by rewrite Hfs|lia|done|exact Hh]. }
  assert (∀ st ps hdr w2, piece ps0 ps w1 w2 →
    (st = ZDB_OK → hdr = take sizeof_doc_hdr data ∧ ∃ l, dec_doc data = Some {| ct_fields := l;
        ct_created := get_le 8 data 8; ct_updated := get_le 8 data 16 |} ∧
      doc_fields (ps_doc ps) = put_all [] l ∧ same_handle d (ps_doc ps)) →
    (live → dec_doc data ≠ None → st = ZDB_OK) → (FsLive FS FH DH → st ≠ ZDB_ERR_NOT_FOUND) →
    wp (on_fs (fs_close (ps_file ps));;
        ret (st, if bool_decide (st = ZDB_OK)
                 then (ps_doc ps) <| created_ms := get_le 8 hdr 8 |> <| updated_ms := get_le 8 hdr 16 |>
                 else ps_doc ps)) Q w2) as Hend.
  { intros st ps hdr w2 [Hflags Hok Hheld Hsm] Hdone Hlive Hfound. apply wp_bind, wp_fs_close_read; [by rewrite Hflags|].
    intros rc fs3 Hfs3. apply wp_ret, HQ. simpl in Hheld.
    assert (held (doc_blocks d) (doc_blocks (ps_doc ps)) w (w2 <| w_fs := fs3 |>)) as H3.
    { eapply held_trans; [exact H1|]. eapply held_trans; [exact Hheld|by apply held_fs_at]. }
    case_bool_decide as Hst; cycle 1.
    { split; [done|by split; apply Hsm|exact H3|done| |by intros; apply Hfound|intros _; unfold files; by rewrite Hdata].
      intros Hl data' Hd' Hdec. unfold files in Hd'. rewrite Hdata in Hd'. injection Hd' as <-. auto. }
    destruct (Hdone Hst) as (-> & l & Hdec & Hfs' & (E1 & E2 & E3 & E4 & E5 & E6)).
    rewrite !get_le_take by (unfold sizeof_doc_hdr; lia).
    split; [|by split; apply Hsm|exact H3| |done|by rewrite Hst|intros _; unfold files; by rewrite Hdata].
    - destruct Hok. split; try done; apply (get_le_bound 8).
    - intros _. exists data. eexists. split_and!; done. }
  apply wp_bind. eapply wp_ps_read; [exact Hat| |].
  - intros st buf ps2 w2 Hst Hdoc2 Hp2 Hfl2. apply wp_bind. rewrite bool_decide_false by done. cbn [negb].
    apply wp_ret, Hend; [done|done|..].
    + intros [HF _] Hdec. exfalso. apply Hdec. destruct (Hfl2 HF) as [_ Hlt]. rewrite drop_0 in Hlt.
      unfold dec_doc. by rewrite (proj2 (Nat.ltb_lt _ _)).
    + intros HF. by destruct (Hfl2 HF) as [-> _].
  - intros ps2 w2 Hle Hdoc2 Hp2 Hc2. apply wp_bind. rewrite bool_decide_true by done. cbn [negb].
    rewrite drop_0. pose proof (at_read_next _ _ _ _ _ _ _ _ Hat Hp2 Hc2) as Hat2. simpl in Hat2.
    eapply wp_parse_body; [exact Hat2| |].
    { rewrite Hdoc2. simpl. by rewrite <- (length_doc_fields d Hd), Hnil. }
    intros st ps3 w3 [Hp3 Hdone Hlive Hfound]. rewrite Hdoc2 in Hdone. simpl in Hdone. rewrite Hnil in Hdone.
    apply Hend; [by eapply piece_trans| |done|done]. intros Hst. split; [done|]. by apply Hdone.
Qed.
End parse.
