(* ===== verification/DocStep.v ===== *)
(** * The frame of an operation on stored documents, and where documents are stored

    [doc_step a b w w'] is [held a b] without its promise about files: the
    operation was given [a] heap blocks, leaves [b], gives the lock back and
    changes nothing of the instance but what an unlock publishes. [doc_file] is
    the path of a document; different documents have different paths. *)

From S2P Require Import Prelude Config Env Types FsEnv FsSpec Events Doubles Doc DocFile DocSpec.
From S2P Require Import DocFieldSpec DocHandleSpec.

Section step.
Context {Cfg : Config} {CfgOk : ConfigOk Cfg} {K F FS FH DH : Type}.
Context `{!Kernel K, !KernelLaws K, !FileSys FS FH DH}.
Abbreviation W := (world K F FS).
Implicit Types w : W.

(** What an unlock publishes is no longer pending. *)
Definition published (d d' : zdb_t) : Prop :=
  d' = d <| ts_ctx := ts_ctx d' |> <| health_event_pending := health_event_pending d' |> ∧
  ctx_sim (ts_ctx d) (ts_ctx d').

#[global] Instance published_preorder : PreOrder published.
Proof.
  split; [by intros []|]. intros d1 d2 d3 [H1 S1] [H2 S2]. split; [by rewrite H2, H1|by etrans].
Qed.

Lemma published_unlock d : published d (unlock_db d).
Proof.
  split; [|apply ctx_sim_unlock]. unfold unlock_db. by destruct d, CONFIG_ZDB_EVENTING, CONFIG_ZDB_TS.
Qed.

Lemma published_cfg d d' : published d d' → cfg d' = cfg d.
Proof. by intros [-> _]. Qed.

Record doc_step (a b : nat) w w' : Prop := {
  ds_db : published (w_db w) (w_db w');
  ds_f : w_f w' = w_f w;
  ds_lock : lock_depth (w_k w') = lock_depth (w_k w);
  ds_slab : ∀ s, slab_used (w_k w') s = slab_used (w_k w) s;
  ds_heap : heap_used (w_k w') + a = heap_used (w_k w) + b;
  ds_log : ∃ new, w_log w' = w_log w ++ new;
}.

Lemma doc_step_held a b w w' : held a b w w' → doc_step a b w w'.
Proof. intros [D F0 _ L S H G]. split; try done. by rewrite D. Qed.

Lemma doc_step_refl a w : doc_step a a w w.
Proof. apply doc_step_held, held_refl. Qed.

Lemma doc_step_trans b a c w1 w2 w3 : doc_step a b w1 w2 → doc_step b c w2 w3 → doc_step a c w1 w3.
Proof.
  intros [D1 F1 L1 B1 H1 (n1 & G1)] [D2 F2 L2 B2 H2 (n2 & G2)].
  split; [by etrans|congruence|congruence|intros s; congruence|lia|].
  exists (n1 ++ n2). by rewrite G2, G1, app_assoc.
Qed.

Lemma doc_step_frame n a b a' b' w w' :
  a' = a + n → b' = b + n → doc_step a b w w' → doc_step a' b' w w'.
Proof. intros -> -> [D1 F1 L1 B1 H1 G1]. split; try done. lia. Qed.

Lemma doc_step_fs a w fs' : doc_step a a w (w <| w_fs := fs' |>).
Proof. split; try done. exists []. by rewrite app_nil_r. Qed.

Lemma doc_step_enough a b w w' : doc_step a b w w' → a ≤ heap_used (w_k w) → b ≤ heap_used (w_k w').
Proof. intros H ?. pose proof (ds_heap _ _ _ _ H). lia. Qed.

(** ** Locking *)

Record locked w w' : Prop := {
  lk_db : w_db w' = w_db w;
  lk_f : w_f w' = w_f w;
  lk_fs : w_fs w' = w_fs w;
  lk_lock : lock_depth (w_k w') = S (lock_depth (w_k w));
  lk_slab : ∀ s, slab_used (w_k w') s = slab_used (w_k w) s;
  lk_heap : heap_used (w_k w') = heap_used (w_k w);
  lk_log : w_log w' = w_log w;
}.

Lemma wp_doc_lock db (Q : zdb_status_t → W → Prop) w :
  (∀ w', locked w w' → Q ZDB_OK w') →
  (∀ w', held 0 0 w w' → w_fs w' = w_fs w → ¬ LockLive K → Q ZDB_ERR_BUSY w') →
  wp (zdb_lock_write db) Q w.
Proof.
  intros Hok Hbusy. apply wp_lock.
  - intros k' Hl Hs Hh. by apply Hok.
  - intros k' [Hl Hs Hh] Hno. apply Hbusy; [|done..]. apply held_k; [done..|lia].
Qed.

Lemma wp_doc_lock_read db (Q : zdb_status_t → W → Prop) w :
  (∀ w', locked w w' → Q ZDB_OK w') →
  (∀ w', held 0 0 w w' → w_fs w' = w_fs w → ¬ LockLive K → Q ZDB_ERR_BUSY w') →
  wp (zdb_lock_read db) Q w.
Proof. apply wp_doc_lock. Qed.

(** Unlocking after a section that ran between [w1] and [w2]. *)
Lemma wp_doc_unlock db a b (Q : unit → W → Prop) w w1 w2 :
  locked w w1 → doc_step a b w1 w2 →
  (∀ w', doc_step a b w w' → w_fs w' = w_fs w2 → Q tt w') →
  wp (zdb_unlock_write db) Q w2.
Proof.
  intros [D1 F1 G1 L1 S1 H1 O1] [D2 F2 L2 S2 H2 (n2 & O2)] HQ.
  apply wp_unlock. intros k3 w3 evs L3 S3 H3 _ [D F3 G3 [Kl Ks Kh] O3]. simpl in *.
  apply HQ; [|done]. split.
  - rewrite D, <- D1. etrans; [done|apply published_unlock].
  - congruence.
  - rewrite Kl, L3, L2, L1. done.
  - intros s. rewrite Ks, S3, S2. apply S1.
  - rewrite Kh, H3, <- H1. done.
  - rewrite O3, O2, O1, <- app_assoc. by eexists.
Qed.

Lemma wp_doc_unlock_read db a b (Q : unit → W → Prop) w w1 w2 :
  locked w w1 → doc_step a b w1 w2 →
  (∀ w', doc_step a b w w' → w_fs w' = w_fs w2 → Q tt w') →
  wp (zdb_unlock_read db) Q w2.
Proof. apply wp_doc_unlock. Qed.
End step.

(** ** Paths *)

Section paths.
Context {Cfg : Config}.
Implicit Types (c : zdb_cfg_t) (coll id ext : list byte).

Definition coll_dir c coll : list byte :=
  mount_of c ++ s2b "/" ++ ZDB_DOC_DIRNAME ++ s2b "/" ++ coll.
Definition doc_file c coll id ext : list byte :=
  mount_of c ++ s2b "/" ++ ZDB_DOC_DIRNAME ++ s2b "/" ++ coll ++ s2b "/" ++ id ++ ext.

Lemma doc_file_in_dir c coll id ext : doc_file c coll id ext = coll_dir c coll ++ s2b "/" ++ id ++ ext.
Proof. unfold doc_file, coll_dir. by rewrite <- !app_assoc. Qed.

Lemma build_doc_path_inr cfg coll id ext p :
  zdb_doc_build_doc_path cfg (Some coll) (Some id) ext ZDB_DOC_PATH_MAX = inr p →
  ∃ c, cfg = Some c ∧ p = doc_file c coll id ext ∧ length p < ZDB_DOC_PATH_MAX.
Proof.
  destruct cfg as [c|]; [|done]. unfold zdb_doc_build_doc_path, fit_path.
  replace (ZDB_DOC_PATH_MAX =? 0) with false by done.
  destruct (Nat.leb_spec ZDB_DOC_PATH_MAX
    (length (mount_of c ++ s2b "/" ++ ZDB_DOC_DIRNAME ++ s2b "/" ++ coll ++ s2b "/" ++ id ++ ext))); [done|].
  intros [= <-]. by exists c.
Qed.

Lemma build_doc_path_fits c coll id ext :
  length (doc_file c coll id ext) < ZDB_DOC_PATH_MAX →
  zdb_doc_build_doc_path (Some c) (Some coll) (Some id) ext ZDB_DOC_PATH_MAX = inr (doc_file c coll id ext).
Proof.
  intros H. unfold zdb_doc_build_doc_path, fit_path. replace (ZDB_DOC_PATH_MAX =? 0) with false by done.
  by rewrite (proj2 (Nat.leb_gt _ _)).
Qed.

Lemma build_doc_path_inl cfg (ocoll oid : option cstring) ext rc :
  zdb_doc_build_doc_path cfg ocoll oid ext ZDB_DOC_PATH_MAX = inl rc → (rc = - EINVAL ∨ rc = - ENAMETOOLONG)%Z.
Proof.
  unfold zdb_doc_build_doc_path, fit_path. destruct cfg, ocoll, oid; try (intros [= <-]; by left).
  case_match; [intros [= <-]; by left|]. case_match; [|done]. intros [= <-]. by right.
Qed.

Lemma name_no_slash n : zdb_doc_name_valid (Some n) = true → Byte.x2f ∉ n.
Proof.
  unfold zdb_doc_name_valid. rewrite !andb_true_iff, forallb_forall. intros [_ H] Hin%list_elem_of_In.
  apply H in Hin. apply andb_prop in Hin as [Hs _]. by rewrite bool_decide_true in Hs.
Qed.

Lemma names_valid_slash coll id :
  doc_names_valid coll id = true → Byte.x2f ∉ coll ∧ Byte.x2f ∉ id.
Proof.
  unfold doc_names_valid. rewrite !andb_true_iff. intros [[_ H1] H2]. split; by apply name_no_slash.
Qed.

Lemma split_at_slash a b x y :
  Byte.x2f ∉ a → Byte.x2f ∉ b → a ++ s2b "/" ++ x = b ++ s2b "/" ++ y → a = b ∧ x = y.
Proof.
  change (s2b "/") with [Byte.x2f].
  revert b. induction a as [|u a IH]; intros [|v b] Ha Hb H; simpl in *; simplify_eq; try (exfalso; set_solver).
  - done.
  - destruct (IH b) as [-> ->]; [set_solver..|]. done.
Qed.

(** A document's file and its staging file are no other document's. *)
Lemma doc_file_inj c coll id coll' id' ext ext' :
  doc_names_valid coll id = true → doc_names_valid coll' id' = true →
  ext = ZDB_DOC_FILE_EXT ∨ ext = ZDB_DOC_TMP_EXT → ext' = ZDB_DOC_FILE_EXT ∨ ext' = ZDB_DOC_TMP_EXT →
  doc_file c coll id ext = doc_file c coll' id' ext' → coll = coll' ∧ id = id' ∧ ext = ext'.
Proof.
  intros [Hc Hi]%names_valid_slash [Hc' Hi']%names_valid_slash He He' Heq.
  unfold doc_file in Heq. do 4 apply (inj (app _)) in Heq.
  apply split_at_slash in Heq as [-> Heq]; [|done..].
  assert (∀ a, last (a ++ ZDB_DOC_FILE_EXT) = Some (Byte.x63)) as H1.
  { intros a. by rewrite last_app. }
  assert (∀ a, last (a ++ ZDB_DOC_TMP_EXT) = Some (Byte.x70)) as H2.
  { intros a. by rewrite last_app. }
  destruct He as [-> | ->], He' as [-> | ->].
  - split_and!; [done|by apply (inj (λ x, x ++ _)) in Heq|done].
  - apply (f_equal last) in Heq. by rewrite H1, H2 in Heq.
  - apply (f_equal last) in Heq. by rewrite H1, H2 in Heq.
  - split_and!; [done|by apply (inj (λ x, x ++ _)) in Heq|done].
Qed.

Lemma doc_file_tmp_ne c coll id : doc_file c coll id ZDB_DOC_FILE_EXT ≠ doc_file c coll id ZDB_DOC_TMP_EXT.
Proof. unfold doc_file. intros H. do 7 apply (inj (app _)) in H. done. Qed.
End paths.
