(* ===== verification/DocSaveSpec.v ===== *)
(** * Saving and deleting a document

    A save that succeeds leaves [doc_bytes] in the document's file, no staging
    file, and every other file as it was; one that fails leaves every file but
    the staging file as it was, provided the volume's rename replaces its
    destination. *)

From S2P Require Import Prelude Config Env Types FsEnv FsSpec Events Doubles Doc DocFile DocSpec.
From S2P Require Import DocFieldSpec DocHandleSpec DocDecode DocStep.

Section save.
Context {Cfg : Config} {CfgOk : ConfigOk Cfg} {K F FS FH DH : Type}.
Context `{!Kernel K, !KernelLaws K, !FileSys FS FH DH, !FileSysLaws FS FH DH}.
Context {CRC : Crc32} {CRCLaws : Crc32Laws}.
Abbreviation W := (world K F FS).
Implicit Types (w : W) (d : zdb_doc_t).

(** ** Emitting fields *)

(** [I ctx acc w]: the context has taken the bytes [acc]. A sink that takes
    any buffer in this sense takes the fields of a document. *)
Section emit.
Context {A : Type} (sink : A → list byte → M W (zdb_status_t * A)).
Context (I : A → list byte → W → Prop) (E : zdb_status_t → A → W → Prop).
Context (Hsink : ∀ ctx acc buf (Q : zdb_status_t * A → W → Prop) w,
  I ctx acc w → (∀ ctx' w', I ctx' (acc ++ buf) w' → Q (ZDB_OK, ctx') w') →
  (∀ st ctx' w', st ≠ ZDB_OK → E st ctx' w' → Q (st, ctx') w') → wp (sink ctx buf) Q w).

Lemma wp_sink_both ctx acc a b (Q : zdb_status_t * A → W → Prop) w :
  I ctx acc w → (∀ ctx' w', I ctx' (acc ++ a ++ b) w' → Q (ZDB_OK, ctx') w') →
  (∀ st ctx' w', st ≠ ZDB_OK → E st ctx' w' → Q (st, ctx') w') → wp (sink_both sink ctx a b) Q w.
Proof.
  intros HI Hok Hbad. unfold sink_both. apply wp_bind. eapply Hsink; [exact HI|..].
  - intros c1 w1 H1. rewrite bool_decide_true by done. cbn [negb].
    eapply Hsink; [exact H1| |done]. intros c2 w2 H2. apply Hok. by rewrite app_assoc.
  - intros st c1 w1 Hst H1. rewrite bool_decide_false by done. cbn [negb]. by apply wp_ret, Hbad.
Qed.

Lemma wp_emit_value ctx acc f (Q : zdb_status_t * A → W → Prop) w :
  field_ok f → I ctx acc w →
  (∀ ctx' w', I ctx' (acc ++ value_bytes_of (fd_type f) (fd_value f)) w' → Q (ZDB_OK, ctx') w') →
  (∀ st ctx' w', st ≠ ZDB_OK → E st ctx' w' → Q (st, ctx') w') → wp (emit_value sink ctx f) Q w.
Proof.
  intros [_ Hv] HI Hok Hbad. pose proof doc_string_range. pose proof doc_bytes_range.
  unfold emit_value, value_bytes_of in *. destruct (fd_type f) eqn:Ht; try (by destruct (fd_value f));
    try (by eapply Hsink).
  - set (s := default [] (value_str (fd_value f))) in *.
    assert (length s ≤ CONFIG_ZDB_DOC_MAX_STRING_LEN) as Hl.
    { unfold s. destruct (fd_value f) as [| | |[]| |]; simpl in *; try done; lia. }
    assert (u32 (length s) = length s) as Hu by (unfold u32; apply Z.mod_small; lia).
    rewrite Hu, Nat2Z.id, take_ge by done. by eapply wp_sink_both.
  - destruct (value_bytes (fd_value f)) as [data n] eqn:Hb. cbn [fst snd] in *.
    assert (n ≤ CONFIG_ZDB_DOC_MAX_BYTES_LEN) as Hl.
    { destruct (fd_value f) as [| | | | |[] ?]; simpl in *; simplify_eq; try done; lia. }
    assert (u32 n = n) as Hu by (unfold u32; apply Z.mod_small; lia).
    rewrite Hu, Nat2Z.id. by eapply wp_sink_both.
Qed.

Lemma wp_emit_fields l ctx acc (Q : zdb_status_t * A → W → Prop) w :
  Forall field_ok l → I ctx acc w →
  (∀ ctx' w', I ctx' (acc ++ fields_bytes l) w' → Q (ZDB_OK, ctx') w') →
  (∀ st ctx' w', st ≠ ZDB_OK → E st ctx' w' → Q (st, ctx') w') → wp (emit_fields sink ctx l) Q w.
Proof.
  intros Hl. revert ctx acc w. induction Hl as [|f l Hf Hl IH]; intros ctx acc w HI Hok Hbad.
  { apply wp_ret, Hok. unfold fields_bytes. simpl. by rewrite app_nil_r. }
  cbn [emit_fields]. cbv zeta. destruct Hf as [(n & Hn & Hcs & Hlen) Hv].
  pose proof doc_name_range.
  assert (u16 (length n) = length n) as Hu by (unfold u16; apply Z.mod_small; lia).
  rewrite Hn. change (default [] (Some n)) with n. rewrite Hu, Nat2Z.id, take_ge by done.
  assert (fields_bytes (f :: l) =
    (field_hdr f (length n) ++ n) ++ value_bytes_of (fd_type f) (fd_value f) ++ fields_bytes l) as Hbytes.
  { unfold fields_bytes. cbn [map concat]. unfold field_bytes. rewrite Hn.
    change (default [] (Some n)) with n. by rewrite <- !app_assoc. }
  apply wp_bind. eapply wp_sink_both; [exact HI|..].
  - intros c1 w1 H1. rewrite bool_decide_true by done. cbn [negb]. apply wp_bind.
    eapply wp_emit_value; [split; [by exists n|done]|exact H1|..].
    + intros c2 w2 H2. rewrite bool_decide_true by done. cbn [negb]. eapply IH; [exact H2| |done].
      intros c3 w3 H3. apply Hok. by rewrite Hbytes, !app_assoc in *.
    + intros st c2 w2 Hst H2. rewrite bool_decide_false by done. cbn [negb]. by apply wp_ret, Hbad.
  - intros st c1 w1 Hst H1. rewrite bool_decide_false by done. cbn [negb]. by apply wp_ret, Hbad.
Qed.
End emit.

(** The first pass computes the digest of the fields. *)
Lemma wp_emit_crc d crc (Q : zdb_status_t * Z → W → Prop) w :
  doc_ok d → Q (ZDB_OK, crc32_ieee_update crc (fields_bytes (doc_fields d))) w →
  wp (zdb_doc_fields_emit d zdb_doc_sink_crc crc) Q w.
Proof.
  intros Hd HQ. unfold zdb_doc_fields_emit.
  apply (wp_emit_fields zdb_doc_sink_crc (λ c acc w', c = crc32_ieee_update crc acc ∧ w' = w) (λ _ _ _, False))
    with (acc := []); [|by apply Hd|by rewrite crc32_nil| |done].
  - intros c acc buf Q' w1 [-> ->] Hok _. apply wp_ret, Hok. split; [by rewrite crc32_app|done].
  - intros c w1 [-> ->]. exact HQ.
Qed.

(** ** Staging *)

(** Writing [tmp], which holds [acc] so far; nothing else changed since [w0]. *)
Record staging (tmp : list byte) w0 (fh : FH) (acc : list byte) w : Prop := {
  sg_pos : at_pos fh tmp FS_CREATE_WRITE_TRUNC (length acc);
  sg_files : files w = <[tmp := acc]> (files w0);
  sg_step : doc_step 0 0 w0 w;
}.

(** Writing failed; only the staging file may have changed. *)
Record spoilt (tmp : list byte) w0 (fh : FH) w : Prop := {
  sp_path : fh_path fh = tmp;
  sp_files : files_but tmp (w_fs w0) (w_fs w);
  sp_step : doc_step 0 0 w0 w;
  sp_room : ¬ FsRoom FS FH DH;
}.

Lemma files_but_insert p data w w' : files w' = <[p := data]> (files w) → files_but p (w_fs w) (w_fs w').
Proof. unfold files. intros H q Hq. rewrite H. by rewrite lookup_insert_ne. Qed.

Lemma files_but_trans p (s1 s2 s3 : FS) : files_but p s1 s2 → files_but p s2 s3 → files_but p s1 s3.
Proof. intros H1 H2 q Hq. rewrite H2, H1; done. Qed.

Lemma files_but_same p (s1 s2 : FS) : fs_files s2 = fs_files s1 → files_but p s1 s2.
Proof. intros H q _. by rewrite H. Qed.

Lemma wp_stage_write tmp w0 fh acc buf (Q : Z * FH → W → Prop) w :
  staging tmp w0 fh acc w →
  (∀ fh' w', staging tmp w0 fh' (acc ++ buf) w' → Q (Z.of_nat (length buf), fh') w') →
  (∀ rc fh' w', rc ≠ Z.of_nat (length buf) → spoilt tmp w0 fh' w' → Q (rc, fh') w') →
  wp (on_fs (fs_write fh buf)) Q w.
Proof.
  intros [Hp Hf Hs] Hok Hbad.
  assert (files w !! tmp = Some acc) as Hd by (rewrite Hf; apply lookup_insert_eq).
  assert (∀ fs', doc_step 0 0 w0 (w <| w_fs := fs' |>)) as Hs'.
  { intros fs'. eapply doc_step_trans; [exact Hs|apply doc_step_fs]. }
  eapply wp_fs_append; [exact Hp|exact Hd|..].
  - intros rc fh' fs' k Hrc Hfs Hpath _ Hno. apply Hbad; [done|]. split; [done| |done|done].
    eapply files_but_insert. unfold files in *. cbn. rewrite Hfs, Hf. apply insert_insert_eq.
  - intros fh' fs' Hfs Hpos. apply Hok. split; [done| |done]. unfold files in *. cbn.
    rewrite Hfs, Hf. apply insert_insert_eq.
Qed.

Lemma wp_sink_file tmp w0 fh acc buf (Q : zdb_status_t * FH → W → Prop) w :
  staging tmp w0 fh acc w →
  (∀ fh' w', staging tmp w0 fh' (acc ++ buf) w' → Q (ZDB_OK, fh') w') →
  (∀ st fh' w', st ≠ ZDB_OK → spoilt tmp w0 fh' w' → Q (st, fh') w') →
  wp (zdb_doc_sink_file fh buf) Q w.
Proof.
  intros Hg Hok Hbad. unfold zdb_doc_sink_file. destruct (Nat.eqb_spec (length buf) 0) as [Hz|Hz].
  { apply wp_ret, Hok. destruct buf; [|done]. by rewrite app_nil_r. }
  apply wp_bind. eapply wp_stage_write; [exact Hg|..].
  - intros fh' w' Hg'. apply wp_ret. rewrite (proj2 (Z.ltb_ge _ 0)) by lia. rewrite Z.eqb_refl. by apply Hok.
  - intros rc fh' w' Hne Hsp. apply wp_ret, Hbad; [|done].
    destruct (Z.ltb_spec rc 0) as [Hlt|Hge].
    + rewrite status_from_errno_ok. lia.
    + by rewrite (proj2 (Z.eqb_neq _ _)).
Qed.

(** Dropping the staging file of a save that failed. *)
Lemma wp_drop_staging {A} tmp w0 (m : M W A) (Q : A → W → Prop) w :
  files_but tmp (w_fs w0) (w_fs w) → doc_step 0 0 w0 w →
  (∀ w', files_but tmp (w_fs w0) (w_fs w') → doc_step 0 0 w0 w' → wp m Q w') →
  wp (on_fs (fs_unlink tmp);; m) Q w.
Proof.
  intros Hf Hs HQ. apply wp_bind, wp_fs_unlink.
  - intros rc fs' _ Hfs _. apply HQ; [|eapply doc_step_trans; [exact Hs|apply doc_step_fs]].
    eapply files_but_trans; [exact Hf|by apply files_but_same].
  - intros fs' Hfs. apply HQ; [|eapply doc_step_trans; [exact Hs|apply doc_step_fs]].
    eapply files_but_trans; [exact Hf|]. intros q Hq. simpl. rewrite Hfs. by rewrite lookup_delete_ne.
Qed.

(** Closing the staging file, whatever happened to it. *)
Lemma wp_close_staging fh tmp w0 (Q : Z → W → Prop) w :
  fh_path fh = tmp → files_but tmp (w_fs w0) (w_fs w) → doc_step 0 0 w0 w →
  (∀ w', files w' = files w → doc_step 0 0 w0 w' → Q 0%Z w') →
  (∀ rc w', (rc < 0)%Z → files_but tmp (w_fs w0) (w_fs w') → doc_step 0 0 w0 w' →
     ¬ FsRoom FS FH DH → Q rc w') →
  wp (on_fs (fs_close fh)) Q w.
Proof.
  intros Hp Hf Hs Hok Hbad. apply wp_on_fs. intros rc fs' Heq.
  pose proof (fs_close_law fh (w_fs w)) as Hl. rewrite Heq in Hl. simpl in Hl.
  assert (doc_step 0 0 w0 (w <| w_fs := fs' |>)) as Hs'.
  { eapply doc_step_trans; [exact Hs|apply doc_step_fs]. }
  destruct Hl as [[-> Hfs]|(Hrc & Hbut & _)].
  - by apply Hok.
  - rewrite Hp in Hbut. apply Hbad; [done| |done|].
    + eapply files_but_trans; [exact Hf|exact Hbut].
    + intros Hr. pose proof (fs_close_ok fh (w_fs w)) as H. rewrite Heq in H. simpl in H. lia.
Qed.

Lemma wp_open_staging tmp (Q : Z * FH → W → Prop) w :
  (∀ fh w', staging tmp w fh [] w' → Q (0%Z, fh) w') →
  (∀ rc fh w', (rc < 0)%Z → files w' = files w → doc_step 0 0 w w' → ¬ FsRoom FS FH DH → Q (rc, fh) w') →
  wp (on_fs (fs_open fs_file_t_init tmp FS_CREATE_WRITE_TRUNC)) Q w.
Proof.
  intros Hok Hbad. apply wp_on_fs. intros [rc fh] fs' Heq.
  pose proof (fs_open_law fs_file_t_init tmp FS_CREATE_WRITE_TRUNC (w_fs w)) as Hl.
  rewrite Heq in Hl. cbn [fst snd] in Hl.
  destruct Hl as [(Hrc & Hfs & _)|(-> & Hp & Hpos & Hfl & Hcase)].
  - apply Hbad; [done|done|apply doc_step_fs|]. intros Hr.
    pose proof (room_create fs_file_t_init tmp FS_CREATE_WRITE_TRUNC (w_fs w) eq_refl) as H.
    rewrite Heq in H. simpl in H. lia.
  - apply Hok. split; [by split| |apply doc_step_fs].
    destruct Hcase as [(d & _ & Hfs)|(_ & _ & Hfs)]; exact Hfs.
Qed.

Lemma wp_stage_file d hdr tmp (Q : zdb_status_t * nat → W → Prop) w :
  doc_ok d → length hdr = sizeof_doc_hdr →
  (∀ size w', files w' = <[tmp := hdr ++ fields_bytes (doc_fields d)]> (files w) → doc_step 0 0 w w' →
     (size = 0 ∨ size = length (hdr ++ fields_bytes (doc_fields d))) →
     (FsRoom FS FH DH → size ≠ 0) → Q (ZDB_OK, size) w') →
  (∀ st w', st ≠ ZDB_OK → files_but tmp (w_fs w) (w_fs w') → doc_step 0 0 w w' →
     ¬ FsRoom FS FH DH → Q (st, 0) w') →
  wp (stage_file d hdr tmp) Q w.
Proof.
  intros Hd Hhdr Hok Hbad. unfold stage_file. apply wp_bind, wp_open_staging; cycle 1.
  { intros rc fh w1 Hrc Hf Hs Hno. rewrite (proj2 (Z.ltb_lt _ _)) by done.
    apply wp_ret, Hbad; [|by apply files_but_same|done|done]. rewrite status_from_errno_ok. lia. }
  intros fh w1 Hg. change (0 <? 0)%Z with false. cbn iota.
  assert (∀ st fh' w', st ≠ ZDB_OK → spoilt tmp w fh' w' →
    wp (if negb (bool_decide (st = ZDB_OK))
        then on_fs (fs_close fh');; on_fs (fs_unlink tmp);; ret (st, 0)
        else end_pos ← on_fs (fs_tell fh'); rc ← on_fs (fs_close fh');
             if (rc <? 0)%Z then on_fs (fs_unlink tmp);; ret (zdb_status_from_errno rc, 0)
             else ret (ZDB_OK, Z.to_nat end_pos)) Q w') as Hend.
  { intros st fh' w' Hst [Hp Hf Hs Hno]. rewrite bool_decide_false by done. cbn [negb].
    apply wp_bind. eapply wp_close_staging; [exact Hp|exact Hf|exact Hs|..].
    - intros w2 Hf2 Hs2. eapply wp_drop_staging; [|exact Hs2|].
      + eapply files_but_trans; [exact Hf|by apply files_but_same].
      + intros w3 Hf3 Hs3. by apply wp_ret, Hbad.
    - intros rc w2 _ Hf2 Hs2 _. eapply wp_drop_staging; [exact Hf2|exact Hs2|].
      intros w3 Hf3 Hs3. by apply wp_ret, Hbad. }
  apply wp_bind. eapply wp_stage_write; [exact Hg|..]; cycle 1.
  { intros rc fh' w2 Hrc Hsp. rewrite Hhdr in Hrc. apply wp_bind.
    rewrite (proj2 (Z.eqb_neq rc sizeof_doc_hdr)) by done. cbn [negb].
    apply wp_ret, Hend; [|done]. destruct (Z.ltb_spec rc 0); [|done]. rewrite status_from_errno_ok. lia. }
  intros fh' w2 Hg2. cbn [app] in Hg2. rewrite Hhdr, Z.eqb_refl. cbn [negb]. apply wp_bind.
  apply (wp_emit_fields zdb_doc_sink_file (staging tmp w) (λ _, spoilt tmp w)) with (acc := hdr);
    [|by apply Hd|done| |exact Hend].
  { intros ctx acc buf Q' w'. apply wp_sink_file. }
  intros fh3 w3 Hg3. rewrite bool_decide_true by done. cbn [negb].
  set (data := hdr ++ fields_bytes (doc_fields d)) in *. destruct Hg3 as [Hp3 Hf3 Hs3].
  assert (∀ end_pos w4, end_pos = (Z.of_nat (length data)) ∨ ((end_pos < 0)%Z ∧ ¬ FsRoom FS FH DH) →
    files w4 = files w3 → doc_step 0 0 w w4 →
    wp (rc ← on_fs (fs_close fh3);
        if (rc <? 0)%Z then on_fs (fs_unlink tmp);; ret (zdb_status_from_errno rc, 0)
        else ret (ZDB_OK, Z.to_nat end_pos)) Q w4) as Hclose.
  { intros end_pos w4 Hpos Hf4 Hs4. apply wp_bind. eapply wp_close_staging; [apply Hp3| |exact Hs4|..].
    - eapply files_but_insert. rewrite Hf4. exact Hf3.
    - intros w5 Hf5 Hs5. apply wp_ret, Hok; [by rewrite Hf5, Hf4|done|..].
      + destruct Hpos as [->|[? _]]; [right|left]; lia.
      + intros Hr. destruct Hpos as [->|[_ ?]]; [|done]. unfold data. rewrite length_app, Hhdr.
        unfold sizeof_doc_hdr. lia.
    - intros rc w5 Hrc Hf5 Hs5 Hno. rewrite (proj2 (Z.ltb_lt _ _)) by done.
      eapply wp_drop_staging; [exact Hf5|exact Hs5|]. intros w6 Hf6 Hs6.
      apply wp_ret, Hbad; [|done..]. rewrite status_from_errno_ok. lia. }
  apply wp_bind, wp_on_fs. intros end_pos fs4 Heq.
  pose proof (fs_tell_law fh3 (w_fs w3)) as Hl. rewrite Heq in Hl. cbn [fst snd] in Hl.
  destruct Hl as [Hfs4 Htell]. apply Hclose; [|done|eapply doc_step_trans; [exact Hs3|apply doc_step_fs]].
  destruct Htell as [Hneg| ->]; [right|left; by rewrite (ap_pos _ _ _ _ Hp3)]. split; [done|].
  intros Hr. pose proof (live_tell fh3 (w_fs w3)) as H. rewrite Heq in H. simpl in H. lia.
Qed.

(** ** Promoting *)

(** What a failed save may leave: nothing but the staging file changed, or,
    where rename refuses to replace, the document's file. *)
Definition kept (path tmp : list byte) w w' : Prop :=
  (∀ q, q ≠ tmp → q ≠ path → files w' !! q = files w !! q) ∧
  (FsReplace FS FH DH → files_but tmp (w_fs w) (w_fs w')).

Lemma kept_but path tmp w w' : files_but tmp (w_fs w) (w_fs w') → kept path tmp w w'.
Proof. intros H. split; [|done]. intros q Hq _. by apply H. Qed.

Lemma kept_trans path tmp w1 w2 w3 :
  files_but tmp (w_fs w1) (w_fs w2) → kept path tmp w2 w3 → kept path tmp w1 w3.
Proof.
  intros H1 [H2 H3]. split.
  - intros q Hq Hp. rewrite H2 by done. by apply H1.
  - intros Hr. eapply files_but_trans; [exact H1|by apply H3].
Qed.

Lemma wp_rename_staging tmp path data (Q : Z → W → Prop) w :
  files w !! tmp = Some data →
  (∀ w', files w' = <[path := data]> (delete tmp (files w)) → doc_step 0 0 w w' → Q 0%Z w') →
  (∀ rc w', (rc < 0)%Z → files w' = files w → doc_step 0 0 w w' → ¬ FsRoom FS FH DH →
     (FsReplace FS FH DH → rc ≠ (- EEXIST)%Z) → Q rc w') →
  wp (on_fs (fs_rename tmp path)) Q w.
Proof.
  intros Hd Hok Hbad. apply wp_on_fs. intros rc fs' Heq.
  pose proof (fs_rename_law tmp path (w_fs w)) as Hl. rewrite Heq in Hl. simpl in Hl.
  destruct Hl as [[Hrc Hfs]|(-> & d & Hd' & Hfs)].
  - apply Hbad; [done|done|apply doc_step_fs|..].
    + intros Hr. pose proof (room_rename tmp path (w_fs w)) as H. rewrite Heq in H. simpl in H.
      rewrite H in Hrc; [lia|]. by exists data.
    + intros Hr. pose proof (Hr tmp path (w_fs w)) as H. by rewrite Heq in H.
  - unfold files in Hd. rewrite Hd in Hd'. injection Hd' as <-. apply Hok; [done|apply doc_step_fs].
Qed.

Lemma insert_delete_twice {A} (m m' : gmap (list byte) A) path tmp (x : A) :
  m' = m ∨ m' = delete path m → <[path := x]> (delete tmp m') = <[path := x]> (delete tmp m).
Proof.
  intros [-> | ->]; [done|]. rewrite (delete_delete m tmp path). by rewrite insert_delete_eq.
Qed.

Lemma wp_promote tmp path data (Q : Z → W → Prop) w :
  tmp ≠ path → files w !! tmp = Some data →
  (∀ w', files w' = <[path := data]> (delete tmp (files w)) → doc_step 0 0 w w' → Q 0%Z w') →
  (∀ rc w', (rc < 0)%Z → kept path tmp w w' → doc_step 0 0 w w' → ¬ FsRoom FS FH DH → Q rc w') →
  wp (promote tmp path) Q w.
Proof.
  intros Hne Hd Hok Hbad. unfold promote.
  assert (∀ rc w', (rc < 0)%Z → (∀ q, q ≠ tmp → q ≠ path → files w' !! q = files w !! q) →
    (FsReplace FS FH DH → files w' = files w) → doc_step 0 0 w w' → ¬ FsRoom FS FH DH →
    wp ((if (rc <? 0)%Z then on_fs (fs_unlink tmp);; ret tt else ret tt);; ret rc) Q w') as Hdrop.
  { intros rc w' Hrc Hf Hrep Hs Hno. rewrite (proj2 (Z.ltb_lt _ _)) by done.
    apply wp_bind, wp_bind, wp_fs_unlink.
    - intros rc2 fs' _ Hfs _. apply wp_ret, wp_ret, Hbad; [done| |eapply doc_step_trans; [exact Hs|apply doc_step_fs]|done].
      split; [|intros Hr q Hq]; unfold files in *; cbn; rewrite Hfs; [done|by rewrite Hrep].
    - intros fs' Hfs. apply wp_ret, wp_ret, Hbad; [done| |eapply doc_step_trans; [exact Hs|apply doc_step_fs]|done].
      split; [intros q Hq Hp|intros Hr q Hq]; unfold files in *; cbn; rewrite Hfs, lookup_delete_ne by done;
        [by apply Hf|by rewrite Hrep]. }
  apply wp_bind. eapply wp_rename_staging; [exact Hd|..].
  - intros w1 Hf1 Hs1. change (0 =? - EEXIST)%Z with false. cbn iota. apply wp_bind, wp_ret.
    change (0 <? 0)%Z with false. cbn iota. by apply wp_bind, wp_ret, wp_ret, Hok.
  - intros rc w1 Hrc Hf1 Hs1 Hno Hrep. destruct (Z.eqb_spec rc (- EEXIST)) as [->|Hx]; cycle 1.
    { apply wp_bind, wp_ret, Hdrop; [done|by intros; rewrite Hf1|done|done|done]. }
    assert (¬ FsReplace FS FH DH) as Hnorep by (intros Hr; by apply Hrep).
    assert (∀ w2, files w2 = files w1 ∨ files w2 = delete path (files w1) → doc_step 0 0 w w2 →
      wp (on_fs (fs_rename tmp path)) (λ rc, wp
        ((if (rc <? 0)%Z then on_fs (fs_unlink tmp);; ret tt else ret tt);; ret rc) Q) w2) as Hagain.
    { intros w2 Hf2 Hs2. eapply wp_rename_staging.
      - rewrite Hf1 in Hf2. destruct Hf2 as [-> | ->]; [done|]. rewrite lookup_delete_ne by done. done.
      - intros w3 Hf3 Hs3. change (0 <? 0)%Z with false. cbn iota. apply wp_bind, wp_ret, wp_ret, Hok.
        + rewrite Hf3, <- Hf1. by apply insert_delete_twice.
        + by eapply doc_step_trans.
      - intros rc w3 Hrc3 Hf3 Hs3 _ _. apply Hdrop; [done| |done|by eapply doc_step_trans|done].
        intros q Hq Hp. rewrite Hf3. destruct Hf2 as [-> | ->]; [by rewrite Hf1|].
        rewrite lookup_delete_ne by done. by rewrite Hf1. }
    apply wp_bind, wp_bind, wp_fs_unlink.
    + intros rc2 fs2 _ Hfs _. apply Hagain; [by left|eapply doc_step_trans; [exact Hs1|apply doc_step_fs]].
    + intros fs2 Hfs. apply Hagain; [by right|eapply doc_step_trans; [exact Hs1|apply doc_step_fs]].
Qed.

(** ** Under the lock *)

(** The volume is configured and the paths of the document fit the buffers. *)
Definition storable (c : zdb_cfg_t) (coll id : cstring) : Prop :=
  is_Some (lfs_mount_point c) ∧ coll ≠ [] ∧ length (doc_file c coll id ZDB_DOC_TMP_EXT) < ZDB_DOC_PATH_MAX.

Lemma storable_live c coll id :
  storable c coll id → length (doc_file c coll id ZDB_DOC_FILE_EXT) < ZDB_DOC_PATH_MAX.
Proof.
  intros (_ & _ & H). unfold doc_file in *. rewrite !length_app in *. cbn in *. lia.
Qed.

Lemma wp_mkdir_step p (Q : Z → W → Prop) w :
  (∀ rc w', files w' = files w → doc_step 0 0 w w' →
     (FsRoom FS FH DH → (rc <? 0)%Z && negb (rc =? - EEXIST)%Z = false) → Q rc w') →
  wp (on_fs (fs_mkdir p)) Q w.
Proof.
  intros HQ. apply wp_on_fs. intros rc fs' Heq.
  pose proof (fs_mkdir_law p (w_fs w)) as [Hl _]. rewrite Heq in Hl.
  apply HQ; [done|apply doc_step_fs|]. intros Hr.
  pose proof (room_mkdir p (w_fs w)) as [H|H]; rewrite Heq in H; simpl in H.
  - by rewrite (proj2 (Z.ltb_ge _ _)).
  - by rewrite H.
Qed.

Lemma wp_ensure_dirs c coll id (Q : Z → W → Prop) w :
  (∀ rc w', files w' = files w → doc_step 0 0 w w' →
     (FsRoom FS FH DH → storable c coll id → (0 ≤ rc)%Z) → Q rc w') →
  wp (zdb_doc_ensure_dirs (Some c) (Some coll)) Q w.
Proof.
  intros HQ. unfold zdb_doc_ensure_dirs, zdb_doc_build_root_path, zdb_doc_build_collection_path, fit_path.
  assert (storable c coll id → lfs_mount_point c ≠ None ∧
    length (mount_of c ++ s2b "/" ++ ZDB_DOC_DIRNAME) < ZDB_DOC_PATH_MAX ∧
    length (default [] (Some (mount_of c)) ++ s2b "/" ++ ZDB_DOC_DIRNAME ++ s2b "/" ++ coll) < ZDB_DOC_PATH_MAX)
    as Hfit.
  { intros ([m Hm] & _ & H). rewrite Hm. split; [done|]. unfold doc_file in H. simpl default.
    rewrite !length_app in *. cbn in *. lia. }
  destruct (bool_decide_reflect (lfs_mount_point c = None)) as [Hn|Hn]; cbn [orb].
  { apply wp_ret, HQ; [done|apply doc_step_refl|]. intros _ [? _]%Hfit. done. }
  replace (ZDB_DOC_PATH_MAX =? 0) with false by done.
  destruct (Nat.leb_spec ZDB_DOC_PATH_MAX (length (mount_of c ++ s2b "/" ++ ZDB_DOC_DIRNAME))).
  { apply wp_ret, HQ; [done|apply doc_step_refl|]. intros _ (_ & ? & _)%Hfit. lia. }
  apply wp_bind, wp_mkdir_step. intros rc w1 Hf1 Hs1 Hr1. destruct (_ && _) eqn:Hrc1.
  { apply wp_ret, HQ; [done|done|]. intros Hr _. by specialize (Hr1 Hr). }
  destruct coll as [|b coll].
  { apply wp_ret, HQ; [done|done|]. intros _ (_ & ? & _). done. }
  destruct (Nat.leb_spec ZDB_DOC_PATH_MAX (length (default [] (mount_of <$> Some c) ++ s2b "/" ++
    ZDB_DOC_DIRNAME ++ s2b "/" ++ b :: coll))).
  { apply wp_ret, HQ; [done|done|]. intros _ (_ & _ & ?)%Hfit. simpl in *. lia. }
  apply wp_bind, wp_mkdir_step. intros rc2 w2 Hf2 Hs2 Hr2.
  apply wp_ret, HQ; [congruence|by eapply doc_step_trans|]. intros Hr _. by rewrite Hr2.
Qed.

Lemma wp_save_locked c d coll id (Q : zdb_status_t * nat → W → Prop) w :
  doc_ok d → cfg (w_db w) = Some c → collection_name d = Some coll → document_id d = Some id →
  let path := doc_file c coll id ZDB_DOC_FILE_EXT in
  let tmp := doc_file c coll id ZDB_DOC_TMP_EXT in
  (∀ size w', files w' = <[path := doc_bytes d]> (delete tmp (files w)) → doc_step 0 0 w w' →
     (size = 0 ∨ size = length (doc_bytes d)) → (FsRoom FS FH DH → size ≠ 0) → Q (ZDB_OK, size) w') →
  (∀ st w', st ≠ ZDB_OK → kept path tmp w w' → doc_step 0 0 w w' →
     (FsRoom FS FH DH → storable c coll id → False) → Q (st, 0) w') →
  wp (save_locked d) Q w.
Proof.
  intros Hd Hcfg Hcoll Hid path tmp Hok Hbad. unfold save_locked. apply wp_bind, wp_db_get.
  rewrite Hcfg, Hcoll, Hid. apply wp_bind, (wp_ensure_dirs _ _ id). intros rc w1 Hf1 Hs1 Hr1.
  assert (∀ w', files w' = files w1 → kept path tmp w w') as Hsame.
  { intros w' Hf. apply kept_but, files_but_same. unfold files in *. congruence. }
  assert (∀ rc', (rc' = - EINVAL ∨ rc' = - ENAMETOOLONG)%Z → zdb_status_from_errno rc' ≠ ZDB_OK) as Hpathrc.
  { by intros rc' [-> | ->]. }
  destruct (Z.ltb_spec rc 0).
  { apply wp_ret, Hbad; [rewrite status_from_errno_ok; lia|by apply Hsame|done|].
    intros Hr Hst. specialize (Hr1 Hr Hst). lia. }
  destruct (zdb_doc_build_doc_path _ _ _ ZDB_DOC_FILE_EXT _) as [rc'|p] eqn:Hp.
  { apply wp_ret, Hbad; [by apply Hpathrc, (build_doc_path_inl _ _ _ _ _ Hp)|by apply Hsame|done|].
    intros _ Hst. apply storable_live in Hst. by rewrite build_doc_path_fits in Hp. }
  destruct (zdb_doc_build_doc_path _ _ _ ZDB_DOC_TMP_EXT _) as [rc'|t] eqn:Ht.
  { apply wp_ret, Hbad; [by apply Hpathrc, (build_doc_path_inl _ _ _ _ _ Ht)|by apply Hsame|done|].
    intros _ (_ & _ & Hst). by rewrite build_doc_path_fits in Ht. }
  apply build_doc_path_inr in Hp as (? & [= <-] & -> & _).
  apply build_doc_path_inr in Ht as (? & [= <-] & -> & _). fold path tmp.
  apply wp_bind, wp_emit_crc; [done|]. rewrite bool_decide_true by done. cbn [negb].
  set (hdr := doc_hdr_prefix d ++ _).
  assert (hdr ++ fields_bytes (doc_fields d) = doc_bytes d) as Hbytes.
  { unfold hdr, doc_bytes. rewrite <- app_assoc. unfold crc32_ieee at 1. by rewrite crc32_app. }
  apply wp_bind, wp_stage_file; [done| |rewrite Hbytes|].
  { unfold hdr. rewrite length_app, length_doc_hdr_prefix, length_put_le. done. }
  - intros size w2 Hf2 Hs2 Hsize Hlive. rewrite bool_decide_true by done. cbn [negb].
    rewrite Hf1 in Hf2. apply wp_bind. eapply (wp_promote tmp path (doc_bytes d)).
    + apply not_eq_sym, doc_file_tmp_ne.
    + rewrite Hf2. apply lookup_insert_eq.
    + intros w3 Hf3 Hs3. change (0 <? 0)%Z with false. cbn iota. apply wp_ret, Hok; [|exact (doc_step_trans _ _ _ _ _ _ (doc_step_trans _ _ _ _ _ _ Hs1 Hs2) Hs3)|done|done].
      by rewrite Hf3, Hf2, delete_insert_eq.
    + intros rc3 w3 Hrc3 Hk3 Hs3 Hno. rewrite (proj2 (Z.ltb_lt _ _)) by done.
      apply wp_ret, Hbad; [rewrite status_from_errno_ok; lia| |exact (doc_step_trans _ _ _ _ _ _ (doc_step_trans _ _ _ _ _ _ Hs1 Hs2) Hs3)|done].
      eapply kept_trans; [|exact Hk3]. by eapply files_but_insert.
  - intros st w2 Hst Hf2 Hs2 Hno. rewrite bool_decide_false by done. cbn [negb].
    apply wp_ret, Hbad; [done| |by eapply doc_step_trans|done].
    apply kept_but. eapply files_but_trans; [|exact Hf2]. by apply files_but_same.
Qed.

(** ** Saving *)

Record save_result (c : zdb_cfg_t) coll id d w (st : zdb_status_t) d' w' : Prop := {
  sv_doc : ∃ now, u64_ok now ∧ d' = d <| updated_ms := now |>;
  sv_step : doc_step 0 0 w w';
  sv_done : st = ZDB_OK → files w' = <[doc_file c coll id ZDB_DOC_FILE_EXT := doc_bytes d']>
    (delete (doc_file c coll id ZDB_DOC_TMP_EXT) (files w));
  sv_fail : st ≠ ZDB_OK →
    kept (doc_file c coll id ZDB_DOC_FILE_EXT) (doc_file c coll id ZDB_DOC_TMP_EXT) w w';
  sv_live : LockLive K → FsRoom FS FH DH → storable c coll id → st = ZDB_OK;
}.

Lemma doc_ok_saved d now : doc_ok d → u64_ok now → doc_ok (d <| updated_ms := now |>).
Proof. intros [] ?. by split. Qed.

Lemma wp_doc_save c coll id d (Q : zdb_status_t * option zdb_doc_t → W → Prop) w :
  doc_ok d → cfg (w_db w) = Some c → collection_name d = Some coll → document_id d = Some id →
  (∀ st d' w', save_result c coll id d w st d' w' → Q (st, Some d') w') →
  wp (zdb_doc_save (Some d)) Q w.
Proof.
  intros Hd Hcfg Hcoll Hid HQ. unfold zdb_doc_save. rewrite (dk_valid _ Hd). cbn [negb].
  apply wp_bind, wp_uptime. intros now w1 Hnow H1 G1. apply wp_bind, wp_db_get.
  rewrite (he_db _ _ _ _ H1), Hcfg. set (d' := d <| updated_ms := u64 now |>).
  assert (doc_ok d') as Hd' by (apply doc_ok_saved; [done|apply u64_u64]).
  change (doc_db d') with (doc_db d). rewrite (dk_db _ Hd).
  apply doc_step_held in H1. apply wp_bind.
  assert (∀ st size w2, doc_step 0 0 w w2 → (st = ZDB_OK → files w2 = <[doc_file c coll id ZDB_DOC_FILE_EXT := doc_bytes d']>
      (delete (doc_file c coll id ZDB_DOC_TMP_EXT) (files w))) →
    (st ≠ ZDB_OK → kept (doc_file c coll id ZDB_DOC_FILE_EXT) (doc_file c coll id ZDB_DOC_TMP_EXT) w w2) →
    (LockLive K → FsRoom FS FH DH → storable c coll id → st = ZDB_OK) →
    wp (doc_event (Some the_db) ZDB_DOC_EVENT_SAVE (collection_name d') (document_id d') (field_count d')
          (if bool_decide (st = ZDB_OK) then size else 0) st;; ret (st, Some d')) Q w2) as Hend.
  { intros st size w2 Hs Hdone Hfail Hlive. apply wp_bind, wp_doc_event; [done|]. intros w3 H3 G3.
    apply wp_ret, HQ. split.
    - exists (u64 now). split; [apply u64_u64|done].
    - eapply doc_step_trans; [exact Hs|by apply doc_step_held].
    - intros Hst. rewrite <- Hdone by done. unfold files. by rewrite G3.
    - intros Hst. specialize (Hfail Hst). unfold kept, files_but, files in *. by rewrite G3.
    - done. }
  apply wp_doc_lock; cycle 1.
  { intros w2 H2 G2 Hno. rewrite bool_decide_false by done. cbn [negb]. apply wp_bind, wp_ret.
    apply Hend; [|done| |by intros].
    - eapply doc_step_trans; [exact H1|by apply doc_step_held].
    - intros _. apply kept_but, files_but_same. congruence. }
  intros w2 Hlk. rewrite bool_decide_true by done. cbn [negb]. apply wp_bind, wp_bind.
  assert (files w2 = files w) as Hf by (unfold files; rewrite (lk_fs _ _ Hlk), G1; done).
  eapply (wp_save_locked c d' coll id); [done| |done|done|..].
  - rewrite (lk_db _ _ Hlk), (published_cfg _ _ (ds_db _ _ _ _ H1)). done.
  - intros size w3 Hf3 Hs3 _ _. apply wp_bind. eapply wp_doc_unlock; [exact Hlk|exact Hs3|].
    intros w4 Hs4 G4. apply wp_ret. apply Hend; [by eapply doc_step_trans|..]; try done.
    intros _. rewrite <- Hf, <- Hf3. unfold files. by rewrite G4.
  - intros st w3 Hst Hk3 Hs3 Hl3. apply wp_bind. eapply wp_doc_unlock; [exact Hlk|exact Hs3|].
    intros w4 Hs4 G4. apply wp_ret. apply Hend; [by eapply doc_step_trans|done|..].
    + intros _. unfold kept, files_but in *. unfold files in *. rewrite G4, <- Hf. done.
    + intros _ Hr Hst'. by destruct (Hl3 Hr Hst').
Qed.

(** ** Deleting *)

Record delete_result (c : zdb_cfg_t) coll id w (st : zdb_status_t) w' : Prop := {
  dl_step : doc_step 0 0 w w';
  dl_others : ∀ q, q ≠ doc_file c coll id ZDB_DOC_FILE_EXT → q ≠ doc_file c coll id ZDB_DOC_TMP_EXT →
    files w' !! q = files w !! q;
  dl_done : st = ZDB_OK → files w' !! doc_file c coll id ZDB_DOC_FILE_EXT = None;
  dl_fail : st ≠ ZDB_OK → files w' !! doc_file c coll id ZDB_DOC_FILE_EXT =
    files w !! doc_file c coll id ZDB_DOC_FILE_EXT;
  dl_found : st = ZDB_ERR_NOT_FOUND → files w !! doc_file c coll id ZDB_DOC_FILE_EXT = None;
  dl_live : LockLive K → FsRoom FS FH DH → doc_names_valid coll id = true → storable c coll id →
    files w' !! doc_file c coll id ZDB_DOC_TMP_EXT = None ∧
    (is_Some (files w !! doc_file c coll id ZDB_DOC_FILE_EXT) → st = ZDB_OK);
}.

Lemma wp_unlink_step p (Q : Z → W → Prop) w :
  (∀ rc w', doc_step 0 0 w w' → (rc = 0%Z ∨ (rc < 0)%Z) →
     files w' = (if (rc =? 0)%Z then delete p (files w) else files w) →
     (rc = (- ENOENT)%Z → files w !! p = None) →
     (FsRoom FS FH DH → is_Some (files w !! p) → rc = 0%Z) → Q rc w') →
  wp (on_fs (fs_unlink p)) Q w.
Proof.
  intros HQ. apply wp_on_fs. intros rc fs' Heq.
  assert (FsRoom FS FH DH → is_Some (files w !! p) → rc = 0%Z) as Hroom.
  { intros Hr Hs. pose proof (room_unlink p (w_fs w) Hs) as H. by rewrite Heq in H. }
  pose proof (fs_unlink_law p (w_fs w)) as Hl. rewrite Heq in Hl. simpl in Hl.
  destruct Hl as [(Hrc & Hfs & Hno)|[-> Hfs]].
  - apply HQ; [apply doc_step_fs|by right| |done|done]. by rewrite (proj2 (Z.eqb_neq _ _)) by lia.
  - apply HQ; [apply doc_step_fs|by left|done|done|done].
Qed.

(** Nothing was deleted. *)
Lemma delete_result_none c coll id w st w' :
  st ≠ ZDB_OK → st ≠ ZDB_ERR_NOT_FOUND → doc_step 0 0 w w' → files w' = files w →
  (LockLive K → FsRoom FS FH DH → doc_names_valid coll id = true → storable c coll id → False) →
  delete_result c coll id w st w'.
Proof.
  intros Hst Hnf Hs Hf Hlive. split; try done; intros; try (by rewrite Hf). by exfalso; eauto.
Qed.

Lemma wp_delete_locked c coll id (Q : zdb_status_t → W → Prop) w :
  cfg (w_db w) = Some c → (∀ st w', delete_result c coll id w st w' → Q st w') →
  wp (delete_locked coll id) Q w.
Proof.
  intros Hcfg HQ. unfold delete_locked. apply wp_bind, wp_db_get. rewrite Hcfg.
  destruct (zdb_doc_build_doc_path _ _ _ ZDB_DOC_FILE_EXT _) as [rc|p] eqn:Hp.
  { apply wp_ret, HQ. apply build_doc_path_inl in Hp as Hrc.
    apply delete_result_none; [by destruct Hrc as [-> | ->]..|apply doc_step_refl|done|].
    intros _ _ _ Hst%storable_live. by rewrite build_doc_path_fits in Hp. }
  apply build_doc_path_inr in Hp as (? & [= <-] & -> & _).
  set (path := doc_file c coll id ZDB_DOC_FILE_EXT). set (tmp := doc_file c coll id ZDB_DOC_TMP_EXT).
  assert (path ≠ tmp) as Hne by apply doc_file_tmp_ne.
  apply wp_bind, wp_unlink_step. intros rc w1 Hs1 Hrc Hf1 Hno Hlive.
  assert (∀ w', doc_step 0 0 w1 w' → (∀ q, q ≠ tmp → files w' !! q = files w1 !! q) →
    (FsRoom FS FH DH → storable c coll id → files w' !! tmp = None) →
    Q (if (rc <? 0)%Z then zdb_status_from_errno rc else ZDB_OK) w') as Hend.
  { intros w' Hs2 Hf2 Htmp. apply HQ. split.
    - by eapply doc_step_trans.
    - intros q Hq Hq'. rewrite Hf2, Hf1 by done. destruct (rc =? 0)%Z; [|done]. by rewrite lookup_delete_ne.
    - intros Hst. fold path. rewrite Hf2, Hf1 by done. destruct Hrc as [->|Hrc]; [apply lookup_delete_eq|].
      rewrite (proj2 (Z.ltb_lt _ _)) in Hst by done. apply status_from_errno_ok in Hst. lia.
    - intros Hst. fold path. rewrite Hf2, Hf1 by done. destruct Hrc as [->|Hrc]; [done|].
      by rewrite (proj2 (Z.eqb_neq _ _)) by lia.
    - intros Hst. apply Hno. destruct Hrc as [->|Hrc]; [done|].
      rewrite (proj2 (Z.ltb_lt _ _)) in Hst by done. apply status_from_errno_not_found in Hst.
      unfold ENOENT in *. lia.
    - intros _ Hr _ Hst. split; [by apply Htmp|]. intros Hs. by rewrite (Hlive Hr Hs). }
  apply wp_bind. destruct (zdb_doc_build_doc_path _ _ _ ZDB_DOC_TMP_EXT _) as [rc2|t] eqn:Ht.
  { apply wp_ret, wp_ret, Hend; [apply doc_step_refl|done|].
    intros _ (_ & _ & Hst). by rewrite build_doc_path_fits in Ht. }
  apply build_doc_path_inr in Ht as (? & [= <-] & -> & _). fold tmp.
  apply wp_bind, wp_unlink_step. intros rc2 w2 Hs2 Hrc2 Hf2 _ Hlive2. apply wp_ret, wp_ret, Hend; [done|..].
  - intros q Hq. rewrite Hf2. destruct (rc2 =? 0)%Z; [|done]. by rewrite lookup_delete_ne.
  - intros Hr _. rewrite Hf2. destruct (files w1 !! tmp) eqn:Hf.
    + rewrite (Hlive2 Hr) by (by eexists). apply lookup_delete_eq.
    + destruct (rc2 =? 0)%Z; [apply lookup_delete_eq|done].
Qed.

Lemma wp_doc_delete c coll id (Q : zdb_status_t → W → Prop) w :
  cfg (w_db w) = Some c → (∀ st w', delete_result c coll id w st w' → Q st w') →
  wp (zdb_doc_delete (Some the_db) (Some coll) (Some id)) Q w.
Proof.
  intros Hcfg HQ. unfold zdb_doc_delete. apply wp_bind, wp_db_get. rewrite Hcfg. cbn [mbind option_bind].
  destruct (lfs_mount_point c) as [m|] eqn:Hm; cycle 1.
  { apply wp_ret, HQ, delete_result_none; [done|done|apply doc_step_refl|done|].
    intros _ _ _ ([? ?] & _). congruence. }
  destruct (doc_names_valid coll id) eqn:Hv; cbn [negb]; cycle 1.
  { apply wp_ret, HQ, delete_result_none; [done|done|apply doc_step_refl|done|]. congruence. }
  assert (∀ st w2, delete_result c coll id w st w2 →
    wp (doc_event (Some the_db) ZDB_DOC_EVENT_DELETE (Some coll) (Some id) 0 0 st;; ret st) Q w2) as Hend.
  { intros st w2 [Hs Ho Hd Hf Hn Hl]. apply wp_bind, wp_doc_event; [done|]. intros w3 H3 G3. apply wp_ret, HQ.
    split; unfold files in *; rewrite ?G3; try done.
    eapply doc_step_trans; [exact Hs|by apply doc_step_held]. }
  apply wp_bind, wp_doc_lock; cycle 1.
  { intros w2 H2 G2 Hno. rewrite bool_decide_false by done. cbn [negb]. apply wp_bind, wp_ret, Hend.
    apply delete_result_none; [done|done|by apply doc_step_held|apply H2|done]. }
  intros w2 Hlk. rewrite bool_decide_true by done. cbn [negb]. apply wp_bind, wp_bind, (wp_delete_locked c).
  { by rewrite (lk_db _ _ Hlk). }
  intros st w3 [Hs Ho Hd Hf Hn Hl]. apply wp_bind. eapply wp_doc_unlock; [exact Hlk|exact Hs|].
  intros w4 Hs4 G4. apply wp_ret, Hend.
  assert (files w2 = files w) as Hfw by (unfold files; by rewrite (lk_fs _ _ Hlk)).
  rewrite Hfw in *. split; try done; unfold files in *; by rewrite ?G4.
Qed.
End save.
