(* ===== verification/DocOpenSpec.v ===== *)
(** * Opening a document

    An open that succeeds hands out the contents of the document's file, or of
    a complete staging file, which it then promotes; one that fails changes no
    file and keeps no memory. *)

From S2P Require Import Prelude Config Env Types FsEnv FsSpec Events Doubles Doc DocFile DocSpec.
From S2P Require Import DocFieldSpec DocHandleSpec DocDecode DocParseSpec DocStep DocSaveSpec.

Section open.
Context {Cfg : Config} {CfgOk : ConfigOk Cfg} {K F FS FH DH : Type}.
Context `{!Kernel K, !KernelLaws K, !FileSys FS FH DH, !FileSysLaws FS FH DH}.
Context {CRC : Crc32} {CRCLaws : Crc32Laws}.
Abbreviation W := (world K F FS).
Implicit Types (w : W) (d : zdb_doc_t).

(** A handle with the contents [ct] of the document [coll]/[id]. *)
Record opened_as coll id (ct : doc_contents) d : Prop := {
  oa_ok : doc_ok d;
  oa_fields : doc_fields d = put_all [] (ct_fields ct);
  oa_created : created_ms d = ct_created ct;
  oa_updated : updated_ms d = ct_updated ct;
  oa_coll : collection_name d = Some coll;
  oa_id : document_id d = Some id;
}.

(** Which file an open reads, and what it does to the volume. *)
Definition source c coll id (ct : doc_contents) w w' : Prop :=
  let path := doc_file c coll id ZDB_DOC_FILE_EXT in
  let tmp := doc_file c coll id ZDB_DOC_TMP_EXT in
  ∃ data, dec_doc data = Some ct ∧
    ((files w !! path = Some data ∧ files w' = files w) ∨
     (files w !! tmp = Some data ∧ (FsLive FS FH DH → files w !! path = None) ∧
      files w' = <[path := data]> (delete tmp (files w)))).

(** The open must succeed: what is stored, or what an interrupted save staged,
    is readable. *)
Definition can_open c coll id w : Prop :=
  let path := doc_file c coll id ZDB_DOC_FILE_EXT in
  let tmp := doc_file c coll id ZDB_DOC_TMP_EXT in
  HeapLive K ∧ storable c coll id ∧ ∃ data, dec_doc data ≠ None ∧
    ((FsLive FS FH DH ∧ files w !! path = Some data) ∨
     (FsRoom FS FH DH ∧ FsMissing FS FH DH ∧ files w !! path = None ∧ files w !! tmp = Some data)).

(** The handle before a file is read into it. *)
Record blank coll id d : Prop := {
  bl_ok : doc_ok d;
  bl_empty : doc_fields d = [];
  bl_coll : collection_name d = Some coll;
  bl_id : document_id d = Some id;
}.

Record stored_post c coll id d w (st : zdb_status_t) d' w' : Prop := {
  st_ok : doc_ok d';
  st_step : doc_step (doc_blocks d) (doc_blocks d') w w';
  st_done : st = ZDB_OK → ∃ ct, opened_as coll id ct d' ∧ source c coll id ct w w';
  st_fail : st ≠ ZDB_OK → files w' = files w;
  st_live : can_open c coll id w → st = ZDB_OK;
}.

Lemma parse_opened path coll id d w st d' w' :
  blank coll id d → parse_post path d w st d' w' → st = ZDB_OK →
  ∃ data ct, files w !! path = Some data ∧ dec_doc data = Some ct ∧ opened_as coll id ct d'.
Proof.
  intros [? ? Hc Hi] [Hok [Hsc Hsi] _ Hdone _ _ _] Hst.
  destruct (Hdone Hst) as (data & ct & Hd & Hdec & Hf & Hcr & Hup).
  exists data, ct. split_and!; [done|done|]. split; try done; congruence.
Qed.

Lemma wp_reset_blank coll id d (Q : zdb_doc_t → W → Prop) w :
  doc_ok d → collection_name d = Some coll → document_id d = Some id → doc_blocks d ≤ heap_used (w_k w) →
  (∀ d' w', blank coll id d' → held (doc_blocks d) (doc_blocks d') w w' → w_fs w' = w_fs w → Q d' w') →
  wp (zdb_doc_fields_reset d) Q w.
Proof.
  intros Hd Hc Hi Hh HQ. apply wp_fields_reset; [done..|]. intros w' d' Hok Hnil H1 G1.
  apply HQ; [|done|done]. by split.
Qed.

(** What parsing the live file leaves when the answer is taken as final. *)
Lemma stored_post_live c coll id d w st d' w' :
  blank coll id d → parse_post (doc_file c coll id ZDB_DOC_FILE_EXT) d w st d' w' →
  st ≠ ZDB_ERR_NOT_FOUND → stored_post c coll id d w st d' w'.
Proof.
  intros Hb Hp Hnf. split.
  - apply Hp.
  - apply doc_step_held, Hp.
  - intros Hst. destruct (parse_opened _ _ _ _ _ _ _ _ Hb Hp Hst) as (data & ct & Hf & Hdec & Hoa).
    exists ct. split; [done|]. exists data. split; [done|]. left. split; [done|].
    apply (he_files _ _ _ _ (pr_held _ _ _ _ _ _ Hp)).
  - intros _. apply (he_files _ _ _ _ (pr_held _ _ _ _ _ _ Hp)).
  - intros (HH & _ & data & Hdec & [[HF Hf]|(_ & HM & Hn & _)]).
    + by eapply (pr_live _ _ _ _ _ _ Hp).
    + by destruct Hnf; apply (pr_missing _ _ _ _ _ _ Hp).
Qed.

Lemma wp_open_staged c coll id d0 d (Q : zdb_status_t * zdb_doc_t → W → Prop) w0 w :
  doc_ok d → collection_name d = Some coll → document_id d = Some id →
  doc_blocks d0 ≤ heap_used (w_k w0) → held (doc_blocks d0) (doc_blocks d) w0 w →
  (FsLive FS FH DH → files w0 !! doc_file c coll id ZDB_DOC_FILE_EXT = None) →
  (∀ st d' w', stored_post c coll id d0 w0 st d' w' → Q (st, d') w') →
  wp (open_staged (Some c) (Some coll) (Some id) (doc_file c coll id ZDB_DOC_FILE_EXT) d) Q w.
Proof.
  intros Hd Hc Hi Hh H0 Habs HQ. unfold open_staged. set (path := doc_file c coll id ZDB_DOC_FILE_EXT) in *.
  pose proof (held_enough _ _ _ _ H0 Hh) as Hhd. pose proof (he_files _ _ _ _ H0) as Hf0.
  assert (∀ d' w', doc_ok d' → held (doc_blocks d0) (doc_blocks d') w0 w' →
    (can_open c coll id w0 → False) → stored_post c coll id d0 w0 ZDB_ERR_NOT_FOUND d' w') as Hfail.
  { intros d' w' Hok H' Hno. split; [done|by apply doc_step_held|done|by intros _; apply H'|].
    intros Hcan. by destruct (Hno Hcan). }
  assert (can_open c coll id w0 → FsRoom FS FH DH ∧ HeapLive K ∧ storable c coll id ∧
    ∃ data, files w0 !! doc_file c coll id ZDB_DOC_TMP_EXT = Some data ∧ dec_doc data ≠ None) as Hcan.
  { intros (HH & Hst & data & Hdec & [[HF Hf]|(HR & _ & _ & Hf)]).
    - unfold path in Habs. rewrite (Habs HF) in Hf. done.
    - split_and!; [done..|]. by exists data. }
  destruct (zdb_doc_build_doc_path _ _ _ ZDB_DOC_TMP_EXT _) as [rc|t] eqn:Ht.
  { apply wp_ret, HQ, Hfail; [done|done|]. intros (_ & _ & (_ & _ & Hst) & _)%Hcan.
    by rewrite build_doc_path_fits in Ht. }
  apply build_doc_path_inr in Ht as (? & [= <-] & -> & _). set (tmp := doc_file c coll id ZDB_DOC_TMP_EXT) in *.
  apply wp_bind. eapply wp_reset_blank; [exact Hd|exact Hc|exact Hi|exact Hhd|].
  intros d1 w1 Hb1 H1 G1. pose proof (held_trans _ _ _ _ _ _ H0 H1) as H01.
  pose proof (held_enough _ _ _ _ H01 Hh) as Hh1.
  apply wp_bind, wp_parse_file; [apply Hb1|apply Hb1|done|]. intros st d2 w2 Hp.
  pose proof (held_trans _ _ _ _ _ _ H01 (pr_held _ _ _ _ _ _ Hp)) as H02.
  pose proof (he_files _ _ _ _ H01) as Hf1. pose proof (he_files _ _ _ _ H02) as Hf2.
  case_bool_decide as Hst.
  - destruct (parse_opened _ _ _ _ _ _ _ _ Hb1 Hp Hst) as (data & ct & Hf & Hdec & Hoa).
    rewrite Hf1 in Hf. apply wp_bind. eapply (wp_rename_staging tmp path data); [by rewrite Hf2|..].
    + intros w3 Hf3 Hs3. change (0 =? 0)%Z with true. cbn iota. apply wp_ret, HQ. split; [apply Hoa| | |done|done].
      * eapply doc_step_trans; [by apply doc_step_held|].
        eapply (doc_step_frame (doc_blocks d2)); [| |exact Hs3]; done.
      * intros _. exists ct. split; [done|]. exists data. split; [done|]. right.
        split_and!; [done|done|]. by rewrite Hf3, Hf2.
    + intros rc w3 Hrc Hf3 Hs3 Hno _. rewrite (proj2 (Z.eqb_neq _ _)) by lia. apply wp_ret, HQ.
      split; [apply Hoa| |done|by intros; rewrite Hf3, Hf2|].
      * eapply doc_step_trans; [by apply doc_step_held|].
        eapply (doc_step_frame (doc_blocks d2)); [| |exact Hs3]; done.
      * intros (HR & _)%Hcan. done.
  - apply wp_bind. pose proof (held_enough _ _ _ _ H02 Hh) as Hh2.
    apply wp_fields_reset; [apply Hp|done|]. intros w3 d3 Hok3 _ H3 G3. apply wp_ret, HQ, Hfail; [done|by eapply held_trans|].
    intros (HR & HH & _ & data & Hf & Hdec)%Hcan. apply Hst. eapply (pr_live _ _ _ _ _ _ Hp); [|by rewrite Hf1|done].
    split; [apply HR|done].
Qed.

Lemma wp_open_stored c coll id d (Q : zdb_status_t * zdb_doc_t → W → Prop) w :
  cfg (w_db w) = Some c → blank coll id d → doc_blocks d ≤ heap_used (w_k w) →
  (∀ st d' w', stored_post c coll id d w st d' w' → Q (st, d') w') →
  wp (open_stored (Some coll) (Some id) d) Q w.
Proof.
  intros Hcfg Hb Hh HQ. unfold open_stored. apply wp_bind, wp_db_get. rewrite Hcfg.
  destruct (zdb_doc_build_doc_path _ _ _ ZDB_DOC_FILE_EXT _) as [rc|p] eqn:Hp.
  { apply wp_ret, HQ. apply build_doc_path_inl in Hp as Hrc. split; [apply Hb|apply doc_step_refl|..].
    - by destruct Hrc as [-> | ->].
    - done.
    - intros (_ & Hst%storable_live & _). by rewrite build_doc_path_fits in Hp. }
  apply build_doc_path_inr in Hp as (? & [= <-] & -> & _).
  apply wp_bind, wp_parse_file; [apply Hb|apply Hb|done|]. intros st d1 w1 Hpp.
  case_bool_decide as Hst; [|by apply wp_ret, HQ, stored_post_live].
  eapply wp_open_staged; [apply Hpp| | |exact Hh|apply Hpp| |exact HQ].
  - rewrite (proj1 (pr_same _ _ _ _ _ _ Hpp)). apply Hb.
  - rewrite (proj2 (pr_same _ _ _ _ _ _ Hpp)). apply Hb.
  - intros HF. destruct (files w !! doc_file c coll id ZDB_DOC_FILE_EXT) eqn:Hf; [|done].
    by destruct (pr_found _ _ _ _ _ _ Hpp HF ltac:(by eexists)).
Qed.

(** ** The whole operation *)

Lemma can_open_files c coll id w w' : files w' = files w → can_open c coll id w → can_open c coll id w'.
Proof. unfold can_open. by intros ->. Qed.

Lemma source_files c coll id ct w0 w1 w1' w2 :
  files w0 = files w1 → files w2 = files w1' → source c coll id ct w1 w1' → source c coll id ct w0 w2.
Proof. unfold source. by intros -> ->. Qed.

Lemma fresh_blank coll id d : fresh d coll id → blank coll id d.
Proof. intros []. by split. Qed.

(** Finishing an open: the handle on success, nothing on failure. *)
Lemma wp_open_finish c coll id d (R : option zdb_doc_t → W → Prop) w st d' w' :
  doc_blocks d ≤ heap_used (w_k w) → stored_post c coll id d w st d' w' →
  (∀ ct, st = ZDB_OK → opened_as coll id ct d' → source c coll id ct w w' →
     doc_step (doc_blocks d) (doc_blocks d') w w' → R (Some d') w') →
  (∀ d2 w2, st ≠ ZDB_OK → doc_step (doc_blocks d) 0 w w2 → files w2 = files w →
     (can_open c coll id w → False) → R (Some d2) w2) →
  wp (if bool_decide (st = ZDB_OK) then ret (Some d')
      else '(_, out) ← zdb_doc_close (Some d'); ret out) R w'.
Proof.
  intros Hh [Hok Hs Hdone Hfail Hlive] HRok HRbad. case_bool_decide as Hst.
  - destruct (Hdone Hst) as (ct & Hoa & Hsrc). apply wp_ret. by eapply HRok.
  - apply wp_bind, wp_doc_close; [done|by eapply doc_step_enough|].
    intros d2 w2 _ H2 G2. apply wp_ret, HRbad; [done|..].
    + eapply doc_step_trans; [exact Hs|by apply doc_step_held].
    + rewrite (he_files _ _ _ _ H2). by apply Hfail.
    + intros Hcan. by apply Hst, Hlive.
Qed.

(** The program after a create that failed. *)
Lemma created_failed {A} (st : zdb_status_t) (m : M W A) r :
  st ≠ ZDB_OK → match st with ZDB_OK => m | _ => ret r end = ret r.
Proof. by destruct st. Qed.

Lemma wp_open_impl (take_lock : bool) c coll id out (Q : zdb_status_t * option zdb_doc_t → W → Prop) w :
  cfg (w_db w) = Some c → c_string coll → c_string id →
  (∀ d' ct w', opened_as coll id ct d' → source c coll id ct w w' → doc_step 0 (doc_blocks d') w w' →
     doc_names_valid coll id = true → Q (ZDB_OK, Some d') w') →
  (∀ st d' w', st ≠ ZDB_OK → doc_step 0 0 w w' → files w' = files w →
     ((take_lock = true → LockLive K) → can_open c coll id w → doc_names_valid coll id = true → False) →
     Q (st, Some d') w') →
  wp (zdb_doc_open_impl (Some the_db) (Some coll) (Some id) (Some out) take_lock) Q w.
Proof.
  intros Hcfg Hcs Hids Hok Hbad. unfold zdb_doc_open_impl. apply wp_bind, wp_doc_create; [done..| |].
  { intros st d' w1 Hst H1 G1 Hlive. rewrite created_failed by done.
    apply wp_ret, Hbad; [done|by apply doc_step_held|apply H1|].
    intros _ (HH & [Hm _] & _) Hv. apply Hlive; try done. by rewrite Hcfg. }
  intros d w1 Hfr Hv _ H1 G1. rewrite <- (fr_blocks _ _ _ Hfr) in H1.
  pose proof (held_enough _ _ _ _ H1 ltac:(lia)) as Hh1.
  assert (cfg (w_db w1) = Some c) as Hcfg1 by (by rewrite (he_db _ _ _ _ H1)).
  assert (files w1 = files w) as Hf1 by apply H1.
  destruct take_lock.
  - apply wp_bind, wp_doc_lock_read; cycle 1.
    { intros w2 H2 G2 Hno. rewrite bool_decide_false by done. cbn [negb].
      pose proof (held_trans _ _ _ _ _ _ H1 (held_frame (doc_blocks d) _ _ _ _ _ _ eq_refl eq_refl H2)) as H12.
      apply wp_bind, wp_doc_close; [apply Hfr|by eapply held_enough; [exact H12|lia]|].
      intros d2 w3 _ H3 G3. pose proof (held_trans _ _ _ _ _ _ H12 H3) as H13.
      apply wp_ret, Hbad; [done|by apply doc_step_held|apply H13|]. intros Hl _ _. by apply Hno, Hl. }
    intros w2 Hlk. rewrite bool_decide_true by done. cbn [negb]. apply wp_bind.
    assert (files w2 = files w) as Hf2 by (unfold files in *; by rewrite (lk_fs _ _ Hlk)).
    eapply (wp_open_stored c); [by rewrite (lk_db _ _ Hlk)|by apply fresh_blank|by rewrite (lk_heap _ _ Hlk)|].
    intros st d3 w3 Hp. apply wp_bind. eapply wp_open_finish; [by rewrite (lk_heap _ _ Hlk)|exact Hp|..].
    + intros ct -> Hoa Hsrc Hs. apply wp_bind. eapply wp_doc_unlock_read; [exact Hlk|exact Hs|].
      intros w4 Hs4 G4. apply wp_ret. eapply Hok; [exact Hoa| | |done].
      * eapply source_files; [by symmetry| |exact Hsrc]. unfold files. by rewrite G4.
      * eapply doc_step_trans; [by apply doc_step_held|exact Hs4].
    + intros d4 w4 Hst Hs Hf4 Hno. apply wp_bind. eapply wp_doc_unlock_read; [exact Hlk|exact Hs|].
      intros w5 Hs5 G5. apply wp_ret, Hbad; [done| | |].
      * eapply doc_step_trans; [by apply doc_step_held|exact Hs5].
      * rewrite <- Hf2, <- Hf4. unfold files. by rewrite G5.
      * intros _ Hcan _. by eapply Hno, can_open_files.
  - apply wp_bind, wp_ret. rewrite bool_decide_true by done. cbn [negb]. apply wp_bind.
    eapply (wp_open_stored c); [done|by apply fresh_blank|done|].
    intros st d3 w3 Hp. apply wp_bind. eapply wp_open_finish; [done|exact Hp|..].
    + intros ct -> Hoa Hsrc Hs. apply wp_bind, wp_ret, wp_ret. eapply Hok; [exact Hoa| | |done].
      * by eapply source_files; [symmetry| |exact Hsrc].
      * eapply doc_step_trans; [by apply doc_step_held|exact Hs].
    + intros d4 w4 Hst Hs Hf4 Hno. apply wp_bind, wp_ret, wp_ret, Hbad; [done| |congruence|].
      * eapply doc_step_trans; [by apply doc_step_held|exact Hs].
      * intros _ Hcan _. by eapply Hno, can_open_files.
Qed.
End open.
