(* ===== verification/DocOps.v ===== *)
(** * Writing and reading fields, uniformly, and the store of documents

    [run_write] is the setter of a kind of value, [read_as] the getters; a
    sequence of writes is [run_writes]. [stored] is the abstract store: what
    each document's file says, if it says anything. *)

From S2P Require Import Prelude Config Env Types FsEnv FsSpec Events Doubles Doc DocFile DocSpec.
From S2P Require Import DocFieldSpec DocHandleSpec DocDecode DocStep DocSaveSpec DocOpenSpec.

(** A value to write, as a caller passes it. *)
Inductive field_write :=
  | Write_i64 (z : Z)
  | Write_f64 (bits : Z)
  | Write_string (s : cstring)
  | Write_bool (b : bool)
  | Write_bytes (data : list byte).

Definition write_type (x : field_write) : zdb_doc_field_type_t :=
  match x with
  | Write_i64 _ => ZDB_DOC_FIELD_INT64 | Write_f64 _ => ZDB_DOC_FIELD_DOUBLE
  | Write_string _ => ZDB_DOC_FIELD_STRING | Write_bool _ => ZDB_DOC_FIELD_BOOL
  | Write_bytes _ => ZDB_DOC_FIELD_BYTES
  end.

Definition write_value (x : field_write) : zdb_doc_field_value_t :=
  match x with
  | Write_i64 z => V_i64 z | Write_f64 bits => V_f64 bits | Write_string s => V_str (Some s)
  | Write_bool b => V_bool b | Write_bytes data => bytes_value (Some data) (length data)
  end.

(** What the C types guarantee of the arguments. *)
Definition write_ok (x : field_write) : Prop :=
  match x with
  | Write_i64 z => (- 2 ^ 63 ≤ z < 2 ^ 63)%Z
  | Write_f64 bits => (0 ≤ bits < 2 ^ 64)%Z
  | Write_string s => c_string s
  | _ => True
  end.

Section getters.
Context {Cfg : Config}.

Lemma field_at_index d name i f :
  field_index (doc_fields d) name 0 = Some i → doc_fields d !! i = Some f → field_at d i = f.
Proof.
  intros _ Hf. unfold field_at. unfold doc_fields in Hf.
  apply lookup_take_Some in Hf as [Hf _]. by rewrite Hf.
Qed.

(** Every getter answers from [doc_lookup]. *)
Lemma field_get_lookup {A} d name t (m : zdb_doc_field_value_t → A) :
  field_get (Some d) (Some name) true t m =
  match doc_lookup d name with
  | None => (ZDB_ERR_NOT_FOUND, None)
  | Some (t', v) => if bool_decide (t' = t) then (ZDB_OK, Some (m v)) else (ZDB_ERR_INVAL, None)
  end.
Proof.
  unfold field_get, doc_lookup, field_lookup. cbn [negb].
  destruct (field_index (doc_fields d) name 0) as [i|] eqn:Hi; [|done]. cbn [mbind option_bind].
  apply field_index_lookup in Hi as Hf. destruct Hf as (f & Hf & _). rewrite Hf. cbn [fmap option_fmap option_map].
  rewrite (field_at_index d name i f Hi Hf). by case_bool_decide.
Qed.

(** The getter that reads back a written value. *)
Definition reads_back (d : zdb_doc_t) (name : cstring) (x : field_write) : Prop :=
  match x with
  | Write_i64 z => zdb_doc_field_get_i64 (Some d) (Some name) true = (ZDB_OK, Some z)
  | Write_f64 bits => zdb_doc_field_get_f64 (Some d) (Some name) true = (ZDB_OK, Some bits)
  | Write_string s => zdb_doc_field_get_string (Some d) (Some name) true = (ZDB_OK, Some (Some s))
  | Write_bool b => zdb_doc_field_get_bool (Some d) (Some name) true = (ZDB_OK, Some b)
  | Write_bytes data => ∃ p, zdb_doc_field_get_bytes (Some d) (Some name) true =
      (ZDB_OK, Some (p, length data)) ∧ default [] p = data
  end.

Lemma lookup_reads_back d name x :
  doc_lookup d name = Some (write_type x, write_value x) → reads_back d name x.
Proof.
  intros Hl. destruct x as [| | | |data]; cbn [write_type write_value] in Hl;
    unfold reads_back, zdb_doc_field_get_i64, zdb_doc_field_get_f64, zdb_doc_field_get_string, zdb_doc_field_get_bool,
      zdb_doc_field_get_bytes; rewrite ?field_get_lookup, ?Hl; try (by rewrite bool_decide_true).
  exists (value_bytes (bytes_value (Some data) (length data))).1.
  rewrite bool_decide_true by done. unfold bytes_value.
  destruct (Nat.eqb_spec (length data) 0) as [Hz|_]; simpl.
  - rewrite Hz. by destruct data.
  - by rewrite take_ge.
Qed.

(** What the five getters say of a field. *)
Definition answers (d : zdb_doc_t) (name : cstring) :=
  (zdb_doc_field_get_i64 (Some d) (Some name) true, zdb_doc_field_get_f64 (Some d) (Some name) true,
   zdb_doc_field_get_string (Some d) (Some name) true, zdb_doc_field_get_bool (Some d) (Some name) true,
   zdb_doc_field_get_bytes (Some d) (Some name) true).

Lemma same_answers d d' name : doc_lookup d' name = doc_lookup d name → answers d' name = answers d name.
Proof.
  intros H. unfold answers, zdb_doc_field_get_i64, zdb_doc_field_get_f64, zdb_doc_field_get_string,
    zdb_doc_field_get_bool, zdb_doc_field_get_bytes. by rewrite !field_get_lookup, H.
Qed.
End getters.

Section writes.
Context {Cfg : Config} {CfgOk : ConfigOk Cfg} {K F FS FH DH : Type}.
Context `{!Kernel K, !KernelLaws K, !FileSys FS FH DH}.
Abbreviation W := (world K F FS).
Implicit Types (w : W) (d : zdb_doc_t).

Definition run_write (d : zdb_doc_t) (name : cstring) (x : field_write) : M W (zdb_status_t * option zdb_doc_t) :=
  match x with
  | Write_i64 z => zdb_doc_field_set_i64 (Some d) (Some name) z
  | Write_f64 bits => zdb_doc_field_set_f64 (Some d) (Some name) bits
  | Write_string s => zdb_doc_field_set_string (Some d) (Some name) (Some s)
  | Write_bool b => zdb_doc_field_set_bool (Some d) (Some name) b
  | Write_bytes data => zdb_doc_field_set_bytes (Some d) (Some name) (Some data) (length data)
  end.

(** Writes one after the other, whatever each reports. *)
Fixpoint run_writes (l : list (cstring * field_write)) (d : zdb_doc_t) : M W zdb_doc_t :=
  match l with
  | [] => ret d
  | (name, x) :: l => '(_, d') ← run_write d name x; run_writes l (default d d')
  end.

Lemma wp_run_write d name x (Q : zdb_status_t * option zdb_doc_t → W → Prop) w :
  doc_ok d → doc_blocks d ≤ heap_used (w_k w) → c_string name → write_ok x →
  (∀ st d' w', set_result d name (write_type x) (write_value x) st d' w w' → Q (st, Some d') w') →
  wp (run_write d name x) Q w.
Proof.
  intros Hd Hh Hn Hx HQ. destruct x; cbn [run_write write_type write_value write_ok] in *.
  - by apply wp_set_i64.
  - by apply wp_set_f64.
  - by apply wp_set_string.
  - by apply wp_set_bool.
  - apply wp_set_bytes; [done..| |done]. by intros ? [= <-].
Qed.

Lemma wp_run_writes l d (Q : zdb_doc_t → W → Prop) w :
  doc_ok d → doc_blocks d ≤ heap_used (w_k w) → Forall (λ e, c_string e.1 ∧ write_ok e.2) l →
  (∀ d' w', doc_ok d' → held (doc_blocks d) (doc_blocks d') w w' → w_fs w' = w_fs w → same_handle d d' →
     Q d' w') →
  wp (run_writes l d) Q w.
Proof.
  intros Hd Hh Hl. revert d w Hd Hh Q. induction Hl as [|[name x] l [Hn Hx] _ IH]; intros d w Hd Hh Q HQ.
  { apply wp_ret, HQ; [done|apply held_refl|done|done]. }
  simpl. apply wp_bind, wp_run_write; [done..|]. intros st d1 w1 [Hok1 H1 G1 _ _ _ E1]. simpl.
  apply IH; [done|by eapply held_enough|]. intros d2 w2 Hok2 H2 G2 E2.
  apply HQ; [done|by eapply held_trans|congruence|by etrans].
Qed.
End writes.

(** ** The store *)

Section store.
Context {Cfg : Config} {CfgOk : ConfigOk Cfg} {K F FS FH DH : Type}.
Context `{!Kernel K, !KernelLaws K, !FileSys FS FH DH, !FileSysLaws FS FH DH}.
Context {CRC : Crc32} {CRCLaws : Crc32Laws}.
Abbreviation W := (world K F FS).
Implicit Types (w : W) (d : zdb_doc_t).

Definition stored (c : zdb_cfg_t) w (coll id : cstring) : option doc_contents :=
  files w !! doc_file c coll id ZDB_DOC_FILE_EXT ≫= dec_doc.

(** What a save of a handle stores. *)
Definition contents_of d : doc_contents :=
  {| ct_fields := map as_stored (doc_fields d); ct_created := created_ms d; ct_updated := updated_ms d |}.

(** Nothing but the document [coll]/[id] may differ. *)
Definition others_kept (c : zdb_cfg_t) coll id w w' : Prop :=
  ∀ coll' id', doc_names_valid coll' id' = true → (coll', id') ≠ (coll, id) →
    stored c w' coll' id' = stored c w coll' id'.

Lemma dec_saved d : doc_ok d → dec_doc (doc_bytes d) = Some (contents_of d).
Proof. intros Hd. rewrite <- (app_nil_r (doc_bytes d)). by apply dec_doc_bytes. Qed.

Lemma others_kept_files c coll id w w' :
  doc_names_valid coll id = true →
  (∀ q, q ≠ doc_file c coll id ZDB_DOC_FILE_EXT → q ≠ doc_file c coll id ZDB_DOC_TMP_EXT →
     files w' !! q = files w !! q) → others_kept c coll id w w'.
Proof.
  intros Hv Hf coll' id' Hv' Hne. unfold stored. rewrite Hf; [done|..]; intros Heq;
    apply doc_file_inj in Heq as (-> & -> & ?); auto.
Qed.

(** What is read back of a field that was stored. *)
Lemma reread_lookup d name d' :
  doc_ok d → doc_fields d' = map reread (doc_fields d) →
  doc_lookup d' name = (λ tv, (tv.1, stored_value tv.1 tv.2)) <$> doc_lookup d name.
Proof.
  intros Hd Hf. unfold doc_lookup, field_lookup. rewrite Hf.
  assert (∀ l i, field_index (map reread l) name i = field_index l name i) as Hi.
  { induction l as [|f l IH]; intros i; [done|]. simpl. by rewrite IH. }
  rewrite Hi. destruct (field_index (doc_fields d) name 0) as [i|]; [|done]. cbn [mbind option_bind].
  change (map reread (doc_fields d)) with (reread <$> doc_fields d). rewrite list_lookup_fmap.
  by destruct (doc_fields d !! i).
Qed.
End store.
