(* ===== verification/DocQuerySpec.v ===== *)
(** * What a query reports

    The scan keeps an invariant over its progress: every entry written is the
    metadata of a document that matches, in blocks of its own; there are at
    most as many as the caller's array holds, and at most as many matches as
    the query's limit. *)

From S2P Require Import Prelude Config Env Types FsEnv FsSpec Events Doubles Doc DocFile DocQuery.
From S2P Require Import DocSpec DocFieldSpec DocHandleSpec DocDecode DocStep DocSaveSpec DocOpenSpec DocOps.

(** What a document file says, asked of a query: [ct_doc] is a handle with
    those contents. *)
Section contents.
Context {Cfg : Config}.

Definition ct_doc (ct : doc_contents) : zdb_doc_t :=
  let l := put_all [] (ct_fields ct) in
  {| doc_db := None; collection_name := None; document_id := None; fields := Some l;
     field_count := length l; max_fields := length l; created_ms := ct_created ct;
     updated_ms := ct_updated ct; doc_valid := true |}.

Definition ct_satisfies (ct : doc_contents) (q : zdb_doc_query_t) : bool :=
  zdb_doc_matches_query (ct_doc ct) q.

Lemma opened_satisfies coll id ct d q :
  opened_as coll id ct d → zdb_doc_matches_query d q = ct_satisfies ct q.
Proof.
  intros [_ Hf _ Hu _ _]. unfold ct_satisfies, zdb_doc_matches_query. rewrite Hu, Hf.
  assert (doc_fields (ct_doc ct) = put_all [] (ct_fields ct)) as ->; [|done].
  unfold doc_fields. cbn. by rewrite take_ge.
Qed.
End contents.

Section query.
Context {Cfg : Config} {CfgOk : ConfigOk Cfg} {K F FS FH DH : Type}.
Context `{!Kernel K, !KernelLaws K, !FileSys FS FH DH, !FileSysLaws FS FH DH}.
Context {CRC : Crc32} {CRCLaws : Crc32Laws}.
Abbreviation W := (world K F FS).
Implicit Types (w : W) (d : zdb_doc_t) (sc : scan_state).

Section scan.
Context (c : zdb_cfg_t) (q : zdb_doc_query_t) (limit : Z) (out : bool) (capacity : nat) (w0 : W).

(** An entry of the result: a document, as it was read, that matches. *)
Definition reported (m : zdb_doc_metadata_t) : Prop :=
  ∃ coll id ct d, md_collection_name m = Some coll ∧ md_document_id m = Some id ∧
    opened_as coll id ct d ∧ zdb_doc_matches_query d q = true ∧
    md_created_ms m = ct_created ct ∧ md_updated_ms m = ct_updated ct ∧
    md_field_count m = length (doc_fields d) ∧
    (FsLive FS FH DH → stored c w0 coll id = Some ct).

Record scan_ok sc w : Prop := {
  sk_cfg : cfg (w_db w0) = Some c;
  sk_step : doc_step 0 (2 * length (sc_written sc)) w0 w;
  sk_files : FsLive FS FH DH → files w = files w0;
  sk_reported : Forall reported (sc_written sc);
  sk_capacity : length (sc_written sc) ≤ if out then capacity else 0;
  sk_matched : (length (sc_written sc) ≤ sc_matched sc ≤ limit)%Z;
}.

Lemma scan_ok_fs sc w fs' : scan_ok sc w → fs_files fs' = files w → scan_ok sc (w <| w_fs := fs' |>).
Proof.
  intros [Hc Hs Hf Hr Hcap Hm] Heq. split; try done.
  - eapply doc_step_trans; [exact Hs|apply doc_step_fs].
  - intros HF. by rewrite <- (Hf HF).
Qed.

Lemma scan_ok_cfg sc w : scan_ok sc w → cfg (w_db w) = Some c.
Proof. intros []. by rewrite (published_cfg _ _ (ds_db _ _ _ _ sk_step0)). Qed.

Lemma wp_report coll id d sc (Q : scan_state → W → Prop) w :
  c_string coll → c_string id →
  (∀ w', held 0 0 w w' → w_fs w' = w_fs w → ¬ HeapLive K → Q (sc <| out_of_memory := true |>) w') →
  (∀ w', held 0 2 w w' → w_fs w' = w_fs w →
     let written := sc_written sc ++ [{| md_document_id := Some id; md_collection_name := Some coll;
       md_created_ms := created_ms d; md_updated_ms := updated_ms d; md_field_count := u32 (field_count d) |}] in
     Q (sc <| sc_written := written |> <| stop_scan := stop_scan sc || (capacity <=? length written) |>
           <| sc_matched ::= Z.succ |>) w') →
  wp (report capacity coll id d sc) Q w.
Proof.
  intros Hc Hi Hoom Hok. unfold report. apply wp_bind, wp_strdup; [done|intros w1 H1 G1|intros w1 H1 G1 Hno];
    [|by apply wp_ret, Hoom].
  apply wp_bind, wp_strdup; [done|intros w2 H2 G2|intros w2 H2 G2 Hno].
  - apply wp_ret, Hok; [|congruence]. eapply held_trans; [exact H1|].
    eapply (held_frame 1); [| |exact H2]; done.
  - pose proof (he_heap _ _ _ _ H1). pose proof (he_heap _ _ _ _ H2).
    apply wp_bind, wp_heap_free; [lia|]. intros w3 H3 G3. apply wp_ret, Hoom; [|congruence|done].
    eapply held_trans; [exact H1|]. eapply held_trans; [|exact H3].
    eapply (held_frame 1); [| |exact H2]; done.
Qed.

Lemma doc_id_of_Some name id :
  doc_id_of name = Some id → name = id ++ ZDB_DOC_FILE_EXT.
Proof.
  unfold doc_id_of. destruct (_ || _) eqn:H; [done|]. apply orb_false_iff in H as [_ H].
  apply negb_false_iff, bool_decide_eq_true in H. destruct (_ <? _); [done|]. intros [= <-].
  rewrite <- H. by rewrite take_drop.
Qed.

(** What a directory listing says of an entry, for this volume. *)
Definition listed coll (e : fs_dirent) : Prop :=
  file_name (de_name e) ∧
  (FsLive FS FH DH → de_type' e = FS_DIR_ENTRY_FILE →
     is_Some (files w0 !! (coll_dir c coll ++ s2b "/" ++ de_name e))).

(** Steps that keep the invariant. *)
Lemma scan_ok_step sc sc' w w' n :
  scan_ok sc w → doc_step 0 (2 * n) w w' → (FsLive FS FH DH → files w' = files w) →
  length (sc_written sc') = length (sc_written sc) + n → Forall reported (sc_written sc') →
  length (sc_written sc') ≤ (if out then capacity else 0) →
  (length (sc_written sc') ≤ sc_matched sc' ≤ limit)%Z → scan_ok sc' w'.
Proof.
  intros [Hc Hs Hf Hr Hcap Hm] Hs' Hf' Hlen Hr' Hcap' Hm'. split; try done.
  - eapply doc_step_trans; [exact Hs|].
    eapply (doc_step_frame (2 * length (sc_written sc))); [| |exact Hs']; lia.
  - intros HF. by rewrite (Hf' HF), (Hf HF).
Qed.

(** The document of a directory entry: read, it satisfies the query. *)
Definition found_in coll (e : fs_dirent) id (ct : doc_contents) : Prop :=
  de_type' e = FS_DIR_ENTRY_FILE ∧ de_name e = id ++ ZDB_DOC_FILE_EXT ∧ ct_satisfies ct q = true ∧
  (FsLive FS FH DH → stored c w0 coll id = Some ct).

(** A stored document a query is about: one the operations can name and open. *)
Record target coll id (ct : doc_contents) : Prop := {
  ta_valid : doc_names_valid coll id = true;
  ta_strings : c_string coll ∧ c_string id;
  ta_storable : storable c coll id;
  ta_stored : stored c w0 coll id = Some ct;
  ta_satisfies : ct_satisfies ct q = true;
}.

(** What an entry of the result says of a document. *)
Definition describes coll id (ct : doc_contents) (m : zdb_doc_metadata_t) : Prop :=
  md_collection_name m = Some coll ∧ md_document_id m = Some id ∧
  md_created_ms m = ct_created ct ∧ md_updated_ms m = ct_updated ct.

Lemma doc_id_of_ext coll id : doc_names_valid coll id = true → doc_id_of (id ++ ZDB_DOC_FILE_EXT) = Some id.
Proof.
  unfold doc_names_valid. rewrite !andb_true_iff. intros [[[_ [Hpos%Nat.ltb_lt Hlen%Nat.leb_le]] _] _].
  unfold doc_id_of. rewrite length_app.
  replace (length id + length ZDB_DOC_FILE_EXT - length ZDB_DOC_FILE_EXT) with (length id) by lia.
  rewrite drop_app_length, bool_decide_true by done. cbn [negb].
  rewrite (proj2 (Nat.leb_gt _ _)) by lia. cbn [orb]. rewrite (proj2 (Nat.ltb_ge _ _)) by lia.
  by rewrite take_app_length.
Qed.

(** The entries of one more document, or of none, are in bounds. *)
Record written_more (sc sc' : scan_state) (n : nat) : Prop := {
  wm_length : length (sc_written sc') = length (sc_written sc) + n;
  wm_reported : Forall reported (sc_written sc');
  wm_capacity : length (sc_written sc') ≤ (if out then capacity else 0);
  wm_matched : (length (sc_written sc') ≤ sc_matched sc' ≤ limit)%Z;
}.

(** A document that was opened from the world [w] is closed again: what remains
    is what was written about it. *)
Lemma wp_close_scanned (R : scan_state → W → Prop) sc sc' d w w1 w2 n :
  scan_ok sc w → doc_ok d → doc_step 0 (doc_blocks d) w w1 → (FsLive FS FH DH → files w1 = files w) →
  held 0 (2 * n) w1 w2 → w_fs w2 = w_fs w1 → written_more sc sc' n → (∀ w3, scan_ok sc' w3 → R sc' w3) →
  wp (zdb_doc_close (Some d);; ret sc') R w2.
Proof.
  intros Hsc Hok Hs1 Hlive H2 G2 [Hlen Hr Hcap Hm] HR. set (blocks := doc_blocks d) in *.
  assert (doc_step 0 (blocks + 2 * n) w w2) as Hs2.
  { eapply doc_step_trans; [exact Hs1|]. apply doc_step_held.
    eapply (held_frame blocks); [| |exact H2]; lia. }
  apply wp_bind, wp_doc_close; [exact Hok|pose proof (ds_heap _ _ _ _ Hs2); unfold blocks in *; lia|].
  intros d2 w3 _ H3 G3. apply wp_ret, HR.
  apply (scan_ok_step sc sc' w w3 n); [exact Hsc| | |exact Hlen|exact Hr|exact Hcap|exact Hm].
  - eapply doc_step_trans; [exact Hs2|]. apply doc_step_held.
    eapply (held_frame (2 * n)); [| |exact H3]; unfold blocks; lia.
  - intros HF. rewrite <- Hlive by done. unfold files. by rewrite G3, G2.
Qed.

(** The outcomes of one entry: nothing, a match that is counted, one that is
    written, or the end of the memory. *)
Lemma wp_scan_entry_cases db coll e sc (Q : scan_state → W → Prop) w :
  db = Some the_db → scan_ok sc w → (sc_matched sc < limit)%Z → c_string coll → listed coll e →
  let room := out && (length (sc_written sc) <? capacity) in
  (∀ w', scan_ok sc w' →
     (FsLive FS FH DH → HeapLive K → ∀ id ct, target coll id ct → de_type' e = FS_DIR_ENTRY_FILE →
        de_name e ≠ id ++ ZDB_DOC_FILE_EXT) → Q sc w') →
  (∀ id ct w', found_in coll e id ct → room = false → let sc' := sc <| sc_matched ::= Z.succ |> in
     scan_ok sc' w' → Q sc' w') →
  (∀ id ct m w', found_in coll e id ct → room = true → describes coll id ct m →
     let written := sc_written sc ++ [m] in
     let sc' := sc <| sc_written := written |> <| stop_scan := stop_scan sc || (capacity <=? length written) |>
                   <| sc_matched ::= Z.succ |> in
     scan_ok sc' w' → Q sc' w') →
  (∀ w', ¬ HeapLive K → let sc' := sc <| out_of_memory := true |> in scan_ok sc' w' → Q sc' w') →
  wp (scan_entry db q out capacity coll e sc) Q w.
Proof.
  intros -> Hsc Hlim Hcs [(_ & Hns & _) Hl]. cbv zeta. intros Hskip Hcount Hwrite Hoom. unfold scan_entry.
  case_bool_decide as Hfile; cbn [negb]; [|apply wp_ret, Hskip; [done|]; by intros].
  destruct (doc_id_of (de_name e)) as [id|] eqn:Hid; cycle 1.
  { apply wp_ret, Hskip; [done|]. intros _ _ id ct [Hv _ _ _ _] _ Hn.
    rewrite Hn, (doc_id_of_ext _ _ Hv) in Hid. done. }
  apply doc_id_of_Some in Hid. assert (c_string id) as Hids.
  { unfold c_string in *. rewrite Hid in Hns. set_solver. }
  assert (∀ id', de_name e = id' ++ ZDB_DOC_FILE_EXT → id' = id) as Hidinj.
  { intros id' Hn. rewrite Hid in Hn. by apply app_inv_tail in Hn. }
  apply wp_bind. eapply (wp_open_impl false c); [by eapply scan_ok_cfg|done|done|..].
  - intros d ct w1 Hoa Hsrc Hs1 _.
    assert (FsLive FS FH DH → files w1 = files w ∧ stored c w0 coll id = Some ct) as Hlive.
    { intros HF. destruct Hsrc as (data & Hdec & [[Hf Hsame]|(_ & Habs & _)]).
      - split; [done|]. unfold stored. by rewrite <- (sk_files _ _ Hsc HF), Hf.
      - specialize (Habs HF). specialize (Hl HF Hfile).
        rewrite Hid, <- doc_file_in_dir, <- (sk_files _ _ Hsc HF), Habs in Hl. by destruct Hl. }
    assert (∀ R sc' w2 n, held 0 (2 * n) w1 w2 → w_fs w2 = w_fs w1 → written_more sc sc' n →
      (∀ w3, scan_ok sc' w3 → R sc' w3) → wp (zdb_doc_close (Some d);; ret sc') R w2) as Hclose.
    { intros R sc' w2 n. apply (wp_close_scanned _ _ _ _ w); [exact Hsc|apply Hoa|exact Hs1|].
      intros HF. apply Hlive, HF. }
    pose proof (opened_satisfies _ _ _ _ q Hoa) as Hsat. destruct Hsc as [_ _ _ Hr0 Hcap0 Hm0].
    apply wp_bind. destruct (zdb_doc_matches_query d q) eqn:Hmatch; cycle 1.
    { apply wp_ret. eapply (Hclose _ _ _ 0); [apply held_refl|done|split; [lia|done|done|done]|].
      intros w3 Hsc3. apply Hskip; [done|]. intros HF HH id' ct' [_ _ _ Hst' Hsat'] _ Hn.
      apply Hidinj in Hn as ->. rewrite (proj2 (Hlive HF)) in Hst'. congruence. }
    assert (found_in coll e id ct) as Hfound by (split_and!; [done|done|done|apply Hlive]).
    destruct (out && (length (sc_written sc) <? capacity)) eqn:Hroom; cycle 1.
    { apply wp_ret. eapply (Hclose _ _ _ 0); [apply held_refl|done|split; simpl; [lia|done|done|lia]|].
      intros w3 Hsc3. by eapply Hcount. }
    apply andb_true_iff in Hroom as [Hout Hroom%Nat.ltb_lt]. apply wp_report; [done|done|..].
    + intros w2 H2 G2 Hno. eapply (Hclose _ _ _ 0); [done|done|split; simpl; [lia|done|done|lia]|].
      intros w3 Hsc3. by apply Hoom.
    + intros w2 H2 G2. eapply (Hclose _ _ _ 1); [done|done|split; simpl; rewrite ?length_app; simpl|].
      * done.
      * apply Forall_app. split; [done|]. apply Forall_singleton.
        exists coll, id, ct, d. pose proof doc_count_range. pose proof (dk_count _ (oa_ok _ _ _ _ Hoa)) as Hcnt.
        rewrite (dk_max _ (oa_ok _ _ _ _ Hoa)) in Hcnt.
        split_and!; [done|done|done|done|apply Hoa|apply Hoa| |apply Hlive].
        simpl. rewrite length_doc_fields by apply Hoa. unfold u32. apply Z.mod_small. lia.
      * rewrite Hout. lia.
      * lia.
      * intros w3 Hsc3. eapply Hwrite; [exact Hfound|done| |exact Hsc3]. split_and!; [done|done|apply Hoa|apply Hoa].
  - intros st d w1 Hst Hs1 Hf1 Hno. assert (scan_ok sc w1) as Hsc1.
    { eapply (scan_ok_step sc sc _ _ 0); [exact Hsc|exact Hs1|by intros _|lia|apply Hsc|apply Hsc|apply Hsc]. }
    assert (Q sc w1) as HQ1; [|by destruct st; try done; apply wp_ret].
    apply Hskip; [done|]. intros HF HH id' ct [Hv _ Hstor Hstd _] _ Hn. apply Hidinj in Hn as ->.
    apply Hno; [done| |done]. split_and!; [done|done|].
    unfold stored in Hstd. rewrite <- (sk_files _ _ Hsc HF) in Hstd.
    destruct (files w !! _) as [data|] eqn:Hd; [|done]. exists data. split; [|by left]. cbn in Hstd. congruence.
Qed.

Lemma wp_scan_entry db coll e sc (Q : scan_state → W → Prop) w :
  db = Some the_db → scan_ok sc w → (sc_matched sc < limit)%Z → c_string coll → listed coll e →
  (∀ sc' w', scan_ok sc' w' → Q sc' w') →
  wp (scan_entry db q out capacity coll e sc) Q w.
Proof. intros Hdb Hsc Hlim Hcs Hl HQ. apply wp_scan_entry_cases; try done; intros; by apply HQ. Qed.

(** ** The directory loops *)

Lemma wp_readdir_step dir (Q : Z * fs_dirent * DH → W → Prop) w :
  (∀ rc e dir' fs', (rc < 0)%Z ∨ (rc = 0%Z ∧ de_name e = []) → fs_files fs' = files w →
     Q (rc, e, dir') (w <| w_fs := fs' |>)) →
  (∀ e es dir' fs', dh_rest dir = e :: es → dh_rest dir' = es → fs_files fs' = files w →
     Q (0%Z, e, dir') (w <| w_fs := fs' |>)) →
  wp (on_fs (fs_readdir dir)) Q w.
Proof.
  intros Hend Hnext. apply wp_on_fs. intros [[rc e] dir'] fs' Heq.
  pose proof (fs_readdir_law dir (w_fs w)) as [Hf Hl]; rewrite Heq in Hf, Hl; cbn [fst snd] in Hf, Hl.
  destruct Hl as [Hrc|[-> Hl]]; [apply Hend; [by left|done]|].
  destruct (dh_rest dir) as [|e' es] eqn:Hr.
  - destruct Hl as [Hn _]. apply Hend; [by right|done].
  - destruct Hl as [-> Hes]. by apply (Hnext e' es).
Qed.

Lemma wp_scan_docs fuel coll dir sc (Q : scan_state * DH → W → Prop) w :
  scan_ok sc w → c_string coll → Forall (listed coll) (dh_rest dir) →
  (∀ sc' dir' w', scan_ok sc' w' → Q (sc', dir') w') →
  wp (scan_docs fuel (Some the_db) q limit out capacity coll dir sc) Q w.
Proof.
  revert dir sc w. induction fuel as [|fuel IH]; intros dir sc w Hsc Hcs Hl HQ; [by apply wp_ret, HQ|].
  cbn [scan_docs]. destruct (scan_going limit sc) eqn:Hgo; cbn [negb]; [|by apply wp_ret, HQ].
  apply andb_true_iff in Hgo as [_ Hlim%Z.ltb_lt]. apply wp_bind, wp_readdir_step.
  - intros rc e dir' fs' Hend Hf. assert (negb (rc =? 0)%Z || bool_decide (de_name e = []) = true) as ->.
    { destruct Hend as [Hrc|[_ Hn]]; [by rewrite (proj2 (Z.eqb_neq _ _)) by lia|].
      rewrite bool_decide_true by done. apply orb_true_r. }
    by apply wp_ret, HQ, scan_ok_fs.
  - intros e es dir' fs' Hr Hes Hf. rewrite Hr in Hl. apply Forall_cons in Hl as [He Hl].
    rewrite Z.eqb_refl, bool_decide_false by apply He. cbn [negb orb].
    apply wp_bind, wp_scan_entry; [done|by apply scan_ok_fs|done|done|done|].
    intros sc' w' Hsc'. apply IH; [done|done|by rewrite Hes|done].
Qed.

Lemma listing_of p dir (Q : Z * DH → W → Prop) w :
  (∀ rc dir' fs', (rc < 0)%Z → fs_files fs' = files w → Q (rc, dir') (w <| w_fs := fs' |>)) →
  (∀ dir' fs', fs_files fs' = files w →
     Forall (λ e, file_name (de_name e) ∧ (de_type' e = FS_DIR_ENTRY_FILE →
       is_Some (files w !! (p ++ s2b "/" ++ de_name e)))) (dh_rest dir') →
     Q (0%Z, dir') (w <| w_fs := fs' |>)) →
  wp (on_fs (fs_opendir dir p)) Q w.
Proof.
  intros Hbad Hok. apply wp_on_fs. intros [rc dir'] fs' Heq.
  pose proof (fs_opendir_law dir p (w_fs w)) as [Hf Hl]; rewrite Heq in Hf, Hl; cbn [fst snd] in Hf, Hl.
  destruct Hl as [Hrc|(-> & Hn & Hiff)]; [by apply Hbad|]. apply Hok; [done|].
  rewrite Forall_forall in Hn |- *. intros e He. split; [by apply Hn|]. intros Hfile.
  apply (Hiff (de_name e)); [by apply Hn|]. by exists e.
Qed.

Lemma wp_closedir dir (Q : Z → W → Prop) w :
  (∀ rc fs', fs_files fs' = files w → Q rc (w <| w_fs := fs' |>)) → wp (on_fs (fs_closedir dir)) Q w.
Proof.
  intros HQ. apply wp_on_fs. intros rc fs' Heq. apply HQ.
  pose proof (fs_closedir_law dir (w_fs w)) as Hl. by rewrite Heq in Hl.
Qed.

Lemma wp_scan_collection e sc (Q : scan_state → W → Prop) w :
  scan_ok sc w → file_name (de_name e) → (∀ sc' w', scan_ok sc' w' → Q sc' w') →
  wp (scan_collection (Some the_db) q limit out capacity e sc) Q w.
Proof.
  intros Hsc (_ & Hcs & _) HQ. unfold scan_collection. case_bool_decide; cbn [negb]; [|by apply wp_ret, HQ].
  apply wp_bind, wp_db_get. rewrite (scan_ok_cfg _ _ Hsc).
  destruct (zdb_doc_build_collection_path _ _ _) as [rc|p] eqn:Hp; [by apply wp_ret, HQ|].
  assert (p = coll_dir c (de_name e)) as ->.
  { unfold zdb_doc_build_collection_path, fit_path in Hp. destruct (de_name e); [done|].
    case_match; [done|]. by injection Hp as <-. }
  apply wp_bind, listing_of.
  - intros rc dir fs' Hrc Hf. rewrite (proj2 (Z.ltb_lt _ _)) by done. by apply wp_ret, HQ, scan_ok_fs.
  - intros dir fs' Hf Hl. change (0 <? 0)%Z with false. cbn iota.
    apply wp_bind, wp_scan_docs; [by apply scan_ok_fs|done| |].
    + eapply Forall_impl; [exact Hl|]. intros e' [Hn Hs]. split; [done|]. intros HF Hfile.
      rewrite <- (sk_files _ _ Hsc HF). by apply Hs.
    + intros sc' dir' w' Hsc'. apply wp_bind, wp_closedir. intros rc fs2 Hf2. by apply wp_ret, HQ, scan_ok_fs.
Qed.

Lemma wp_scan_collections fuel dir sc (Q : scan_state * DH → W → Prop) w :
  scan_ok sc w → Forall (λ e, file_name (de_name e)) (dh_rest dir) →
  (∀ sc' dir' w', scan_ok sc' w' → Q (sc', dir') w') →
  wp (scan_collections fuel (Some the_db) q limit out capacity dir sc) Q w.
Proof.
  revert dir sc w. induction fuel as [|fuel IH]; intros dir sc w Hsc Hl HQ; [by apply wp_ret, HQ|].
  cbn [scan_collections]. destruct (scan_going limit sc); cbn [negb]; [|by apply wp_ret, HQ].
  apply wp_bind, wp_readdir_step.
  - intros rc e dir' fs' Hend Hf. assert (negb (rc =? 0)%Z || bool_decide (de_name e = []) = true) as ->.
    { destruct Hend as [Hrc|[_ Hn]]; [by rewrite (proj2 (Z.eqb_neq _ _)) by lia|].
      rewrite bool_decide_true by done. apply orb_true_r. }
    by apply wp_ret, HQ, scan_ok_fs.
  - intros e es dir' fs' Hr Hes Hf. rewrite Hr in Hl. apply Forall_cons in Hl as [He Hl].
    rewrite Z.eqb_refl, bool_decide_false by apply He. cbn [negb orb].
    apply wp_bind, wp_scan_collection; [by apply scan_ok_fs|done|].
    intros sc' w' Hsc'. apply IH; [done|by rewrite Hes|done].
Qed.
End scan.

(** ** Enough fuel *)

(** One round of a directory loop: it ends, or goes on with fewer entries. *)
Lemma readdir_round {A} dir w (stop : Z * fs_dirent * DH → M W A) (go1 go2 : fs_dirent → DH → M W A) :
  (∀ e dir', length (dh_rest dir') < length (dh_rest dir) → ∀ w', go1 e dir' w' = go2 e dir' w') →
  let round go := ('(rc, e, dir') ← on_fs (fs_readdir dir);
    if negb (rc =? 0)%Z || bool_decide (de_name e = []) then stop (rc, e, dir') else go e dir') in
  round go1 w = round go2 w.
Proof.
  intros Hgo. cbv zeta. unfold bind, on_fs.
  pose proof (fs_readdir_law dir (w_fs w)) as [_ Hl].
  destruct (fs_readdir dir (w_fs w)) as [[[rc e] dir'] fs']; cbn [fst snd] in *.
  destruct (negb (rc =? 0)%Z || bool_decide (de_name e = [])) eqn:Hend; [done|]. apply Hgo.
  apply orb_false_iff in Hend as [Hz%negb_false_iff%Z.eqb_eq Hn%bool_decide_eq_false].
  destruct Hl as [Hrc|[_ Hl]]; [lia|].
  destruct (dh_rest dir); [by destruct Hl|]. destruct Hl as [_ ->]. simpl. lia.
Qed.

(** The loops give the same result with any fuel above the number of entries. *)
Lemma scan_docs_fuel f1 f2 db q limit out capacity coll dir sc w :
  length (dh_rest dir) < f1 → length (dh_rest dir) < f2 →
  scan_docs f1 db q limit out capacity coll dir sc w = scan_docs f2 db q limit out capacity coll dir sc w.
Proof.
  revert f2 dir sc w. induction f1 as [|f1 IH]; intros [|f2] dir sc w H1 H2; [lia..|]. cbn [scan_docs].
  destruct (scan_going limit sc); cbn [negb]; [|done].
  apply (readdir_round dir w (λ r, ret (sc, r.2))
    (λ e dir', sc ← scan_entry db q out capacity coll e sc; scan_docs f1 db q limit out capacity coll dir' sc)
    (λ e dir', sc ← scan_entry db q out capacity coll e sc; scan_docs f2 db q limit out capacity coll dir' sc)).
  intros e dir' Hlt w'. unfold bind. apply IH; lia.
Qed.

Lemma scan_collections_fuel f1 f2 db q limit out capacity dir sc w :
  length (dh_rest dir) < f1 → length (dh_rest dir) < f2 →
  scan_collections f1 db q limit out capacity dir sc w = scan_collections f2 db q limit out capacity dir sc w.
Proof.
  revert f2 dir sc w. induction f1 as [|f1 IH]; intros [|f2] dir sc w H1 H2; [lia..|]. cbn [scan_collections].
  destruct (scan_going limit sc); cbn [negb]; [|done].
  apply (readdir_round dir w (λ r, ret (sc, r.2))
    (λ e dir', sc ← scan_collection db q limit out capacity e sc; scan_collections f1 db q limit out capacity dir' sc)
    (λ e dir', sc ← scan_collection db q limit out capacity e sc; scan_collections f2 db q limit out capacity dir' sc)).
  intros e dir' Hlt w'. unfold bind. apply IH; lia.
Qed.

(** ** The whole query *)

Record query_result c (q : zdb_doc_query_t) (out : bool) (capacity : nat) w (st : zdb_status_t)
    (l : list zdb_doc_metadata_t) (count : option nat) w' : Prop := {
  qr_step : doc_step 0 (2 * length l) w w';
  qr_files : FsLive FS FH DH → files w' = files w;
  qr_reported : Forall (reported c q w) l;
  qr_capacity : length l ≤ if out then capacity else 0;
  qr_limit : qu_limit q ≠ 0%Z → (length l ≤ qu_limit q)%Z;
  qr_count : st = ZDB_OK → ∃ n, count = Some n ∧
    (out = true → 0 < capacity → n = length l) ∧ (qu_limit q ≠ 0%Z → (n ≤ qu_limit q)%Z);
  qr_fail : st ≠ ZDB_OK → l = [];
}.

Lemma query_result_none c q out capacity w st count w' :
  (0 ≤ qu_limit q)%Z → doc_step 0 0 w w' → files w' = files w →
  (st = ZDB_OK → count = Some 0) → query_result c q out capacity w st [] count w'.
Proof.
  intros Hq Hs Hf Hc. split; try done; simpl; [apply Nat.le_0_l|]. intros Hst. exists 0. rewrite (Hc Hst).
  split_and!; [done|done|lia].
Qed.

Lemma wp_doc_query c q out capacity (Q : zdb_status_t * list zdb_doc_metadata_t * option nat → W → Prop) w :
  cfg (w_db w) = Some c → (0 ≤ qu_limit q < 2 ^ 32)%Z →
  (∀ st l count w', query_result c q out capacity w st l count w' → Q (st, l, count) w') →
  wp (zdb_doc_query (Some the_db) (Some q) out (Some capacity)) Q w.
Proof.
  intros Hcfg Hq HQ. unfold zdb_doc_query. apply wp_bind, wp_db_get. rewrite Hcfg. cbn [mbind option_bind].
  destruct (lfs_mount_point c) as [m|] eqn:Hm; cycle 1.
  { apply wp_ret, HQ, query_result_none; [lia|apply doc_step_refl|done|done]. }
  set (limit := if (qu_limit q =? 0)%Z then UINT32_LIMIT else qu_limit q).
  assert (0 ≤ limit ∧ (qu_limit q ≠ 0 → limit = qu_limit q))%Z as [Hlim Hlimq].
  { unfold limit, UINT32_LIMIT. destruct (Z.eqb_spec (qu_limit q) 0); lia. }
  apply wp_bind, wp_doc_lock_read; cycle 1.
  { intros w1 H1 G1 _. apply wp_ret, HQ, query_result_none; [lia|by apply doc_step_held|apply H1|done]. }
  intros w1 Hlk. rewrite bool_decide_true by done. cbn [negb].
  assert (files w1 = files w) as Hf1 by (unfold files; by rewrite (lk_fs _ _ Hlk)).
  destruct (zdb_doc_build_root_path _ _) as [rc|root] eqn:Hroot.
  { apply wp_bind. eapply wp_doc_unlock_read; [exact Hlk|apply (doc_step_refl 0)|]. intros w2 Hs2 G2.
    apply wp_ret, HQ, query_result_none; [lia|done|unfold files in *; congruence|].
    intros Hst. apply status_from_errno_ok in Hst. subst rc. unfold zdb_doc_build_root_path, fit_path in Hroot.
    by repeat case_match. }
  apply wp_bind, listing_of.
  - intros rc dir fs' Hrc Hf. rewrite (proj2 (Z.ltb_lt _ _)) by done. apply wp_bind.
    eapply wp_doc_unlock_read; [exact Hlk|apply doc_step_fs|]. intros w3 Hs3 G3. apply wp_ret, HQ.
    apply query_result_none; [lia|done| |done]. rewrite <- Hf1, <- Hf. unfold files. by rewrite G3.
  - intros dir fs' Hf Hl. change (0 <? 0)%Z with false. cbn iota. apply wp_bind.
    eapply (wp_scan_collections c q limit out capacity w1).
    + apply scan_ok_fs; [|exact Hf]. split; [by rewrite (lk_db _ _ Hlk)|apply doc_step_refl|done|done|simpl; lia|simpl; lia].
    + eapply Forall_impl; [exact Hl|]. by intros e [? _].
    + intros sc dir' w2 [_ Hs2 Hf2 Hr2 Hcap2 Hm2]. apply wp_bind, wp_closedir. intros rc fs3 Hf3. apply wp_bind.
      eapply wp_doc_unlock_read; [exact Hlk|eapply doc_step_trans; [exact Hs2|apply doc_step_fs]|].
      intros w4 Hs4 G4. apply wp_ret, HQ. split; [done| | |done|lia| |done].
      * intros HF. rewrite <- Hf1, <- (Hf2 HF), <- Hf3. unfold files. by rewrite G4.
      * eapply Forall_impl; [exact Hr2|]. intros x (coll & id & ct & d & Hx). exists coll, id, ct, d.
        unfold stored in *. by rewrite Hf1 in Hx.
      * intros _. eexists. split; [done|]. split.
        -- intros -> Hcap. rewrite (proj2 (Nat.eqb_neq capacity 0)) by lia. cbn [negb orb].
           by destruct (out_of_memory sc).
        -- intros Hne. specialize (Hlimq Hne). destruct (out_of_memory sc); [lia|].
           destruct (_ || _); lia.
Qed.

(** ** Releasing the results *)

Definition metadata_blocks (l : list zdb_doc_metadata_t) : nat :=
  sum_list_with (λ m, opt_block (md_collection_name m) + opt_block (md_document_id m)) l.

Lemma wp_free_entries l (Q : list zdb_doc_metadata_t → W → Prop) w :
  metadata_blocks l ≤ heap_used (w_k w) →
  (∀ w', held (metadata_blocks l) 0 w w' →
     Q (map (λ m, m <| md_collection_name := None |> <| md_document_id := None |>) l) w') →
  wp (free_entries l) Q w.
Proof.
  revert Q w. induction l as [|m l IH]; intros Q w Hh HQ; [apply wp_ret, HQ, held_refl|].
  unfold metadata_blocks in *. cbn [sum_list_with free_entries map] in *.
  apply wp_bind. unfold zdb_doc_metadata_entry_free. apply wp_bind, wp_free_ptr; [lia|].
  intros w1 H1 _. pose proof (he_heap _ _ _ _ H1). apply wp_bind, wp_free_ptr; [lia|].
  intros w2 H2 _. pose proof (he_heap _ _ _ _ H2). apply wp_ret, wp_bind, IH; [lia|].
  intros w3 H3. apply wp_ret, HQ. set (n := sum_list_with _ l) in *.
  eapply (held_trans (opt_block (md_document_id m) + n)).
  { eapply (held_frame (opt_block (md_document_id m) + n)); [| |exact H1]; lia. }
  eapply (held_trans n); [|exact H3]. eapply (held_frame n); [| |exact H2]; lia.
Qed.

Lemma reported_blocks c q w l : Forall (reported c q w) l → metadata_blocks l = 2 * length l.
Proof.
  induction 1 as [|m l (coll & id & ct & d & Hc & Hi & _) _ IH]; [done|].
  unfold metadata_blocks in *. simpl. rewrite Hc, Hi. simpl. lia.
Qed.
End query.
