(* ===== verification/DocQueryAll.v ===== *)
(** * A query misses nothing

    On a volume and a heap that answer, the scan finds every stored document
    that matches, each once, unless the limit or the caller's array is full.
    [found] is the list of the documents found so far. *)

From S2P Require Import Prelude Config Env Types FsEnv FsSpec Events Doubles Doc DocFile DocQuery.
From S2P Require Import DocSpec DocFieldSpec DocHandleSpec DocDecode DocStep DocSaveSpec DocOpenSpec DocOps.
From S2P Require Import DocQuerySpec.

(** A document: its collection and identifier, and its contents. *)
Abbreviation doc_at := (cstring * cstring * doc_contents)%type.

Section scan_all.
Context {Cfg : Config} {CfgOk : ConfigOk Cfg} {K F FS FH DH : Type}.
Context `{!Kernel K, !KernelLaws K, !FileSys FS FH DH, !FileSysLaws FS FH DH}.
Context {CRC : Crc32} {CRCLaws : Crc32Laws}.
Context {Live : FsLive FS FH DH} {DirLive : FsDirLive FS FH DH} {Heap : HeapLive K}.
Abbreviation W := (world K F FS).
Implicit Types (w : W) (sc : scan_state) (found new : list doc_at).
Context (c : zdb_cfg_t) (q : zdb_doc_query_t) (limit : Z) (out : bool) (capacity : nat) (w0 : W).
Abbreviation scan_ok := (scan_ok c q limit out capacity w0).
Abbreviation target := (target c q w0).

(** Whether matches are written to the caller's array. *)
Definition writing : bool := out && (0 <? capacity).

Definition right_match (m : doc_at) : Prop :=
  stored c w0 m.1.1 m.1.2 = Some m.2 ∧ ct_satisfies m.2 q = true.

Record scan_all found sc w : Prop := {
  sa_ok : scan_ok sc w;
  sa_memory : out_of_memory sc = false;
  sa_matched : sc_matched sc = Z.of_nat (length found);
  sa_right : Forall right_match found;
  sa_written : if writing then Forall2 (λ m e, describes m.1.1 m.1.2 m.2 e) found (sc_written sc)
               else sc_written sc = [];
  sa_stop : stop_scan sc = writing && (capacity <=? length (sc_written sc));
}.

Lemma scan_all_fs found sc w fs' :
  scan_all found sc w → fs_files fs' = files w → scan_all found sc (w <| w_fs := fs' |>).
Proof. intros [] Hf. split; try done. by apply scan_ok_fs. Qed.

Lemma scan_going_room found sc w :
  scan_all found sc w → scan_going limit sc = true →
  (sc_matched sc < limit)%Z ∧ out && (length (sc_written sc) <? capacity) = writing.
Proof.
  intros [_ Hm _ _ Hw Hs] Hgo. unfold scan_going in Hgo.
  rewrite Hm, !andb_true_iff, negb_true_iff in Hgo. destruct Hgo as [[Hns _] Hlt%Z.ltb_lt]. split; [done|].
  rewrite Hs in Hns. unfold writing in *. destruct out; [|done]. cbn [andb] in *.
  destruct (Nat.ltb_spec 0 capacity); cbn [andb] in *.
  - apply Nat.leb_gt in Hns. by apply Nat.ltb_lt.
  - apply Nat.ltb_ge. lia.
Qed.

(** What a part of the scan adds: documents that satisfy [P], each once, and,
    where the scan may go on, every target that satisfies [P]. *)
Record scanned (P : cstring → cstring → Prop) found found' sc' w' : Prop := {
  sd_all : scan_all found' sc' w';
  sd_new : ∃ new, found' = found ++ new ∧ Forall (λ m, P m.1.1 m.1.2) new ∧ NoDup new.*1 ∧
    (scan_going limit sc' = true → ∀ coll id ct, target coll id ct → P coll id → (coll, id, ct) ∈ new);
}.

Lemma scanned_none P found sc w :
  scan_all found sc w →
  (scan_going limit sc = true → ∀ coll id ct, target coll id ct → P coll id → False) →
  scanned P found found sc w.
Proof.
  intros Hsa Hno. split; [done|]. exists []. rewrite app_nil_r. split_and!; [done|constructor|constructor|].
  intros Hgo coll id ct Ht HP. by destruct (Hno Hgo coll id ct).
Qed.

Lemma scanned_fs P found found' sc w fs' :
  scanned P found found' sc w → fs_files fs' = files w → scanned P found found' sc (w <| w_fs := fs' |>).
Proof. intros [Ha Hnew] Hf. split; [by apply scan_all_fs|exact Hnew]. Qed.

(** Two parts of a scan that look at different documents. *)
Lemma scanned_app P1 P2 (P : cstring → cstring → Prop) f0 f1 s1 w1 f2 s2 w2 :
  scanned P1 f0 f1 s1 w1 → scanned P2 f1 f2 s2 w2 →
  (scan_going limit s2 = true → scan_going limit s1 = true) →
  (∀ coll id, P1 coll id → P2 coll id → False) →
  (∀ coll id, P coll id ↔ P1 coll id ∨ P2 coll id) →
  scanned P f0 f2 s2 w2.
Proof.
  intros [_ (n1 & -> & Hp1 & Hd1 & Ha1)] [Hall (n2 & -> & Hp2 & Hd2 & Ha2)] Hgo Hdisj HP.
  split; [done|]. exists (n1 ++ n2). rewrite app_assoc. split_and!; [done|..].
  - apply Forall_app. split; eapply Forall_impl; try done; intros m Hm; apply HP; auto.
  - rewrite fmap_app. apply NoDup_app. split_and!; [done| |done].
    intros k ([k' v] & -> & H1)%list_elem_of_fmap ([k2 v2] & Hk & H2)%list_elem_of_fmap.
    rewrite Forall_forall in Hp1, Hp2. specialize (Hp1 _ H1). specialize (Hp2 _ H2). cbn in *. subst.
    by eapply Hdisj.
  - intros Hg coll id ct Ht [H1|H2]%HP; apply elem_of_app; [left; by apply Ha1, H1; auto|right; by apply Ha2].
Qed.

(** ** One entry *)

(** The document of a directory entry of the collection [coll]. *)
Definition of_entry coll (e : fs_dirent) (cl id : cstring) : Prop :=
  cl = coll ∧ de_type' e = FS_DIR_ENTRY_FILE ∧ de_name e = id ++ ZDB_DOC_FILE_EXT.

(** A match has been added. *)
Lemma scan_all_add coll e id ct found sc sc' w w' :
  scan_all found sc w → scan_ok sc' w' → found_in c q w0 coll e id ct →
  out_of_memory sc' = false → sc_matched sc' = Z.succ (sc_matched sc) →
  (if writing then ∃ m, sc_written sc' = sc_written sc ++ [m] ∧ describes coll id ct m
   else sc_written sc' = sc_written sc) →
  stop_scan sc' = writing && (capacity <=? length (sc_written sc')) →
  scanned (of_entry coll e) found (found ++ [(coll, id, ct)]) sc' w'.
Proof.
  intros [_ Hm Hma Hr Hw Hs] Hok (Hty & Hn & Hsat & Hst) Hm' Hma' Hw' Hs'. specialize (Hst _).
  split.
  - split; [done|done|rewrite Hma', Hma, length_app; simpl; lia| | |done].
    + apply Forall_app. split; [done|]. by apply Forall_singleton.
    + destruct writing; [|congruence]. destruct Hw' as (m & -> & Hd). apply Forall2_app; [done|].
      by constructor.
  - exists [(coll, id, ct)]. split_and!; [done|by repeat constructor|apply NoDup_singleton|].
    intros _ cl id' ct' [_ _ _ Hst' _] (-> & _ & Hn'). rewrite Hn in Hn'. apply app_inv_tail in Hn' as <-.
    rewrite Hst in Hst'. injection Hst' as <-. by left.
Qed.

Lemma wp_scan_entry_all coll e found sc (Q : scan_state → W → Prop) w :
  scan_all found sc w → scan_going limit sc = true → c_string coll → listed c w0 coll e →
  (∀ found' sc' w', scanned (of_entry coll e) found found' sc' w' → Q sc' w') →
  wp (scan_entry (Some the_db) q out capacity coll e sc) Q w.
Proof.
  intros Hsa Hgo Hcs Hl HQ. destruct (scan_going_room _ _ _ Hsa Hgo) as [Hlt Hroom].
  pose proof Hsa as [Hok Hm Hma Hr Hw Hs].
  assert (stop_scan sc = false) as Hns.
  { unfold scan_going in Hgo. rewrite !andb_true_iff, negb_true_iff in Hgo. apply Hgo. }
  eapply wp_scan_entry_cases; [done|exact Hok|done|done|exact Hl|..]; rewrite ?Hroom.
  - intros w' Hok' Hno. eapply HQ, scanned_none; [by split|].
    intros _ cl id ct Ht (-> & Hty & Hn). by eapply Hno.
  - intros id ct w' Hf Hnw sc' Hok'. eapply HQ, (scan_all_add _ _ _ _ _ sc); try done; by rewrite ?Hnw.
  - intros id ct m w' Hf Hyw Hd wr sc' Hok'. eapply HQ, (scan_all_add _ _ _ _ _ sc); try done; rewrite Hyw; [by exists m|].
    cbn. by rewrite Hns.
  - intros w' Hno. done.
Qed.

(** ** The directory loops *)

Definition entry_key (e : fs_dirent) : fs_dir_entry_type * list byte := (de_type' e, de_name e).

Lemma wp_readdir_all dir (Q : Z * fs_dirent * DH → W → Prop) w :
  (∀ e dir' fs', dh_rest dir = [] → de_name e = [] → fs_files fs' = files w →
     Q (0%Z, e, dir') (w <| w_fs := fs' |>)) →
  (∀ e es dir' fs', dh_rest dir = e :: es → dh_rest dir' = es → fs_files fs' = files w →
     Q (0%Z, e, dir') (w <| w_fs := fs' |>)) →
  wp (on_fs (fs_readdir dir)) Q w.
Proof.
  intros Hend Hnext. apply wp_on_fs. intros [[rc e] dir'] fs' Heq.
  pose proof (fs_readdir_law dir (w_fs w)) as [Hf Hl]. pose proof (live_readdir dir (w_fs w)) as Hrc.
  rewrite Heq in Hf, Hl, Hrc; cbn [fst snd] in *.
  destruct Hl as [|[-> Hl]]; [lia|]. destruct (dh_rest dir) as [|e' es] eqn:Hr.
  - destruct Hl as [Hn _]. by apply Hend.
  - destruct Hl as [-> Hes]. by apply (Hnext e' es).
Qed.

Lemma wp_scan_docs_all fuel coll dir found sc (Q : scan_state * DH → W → Prop) w :
  scan_all found sc w → c_string coll → Forall (listed c w0 coll) (dh_rest dir) →
  NoDup (map entry_key (dh_rest dir)) → length (dh_rest dir) < fuel →
  (∀ found' sc' dir' w',
     scanned (λ cl id, ∃ e, e ∈ dh_rest dir ∧ of_entry coll e cl id) found found' sc' w' →
     (scan_going limit sc' = true → scan_going limit sc = true) → Q (sc', dir') w') →
  wp (scan_docs fuel (Some the_db) q limit out capacity coll dir sc) Q w.
Proof.
  revert dir found sc w Q.
  induction fuel as [|fuel IH]; intros dir found sc w Q Hsa Hcs Hl Hnd Hfuel HQ; [lia|].
  cbn [scan_docs]. destruct (scan_going limit sc) eqn:Hgo; cbn [negb]; cycle 1.
  { eapply wp_ret, HQ; [|by rewrite Hgo]. apply scanned_none; [done|]. by rewrite Hgo. }
  apply wp_bind, wp_readdir_all.
  - intros e dir' fs' Hr Hn Hf. rewrite bool_decide_true by done. rewrite orb_true_r.
    eapply wp_ret, HQ; [|done]. apply scanned_none; [by apply scan_all_fs|]. rewrite Hr.
    intros _ ? ? ? _ (e' & He & _). by apply elem_of_nil in He.
  - intros e es dir' fs' Hr Hes Hf. rewrite Hr in *. apply Forall_cons in Hl as [He Hl].
    cbn [map] in Hnd. apply NoDup_cons in Hnd as [Hne Hnd]. cbn [length] in Hfuel.
    rewrite Z.eqb_refl, bool_decide_false by apply He. cbn [negb orb].
    apply wp_bind. eapply wp_scan_entry_all; [by apply scan_all_fs|done|done|done|].
    intros f1 s1 w1 Hs1. rewrite <- Hes in Hl, Hnd.
    eapply IH; [apply Hs1|done|done|done|rewrite Hes; lia|]. rewrite Hes.
    intros f2 s2 dir2 w2 Hs2 Hgo2. eapply HQ; [|done].
    eapply (scanned_app (of_entry coll e) (λ cl id, ∃ e, e ∈ es ∧ of_entry coll e cl id)); [done|done|done|..].
    + intros cl id (_ & Hty & Hn) (e' & Hin & _ & Hty' & Hn'). apply Hne.
      replace (entry_key e) with (entry_key e') by (unfold entry_key; congruence). by apply list_elem_of_fmap_2.
    + intros cl id. split.
      * intros (e' & [->|Hin]%elem_of_cons & He'); [by left|right; by exists e'].
      * intros [H|(e' & Hin & He')]; [exists e|exists e']; (split; [|done]); [by left|by right].
Qed.

(** ** Directories *)

(** What opening a directory says of the files of the volume. *)
Definition lists_all p w (es : list fs_dirent) : Prop :=
  NoDup (map entry_key es) ∧
  (∀ name d, file_name name → files w !! (p ++ [Byte.x2f] ++ name) = Some d →
     ∃ e, e ∈ es ∧ de_name e = name ∧ de_type' e = FS_DIR_ENTRY_FILE) ∧
  (∀ name rest, file_name name → is_Some (files w !! (p ++ [Byte.x2f] ++ name ++ [Byte.x2f] ++ rest)) →
     ∃ e, e ∈ es ∧ de_name e = name ∧ de_type' e = FS_DIR_ENTRY_DIR).

Lemma wp_opendir_all p dir (Q : Z * DH → W → Prop) w :
  (∀ rc dir' fs', (rc < 0)%Z → (∀ rest, files w !! (p ++ [Byte.x2f] ++ rest) = None) → fs_files fs' = files w →
     Q (rc, dir') (w <| w_fs := fs' |>)) →
  (∀ dir' fs', fs_files fs' = files w → lists_all p w (dh_rest dir') →
     Forall (λ e, file_name (de_name e) ∧ (de_type' e = FS_DIR_ENTRY_FILE →
       is_Some (files w !! (p ++ s2b "/" ++ de_name e)))) (dh_rest dir') →
     Q (0%Z, dir') (w <| w_fs := fs' |>)) →
  wp (on_fs (fs_opendir dir p)) Q w.
Proof.
  intros Hbad Hok. apply wp_on_fs. intros [rc dir'] fs' Heq.
  pose proof (fs_opendir_law dir p (w_fs w)) as [Hf Hl]. pose proof (opendir_distinct dir p (w_fs w)) as Hnd.
  pose proof (λ rest, live_opendir dir p rest (w_fs w)) as Hlive.
  pose proof (λ name rest, opendir_dirs dir p name rest (w_fs w)) as Hdirs.
  rewrite Heq in Hf, Hl, Hnd, Hlive, Hdirs; cbn [fst snd] in *.
  destruct Hl as [Hrc|(-> & Hn & Hiff)].
  - apply Hbad; [done| |done]. intros rest. destruct (files w !! _) eqn:Hr; [|done].
    specialize (Hlive rest). unfold files in Hr. rewrite Hr in Hlive. specialize (Hlive ltac:(by eexists)). lia.
  - apply Hok; [done| |].
    + split_and!; [by apply Hnd| |intros name rest Hnm Hs; by apply (Hdirs name rest)]. intros name d Hname Hd. apply Hiff; [done|by exists d].
    + rewrite Forall_forall in Hn |- *. intros e He. split; [by apply Hn|]. intros Hfile.
      apply (Hiff (de_name e)); [by apply Hn|]. by exists e.
Qed.

Lemma scanned_weaken (P P' : cstring → cstring → Prop) found found' sc w :
  scanned P found found' sc w → (∀ coll id, P coll id → P' coll id) →
  (∀ coll id ct, target coll id ct → P' coll id → P coll id) → scanned P' found found' sc w.
Proof.
  intros [Hall (new & -> & Hp & Hd & Ha)] HP HP'. split; [done|]. exists new. split_and!; [done| |done|].
  - eapply Forall_impl; [exact Hp|]. intros m. apply HP.
  - intros Hgo coll id ct Ht H. eapply Ha; eauto.
Qed.

(** The paths of a target. *)
Lemma target_names coll id ct :
  target coll id ct → file_name coll ∧ file_name (id ++ ZDB_DOC_FILE_EXT).
Proof.
  intros [Hv [Hc Hi] _ _ _]. destruct (names_valid_slash _ _ Hv) as [Hnc Hni].
  assert (coll ≠ []) as Hne by (by intros ->).
  assert (∀ b, b ∉ id → b ∉ ZDB_DOC_FILE_EXT → b ∉ id ++ ZDB_DOC_FILE_EXT) as Happ.
  { intros b H1 H2. rewrite elem_of_app. by intros [?|?]. }
  split; [done|]. split_and!; [by destruct id|apply Happ; [done|]|apply Happ; [done|]];
    apply (bool_decide_unpack _); vm_compute; exact I.
Qed.

Lemma target_file coll id ct : target coll id ct → is_Some (files w0 !! doc_file c coll id ZDB_DOC_FILE_EXT).
Proof. intros [_ _ _ Hst _]. unfold stored in Hst. by destruct (files w0 !! _). Qed.

Lemma wp_scan_collection_all e found sc (Q : scan_state → W → Prop) w :
  scan_all found sc w → scan_going limit sc = true → file_name (de_name e) →
  (∀ found' sc' w', scanned (λ cl id, de_type' e = FS_DIR_ENTRY_DIR ∧ cl = de_name e) found found' sc' w' → Q sc' w') →
  wp (scan_collection (Some the_db) q limit out capacity e sc) Q w.
Proof.
  intros Hsa Hgo (Hne & Hcs & Hns) HQ. unfold scan_collection.
  case_bool_decide as Hdir; cbn [negb]; cycle 1.
  { eapply wp_ret, HQ, scanned_none; [done|]. by intros _ ? ? ? _ [? _]. }
  pose proof (sa_ok _ _ _ Hsa) as Hok. apply wp_bind, wp_db_get. rewrite (scan_ok_cfg _ _ _ _ _ _ _ _ Hok).
  destruct (zdb_doc_build_collection_path _ _ _) as [rc|p] eqn:Hp.
  { eapply wp_ret, HQ, scanned_none; [done|]. intros _ cl id ct [_ _ Hstor _ _] [_ ->].
    destruct Hstor as (_ & _ & Hlen). unfold zdb_doc_build_collection_path, fit_path in Hp.
    destruct (de_name e) as [|b nm] eqn:Hnm; [done|]. rewrite <- Hnm in *.
    change (default [] (mount_of <$> Some c)) with (mount_of c) in Hp.
    destruct (Nat.leb_spec ZDB_DOC_PATH_MAX (length (mount_of c ++ s2b "/" ++ ZDB_DOC_DIRNAME ++ s2b "/" ++ de_name e))); [|done].
    unfold doc_file in Hlen. rewrite !length_app in *. lia. }
  assert (p = coll_dir c (de_name e)) as ->.
  { unfold zdb_doc_build_collection_path, fit_path in Hp. destruct (de_name e); [done|].
    case_match; [done|]. by injection Hp as <-. }
  assert (files w = files w0) as Hfw by (by apply (sk_files _ _ _ _ _ _ _ _ Hok)).
  apply wp_bind, wp_opendir_all.
  - intros rc dir fs' Hrc Hnone Hf. rewrite (proj2 (Z.ltb_lt _ _)) by done.
    eapply wp_ret, HQ, scanned_none; [by apply scan_all_fs|]. intros _ cl id ct Ht [_ ->].
    apply target_file in Ht as [d Hd]. rewrite doc_file_in_dir in Hd.
    specialize (Hnone (id ++ ZDB_DOC_FILE_EXT)). rewrite Hfw in Hnone. change [Byte.x2f] with (s2b "/") in Hnone. congruence.
  - intros dir fs' Hf (Hnd & Hfl & _) Hl. change (0 <? 0)%Z with false. cbn iota.
    apply wp_bind. eapply wp_scan_docs_all; [by apply scan_all_fs|done| |done|lia|].
    + eapply Forall_impl; [exact Hl|]. intros e' [Hn Hs]. split; [done|]. intros _ Hfile. rewrite <- Hfw. by apply Hs.
    + intros f1 s1 dir' w1 Hs1 _. apply wp_bind, wp_closedir. intros rc fs2 Hf2. eapply wp_ret, HQ.
      eapply (scanned_weaken (λ cl id, ∃ e', e' ∈ dh_rest dir ∧ of_entry (de_name e) e' cl id));
        [by apply scanned_fs|by intros cl id (e' & _ & -> & _)|].
      intros cl id ct Ht [_ ->]. destruct (target_names _ _ _ Ht) as [_ Hfn]. apply target_file in Ht as [d Hd].
      rewrite doc_file_in_dir, <- Hfw in Hd. destruct (Hfl _ _ Hfn Hd) as (e' & Hin & Hn & Hty).
      exists e'. by split_and!.
Qed.

Lemma wp_scan_collections_all fuel dir found sc (Q : scan_state * DH → W → Prop) w :
  scan_all found sc w → Forall (λ e, file_name (de_name e)) (dh_rest dir) →
  NoDup (map entry_key (dh_rest dir)) → length (dh_rest dir) < fuel →
  (∀ found' sc' dir' w',
     scanned (λ cl _, ∃ e, e ∈ dh_rest dir ∧ de_type' e = FS_DIR_ENTRY_DIR ∧ cl = de_name e) found found' sc' w' →
     (scan_going limit sc' = true → scan_going limit sc = true) → Q (sc', dir') w') →
  wp (scan_collections fuel (Some the_db) q limit out capacity dir sc) Q w.
Proof.
  revert dir found sc w Q.
  induction fuel as [|fuel IH]; intros dir found sc w Q Hsa Hl Hnd Hfuel HQ; [lia|].
  cbn [scan_collections]. destruct (scan_going limit sc) eqn:Hgo; cbn [negb]; cycle 1.
  { eapply wp_ret, HQ; [|by rewrite Hgo]. apply scanned_none; [done|]. by rewrite Hgo. }
  apply wp_bind, wp_readdir_all.
  - intros e dir' fs' Hr Hn Hf. rewrite bool_decide_true by done. rewrite orb_true_r.
    eapply wp_ret, HQ; [|done]. apply scanned_none; [by apply scan_all_fs|]. rewrite Hr.
    intros _ ? ? ? _ (e' & He & _). by apply elem_of_nil in He.
  - intros e es dir' fs' Hr Hes Hf. rewrite Hr in *. apply Forall_cons in Hl as [He Hl].
    cbn [map] in Hnd. apply NoDup_cons in Hnd as [Hne Hnd]. cbn [length] in Hfuel.
    rewrite Z.eqb_refl, bool_decide_false by apply He. cbn [negb orb].
    apply wp_bind. eapply wp_scan_collection_all; [by apply scan_all_fs|done|done|].
    intros f1 s1 w1 Hs1. rewrite <- Hes in Hl, Hnd.
    eapply IH; [apply Hs1|done|done|rewrite Hes; lia|]. rewrite Hes.
    intros f2 s2 dir2 w2 Hs2 Hgo2. eapply HQ; [|done].
    eapply (scanned_app (λ cl _, de_type' e = FS_DIR_ENTRY_DIR ∧ cl = de_name e)
      (λ cl _, ∃ e', e' ∈ es ∧ de_type' e' = FS_DIR_ENTRY_DIR ∧ cl = de_name e')); [done|done|done|..].
    + intros cl _ [Hty Hn] (e' & Hin & Hty' & Hn'). apply Hne.
      replace (entry_key e) with (entry_key e') by (unfold entry_key; congruence). by apply list_elem_of_fmap_2.
    + intros cl _. split.
      * intros (e' & [->|Hin]%elem_of_cons & He'); [by left|right; by exists e'].
      * intros [H|(e' & Hin & He')]; [exists e|exists e']; (split; [|done]); [by left|by right].
Qed.
End scan_all.

(** ** The whole query *)

Section query_all.
Context {Cfg : Config} {CfgOk : ConfigOk Cfg} {K F FS FH DH : Type}.
Context `{!Kernel K, !KernelLaws K, !FileSys FS FH DH, !FileSysLaws FS FH DH}.
Context {CRC : Crc32} {CRCLaws : Crc32Laws}.
Context {Live : FsLive FS FH DH} {DirLive : FsDirLive FS FH DH} {Heap : HeapLive K}.
Abbreviation W := (world K F FS).
Implicit Types (w : W) (found : list doc_at).

Definition query_limit (q : zdb_doc_query_t) : Z :=
  if (qu_limit q =? 0)%Z then UINT32_LIMIT else qu_limit q.

(** The answer of a query: the documents found, each once and rightly; all of
    them, unless the limit or the array is full. *)
Record answers_all c q (out : bool) (capacity : nat) w found (st : zdb_status_t)
    (l : list zdb_doc_metadata_t) (count : option nat) : Prop := {
  aa_right : Forall (right_match c q w) found;
  aa_once : NoDup found.*1;
  aa_written : if writing out capacity then Forall2 (λ m e, describes m.1.1 m.1.2 m.2 e) found l else l = [];
  aa_count : st = ZDB_OK → count = Some (length found);
  aa_complete : (Z.of_nat (length found) < query_limit q)%Z →
    (writing out capacity = true → length found < capacity) →
    ∀ coll id ct, target c q w coll id ct → (coll, id, ct) ∈ found;
}.

Lemma answers_none c q out capacity w st count :
  (∀ coll id ct, target c q w coll id ct → False) → (st = ZDB_OK → count = Some 0) →
  answers_all c q out capacity w [] st [] count.
Proof.
  intros Hno Hc. split; [constructor|constructor|by destruct (writing _ _)|done|].
  intros _ _ coll id ct Ht. by destruct (Hno coll id ct).
Qed.

Lemma target_files c q w w' coll id ct :
  files w' = files w → target c q w coll id ct → target c q w' coll id ct.
Proof. intros Hf []. split; try done. unfold stored. by rewrite Hf. Qed.

Lemma right_match_files c q w w' m : files w' = files w → right_match c q w m → right_match c q w' m.
Proof. intros Hf [Hs Hq]. split; [|done]. unfold stored in *. by rewrite Hf. Qed.

(** The end of the scan, where nothing was in the way. *)
Lemma scan_all_end c q out capacity w w1 w2 found sc :
  files w1 = files w → scan_all c q (query_limit q) out capacity w1 found sc w2 → NoDup found.*1 →
  (scan_going (query_limit q) sc = true → ∀ coll id ct, target c q w1 coll id ct → (coll, id, ct) ∈ found) →
  answers_all c q out capacity w found ZDB_OK (sc_written sc)
    (Some (if out_of_memory sc then length (sc_written sc)
           else if negb out || (capacity =? 0) then Z.to_nat (sc_matched sc) else length (sc_written sc))).
Proof.
  intros Hf [_ Hmem Hma Hr Hw Hs] Hnd Hall. rewrite Hmem. split; [|done|done|intros _; f_equal|].
  - eapply Forall_impl; [exact Hr|]. intros m. by apply right_match_files.
  - unfold writing in Hw. destruct out; cbn [negb orb andb] in *; [|lia].
    destruct (Nat.eqb_spec capacity 0) as [->|Hne]; [cbn in Hw; lia|].
    rewrite (proj2 (Nat.ltb_lt 0 capacity)) in Hw by lia. by apply Forall2_length in Hw.
  - intros Hlim Hcap coll id ct Ht. eapply Hall; [|by eapply target_files].
    unfold scan_going. rewrite Hmem, Hs, Hma, (proj2 (Z.ltb_lt _ _)) by done. cbn [negb andb]. rewrite andb_true_r.
    destruct (writing out capacity) eqn:Hwr; [|done]. apply Forall2_length in Hw. cbn [andb].
    rewrite <- Hw, (proj2 (Nat.leb_gt _ _)); [done|]. by apply Hcap.
Qed.

Lemma wp_query_all c q out capacity (Q : zdb_status_t * list zdb_doc_metadata_t * option nat → W → Prop) w :
  LockLive K → cfg (w_db w) = Some c → (0 ≤ qu_limit q < 2 ^ 32)%Z →
  (∀ found st l count w', answers_all c q out capacity w found st l count → Q (st, l, count) w') →
  wp (zdb_doc_query (Some the_db) (Some q) out (Some capacity)) Q w.
Proof.
  intros Hlock Hcfg Hq HQ. unfold zdb_doc_query.
  apply wp_bind, wp_db_get. rewrite Hcfg. cbn [mbind option_bind].
  destruct (lfs_mount_point c) as [mp|] eqn:Hm; cycle 1.
  { eapply wp_ret, HQ, answers_none; [|done]. intros coll id ct [_ _ [[? ?] _] _ _]. congruence. }
  fold (query_limit q).
  assert (0 ≤ query_limit q)%Z as Hlim by (unfold query_limit, UINT32_LIMIT; destruct (Z.eqb_spec (qu_limit q) 0); lia).
  apply wp_bind, wp_doc_lock_read; [|by intros w1 _ _ Hno; destruct Hno].
  intros w1 Hlk. rewrite bool_decide_true by done. cbn [negb].
  assert (files w1 = files w) as Hf1 by (unfold files; by rewrite (lk_fs _ _ Hlk)).
  set (root := mount_of c ++ s2b "/" ++ ZDB_DOC_DIRNAME).
  destruct (zdb_doc_build_root_path _ _) as [rc|rp] eqn:Hrp.
  { apply wp_bind. eapply wp_doc_unlock_read; [exact Hlk|apply (doc_step_refl 0)|]. intros w3 _ _.
    unfold zdb_doc_build_root_path, fit_path in Hrp. rewrite bool_decide_false in Hrp by (by rewrite Hm).
    replace (ZDB_DOC_PATH_MAX =? 0) with false in Hrp by done. cbn [orb] in Hrp.
    fold root in Hrp. destruct (Nat.leb_spec ZDB_DOC_PATH_MAX (length root)) as [Hlen|]; [|done]. injection Hrp as <-.
    eapply wp_ret, HQ, answers_none; [|done]. intros coll id ct [_ _ (_ & _ & Hfit) _ _].
    unfold root, doc_file in *. rewrite !length_app in *. lia. }
  assert (rp = root) as ->.
  { unfold zdb_doc_build_root_path, fit_path in Hrp. repeat case_match; try done. by injection Hrp as <-. }
  assert (∀ coll id ct, target c q w1 coll id ct →
    is_Some (files w1 !! (root ++ [Byte.x2f] ++ coll ++ [Byte.x2f] ++ id ++ ZDB_DOC_FILE_EXT))) as Hroot.
  { intros coll id ct Ht%target_file. unfold root. rewrite <- !app_assoc. exact Ht. }
  apply wp_bind, wp_opendir_all.
  - intros rc dir fs' Hrc Hnone Hf. rewrite (proj2 (Z.ltb_lt _ _)) by done. apply wp_bind.
    eapply wp_doc_unlock_read; [exact Hlk|apply (doc_step_fs 0)|]. intros w3 _ _.
    eapply wp_ret, HQ, answers_none; [|done]. intros coll id ct Ht.
    destruct (Hroot coll id ct) as [d Hd]; [by eapply target_files|]. by rewrite Hnone in Hd.
  - intros dir fs' Hf (Hnd & _ & Hdirs) Hl. change (0 <? 0)%Z with false. cbn iota. apply wp_bind.
    eapply (wp_scan_collections_all c q (query_limit q) out capacity w1 _ dir []); [| |exact Hnd|lia|].
    + split; [|done|done|constructor|by destruct (writing _ _)|]; cbn.
      * split; cbn; [by rewrite (lk_db _ _ Hlk)|apply doc_step_fs|done|constructor|destruct out; lia|lia].
      * unfold writing. destruct out; [|done]. by destruct capacity.
    + eapply Forall_impl; [exact Hl|]. by intros e [? _].
    + intros found sc dir' w2 [Hsa (new & Heq & _ & Hdn & Hall)] _. rewrite app_nil_l in Heq. subst new.
      apply wp_bind, wp_closedir. intros rc fs3 Hf3. apply wp_bind.
      eapply wp_doc_unlock_read; [exact Hlk|eapply doc_step_trans; [apply Hsa|apply doc_step_fs]|].
      intros w4 _ _. eapply wp_ret, HQ, scan_all_end; [exact Hf1|exact Hsa|done|].
      intros Hgo coll id ct Ht. apply Hall; [done..|].
      destruct (target_names _ _ _ _ _ _ Ht) as [Hfn _].
      destruct (Hdirs _ _ Hfn (Hroot _ _ _ Ht)) as (e & Hin & Hn & Hty). exists e. by split_and!.
Qed.
End query_all.
