(* ===== verification/ExportSpec.v ===== *)
(** * What an export hands to the builder

    [doc_tree] is the document as a FlatBuffer, by the schema in the comment of
    [zephyrdb_doc.c]. The rules follow the calls of an export: each either
    makes its object, or fails and keeps the builder's memory, which only a
    builder that fails or a field of a reserved type explains. *)

From S2P Require Import Prelude Config Env Types FsEnv Cursor Doc DocFile Export.

(** ** Documents as FlatBuffers *)

Section trees.
(** Whether a field's type has a value to emit. *)
Definition fb_emitted (t : zdb_doc_field_type_t) : bool :=
  match t with
  | ZDB_DOC_FIELD_INT64 | ZDB_DOC_FIELD_DOUBLE | ZDB_DOC_FIELD_STRING | ZDB_DOC_FIELD_BOOL
  | ZDB_DOC_FIELD_BYTES => true
  | _ => false
  end.

(** The slot that carries a field's value. *)
Definition value_slot (t : zdb_doc_field_type_t) (v : zdb_doc_field_value_t) : nat * fb_slot :=
  match t with
  | ZDB_DOC_FIELD_INT64 => (2, FbScalar (put_le 8 (u64 (value_i64 v))))
  | ZDB_DOC_FIELD_DOUBLE => (3, FbScalar (put_le 8 (value_f64 v)))
  | ZDB_DOC_FIELD_BOOL => (4, FbScalar (put_le 1 (if value_b v then 1 else 0)))
  | ZDB_DOC_FIELD_STRING => (5, FbOffset (FbString (default [] (value_str v))))
  | _ => (6, FbOffset (FbBytes (take (value_bytes v).2 (default [] (value_bytes v).1))))
  end.

Definition field_tree (f : zdb_doc_field_t) : fb_value :=
  FbTable [(0, FbOffset (FbString (default [] (fd_name f))));
           (1, FbScalar (put_le 1 (field_type_num (fd_type f))));
           value_slot (fd_type f) (fd_value f)].

Definition doc_tree (d : zdb_doc_t) : fb_value :=
  FbTable ([(0, FbOffset (FbString (default [] (collection_name d))));
            (1, FbOffset (FbString (default [] (document_id d))));
            (2, FbScalar (put_le 8 (created_ms d)));
            (3, FbScalar (put_le 8 (updated_ms d)))] ++
           match doc_fields d with
           | [] => []
           | fs => [(4, FbOffset (FbVector (map field_tree fs)))]
           end).
End trees.

Section spec.
Context {Cfg : Config} {B : Type} `{!Flatcc B, !FlatccLaws B}.
Implicit Types b : B.

#[global] Instance fb_grows_preorder : PreOrder (fb_grows (B := B)).
Proof.
  split; [by split|]. intros b1 b2 b3 [L1 O1] [L2 O2]. split; [congruence|auto].
Qed.

(** [ref] is a new object of the builder, and [rest] is open. *)
Record closes b b' (ref : Z) (v : fb_value) (rest : list fb_frame) : Prop := {
  cl_ref : ref ≠ 0%Z;
  cl_grows : fb_grows b b';
  cl_open : fb_open b' = rest;
  cl_object : fb_object b' ref = Some v;
}.

Abbreviation made b b' ref v := (closes b b' ref v (fb_open b)).

Definition lives b b' : Prop := fb_live b' = fb_live b.

Lemma grows_lives b b' : fb_grows b b' → lives b b'.
Proof. apply gr_live. Qed.

Lemma lives_trans b1 b2 b3 : lives b1 b2 → lives b2 b3 → lives b1 b3.
Proof. unfold lives. congruence. Qed.

Lemma grows_then_lives b1 b2 b3 : fb_grows b1 b2 → lives b2 b3 → lives b1 b3.
Proof. intros Hg. apply lives_trans. by apply grows_lives. Qed.

(** ** Calls that make an object *)

Lemma wp_close (op : B → Z * B) v rest (Q : Z → B → Prop) b :
  fb_grows b (op b).2 →
  ((op b).1 ≠ 0%Z → fb_open (op b).2 = rest ∧ fb_object (op b).2 (op b).1 = Some v) →
  (FlatccLive B → (op b).1 ≠ 0%Z) →
  (∀ ref b', closes b b' ref v rest → Q ref b') →
  (∀ b', lives b b' → ¬ FlatccLive B → Q 0%Z b') →
  wp op Q b.
Proof.
  intros Hg Hl Hlive Hok Hbad. unfold wp. destruct (decide ((op b).1 = 0%Z)) as [Hz|Hnz].
  - rewrite Hz. apply Hbad; [by apply grows_lives|]. intros HL. by apply Hlive in HL.
  - apply Hok. destruct (Hl Hnz). by split.
Qed.

Lemma wp_string s (Q : Z → B → Prop) b :
  (∀ ref b', made b b' ref (FbString s) → Q ref b') →
  (∀ b', lives b b' → ¬ FlatccLive B → Q 0%Z b') →
  wp (flatcc_builder_create_string_str s) Q b.
Proof.
  destruct (fb_create_string_law s b) as [Hg Hl].
  apply wp_close; [done|done|]. intros HL. apply fb_create_string_live.
Qed.

Lemma wp_vector d (Q : Z → B → Prop) b :
  (∀ ref b', made b b' ref (FbBytes d) → Q ref b') →
  (∀ b', lives b b' → ¬ FlatccLive B → Q 0%Z b') →
  wp (flatcc_builder_create_vector d) Q b.
Proof.
  destruct (fb_create_vector_law d b) as [Hg Hl].
  apply wp_close; [done|done|]. intros HL. apply fb_create_vector_live.
Qed.

Lemma wp_struct d (Q : Z → B → Prop) b :
  (∀ ref b', made b b' ref (FbStruct d) → Q ref b') →
  (∀ b', lives b b' → ¬ FlatccLive B → Q 0%Z b') →
  wp (flatcc_builder_create_struct d) Q b.
Proof.
  destruct (fb_create_struct_law d b) as [Hg Hl].
  apply wp_close; [done|done|]. intros HL. apply fb_create_struct_live.
Qed.

(** ** Calls that open, fill and close *)

(** [b'] is [b] with [frames] open. *)
Record opens b b' (frames : list fb_frame) : Prop := {
  op_grows : fb_grows b b';
  op_open : fb_open b' = frames;
}.

Lemma wp_status (op : B → Z * B) frames (Q : Z → B → Prop) b :
  fb_grows b (op b).2 → ((op b).1 = 0%Z → fb_open (op b).2 = frames) →
  (FlatccLive B → (op b).1 = 0%Z) →
  (∀ b', opens b b' frames → Q 0%Z b') →
  (∀ rc b', rc ≠ 0%Z → lives b b' → ¬ FlatccLive B → Q rc b') →
  wp op Q b.
Proof.
  intros Hg Hl Hlive Hok Hbad. unfold wp. destruct (decide ((op b).1 = 0%Z)) as [Hz|Hnz].
  - rewrite Hz. apply Hok. split; [done|by apply Hl].
  - apply Hbad; [done|by apply grows_lives|]. intros HL. by apply Hlive in HL.
Qed.

Lemma wp_slot (op : B → bool * B) frames (Q : bool → B → Prop) b :
  fb_grows b (op b).2 → ((op b).1 = true → fb_open (op b).2 = frames) →
  (FlatccLive B → (op b).1 = true) →
  (∀ b', opens b b' frames → Q true b') →
  (∀ b', lives b b' → ¬ FlatccLive B → Q false b') →
  wp op Q b.
Proof.
  intros Hg Hl Hlive Hok Hbad. unfold wp. destruct ((op b).1) eqn:Hz.
  - apply Hok. split; [done|by apply Hl].
  - apply Hbad; [by apply grows_lives|]. intros HL. by apply Hlive in HL.
Qed.

Lemma wp_start_buffer (Q : Z → B → Prop) b :
  (∀ b', opens b b' (fb_open b) → Q 0%Z b') →
  (∀ rc b', rc ≠ 0%Z → lives b b' → ¬ FlatccLive B → Q rc b') →
  wp flatcc_builder_start_buffer Q b.
Proof.
  destruct (fb_start_buffer_law b) as [Hg Hl]. apply wp_status; [done|done|].
  intros HL. apply fb_start_buffer_live.
Qed.

Lemma wp_start_table n (Q : Z → B → Prop) b :
  (∀ b', opens b b' (FbOpenTable n [] :: fb_open b) → Q 0%Z b') →
  (∀ rc b', rc ≠ 0%Z → lives b b' → ¬ FlatccLive B → Q rc b') →
  wp (flatcc_builder_start_table n) Q b.
Proof.
  destruct (fb_start_table_law n b) as [Hg Hl]. apply wp_status; [done|done|].
  intros HL. apply fb_start_table_live.
Qed.

Lemma wp_table_add id d n slots rest (Q : bool → B → Prop) b :
  fb_open b = FbOpenTable n slots :: rest → id < n →
  (∀ b', opens b b' (FbOpenTable n (slots ++ [(id, FbScalar d)]) :: rest) → Q true b') →
  (∀ b', lives b b' → ¬ FlatccLive B → Q false b') →
  wp (flatcc_builder_table_add id d) Q b.
Proof.
  intros Ho Hid. destruct (fb_table_add_law id d b) as [Hg Hl].
  apply wp_slot; [done|by intros Ht; apply Hl|]. intros HL. by eapply fb_table_add_live.
Qed.

Lemma wp_table_add_offset id ref v n slots rest (Q : bool → B → Prop) b :
  fb_open b = FbOpenTable n slots :: rest → id < n → fb_object b ref = Some v →
  (∀ b', opens b b' (FbOpenTable n (slots ++ [(id, FbOffset v)]) :: rest) → Q true b') →
  (∀ b', lives b b' → ¬ FlatccLive B → Q false b') →
  wp (flatcc_builder_table_add_offset id ref) Q b.
Proof.
  intros Ho Hid Hv. destruct (fb_table_add_offset_law id ref b) as [Hg Hl].
  apply wp_slot; [done|by intros Ht; apply Hl|]. intros HL. by eapply fb_table_add_offset_live.
Qed.

Lemma wp_end_table n slots rest (Q : Z → B → Prop) b :
  fb_open b = FbOpenTable n slots :: rest →
  (∀ ref b', closes b b' ref (FbTable slots) rest → Q ref b') →
  (∀ b', lives b b' → ¬ FlatccLive B → Q 0%Z b') →
  wp flatcc_builder_end_table Q b.
Proof.
  intros Ho. destruct (fb_end_table_law b) as [Hg Hl].
  apply wp_close; [done|by intros Ht; eapply Hl|]. intros HL. apply fb_end_table_live.
Qed.

Lemma wp_start_vector (Q : Z → B → Prop) b :
  (∀ b', opens b b' (FbOpenVector [] :: fb_open b) → Q 0%Z b') →
  (∀ rc b', rc ≠ 0%Z → lives b b' → ¬ FlatccLive B → Q rc b') →
  wp flatcc_builder_start_offset_vector Q b.
Proof.
  destruct (fb_start_vector_law b) as [Hg Hl]. apply wp_status; [done|done|].
  intros HL. apply fb_start_vector_live.
Qed.

Lemma wp_extend_vector ref v elems rest (Q : bool → B → Prop) b :
  fb_open b = FbOpenVector elems :: rest → fb_object b ref = Some v →
  (∀ b', opens b b' (FbOpenVector (elems ++ [v]) :: rest) → Q true b') →
  (∀ b', lives b b' → ¬ FlatccLive B → Q false b') →
  wp (flatcc_builder_extend_offset_vector ref) Q b.
Proof.
  intros Ho Hv. destruct (fb_extend_vector_law ref b) as [Hg Hl].
  apply wp_slot; [done|by intros Ht; apply Hl|]. intros HL. apply fb_extend_vector_live.
Qed.

Lemma wp_end_vector elems rest (Q : Z → B → Prop) b :
  fb_open b = FbOpenVector elems :: rest →
  (∀ ref b', closes b b' ref (FbVector elems) rest → Q ref b') →
  (∀ b', lives b b' → ¬ FlatccLive B → Q 0%Z b') →
  wp flatcc_builder_end_offset_vector Q b.
Proof.
  intros Ho. destruct (fb_end_vector_law b) as [Hg Hl].
  apply wp_close; [done|by intros Ht; eapply Hl|]. intros HL. apply fb_end_vector_live.
Qed.

(** ** A field *)

(** The value's slot is added to the table that is open. *)
Lemma wp_add_value f str_ref slots rest (Q : bool → B → Prop) b :
  fb_open b = FbOpenTable 7 slots :: rest →
  (fd_type f = ZDB_DOC_FIELD_STRING →
     fb_object b str_ref = Some (FbString (default [] (value_str (fd_value f))))) →
  (∀ b', opens b b' (FbOpenTable 7 (slots ++ [value_slot (fd_type f) (fd_value f)]) :: rest) → Q true b') →
  (∀ b', lives b b' → fb_emitted (fd_type f) = false ∨ ¬ FlatccLive B → Q false b') →
  wp (fb_add_value f str_ref) Q b.
Proof.
  intros Ho Hs Hok Hbad. unfold fb_add_value.
  destruct (fd_type f) eqn:Ht; try (apply wp_ret, Hbad; [done|by left]);
    try (eapply wp_table_add; [exact Ho|unfold ZDB_FB_FIELD_I64, ZDB_FB_FIELD_F64, ZDB_FB_FIELD_BOOL; lia|done|auto]).
  - eapply wp_table_add_offset; [exact Ho|unfold ZDB_FB_FIELD_STR; lia|by apply Hs|done|auto].
  - apply wp_bind, wp_vector.
    + intros ref b1 [Hr Hg Ho1 Hv]. rewrite (proj2 (Z.eqb_neq _ _)) by done.
      eapply wp_table_add_offset; [by rewrite Ho1|unfold ZDB_FB_FIELD_BYTES; lia|exact Hv| |].
      * intros b2 [Hg2 Ho2]. apply Hok. split; [by etrans|done].
      * intros b2 Hl HL. apply Hbad; [|by right]. unfold lives in *. by rewrite Hl, (gr_live _ _ Hg).
    + intros b1 Hl HL. apply wp_ret, Hbad; [done|by right].
Qed.


Lemma wp_build_field f (Q : Z → B → Prop) b :
  (∀ ref b', made b b' ref (field_tree f) → Q ref b') →
  (∀ b', lives b b' → fb_emitted (fd_type f) = false ∨ ¬ FlatccLive B → Q 0%Z b') →
  wp (zdb_doc_fb_build_field f) Q b.
Proof.
  intros Hok Hbad. unfold zdb_doc_fb_build_field.
  assert (∀ b', lives b b' → ¬ FlatccLive B → wp (ret 0%Z) Q b') as Hfail.
  { intros b' Hl HL. apply wp_ret, Hbad; auto. }
  apply wp_bind, wp_string; [|by auto]. intros nref b1 [Hn1 G1 O1 V1].
  rewrite (proj2 (Z.eqb_neq _ _)) by done. apply wp_bind.
  assert (wp (if bool_decide (fd_type f = ZDB_DOC_FIELD_STRING)
              then flatcc_builder_create_string_str (default [] (value_str (fd_value f))) else ret 0%Z)
    (λ sref b2, bool_decide (fd_type f = ZDB_DOC_FIELD_STRING) && (sref =? 0)%Z = true ∧
                  lives b1 b2 ∧ ¬ FlatccLive B ∨
       bool_decide (fd_type f = ZDB_DOC_FIELD_STRING) && (sref =? 0)%Z = false ∧ fb_grows b1 b2 ∧
         fb_open b2 = fb_open b1 ∧ (fd_type f = ZDB_DOC_FIELD_STRING →
           fb_object b2 sref = Some (FbString (default [] (value_str (fd_value f)))))) b1) as Hstr.
  { case_bool_decide; [apply wp_string|by apply wp_ret; right].
    - intros sref b2 [Hs G2 O2 V2]. right. by rewrite (proj2 (Z.eqb_neq _ _)).
    - by left. }
  eapply wp_mono; [exact Hstr|]. intros sref b2 [(-> & L2 & HL)|(-> & G2 & O2 & V2)].
  { apply Hfail; [|done]. by eapply grows_then_lives. }
  assert (fb_grows b b2) as G02 by (by etrans).
  apply wp_bind, wp_start_table; cycle 1.
  { intros rc b3 Hrc L3 HL. rewrite (proj2 (Z.eqb_neq _ _)) by done. apply Hfail; [|done].
    by eapply grows_then_lives. }
  intros b3 [G3 O3]. cbn [negb Z.eqb]. assert (fb_grows b b3) as G03 by (by etrans).
  apply wp_bind. eapply wp_table_add_offset; [exact O3|unfold ZDB_FB_FIELD_NAME; lia| |..].
  { apply (gr_objects _ _ G3), (gr_objects _ _ G2), V1. }
  2: { intros b4 L4 HL. apply Hfail; [|done]. by eapply grows_then_lives. }
  intros b4 [G4 O4]. cbn [negb]. assert (fb_grows b b4) as G04 by (by etrans).
  apply wp_bind. eapply wp_table_add; [exact O4|unfold ZDB_FB_FIELD_TYPE; lia|..].
  2: { intros b5 L5 HL. apply Hfail; [|done]. by eapply grows_then_lives. }
  intros b5 [G5 O5]. cbn [negb]. assert (fb_grows b b5) as G05 by (by etrans).
  apply wp_bind. eapply wp_add_value; [exact O5| |..].
  { intros Ht. apply (gr_objects _ _ G5), (gr_objects _ _ G4), (gr_objects _ _ G3), V2, Ht. }
  2: { intros b6 L6 HL. apply wp_ret, Hbad; [|done]. by eapply grows_then_lives. }
  intros b6 [G6 O6]. cbn [negb]. assert (fb_grows b b6) as G06 by (by etrans).
  eapply wp_end_table; [exact O6|..].
  - intros ref b7 [R7 G7 O7 V7]. apply Hok. split; [done|by etrans|congruence|done].
  - intros b7 L7 HL. apply Hbad; [|by right]. by eapply grows_then_lives.
Qed.

(** ** The fields *)

(** Some field has no value to emit, or the builder failed. *)
Definition explained (fs : list zdb_doc_field_t) : Prop :=
  Exists (λ f, fb_emitted (fd_type f) = false) fs ∨ ¬ FlatccLive B.

Lemma wp_build_fields fs elems rest (Q : option zdb_status_t → B → Prop) b :
  fb_open b = FbOpenVector elems :: rest →
  (∀ b', opens b b' (FbOpenVector (elems ++ map field_tree fs) :: rest) → Q None b') →
  (∀ st b', st = ZDB_ERR_UNSUPPORTED ∨ st = ZDB_ERR_IO → lives b b' → explained fs → Q (Some st) b') →
  wp (fb_build_fields fs) Q b.
Proof.
  revert elems b. induction fs as [|f fs IH]; intros elems b Ho Hok Hbad; cbn [fb_build_fields].
  { apply wp_ret, Hok. split; [done|]. by rewrite Ho, app_nil_r. }
  apply wp_bind, wp_build_field; cycle 1.
  { intros b1 L1 [Ht|HL]; apply wp_ret, Hbad; [by left|done|by left; left|by left|done|by right]. }
  intros ref b1 [R1 G1 O1 V1]. rewrite (proj2 (Z.eqb_neq _ _)) by done.
  apply wp_bind. eapply wp_extend_vector; [by rewrite O1|exact V1|..]; cycle 1.
  { intros b2 L2 HL. apply wp_ret, Hbad; [by right|by eapply grows_then_lives|by right]. }
  intros b2 [G2 O2]. cbn [negb]. assert (fb_grows b b2) as G02 by (by etrans).
  eapply IH; [exact O2|..].
  - intros b3 [G3 O3]. apply Hok. split; [by etrans|]. by rewrite O3, <- app_assoc.
  - intros st b3 Hst L3 [He|HL]; (apply Hbad; [done|by eapply grows_then_lives|]);
      [left; by right|by right].
Qed.

Lemma wp_fields_vec fs (Q : option zdb_status_t * Z → B → Prop) b :
  (∀ ref b', fb_grows b b' → fb_open b' = fb_open b →
     (fs = [] ∧ ref = 0%Z ∨
      fs ≠ [] ∧ ref ≠ 0%Z ∧ fb_object b' ref = Some (FbVector (map field_tree fs))) → Q (None, ref) b') →
  (∀ st ref b', st = ZDB_ERR_UNSUPPORTED ∨ st = ZDB_ERR_IO → lives b b' → explained fs →
     Q (Some st, ref) b') →
  wp (fb_fields_vec fs) Q b.
Proof.
  intros Hok Hbad. unfold fb_fields_vec. destruct fs as [|f fs]; [by apply wp_ret, Hok; auto|].
  apply wp_bind, wp_start_vector; cycle 1.
  { intros rc b1 Hrc L1 HL. rewrite (proj2 (Z.eqb_neq _ _)) by done.
    apply wp_ret, Hbad; [by right|done|by right]. }
  intros b1 [G1 O1]. cbn [negb Z.eqb]. apply wp_bind. eapply wp_build_fields; [exact O1|..]; cycle 1.
  { intros st b2 Hst L2 He. apply wp_ret, Hbad; [done|by eapply grows_then_lives|done]. }
  intros b2 [G2 O2]. assert (fb_grows b b2) as G02 by (by etrans).
  apply wp_bind. eapply wp_end_vector; [exact O2|..].
  - intros ref b3 [R3 G3 O3 V3]. apply wp_ret. rewrite (proj2 (Z.eqb_neq _ _)) by done.
    apply Hok; [by etrans|done|]. right. by split_and!.
  - intros b3 L3 HL. apply wp_ret, Hbad; [by right|by eapply grows_then_lives|by right].
Qed.

(** ** The document *)

Lemma wp_end_buffer ref v (Q : Z → B → Prop) b :
  fb_object b ref = Some v →
  (∀ r b', r ≠ 0%Z → lives b b' → fb_root b' = Some v → Q r b') →
  (∀ b', lives b b' → ¬ FlatccLive B → Q 0%Z b') →
  wp (flatcc_builder_end_buffer ref) Q b.
Proof.
  intros Hv Hok Hbad. destruct (fb_end_buffer_law ref b) as [Hg Hl]. unfold wp.
  destruct (decide ((flatcc_builder_end_buffer ref b).1 = 0%Z)) as [Hz|Hnz].
  - rewrite Hz. apply Hbad; [by apply grows_lives|]. intros HL. by apply (fb_end_buffer_live ref b) in Hz.
  - apply Hok; [done|by apply grows_lives|by apply Hl].
Qed.

Lemma wp_build_root d coll_ref id_ref vec (Q : bool → B → Prop) b :
  fb_object b coll_ref = Some (FbString (default [] (collection_name d))) →
  fb_object b id_ref = Some (FbString (default [] (document_id d))) →
  (doc_fields d = [] ∧ vec = 0%Z ∨
   doc_fields d ≠ [] ∧ vec ≠ 0%Z ∧ fb_object b vec = Some (FbVector (map field_tree (doc_fields d)))) →
  (∀ b', lives b b' → fb_root b' = Some (doc_tree d) → Q true b') →
  (∀ b', lives b b' → ¬ FlatccLive B → Q false b') →
  wp (fb_build_root d coll_ref id_ref vec) Q b.
Proof.
  intros Hc Hi Hvec Hok Hbad. unfold fb_build_root,
    ZDB_FB_DOC_COLLECTION, ZDB_FB_DOC_ID, ZDB_FB_DOC_CREATED, ZDB_FB_DOC_UPDATED, ZDB_FB_DOC_FIELDS.
  assert (∀ b1 b2, fb_grows b b1 → lives b1 b2 → ¬ FlatccLive B → wp (ret false) Q b2) as Hfail.
  { intros b1 b2 Hg Hl HL. apply wp_ret, Hbad; [by eapply grows_then_lives|done]. }
  apply wp_bind, wp_start_table; cycle 1.
  { intros rc b1 Hrc L1 HL. rewrite (proj2 (Z.eqb_neq _ _)) by done. by apply (Hfail b). }
  intros b1 [G1 O1]. cbn [negb Z.eqb]. apply wp_bind.
  eapply wp_table_add_offset; [exact O1|lia|by apply (gr_objects _ _ G1)| |intros b' L' HL; by apply (Hfail b1)].
  intros b2 [G2 O2]. cbn [negb]. assert (fb_grows b b2) as G02 by (by etrans). apply wp_bind.
  eapply wp_table_add_offset; [exact O2|lia|by apply (gr_objects _ _ G02)| |intros b' L' HL; by apply (Hfail b2)].
  intros b3 [G3 O3]. cbn [negb]. assert (fb_grows b b3) as G03 by (by etrans). apply wp_bind.
  eapply wp_table_add; [exact O3|lia| |intros b' L' HL; by apply (Hfail b3)].
  intros b4 [G4 O4]. cbn [negb]. assert (fb_grows b b4) as G04 by (by etrans). apply wp_bind.
  eapply wp_table_add; [exact O4|lia| |intros b' L' HL; by apply (Hfail b4)].
  intros b5 [G5 O5]. cbn [negb]. assert (fb_grows b b5) as G05 by (by etrans). apply wp_bind.
  assert (∀ b6 slots, opens b5 b6 (FbOpenTable 5 slots :: fb_open b) → FbTable slots = doc_tree d →
    wp (root ← flatcc_builder_end_table;
        if (root =? 0)%Z then ret false
        else ref ← flatcc_builder_end_buffer root; ret (negb (ref =? 0)%Z)) Q b6) as Hend.
  { intros b6 slots [G6 O6] Ht. assert (fb_grows b b6) as G06 by (by etrans). apply wp_bind.
    eapply wp_end_table; [exact O6| |intros b7 L7 HL; by apply (Hfail b6)].
    intros root b7 [R7 G7 O7 V7]. rewrite (proj2 (Z.eqb_neq _ _)) by done. rewrite Ht in V7.
    assert (fb_grows b b7) as G07 by (by etrans). apply wp_bind.
    eapply wp_end_buffer; [exact V7| |intros b8 L8 HL; by apply (Hfail b7)].
    intros r b8 Hr L8 Hroot. apply wp_ret. rewrite (proj2 (Z.eqb_neq _ _)) by done.
    apply Hok; [by eapply grows_then_lives|done]. }
  unfold doc_tree in Hend.
  destruct Hvec as [[Hf ->]|(Hf & Hv & Ho)]; rewrite ?(proj2 (Z.eqb_neq _ _)) by done; cbn [negb Z.eqb].
  - apply wp_ret. cbn [negb]. eapply Hend; [split; [done|exact O5]|]. by rewrite Hf.
  - eapply wp_table_add_offset; [exact O5|lia|by apply (gr_objects _ _ G05)| |intros b' L' HL; by apply (Hfail b5)].
    intros b6 [G6 O6]. cbn [negb]. eapply Hend; [by split|]. cbn [app].
    by destruct (doc_fields d).
Qed.

(** ** Exports *)

Lemma wp_init (Q : Z → B → Prop) b :
  (∀ b', fb_live b' = true → Q 0%Z b') →
  (∀ rc b', rc ≠ 0%Z → fb_live b' = false → ¬ FlatccLive B → Q rc b') →
  wp flatcc_builder_init Q b.
Proof.
  intros Hok Hbad. unfold wp. destruct (fb_init_law b) as [(Hz & Hl & _)|(Hnz & Hl)].
  - rewrite Hz. by apply Hok.
  - apply Hbad; [done|done|]. intros HL. by apply Hnz, fb_init_live.
Qed.

(** The finished buffer, as it is handed out or as the builder fails. *)
Lemma wp_direct v (k : option (list byte) → M B export_result)
    (Q : export_result → B → Prop) b :
  fb_root b = Some v →
  (∀ x direct, fb_encodes (x :: direct) v → wp (k (Some (x :: direct))) Q b) →
  (∀ o, o = None ∨ o = Some [] → ¬ FlatccLive B → wp (k o) Q b) →
  wp (direct ← mgets flatcc_builder_get_direct_buffer; k direct) Q b.
Proof.
  intros Hr Hok Hbad. apply wp_bind, wp_gets.
  destruct (flatcc_builder_get_direct_buffer b) as [[|x direct]|] eqn:Hd.
  - apply Hbad; [by right|]. intros HL. destruct (fb_direct_buffer_live b v Hr) as (? & ? & ?). congruence.
  - apply Hok. by eapply fb_direct_buffer_law.
  - apply Hbad; [by left|]. intros HL. destruct (fb_direct_buffer_live b v Hr) as (? & ? & ?). congruence.
Qed.

(** What an export that got as far as its buffer hands out. *)
Definition handed_out (v : fb_value) (out : option (list byte)) (cap : nat) (r : export_result) : Prop :=
  ∃ buf, buf ≠ [] ∧ fb_encodes buf v ∧ r.1.2 = Some (length buf) ∧
    (if bool_decide (r.1.1 = ZDB_OK)
     then r.2 = option_map (λ o, buf_write o 0 buf) out ∧ (out ≠ None → length buf ≤ cap)
     else r.1.1 = ZDB_ERR_NOMEM ∧ r.2 = out ∧ out ≠ None ∧ cap < length buf).

Lemma copy_out_handed v out cap x direct :
  fb_encodes (x :: direct) v → handed_out v out cap (fb_copy_out out cap (x :: direct)).
Proof.
  intros He. exists (x :: direct). unfold fb_copy_out.
  destruct out as [out|]; [|by split_and!].
  destruct (Nat.ltb_spec cap (length (x :: direct))); by split_and!.
Qed.

Lemma wp_doc_export d out cap (Q : export_result → B → Prop) b :
  (∀ r b', fb_live b' = false → handed_out (doc_tree d) out cap r → Q r b') →
  (∀ st b', st = ZDB_ERR_UNSUPPORTED ∨ st = ZDB_ERR_IO ∨ st = ZDB_ERR_NOMEM → fb_live b' = false →
     explained (doc_fields d) → Q (st, Some 0, out) b') →
  wp (doc_export d out cap) Q b.
Proof.
  intros Hok Hbad. unfold doc_export. cbv zeta.
  assert (∀ st b', st = ZDB_ERR_UNSUPPORTED ∨ st = ZDB_ERR_IO → explained (doc_fields d) →
    wp (fb_clear;; ret (st, Some 0, out)) Q b') as Hfail.
  { intros st b' Hst He. apply wp_bind. apply (Hbad st); [tauto|apply fb_clear_law|done]. }
  apply wp_bind, wp_init; cycle 1.
  { intros rc b1 Hrc L1 HL. rewrite (proj2 (Z.eqb_neq _ _)) by done. apply wp_ret, Hbad; [auto|done|by right]. }
  intros b1 _.
  cbn [negb Z.eqb]. apply wp_bind, wp_start_buffer; cycle 1.
  { intros rc b2 Hrc L2 HL. rewrite (proj2 (Z.eqb_neq _ _)) by done. apply Hfail; [auto|by right]. }
  intros b2 [G2 O2]. cbn [negb Z.eqb]. apply wp_bind, wp_string; cycle 1.
  { intros b3 L3 HL. apply wp_bind. unfold wp at 1. cbn [Z.eqb orb]. apply Hfail; [auto|by right]. }
  intros cref b3 [R3 G3 O3 V3]. apply wp_bind, wp_string; rewrite (proj2 (Z.eqb_neq cref 0)) by done.
  2: { intros b4 L4 HL. cbn [Z.eqb orb]. apply Hfail; [auto|by right]. }
  intros iref b4 [R4 G4 O4 V4]. rewrite (proj2 (Z.eqb_neq _ _)) by done. cbn [orb].
  apply wp_bind, wp_fields_vec; cycle 1.
  { intros st ref b5 Hst L5 He. by apply Hfail. }
  intros vec b5 G5 O5 Hvec. apply wp_bind. eapply wp_build_root; [| |exact Hvec|..].
  { by apply (gr_objects _ _ G5), (gr_objects _ _ G4). }
  { by apply (gr_objects _ _ G5). }
  2: { intros b6 L6 HL. cbn [negb]. apply Hfail; [auto|by right]. }
  intros b6 L6 Hroot. cbn [negb]. eapply wp_direct; [exact Hroot|..].
  - intros x direct He. apply wp_bind. apply Hok; [apply fb_clear_law|]. by apply copy_out_handed.
  - intros o Ho HL. destruct Ho as [-> | ->]; (apply Hfail; [auto|by right]).
Qed.

(** A sample as a FlatBuffer. *)
Definition sample_tree (x : zdb_ts_sample_i64_t) : fb_value :=
  FbStruct (put_le 8 (ts_ms x) ++ put_le 8 (u64 (value x))).

Lemma wp_sample_export x out cap (Q : export_result → B → Prop) b :
  (∀ r b', fb_live b' = false → handed_out (sample_tree x) out cap r → Q r b') →
  (∀ st b', st = ZDB_ERR_IO ∨ st = ZDB_ERR_NOMEM → fb_live b' = false → ¬ FlatccLive B →
     Q (st, None, out) b') →
  wp (sample_export x out cap true) Q b.
Proof.
  intros Hok Hbad. unfold sample_export. cbv zeta.
  assert (∀ st b', st = ZDB_ERR_IO ∨ st = ZDB_ERR_NOMEM → ¬ FlatccLive B →
    wp (fb_clear;; ret (st, None, out)) Q b') as Hfail.
  { intros st b' Hst HL. apply wp_bind. apply (Hbad st); [done|apply fb_clear_law|done]. }
  apply wp_bind, wp_init; cycle 1.
  { intros rc b1 Hrc L1 HL. rewrite (proj2 (Z.eqb_neq _ _)) by done. apply wp_ret, Hbad; auto. }
  intros b1 _. cbn [negb Z.eqb]. apply wp_bind, wp_start_buffer; cycle 1.
  { intros rc b2 Hrc L2 HL. rewrite (proj2 (Z.eqb_neq _ _)) by done. apply Hfail; auto. }
  intros b2 _. cbn [negb Z.eqb]. apply wp_bind, wp_struct; cycle 1.
  { intros b3 L3 HL. apply Hfail; auto. }
  intros root b3 [R3 _ _ V3]. rewrite (proj2 (Z.eqb_neq _ _)) by done.
  apply wp_bind. eapply wp_end_buffer; [exact V3| |]; cycle 1.
  { intros b4 L4 HL. apply Hfail; auto. }
  intros r b4 Hr L4 Hroot. rewrite (proj2 (Z.eqb_neq _ _)) by done. eapply wp_direct; [exact Hroot|..].
  - intros y direct He. rewrite andb_false_r. apply wp_bind. unfold wp at 1, fb_clear. cbn [fst snd].
    pose proof (copy_out_handed _ out cap _ _ He) as Hh.
    destruct (fb_copy_out out cap (y :: direct)) as [[st len] o].
    apply wp_ret, Hok; [apply fb_clear_law|done].
  - intros o Ho HL. destruct Ho as [-> | ->]; (apply Hfail; auto).
Qed.
End spec.
