(* ===== verification/System.v ===== *)
(** * The instance under a program of calls

    A program that uses the instance holds stream handles, cursors, documents
    and query results. [app] is its state with the instance's, [app_step] a
    call of the API (or a run of the work queue, or a change of the volume or the
    kernel from outside), and [sys] what holds between two calls: the lock is free, the
    components' own invariants hold together, and every block of the heap and
    of the slabs is accounted for by the instance or by what the program
    holds. Each component's theorems say what its calls change; here they are
    composed: a call of one component keeps the invariants of the others. *)

From stdpp Require Import gmultiset.
From S2P Require Import Prelude Config Env Types FsEnv FsSpec Events Cursor KvFormat KvIndex KvIndexSpec Kv KvSpec KvLaws KvBulk.
From S2P Require Import Core CoreSpec TsFormat TsFormatSpec TsStore TsSegment TsCursor TsRecover TsOps.
From S2P Require Import TsSpec TsInv TsMoves TsAccount Doubles Doc DocFile DocQuery DocSpec DocFieldSpec.
From S2P Require Import DocHandleSpec DocStep DocSaveSpec DocOpenSpec DocOps DocQuerySpec.

Section system.
Context {Cfg : Config} {CfgOk : ConfigOk Cfg} {K F FS FH DH : Type}.
Context `{!Kernel K, !KernelLaws K, !KvBackend F, !KvBackendLaws F}.
Context `{!FileSys FS FH DH, !FileSysLaws FS FH DH}.
Context {CRC : Crc32} {CRCLaws : Crc32Laws}.
Abbreviation W := (world K F FS).
Implicit Types w : W.

(** ** What holds between two calls *)

(** The configuration the instance was initialised with, the slab of the
    key-value calls, and what was in use before. *)
Context (c : zdb_cfg_t) (sl : k_mem_slab) (heap0 : nat) (slab0 : positive → nat).

(** With [h] heap blocks and [n] cursor blocks outside the instance, and the
    handles [hs] on streams. *)
Record sys (h : nat) (n : Z) (hs : gmultiset cstring) w : Prop := {
  sy_cfg : cfg (w_db w) = Some c;
  sy_core : is_Some (core_slab (w_db w));
  sy_lock : lock_depth (w_k w) = 0;
  sy_kv : kv_env sl w;
  sy_index : kv_ctx_ok (w_db w);
  sy_ctx : ctx_ok (ts_ctx (w_db w));
  sy_heap : heap_used (w_k w) = heap0 + ctx_blocks (w_db w) + h;
  sy_slack : ∀ s, slack w s = (slab0 s + n * opt_frees 1 (cursor_slab (w_db w)) s)%Z;
  sy_held : (0 ≤ n)%Z;
  sy_handles : ∀ name, 0 < multiplicity name hs →
    counted (ts_ctx (w_db w)) name (multiplicity name hs);
}.

Lemma sys_ts_inv h n hs w : sys h n hs w → ts_inv w.
Proof. intros []. split; [done|]. intros s. rewrite sy_slack0. lia. Qed.

Lemma sys_covered h n hs w m : sys h n hs w → (m ≤ n)%Z → covered m w.
Proof. intros [] Hm s. rewrite sy_slack0. nia. Qed.

(** A key-value call keeps the time-series context but for what was pending. *)
Lemma sys_kv h n hs w w' :
  sys h n hs w → kv_step w w' → kv_env sl w' → index_kept w w' → sys h n hs w'.
Proof.
  intros [Hc Hk Hl _ Hi Ht Hh Hs Hn Hm] Hst He Hix.
  destruct Hst as [D _ L S H _ Hts]. split; try done.
  - by rewrite D.
  - by rewrite D.
  - congruence.
  - by apply Hix.
  - by eapply ctx_ok_sim.
  - lia.
  - intros s. unfold slack. rewrite S, (ts_held_sim (w_db w) (w_db w')), D by (done || by rewrite D). apply Hs.
  - intros name Hpos. eapply counted_sim; [done|]. by apply Hm.
Qed.

(** So does a call on documents, which takes and gives back heap blocks. *)
Lemma sys_doc a b h n hs w w' :
  sys (a + h) n hs w → doc_step a b w w' → sys (b + h) n hs w'.
Proof.
  intros [Hc Hk Hl (Hm & Hsl & Hf) Hi Ht Hh Hs Hn Hcnt] [[D Hts] F0 L S H _].
  split; try done; rewrite ?(published_cfg _ _ (conj D Hts)); try done.
  - by rewrite D.
  - congruence.
  - split_and!; [|by rewrite D|by rewrite F0]. unfold kv_mounted. by rewrite D.
  - unfold kv_ctx_ok, ctx_entries in *. by rewrite D.
  - by eapply ctx_ok_sim.
  - unfold ctx_blocks in *. rewrite D. simpl. lia.
  - intros s. unfold slack. rewrite S, (ts_held_sim (w_db w) (w_db w')), D by (done || by rewrite D). apply Hs.
  - intros name Hpos. eapply counted_sim; [done|]. by apply Hcnt.
Qed.

(** A time-series call leaves the key-value store alone. *)
Lemma sys_ts_step h n m hs hs' w w' :
  sys h n hs w → ts_step w w' → lock_depth (w_k w') = lock_depth (w_k w) →
  ctx_ok (ts_ctx (w_db w')) → heap_used (w_k w') = heap_used (w_k w) → (0 ≤ m)%Z →
  (∀ s, slack w' s = (slack w s + (m - n) * opt_frees 1 (cursor_slab (w_db w)) s)%Z) →
  (∀ name, 0 < multiplicity name hs' → counted (ts_ctx (w_db w')) name (multiplicity name hs')) →
  sys h m hs' w'.
Proof.
  intros [Hc Hk Hl (Hm & Hsl & Hf) Hi Ht Hh Hs Hn Hcnt] [D F0 _] L Hok Hheap Hpos Hslack Hcnt'.
  split; try done.
  - by rewrite D.
  - by rewrite D.
  - congruence.
  - split_and!; [|by rewrite D|by rewrite F0]. unfold kv_mounted. by rewrite D.
  - unfold kv_ctx_ok, ctx_entries in *. by rewrite D.
  - unfold ctx_blocks in *. rewrite D. simpl. lia.
  - intros s. rewrite Hslack, Hs, D. simpl. lia.
Qed.

Lemma sys_took k h n hs w w' :
  sys h n hs w → took k w w' → lock_depth (w_k w') = lock_depth (w_k w) → (0 ≤ n + k)%Z →
  sys h (n + k) hs w'.
Proof.
  intros Hsys [S C H B R] L Hpos. eapply sys_ts_step; [done..| |].
  - intros s. rewrite B. lia.
  - intros name Hname. by apply R, (sy_handles _ _ _ _ Hsys).
Qed.

Lemma sys_moved h n hs w w' :
  sys h n hs w → moved w w' → lock_depth (w_k w') = lock_depth (w_k w) → sys h n hs w'.
Proof.
  intros Hsys M L. rewrite <- (Z.add_0_r n). apply (sys_took 0 h n hs w); [done|by apply took_moved|done|].
  pose proof (sy_held _ _ _ _ Hsys). lia.
Qed.

Lemma sys_claimed h n hs w w' name :
  sys h n hs w → moved w w' → lock_depth (w_k w') = lock_depth (w_k w) →
  claimed name w w' → multiplicity name hs < 255 → sys h n ({[+ name +]} ⊎ hs) w'.
Proof.
  intros Hsys M L [C1 C2] Hlt. pose proof (sys_moved _ _ _ _ _ Hsys M L) as [].
  split; try done. intros x. rewrite multiplicity_disj_union, multiplicity_singleton.
  intros Hpos. case_decide as Hx; [subst x|by apply sy_handles0].
  destruct (decide (multiplicity name hs = 0)) as [->|Hne]; [done|].
  eapply counted_le; [|apply C2; [apply (sy_handles _ _ _ _ Hsys); lia|lia]]. lia.
Qed.

Lemma sys_dropped h n hs w w' name :
  sys h n hs w → name ∈ hs → dropped name w w' → lock_depth (w_k w') = lock_depth (w_k w) →
  sys h n (hs ∖ {[+ name +]}) w'.
Proof.
  intros Hsys Hin [S C H B R] L. eapply sys_ts_step; [done..|by apply Hsys| |].
  - intros s. rewrite B. lia.
  - intros x. rewrite multiplicity_difference, multiplicity_singleton. intros Hpos. apply R; [|lia].
    eapply counted_le; [|apply (sy_handles _ _ _ _ Hsys)]; repeat case_decide; subst; lia.
Qed.

(** ** Each call, on its own *)

Lemma wp_sys_moves {A} (R : A → Prop) (m : M W A) h n hs (Q : A → W → Prop) w :
  moves 0 0 R m → sys h n hs w → (∀ r w', sys h n hs w' → R r → Q r w') → wp m Q w.
Proof.
  intros Hm Hsys HQ. eapply wp_moves; [done|by eapply sys_ts_inv|by apply Hsys|]. intros r w' M _ L Rr.
  apply HQ; [|done]. eapply sys_moved; [done..|]. rewrite L. symmetry. by apply Hsys.
Qed.

Lemma wp_sys_fills {A} (m : M W A) h n hs (Q : A → W → Prop) w :
  fills 0 0 m → sys h n hs w → (∀ r w', sys h n hs w' → Q r w') → wp m Q w.
Proof.
  intros Hm Hsys HQ. eapply wp_mono; [apply Hm; [by eapply sys_ts_inv|by apply Hsys]|]. intros r w' [T L].
  apply HQ. rewrite <- (Z.add_0_r n). eapply sys_took; [done..| |].
  - rewrite L. symmetry. by apply Hsys.
  - pose proof (sy_held _ _ _ _ Hsys). lia.
Qed.

(** Reading calls of the key-value store, on any arguments. *)
Definition kv_reads w w' : Prop := kv_step w w' ∧ same_data w w'.

#[global] Instance kv_reads_preorder : PreOrder kv_reads.
Proof. split; [done|]. intros w1 w2 w3 [] []. by split; etrans. Qed.

Lemma sys_reads h n hs w w' : sys h n hs w → kv_reads w w' → sys h n hs w'.
Proof.
  intros Hsys [Hst Hd]. eapply sys_kv; [done..| |by apply index_kept_same].
  eapply kv_env_same; [done..|]. by apply Hsys.
Qed.

Lemma kv_reads_env w w' : kv_reads w w' → kv_env sl w → kv_env sl w'.
Proof. intros [Hst Hd]. by eapply kv_env_same. Qed.

Lemma wp_kv_get_any ns key oval cap (Q : zdb_status_t * kv_out → W → Prop) w :
  kv_env sl w → length ns ≤ CONFIG_ZDB_MAX_KEY_LEN →
  (∀ r w', kv_reads w w' → Q r w') →
  wp (zdb_kv_get (kv_handle ns) (Some key) oval cap true) Q w.
Proof.
  intros Henv Hns HQ.
  destruct (zdb_key_valid (Some key)) eqn:Hkv; cycle 1.
  { unfold zdb_kv_get, kv_handle. rewrite Hkv. by apply wp_ret, HQ. }
  destruct (decide (oval = None ∧ 0 < cap)) as [[-> Hc]|Hn].
  { unfold zdb_kv_get, kv_handle. rewrite Hkv, (proj2 (Nat.ltb_lt _ _)) by done. by apply wp_ret, HQ. }
  apply (wp_kv_get sl); [by apply kv_env_ready|done| |..].
  - intros ->. destruct cap; [done|]. destruct Hn. split; [done|lia].
  - intros st w' Hp Hd _. apply HQ. split; [by eapply published_step|done].
  - intros w' Hp Hd. apply HQ. split; [by eapply published_step|done].
  - intros st w' Hp Hd _ _ _. apply HQ. split; [by eapply published_step|done].
Qed.

Lemma wp_iter_next_any fuel ns pos okey kcap oval cap kl vl (Q : option (zdb_status_t * nat * iter_out) → W → Prop) w :
  kv_env sl w → length ns ≤ CONFIG_ZDB_MAX_KEY_LEN → (∀ r w', kv_reads w w' → Q r w') →
  wp (iter_next_loop fuel {| kv_db := Some the_db; kv_namespace_name := Some ns |} the_db ns pos
        okey kcap oval cap kl vl) Q w.
Proof.
  revert pos okey oval kl vl Q w. induction fuel as [|fuel IH]; intros pos okey oval kl vl Q w Henv Hns HQ; cbn [iter_next_loop].
  { by apply wp_ret, HQ. }
  apply wp_bind. eapply (wp_take_lock _ 0 0 sl); [apply kv_at_refl|..]; intros w1 Hat1 Hd1; cycle 1.
  { intros _. apply wp_ret, HQ. split; [by eapply kv_at_step|done]. }
  apply wp_bind, wp_db_get.
  assert (∀ A (m : M W A) (Q' : A → W → Prop), (∀ w2, kv_reads w w2 → wp m Q' w2) →
    wp (zdb_unlock_read the_db;; m) Q' w1) as Hrelease.
  { intros A m Q' Hm. apply wp_bind. eapply wp_release; [exact Hat1|]. intros w2 Hat2 Hd2. apply Hm.
    split; [by eapply kv_at_step|by etrans]. }
  cbv zeta. destruct (kv_ctx (w_db w1)) as [x|]; [|apply Hrelease; intros w2 R2; by apply wp_ret, HQ].
  destruct (_ <=? pos); [apply Hrelease; intros w2 R2; by apply wp_ret, HQ|].
  destruct (iter_scan _ ns pos) as [key pos']. apply Hrelease. intros w2 R2.
  destruct key as [|b key]; [by apply wp_ret, HQ|]. destruct (kcap <? _); [by apply wp_ret, HQ|].
  apply wp_bind. eapply (wp_kv_get_any ns); [by eapply kv_reads_env|done|]. intros [rc out] w3 R3.
  assert (kv_reads w w3) as R by (by etrans).
  repeat case_match; try by apply wp_ret, HQ. apply IH; [by eapply kv_reads_env|done|].
  intros r w4 R4. apply HQ. by etrans.
Qed.

Lemma wp_sys_iter_next ns pos okey kcap okl oval cap ovl h n hs
    (Q : option (zdb_status_t * nat * iter_out) → W → Prop) w :
  sys h n hs w → length ns ≤ CONFIG_ZDB_MAX_KEY_LEN → (∀ r w', sys h n hs w' → Q r w') →
  wp (zdb_kv_iter_next (Some {| it_kv := kv_handle ns; it_position := pos |}) okey kcap okl oval cap ovl) Q w.
Proof.
  intros Hsys Hns HQ. unfold zdb_kv_iter_next, kv_handle. destruct okey; [|by apply wp_ret, HQ].
  destruct (_ || _); [by apply wp_ret, HQ|]. apply wp_bind, wp_gets.
  eapply wp_iter_next_any; [by apply Hsys|done|]. intros r w' R. apply HQ. by eapply sys_reads.
Qed.

(** Opening an iterator loads the index when there is none yet. *)
Lemma wp_sys_iter_open kv out h n hs (Q : zdb_status_t * option zdb_kv_iter_t → W → Prop) w :
  sys h n hs w → (∀ r w', sys h n hs w' → Q r w') → wp (zdb_kv_iter_open kv out) Q w.
Proof.
  intros Hsys HQ. unfold zdb_kv_iter_open.
  destruct kv as [[[db|] ns]|]; try by apply wp_ret, HQ. destruct out; [|by apply wp_ret, HQ].
  assert (∀ w', idx_step w w' → (kv_ctx_ok (w_db w) → kv_ctx_ok (w_db w')) → sys h n hs w') as Hstep.
  { intros w' Hst Hix. eapply sys_kv; [done|by apply idx_step_kv_step| |done].
    eapply kv_env_step; [by apply idx_step_kv_step| |apply Hsys].
    destruct (sy_kv _ _ _ _ Hsys) as (_ & _ & Hf). intros id d Hd Hne. apply (Hf id); [|done].
    by rewrite <- (ix_store _ _ Hst). }
  apply wp_bind, wp_ctx_get_or_alloc.
  - intros w' Hst [Hn _] Hn'. apply wp_ret, HQ, Hstep; [done|]. unfold kv_ctx_ok, ctx_entries. by rewrite Hn, Hn'.
  - intros w' c' Hst Hc' Hor. apply wp_ret, HQ, Hstep; [done|].
    destruct Hor as [Hc0|[_ ?]]; [|done]. unfold kv_ctx_ok, ctx_entries. by rewrite Hc0, Hc'.
Qed.

Lemma wp_sys_kv_delete ns key h n hs (Q : zdb_status_t → W → Prop) w :
  sys h n hs w → length ns ≤ CONFIG_ZDB_MAX_KEY_LEN → (∀ r w', sys h n hs w' → Q r w') →
  wp (zdb_kv_delete (kv_handle ns) (Some key)) Q w.
Proof.
  intros Hsys Hns HQ. destruct (zdb_key_valid (Some key)) eqn:Hkv; cycle 1.
  { unfold zdb_kv_delete, kv_handle. rewrite Hkv. by apply wp_ret, HQ. }
  pose proof (sy_kv _ _ _ _ Hsys) as Henv.
  apply (wp_kv_delete sl); [by apply kv_env_ready|done|]. intros st evs w' Hp Hpost _.
  apply HQ. pose proof (published_step _ _ _ _ Hp) as Hst. eapply sys_kv; [done..| |unfold index_kept; apply Hpost].
  eapply kv_env_step; [done| |done]. eapply delete_post_fits; [done|apply Henv].
Qed.

(** ** The program and its calls *)

(** The instance, and what the program holds: a name per stream handle, the
    cursors that have a walk, the open documents, the query results not yet
    released; and how many aggregate queries have failed. *)
Record app := {
  ap_w : W;
  ap_streams : gmultiset cstring;
  ap_cursors : list (zdb_cursor_t FH);
  ap_docs : list zdb_doc_t;
  ap_results : list (list zdb_doc_metadata_t);
  ap_failed : nat;
}.

Definition app_start w : app :=
  {| ap_w := w; ap_streams := ∅; ap_cursors := []; ap_docs := []; ap_results := []; ap_failed := 0 |}.

(** The state after a call, and what the call returns. *)
Definition run {A} (m : M W A) (a : app) : app := a <| ap_w := (m (ap_w a)).2 |>.
Definition result {A} (m : M W A) (a : app) : A := (m (ap_w a)).1.

(** What an object is worth holding on to: a stream with an instance, a cursor
    with a walk, a document that was handed out. *)
Definition stream_of (t : option zdb_ts_t) : gmultiset cstring :=
  match t with
  | Some {| ts_db := Some _; ts_stream_name := Some name |} => {[+ name +]}
  | _ => ∅
  end.
Definition cursor_of (cu : option (zdb_cursor_t FH)) : list (zdb_cursor_t FH) :=
  match cu with
  | Some cu => match cu_impl cu with Some _ => [cu] | None => [] end
  | None => []
  end.
Definition doc_of (r : zdb_status_t * option zdb_doc_t) : list zdb_doc_t :=
  match r with (ZDB_OK, Some d) => [d] | _ => [] end.

Definition agg_failures (r : zdb_status_t * option zdb_ts_agg_result_t) : nat :=
  if bool_decide (r.1 = ZDB_OK) then 0 else 1.

(** One call of the API through valid handles, whatever it returns; fuel, where
    a call is given any, that is enough for it to return. *)
Inductive app_step (a : app) : app → Prop :=
  (* the key-value store *)
  | call_kv_set ns key value vlen :
      length ns ≤ CONFIG_ZDB_MAX_KEY_LEN → KvBulk.value_ok value vlen →
      app_step a (run (zdb_kv_set (kv_handle ns) (Some key) value vlen) a)
  | call_kv_get ns key oval cap :
      length ns ≤ CONFIG_ZDB_MAX_KEY_LEN →
      app_step a (run (zdb_kv_get (kv_handle ns) (Some key) oval cap true) a)
  | call_kv_delete ns key :
      length ns ≤ CONFIG_ZDB_MAX_KEY_LEN →
      app_step a (run (zdb_kv_delete (kv_handle ns) (Some key)) a)
  | call_kv_iter_open kv out : app_step a (run (zdb_kv_iter_open kv out) a)
  | call_kv_iter_next ns pos okey kcap okl oval cap ovl :
      length ns ≤ CONFIG_ZDB_MAX_KEY_LEN →
      app_step a (run (zdb_kv_iter_next (Some {| it_kv := kv_handle ns; it_position := pos |})
                         okey kcap okl oval cap ovl) a)
  | call_kv_reset_namespace ns fuel :
      LockLive K → length ns ≤ CONFIG_ZDB_MAX_KEY_LEN → CONFIG_ZDB_KV_INDEX_MAX_ENTRIES < fuel →
      app_step a (run (zdb_kv_reset_namespace fuel (kv_handle ns)) a)
  (* time series: streams *)
  | call_ts_open name :
      (∀ n, name = Some n → multiplicity n (ap_streams a) < 255) →
      let call := zdb_ts_open (Some the_db) name (Some {| ts_db := None; ts_stream_name := None |}) in
      app_step a ((run call a) <| ap_streams ::= λ hs, stream_of (result call a).2 ⊎ hs |>)
  | call_ts_close name :
      name ∈ ap_streams a →
      app_step a ((run (zdb_ts_close (handle name)) a) <| ap_streams ::= λ hs, hs ∖ {[+ name +]} |>)
  | call_ts_append ts x : app_step a (run (zdb_ts_append_i64 ts x) a)
  | call_ts_append_batch ts xs : app_step a (run (zdb_ts_append_batch_i64 ts xs) a)
  | call_ts_flush_async ts : app_step a (run (zdb_ts_flush_async ts) a)
  | call_ts_flush_sync ts : app_step a (run (zdb_ts_flush_sync ts) a)
  | call_ts_recover ts out : app_step a (run (zdb_ts_recover_stream ts out) a)
  | call_ts_watermark_set ts mark : app_step a (run (zdb_ts_watermark_set ts mark) a)
  | call_ts_watermark_get ts out : app_step a (run (zdb_ts_watermark_get ts out) a)
  | call_ts_watermark_clear ts : app_step a (run (zdb_ts_watermark_clear ts) a)
  | call_ts_query_aggregate fuel ts win agg out cu r :
      cu_impl cu = None → result (zdb_ts_query_aggregate fuel ts win agg out cu) a = Some r →
      app_step a ((run (zdb_ts_query_aggregate fuel ts win agg out cu) a)
                    <| ap_failed ::= λ n, n + agg_failures r |>)
  | call_ts_stats_reset : app_step a (run (zdb_ts_stats_reset (Some the_db)) a)
  (* time series: cursors *)
  | call_cursor_open ts win pred desc cu :
      cu_impl cu = None →
      let call := zdb_ts_cursor_open_dir ts win pred desc (Some cu) in
      app_step a ((run call a) <| ap_cursors ::= λ l, cursor_of (result call a).2 ++ l |>)
  | call_cursor_next i cu fuel out r :
      ap_cursors a !! i = Some cu → result (zdb_cursor_next fuel (Some cu) out) a = Some r →
      app_step a ((run (zdb_cursor_next fuel (Some cu) out) a)
                    <| ap_cursors ::= λ l, cursor_of r.2 ++ delete i l |>)
  | call_cursor_next_sample i cu fuel out r :
      ap_cursors a !! i = Some cu → result (zdb_ts_cursor_next_sample fuel (Some cu) out) a = Some r →
      app_step a ((run (zdb_ts_cursor_next_sample fuel (Some cu) out) a)
                    <| ap_cursors ::= λ l, cursor_of r.2 ++ delete i l |>)
  | call_cursor_reset i cu :
      ap_cursors a !! i = Some cu →
      let call := zdb_cursor_reset (Some cu) in
      app_step a ((run call a) <| ap_cursors ::= λ l, cursor_of (result call a).2 ++ delete i l |>)
  | call_cursor_close i cu :
      ap_cursors a !! i = Some cu →
      let call := zdb_cursor_close (Some cu) in
      app_step a ((run call a) <| ap_cursors ::= λ l, cursor_of (result call a).2 ++ delete i l |>)
  (* documents *)
  | call_doc_create coll id out :
      c_string coll → c_string id →
      let call := zdb_doc_create (Some the_db) (Some coll) (Some id) (Some out) in
      app_step a ((run call a) <| ap_docs ::= λ l, doc_of (result call a) ++ l |>)
  | call_doc_open coll id out :
      c_string coll → c_string id →
      let call := zdb_doc_open (Some the_db) (Some coll) (Some id) (Some out) in
      app_step a ((run call a) <| ap_docs ::= λ l, doc_of (result call a) ++ l |>)
  | call_doc_field_set i d name x :
      ap_docs a !! i = Some d → c_string name → write_ok x →
      let call := run_write d name x in
      app_step a ((run call a) <| ap_docs ::= λ l, default d (result call a).2 :: delete i l |>)
  | call_doc_save i d :
      ap_docs a !! i = Some d →
      let call := zdb_doc_save (Some d) in
      app_step a ((run call a) <| ap_docs ::= λ l, default d (result call a).2 :: delete i l |>)
  | call_doc_close i d :
      ap_docs a !! i = Some d →
      app_step a ((run (zdb_doc_close (Some d)) a) <| ap_docs ::= λ l, delete i l |>)
  | call_doc_delete coll id :
      app_step a (run (zdb_doc_delete (Some the_db) (Some coll) (Some id)) a)
  | call_doc_query q out capacity :
      (0 ≤ qu_limit q < 2 ^ 32)%Z →
      let call := zdb_doc_query (Some the_db) (Some q) out (Some capacity) in
      app_step a ((run call a) <| ap_results ::= λ l, (result call a).1.2 :: l |>)
  | call_doc_metadata_free i l :
      ap_results a !! i = Some l →
      app_step a ((run (zdb_doc_metadata_free (Some l) (length l)) a) <| ap_results ::= λ r, delete i r |>)
  (* what happens besides the program's calls *)
  | work_queue_runs : app_step a (run (let_work_run the_db) a)
  | volume_changes fs' : app_step a (a <| ap_w ::= λ w, w <| w_fs := fs' |> |>)
  | kernel_runs k' : k_same (w_k (ap_w a)) k' → app_step a (a <| ap_w ::= λ w, w <| w_k := k' |> |>).

(** What the program holds on the heap. *)
Definition app_blocks (a : app) : nat :=
  sum_list_with doc_blocks (ap_docs a) + sum_list_with metadata_blocks (ap_results a).

(** The invariant: the objects the program holds are sound, the instance's
    components agree, and what is in use beyond them is one cursor block at
    most for every aggregate query that failed. *)
Record app_ok (a : app) : Prop := {
  ao_cursors : Forall owned_cursor (ap_cursors a);
  ao_docs : Forall doc_ok (ap_docs a);
  ao_sys : ∃ lost, lost ≤ ap_failed a ∧
    sys (app_blocks a) (length (ap_cursors a) + lost) (ap_streams a) (ap_w a);
}.

(** ** Every call preserves it *)

Lemma sum_delete {A} (f : A → nat) i x (l : list A) :
  l !! i = Some x → sum_list_with f l = f x + sum_list_with f (delete i l).
Proof.
  revert i. induction l as [|y l IH]; intros [|i] Hi; simplify_eq/=; [done|]. rewrite (IH i Hi). lia.
Qed.

(** Calls that take nothing for the program. *)
Lemma app_ok_world a w' :
  app_ok a → (∀ h n hs, sys h n hs (ap_w a) → sys h n hs w') → app_ok (a <| ap_w := w' |>).
Proof. intros [Hc Hd (lost & Hl & Hs)] Hw. split; [done..|]. exists lost. split; [done|]. by apply Hw. Qed.

Lemma app_ok_run {A} (m : M W A) a :
  app_ok a → (∀ h n hs, sys h n hs (ap_w a) → wp m (λ _ w', sys h n hs w') (ap_w a)) → app_ok (run m a).
Proof. intros Ha Hm. by apply app_ok_world. Qed.

(** Calls on a cursor that stays open. *)
Lemma app_ok_cursor a w' i cu (r : option (zdb_cursor_t FH)) :
  app_ok a → ap_cursors a !! i = Some cu → (∃ cu', r = Some cu' ∧ owned_cursor cu') →
  (∀ h n hs, sys h n hs (ap_w a) → sys h n hs w') →
  app_ok (a <| ap_w := w' |> <| ap_cursors ::= λ l, cursor_of r ++ delete i l |>).
Proof.
  intros [Hc Hd (lost & Hl & Hs)] Hi (cu' & -> & Ho) Hw. pose proof Ho as (_ & cc & Hcc & _).
  assert (length (ap_cursors a) = S (length (delete i (ap_cursors a)))) as Hlen.
  { rewrite length_delete by (by eexists). apply lookup_lt_Some in Hi. lia. }
  unfold cursor_of. rewrite Hcc. split; simpl; [|done|].
  - constructor; [done|]. by apply Forall_delete.
  - exists lost. split; [done|]. rewrite <- Hlen. by apply Hw.
Qed.

(** Calls on a document, which take and give back blocks. *)
Lemma app_ok_doc a w' i d d' :
  app_ok a → ap_docs a !! i = Some d → doc_ok d' →
  doc_step (doc_blocks d) (doc_blocks d') (ap_w a) w' →
  app_ok (a <| ap_w := w' |> <| ap_docs ::= λ l, d' :: delete i l |>).
Proof.
  intros [Hc Hd (lost & Hl & Hs)] Hi Hok Hst. split; simpl; [done| |].
  - constructor; [done|]. by apply Forall_delete.
  - exists lost. split; [done|]. unfold app_blocks in *. simpl. rewrite (sum_delete _ _ _ _ Hi) in Hs.
    rewrite <- !Nat.add_assoc in *. by eapply (sys_doc _ _ _ _ _ (ap_w a)).
Qed.

Lemma app_ok_doc_taken a w' r :
  app_ok a → (∀ d, doc_of r = [d] → doc_ok d) →
  doc_step 0 (sum_list_with doc_blocks (doc_of r)) (ap_w a) w' →
  app_ok (a <| ap_w := w' |> <| ap_docs ::= λ l, doc_of r ++ l |>).
Proof.
  intros [Hc Hd (lost & Hl & Hs)] Hok Hst. split; simpl; [done| |].
  - apply Forall_app. split; [|done]. unfold doc_of in *. repeat case_match; constructor; [by apply Hok|constructor].
  - exists lost. split; [done|]. unfold app_blocks in *. simpl. rewrite sum_list_with_app, <- Nat.add_assoc.
    by apply (sys_doc 0 _ _ _ _ (ap_w a)).
Qed.

(** A document the program holds is part of what is in use. *)
Lemma app_ok_heap a i d : app_ok a → ap_docs a !! i = Some d → doc_ok d ∧ doc_blocks d ≤ heap_used (w_k (ap_w a)).
Proof.
  intros [Hc Hd (lost & Hl & Hs)] Hi. split; [by eapply Forall_lookup_1|].
  rewrite (sy_heap _ _ _ _ Hs). unfold app_blocks. rewrite (sum_delete _ _ _ _ Hi). lia.
Qed.

Context (reads_ok : KvReadsOk F) (with_ts : CONFIG_ZDB_TS = true).
Context (defaults_ok : Forall default_ok (default [] (kv_defaults c))).
Context (block_fits : sizeof_record_i64 ≤ ingest_limit).

Lemma step_kv_set a ns key value vlen :
  app_ok a → length ns ≤ CONFIG_ZDB_MAX_KEY_LEN → KvBulk.value_ok value vlen →
  app_ok (run (zdb_kv_set (kv_handle ns) (Some key) value vlen) a).
Proof.
  intros Ha Hns Hv. apply app_ok_run; [done|]. intros h n hs Hsys.
  eapply (wp_kv_set_any sl); [done|by apply Hsys|done..|]. intros st w' Hst Henv Hix _. by eapply sys_kv.
Qed.

Lemma step_kv_reset a ns fuel :
  app_ok a → LockLive K → length ns ≤ CONFIG_ZDB_MAX_KEY_LEN → CONFIG_ZDB_KV_INDEX_MAX_ENTRIES < fuel →
  app_ok (run (zdb_kv_reset_namespace fuel (kv_handle ns)) a).
Proof.
  intros Ha Hlive Hns Hf. apply app_ok_run; [done|]. intros h n hs Hsys.
  eapply wp_reset_namespace; [done..|by apply Hsys|done|by apply Hsys|done|by apply Hsys|done|].
  intros st w' Hst Henv Hix _ _. by eapply sys_kv.
Qed.

Lemma step_moves {A} (m : M W A) a : app_ok a → moves 0 0 any m → app_ok (run m a).
Proof. intros Ha Hm. apply app_ok_run; [done|]. intros h n hs Hsys. by eapply wp_sys_moves. Qed.

Lemma step_fills {A} (m : M W A) a : app_ok a → fills 0 0 m → app_ok (run m a).
Proof. intros Ha Hm. apply app_ok_run; [done|]. intros h n hs Hsys. by eapply wp_sys_fills. Qed.

Lemma step_ts_open a name :
  app_ok a → (∀ n, name = Some n → multiplicity n (ap_streams a) < 255) →
  wp (zdb_ts_open (Some the_db) name (Some {| ts_db := None; ts_stream_name := None |})) (λ r w',
    app_ok (a <| ap_w := w' |> <| ap_streams ::= λ hs, stream_of r.2 ⊎ hs |>)) (ap_w a).
Proof.
  intros [Hc Hd (lost & Hl & Hs)] Hlt.
  apply wp_ts_open_claims; [by eapply sys_ts_inv|done|]. intros rc t w' M L _ Hyes.
  split; simpl; [done..|]. exists lost. split; [done|]. change (app_blocks _) with (app_blocks a).
  destruct (ts_db t) as [db|] eqn:Hdb; cycle 1.
  { unfold stream_of. destruct t as [tdb tn]. simpl in Hdb. subst tdb. rewrite (left_id_L ∅ (⊎)).
    by eapply sys_moved. }
  destruct Hyes as (nm & -> & -> & C); [by eexists|]. simpl. eapply sys_claimed; [done..|]. by apply Hlt.
Qed.

Lemma step_ts_close a name :
  app_ok a → name ∈ ap_streams a →
  app_ok ((run (zdb_ts_close (handle name)) a) <| ap_streams ::= λ hs, hs ∖ {[+ name +]} |>).
Proof.
  intros [Hc Hd (lost & Hl & Hs)] Hin.
  assert (0 < multiplicity name (ap_streams a)) as Hpos by (by apply elem_of_multiplicity).
  assert (wp (zdb_ts_close (handle name)) (λ _ w', dropped name (ap_w a) w' ∧
    lock_depth (w_k w') = lock_depth (w_k (ap_w a))) (ap_w a)) as [D L].
  { apply wp_ts_close_drops; [by eapply sys_ts_inv| |done].
    eapply counted_le; [|by apply (sy_handles _ _ _ _ Hs)]. lia. }
  split; simpl; [done..|]. exists lost. split; [done|]. by eapply sys_dropped.
Qed.

Lemma step_cursor_open a ts win pred desc cu :
  app_ok a → cu_impl cu = None →
  wp (zdb_ts_cursor_open_dir ts win pred desc (Some cu)) (λ r w',
    app_ok (a <| ap_w := w' |> <| ap_cursors ::= λ l, cursor_of r.2 ++ l |>)) (ap_w a).
Proof.
  intros [Hc Hd (lost & Hl & Hs)] Hcu. apply wp_cursor_open_takes; [by eapply sys_ts_inv|done|].
  intros rc cu' w' T L Hok _.
  assert (0 ≤ cursor_blocks cu')%Z as Hb by (unfold cursor_blocks; destruct (cu_impl cu'); lia).
  pose proof (sys_took _ _ _ _ _ _ Hs T L ltac:(lia)) as Hs'. unfold cursor_of, cursor_blocks in *. cbn [snd].
  destruct Hok as [Hn|Ho].
  - rewrite Hn in *. split; simpl; [done..|]. exists lost. split; [done|]. by rewrite Z.add_0_r in Hs'.
  - pose proof Ho as (_ & cc & Hcc & _). rewrite Hcc in *. split; simpl; [by constructor|done|].
    exists lost. split; [done|]. change (app_blocks _) with (app_blocks a).
    by replace (S (length (ap_cursors a)) + lost)%Z with (length (ap_cursors a) + lost + 1)%Z by lia.
Qed.

Lemma step_cursor_close a i cu :
  app_ok a → ap_cursors a !! i = Some cu →
  wp (zdb_cursor_close (Some cu)) (λ r w',
    app_ok (a <| ap_w := w' |> <| ap_cursors ::= λ l, cursor_of r.2 ++ delete i l |>)) (ap_w a).
Proof.
  intros [Hc Hd (lost & Hl & Hs)] Hi. pose proof (Forall_lookup_1 _ _ _ _ Hc Hi) as Ho.
  assert (length (ap_cursors a) = S (length (delete i (ap_cursors a)))) as Hlen.
  { rewrite length_delete by (by eexists). apply lookup_lt_Some in Hi. lia. }
  assert (cursor_blocks cu = 1)%Z as Hb by (destruct Ho as (_ & ? & Hcc & _); unfold cursor_blocks; by rewrite Hcc).
  apply wp_cursor_close; [done|by eapply sys_ts_inv|by right| |].
  { rewrite Hb. eapply sys_covered; [done|]. lia. }
  rewrite Hb. intros rc cu' w' T L Hn. unfold cursor_of. cbn [snd]. rewrite Hn.
  split; simpl; [by apply Forall_delete|done|]. exists lost. split; [done|]. change (app_blocks _) with (app_blocks a).
  replace (length (delete i (ap_cursors a)) + lost)%Z with (length (ap_cursors a) + lost + -1)%Z by lia.
  eapply sys_took; [done..|]. lia.
Qed.

(** A call on an open cursor that leaves it open. *)
Lemma step_cursor_call {A} (m : M W A) (f : A → option (zdb_cursor_t FH)) (R : A → Prop) a i cu :
  app_ok a → ap_cursors a !! i = Some cu →
  (owned_cursor cu → moves 0 0 R m) → (owned_cursor cu → ∀ r, R r → r = result m a → ∃ cu', f r = Some cu' ∧ owned_cursor cu') →
  app_ok ((run m a) <| ap_cursors ::= λ l, cursor_of (f (result m a)) ++ delete i l |>).
Proof.
  intros Ha Hi Hm Hf. assert (owned_cursor cu) as Ho by (eapply Forall_lookup_1; [apply Ha|done]).
  assert (∀ h n hs, sys h n hs (ap_w a) → wp m (λ r w', sys h n hs w' ∧ R r) (ap_w a)) as Hwp.
  { intros h n hs Hsys. by eapply wp_sys_moves; [apply Hm| |]. }
  apply (app_ok_cursor _ _ _ cu); [done|done| |].
  - destruct Ha as [_ _ (lost & _ & Hs)]. apply Hf; [done| |done]. by apply (Hwp _ _ _ Hs).
  - intros h n hs Hsys. by apply (Hwp h n hs).
Qed.

Lemma step_cursor_next {A} (m : M W (option (A * option (zdb_cursor_t FH)))) r a i cu :
  app_ok a → ap_cursors a !! i = Some cu → (owned_cursor cu → moves 0 0 owned_next m) →
  result m a = Some r →
  app_ok ((run m a) <| ap_cursors ::= λ l, cursor_of r.2 ++ delete i l |>).
Proof.
  intros Ha Hi Hm Hr. pose proof (step_cursor_call m (λ x, x ≫= snd) owned_next a i cu Ha Hi Hm) as H.
  rewrite Hr in H. apply H. intros _ x Hx ->. by apply Hx.
Qed.

Lemma step_aggregate a fuel ts win agg out cu r :
  app_ok a → cu_impl cu = None → result (zdb_ts_query_aggregate fuel ts win agg out cu) a = Some r →
  app_ok ((run (zdb_ts_query_aggregate fuel ts win agg out cu) a) <| ap_failed ::= λ n, n + agg_failures r |>).
Proof.
  intros [Hc Hd (lost & Hl & Hs)] Hcu Hr.
  assert (wp (zdb_ts_query_aggregate fuel ts win agg out cu) (λ r w', ∃ n, took n (ap_w a) w' ∧
    lock_depth (w_k w') = lock_depth (w_k (ap_w a)) ∧ (0 ≤ n ≤ 1)%Z ∧ (agg_status r = Some ZDB_OK → n = 0%Z)) (ap_w a)) as Hwp.
  { apply wp_query_aggregate_takes; [done|by eapply sys_ts_inv|done|]. intros r' n w' T L Hn Hok. by exists n. }
  destruct Hwp as (n & T & L & Hn & Hok). unfold result in Hr. rewrite Hr in Hok. simpl in Hok.
  split; simpl; [done..|]. exists (lost + Z.to_nat n). split.
  - unfold agg_failures. case_bool_decide as Hst; [rewrite Hok by congruence; simpl; lia|lia].
  - change (app_blocks _) with (app_blocks a).
    replace (length (ap_cursors a) + (lost + Z.to_nat n)%nat)%Z with (length (ap_cursors a) + lost + n)%Z by lia.
    eapply sys_took; [done..|]. lia.
Qed.

Lemma app_cfg a : app_ok a → cfg (w_db (ap_w a)) = Some c.
Proof. intros [_ _ (lost & _ & Hs)]. apply Hs. Qed.

Lemma step_doc_create a coll id out :
  app_ok a → c_string coll → c_string id →
  wp (zdb_doc_create (Some the_db) (Some coll) (Some id) (Some out)) (λ r w',
    app_ok (a <| ap_w := w' |> <| ap_docs ::= λ l, doc_of r ++ l |>)) (ap_w a).
Proof.
  intros Ha Hcs Hids. apply wp_doc_create; [done..| |].
  - intros st d w' Hst H _ _. apply (app_ok_doc_taken a); [done| |].
    + by destruct st.
    + replace (doc_of _) with (@nil zdb_doc_t) by (by destruct st). by apply doc_step_held.
  - intros d w' Hfr _ _ H _. apply (app_ok_doc_taken a); [done| |].
    + intros ? [= <-]. apply Hfr.
    + simpl. rewrite (fr_blocks _ _ _ Hfr). by apply doc_step_held.
Qed.

Lemma step_doc_open a coll id out :
  app_ok a → c_string coll → c_string id →
  wp (zdb_doc_open (Some the_db) (Some coll) (Some id) (Some out)) (λ r w',
    app_ok (a <| ap_w := w' |> <| ap_docs ::= λ l, doc_of r ++ l |>)) (ap_w a).
Proof.
  intros Ha Hcs Hids. eapply wp_open_impl; [by apply app_cfg|done..| |].
  - intros d ct w' Hoa _ Hst _. apply (app_ok_doc_taken a); [done| |].
    + intros ? [= <-]. apply Hoa.
    + simpl. by rewrite Nat.add_0_r.
  - intros st d w' Hst H _ _. apply (app_ok_doc_taken a); [done| |].
    + by destruct st.
    + by replace (doc_of _) with (@nil zdb_doc_t) by (by destruct st).
Qed.

Lemma step_doc_set a i d name x :
  app_ok a → ap_docs a !! i = Some d → c_string name → write_ok x →
  wp (run_write d name x) (λ r w',
    app_ok (a <| ap_w := w' |> <| ap_docs ::= λ l, default d r.2 :: delete i l |>)) (ap_w a).
Proof.
  intros Ha Hi Hn Hx. destruct (app_ok_heap _ _ _ Ha Hi) as [Hok Hh]. apply wp_run_write; [done..|].
  intros st d' w' [Hok' H _ _ _ _ _]. by apply (app_ok_doc a _ i d), doc_step_held.
Qed.

Lemma step_doc_save a i d :
  app_ok a → ap_docs a !! i = Some d →
  wp (zdb_doc_save (Some d)) (λ r w',
    app_ok (a <| ap_w := w' |> <| ap_docs ::= λ l, default d r.2 :: delete i l |>)) (ap_w a).
Proof.
  intros Ha Hi. destruct (app_ok_heap _ _ _ Ha Hi) as [Hok Hh].
  destruct (dk_coll _ Hok) as [coll Hcoll], (dk_id _ Hok) as [id Hid].
  eapply wp_doc_save; [done|by apply app_cfg|done..|]. intros st d' w' [(now & Hnow & ->) Hst _ _ _].
  apply (app_ok_doc a _ i d); [done|done|by apply doc_ok_saved|].
  change (doc_blocks (d <| updated_ms := now |>)) with (doc_blocks d).
  by apply (doc_step_frame (doc_blocks d) 0 0).
Qed.

Lemma step_doc_close a i d :
  app_ok a → ap_docs a !! i = Some d →
  app_ok ((run (zdb_doc_close (Some d)) a) <| ap_docs ::= λ l, delete i l |>).
Proof.
  intros Ha Hi. destruct (app_ok_heap _ _ _ Ha Hi) as [Hok Hh].
  assert (wp (zdb_doc_close (Some d)) (λ _ w', doc_step (doc_blocks d) 0 (ap_w a) w') (ap_w a)) as Hst.
  { apply wp_doc_close; [done..|]. intros d' w' _ H _. by apply doc_step_held. }
  destruct Ha as [Hc Hd (lost & Hl & Hs)]. split; simpl; [done|by apply Forall_delete|]. exists lost. split; [done|].
  unfold app_blocks in *. simpl. rewrite (sum_delete _ _ _ _ Hi), <- Nat.add_assoc in Hs.
  by apply (sys_doc _ _ _ _ _ _ _ Hs Hst).
Qed.

Lemma step_doc_delete a coll id :
  app_ok a → app_ok (run (zdb_doc_delete (Some the_db) (Some coll) (Some id)) a).
Proof.
  intros Ha. apply app_ok_run; [done|]. intros h n hs Hsys.
  eapply wp_doc_delete; [by apply app_cfg|]. intros st w' [Hst _ _ _ _ _]. by apply (sys_doc 0 0 h n hs (ap_w a)).
Qed.

Lemma step_doc_query a q out capacity :
  app_ok a → (0 ≤ qu_limit q < 2 ^ 32)%Z →
  wp (zdb_doc_query (Some the_db) (Some q) out (Some capacity)) (λ r w',
    app_ok (a <| ap_w := w' |> <| ap_results ::= λ l, r.1.2 :: l |>)) (ap_w a).
Proof.
  intros Ha Hq. pose proof Ha as [Hc Hd (lost & Hl & Hs)].
  eapply wp_doc_query; [by apply app_cfg|done|]. intros st l count w' [Hst _ Hr _ _ _ _].
  split; simpl; [done..|]. exists lost. split; [done|]. unfold app_blocks in *. simpl.
  rewrite (reported_blocks _ _ _ _ Hr).
  replace (_ + (2 * length l + _)) with
    (2 * length l + (sum_list_with doc_blocks (ap_docs a) + sum_list_with metadata_blocks (ap_results a))) by lia.
  by apply (sys_doc 0 _ _ _ _ (ap_w a)).
Qed.

Lemma step_metadata_free a i l :
  app_ok a → ap_results a !! i = Some l →
  app_ok ((run (zdb_doc_metadata_free (Some l) (length l)) a) <| ap_results ::= λ r, delete i r |>).
Proof.
  intros [Hc Hd (lost & Hl & Hs)] Hi. pose proof (sum_delete metadata_blocks _ _ _ Hi) as Hsum.
  assert (wp (zdb_doc_metadata_free (Some l) (length l)) (λ _ w', doc_step (metadata_blocks l) 0 (ap_w a) w') (ap_w a)) as Hst.
  { unfold zdb_doc_metadata_free. rewrite bool_decide_false by done. cbn [andb].
    change (default [] (Some l)) with l. rewrite take_ge by done. apply wp_bind, wp_free_entries.
    - rewrite (sy_heap _ _ _ _ Hs). unfold app_blocks. lia.
    - intros w' H. apply wp_ret. by apply doc_step_held. }
  split; simpl; [done..|]. exists lost. split; [done|]. unfold app_blocks in *. simpl. rewrite Hsum in Hs.
  replace (_ + (metadata_blocks l + _)) with (metadata_blocks l + (sum_list_with doc_blocks (ap_docs a) +
    sum_list_with metadata_blocks (delete i (ap_results a)))) in Hs by lia.
  by apply (sys_doc _ _ _ _ _ _ _ Hs Hst).
Qed.

(** The invariant is inductive. *)
Lemma app_step_ok a a' : app_step a a' → app_ok a → app_ok a'.
Proof.
  intros Hstep Ha. destruct Hstep.
  - by apply step_kv_set.
  - apply app_ok_run; [done|]. intros h n hs Hsys. eapply wp_kv_get_any; [by apply Hsys|done|].
    intros r w' R. by eapply sys_reads.
  - apply app_ok_run; [done|]. intros h n hs Hsys. by eapply wp_sys_kv_delete.
  - apply app_ok_run; [done|]. intros h n hs Hsys. by eapply wp_sys_iter_open.
  - apply app_ok_run; [done|]. intros h n hs Hsys. by eapply wp_sys_iter_next.
  - by apply step_kv_reset.
  - by apply step_ts_open.
  - by apply step_ts_close.
  - apply step_fills; [done|by apply fills_append_i64].
  - apply step_fills; [done|by apply fills_append_batch_i64].
  - apply step_moves; [done|apply moves_flush_async].
  - apply step_moves; [done|apply moves_flush_sync].
  - apply step_moves; [done|apply moves_recover_stream].
  - apply step_moves; [done|apply moves_watermark_set].
  - apply step_moves; [done|apply moves_watermark_get].
  - apply step_moves; [done|apply moves_watermark_clear].
  - by apply step_aggregate.
  - apply app_ok_run; [done|]. intros h n hs []. by apply wp_db_set.
  - by apply step_cursor_open.
  - eapply step_cursor_next; [done..| |done]. intros. by apply moves_cursor_next.
  - eapply step_cursor_next; [done..| |done]. intros. by apply moves_next_sample.
  - eapply (step_cursor_call _ snd); [done..|intros; apply moves_cursor_reset|].
    intros Ho r (cu' & Hr & Hown) _. exists cu'. split; [done|].
    destruct (same_owner_ok _ _ Hown) as [Hn|]; [by right| |done].
    destruct Ho as (_ & cc & Hcc & _). destruct Hown as [_ Hi]. by rewrite Hn, Hcc in Hi.
  - by apply step_cursor_close.
  - by apply step_doc_create.
  - by apply step_doc_open.
  - by apply step_doc_set.
  - by apply step_doc_save.
  - by apply step_doc_close.
  - by apply step_doc_delete.
  - by apply step_doc_query.
  - by apply step_metadata_free.
  - apply step_moves; [done|apply moves_let_work_run].
  - apply app_ok_world; [done|]. intros h n hs Hsys. by apply (sys_doc 0 0 h n hs (ap_w a)), doc_step_fs.
  - apply app_ok_world; [done|]. intros h n hs Hsys. destruct H as [Kl Ks Kh].
    apply (sys_doc 0 0 h n hs (ap_w a)); [done|]. by apply doc_step_held, held_k; [| |lia].
Qed.

Lemma app_steps_ok a a' : rtc app_step a a' → app_ok a → app_ok a'.
Proof. induction 1; [done|]. eauto using app_step_ok. Qed.

(** ** The beginning and the end of a run *)

(** Initialised, the instance holds nothing but, maybe, the index. *)
Lemma wp_init_sys w :
  is_Some (core_slab (w_db w)) → is_Some (cursor_slab (w_db w)) →
  kv_io_slab (w_db w) = Some sl → kv_fits (slab_block_size sl) (w_f w) → kv_backend_fs c = true →
  heap0 = heap_used (w_k w) → (∀ s, slab0 s = slab_used (w_k w) s) →
  wp (zdb_init (Some the_db) (Some c)) (λ _ w', sys 0 0 ∅ w') w.
Proof.
  intros [cs Hcs] [us Hus] Hsl Hfits Hb Hh0 Hs0. unfold zdb_init.
  apply wp_bind, wp_db_get, wp_bind, wp_db_get. rewrite Hcs, Hus.
  apply wp_bind, wp_on_k_, wp_bind, wp_db_set. pose proof (k_mutex_init_law (w_k w)) as (Hl & Hs & Hh).
  match goal with |- wp _ _ ?w => set (w1 := w) end.
  assert (sys 0 0 ∅ w1) as Hsys1.
  { split; try done; simpl.
    - split_and!; [by exists c|done|done].
    - split; [simpl; lia|constructor].
    - unfold ctx_blocks. simpl. lia.
    - intros s. unfold slack, ts_held. simpl. rewrite Hs, Hs0. lia.
    - intros name. rewrite multiplicity_empty. lia. }
  apply wp_bind. eapply (wp_mono _ (λ _ w2, sys 0 0 ∅ w2)).
  { destruct CONFIG_ZDB_EVENTING; [|by apply wp_ret]. apply wp_db_set. destruct Hsys1.
    unfold bind_listeners. destruct CONFIG_ZDB_TS, CONFIG_ZDB_DOC; by split. }
  intros _ w2 Hsys2. apply wp_bind. eapply (wp_mono _ (λ _ w3, sys 0 0 ∅ w3)).
  { destruct CONFIG_ZDB_KV; [|by apply wp_ret]. destruct (_ && _); [|by apply wp_ret].
    eapply (wp_defaults_apply_ns sl); [done|by apply Hsys2|by apply Hsys2|done|].
    intros st w3 Hst Henv Hix _ _. by eapply sys_kv. }
  intros st w3 Hsys3. apply wp_bind, wp_db_get.
  assert (∀ h st', wp (if CONFIG_ZDB_EVENTING then zdb_emit_core_event (Some the_db) ZDB_CORE_EVENT_INIT h h st' else ret tt)
    (λ _ w', sys 0 0 ∅ w') w3) as Hemit.
  { intros h st'. destruct CONFIG_ZDB_EVENTING; [|by apply wp_ret]. apply wp_emit_core.
    intros e w4 _ _ _ _ E. by apply (sys_doc 0 0 0 0 ∅ w3), doc_step_held, (held_emitted _ _ _ E). }
  destruct (negb _); (apply wp_bind; eapply wp_mono; [apply Hemit|]; intros [] w4 Hsys4; by apply wp_ret).
Qed.

Lemma app_start_ok w : sys 0 0 ∅ w → app_ok (app_start w).
Proof. intros H. split; [constructor|constructor|]. by exists 0. Qed.
End system.

(** ** Reachable states *)

Section reachable.
Context {Cfg : Config} {CfgOk : ConfigOk Cfg} {K F FS FH DH : Type}.
Context `{!Kernel K, !KernelLaws K, !KvBackend F, !KvBackendLaws F}.
Context `{!FileSys FS FH DH, !FileSysLaws FS FH DH}.
Context {CRC : Crc32} {CRCLaws : Crc32Laws}.
Abbreviation W := (world K F FS).
Implicit Types (w : W) (a : app (K := K) (F := F) (FS := FS) (FH := FH)).

(** A machine an instance can be initialised on: its slabs are there, with
    blocks that hold a record of the time series, the records the backend holds
    fit the I/O block and can be read, and the table of defaults is one the C
    types allow. *)
Record bootable (c : zdb_cfg_t) (sl : k_mem_slab) w : Prop := {
  bo_ts : CONFIG_ZDB_TS = true;
  bo_record : sizeof_record_i64 ≤ ingest_limit;
  bo_reads : KvReadsOk F;
  bo_core : is_Some (core_slab (w_db w));
  bo_cursor : is_Some (cursor_slab (w_db w));
  bo_io : kv_io_slab (w_db w) = Some sl;
  bo_fits : kv_fits (slab_block_size sl) (w_f w);
  bo_backend : kv_backend_fs c = true;
  bo_defaults : Forall default_ok (default [] (kv_defaults c));
}.

(** The states a program of calls can bring the instance to. *)
Definition reached (c : zdb_cfg_t) w0 a : Prop :=
  rtc app_step (app_start (zdb_init (Some the_db) (Some c) w0).2) a.

Lemma reached_ok c sl w0 a :
  bootable c sl w0 → reached c w0 a → app_ok c sl (heap_used (w_k w0)) (slab_used (w_k w0)) a.
Proof.
  intros [HT Hrec Hr Hcs Hus Hsl Hfits Hb Hdef] Hreach.
  pose proof (wp_init_sys (FH := FH) (DH := DH) c sl (heap_used (w_k w0)) (slab_used (w_k w0)) Hr HT Hdef Hrec w0 Hcs Hus Hsl Hfits Hb
    eq_refl (λ s, eq_refl)) as H.
  unfold wp in H. apply (app_start_ok (FH := FH)) in H.
  exact (app_steps_ok c sl _ _ Hr HT Hdef Hrec _ _ Hreach H).
Qed.
End reachable.
