(* ===== verification/ShellTextSpec.v ===== *)
(** * Text and values in the shell

    The digits that are printed are the digits that are read: hexadecimal bytes
    and decimal numbers, signed and unsigned. *)

From S2P Require Import Prelude Config Doubles CText Env Types Events Core Shell.

(** ** Hexadecimal *)

Definition is_hex (b : byte) : Prop := (0 ≤ zdb_shell_hex_nibble b < 16)%Z.

Lemma fmt_02x_nibbles b :
  ∃ h l, fmt_02x b = [h; l] ∧ is_hex h ∧ is_hex l ∧ h ≠ Byte.x58 ∧ h ≠ Byte.x78 ∧ l ≠ Byte.x58 ∧
    l ≠ Byte.x78 ∧
    byte.of_Z (Z.lor (Z.shiftl (zdb_shell_hex_nibble h) 4) (zdb_shell_hex_nibble l)) = b.
Proof.
  unfold is_hex.
  destruct b; (eexists _, _; split; [reflexivity|]; split_and!; try discriminate; vm_compute; auto; split; congruence).
Qed.

Definition strip_0x (s : cstring) : cstring :=
  match s with
  | z :: x :: r =>
      if (byte.unsigned z =? 48)%Z && ((byte.unsigned x =? 120)%Z || (byte.unsigned x =? 88)%Z)
      then r else s
  | _ => s
  end.

Lemma hex_loop_fmt v : hex_loop (flat_map fmt_02x v) = (v, true).
Proof.
  induction v as [|b v IH]; [done|]. cbn [flat_map].
  destruct (fmt_02x_nibbles b) as (h & l & -> & Hh & Hl & _ & _ & _ & _ & Hb). cbn [app hex_loop].
  unfold is_hex in *. rewrite !(proj2 (Z.ltb_ge _ _)) by lia. by rewrite IH, Hb.
Qed.

Lemma length_fmt_all v : length (flat_map fmt_02x v) = 2 * length v.
Proof. induction v as [|b v IH]; [done|]. cbn [flat_map]. rewrite length_app, IH. simpl. lia. Qed.

Lemma strip_0x_fmt v : strip_0x (flat_map fmt_02x v) = flat_map fmt_02x v.
Proof.
  destruct v as [|b v]; [done|]. cbn [flat_map].
  destruct (fmt_02x_nibbles b) as (h & l & -> & _ & _ & _ & _ & Hx & Hx' & _). cbn [app strip_0x].
  replace ((byte.unsigned l =? 120)%Z || (byte.unsigned l =? 88)%Z) with false; [by rewrite andb_false_r|].
  symmetry. apply orb_false_iff. split; apply Z.eqb_neq; intros Heq.
  - apply Hx'. by apply byte.unsigned_inj.
  - apply Hx. by apply byte.unsigned_inj.
Qed.

Lemma hex_lines_concat fuel v : length v ≤ fuel → concat (hex_lines fuel v) = flat_map fmt_02x v.
Proof.
  revert v. induction fuel as [|fuel IH]; intros v Hv; [by destruct v; [|simpl in Hv; lia]|].
  destruct v as [|b v]; [done|]. cbn [hex_lines concat].
  rewrite IH by (rewrite length_drop; unfold ZDB_SHELL_HEX_PER_LINE; simpl in *; lia).
  rewrite <- flat_map_app. by rewrite take_drop.
Qed.

Lemma hex_lines_short fuel v : Forall (λ l, length l ≤ 32) (hex_lines fuel v).
Proof.
  revert v. induction fuel as [|fuel IH]; intros v; [constructor|]. destruct v as [|b v]; [constructor|].
  cbn [hex_lines]. constructor; [|apply IH]. rewrite length_fmt_all, length_take.
  unfold ZDB_SHELL_HEX_PER_LINE. lia.
Qed.

(** What pairs of digits say. *)
Fixpoint hex_value (s : cstring) : list byte :=
  match s with
  | h :: l :: s =>
      byte.of_Z (16 * zdb_shell_hex_nibble h + zdb_shell_hex_nibble l) :: hex_value s
  | _ => []
  end.

Lemma nibble_range b : (-1 ≤ zdb_shell_hex_nibble b < 16)%Z.
Proof.
  unfold zdb_shell_hex_nibble. pose proof (byte.unsigned_range b).
  repeat case_match; rewrite ?andb_true_iff, ?Z.leb_le in *; lia.
Qed.

Lemma nibbles_join h l : (0 ≤ h)%Z → (0 ≤ l < 16)%Z → Z.lor (Z.shiftl h 4) l = (16 * h + l)%Z.
Proof.
  intros Hh Hl. rewrite Z.shiftl_mul_pow2 by lia.
  assert (Z.land (h * 2 ^ 4) l = 0)%Z as Hland.
  { apply Z.bits_inj'. intros n Hn. rewrite Z.land_spec, Z.bits_0.
    destruct (Z.lt_ge_cases n 4); [by rewrite Z.mul_pow2_bits_low|].
    destruct (decide (l = 0%Z)) as [->|]; [by rewrite Z.bits_0, andb_false_r|].
    rewrite (Z.bits_above_log2 l); [by rewrite andb_false_r|lia|]. apply Z.log2_lt_pow2; [lia|].
    eapply Z.lt_le_trans; [apply Hl|]. change 16%Z with (2 ^ 4)%Z. apply Z.pow_le_mono_r; lia. }
  rewrite <- Z.lxor_lor, <- Z.add_nocarry_lxor by done. lia.
Qed.

(** The loop accepts digits and nothing else. *)
Lemma hex_loop_accepts n s :
  length s = 2 * n →
  (hex_loop s).2 = true ↔ Forall is_hex s.
Proof.
  revert s. induction n as [|n IH]; intros s Hl; [by destruct s; [split; [constructor|]|]|].
  destruct s as [|h [|l s]]; [simpl in Hl; lia..|]. cbn [hex_loop].
  pose proof (nibble_range h) as Hh. pose proof (nibble_range l) as Hr.
  rewrite !Forall_cons. unfold is_hex at 1 2.
  destruct (Z.ltb_spec (zdb_shell_hex_nibble h) 0), (Z.ltb_spec (zdb_shell_hex_nibble l) 0); cbn [orb snd];
    try (split; [done|lia]).
  rewrite IH by (simpl in Hl; lia). split; [intros; split_and!; (done || lia)|tauto].
Qed.

Lemma hex_loop_value n s :
  length s = 2 * n → Forall is_hex s → (hex_loop s).1 = hex_value s ∧ length (hex_value s) = n.
Proof.
  revert s. induction n as [|n IH]; intros s Hl Hs; [by destruct s|].
  destruct s as [|h [|l s]]; [simpl in Hl; lia..|]. cbn [hex_loop hex_value].
  apply Forall_cons in Hs as [Hh Hs]. apply Forall_cons in Hs as [Hl' Hs]. unfold is_hex in *.
  rewrite !(proj2 (Z.ltb_ge _ _)) by lia. cbn [orb fst length].
  destruct (IH s) as [-> ->]; [simpl in Hl; lia|done|]. by rewrite nibbles_join by lia.
Qed.

(** [zdb_shell_parse_hex], in terms of the digits behind the prefix. *)
Lemma parse_hex_strip s out cap :
  zdb_shell_parse_hex (Some s) out cap =
  let t := strip_0x s in
  if (length t =? 0) || negb (length t mod 2 =? 0) then (inl (- EINVAL)%Z, out)
  else if cap <? length t / 2 then (inl (- ENOSPC)%Z, out)
  else (if (hex_loop t).2 then inr (length t / 2) else inl (- EINVAL)%Z,
        buf_write out 0 (hex_loop t).1).
Proof.
  unfold zdb_shell_parse_hex. fold (strip_0x s). cbv zeta. by destruct (hex_loop (strip_0x s)).
Qed.

Lemma hex_loop_short n s : length s < 2 * S n → length (hex_loop s).1 ≤ n.
Proof.
  revert s. induction n as [|n IH]; intros s Hl.
  - destruct s as [|h [|l s]]; simpl in *; lia.
  - destruct s as [|h [|l s]]; [simpl; lia..|]. cbn [hex_loop].
    destruct (_ || _); [simpl; lia|]. cbn [fst length].
    pose proof (IH s ltac:(simpl in Hl; lia)). lia.
Qed.

(** What [zdb_shell_parse_hex] accepts, and what it leaves in the buffer. *)
Lemma parse_hex_spec s out cap :
  cap ≤ length out →
  let r := zdb_shell_parse_hex (Some s) out cap in
  let v := hex_value (strip_0x s) in
  length r.2 = length out ∧
  match r.1 with
  | inr n => n = length v ∧ v ≠ [] ∧ length v ≤ cap ∧ r.2 = buf_write out 0 v ∧
             Forall is_hex (strip_0x s) ∧ length (strip_0x s) = 2 * length v
  | inl rc => rc = (- EINVAL)%Z ∨ rc = (- ENOSPC)%Z
  end.
Proof.
  intros Hcap. cbv zeta. rewrite parse_hex_strip. cbv zeta. set (t := strip_0x s).
  destruct (Nat.eqb_spec (length t) 0) as [Hz|Hnz]; [by split; [|left]|]. cbn [orb].
  destruct (Nat.eqb_spec (length t mod 2) 0) as [Hev|]; [|by split; [|left]]. cbn [negb].
  pose proof (Nat.div_mod (length t) 2 ltac:(lia)) as Hdm. set (n := length t / 2) in *.
  destruct (Nat.ltb_spec cap n); [by split; [|right]|].
  assert (length t = 2 * n) as Hlen by lia.
  assert (length (hex_loop t).1 ≤ n) as Hs by (apply hex_loop_short; lia).
  cbn [fst snd]. split; [apply length_buf_write; lia|].
  destruct (hex_loop t).2 eqn:Hok; [|by left].
  apply (hex_loop_accepts n) in Hok; [|done].
  destruct (hex_loop_value n t) as [Hv Hl]; [done|done|]. unfold t in *. split_and!; try lia; try done.
  - intros E. rewrite E in Hl. simpl in Hl. lia.
  - by rewrite Hv.
Qed.

(** ** Decimal numbers *)

Definition dec_text (n : Z) : cstring := dec_digits 20 n [].
Definition signed_text (z : Z) : cstring :=
  if (z <? 0)%Z then Byte.x2d :: dec_text (- z) else dec_text z.

Lemma digit_unsigned d : (0 ≤ d < 10)%Z → byte.unsigned (digit d) = (48 + d)%Z.
Proof. intros ?. unfold digit. rewrite unsigned_of_Z_small; lia. Qed.

Definition is_digit (b : byte) : Prop := (48 ≤ byte.unsigned b ≤ 57)%Z.

Lemma dec_digits_digit f n acc :
  (0 ≤ n)%Z → Forall is_digit acc → Forall is_digit (dec_digits f n acc).
Proof.
  revert n acc. induction f as [|f IH]; intros n acc Hn Ha; [done|]. cbn [dec_digits].
  pose proof (Z.mod_pos_bound n 10 ltac:(lia)) as Hm.
  assert (Forall is_digit (digit (n mod 10) :: acc)).
  { constructor; [|done]. unfold is_digit. rewrite digit_unsigned; lia. }
  destruct (n / 10 =? 0)%Z; [done|]. apply IH; [|done]. apply Z.div_pos; lia.
Qed.

(** The first digit is 0 for 0 only. *)
Lemma dec_digits_head f n acc :
  (0 ≤ n < 10 ^ Z.of_nat (S f))%Z → ∃ d r, dec_digits (S f) n acc = digit d :: r ∧ (0 ≤ d < 10)%Z ∧
    (d = 0%Z → n = 0%Z ∧ r = acc).
Proof.
  revert n acc. induction f as [|f IH]; intros n acc Hn; cbn [dec_digits];
    pose proof (Z.mod_pos_bound n 10 ltac:(lia)) as Hm; pose proof (Z.div_mod n 10 ltac:(lia)) as Hdm.
  - exists (n mod 10)%Z, acc. assert (n / 10 = 0)%Z as Hz by (apply Z.div_small; simpl in Hn; lia).
    rewrite Hz in *. split_and!; [done|lia|lia|]. intros. split; [lia|done].
  - destruct (Z.eqb_spec (n / 10) 0) as [Hz|Hz].
    + exists (n mod 10)%Z, acc. split_and!; [done|lia|lia|]. intros. split; [lia|done].
    + destruct (IH (n / 10)%Z (digit (n mod 10) :: acc)) as (d & r & Heq & Hd & H0).
      { split; [apply Z.div_pos; lia|]. apply Z.div_lt_upper_bound; [lia|].
        rewrite Nat2Z.inj_succ, Z.pow_succ_r in Hn by lia. lia. }
      exists d, r. split_and!; try done; lia.
Qed.

Lemma in_base_digit b : is_digit b → in_base 10 b = Some (byte.unsigned b - 48)%Z.
Proof.
  unfold is_digit, in_base, digit_val, isdigit. intros Hb.
  rewrite !(proj2 (Z.leb_le _ _)) by lia. cbn [andb]. by rewrite (proj2 (Z.ltb_lt _ _)) by lia.
Qed.

Lemma scan_base_digits s k acc :
  Forall is_digit s → scan_base 10 s k acc = (k + length s, fold_left digit_value s acc, []).
Proof.
  revert k acc. induction s as [|b s IH]; intros k acc Hs; [simpl; by rewrite Nat.add_0_r|].
  apply Forall_cons in Hs as [Hb Hs]. cbn [scan_base]. rewrite in_base_digit by done.
  rewrite IH by done. cbn [length fold_left]. f_equal. f_equal. lia.
Qed.

Lemma digit_not_space b : is_digit b → isspace b = false.
Proof.
  unfold is_digit, isspace. intros Hb. apply orb_false_iff. split.
  - apply andb_false_iff. right. apply Z.leb_gt. lia.
  - apply Z.eqb_neq. lia.
Qed.

Lemma digit_not_sign b r : is_digit b → scan_sign (b :: r) = (false, b :: r).
Proof. unfold is_digit. intros Hb. cbn [scan_sign]. by rewrite !(proj2 (Z.eqb_neq _ _)) by lia. Qed.

Lemma hex_prefix_digits s : Forall is_digit s → hex_prefix s = None.
Proof.
  intros Hs. destruct s as [|z [|x [|d r]]]; try done. cbn [hex_prefix].
  apply Forall_cons in Hs as [_ Hs]. apply Forall_cons in Hs as [Hx _]. unfold is_digit in Hx.
  rewrite (proj2 (Z.eqb_neq (byte.unsigned x) 120)), (proj2 (Z.eqb_neq (byte.unsigned x) 88)) by lia.
  by rewrite andb_false_r.
Qed.

(** What is scanned of a number that was printed, after its sign. *)
Lemma scan_dec_text n :
  (0 ≤ n < 10 ^ 20)%Z →
  ∃ b r, dec_text n = b :: r ∧ is_digit b ∧ hex_prefix (dec_text n) = None ∧
    ∃ k, scan_base (if (byte.unsigned b =? 48)%Z then 8 else 10) (dec_text n) 0 0 = (S k, n, []).
Proof.
  intros Hn. destruct (dec_digits_head 19 n []) as (d & r & Heq & Hd & H0); [simpl; lia|].
  pose proof (dec_digits_digit 20 n [] ltac:(lia) ltac:(constructor)) as Hall. unfold dec_text.
  exists (digit d), r. split_and!; [done| |by apply hex_prefix_digits|].
  { unfold is_digit. rewrite digit_unsigned; lia. }
  rewrite digit_unsigned by done. destruct (Z.eqb_spec (48 + d) 48) as [Hz|Hz].
  - destruct H0 as [-> ->]; [lia|]. by exists 0.
  - exists (length r). rewrite scan_base_digits by done. rewrite dec_digits_value by (simpl; lia).
    by rewrite Heq.
Qed.

Lemma scan_dec_unsigned n :
  (0 ≤ n < 10 ^ 20)%Z → scan_integer (dec_text n) = Some (false, n, []).
Proof.
  intros Hn. destruct (scan_dec_text n Hn) as (b & r & Heq & Hb & Hx & k & Hk).
  unfold scan_integer. rewrite Heq in *. cbn [skip_space]. rewrite digit_not_space by done.
  rewrite digit_not_sign by done.
  cbv beta iota. rewrite Hx. by rewrite Hk.
Qed.

Lemma scan_dec_negative n :
  (0 ≤ n < 10 ^ 20)%Z → scan_integer (Byte.x2d :: dec_text n) = Some (true, n, []).
Proof.
  intros Hn. destruct (scan_dec_text n Hn) as (b & r & Heq & Hb & Hx & k & Hk).
  unfold scan_integer. rewrite Heq in *.
  cbn -[hex_prefix scan_base]. by rewrite Hx, Hk.
Qed.

Lemma scan_base_nonneg base s k acc :
  (0 ≤ base)%Z → (0 ≤ acc)%Z → (0 ≤ (scan_base base s k acc).1.2)%Z.
Proof.
  intros Hb. revert k acc. induction s as [|b s IH]; intros k acc Ha; [done|]. cbn [scan_base].
  unfold in_base. destruct (digit_val b) as [v|] eqn:Hv; [|done].
  destruct (v <? base)%Z; [|done]. apply IH.
  assert (0 ≤ v)%Z; [|nia]. unfold digit_val, isdigit in Hv.
  repeat case_match; simplify_eq; rewrite ?andb_true_iff, ?Z.leb_le in *; lia.
Qed.

Lemma scan_integer_nonneg s neg v r : scan_integer s = Some (neg, v, r) → (0 ≤ v)%Z.
Proof.
  unfold scan_integer. destruct (scan_sign (skip_space s)) as [ng t].
  set (x := match hex_prefix t with Some h => _ | None => _ end).
  assert (0 ≤ x.1.2)%Z as Hx.
  { subst x. destruct (hex_prefix t); [by apply scan_base_nonneg|]. destruct t as [|b t]; [done|].
    apply scan_base_nonneg; [|done]. by destruct (_ =? _)%Z. }
  destruct x as [[n v'] r']. cbn in Hx. by destruct (n =? 0); intros [= <- <- <-].
Qed.

Section numbers.
Context {Cfg : Config}.

Lemma parse_u64_dec n : (0 ≤ n < 2 ^ 64)%Z → zdb_shell_parse_u64 (Some (dec_text n)) = inr n.
Proof.
  intros Hn. unfold zdb_shell_parse_u64, strtoull. rewrite scan_dec_unsigned by lia.
  rewrite (proj2 (Z.leb_gt _ _)) by lia. unfold u64. by rewrite Z.mod_small by lia.
Qed.

Lemma parse_i64_signed z : (- 2 ^ 63 ≤ z < 2 ^ 63)%Z → zdb_shell_parse_i64 (Some (signed_text z)) = inr z.
Proof.
  intros Hz. unfold zdb_shell_parse_i64, strtoll, signed_text. destruct (Z.ltb_spec z 0).
  - rewrite scan_dec_negative by lia. rewrite (proj2 (Z.ltb_ge _ _)) by lia. by rewrite Z.opp_involutive.
  - rewrite scan_dec_unsigned by lia. by rewrite (proj2 (Z.leb_gt _ _)) by lia.
Qed.

Lemma parse_u64_range s v : zdb_shell_parse_u64 s = inr v → (0 ≤ v < 2 ^ 64)%Z.
Proof.
  unfold zdb_shell_parse_u64, strtoull. destruct s as [s|]; [|done].
  destruct (scan_integer s) as [[[neg n] r]|]; [|done].
  destruct (2 ^ 64 <=? n)%Z; destruct r; try done. intros [= <-]. unfold u64. apply Z.mod_pos_bound. lia.
Qed.

Lemma parse_i64_range s v : zdb_shell_parse_i64 s = inr v → (- 2 ^ 63 ≤ v < 2 ^ 63)%Z.
Proof.
  unfold zdb_shell_parse_i64, strtoll. destruct s as [s|]; [|done].
  destruct (scan_integer s) as [[[neg n] r]|] eqn:Hs; [|done]. apply scan_integer_nonneg in Hs.
  destruct neg; [destruct (Z.ltb_spec (2 ^ 63) n)|destruct (Z.leb_spec (2 ^ 63) n)]; destruct r; try done;
    intros [= <-]; lia.
Qed.
End numbers.
