(* ===== verification/ShellSpec.v ===== *)
(** * What every command of the shell does

    [speaks m R]: [m] leaves the shell's mutex and the registered instance as
    they were, and the error lines it adds satisfy [R] with its result. A
    command [reports] its result: no error line and 0, or one error line and
    the errno that belongs to it. *)

From S2P Require Import Prelude Config Doubles CText Env Types FsEnv Events Cursor KvFormat KvIndex Kv.
From S2P Require Import TsFormat TsStore TsSegment TsCursor TsRecover TsOps Doc DocFile DocQuery.
From S2P Require Import Core Shell ShellKv ShellTs ShellDoc.

(** An error line and the errno it goes with. *)
Inductive error_for : Z → shell_line → Prop :=
  | Err_status op st :
      st ≠ ZDB_OK →
      error_for (zdb_shell_errno st)
        (mkLine true "error: %s failed: %s" [A_lit op; A_lit (zdb_status_str st)])
  | Err_exists :
      error_for (- EEXIST)
        (mkLine true "error: doc create failed: %s" [A_lit (zdb_status_str ZDB_ERR_COLLISION)])
  | Err_arg what got :
      error_for (- EINVAL) (mkLine true "error: invalid %s: %s" [A_lit what; A_str (Some got)])
  | Err_window :
      error_for (- EINVAL) (mkLine true "error: from_ms and to_ms must be given together" [])
  | Err_agg got :
      error_for (- EINVAL)
        (mkLine true "error: unknown aggregate: %s (use min|max|avg|sum|count)" [A_str got])
  | Err_size n : error_for (- ENOSPC) (mkLine true "error: value exceeds %u bytes" [A_int n])
  | Err_instance :
      error_for (- ENODEV)
        (mkLine true "error: ZephyrDB not registered; call zdb_shell_register() after zdb_init()" []).

Lemma error_for_nonzero rc l : error_for rc l → rc ≠ 0%Z.
Proof.
  destruct 1 as [op st Hst| | | | | |]; try (unfold EEXIST, EINVAL, ENOSPC, ENODEV; lia).
  by destruct st.
Qed.

Definition reports (rc : Z) (errs : list shell_line) : Prop :=
  rc = 0%Z ∧ errs = [] ∨ ∃ l, errs = [l] ∧ error_for rc l.

Definition reports_opt (rc : option Z) (errs : list shell_line) : Prop :=
  match rc with Some rc => reports rc errs | None => True end.

Section spec.
Context {Cfg : Config} {W : Type}.
Abbreviation S := (shell_state W).
Implicit Types s : S.

Definition errors s : list shell_line := List.filter ln_error (sh_out s).

Definition speaks {A} (m : M S A) (R : A → list shell_line → Prop) : Prop :=
  ∀ s, zdb_shell_mtx (m s).2 = zdb_shell_mtx s ∧ zdb_shell_db (m s).2 = zdb_shell_db s ∧
    ∃ errs, errors (m s).2 = errors s ++ errs ∧ R (m s).1 errs.

Abbreviation quiet m := (speaks m (λ _ errs, errs = [])).

Lemma speaks_bind {A B} (m : M S A) (k : A → M S B) (R1 : A → list shell_line → Prop) R :
  speaks m R1 → (∀ a e1, R1 a e1 → speaks (k a) (λ b e2, R b (e1 ++ e2))) → speaks (bind m k) R.
Proof.
  intros Hm Hk s. destruct (Hm s) as (M1 & D1 & e1 & E1 & R1').
  destruct (Hk _ _ R1' (m s).2) as (M2 & D2 & e2 & E2 & R2). unfold bind.
  split_and!; [congruence..|]. exists (e1 ++ e2). by rewrite E2, E1, app_assoc.
Qed.

Lemma speaks_mono {A} (m : M S A) (R R' : A → list shell_line → Prop) :
  speaks m R → (∀ a e, R a e → R' a e) → speaks m R'.
Proof. intros Hm H s. destruct (Hm s) as (? & ? & e & ? & ?). split_and!; eauto. Qed.

Lemma speaks_ret {A} (a : A) (R : A → list shell_line → Prop) : R a [] → speaks (ret a) R.
Proof. intros H s. split_and!; [done..|]. exists []. by rewrite app_nil_r. Qed.

Lemma quiet_bind {A B} (m : M S A) (k : A → M S B) R :
  quiet m → (∀ a, speaks (k a) R) → speaks (bind m k) R.
Proof. intros Hm Hk. eapply speaks_bind; [exact Hm|]. by intros a e ->. Qed.

(** ** The primitives *)

Lemma quiet_print fmt args : quiet (shell_print fmt args).
Proof.
  intros s. split_and!; [done..|]. exists []. split; [|done].
  change (List.filter ln_error (sh_out s ++ [mkLine false fmt args]) = errors s ++ []).
  by rewrite List.filter_app, !app_nil_r.
Qed.

Lemma speaks_error fmt args : speaks (shell_error fmt args) (λ _ errs, errs = [mkLine true fmt args]).
Proof.
  intros s. split_and!; [done..|]. exists [mkLine true fmt args]. split; [|done].
  change (List.filter ln_error (sh_out s ++ [mkLine true fmt args]) = errors s ++ [mkLine true fmt args]).
  by rewrite List.filter_app.
Qed.

Lemma quiet_on_w {A} (m : M W A) : quiet (on_w m).
Proof. intros s. split_and!; [done..|]. exists []. by rewrite app_nil_r. Qed.

Lemma quiet_scratch : quiet (mgets zdb_shell_scratch).
Proof. intros s. split_and!; [done..|]. exists []. by rewrite app_nil_r. Qed.

Lemma quiet_set_scratch d : quiet (mmodify (λ s, s <| zdb_shell_scratch := d |>)).
Proof. intros s. split_and!; [done..|]. exists []. by rewrite app_nil_r. Qed.

Lemma quiet_ret {A} (a : A) : quiet (ret a).
Proof. by apply speaks_ret. Qed.

(** ** Failures *)

Lemma reports_ok : reports 0 [].
Proof. by left. Qed.

Lemma reports_line rc l : error_for rc l → reports rc [l].
Proof. intros. right. eauto. Qed.

Lemma speaks_fail op st : st ≠ ZDB_OK → speaks (zdb_shell_fail op st) reports.
Proof.
  intros Hst. unfold zdb_shell_fail. eapply speaks_bind; [apply speaks_error|]. intros _ e ->.
  apply quiet_bind; [destruct st; apply quiet_print || apply quiet_ret|]. intros _.
  apply speaks_ret. by apply reports_line, Err_status.
Qed.

Lemma speaks_bad_arg what got : speaks (zdb_shell_bad_arg what got) reports.
Proof.
  unfold zdb_shell_bad_arg. eapply speaks_bind; [apply speaks_error|]. intros _ e ->.
  apply speaks_ret, reports_line, Err_arg.
Qed.

(** A result that was reported stays reported when nothing more goes wrong. *)
Lemma speaks_then {A} (m : M S Z) (k : Z → M S A) (f : A → option Z) :
  speaks m reports → (∀ rc, speaks (k rc) (λ a errs, errs = [] ∧ f a = Some rc)) →
  speaks (bind m k) (λ a errs, reports_opt (f a) errs).
Proof.
  intros Hm Hk. eapply speaks_bind; [exact Hm|]. intros rc e1 HR. eapply speaks_mono; [apply Hk|].
  intros a e2 [-> Hf]. cbn. by rewrite app_nil_r, Hf.
Qed.

Lemma speaks_then_rc (m : M S Z) (k : Z → M S Z) :
  speaks m reports → (∀ rc, speaks (k rc) (λ rc' errs, errs = [] ∧ rc' = rc)) → speaks (bind m k) reports.
Proof.
  intros Hm Hk. eapply speaks_bind; [exact Hm|]. intros rc e1 HR. eapply speaks_mono; [apply Hk|].
  intros a e2 [-> ->]. by rewrite app_nil_r.
Qed.

Lemma speaks_then_opt (m : M S Z) (k : Z → M S (option Z)) :
  speaks m reports → (∀ rc, speaks (k rc) (λ rc' errs, errs = [] ∧ rc' = Some rc)) →
  speaks (bind m k) reports_opt.
Proof. apply speaks_then. Qed.

(** The frame of a command. *)
Lemma speaks_mutex {A} (m : M S A) R :
  speaks m R → ∀ s, let r := m (s <| zdb_shell_mtx ::= Datatypes.S |>) in
    let s' := r.2 <| zdb_shell_mtx ::= pred |> in
    zdb_shell_mtx s' = zdb_shell_mtx s ∧ zdb_shell_db s' = zdb_shell_db s ∧
    ∃ errs, errors s' = errors s ++ errs ∧ R r.1 errs.
Proof.
  intros Hm s. cbv zeta. destruct (Hm (s <| zdb_shell_mtx ::= Datatypes.S |>)) as (H1 & H2 & e & H3 & H4).
  split_and!; [|exact H2|by exists e].
  change (pred (zdb_shell_mtx (m (s <| zdb_shell_mtx ::= Datatypes.S |>)).2) = zdb_shell_mtx s).
  by rewrite H1.
Qed.

Lemma no_instance s :
  zdb_shell_db s = None →
  (zdb_shell_lock s).1.1 = (- ENODEV)%Z ∧ sh_w (zdb_shell_lock s).2 = sh_w s ∧
  zdb_shell_mtx (zdb_shell_lock s).2 = zdb_shell_mtx s ∧ zdb_shell_db (zdb_shell_lock s).2 = None ∧
  errors (zdb_shell_lock s).2 = errors s ++
    [mkLine true "error: ZephyrDB not registered; call zdb_shell_register() after zdb_init()" []].
Proof.
  destruct s as [w m d sc o]. intros Hn. cbn in Hn. subst d.
  split_and!; [done..|]. unfold errors. cbn. by rewrite List.filter_app.
Qed.

(** The frame of a command. *)
Lemma speaks_locked body :
  (∀ db, speaks (body db) reports) → speaks (shell_locked body) reports.
Proof.
  intros Hb s. destruct (zdb_shell_db s) as [db|] eqn:Hd.
  - destruct s as [w m d sc o]. cbn in Hd. subst d. exact (speaks_mutex _ _ (Hb (Some db)) _).
  - destruct (no_instance s Hd) as (Hrc & _ & Hm & Hdb & He). unfold shell_locked, bind.
    destruct (zdb_shell_lock s) as [[rc db'] s']. cbn in *. subst rc. cbn.
    split_and!; [exact Hm|exact Hdb|]. eexists. split; [done|]. apply reports_line, Err_instance.
Qed.

Lemma speaks_locked_loop body :
  (∀ db, speaks (body db) reports_opt) → speaks (shell_locked_loop body) reports_opt.
Proof.
  intros Hb s. destruct (zdb_shell_db s) as [db|] eqn:Hd.
  - destruct s as [w m d sc o]. cbn in Hd. subst d. exact (speaks_mutex _ _ (Hb (Some db)) _).
  - destruct (no_instance s Hd) as (Hrc & _ & Hm & Hdb & He). unfold shell_locked_loop, bind.
    destruct (zdb_shell_lock s) as [[rc db'] s']. cbn in *. subst rc. cbn.
    split_and!; [exact Hm|exact Hdb|]. eexists. split; [done|]. apply reports_line, Err_instance.
Qed.

(** ** Printing bytes and parsing listings *)

Lemma quiet_print_each label lines : quiet (print_each (W := W) label lines).
Proof.
  induction lines as [|l lines IH]; [apply quiet_ret|].
  apply quiet_bind; [apply quiet_print|done].
Qed.

Lemma quiet_print_hex label data : quiet (zdb_shell_print_hex (W := W) label data).
Proof. destruct data as [[|x d]|]; [apply quiet_print|apply quiet_print_each|apply quiet_print]. Qed.

Lemma speaks_parse_listing argv first a :
  speaks (zdb_shell_parse_listing_args (W := W) argv first a) (λ r errs, reports r.1 errs).
Proof.
  assert (∀ what got a, speaks (rc ← zdb_shell_bad_arg what got; ret (rc, a : listing_args))
            (λ r errs, reports r.1 errs)) as Hbad.
  { intros what got a'. apply (speaks_then _ _ (λ r : Z * listing_args, Some r.1)); [apply speaks_bad_arg|].
    intros rc. by apply speaks_ret. }
  assert (∀ a b, 0%Z = a → speaks (ret (a, b : listing_args)) (λ r errs, reports r.1 errs)) as Hok.
  { intros rc b <-. by apply speaks_ret; left. }
  unfold zdb_shell_parse_listing_args, parse_window. cbv zeta.
  repeat case_match; try (by apply Hbad); try (by apply Hok);
    (eapply speaks_bind; [apply speaks_error|]; intros _ e ->; apply speaks_ret, reports_line, Err_window).
Qed.
(** A step that may report, and the rest of the command when it does not. *)
Lemma speaks_checked {B} (m : M S (Z * B)) (k : B → M S Z) :
  speaks m (λ r errs, reports r.1 errs) → (∀ b, speaks (k b) reports) →
  speaks ('(rc, b) ← m; if negb (rc =? 0)%Z then ret rc else k b) reports.
Proof.
  intros Hm Hk. eapply speaks_bind; [exact Hm|]. intros [rc b] e1 [[Hrc ->]|(l & -> & Hl)]; cbn in *.
  - subst rc. apply Hk.
  - rewrite (proj2 (Z.eqb_neq _ _)) by (by eapply error_for_nonzero). apply speaks_ret.
    by apply reports_line.
Qed.

Lemma speaks_checked_opt {B} (m : M S (Z * B)) (k : B → M S (option Z)) :
  speaks m (λ r errs, reports r.1 errs) → (∀ b, speaks (k b) reports_opt) →
  speaks ('(rc, b) ← m; if negb (rc =? 0)%Z then ret (Some rc) else k b) reports_opt.
Proof.
  intros Hm Hk. eapply speaks_bind; [exact Hm|]. intros [rc b] e1 [[Hrc ->]|(l & -> & Hl)]; cbn in *.
  - subst rc. apply Hk.
  - rewrite (proj2 (Z.eqb_neq _ _)) by (by eapply error_for_nonzero). apply speaks_ret.
    by apply reports_line.
Qed.

Lemma speaks_once (h : list cstring → M S Z) fuel argv :
  speaks (h argv) reports → speaks (once h fuel argv) reports_opt.
Proof. intros Hh. apply speaks_then_opt; [done|]. intros rc. by apply speaks_ret. Qed.

(** ** The tables *)

(** Without a registered instance a command ends with [a], and the world is as
    it was. *)
Definition unbound {A} (m : M S A) (a : A) : Prop :=
  ∀ s, zdb_shell_db s = None → (m s).1 = a ∧ sh_w (m s).2 = sh_w s.

Lemma unbound_locked body : unbound (shell_locked body) (- ENODEV)%Z.
Proof. intros [w m d sc o] Hd. cbn in Hd. by subst d. Qed.

Lemma unbound_locked_loop body : unbound (shell_locked_loop body) (Some (- ENODEV)%Z).
Proof. intros [w m d sc o] Hd. cbn in Hd. by subst d. Qed.

(** What a command of the tables owes. *)
Definition well_behaved (c : shell_cmd S) : Prop :=
  ∀ fuel argv, speaks (cmd_handler c fuel argv) reports_opt ∧
    unbound (cmd_handler c fuel argv) (Some (- ENODEV)%Z).

Lemma well_once path (h : list cstring → M S Z) a b :
  (∀ argv, speaks (h argv) reports) → (∀ argv, unbound (h argv) (- ENODEV)%Z) →
  well_behaved (mkCmd path (once h) a b).
Proof.
  intros Hs Hu fuel argv. split; [by apply speaks_once|]. intros s Hd.
  destruct (Hu argv s Hd) as [H1 H2]. cbn [cmd_handler]. unfold once, bind.
  destruct (h argv s) as [rc s']. cbn in *. by rewrite H1.
Qed.
End spec.

Section stream.
Context {Cfg : Config} {CRC : Crc32} {K F FS FH DH : Type} `{!Kernel K, !FileSys FS FH DH}.

(** Opening a stream reports its own failure. *)
Lemma says_with_stream {A} db argv (failed : Z → A) k (R : A → list shell_line → Prop) :
  (∀ rc errs, reports rc errs → R (failed rc) errs) → (∀ ts, speaks (k ts) R) →
  speaks (W := world K F FS) (with_stream db argv failed k) R.
Proof.
  intros Hf Hk. unfold with_stream. apply quiet_bind; [apply quiet_on_w|]. intros [st ts].
  case_bool_decide as Hst; cbn [negb]; [apply Hk|].
  eapply speaks_bind; [by apply speaks_fail|]. intros rc e He. apply speaks_ret.
  rewrite app_nil_r. by apply Hf.
Qed.
End stream.

(** ** Walking through a command *)

Ltac speak_done :=
  first [ done | by rewrite app_nil_r | apply reports_ok | by left | split; done
        | apply reports_line; econstructor; done
        | match goal with
          | H : (?a =? - ENOSPC)%Z = true |- _ =>
              apply Z.eqb_eq in H; subst; apply reports_line; econstructor; done
          end
        | match goal with
          | H : negb (bool_decide (?st = ZDB_OK)) = true |- ?st ≠ ZDB_OK =>
              intros ->; revert H; by rewrite bool_decide_true
          end ].

Ltac speak :=
  lazymatch goal with
  | |- ∀ _, _ => intros ?; speak
  | |- speaks (shell_locked _) _ => apply speaks_locked; speak
  | |- speaks (shell_locked_loop _) _ => apply speaks_locked_loop; speak
  | |- speaks (with_stream _ _ _ _) _ => apply says_with_stream; [try done|]; speak
  | |- speaks (ret _) _ => apply speaks_ret; try speak_done
  | |- speaks (shell_print _ _) _ => apply quiet_print
  | |- speaks (on_w _) _ => apply quiet_on_w
  | |- speaks (mgets zdb_shell_scratch) _ => apply quiet_scratch
  | |- speaks (mmodify _) _ => apply quiet_set_scratch
  | |- speaks (zdb_shell_print_hex _ _) _ => apply quiet_print_hex
  | |- speaks (zdb_shell_parse_listing_args _ _ _) _ => apply speaks_parse_listing
  | |- speaks (zdb_shell_fail _ _) _ => apply speaks_fail; speak_done
  | |- speaks (zdb_shell_bad_arg _ _) _ => apply speaks_bad_arg
  | |- speaks (bind (zdb_shell_fail _ _) _) reports => apply speaks_then_rc; speak
  | |- speaks (bind (zdb_shell_bad_arg _ _) _) reports => apply speaks_then_rc; speak
  | |- speaks (bind (zdb_shell_fail _ _) _) reports_opt => apply speaks_then_opt; speak
  | |- speaks (bind (zdb_shell_bad_arg _ _) _) _ =>
      eapply speaks_bind; [apply speaks_bad_arg|intros ? ? ?; speak]
  | |- speaks (bind (shell_error _ _) _) _ =>
      eapply speaks_bind; [apply speaks_error|intros ? ? ->; speak]
  | |- speaks (bind (zdb_shell_parse_listing_args _ _ _) _) reports =>
      apply speaks_checked; speak
  | |- speaks (bind (zdb_shell_parse_listing_args _ _ _) _) reports_opt =>
      apply speaks_checked_opt; speak
  | |- speaks (bind _ _) _ => first [apply quiet_bind; [by eauto with shell|speak]
                                    |apply quiet_bind; speak]
  | |- speaks (match ?x with _ => _ end) _ => destruct x eqn:?; speak
  | |- speaks _ _ => try by eauto with shell
  | |- _ => try speak_done
  end.

Create HintDb shell.

Section commands.
Context {Cfg : Config} {CRC : Crc32} {K F FS FH DH : Type}.
Context `{!Kernel K, !KvBackend F, !FileSys FS FH DH}.
Abbreviation W := (world K F FS).
Abbreviation S := (shell_state W).

(** ** Core *)

Lemma says_health argv : speaks (W := W) (cmd_zdb_health argv) reports.
Proof. unfold cmd_zdb_health. speak. Qed.

Lemma says_info argv : speaks (W := W) (cmd_zdb_info argv) reports.
Proof. unfold cmd_zdb_info. speak. Qed.

Lemma says_stats_show argv : speaks (W := W) (cmd_zdb_stats_show argv) reports.
Proof. unfold cmd_zdb_stats_show. speak. Qed.

Lemma says_stats_reset argv : speaks (W := W) (cmd_zdb_stats_reset argv) reports.
Proof. unfold cmd_zdb_stats_reset. speak. Qed.

Lemma says_stats_export argv : speaks (W := W) (cmd_zdb_stats_export argv) reports.
Proof. unfold cmd_zdb_stats_export. speak. Qed.

(** ** Key-value *)

Lemma says_kv_set_parse argv enc :
  speaks (W := W) (kv_set_parse argv enc) (λ r errs, reports r.1 errs).
Proof. unfold kv_set_parse. speak. Qed.

Lemma quiet_kv_set_value argv enc kv len : speaks (W := W) (kv_set_value argv enc kv len) (λ _ e, e = []).
Proof. unfold kv_set_value. speak. Qed.
Hint Resolve quiet_kv_set_value : shell.

Lemma says_kv_set enc argv : speaks (W := W) (zdb_shell_kv_set enc argv) reports.
Proof.
  unfold zdb_shell_kv_set. apply speaks_locked. intros db.
  apply speaks_checked; [apply says_kv_set_parse|]. intros len. speak.
Qed.

Lemma says_kv_get_print argv n : speaks (W := W) (kv_get_print argv n) reports.
Proof. unfold kv_get_print. speak. Qed.
Hint Resolve says_kv_get_print : shell.

Lemma says_kv_get argv : speaks (W := W) (cmd_zdb_kv_get argv) reports.
Proof. unfold cmd_zdb_kv_get. speak. Qed.

Lemma says_kv_delete argv : speaks (W := W) (cmd_zdb_kv_delete argv) reports.
Proof. unfold cmd_zdb_kv_delete. speak. Qed.

(** A loop's result, by its first component. *)
Definition loop_reports {A} (f : A → Z) (r : option A) (errs : list shell_line) : Prop :=
  match r with Some x => reports (f x) errs | None => True end.

Lemma says_kv_list_loop fuel kv pos key value limit shown :
  speaks (W := W) (kv_list_loop fuel kv pos key value limit shown)
    (loop_reports (λ x, x.1.1)).
Proof.
  revert pos key value shown. induction fuel as [|fuel IH]; intros pos key value shown; cbn [kv_list_loop].
  - by apply speaks_ret.
  - apply quiet_bind; [speak|]. intros [[[st pos'] out]|]; [|by apply speaks_ret].
    destruct (bool_decide (st = ZDB_ERR_NOT_FOUND)); [by apply speaks_ret; left|].
    destruct (negb (bool_decide (st = ZDB_OK))) eqn:Hst.
    + eapply speaks_bind; [apply speaks_fail; speak_done|]. intros rc e He. apply speaks_ret.
      by rewrite app_nil_r.
    + destruct (limit <=? shown)%Z; [by apply speaks_ret; left|].
      apply quiet_bind; [speak|]. intros _. apply IH.
Qed.

(** The tail of a listing: a loop that reports, and quiet lines after it. *)
Lemma speaks_loop_then {A} (m : M S (option A)) (f : A → Z) (k : A → M S (option Z)) :
  speaks m (loop_reports f) →
  (∀ x, speaks (k x) (λ r errs, errs = [] ∧ r = Some (f x))) →
  speaks (r ← m; match r with None => ret None | Some x => k x end) reports_opt.
Proof.
  intros Hm Hk. eapply speaks_bind; [exact Hm|]. intros [x|] e He; [|by apply speaks_ret].
  eapply speaks_mono; [apply Hk|]. intros a e2 [-> ->]. by rewrite app_nil_r.
Qed.

Lemma says_kv_list fuel argv : speaks (W := W) (cmd_zdb_kv_list fuel argv) reports_opt.
Proof.
  unfold cmd_zdb_kv_list. apply speaks_locked_loop. intros db.
  apply speaks_checked_opt; [apply speaks_parse_listing|]. intros a.
  apply quiet_bind; [speak|]. intros [st kv]. destruct (negb _) eqn:?; [speak|].
  apply quiet_bind; [speak|]. intros [st2 iter]. destruct (negb (bool_decide (st2 = _))) eqn:?; [speak|].
  apply quiet_bind; [speak|]. intros _.
  eapply speaks_mono; [apply (speaks_loop_then _ _ (λ '(rc, shown, more),
    shell_print "shown: %u" [A_int shown];;
    shell_print "truncated: %s" [yes_no more];;
    ret (Some rc)) (says_kv_list_loop _ _ _ _ _ _ _))|done].
  intros [[rc shown] more]. speak.
Qed.

Lemma says_kv_reset fuel argv : speaks (W := W) (cmd_zdb_kv_reset fuel argv) reports_opt.
Proof. unfold cmd_zdb_kv_reset. speak. Qed.

Lemma says_kv_defaults argv : speaks (W := W) (cmd_zdb_kv_defaults argv) reports.
Proof. unfold cmd_zdb_kv_defaults. speak. Qed.

(** ** Time series *)

Lemma quiet_stream_ok argv : speaks (W := W) (print_stream_ok argv) (λ _ e, e = []).
Proof. unfold print_stream_ok. speak. Qed.
Hint Resolve quiet_stream_ok : shell.

Lemma says_ts_append argv : speaks (W := W) (cmd_zdb_ts_append argv) reports.
Proof. unfold cmd_zdb_ts_append. speak. Qed.

Lemma says_ts_flush_sync argv : speaks (W := W) (cmd_zdb_ts_flush_sync argv) reports.
Proof. unfold cmd_zdb_ts_flush_sync. speak. Qed.

Lemma says_ts_flush_async argv : speaks (W := W) (cmd_zdb_ts_flush_async argv) reports.
Proof. unfold cmd_zdb_ts_flush_async. speak. Qed.

Lemma says_ts_recover argv : speaks (W := W) (cmd_zdb_ts_recover argv) reports.
Proof. unfold cmd_zdb_ts_recover. speak. Qed.

Lemma says_ts_watermark_get argv : speaks (W := W) (cmd_zdb_ts_watermark_get argv) reports.
Proof. unfold cmd_zdb_ts_watermark_get. speak. Qed.

Lemma says_ts_watermark_set argv : speaks (W := W) (cmd_zdb_ts_watermark_set argv) reports.
Proof. unfold cmd_zdb_ts_watermark_set. speak. Qed.

Lemma says_ts_watermark_clear argv : speaks (W := W) (cmd_zdb_ts_watermark_clear argv) reports.
Proof. unfold cmd_zdb_ts_watermark_clear. speak. Qed.

Lemma says_ts_walk_loop fuel cursor limit shown :
  speaks (W := W) (ts_walk_loop fuel cursor limit shown) (loop_reports (λ x, x.1.1.1)).
Proof.
  revert cursor shown. induction fuel as [|fuel IH]; intros cursor shown; cbn [ts_walk_loop].
  - by apply speaks_ret.
  - apply quiet_bind; [speak|]. intros [[[st x] cursor']|]; [|by apply speaks_ret].
    destruct (limit <=? shown)%Z; [by apply speaks_ret; left|].
    destruct (bool_decide (st = ZDB_ERR_NOT_FOUND)); [by apply speaks_ret; left|].
    destruct (negb (bool_decide (st = ZDB_OK))) eqn:Hst.
    + eapply speaks_bind; [apply speaks_fail; speak_done|]. intros rc e He. apply speaks_ret.
      by rewrite app_nil_r.
    + apply quiet_bind; [speak|]. intros _. apply IH.
Qed.

Lemma says_ts_walk desc fuel argv : speaks (W := W) (zdb_shell_ts_walk desc fuel argv) reports_opt.
Proof.
  unfold zdb_shell_ts_walk. apply speaks_locked_loop. intros db.
  apply speaks_checked_opt; [apply speaks_parse_listing|]. intros a.
  apply says_with_stream; [done|]. intros ts. cbv zeta.
  apply quiet_bind; [destruct desc; speak|]. intros [st cursor]. destruct (negb _) eqn:?; [speak|].
  apply quiet_bind; [speak|]. intros _. apply quiet_bind; [speak|]. intros _.
  eapply speaks_mono; [apply (speaks_loop_then _ _ (λ '(rc, shown, more, cursor),
    on_w (zdb_cursor_close cursor);;
    on_w (zdb_ts_close ts);;
    shell_print "shown: %u" [A_int shown];;
    shell_print "truncated: %s" [yes_no more];;
    ret (Some rc)) (says_ts_walk_loop _ _ _ _))|done].
  intros [[[rc shown] more] cu]. speak.
Qed.

Lemma says_ts_agg fuel argv : speaks (W := W) (cmd_zdb_ts_agg fuel argv) reports_opt.
Proof. unfold cmd_zdb_ts_agg. speak. Qed.

(** ** Documents *)

Lemma quiet_print_field f : speaks (W := W) (zdb_shell_doc_print_field f) (λ _ e, e = []).
Proof. unfold zdb_shell_doc_print_field. speak. Qed.
Hint Resolve quiet_print_field : shell.

Lemma quiet_print_fields l : speaks (W := W) (print_fields l) (λ _ e, e = []).
Proof. induction l as [|f l IH]; cbn [print_fields]; speak. Qed.

Lemma quiet_doc_ok argv : speaks (W := W) (print_doc_ok argv) (λ _ e, e = []).
Proof. unfold print_doc_ok. speak. Qed.

Lemma quiet_print_rows i l : speaks (W := W) (print_rows i l) (λ _ e, e = []).
Proof. revert i. induction l as [|m l IH]; intros i; cbn [print_rows]; speak. Qed.
Hint Resolve quiet_print_fields quiet_doc_ok quiet_print_rows : shell.

Lemma says_doc_create argv : speaks (W := W) (cmd_zdb_doc_create argv) reports.
Proof. unfold cmd_zdb_doc_create. speak. Qed.

Lemma says_doc_delete argv : speaks (W := W) (cmd_zdb_doc_delete argv) reports.
Proof. unfold cmd_zdb_doc_delete. speak. Qed.

Lemma says_doc_get argv : speaks (W := W) (cmd_zdb_doc_get argv) reports.
Proof. unfold cmd_zdb_doc_get. speak. Qed.

Lemma quiet_doc_set_value type argv doc : speaks (W := W) (doc_set_value type argv doc) (λ _ e, e = []).
Proof. unfold doc_set_value. speak. Qed.
Hint Resolve quiet_doc_set_value : shell.

Lemma says_doc_set type argv : speaks (W := W) (zdb_shell_doc_set type argv) reports.
Proof. unfold zdb_shell_doc_set. speak. Qed.

Lemma says_doc_report db q : speaks (W := W) (zdb_shell_doc_report db q) reports.
Proof. unfold zdb_shell_doc_report. speak. Qed.
Hint Resolve says_doc_report : shell.

Lemma says_doc_list argv : speaks (W := W) (cmd_zdb_doc_list argv) reports.
Proof. unfold cmd_zdb_doc_list. speak. Qed.

Lemma says_doc_find type argv : speaks (W := W) (zdb_shell_doc_find type argv) reports.
Proof. unfold zdb_shell_doc_find. speak. Qed.

(** ** The tables *)

Ltac table :=
  repeat first
    [ apply Forall_nil_2
    | apply Forall_cons; split;
      [first [ apply well_once; [solve [auto with shell]|intros; apply unbound_locked]
             | intros fuel argv; cbn [cmd_handler]; split; [solve [auto with shell]|apply unbound_locked_loop] ]|] ].

Hint Resolve says_health says_info says_stats_show says_stats_reset says_stats_export : shell.
Hint Resolve says_kv_get says_kv_delete says_kv_set says_kv_list says_kv_reset says_kv_defaults : shell.
Hint Resolve says_ts_append says_ts_flush_sync says_ts_flush_async says_ts_recover says_ts_watermark_get
  says_ts_watermark_set says_ts_watermark_clear says_ts_walk says_ts_agg : shell.
Hint Resolve says_doc_create says_doc_delete says_doc_get says_doc_set says_doc_list says_doc_find : shell.

Lemma well_zdb_cmds : Forall (well_behaved (W := W)) zdb_cmds.
Proof. unfold zdb_cmds. table. Qed.

Lemma well_kv_cmds : Forall (well_behaved (W := W)) zdb_kv_cmds.
Proof. unfold zdb_kv_cmds, cmd_zdb_kv_set_str, cmd_zdb_kv_set_raw, cmd_zdb_kv_set_hex. table. Qed.

Lemma well_ts_cmds : Forall (well_behaved (W := W)) zdb_ts_cmds.
Proof. unfold zdb_ts_cmds, cmd_zdb_ts_read, cmd_zdb_ts_tail. table. Qed.

Lemma well_doc_cmds : Forall (well_behaved (W := W)) zdb_doc_cmds.
Proof.
  unfold zdb_doc_cmds, cmd_zdb_doc_set_i64, cmd_zdb_doc_set_f64, cmd_zdb_doc_set_str,
    cmd_zdb_doc_set_boolean, cmd_zdb_doc_set_bytes, cmd_zdb_doc_find_i64, cmd_zdb_doc_find_f64,
    cmd_zdb_doc_find_str, cmd_zdb_doc_find_boolean. table.
Qed.
End commands.
