(* ===== verification/ShellKvSpec.v ===== *)
(** * What the shell's key-value commands store and print

    [zdb kv set] stores the value its encoding names, [zdb kv get] prints the
    value that is stored. *)

From S2P Require Import Prelude Config Doubles CText Env Types Events KvFormat KvIndex Kv Core.
From S2P Require Import KvIndexSpec KvSpec KvLaws KvBulk Shell ShellKv ShellTextSpec ShellSpec.

(** The value a text stands for under an encoding. *)
Definition enc_value (enc : zdb_shell_kv_enc) (text : cstring) : list byte :=
  match enc with
  | ZDB_SHELL_KV_ENC_STR => text ++ [nul]
  | ZDB_SHELL_KV_ENC_RAW => text
  | ZDB_SHELL_KV_ENC_HEX => hex_value (strip_0x text)
  end.

(** ** The lines *)

Definition say (fmt : String.string) (args : list shell_arg) : shell_line := mkLine false fmt args.
Arguments say fmt%_string.

Definition hex_out (label : cstring) (v : list byte) : list shell_line :=
  match v with
  | [] => [say "%s:" [A_str (Some label)]]
  | _ => map (λ l, say "%s: %s" [A_str (Some label); A_str (Some l)]) (hex_lines (length v) v)
  end.

Definition set_out (ns key : cstring) (v : list byte) : list shell_line :=
  [say "status: ok" []; say "namespace: %s" [A_str (Some ns)]; say "key: %s" [A_str (Some key)];
   say "bytes: %u" [A_int (length v)]].

(** The text of a value that is printable, without a terminator it ends in. *)
Definition str_out (v : list byte) : list shell_line :=
  if zdb_shell_printable v (length v) then
    let n := if (u8_at v (length v - 1) =? 0)%Z then length v - 1 else length v in
    [say "str: %.*s" [A_int n; A_str (Some (take n v))]]
  else [].

Definition get_out (ns key : cstring) (v : list byte) : list shell_line :=
  [say "namespace: %s" [A_str (Some ns)]; say "key: %s" [A_str (Some key)];
   say "len: %u" [A_int (length v)]; say "truncated: %s" [A_lit "no"]] ++
  hex_out (s2b "hex") v ++ str_out v.

Section lines.
Context {Cfg : Config} {W : Type}.

Lemma run_print_each label lines (w : W) m d sc o :
  print_each label lines (mkShell w m d sc o) =
  (tt, mkShell w m d sc (o ++ map (λ l, say "%s: %s" [A_str (Some label); A_str (Some l)]) lines)).
Proof.
  revert o. induction lines as [|l lines IH]; intros o; [by rewrite app_nil_r|].
  cbn [print_each map]. unfold bind. cbn [shell_print mmodify fst snd].
  transitivity (print_each label lines
    (mkShell w m d sc (o ++ [say "%s: %s" [A_str (Some label); A_str (Some l)]]))); [done|].
  by rewrite IH, <- app_assoc.
Qed.

Lemma run_print_hex label v (w : W) m d sc o :
  zdb_shell_print_hex label (Some v) (mkShell w m d sc o) =
  (tt, mkShell w m d sc (o ++ hex_out label v)).
Proof. destruct v as [|b v]; [done|]. apply run_print_each. Qed.

Lemma wp_print fmt args (Q : unit → shell_state W → Prop) w m d sc o :
  Q tt (mkShell w m d sc (o ++ [say fmt args])) → wp (shell_print fmt args) Q (mkShell w m d sc o).
Proof. done. Qed.

Lemma wp_error fmt args (Q : unit → shell_state W → Prop) w m d sc o :
  Q tt (mkShell w m d sc (o ++ [mkLine true fmt args])) → wp (shell_error fmt args) Q (mkShell w m d sc o).
Proof. done. Qed.

Lemma wp_on_w {A} (op : M W A) (Q : A → shell_state W → Prop) w m d sc o :
  wp op (λ a w', Q a (mkShell w' m d sc o)) w → wp (on_w op) Q (mkShell w m d sc o).
Proof. done. Qed.

Lemma wp_locked body (Q : Z → shell_state W → Prop) w m db sc o :
  wp (body (Some db)) (λ rc s, Q rc (s <| zdb_shell_mtx ::= pred |>)) (mkShell w (S m) (Some db) sc o) →
  wp (shell_locked body) Q (mkShell w m (Some db) sc o).
Proof. done. Qed.

Lemma wp_locked_loop body (Q : option Z → shell_state W → Prop) w m db sc o :
  wp (body (Some db)) (λ rc s, Q rc (s <| zdb_shell_mtx ::= pred |>)) (mkShell w (S m) (Some db) sc o) →
  wp (shell_locked_loop body) Q (mkShell w m (Some db) sc o).
Proof. done. Qed.

(** A failure leaves the world, the scratch buffer and the rest alone. *)
Lemma wp_fail op st (Q : Z → shell_state W → Prop) w m d sc o :
  (∀ o', Q (zdb_shell_errno st) (mkShell w m d sc (o ++ o'))) →
  wp (zdb_shell_fail op st) Q (mkShell w m d sc o).
Proof.
  intros HQ. unfold zdb_shell_fail. apply wp_bind, wp_error, wp_bind.
  destruct st; first [apply wp_print|apply wp_ret]; apply wp_ret; rewrite <- ?app_assoc; apply HQ.
Qed.

(** Only the bytes of the value in a buffer are looked at. *)
Lemma str_out_buffer sc v :
  take (length v) sc = v →
  (if zdb_shell_printable sc (length v) then
     let n := if (u8_at sc (length v - 1) =? 0)%Z then length v - 1 else length v in
     [say "str: %.*s" [A_int n; A_str (Some (take n sc))]] else []) = str_out v.
Proof.
  intros Hv. unfold str_out.
  assert (∀ n, n ≤ length v → take n sc = take n v) as Ht.
  { intros n Hn. rewrite <- Hv. by rewrite take_take, Nat.min_l. }
  destruct (decide (length v = 0)) as [Hz|Hnz].
  { unfold zdb_shell_printable. by rewrite Hz. }
  assert (u8_at sc (length v - 1) = u8_at v (length v - 1)) as Hu.
  { unfold u8_at. rewrite <- (lookup_take_lt sc (length v)) by lia. by rewrite Hv. }
  assert (zdb_shell_printable sc (length v) = zdb_shell_printable v (length v)) as ->.
  { unfold zdb_shell_printable. rewrite Hu. repeat case_match; try done; by rewrite Ht by lia. }
  rewrite Hu. cbv zeta. by rewrite Ht by (case_match; lia).
Qed.

End lines.

Section commands.
Context {Cfg : Config} {CfgOk : ConfigOk Cfg} {CRC : Crc32} {K F FS : Type}.
Context `{!Kernel K, !KernelLaws K, !KvBackend F, !KvBackendLaws F}.
Abbreviation W := (world K F FS).
Implicit Types w : W.

Lemma run_kv_get_print kw ns key rest v w m d sc o :
  length v ≤ ZDB_SHELL_SCRATCH_SIZE → take (length v) sc = v →
  kv_get_print (kw :: ns :: key :: rest) (length v) (mkShell w m d sc o) =
  (0%Z, mkShell w m d sc (o ++ get_out ns key v)).
Proof.
  intros Hv Hsc. unfold get_out. rewrite <- (str_out_buffer sc v) by done.
  unfold kv_get_print, bind, mgets, shell_print, mmodify. cbn [fst snd zdb_shell_scratch].
  rewrite Nat.min_l by done. rewrite (proj2 (Nat.ltb_ge _ _)) by done. rewrite Hsc.
  match goal with |- context [zdb_shell_print_hex ?l (Some v) ?s] =>
    change s with (mkShell w m d sc ((((o ++ [say "namespace: %s" [A_str (Some ns)]]) ++
      [say "key: %s" [A_str (Some key)]]) ++ [say "len: %u" [A_int (length v)]]) ++
      [say "truncated: %s" [A_lit "no"]])); rewrite (run_print_hex l v) end.
  cbn [fst snd]. destruct (zdb_shell_printable sc (length v)); unfold ret; cbn [fst snd];
    [|by rewrite app_nil_r, <- !app_assoc].
  match goal with |- (0%Z, ?s) = _ =>
    change s with (mkShell w m d sc (sh_out s)) end.
  cbn. by rewrite <- !app_assoc.
Qed.

(** ** [zdb kv set] *)

Lemma wp_kv_set_parse enc kw ns key text rest (Q : Z * nat → shell_state W → Prop) w m d sc o :
  length sc = ZDB_SHELL_SCRATCH_SIZE →
  (∀ sc' n, length sc' = ZDB_SHELL_SCRATCH_SIZE →
     (enc = ZDB_SHELL_KV_ENC_HEX → n = length (enc_value enc text) ∧ take n sc' = enc_value enc text) →
     Q (0%Z, n) (mkShell w m d sc' o)) →
  (∀ rc n sc' o', rc ≠ 0%Z → length sc' = ZDB_SHELL_SCRATCH_SIZE → Q (rc, n) (mkShell w m d sc' (o ++ o'))) →
  wp (kv_set_parse (kw :: ns :: key :: text :: rest) enc) Q (mkShell w m d sc o).
Proof.
  intros Hsc Hok Hbad. unfold kv_set_parse. case_bool_decide as He; [|by apply wp_ret, Hok].
  subst enc. apply wp_bind. unfold mgets, wp. cbn [fst snd zdb_shell_scratch].
  change ((kw :: ns :: key :: text :: rest) !! 3) with (Some text).
  pose proof (parse_hex_spec text sc ZDB_SHELL_SCRATCH_SIZE ltac:(lia)) as [Hl Hr].
  destruct (zdb_shell_parse_hex (Some text) sc ZDB_SHELL_SCRATCH_SIZE) as [r sc'] eqn:Hp.
  cbn [fst snd] in Hl, Hr. unfold bind, mmodify. cbn [fst snd].
  change (_ <| zdb_shell_scratch := sc' |>) with (mkShell w m d sc' o).
  destruct r as [rc|n].
  - assert (rc ≠ 0%Z) as Hrc by (destruct Hr as [-> | ->]; unfold EINVAL, ENOSPC; lia).
    destruct (Z.eqb_spec rc (- ENOSPC)).
    + apply (Hbad rc 0 sc' [_]); [done|by rewrite Hl].
    + apply (Hbad (- EINVAL)%Z 0 sc' [_]); [done|by rewrite Hl].
  - destruct Hr as (-> & _ & _ & Hw & _). apply Hok; [by rewrite Hl|]. intros _. split; [done|].
    rewrite Hw. apply take_buf_write.
Qed.

(** The bytes a value takes in the request of each encoding. *)
Lemma wp_kv_set_value sl enc kw ns key text rest len (Q : zdb_status_t * nat → shell_state W → Prop) w m d sc o :
  KvReadsOk F → kv_env sl w → length ns ≤ CONFIG_ZDB_MAX_KEY_LEN →
  length sc = ZDB_SHELL_SCRATCH_SIZE →
  (enc = ZDB_SHELL_KV_ENC_HEX → len = length (enc_value enc text) ∧ take len sc = enc_value enc text) →
  (∀ st w', kv_step w w' → kv_env sl w' →
     (if decide (st = ZDB_OK) then
        zdb_key_valid (Some key) = true ∧
        ∀ ns' key', kv_lookup (w_f w') ns' key' =
          kv_update (kv_lookup (w_f w)) ns key (Some (enc_value enc text)) ns' key'
      else lookups_same w w') → Q (st, length (enc_value enc text)) (mkShell w' m d sc o)) →
  wp (kv_set_value (kw :: ns :: key :: text :: rest) enc (kv_handle ns) len) Q (mkShell w m d sc o).
Proof.
  intros Hr Henv Hns Hsc Hhex HQ. unfold kv_set_value.
  change ((kw :: ns :: key :: text :: rest) !! 3) with (Some text).
  change ((kw :: ns :: key :: text :: rest) !! 2) with (Some key). destruct enc; cbn [enc_value] in *.
  - apply wp_bind, wp_on_w. unfold zdb_kv_set_str. cbn [length].
    apply (wp_kv_set_any sl); [done..|by simpl; rewrite length_app|].
    intros st w' Hst Henv' _ Hpost. apply wp_ret. cbn [default from_option id].
    replace (length text + 1) with (length (text ++ [nul])) by (by rewrite length_app).
    apply HQ; [done..|]. case_decide; [|done]. destruct Hpost as [Hk Hlk]. split; [done|].
    intros ns' key'. rewrite Hlk. cbn [default from_option id].
    by rewrite take_ge by (rewrite length_app; simpl; lia).
  - apply wp_bind, wp_on_w, (wp_kv_set_any sl); [done..|simpl; lia|].
    intros st w' Hst Henv' _ Hpost. apply wp_ret, HQ; [done..|].
    cbn [default from_option id] in *. by rewrite take_ge in Hpost by lia.
  - destruct Hhex as [-> Htake]; [done|]. apply wp_bind. unfold mgets, wp. cbn [fst snd zdb_shell_scratch].
    apply wp_bind, wp_on_w, (wp_kv_set_any sl); [done..| |].
    { cbn [value_ok]. rewrite <- Htake, length_take. lia. }
    intros st w' Hst Henv' _ Hpost. apply wp_ret, HQ; [done..|].
    cbn [default from_option id] in *. by rewrite Htake in Hpost.
Qed.

(** [zdb kv set] stores the value its text stands for, and says so, or leaves
    every value as it was. *)
Lemma wp_shell_kv_set sl enc kw ns key text rest (Q : Z → shell_state W → Prop) w m sc o :
  KvReadsOk F → kv_env sl w → length sc = ZDB_SHELL_SCRATCH_SIZE →
  (∀ rc w' sc' o', kv_step w w' → kv_env sl w' → length sc' = ZDB_SHELL_SCRATCH_SIZE →
     (if decide (rc = 0%Z) then
        zdb_key_valid (Some ns) = true ∧ zdb_key_valid (Some key) = true ∧
        o' = set_out ns key (enc_value enc text) ∧
        ∀ ns' key', kv_lookup (w_f w') ns' key' =
          kv_update (kv_lookup (w_f w)) ns key (Some (enc_value enc text)) ns' key'
      else lookups_same w w') → Q rc (mkShell w' m (Some the_db) sc' (o ++ o'))) →
  wp (zdb_shell_kv_set enc (kw :: ns :: key :: text :: rest)) Q (mkShell w m (Some the_db) sc o).
Proof.
  intros Hr Henv Hsc HQ. unfold zdb_shell_kv_set. apply wp_locked, wp_bind.
  assert (∀ rc w' sc' o', rc ≠ 0%Z → kv_step w w' → kv_env sl w' → lookups_same w w' →
    length sc' = ZDB_SHELL_SCRATCH_SIZE → Q rc (mkShell w' m (Some the_db) sc' (o ++ o'))) as Hno.
  { intros rc w' sc' o' Hrc Hst Henv' Hlk Hsc'. apply HQ; [done..|]. by rewrite decide_False. }
  apply wp_kv_set_parse; [done| |].
  2:{ intros rc n sc' o' Hrc Hsc'. rewrite (proj2 (Z.eqb_neq _ _)) by done. by apply wp_ret, Hno. }
  intros sc' n Hsc' Hhex. cbn [negb]. change (negb (0 =? 0)%Z) with false. cbn iota.
  apply wp_bind, wp_on_w. change ((kw :: ns :: key :: text :: rest) !! 1) with (Some ns).
  apply wp_kv_open; cycle 1.
  { intros kv _. cbn [fst snd]. apply wp_fail. intros o'. by apply Hno. }
  intros Hns. cbn [fst snd]. rewrite bool_decide_eq_true_2 by done. cbn [negb].
  pose proof Hns as (? & [= <-] & _ & Hnl)%zdb_key_valid_spec.
  apply wp_bind, (wp_kv_set_value sl); [done..|].
  intros st w' Hst Henv' Hpost. cbn [fst snd]. case_bool_decide as Hok; cbn [negb].
  - subst st. rewrite decide_True in Hpost by done. destruct Hpost as [Hk Hlk].
    do 4 apply wp_bind, wp_print. apply wp_ret. rewrite <- !app_assoc. apply HQ; [done..|].
    rewrite decide_True by done. done.
  - rewrite decide_False in Hpost by done. apply wp_fail. intros o'. apply Hno; [|done..].
    by destruct st.
Qed.

(** ** [zdb kv get] *)

(** A stored value fits the I/O block its record was written through. *)
Lemma kv_lookup_length block f ns key v :
  kv_fits block f → kv_lookup f ns key = Some v → length v ≤ block.
Proof.
  intros Hfits. unfold kv_lookup. destruct (kvb_store f !! _) as [d|] eqn:Hd; [|done].
  intros (_ & _ & ->)%rec_value_Some.
  specialize (Hfits _ _ Hd ltac:(apply record_id_not_index)). rewrite !length_app in Hfits. lia.
Qed.

(** [zdb kv get] prints the value that is stored and returns 0, or fails with
    ENOENT when there is none; it changes no value. *)
Lemma wp_shell_kv_get blocks sl kw ns key rest (Q : Z → shell_state W → Prop) w m sc o :
  KvReadsOk F → LockLive K → SlabLive K blocks → kv_env sl w →
  zdb_key_valid (Some ns) = true → zdb_key_valid (Some key) = true →
  length sc = ZDB_SHELL_SCRATCH_SIZE → slab_block_size sl ≤ ZDB_SHELL_SCRATCH_SIZE →
  slab_used (w_k w) (slab_name sl) < blocks (slab_name sl) →
  (∀ rc w' sc' o', kv_step w w' → kv_env sl w' → lookups_same w w' → length sc' = ZDB_SHELL_SCRATCH_SIZE →
     match kv_lookup (w_f w) ns key with
     | Some v => rc = 0%Z ∧ o' = get_out ns key v
     | None => rc = (- ENOENT)%Z
     end → Q rc (mkShell w' m (Some the_db) sc' (o ++ o'))) →
  wp (cmd_zdb_kv_get (kw :: ns :: key :: rest)) Q (mkShell w m (Some the_db) sc o).
Proof.
  intros Hr Hlock Hslab Henv Hns Hkey Hsc Hblock Hfree HQ. unfold cmd_zdb_kv_get.
  pose proof Hns as (? & [= <-] & _ & Hnl)%zdb_key_valid_spec.
  apply wp_locked, wp_bind, wp_on_w. change ((kw :: ns :: key :: rest) !! 1) with (Some ns).
  change ((kw :: ns :: key :: rest) !! 2) with (Some key).
  apply wp_kv_open; cycle 1.
  { intros kv [Hf|Hm]; [congruence|]. by destruct (Hm (proj1 Henv)). }
  intros _. cbn [fst snd]. rewrite bool_decide_eq_true_2 by done. cbn [negb].
  apply wp_bind. unfold mgets at 1, wp at 1. cbn [fst snd zdb_shell_scratch].
  apply wp_bind, wp_on_w, (wp_kv_get sl); [by apply kv_env_ready|done|done|..].
  - intros st w2 _ _ [[_ Hfull]|[_ Hbusy]]; [|by destruct (Hbusy Hlock)].
    specialize (Hfull _ Hslab). lia.
  - intros w2 Hp Hd. pose proof (published_step _ _ _ _ Hp) as Hst.
    pose proof (kv_env_same _ _ _ Hst Hd Henv) as Henv'.
    pose proof (same_data_lookups _ _ Hd) as Hlk.
    assert (∀ v, kv_lookup (w_f w) ns key = Some v → length v ≤ ZDB_SHELL_SCRATCH_SIZE) as Hlen.
    { intros v Hv. pose proof (kv_lookup_length _ _ _ _ _ (proj2 (proj2 Henv)) Hv). lia. }
    destruct (kv_lookup (w_f w) ns key) as [v|] eqn:Hv; cbn [get_answer].
    + apply wp_bind. unfold mmodify at 1, wp at 1.
      cbn [fst snd o_value o_len default from_option id fmap option_fmap option_map].
      specialize (Hlen v eq_refl). rewrite (take_ge v) by done.
      rewrite bool_decide_eq_true_2 by done. cbn [negb].
      unfold wp. change (_ <| zdb_shell_scratch := ?d |>) with (mkShell w2 (S m) (Some the_db) d o).
      rewrite run_kv_get_print by (done || apply take_buf_write).
      apply (HQ 0%Z w2 (buf_write sc 0 v) (get_out ns key v)); [done..| |done].
      rewrite length_buf_write; [done|simpl; lia].
    + apply wp_bind. unfold mmodify at 1, wp at 1.
      cbn [fst snd o_value default from_option id].
      rewrite bool_decide_eq_false_2 by done. cbn [negb].
      apply wp_fail. intros o'. by apply HQ.
  - intros st w' _ _ _ _ Hnr. done.
Qed.

(** ** [zdb kv list] *)

(** The keys of a namespace that have a value, in the order of the index. *)
Definition live_pairs (f : F) (es : list zdb_kv_index_entry) (ns : cstring)
    : list (cstring * list byte) :=
  omap (λ e, if bool_decide (en_namespace_name e = ns)
             then pair (en_key e) <$> kv_lookup f ns (en_key e) else None) es.

Lemma next_live_pairs f es ns i :
  match next_live f es ns i with
  | Some (p, key, v) => i ≤ p < i + length es ∧
      live_pairs f es ns = (key, v) :: live_pairs f (drop (S (p - i)) es) ns ∧ ∃ e, e ∈ es ∧ en_key e = key
  | None => live_pairs f es ns = []
  end.
Proof.
  revert i. induction es as [|e es IH]; intros i; cbn [next_live live_pairs omap list_omap]; [done|].
  assert (match next_live f es ns (S i) with
    | Some (p, key, v) => i ≤ p < i + length (e :: es) ∧ live_pairs f es ns =
        (key, v) :: live_pairs f (drop (S (p - i)) (e :: es)) ns ∧ ∃ e', e' ∈ e :: es ∧ en_key e' = key
    | None => live_pairs f es ns = []
    end) as Hskip.
  { specialize (IH (S i)). destruct (next_live f es ns (S i)) as [[[p key] v]|]; [|done].
    destruct IH as (Hp & -> & e' & He & Hk). split_and!; [lia|simpl; lia| |exists e'; split; [by right|done]].
    replace (p - i) with (S (p - S i)) by lia. done. }
  case_bool_decide; [|done].
  destruct (kv_lookup f ns (en_key e)) as [v|]; cbn [fmap option_fmap option_map]; [|done].
  split_and!; [done|simpl; lia| |exists e; split; [by left|done]]. by rewrite Nat.sub_diag.
Qed.

Lemma live_pairs_ext f f' es ns : kvb_store f' = kvb_store f → live_pairs f' es ns = live_pairs f es ns.
Proof.
  intros Hf. unfold live_pairs. induction es as [|e es IH]; [done|]. cbn [omap list_omap].
  by rewrite (kv_lookup_ext f f'), IH.
Qed.

(** The bytes of a value the listing shows: no preview is ever marked as
    clipped, since 32 digits leave no room for the mark in its 35 characters. *)
Definition preview_text (v : list byte) : cstring := flat_map fmt_02x (take ZDB_SHELL_PREVIEW_BYTES v).

Lemma preview_loop_all data n off capacity :
  off + 2 * n + 1 < capacity → preview_loop data n off capacity = flat_map fmt_02x (take n data).
Proof.
  revert data off. induction n as [|n IH]; intros data off Hc; [by destruct data|].
  destruct data as [|b data]; [done|]. cbn [preview_loop take flat_map].
  rewrite (proj2 (Nat.ltb_lt _ _)) by lia. by rewrite IH by lia.
Qed.

Lemma length_flat_02x data : length (flat_map fmt_02x data) = 2 * length data.
Proof. induction data as [|b data IH]; [done|]. cbn [flat_map]. rewrite length_app, IH. simpl. lia. Qed.

Lemma preview_sizeof buf v :
  take (Nat.min (length v) ZDB_SHELL_PREVIEW_BYTES) buf = take ZDB_SHELL_PREVIEW_BYTES v →
  zdb_shell_kv_preview sizeof_preview buf (Nat.min (length v) ZDB_SHELL_PREVIEW_BYTES) (length v) =
  preview_text v.
Proof.
  intros Hb. unfold zdb_shell_kv_preview, preview_text. cbv zeta.
  rewrite <- Hb. set (n := Nat.min (length v) ZDB_SHELL_PREVIEW_BYTES) in *.
  assert (n ≤ 16) as Hn by (unfold n, ZDB_SHELL_PREVIEW_BYTES; lia).
  rewrite Nat.min_l by (unfold ZDB_SHELL_PREVIEW_BYTES; lia).
  rewrite preview_loop_all by (unfold sizeof_preview, ZDB_SHELL_PREVIEW_BYTES; lia).
  destruct (n <? length v) eqn:Hlt; [|done]. apply Nat.ltb_lt in Hlt.
  rewrite length_flat_02x, Hb, length_take.
  rewrite (proj2 (Nat.ltb_ge _ _)); [done|].
  unfold n, sizeof_preview, ZDB_SHELL_PREVIEW_BYTES in *. lia.
Qed.

Definition list_row (i : nat) (kv : cstring * list byte) : shell_line :=
  say "[%u] key=%s len=%u hex=%s"
    [A_int i; A_str (Some kv.1); A_int (length kv.2); A_str (Some (preview_text kv.2))].

(** The loop prints the pairs that are left, up to the limit, and says whether
    there are more. *)
Lemma wp_kv_list_loop blocks fuel sl ns pos key value (limit : Z) shown
    (Q : option (Z * Z * bool) → shell_state W → Prop) w m d sc o :
  KvReadsOk F → LockLive K → SlabLive K blocks → kv_ready sl ns w →
  slab_used (w_k w) (slab_name sl) < blocks (slab_name sl) →
  Forall (λ e, en_key e ≠ [] ∧ entry_ok e ∧ c_string (en_key e)) (ctx_entries (w_db w)) →
  length (ctx_entries (w_db w)) - pos < fuel → (Z.of_nat shown + length (ctx_entries (w_db w)) - pos < 2 ^ 32)%Z →
  (Z.of_nat shown ≤ limit)%Z →
  let live := live_pairs (w_f w) (drop pos (ctx_entries (w_db w))) ns in
  let room := Z.to_nat (limit - shown) in
  (∀ w', kv_at 0 0 sl w w' → same_data w w' →
     Q (Some (0%Z, Z.of_nat (shown + length (take room live)), room <? length live))
       (mkShell w' m d sc (o ++ imap (λ i, list_row (shown + i)) (take room live)))) →
  wp (kv_list_loop fuel (kv_handle ns) pos key value limit shown) Q (mkShell w m d sc o).
Proof.
  intros Hr Hlock Hslab Hready Hfree Hes Hfuel Hwrap Hlim. cbv zeta.
  revert pos key value shown w o Hready Hfree Hes Hfuel Hwrap Hlim.
  induction fuel as [|fuel IH]; intros pos key value shown w o Hready Hfree Hes Hfuel Hwrap Hlim HQ; [lia|].
  cbn [kv_list_loop]. apply wp_bind, wp_on_w, (wp_iter_next blocks sl); try done.
  { eapply Forall_impl; [exact Hes|]. by intros e (? & ? & _). }
  { lia. }
  intros [[st p] out] w1 Hat Hd Hans. unfold iter_answer in Hans.
  pose proof (next_live_pairs (w_f w) (drop pos (ctx_entries (w_db w))) ns pos) as Hlive.
  destruct (next_live _ _ _ _) as [[[i k] v]|]; cbn [fst snd] in *.
  - destruct Hans as (-> & -> & Hkl & Hk & Hv). rewrite !bool_decide_eq_false_2 by done.
    rewrite bool_decide_eq_true_2 by done. cbn [negb].
    destruct Hlive as (Hi & Hlive & e & He & <-).
    rewrite length_drop in Hi.
    assert (c_string (en_key e)) as Hcs.
    { by apply (proj1 (Forall_forall _ _) (Forall_drop _ pos _ Hes)) in He as (_ & _ & ?). }
    rewrite drop_drop in Hlive. replace (pos + S (i - pos)) with (S i) in Hlive by lia.
    destruct (Z.leb_spec limit shown).
    { apply wp_ret. specialize (HQ w1 Hat Hd). rewrite Hlive in HQ.
      replace (Z.to_nat (limit - shown)) with 0 in HQ by lia. cbn in HQ.
      by rewrite Nat.add_0_r, app_nil_r in HQ. }
    rewrite Hv. cbn [get_answer snd o_len o_value default from_option id fmap option_fmap option_map io_value].
    replace (c_str (io_key out)) with (en_key e); cycle 1.
    { rewrite <- (take_drop (length (en_key e) + 1) (io_key out)), Hk, <- app_assoc.
      symmetry. by apply c_str_id. }
    rewrite preview_sizeof by
      (rewrite (Nat.min_comm _ ZDB_SHELL_PREVIEW_BYTES), <- length_take; apply take_buf_write).
    apply wp_bind, wp_print.
    replace (u32 (Z.of_nat shown + 1)) with (Z.of_nat (S shown)); cycle 1.
    { unfold u32. rewrite Z.mod_small; lia. }
    pose proof Hd as [Hs Hc].
    assert (ctx_entries (w_db w1) = ctx_entries (w_db w)) as Hent by (unfold ctx_entries; by rewrite Hc).
    apply IH; rewrite ?Hent; try done.
    + by eapply kv_at_ready.
    + rewrite (at_slab _ _ _ _ _ Hat). by case_decide.
    + lia.
    + lia.
    + lia.
    + intros w2 Hat2 Hd2. rewrite (live_pairs_ext (w_f w) (w_f w1)) by done.
      specialize (HQ w2 (kv_at_trans _ _ _ _ _ _ Hat Hat2) ltac:(by etrans)).
      rewrite Hlive in HQ. replace (Z.to_nat (limit - shown)) with (S (Z.to_nat (limit - S shown))) in HQ by lia.
 cbn [take imap length] in HQ.
      rewrite Nat.add_succ_r, Nat.add_0_r in HQ. rewrite <- app_assoc. cbn [app].
      erewrite (imap_ext _ (λ i, list_row (S shown + i))) in HQ; [exact HQ|].
      intros j x _. cbn. by rewrite Nat.add_succ_r.
  - destruct Hans as [-> _]. rewrite bool_decide_eq_true_2 by done.
    apply wp_ret. specialize (HQ w1 Hat Hd). rewrite Hlive in HQ.
    cbn in HQ. rewrite take_nil in HQ. cbn in HQ.
    by rewrite Nat.add_0_r, app_nil_r in HQ.
Qed.

Definition limit_arg (lim : option Z) : list cstring :=
  match lim with Some n => [dec_text n] | None => [] end.

Definition limit_of (lim : option Z) : Z := default ZDB_SHELL_LIST_DEFAULT lim.

Lemma run_parse_limit kw ns lim (s : shell_state W) :
  from_option (λ n, 0 ≤ n < 2 ^ 64)%Z True lim →
  zdb_shell_parse_listing_args (kw :: ns :: limit_arg lim) 2
    {| la_limit := Some ZDB_SHELL_LIST_DEFAULT; la_from := None; la_to := None; la_windowed := None |} s =
  ((0%Z, {| la_limit := Some (limit_of lim); la_from := None; la_to := None; la_windowed := None |}), s).
Proof.
  intros Hlim. unfold zdb_shell_parse_listing_args.
  assert (size_t (Z.of_nat (length (kw :: ns :: limit_arg lim)) - Z.of_nat 2) = length (limit_arg lim)) as ->.
  { cbn [length]. replace (_ - _)%Z with (Z.of_nat (length (limit_arg lim))) by lia.
    apply size_t_nat. pose proof size_width_range. apply Z.lt_le_trans with (2 ^ 32)%Z;
      [by destruct lim|by apply Z.pow_le_mono_r]. }
  destruct lim as [n|]; [|done]. cbn [la_limit].
  change ((kw :: ns :: limit_arg (Some n)) !! 2) with (Some (dec_text n)).
  unfold parse_into. cbn -[zdb_shell_parse_u64 dec_text]. simpl in Hlim. by rewrite parse_u64_dec.
Qed.

(** The listing of a namespace: one line for each of the first pairs, up to
    the limit, then how many and whether there are more. *)
Definition list_out (ns : cstring) (limit : Z) (live : list (cstring * list byte)) : list shell_line :=
  let rows := take (Z.to_nat limit) live in
  [say "namespace: %s" [A_str (Some ns)]] ++ imap list_row rows ++
  [say "shown: %u" [A_int (length rows)]; say "truncated: %s" [yes_no (Z.to_nat limit <? length live)]].

(** A row for the [i]-th pair: its preview is the bytes of the value, or the
    first ones and then, it may be, the mark of a clipped one. *)
Definition row_shows (i : nat) (kv : cstring * list byte) (line : shell_line) : Prop :=
  ∃ mark, line = say "[%u] key=%s len=%u hex=%s"
      [A_int i; A_str (Some kv.1); A_int (length kv.2);
       A_str (Some (flat_map fmt_02x (take ZDB_SHELL_PREVIEW_BYTES kv.2) ++ mark))] ∧
    (mark = [] ∨ ZDB_SHELL_PREVIEW_BYTES < length kv.2 ∧ mark = s2b "..").

(** The listing, with a row for each pair that is shown. *)
Definition listing (ns : cstring) (limit : Z) (live : list (cstring * list byte))
    (out : list shell_line) : Prop :=
  let shown := take (Z.to_nat limit) live in
  ∃ rows, length rows = length shown ∧
    (∀ i kv, shown !! i = Some kv → ∃ line, rows !! i = Some line ∧ row_shows i kv line) ∧
    out = [say "namespace: %s" [A_str (Some ns)]] ++ rows ++
      [say "shown: %u" [A_int (length shown)];
       say "truncated: %s" [yes_no (Z.to_nat limit <? length live)]].

Lemma list_out_listing ns limit live : listing ns limit live (list_out ns limit live).
Proof.
  exists (imap list_row (take (Z.to_nat limit) live)). split_and!; [apply length_imap| |done].
  intros i kv Hkv. exists (list_row i kv). split; [by rewrite list_lookup_imap, Hkv|].
  exists []. split; [|by left]. unfold list_row, preview_text. by rewrite app_nil_r.
Qed.

Lemma wp_shell_kv_list blocks fuel sl kw ns lim (Q : option Z → shell_state W → Prop) w m sc o :
  KvReadsOk F → LockLive K → SlabLive K blocks → kv_env sl w → is_Some (kv_ctx (w_db w)) →
  slab_used (w_k w) (slab_name sl) < blocks (slab_name sl) → zdb_key_valid (Some ns) = true →
  Forall (λ e, en_key e ≠ [] ∧ entry_ok e ∧ c_string (en_key e)) (ctx_entries (w_db w)) →
  length (ctx_entries (w_db w)) ≤ CONFIG_ZDB_KV_INDEX_MAX_ENTRIES →
  length (ctx_entries (w_db w)) < fuel → from_option (λ n, 0 ≤ n < 2 ^ 64)%Z True lim →
  (∀ w', kv_step w w' → same_data w w' →
     Q (Some 0%Z) (mkShell w' m (Some the_db) sc
       (o ++ list_out ns (limit_of lim) (live_pairs (w_f w) (ctx_entries (w_db w)) ns)))) →
  wp (cmd_zdb_kv_list fuel (kw :: ns :: limit_arg lim)) Q (mkShell w m (Some the_db) sc o).
Proof.
  intros Hr Hlock Hslab Henv [c Hc] Hfree Hns Hes Hmax Hfuel Hlim HQ. unfold cmd_zdb_kv_list.
  pose proof Hns as (? & [= <-] & _ & Hnl)%zdb_key_valid_spec.
  apply wp_locked_loop, wp_bind. unfold wp at 1. rewrite run_parse_limit by done. cbn [fst snd negb].
  change (negb (0 =? 0)%Z) with false. cbn iota.
  change ((kw :: ns :: limit_arg lim) !! 1) with (Some ns).
  apply wp_bind, wp_on_w, wp_kv_open; cycle 1.
  { intros kv [Hf|Hm]; [congruence|]. by destruct (Hm (proj1 Henv)). }
  intros _. cbn [fst snd]. rewrite bool_decide_eq_true_2 by done. cbn [negb].
  apply wp_bind, wp_on_w. unfold zdb_kv_iter_open. apply wp_bind.
  unfold zdb_kv_ctx_get_or_alloc. apply wp_bind, wp_db_get. rewrite Hc. apply wp_ret. cbn [negb].
  apply wp_ret. cbn [fst snd]. rewrite bool_decide_eq_true_2 by done. cbn [negb].
  apply wp_bind, wp_print, wp_bind.
  cbn [mbind option_bind it_kv default from_option id fmap option_fmap option_map it_position la_limit].
  apply (wp_kv_list_loop blocks fuel sl ns 0 _ _ _ 0); try done.
  { by apply kv_env_ready. }
  { lia. }
  { pose proof kv_index_range. lia. }
  { unfold limit_of. destruct lim; simpl in *; unfold ZDB_SHELL_LIST_DEFAULT; lia. }
  intros w' Hat Hd. cbn [negb]. 
  apply wp_bind, wp_print, wp_bind, wp_print, wp_ret.
  rewrite drop_0, Z.sub_0_r. rewrite <- !app_assoc. apply HQ; [by eapply kv_at_step|done].
Qed.
End commands.
