(* ===== verification/Sim.v ===== *)
(** * A concrete environment

    Instances of the environment classes that compute: a kernel whose mutex is
    always granted and whose slabs have four blocks, a backend that is a map,
    CRC-32. The witnesses of the conditional theorems run in it. *)

From S2P Require Import Prelude Config Env Types.

(** ** Kernel *)

Record sim_kernel := {
  sk_lock : nat;
  sk_slabs : gmap positive nat;
  sk_heap : nat;
  sk_now : Z;
}.

Definition sim_used (k : sim_kernel) (s : positive) : nat := default 0 (sk_slabs k !! s).
Definition sim_blocks : positive → nat := λ _, 4.

#[global] Instance sim_Kernel : Kernel sim_kernel := {|
  k_mutex_init k := k <| sk_lock := 0 |>;
  k_mutex_lock k := (0%Z, k <| sk_lock ::= S |>);
  k_mutex_unlock k := k <| sk_lock ::= pred |>;
  k_mutex_owned k := 0 <? sk_lock k;
  k_mem_slab_alloc sl k :=
    if sim_used k (slab_name sl) <? 4
    then (0%Z, k <| sk_slabs ::= λ m, <[slab_name sl := S (sim_used k (slab_name sl))]> m |>)
    else ((- ENOMEM)%Z, k);
  k_mem_slab_free sl k :=
    k <| sk_slabs ::= λ m, <[slab_name sl := pred (sim_used k (slab_name sl))]> m |>;
  k_malloc n k := (true, k <| sk_heap ::= S |>);
  k_free k := k <| sk_heap ::= pred |>;
  k_uptime_get k := ((sk_now k mod 2 ^ 63)%Z, k <| sk_now ::= Z.succ |>);
  k_yield k := k;
  k_work_submit k := (0%Z, k);
  k_work_runs k := (true, k);
  k_work_cancel_sync k := k;
  k_sem_reset k := k;
  k_sem_give k := k;
  k_sem_take k := (0%Z, k);
  zbus_chan_pub k := (0%Z, k);
  lock_depth := sk_lock;
  slab_used := sim_used;
  heap_used := sk_heap;
|}.

#[global] Instance sim_KernelLaws : KernelLaws sim_kernel.
Proof.
  split; intros; try done; try (by split).
  - simpl. auto.
  - simpl. rewrite Bool.eq_iff_eq_true, Nat.ltb_lt, bool_decide_eq_true. done.
  - simpl. destruct (sim_used k (slab_name sl) <? 4); simpl; split_and!; try done;
      intros s; unfold sim_used; simpl.
    + case_decide as Hd; [destruct Hd as [-> _]; by rewrite lookup_insert_eq|].
      rewrite lookup_insert_ne; [done|]. intros <-. by apply Hd.
    + rewrite decide_False; [done|]. by intros [_ ?].
  - simpl. split_and!; try done. intros s. unfold sim_used. simpl.
    case_decide as Hd; [subst; by rewrite lookup_insert_eq|]. by rewrite lookup_insert_ne.
  - simpl. split; [apply Z.mod_pos_bound; lia|by split].
Qed.

#[global] Instance sim_LockLive : LockLive sim_kernel.
Proof. by intros k. Qed.

#[global] Instance sim_HeapLive : HeapLive sim_kernel.
Proof. by intros n k. Qed.

#[global] Instance sim_SlabLive : SlabLive sim_kernel sim_blocks.
Proof.
  intros sl k H. simpl in *. unfold sim_blocks in H. by rewrite (proj2 (Nat.ltb_lt _ _) H).
Qed.

Definition sim_k0 : sim_kernel := {| sk_lock := 0; sk_slabs := ∅; sk_heap := 0; sk_now := 1000 |}.

(** ** Backend *)

Abbreviation sim_kv := (gmap Z (list byte)).

#[global] Instance sim_KvBackend : KvBackend sim_kv := {|
  kvb_write id d f :=
    if bool_decide (f !! id = Some d) then (0%Z, f) else (Z.of_nat (length d), <[id := d]> f);
  kvb_read id cap f :=
    match f !! id with
    | Some d => ((Z.of_nat (length d), take cap d), f)
    | None => (((- ENOENT)%Z, []), f)
    end;
  kvb_delete id f := (0%Z, delete id f);
  kvb_store f := f;
|}.

#[global] Instance sim_KvBackendLaws : KvBackendLaws sim_kv.
Proof.
  split; simpl.
  - intros id d f Hd. case_bool_decide; simpl; [right; left|left]; by split_and!.
  - intros id cap f. left. by repeat case_match; simplify_eq/=.
  - intros id f. by left.
Qed.

#[global] Instance sim_KvReadsOk : KvReadsOk sim_kv.
Proof. intros id cap f. simpl. by repeat case_match; simplify_eq/=. Qed.

(** ** CRC-32, reflected, bit by bit *)

Definition crc_bit (c : Z) : Z :=
  if Z.odd c then Z.lxor (Z.shiftr c 1) 0xEDB88320 else Z.shiftr c 1.
Definition crc_byte (c : Z) (b : byte) : Z :=
  Nat.iter 8 crc_bit (Z.lxor c (byte.unsigned b)).
Definition crc32_sim (s : Z) (d : list byte) : Z :=
  Z.lxor (fold_left crc_byte d (Z.lxor s 0xFFFFFFFF)) 0xFFFFFFFF.

#[global] Instance sim_Crc32 : Crc32 := crc32_sim.

Definition u32_range (z : Z) : Prop := (0 ≤ z < 2 ^ 32)%Z.

Lemma lxor_u32 a b : u32_range a → u32_range b → u32_range (Z.lxor a b).
Proof.
  unfold u32_range. intros [Ha Ha'] [Hb Hb'].
  split; [by apply Z.lxor_nonneg|].
  destruct (Z.eq_dec (Z.lxor a b) 0) as [->|Hne]; [lia|].
  apply Z.log2_lt_pow2; [assert (0 ≤ Z.lxor a b)%Z by (by apply Z.lxor_nonneg); lia|].
  pose proof (Z.log2_lxor a b Ha Hb).
  assert (∀ x, 0 ≤ x < 2 ^ 32 → Z.log2 x < 32)%Z as Hl.
  { intros x Hx. destruct (Z.eq_dec x 0) as [->|]; [done|]. apply Z.log2_lt_pow2; lia. }
  pose proof (Hl a). pose proof (Hl b). lia.
Qed.

Lemma crc_bit_range c : u32_range c → u32_range (crc_bit c).
Proof.
  intros Hc. assert (u32_range (Z.shiftr c 1)) as Hs.
  { unfold u32_range in *. rewrite Z.shiftr_div_pow2 by lia. change (2 ^ 1)%Z with 2%Z.
    split; [apply Z.div_pos; lia|]. apply Z.div_lt_upper_bound; lia. }
  unfold crc_bit. destruct (Z.odd c); [|done]. apply lxor_u32; [done|]. unfold u32_range. lia.
Qed.

Lemma crc_byte_range c b : u32_range c → u32_range (crc_byte c b).
Proof.
  intros Hc. unfold crc_byte. pose proof (byte.unsigned_range b).
  assert (u32_range (Z.lxor c (byte.unsigned b))) as H0.
  { apply lxor_u32; [done|]. unfold u32_range. lia. }
  simpl. by do 8 apply crc_bit_range.
Qed.

#[global] Instance sim_Crc32Laws : Crc32Laws.
Proof.
  split.
  - intros s d Hs. unfold crc32_ieee_update, sim_Crc32, crc32_sim.
    apply lxor_u32; [|unfold u32_range; lia].
    assert (u32_range (Z.lxor s 0xFFFFFFFF)) as H0.
    { apply lxor_u32; [done|]. unfold u32_range. lia. }
    revert H0. generalize (Z.lxor s 0xFFFFFFFF).
    induction d as [|b d IH]; intros z Hz; [done|]. simpl. by apply IH, crc_byte_range.
  - intros s. unfold crc32_ieee_update, sim_Crc32, crc32_sim. simpl.
    by rewrite Z.lxor_assoc, Z.lxor_nilpotent, Z.lxor_0_r.
  - intros s a b. unfold crc32_ieee_update, sim_Crc32, crc32_sim.
    by rewrite Z.lxor_assoc, Z.lxor_nilpotent, Z.lxor_0_r, fold_left_app.
Qed.

(** ** A build and an instance *)

#[global] Instance sim_Config : Config := {|
  CONFIG_ZDB_KV := true;
  CONFIG_ZDB_KV_BACKEND_NVS := true;
  CONFIG_ZDB_KV_BACKEND_ZMS := false;
  CONFIG_ZDB_KV_PERSIST_INDEX := true;
  CONFIG_ZDB_TS := true;
  CONFIG_ZDB_TS_ROLLOVER := true;
  CONFIG_ZDB_TS_DELTA_ENCODING := true;
  CONFIG_ZDB_TS_AUTO_RECOVER := true;
  CONFIG_ZDB_DOC := true;
  CONFIG_ZDB_STATS := true;
  CONFIG_ZDB_EVENTING := true;
  CONFIG_ZDB_EVENTING_ZBUS := true;
  CONFIG_ZDB_FLATBUFFERS := true;
  CONFIG_FLATCC := true;
  CONFIG_ZDB_MAX_KEY_LEN := 48;
  CONFIG_ZDB_KV_INDEX_MAX_ENTRIES := 128;
  CONFIG_ZDB_TS_STREAM_NAME_MAX_LEN := 24;
  CONFIG_ZDB_TS_MAX_STREAMS := 2;
  CONFIG_ZDB_TS_INGEST_BUFFER_BYTES := 1024;
  CONFIG_ZDB_TS_INGEST_SLAB_BLOCK_SIZE := 1024;
  CONFIG_ZDB_TS_MAX_AGG_POINTS := 4096;
  CONFIG_ZDB_TS_MAX_RECOVERY_TRUNCATE_BYTES := 4096;
  CONFIG_ZDB_TS_ROLLOVER_SEGMENT_BYTES := 4096;
  CONFIG_ZDB_TS_ROLLOVER_MAX_SEGMENTS := 4;
  CONFIG_ZDB_TS_DIRNAME := s2b "zdb";
  CONFIG_ZDB_DOC_MAX_FIELD_NAME_LEN := 32;
  CONFIG_ZDB_DOC_MAX_STRING_LEN := 256;
  CONFIG_ZDB_DOC_MAX_BYTES_LEN := 4096;
  CONFIG_ZDB_DOC_MAX_FIELD_COUNT := 32;
  CONFIG_ZDB_SCAN_YIELD_EVERY_N := 64;
  CONFIG_ZDB_TS_BACKEND_LITTLEFS := true;
  CONFIG_ZDB_TS_BACKEND_FCB := false;
  CONFIG_ZDB_TS_FCB_SECTOR_COUNT := 4;
  CONFIG_ZDB_TS_FCB_FLASH_AREA_ID := 1;
  CONFIG_ZDB_KV_IO_SLAB_BLOCK_SIZE := 128;
  CONFIG_SHELL_CMD_BUFF_SIZE := 256;
  SIZE_WIDTH := 32;
  INT64_CAST_OVERFLOW := λ _, (- 2 ^ 63)%Z;
  STRTOD_TINY_ERANGE := λ _, true;
  BUFFER_OVERRUN := take;
|}.

#[global] Instance sim_ConfigOk : ConfigOk sim_Config.
Proof. split; simpl; lia || done. Qed.

Definition sim_kv_slab : k_mem_slab := {| slab_name := 3; slab_block_size := 128 |}.

Definition sim_cfg : zdb_cfg_t := {|
  kv_backend_fs := true;
  lfs_mount_point := Some (s2b "/lfs");
  scan_yield_every_n := 64;
  kv_defaults := Some
    [{| def_namespace_name := Some (s2b "cfg"); def_key := Some (s2b "rate");
        def_value := Some (s2b "10"); def_value_len := 2 |}];
  cfg_event_listeners := Some [{| notify := true; user_ctx := 7 |};
                               {| notify := false; user_ctx := 8 |}];
  cfg_ts_event_listeners := None;
  cfg_doc_event_listeners := None;
  cfg_core_event_listeners := Some [{| notify := true; user_ctx := 9 |}];
|}.

Definition sim_db : zdb_t := {|
  core_slab := Some {| slab_name := 1; slab_block_size := 2048 |};
  cursor_slab := Some {| slab_name := 2; slab_block_size := 512 |};
  kv_io_slab := Some sim_kv_slab;
  ts_ingest_slab := Some {| slab_name := 4; slab_block_size := 1024 |};
  kv_ctx := None;
  ts_ctx := None;
  cfg := Some sim_cfg;
  ts_stats := zero_stats;
  health := ZDB_HEALTH_OK;
  event_listeners := cfg_event_listeners sim_cfg;
  ts_event_listeners := None;
  doc_event_listeners := None;
  core_event_listeners := cfg_core_event_listeners sim_cfg;
  health_prev := ZDB_HEALTH_OK;
  health_event_pending := false;
|}.

Definition sim_w (f : sim_kv) : world sim_kernel sim_kv unit := mkWorld sim_db sim_k0 f tt [].
