(* ===== verification/SimFs.v ===== *)
(** * A concrete file system

    Files as a map from paths to contents; every call succeeds when it can. *)

From S2P Require Import Prelude Config Env Types FsEnv.

Abbreviation sim_fs := (gmap (list byte) (list byte)).

Record sim_fh := { sf_path : list byte; sf_pos : nat; sf_flags : fs_flags }.

(** The name of [q] in the directory [p]. *)
Fixpoint strip_dir (p q : list byte) : option (list byte) :=
  match p, q with
  | [], b :: q => if bool_decide (b = Byte.x2f) then Some q else None
  | a :: p, b :: q => if bool_decide (a = b) then strip_dir p q else None
  | _, [] => None
  end.

#[global] Instance file_name_dec name : Decision (file_name name).
Proof. unfold file_name. apply _. Defined.

Definition sim_dirent (p : list byte) (f : list byte * list byte) : option fs_dirent :=
  match strip_dir p f.1 with
  | Some name =>
      if bool_decide (file_name name)
      then Some {| de_name := name; de_type' := FS_DIR_ENTRY_FILE; de_size := length f.2 |}
      else None
  | None => None
  end.

(** The directories in the directory [p]: the first component of what is below
    them. *)
Fixpoint before_slash (s : list byte) : option (list byte) :=
  match s with
  | [] => None
  | b :: s => if bool_decide (b = Byte.x2f) then Some [] else cons b <$> before_slash s
  end.

Definition sim_subdir (p : list byte) (f : list byte * list byte) : option fs_dirent :=
  match strip_dir p f.1 ≫= before_slash with
  | Some name =>
      if bool_decide (file_name name)
      then Some {| de_name := name; de_type' := FS_DIR_ENTRY_DIR; de_size := 0 |}
      else None
  | None => None
  end.

#[global] Instance fs_dirent_eq_dec : EqDecision fs_dirent.
Proof. solve_decision. Defined.

Definition sim_listing (p : list byte) (s : sim_fs) : list fs_dirent :=
  omap (sim_dirent p) (map_to_list s) ++ remove_dups (omap (sim_subdir p) (map_to_list s)).

Lemma sim_subdir_Some p f e :
  sim_subdir p f = Some e → file_name (de_name e) ∧ de_type' e = FS_DIR_ENTRY_DIR.
Proof.
  unfold sim_subdir. destruct (_ ≫= _); [|done]. case_bool_decide; [|done]. by intros [= <-].
Qed.

Lemma sim_listing_dirs p s e :
  e ∈ remove_dups (omap (sim_subdir p) (map_to_list s)) → file_name (de_name e) ∧ de_type' e = FS_DIR_ENTRY_DIR.
Proof. rewrite elem_of_remove_dups, list_elem_of_omap. intros (f & _ & H). by eapply sim_subdir_Some. Qed.

#[global] Instance sim_FileSys : FileSys sim_fs sim_fh (list fs_dirent) := {|
  fs_file_t_init := {| sf_path := []; sf_pos := 0; sf_flags := FS_READ |};
  fs_dir_t_init := [];
  fs_open fh p fl s :=
    let h := {| sf_path := p; sf_pos := 0; sf_flags := fl |} in
    match s !! p with
    | Some _ => ((0%Z, h), if fs_o_trunc fl then <[p := []]> s else s)
    | None => if fs_o_create fl then ((0%Z, h), <[p := []]> s) else (((- ENOENT)%Z, fh), s)
    end;
  fs_close fh s := (0%Z, s);
  fs_read fh n s :=
    match s !! sf_path fh with
    | Some d =>
        let r := take n (drop (sf_pos fh) d) in
        ((Z.of_nat (length r), r, fh <| sf_pos ::= λ n, n + length r |>), s)
    | None => (((- EIO)%Z, [], fh), s)
    end;
  fs_write fh data s :=
    match s !! sf_path fh with
    | Some d =>
        let pos := if fs_o_append (sf_flags fh) then length d else sf_pos fh in
        ((Z.of_nat (length data), fh <| sf_pos := pos + length data |>),
         <[sf_path fh := file_write d pos data]> s)
    | None => (((- EIO)%Z, fh), s)
    end;
  fs_seek_set fh off s :=
    if (off <? 0)%Z then (((- EINVAL)%Z, fh), s)
    else ((0%Z, fh <| sf_pos := Z.to_nat off |>), s);
  fs_seek_end fh s :=
    match s !! sf_path fh with
    | Some d => ((0%Z, fh <| sf_pos := length d |>), s)
    | None => (((- EIO)%Z, fh), s)
    end;
  fs_tell fh s := (Z.of_nat (sf_pos fh), s);
  fs_truncate fh n s :=
    match s !! sf_path fh with
    | Some d => (0%Z, <[sf_path fh := take n (d ++ replicate (n - length d) nul)]> s)
    | None => ((- EIO)%Z, s)
    end;
  fs_unlink p s :=
    match s !! p with Some _ => (0%Z, delete p s) | None => ((- ENOENT)%Z, s) end;
  fs_rename p q s :=
    match s !! p with
    | Some d => (0%Z, <[q := d]> (delete p s))
    | None => ((- ENOENT)%Z, s)
    end;
  fs_mkdir p s := (0%Z, s);
  fs_stat p s :=
    match s !! p with
    | Some d =>
        ((0%Z, {| de_name := p; de_type' := FS_DIR_ENTRY_FILE; de_size := length d |}), s)
    | None =>
        (((- ENOENT)%Z, {| de_name := []; de_type' := FS_DIR_ENTRY_FILE; de_size := 0 |}), s)
    end;
  fs_opendir _ p s := ((0%Z, sim_listing p s), s);
  fs_readdir dh s :=
    match dh with
    | [] => ((0%Z, {| de_name := []; de_type' := FS_DIR_ENTRY_FILE; de_size := 0 |}, []), s)
    | e :: es => ((0%Z, e, es), s)
    end;
  fs_closedir _ s := (0%Z, s);
  fs_files s := s;
  fh_path := sf_path;
  fh_pos := sf_pos;
  fh_flags := sf_flags;
  dh_rest dh := dh;
|}.

Lemma strip_dir_Some p q name : strip_dir p q = Some name ↔ q = p ++ [Byte.x2f] ++ name.
Proof.
  revert q. induction p as [|a p IH]; intros [|b q]; simpl; try done.
  - case_bool_decide; naive_solver.
  - case_bool_decide as Hab; [|naive_solver]. rewrite IH. simpl. naive_solver.
Qed.

#[global] Instance sim_FileSysLaws : FileSysLaws sim_fs sim_fh (list fs_dirent).
Proof.
  split; simpl.
  - intros fh p fl s. destruct (s !! p) eqn:Hp; simpl.
    + right. split_and!; try done. left. by eexists.
    + destruct (fs_o_create fl) eqn:Hc; simpl; [|by left].
      right. split_and!; try done. by right.
  - intros fh s. by left.
  - intros fh n s. destruct (s !! sf_path fh) eqn:Hp; simpl; split_and!; try done; [right|by left].
    by eexists.
  - intros fh data s. destruct (s !! sf_path fh) eqn:Hp; simpl.
    + split_and!; try done; [intros q Hq; simpl; by rewrite lookup_insert_ne|].
      intros d [= <-]. exists (length data). rewrite take_ge, lookup_insert_eq by lia.
      split_and!; try done. by right.
    + split_and!; try done.
  - intros fh off s. destruct (Z.ltb_spec off 0); simpl; split_and!; try done; [by left|].
    right. split; [done|lia].
  - intros fh s. destruct (s !! sf_path fh) eqn:Hp; simpl; split_and!; try done; [right|by left].
    split; [done|by eexists].
  - intros fh s. split; [done|by right].
  - intros fh n s. destruct (s !! sf_path fh) eqn:Hp; simpl; [right|by left]. split; [done|by eexists].
  - intros p s. destruct (s !! p) eqn:Hp; simpl; [by right|by left].
  - intros p q s. destruct (s !! p) eqn:Hp; simpl; [right|by left]. split; [done|by eexists].
  - done.
  - intros p s. destruct (s !! p) eqn:Hp; simpl; split; try done; [right|by left].
    split; [done|]. by intros ? [= <-].
  - intros dh p s. split; [done|]. right. split; [done|]. split.
    + apply Forall_forall. intros e. unfold sim_listing. rewrite elem_of_app, list_elem_of_omap.
      intros [([q d] & _ & He)|He%sim_listing_dirs]; [|by apply He].
      unfold sim_dirent in He. simpl in He. destruct (strip_dir p q); [|done].
      case_bool_decide; [|done]. by injection He as <-.
    + intros name Hname. unfold sim_listing. split.
      * intros [d Hd]. eexists. rewrite elem_of_app, list_elem_of_omap. split_and!.
        -- left. exists (p ++ [Byte.x2f] ++ name, d). split; [by apply elem_of_map_to_list|].
           unfold sim_dirent. simpl. rewrite (proj2 (strip_dir_Some p _ name)) by done.
           by rewrite bool_decide_true.
        -- done.
        -- done.
      * intros (e & He & Hen & Hty). apply elem_of_app in He as [He|He%sim_listing_dirs]; cycle 1.
        { destruct He as [_ He]. congruence. }
        apply list_elem_of_omap in He as ([q d] & Hin & He).
        unfold sim_dirent in He. simpl in He. destruct (strip_dir p q) eqn:Hs; [|done].
        case_bool_decide; [|done]. injection He as <-. simpl in Hen. subst.
        apply strip_dir_Some in Hs as ->. exists d. by apply elem_of_map_to_list.
  - intros dh s. destruct dh; simpl; split; try done; by right.
  - done.
Qed.

#[global] Instance sim_FsCloseOk : FsCloseOk sim_fs sim_fh (list fs_dirent).
Proof. by intros fh s. Qed.

#[global] Instance sim_FsLive : FsLive sim_fs sim_fh (list fs_dirent).
Proof.
  split; simpl.
  - by intros fh s.
  - intros fh p fl s [d Hd]. by rewrite Hd.
  - intros fh n s [d Hd]. rewrite Hd. simpl. lia.
  - intros fh off s Hoff. by rewrite (proj2 (Z.ltb_ge _ _)).
  - intros fh s [d Hd]. by rewrite Hd.
  - intros fh s. lia.
  - intros p s [d Hd]. by rewrite Hd.
Qed.

#[global] Instance sim_FsRoom : FsRoom sim_fs sim_fh (list fs_dirent).
Proof.
  split; simpl.
  - apply sim_FsLive.
  - intros fh p fl s Hc. destruct (s !! p); [done|]. by rewrite Hc.
  - intros fh data s [d Hd]. by rewrite Hd.
  - intros p q s [d Hd]. by rewrite Hd.
  - intros p s [d Hd]. by rewrite Hd.
  - intros p s. by left.
Qed.

#[global] Instance sim_FsReplace : FsReplace sim_fs sim_fh (list fs_dirent).
Proof. intros p q s. simpl. by destruct (s !! p). Qed.

#[global] Instance sim_FsMissing : FsMissing sim_fs sim_fh (list fs_dirent).
Proof. intros fh p fl s H Hc. simpl in *. by rewrite H, Hc. Qed.

Lemma sim_dirent_key p f e :
  sim_dirent p f = Some e → de_type' e = FS_DIR_ENTRY_FILE ∧ f.1 = p ++ [Byte.x2f] ++ de_name e.
Proof.
  unfold sim_dirent. destruct (strip_dir p f.1) as [name|] eqn:Hs; [|done].
  case_bool_decide; [|done]. intros [= <-]. split; [done|]. by apply strip_dir_Some.
Qed.

Lemma before_slash_app name q : Byte.x2f ∉ name → before_slash (name ++ Byte.x2f :: q) = Some name.
Proof.
  induction name as [|b name IH]; intros Hn; [done|]. apply not_elem_of_cons in Hn as [Hb Hn].
  cbn [before_slash app]. rewrite bool_decide_false by congruence. by rewrite IH.
Qed.

#[global] Instance sim_FsDirLive : FsDirLive sim_fs sim_fh (list fs_dirent).
Proof.
  split; cbn.
  - done.
  - intros dh s. by destruct dh.
  - intros dh p s _. unfold sim_listing. rewrite map_app. apply NoDup_app. split_and!.
    + pose proof (NoDup_fst_map_to_list s) as Hn. revert Hn. generalize (map_to_list s). intros l.
      induction l as [|f l IH]; [constructor|]. cbn [fmap list_fmap map omap list_omap].
      intros [Hf Hl]%NoDup_cons. destruct (sim_dirent p f) as [e|] eqn:He; [|by apply IH].
      cbn [map]. apply NoDup_cons. split; [|by apply IH]. intros Hin.
      apply list_elem_of_fmap in Hin as (e' & [= Hty Hnm] & (f' & Hf' & He')%list_elem_of_omap).
      apply sim_dirent_key in He as [_ He]. apply sim_dirent_key in He' as [_ He'].
      apply Hf. rewrite He, Hnm, <- He'. by apply list_elem_of_fmap_2.
    + intros x (e & -> & (f & _ & [He _]%sim_dirent_key)%list_elem_of_omap)%list_elem_of_fmap
        (e' & [= Hty _] & [_ He']%sim_listing_dirs)%list_elem_of_fmap. congruence.
    + assert (∀ l, NoDup l → (∀ e, e ∈ l → ∃ f, sim_subdir p f = Some e) →
        NoDup (map (λ e, (de_type' e, de_name e)) l)) as Hmap.
      { induction 1 as [|e l He _ IH]; intros Hl; [constructor|]. cbn [map]. apply NoDup_cons.
        split; [|apply IH; intros; apply Hl; by right]. intros (e' & [= _ Hnm] & Hin)%list_elem_of_fmap.
        destruct (Hl e) as [f Hf]; [by left|]. destruct (Hl e') as [f' Hf']; [by right|].
        apply He. assert (e = e') as ->; [|done]. unfold sim_subdir in Hf, Hf'.
        repeat (case_match; try done). injection Hf as <-. injection Hf' as <-. cbn in Hnm. by subst. }
      apply Hmap; [apply NoDup_remove_dups|]. intros e.
      rewrite elem_of_remove_dups, list_elem_of_omap. intros (f & _ & Hf). by exists f.
  - intros dh p name q s _ Hname [d Hd]. exists {| de_name := name; de_type' := FS_DIR_ENTRY_DIR; de_size := 0 |}.
    split_and!; [|done|done]. unfold sim_listing. rewrite elem_of_app, elem_of_remove_dups, !list_elem_of_omap.
    right. eexists. split; [by apply elem_of_map_to_list|]. unfold sim_subdir.
    rewrite (proj2 (strip_dir_Some p _ (name ++ [Byte.x2f] ++ q))) by done. cbn [mbind option_bind fst].
    change ([Byte.x2f] ++ q) with (Byte.x2f :: q). rewrite before_slash_app by apply Hname.
    by rewrite bool_decide_true.
Qed.
