(* ===== verification/SimData.v ===== *)
(** * A concrete stream and a concrete document

    The stream "s" in the simulated file system: one compact segment with two
    stored samples and one sample in the ingest buffer; and the handle of a
    document with an integer field "n" and a string field "s". The witnesses of
    the time-series and of the document properties run on them. *)

From S2P Require Import Prelude Config Env Types FsEnv FsSpec Events CoreSpec Cursor TsFormat.
From S2P Require Import TsFormatSpec TsSpec TsStore TsSegment TsCursor TsRecover Doubles TsOps.
From S2P Require Import TsFileSpec TsInv TsStream TsFlushSpec TsAppendSpec.
From S2P Require Import Doc DocFile DocQuery DocSpec DocFieldSpec DocHandleSpec DocMatchSpec DocDecode DocStep.
From S2P Require Import DocSaveSpec DocOpenSpec DocOps Sim SimFs.

(** ** The stream *)

Definition sim_name : cstring := s2b "s".
Definition sim_sample (n : Z) : zdb_ts_sample_i64_t := {| ts_ms := 1000 + n; value := - n |}.

(** The bytes of a sample in a compact segment based at 0. *)
Definition sim_record (n : Z) : list byte := record_v2_bytes (1000 + n) (- n).

Definition sim_seg : list byte := seg_file (Some sim_cfg) sim_name 0.
Definition sim_data : list byte :=
  stream_header_v2_encode sim_name 0 ++ sim_record 1 ++ sim_record 2.

Definition sim_buf : list byte := sim_record 3 ++ replicate (1024 - 16) nul.

Definition sim_slot : zdb_ts_stream_ctx :=
  slot_layout (ZDB_TS_STREAM_VERSION_V2, 0%Z) zero_stream
    <| st_name := sim_name |> <| ingest_buf := Some sim_buf |>
    <| ingest_capacity := 1024 |> <| ingest_used := 16 |> <| open_count := 1%Z |> <| in_use := true |>
    <| segs_scanned := true |> <| cur_seg_bytes := 32 |>.

Definition sim_ctx : zdb_ts_core_ctx :=
  {| streams := [sim_slot; zero_stream]; flush_pending := false; ts_dir_ready := true;
     released_flush_bytes := 0; released_discarded_bytes := 0; released_stream := [] |}.

Definition sim_ts_w (fs : sim_fs) : world sim_kernel sim_kv sim_fs :=
  mkWorld (sim_db <| ts_ctx := Some sim_ctx |>)
    (sim_k0 <| sk_slabs := {[1%positive := 1; 4%positive := 1]} |>) ∅ fs [].

Definition sim_w0 : world sim_kernel sim_kv sim_fs := sim_ts_w {[sim_seg := sim_data]}.

Lemma sim_slot_ok : slot_ok sim_slot.
Proof.
  split.
  - right. split; [by right|done].
  - intros _. split; [by eexists|]. split_and!; try done; apply (bool_decide_unpack _); vm_compute; exact I.
  - done.
Qed.

Lemma sim_stream_ok : stream_ok (Some sim_cfg) {[sim_seg := sim_data]} sim_slot.
Proof.
  split; try (apply (bool_decide_unpack _); vm_compute; exact I).
  - apply sim_slot_ok.
  - exists sim_data. split_and!.
    + apply lookup_singleton_eq.
    + apply (bool_decide_unpack _). vm_compute. exact I.
    + exists 2. vm_compute. done.
  - intros _ n Hn. apply lookup_singleton_ne. intros Heq%seg_file_inj; simpl in *; lia.
Qed.

Lemma sim_opened : TsAppendSpec.opened_as sim_name 0 sim_slot sim_w0.
Proof.
  split; [split; by eexists|done|done|apply sim_stream_ok|].
  apply (bool_decide_unpack _). vm_compute. exact I.
Qed.

(** ** The document *)

Abbreviation sim_world := (world sim_kernel sim_kv sim_fs).

Definition sim_coll : cstring := s2b "c".
Definition sim_id : cstring := s2b "d".

Definition sim_fields : list zdb_doc_field_t :=
  [the_field (s2b "n") ZDB_DOC_FIELD_INT64 (V_i64 (-42));
   the_field (s2b "s") ZDB_DOC_FIELD_STRING (V_str (Some (s2b "hi")))].

Definition sim_doc : zdb_doc_t :=
  {| doc_db := Some the_db; collection_name := Some sim_coll; document_id := Some sim_id;
     fields := Some (sim_fields ++ replicate 30 zero_field); field_count := 2; max_fields := 32;
     created_ms := 900; updated_ms := 950; doc_valid := true |}.

(** The memory of the handle is taken; [fs] is on the volume. *)
Definition sim_doc_w (fs : sim_fs) : sim_world :=
  mkWorld sim_db (sim_k0 <| sk_heap := 6 |>) ∅ fs [].

Definition sim_no_doc : zdb_doc_t :=
  {| doc_db := None; collection_name := None; document_id := None; fields := None; field_count := 0;
     max_fields := 0; created_ms := 0; updated_ms := 0; doc_valid := false |}.

Definition sim_path : list byte := doc_file sim_cfg sim_coll sim_id ZDB_DOC_FILE_EXT.
Definition sim_tmp : list byte := doc_file sim_cfg sim_coll sim_id ZDB_DOC_TMP_EXT.

Lemma sim_doc_ok : doc_ok sim_doc.
Proof.
  split; try done; try (by eexists).
  - simpl. lia.
  - repeat constructor; simpl; try lia; try (eexists; split; [reflexivity|]; split;
      [apply (bool_decide_unpack _); vm_compute; exact I|simpl; lia]);
      apply (bool_decide_unpack _); vm_compute; exact I.
  - apply (bool_decide_unpack _). vm_compute. exact I.
Qed.

Lemma sim_storable : storable sim_cfg sim_coll sim_id.
Proof. split_and!; [by eexists|done|]. apply (bool_decide_unpack _). vm_compute. exact I. Qed.

Lemma sim_coll_string : c_string sim_coll.
Proof. apply (bool_decide_unpack _). vm_compute. exact I. Qed.

Lemma sim_id_string : c_string sim_id.
Proof. apply (bool_decide_unpack _). vm_compute. exact I. Qed.

Lemma sim_names_valid : doc_names_valid sim_coll sim_id = true.
Proof. vm_compute. reflexivity. Qed.

(** Using a rule whose postcondition depends on the status, where it is known. *)
Lemma wp_if_ok {A W} (m : M W A) (f : A → zdb_status_t) (P Q : A → W → Prop) (w : W) :
  wp m (λ r w', if bool_decide (f r = ZDB_OK) then P r w' else Q r w') w →
  f (m w).1 = ZDB_OK → P (m w).1 (m w).2.
Proof. unfold wp. intros H Hok. by rewrite bool_decide_true in H. Qed.
