(* ===== verification/CoreProps.v ===== *)
(** * The properties of the instance: lifecycle, health, deferred events,
    telemetry *)

From S2P Require Import Prelude Config Env Types Events KvIndexSpec Kv KvSpec KvBulk Core CoreSpec Sim.

(** [zdb_status_from_errno] is total and honest: only 0 becomes
    [ZDB_OK], the sign of the argument does not matter, [ZDB_ERR_NOT_FOUND] is
    exactly [ENOENT], and no errno is ever reported as one of the codes the
    modules raise themselves (collision, corruption, internal). *)
Theorem status_from_errno_honest err :
  (zdb_status_from_errno err = ZDB_OK ↔ err = 0%Z) ∧
  zdb_status_from_errno (- err) = zdb_status_from_errno err ∧
  (zdb_status_from_errno err = ZDB_ERR_NOT_FOUND ↔ (Z.abs err = ENOENT)%Z) ∧
  zdb_status_from_errno err ∉ [ZDB_ERR_COLLISION; ZDB_ERR_CORRUPT; ZDB_ERR_INTERNAL].
Proof.
  pose proof (status_from_errno_range err) as (? & ? & ?).
  split_and!; [apply status_from_errno_ok| | |set_solver].
  - unfold zdb_status_from_errno.
    replace (if (- err <? 0)%Z then (- - err)%Z else (- err)%Z)
      with (if (err <? 0)%Z then (- err)%Z else err); [done|].
    destruct (Z.ltb_spec err 0), (Z.ltb_spec (- err) 0); lia.
  - rewrite status_from_errno_not_found. unfold ENOENT. lia.
Qed.

Section export.
Context {CRC : Crc32} {CRCLaws : Crc32Laws}.

(** [zdb_ts_stats_export] of any instance fills an export that
    [zdb_ts_stats_export_validate] accepts and that carries the counters
    unchanged; and an export is accepted only when it says version 1 and its
    [crc] field is the CRC-32 of all its other bytes, in order. *)
Theorem stats_export_roundtrip {K F FS} (w : world K F FS) o e :
  (∃ e', zdb_ts_stats_export (Some the_db) (Some o) w = ((ZDB_OK, Some e'), w) ∧
     zdb_ts_stats_export_validate (Some e') = ZDB_OK ∧
     ts_stats (w_db w) =
       {| recover_runs := ex_recover_runs e'; recover_failures := ex_recover_failures e';
          recover_truncated_bytes := ex_recover_truncated_bytes e';
          crc_failures := ex_crc_failures e'; corrupt_records := ex_corrupt_records e';
          unsupported_versions := ex_unsupported_versions e' |}) ∧
  (zdb_ts_stats_export_validate (Some e) = ZDB_OK ↔
     ex_version e = 1%Z ∧
     ex_crc e = crc32_ieee_update 0 (take 4 (export_bytes e) ++ drop 8 (export_bytes e))).
Proof.
  assert (∀ e', zdb_ts_stats_export_crc e' =
    crc32_ieee_update 0 (take 4 (export_bytes e') ++ drop 8 (export_bytes e'))) as Hcrc.
  { intros e'. unfold zdb_ts_stats_export_crc. rewrite crc32_app.
    rewrite (take_ge (drop _ _)); [done|]. rewrite length_drop. simpl. lia. }
  split.
  - eexists. split; [reflexivity|]. split; [|simpl; by destruct (ts_stats (w_db w))].
    simpl. match goal with |- context [(?a =? ?b)%Z] => replace b with a end.
    { by rewrite Z.eqb_refl. }
    rewrite !Hcrc. f_equal.
  - rewrite <- Hcrc. unfold zdb_ts_stats_export_validate.
    destruct (Z.eqb_spec (ex_crc e) (zdb_ts_stats_export_crc e)) as [Hc|Hc]; cbn [negb]; [|naive_solver].
    destruct (Z.eqb_spec (ex_version e) 1); cbn [negb]; naive_solver.
Qed.
End export.

Section props.
Context {Cfg : Config} {CfgOk : ConfigOk Cfg} {K F FS : Type}.
Context `{!Kernel K, !KernelLaws K, !KvBackend F, !KvBackendLaws F}.
Abbreviation W := (world K F FS).
Implicit Types w : W.

(** The instance after faults were reported under the lock. *)
Definition faulted w : W :=
  if bool_decide (health (w_db w) = ZDB_HEALTH_OK)
  then w <| w_db ::= λ d, d <| health_prev := ZDB_HEALTH_OK |>
              <| health := ZDB_HEALTH_DEGRADED |> <| health_event_pending := true |> |>
  else w.

Lemma wp_health_checks n (Q : unit → W → Prop) w :
  CONFIG_ZDB_EVENTING = true → lock_depth (w_k w) = 1 → Q tt (faulted w) →
  wp (Nat.iter (S n) (λ m, zdb_health_check (Some the_db);; m) (ret tt)) Q w.
Proof.
  intros HE Hlock HQ.
  assert (∀ k w0, health_level ZDB_HEALTH_DEGRADED ≤ health_level (health (w_db w0)) → Q tt w0 →
    wp (Nat.iter k (λ m : M W unit, zdb_health_check (Some the_db);; m) (ret tt)) Q w0) as Hidle.
  { intros k. induction k as [|k IH]; intros w0 H0 HQ0; [done|]. simpl.
    apply wp_bind, wp_health_check; [done|intros _; by apply IH|..].
    - intros Hok. rewrite Hok in H0. simpl in H0. lia.
    - intros ? ? Hok. rewrite Hok in H0. simpl in H0. lia. }
  simpl. unfold faulted in HQ. apply wp_bind, wp_health_check; [done|..].
  - intros Hd. apply Hidle; [done|]. rewrite bool_decide_false in HQ; [done|].
    intros Hok. rewrite Hok in Hd. simpl in Hd. lia.
  - intros Hok _. rewrite bool_decide_true in HQ by done. apply Hidle; [simpl; lia|exact HQ].
  - intros ? ? _ ?. lia.
Qed.

(** C14. Health only worsens, and each change is reported exactly once, never
    with the lock held: a thread that reports faults any number of times in a
    locked section and unlocks leaves the instance degraded or worse and has
    caused one [ZDB_CORE_EVENT_HEALTH] delivery when the section found the
    instance healthy, none when it was already degraded. *)
Theorem health_reported_once (n : nat) w :
  CONFIG_ZDB_EVENTING = true → lock_depth (w_k w) = 1 →
  health_event_pending (w_db w) = false → pending_of (w_db w) = (0, 0, []) →
  wp (Nat.iter (S n) (λ m, zdb_health_check (Some the_db);; m) (ret tt);;
      zdb_unlock_write the_db)
    (λ _ w', lock_depth (w_k w') = 0 ∧
       health_level (health (w_db w')) =
         max (health_level (health (w_db w))) (health_level ZDB_HEALTH_DEGRADED) ∧
       health_event_pending (w_db w') = false ∧
       ∃ e, ce_type e = ZDB_CORE_EVENT_HEALTH ∧ ce_prev_health e = ZDB_HEALTH_OK ∧
         ce_health e = health (w_db w') ∧
         w_log w' = w_log w ++
           if bool_decide (health (w_db w) = ZDB_HEALTH_OK)
           then deliveries false (core_event_listeners (w_db w)) (EvCore e) else []) w.
Proof.
  intros HE Hlock Hpend Hts.
  apply wp_bind, wp_health_checks; [done..|]. set (w1 := faulted w). unfold faulted in w1.
  apply wp_unlock. intros k1 w' evs Hl Hs Hh Hev Hem.
  assert (lock_depth (w_k w1) = 1 ∧ pending_of (w_db w1) = (0, 0, []) ∧
    core_event_listeners (w_db w1) = core_event_listeners (w_db w) ∧ w_log w1 = w_log w) as
    (Hl1 & Hp1 & Hcl & Hlog1).
  { unfold w1. case_bool_decide; by split_and!. }
  assert (k_mutex_owned k1 = false) as Ho.
  { rewrite k_mutex_owned_law, Hl, Hl1. done. }
  rewrite Ho in Hem. destruct Hem as [Edb _ _ Ek Elog]. simpl in *.
  rewrite (same_lock _ _ Ek), Hl, Hl1.
  assert (health (w_db w') = health (w_db w1)) as Hhw.
  { rewrite Edb. unfold unlock_db. destruct CONFIG_ZDB_EVENTING, CONFIG_ZDB_TS; done. }
  destruct (pending_of_unlock (w_db w1) HE) as [_ Hnp].
  split_and!; [done| |by rewrite Edb|].
  { rewrite Hhw. unfold w1. case_bool_decide as Hok; [rewrite Hok; done|].
    destruct (health (w_db w)); [done|simpl; lia..]. }
  destruct Hev as [eh ef er ? Hprev Hheh ? ? Hf ? ? ? Hr ? ?].
  rewrite HE, Hp1 in Elog. simpl in Elog. rewrite !andb_false_r in Elog.
  rewrite Elog, Hhw, Hlog1.
  destruct (decide (health (w_db w) = ZDB_HEALTH_OK)) as [Hok|Hok].
  - exists eh. rewrite bool_decide_true by done. unfold w1 in *.
    rewrite bool_decide_true in * by done. simpl in *. split_and!; [done..|].
    by rewrite !app_nil_r.
  - exists {| ce_type := ZDB_CORE_EVENT_HEALTH; ce_timestamp_ms := 0;
              ce_prev_health := ZDB_HEALTH_OK; ce_health := health (w_db w1);
              ce_status := ZDB_OK |}.
    rewrite bool_decide_false by done. unfold w1 in *. rewrite bool_decide_false in * by done.
    rewrite Hpend. simpl. by split_and!.
Qed.

(** C15. Unlocking publishes everything the locked section deferred, after the
    lock is released and exactly once: the totals of the flush and rollover
    events are the sums over all stream slots and what closed streams left,
    and a second lock and unlock publishes nothing. *)
Theorem unlock_publishes_once c w :
  CONFIG_ZDB_EVENTING = true → CONFIG_ZDB_TS = true → LockLive K →
  lock_depth (w_k w) = 1 → ts_ctx (w_db w) = Some c →
  wp (zdb_unlock_write the_db;; _ ← zdb_lock_write the_db; zdb_unlock_write the_db)
    (λ _ w', lock_depth (w_k w') = 0 ∧
       ∃ eh ef er,
         ce_type eh = ZDB_CORE_EVENT_HEALTH ∧ ce_health eh = health (w_db w) ∧
         ce_prev_health eh = health_prev (w_db w) ∧
         te_type ef = ZDB_TS_EVENT_FLUSH ∧ te_flushed_bytes ef = ctx_flushed c ∧
         te_type er = ZDB_TS_EVENT_ROLLOVER ∧ te_truncated_bytes er = ctx_discarded c ∧
         w_log w' = w_log w ++
           (if health_event_pending (w_db w)
            then deliveries false (core_event_listeners (w_db w)) (EvCore eh) else []) ++
           (if 0 <? ctx_flushed c
            then deliveries false (ts_event_listeners (w_db w)) (EvTs ef) else []) ++
           (if 0 <? ctx_discarded c
            then deliveries false (ts_event_listeners (w_db w)) (EvTs er) else [])) w.
Proof.
  intros HE HT Hlive Hlock Hctx.
  apply wp_bind, wp_unlock. intros k1 w1 evs Hl _ _ Hev Hem.
  assert (k_mutex_owned k1 = false) as Ho by (rewrite k_mutex_owned_law, Hl, Hlock; done).
  rewrite Ho in Hem. destruct Hem as [Edb _ _ Ek Elog]. simpl in *.
  destruct (pending_of_unlock (w_db w) HE) as [Hp Hnp].
  apply wp_bind, wp_lock; [|by intros ? ? []]. intros k2 Hl2 _ _.
  apply wp_unlock. intros k3 w3 evs3 Hl3 _ _ Hev3 Hem3. simpl in *.
  destruct Hem3 as [_ _ _ Ek3 Elog3]. simpl in *.
  assert (evs3 = []) as ->.
  { destruct Hev3. rewrite HE, Edb, Hp, Hnp. simpl. by rewrite !andb_false_r. }
  rewrite (same_lock _ _ Ek3), Hl3, Hl2, (same_lock _ _ Ek), Hl, Hlock. split; [done|].
  rewrite Elog3, Elog, app_nil_r. pose proof (take_deferred_total
    (CONFIG_ZDB_TS_STREAM_NAME_MAX_LEN + 1) c) as Htot.
  destruct Hev as [eh ef er ? ? ? ? ? Hf ? ? ? Hr ? ?].
  unfold pending_of in *. rewrite HT, HE, Hctx in *. rewrite Htot in *. simpl in Hf, Hr.
  exists eh, ef, er. split_and!; try done. f_equal. simpl. unfold all_deliveries.
  destruct (health_event_pending (w_db w)), (0 <? ctx_flushed c), (0 <? ctx_discarded c);
    simpl; by rewrite ?app_nil_r.
Qed.

(** The step of [zdb_init] that seeds the defaults, in the instance it has
    just bound to its configuration. *)
Lemma wp_init_defaults sl c w0 (Q : zdb_status_t → W → Prop) w :
  KvReadsOk F → cfg (w_db w) = Some c → kv_io_slab (w_db w) = Some sl → w_f w = w_f w0 →
  kv_fits (slab_block_size sl) (w_f w0) → Forall default_ok (default [] (kv_defaults c)) →
  (∀ st w', kv_step w w' → seeded None (default [] (kv_defaults c)) w0 w' →
     (st = ZDB_OK → CONFIG_ZDB_KV = true → kv_backend_fs c = true →
        ∀ def ns key, def ∈ default [] (kv_defaults c) →
        default_pair None def = Some (ns, key) → is_Some (kv_lookup (w_f w') ns key)) → Q st w') →
  wp (if CONFIG_ZDB_KV then
        if (0 <? length (default [] (kv_defaults c))) && kv_backend_fs c
        then zdb_kv_defaults_apply_ns (Some the_db) None else ret ZDB_OK
      else ret ZDB_OK) Q w.
Proof.
  intros Hr Hc Hsl Hf Hfits Hdef HQ.
  assert (seeded None (default [] (kv_defaults c)) w0 w) as Hseed0 by (intros ? ?; left; by rewrite Hf).
  destruct CONFIG_ZDB_KV; [|by apply wp_ret, HQ].
  destruct (kv_defaults c) as [[|d ds]|] eqn:Hd; simpl in *;
    [apply wp_ret, HQ; [done..|set_solver]| |apply wp_ret, HQ; [done..|set_solver]].
  destruct (kv_backend_fs c) eqn:Hb; [|by apply wp_ret, HQ].
  apply (wp_defaults_apply_ns sl _ _ _ c); [done| |done|by rewrite Hd|].
  - split_and!; [by exists c|done|]. by rewrite Hf.
  - intros st w2 Hstep _ _ Hseed Hall. rewrite Hd in *. apply HQ; [done| |by intros ? _ _; apply Hall].
    intros ns key. specialize (Hseed ns key). by rewrite Hf in Hseed.
Qed.

(** C13. [zdb_init] hands back a fresh instance: healthy, counters zero, not
    locked, the configuration and its listeners bound; the stored values are
    those there were plus the defaults that were missing. When it reports
    success, all the defaults have a value, and the last event it publishes is
    one [ZDB_CORE_EVENT_INIT] with [ZDB_OK], to the core listeners; it holds the
    lock for no event. A call without an instance, a configuration or one of the
    two slabs changes nothing. *)
Theorem init_spec sl c w :
  KvReadsOk F → CONFIG_ZDB_EVENTING = true →
  is_Some (core_slab (w_db w)) → is_Some (cursor_slab (w_db w)) →
  kv_io_slab (w_db w) = Some sl → kv_fits (slab_block_size sl) (w_f w) →
  Forall default_ok (default [] (kv_defaults c)) →
  wp (zdb_init (Some the_db) (Some c))
    (λ st w', cfg (w_db w') = Some c ∧ health (w_db w') = ZDB_HEALTH_OK ∧
       ts_stats (w_db w') = zero_stats ∧
       event_listeners (w_db w') = cfg_event_listeners c ∧
       core_event_listeners (w_db w') = cfg_core_event_listeners c ∧
       lock_depth (w_k w') = 0 ∧ (∀ s, slab_used (w_k w') s = slab_used (w_k w) s) ∧
       seeded None (default [] (kv_defaults c)) w w' ∧
       (st = ZDB_OK → CONFIG_ZDB_KV = true → kv_backend_fs c = true →
          ∀ def ns key, def ∈ default [] (kv_defaults c) →
          default_pair None def = Some (ns, key) → is_Some (kv_lookup (w_f w') ns key)) ∧
       ∃ new, w_log w' = w_log w ++ new ∧ Forall (λ d, dl_locked d = false) new ∧
         (st = ZDB_OK → ∃ pre e, ce_type e = ZDB_CORE_EVENT_INIT ∧ ce_status e = ZDB_OK ∧
            new = pre ++ deliveries false (cfg_core_event_listeners c) (EvCore e))) w ∧
  (∀ db cfg', db = None ∨ cfg' = None → zdb_init db cfg' w = (ZDB_ERR_INVAL, w)) ∧
  (∀ w0 : W, core_slab (w_db w0) = None ∨ cursor_slab (w_db w0) = None →
     zdb_init (Some the_db) (Some c) w0 = (ZDB_ERR_INVAL, w0)).
Proof.
  intros Hr HE [cs Hcs] [us Hus] Hsl Hfits Hdef. split_and!; cycle 1.
  { intros db cfg' Hnone. destruct db as [[]|]; [|by destruct cfg'].
    destruct cfg'; [|done]. by destruct Hnone. }
  { intros w0 Hw0. unfold zdb_init, bind, db_get, mgets. simpl.
    destruct (core_slab (w_db w0)), (cursor_slab (w_db w0)); try done. by destruct Hw0. }
  apply wp_bind, wp_db_get, wp_bind, wp_db_get. rewrite Hcs, Hus.
  apply wp_bind, wp_on_k_, wp_bind, wp_db_set. rewrite HE. apply wp_bind, wp_db_set.
  match goal with |- wp _ _ ?w => set (w1 := w) end.
  pose proof (k_mutex_init_law (w_k w)) as (Hl & Hs & _).
  assert (kv_step w1 w1) as Hrefl by done.
  assert (w_f w1 = w_f w ∧ lock_depth (w_k w1) = 0 ∧ w_log w1 = w_log w ∧
    (∀ s, slab_used (w_k w1) s = slab_used (w_k w) s)) as (Hf1 & Hl1 & Hlog1 & Hs1) by done.
  assert (cfg (w_db w1) = Some c ∧ kv_io_slab (w_db w1) = Some sl ∧
    health (w_db w1) = ZDB_HEALTH_OK ∧ ts_stats (w_db w1) = zero_stats ∧
    event_listeners (w_db w1) = cfg_event_listeners c ∧
    core_event_listeners (w_db w1) = cfg_core_event_listeners c) as (Hc1 & Hsl1 & Hh1 & Hst1 & He1 & Hce1).
  { unfold w1. simpl. unfold bind_listeners. destruct CONFIG_ZDB_TS, CONFIG_ZDB_DOC; done. }
  clearbody w1.
  apply wp_bind, (wp_init_defaults sl _ w); [done..|].
  intros st w2 Hstep Hseed Hall. apply wp_bind, wp_db_get.
  destruct Hstep as [Sdb Sfs Sl Ss _ (pre & Slog & Spre)].
  assert (core_event_listeners (w_db w2) = cfg_core_event_listeners c ∧
    k_mutex_owned (w_k w2) = false) as [Hce2 Ho].
  { rewrite Sdb, k_mutex_owned_law, Sl, Hl1. done. }
  replace (if negb (bool_decide (st = ZDB_OK)) then _ else _)
    with (zdb_emit_core_event (Some the_db) ZDB_CORE_EVENT_INIT (health (w_db w2))
            (health (w_db w2)) st;; ret st : M W zdb_status_t)
    by (case_bool_decide; [by subst|done]).
  apply wp_bind, wp_emit_core. intros e w' Ht _ _ Hst [Edb Ef _ Ek Elog]. apply wp_ret.
  rewrite Edb, Ef, (same_lock _ _ Ek), Sdb, Sl. simpl. split_and!; try done.
  - intros s. by rewrite (same_slab _ _ Ek), Ss.
  - intros ns key. rewrite Ef. apply Hseed.
  - eexists. rewrite Elog, Slog, Hlog1, Ho, Hce2, <- app_assoc. split; [done|]. split.
    + apply Forall_app. split; [auto|]. apply deliveries_locked.
    + intros ->. by exists pre, e.
Qed.
End props.

(** ** Witnesses *)

(** A thread inside a locked section of [sim_w]. *)
Definition sim_locked (ctx : option zdb_ts_core_ctx) : world sim_kernel sim_kv unit :=
  (sim_w ∅) <| w_k := sim_k0 <| sk_lock := 1 |> |> <| w_db ::= λ d, d <| ts_ctx := ctx |> |>.

Lemma health_reported_once_witness :
  let w' := ((Nat.iter 3 (λ m, zdb_health_check (Some the_db);; m) (ret tt);;
              zdb_unlock_write the_db) (sim_locked None)).2 in
  health_event_pending (w_db w') = false ∧ length (w_log w') = 2 ∧
  health (w_db w') = ZDB_HEALTH_DEGRADED.
Proof.
  cbv zeta. split; [|vm_compute; split; reflexivity].
  apply (health_reported_once 2 (sim_locked None)); reflexivity.
Defined.

(** Two streams with deferred work, and what a closed one left. *)
Definition sim_ts_ctx : zdb_ts_core_ctx :=
  {| streams := [zero_stream <| st_name := s2b "a" |> <| pending_flush_bytes := 28 |>;
                 zero_stream <| st_name := s2b "b" |> <| ingest_buf := Some [] |>];
     flush_pending := false; ts_dir_ready := true;
     released_flush_bytes := 0; released_discarded_bytes := 4112;
     released_stream := s2b "c" |}.

Lemma unlock_publishes_once_witness :
  ctx_flushed sim_ts_ctx = 28 ∧ ctx_discarded sim_ts_ctx = 4112 ∧
  lock_depth (w_k ((zdb_unlock_write the_db;; _ ← zdb_lock_write the_db;
                    zdb_unlock_write the_db) (sim_locked (Some sim_ts_ctx))).2) = 0.
Proof.
  split; [reflexivity|]. split; [reflexivity|].
  apply (unlock_publishes_once sim_ts_ctx (sim_locked (Some sim_ts_ctx)));
    [reflexivity|reflexivity|apply _|reflexivity|reflexivity].
Defined.

Lemma init_spec_witness :
  let r := zdb_init (Some the_db) (Some sim_cfg) (sim_w ∅) in
  r.1 = ZDB_OK ∧ is_Some (kv_lookup (w_f r.2) (s2b "cfg") (s2b "rate")).
Proof.
  cbv zeta. assert ((zdb_init (Some the_db) (Some sim_cfg) (sim_w ∅)).1 = ZDB_OK) as H1
    by (vm_compute; reflexivity).
  split; [exact H1|].
  destruct (init_spec sim_kv_slab sim_cfg (sim_w ∅))
    as ((_ & _ & _ & _ & _ & _ & _ & _ & Hall & _) & _);
    [apply _|reflexivity|eexists; reflexivity|eexists; reflexivity|reflexivity|
     by intros id d Hd|repeat constructor; vm_compute; lia|].
  eapply Hall; [exact H1|reflexivity|reflexivity|left; reflexivity|vm_compute; reflexivity].
Defined.

Definition sim_export : zdb_ts_stats_export_t :=
  {| ex_version := 1; ex_reserved := 0; ex_crc := 0; ex_recover_runs := 3;
     ex_recover_failures := 1; ex_recover_truncated_bytes := 56; ex_crc_failures := 2;
     ex_corrupt_records := 2; ex_unsupported_versions := 0 |}.

Lemma stats_export_roundtrip_witness :
  zdb_ts_stats_export_validate (Some sim_export) = ZDB_ERR_CORRUPT ∧
  ∃ e', (zdb_ts_stats_export (Some the_db) (Some sim_export) (sim_w ∅)).1 = (ZDB_OK, Some e') ∧
    zdb_ts_stats_export_validate (Some e') = ZDB_OK.
Proof.
  split; [vm_compute; reflexivity|].
  destruct (stats_export_roundtrip (sim_w ∅) sim_export sim_export) as [(e' & He & Hv & _) _].
  exists e'. split; [by rewrite He|exact Hv].
Defined.
