(* ===== verification/KvProps.v ===== *)
(** * The properties of the key-value store

    Each theorem is a contract of one or more functions of [zephyrdb_kv.c] in
    terms of the abstract store [kv_lookup]; the witnesses run them in the
    environment of [Sim]. *)

From S2P Require Import Prelude Config Env Types Events KvFormat KvIndex KvIndexSpec Kv.
From S2P Require Import KvSpec KvLaws KvBulk KvReload Sim.

(** ** The record format *)

(** The record [zdb_kv_record_build] lays out is recognised by
    [zdb_kv_record_check] as the pair's own, with the offset at which its value
    starts, for every pair whose names fit their length bytes; and no other
    pair can read a value from it. *)
Theorem kv_record_roundtrip (Cfg : Config) (ns key value : list byte) (vlen : nat) :
  length ns < 256 → length key < 256 → vlen ≤ length value →
  let rec := zdb_kv_record_build ns key (Some value) vlen in
  zdb_kv_record_check rec (length rec) ns key =
    (ZDB_KV_REC_MATCH, Some (ZDB_KV_REC_HDR_SIZE + length ns + length key)) ∧
  drop (ZDB_KV_REC_HDR_SIZE + length ns + length key) rec = take vlen value ∧
  ∀ ns' key' v', rec_value ns' key' rec = Some v' → ns' = ns ∧ key' = key ∧ v' = take vlen value.
Proof.
  intros Hns Hkey Hv rec.
  assert (rec_value ns key rec = Some (take vlen value)) as Hr.
  { apply rec_value_Some. split_and!; [done|done|].
    unfold rec, zdb_kv_record_build. by rewrite take_memcpy. }
  pose proof Hr as Hc. unfold rec_value in Hc.
  destruct (zdb_kv_record_check rec (length rec) ns key) as [[] [off|]] eqn:Heq; try done.
  apply record_check_match in Heq as ([= ->] & _). split_and!; [done|by injection Hc|].
  intros ns' key' v' Hv'. by destruct (rec_value_inj _ _ _ _ _ _ _ Hv' Hr) as (-> & -> & ->).
Qed.

Lemma kv_record_roundtrip_witness :
  zdb_kv_record_check (zdb_kv_record_build (s2b "app") (s2b "rate") (Some (s2b "10")) 2) 12
    (s2b "app") (s2b "rate") = (ZDB_KV_REC_MATCH, Some 10).
Proof.
  destruct (kv_record_roundtrip sim_Config (s2b "app") (s2b "rate") (s2b "10") 2) as (H & _ & _);
    [simpl; lia|simpl; lia|simpl; lia|]. exact H.
Defined.

Section props.
Context {Cfg : Config} {CfgOk : ConfigOk Cfg} {K F FS : Type}.
Context `{!Kernel K, !KernelLaws K, !KvBackend F, !KvBackendLaws F}.
Abbreviation W := (world K F FS).
Implicit Types w : W.

(** C3. [zdb_kv_set] refines an update of the abstract store: a set that
    reports success gives the pair the value and changes the value of no other
    pair (of any namespace, a pair whose record identifier collides included);
    a set that reports any error leaves the value of every pair as it was. *)
Theorem kv_set_refines sl ns key value vlen w :
  KvReadsOk F → kv_env sl w → length ns ≤ CONFIG_ZDB_MAX_KEY_LEN → value_ok value vlen →
  wp (zdb_kv_set (kv_handle ns) (Some key) value vlen)
    (λ st w', ∀ ns' key',
       kv_lookup (w_f w') ns' key' =
       if decide (st = ZDB_OK)
       then kv_update (kv_lookup (w_f w)) ns key (Some (take vlen (default [] value))) ns' key'
       else kv_lookup (w_f w) ns' key') w.
Proof.
  intros Hr Henv Hns Hv. eapply (wp_kv_set_any sl); [done..|].
  intros st w' _ _ _ Hpost ns' key'. case_decide; [by apply Hpost|apply Hpost].
Qed.

(** C4. [zdb_kv_get] answers from the abstract store: the stored length in
    [*out_len] whatever the capacity, the first [out_capacity] bytes in the
    buffer, [ZDB_ERR_NOT_FOUND] with length 0 for a pair without a value. It
    can only give up before reading, when the I/O slab is exhausted or the
    lock is refused, and it changes no value and no index entry. *)
Theorem kv_get_refines sl ns key out_value cap w :
  KvReadsOk F → kv_env sl w → length ns ≤ CONFIG_ZDB_MAX_KEY_LEN →
  zdb_key_valid (Some key) = true → (out_value = None → cap = 0) →
  wp (zdb_kv_get (kv_handle ns) (Some key) out_value cap true)
    (λ r w', same_data w w' ∧ kv_step w w' ∧
       (gave_up sl w r.1 ∧ r.2 = {| o_len := None; o_value := out_value |} ∨
        r = get_answer (kv_lookup (w_f w) ns key) out_value cap)) w.
Proof.
  intros Hr Henv Hns Hkv Hnull. apply (wp_kv_get sl); [by apply kv_env_ready|done|done|..].
  - intros st w' Hp Hd Hst. split_and!; [done|by eapply published_step|by left].
  - intros w' Hp Hd. split_and!; [done|by eapply published_step|by right].
  - intros st w' _ _ _ _ Hnr. done.
Qed.

(** C5. [zdb_kv_delete] refines a removal: success removes the pair's value and
    its first index entry and nothing else, [ZDB_ERR_NOT_FOUND] is reported only
    for a pair without a value, and every error leaves the store and the index
    as they were. *)
Theorem kv_delete_refines sl ns key w :
  kv_env sl w → length ns ≤ CONFIG_ZDB_MAX_KEY_LEN → zdb_key_valid (Some key) = true →
  wp (zdb_kv_delete (kv_handle ns) (Some key))
    (λ st w',
       (∀ ns' key', kv_lookup (w_f w') ns' key' =
          if decide (st = ZDB_OK) then kv_update (kv_lookup (w_f w)) ns key None ns' key'
          else kv_lookup (w_f w) ns' key') ∧
       (st = ZDB_ERR_NOT_FOUND → kv_lookup (w_f w) ns key = None) ∧
       (st = ZDB_OK → ctx_entries (w_db w') = delete_pair (ctx_entries (w_db w)) ns key) ∧
       (st ≠ ZDB_OK → same_data w w')) w.
Proof.
  intros Henv Hns Hkv. apply (wp_kv_delete sl); [by apply kv_env_ready|done|].
  intros st evs w' Hp Hpost _. split_and!.
  - intros. by apply delete_post_lookup.
  - apply Hpost.
  - intros ->. by destruct Hpost as [_ _ (_ & ? & _) _].
  - intros Hst. destruct Hpost as [_ _ H _]. by destruct st.
Qed.

(** What was set is what is read back: after a set that reported success, a
    get of the pair with room for the value returns exactly its bytes and its
    length, given a lock that is granted and a free I/O block. *)
Theorem kv_set_get_roundtrip blocks sl ns key value vlen buf w :
  KvReadsOk F → LockLive K → SlabLive K blocks → kv_env sl w →
  length ns ≤ CONFIG_ZDB_MAX_KEY_LEN → vlen ≤ length value → vlen ≤ length buf →
  slab_used (w_k w) (slab_name sl) < blocks (slab_name sl) →
  wp (st ← zdb_kv_set (kv_handle ns) (Some key) (Some value) vlen;
      r ← zdb_kv_get (kv_handle ns) (Some key) (Some buf) (length buf) true;
      ret (st, r))
    (λ r _, r.1 = ZDB_OK →
       r.2 = (ZDB_OK, {| o_len := Some vlen;
                         o_value := Some (take vlen value ++ drop vlen buf) |})) w.
Proof.
  intros Hr Hlock Hslab Henv Hns Hv Hb Hfree.
  apply wp_bind, (wp_kv_set_any sl); [done..|]. intros st w1 Hst1 Henv1 _ Hpost.
  destruct (decide (st = ZDB_OK)) as [->|Hne]; cycle 1.
  { apply wp_bind. unfold wp. by intros. }
  destruct Hpost as [Hkv Hlk]. specialize (Hlk ns key).
  unfold kv_update in Hlk. rewrite bool_decide_eq_true_2 in Hlk by done. simpl in Hlk.
  apply wp_bind, (wp_kv_get sl); [by apply kv_env_ready|done|done|..].
  - intros st w2 _ _ [[_ Hfull]|[_ Hbusy]]; [|by destruct (Hbusy Hlock)].
    specialize (Hfull _ Hslab). rewrite (ks_slab _ _ Hst1) in Hfull. lia.
  - intros w2 _ _. apply wp_ret. intros _. rewrite Hlk. simpl. do 2 f_equal.
    + rewrite length_take. f_equal. lia.
    + f_equal. rewrite take_take, Nat.min_r by lia. unfold buf_write. simpl.
      rewrite length_take. by rewrite Nat.min_l by lia.
  - intros st w2 _ _ _ _ Hnr. done.
Qed.

(** C6. A collision never destroys data: when another pair's record occupies
    the slot the key hashes to, a set fails, and the backend and the index are
    left bit for bit as they were. *)
Theorem kv_set_collision_safe sl ns key value vlen ns' key' v' w :
  KvReadsOk F → kv_env sl w → length ns ≤ CONFIG_ZDB_MAX_KEY_LEN →
  zdb_key_valid (Some key) = true → vlen ≤ length (default [] value) →
  ZDB_KV_REC_HDR_SIZE + length ns + length key + vlen ≤ slab_block_size sl →
  kv_lookup (w_f w) ns' key' = Some v' → (ns', key') ≠ (ns, key) →
  zdb_kv_record_id ns' key' = zdb_kv_record_id ns key →
  wp (zdb_kv_set (kv_handle ns) (Some key) value vlen)
    (λ st w', (st = ZDB_ERR_COLLISION ∨ gave_up sl w st) ∧ same_data w w') w.
Proof.
  intros Hr (Hm & Hsl & Hfits) Hns Hkv Hv Hfit Hlk Hne Hid.
  apply (wp_kv_set sl); [done..| |].
  - intros st w' _ Hd Hst. split; [by right|done].
  - intros st ix evs w' _ _ [_ _ Hslot Hclaim _]. unfold kv_lookup in Hlk. rewrite Hid in Hlk.
    destruct (kvb_store (w_f w) !! zdb_kv_record_id ns key) as [d|] eqn:Hd; [|done].
    simpl in Hlk.
    assert (check_of d ns key = ZDB_KV_REC_MISMATCH) as Hck.
    { destruct (check_of d ns key) eqn:Hc; [|done|];
        by rewrite (rec_value_other ns key ns' key') in Hlk by (by rewrite ?Hc). }
    destruct (decide (st = ZDB_ERR_COLLISION)) as [->|Hcol].
    + split; [by left|]. by destruct Hslot.
    + by destruct (Hclaim Hcol Hr d eq_refl).
Qed.

(** Resources: whatever its outcome, a set, a get or a delete through an
    open handle returns the instance lock to the depth it had, every slab to
    the count it had, and allocates nothing on the heap but the index it may
    have created; it changes no file and nothing of the instance but the index
    and what an unlock consumes; and when the caller does not hold the lock,
    every event it publishes is published outside the lock. *)
Theorem kv_operations_balanced sl ns key value vlen out_value cap w :
  KvReadsOk F → kv_env sl w → length ns ≤ CONFIG_ZDB_MAX_KEY_LEN → value_ok value vlen →
  zdb_key_valid (Some key) = true → (out_value = None → cap = 0) →
  kv_step w (zdb_kv_set (kv_handle ns) (Some key) value vlen w).2 ∧
  kv_step w (zdb_kv_get (kv_handle ns) (Some key) out_value cap true w).2 ∧
  kv_step w (zdb_kv_delete (kv_handle ns) (Some key) w).2.
Proof.
  intros Hr Henv Hns Hv Hkv Hnull. split_and!.
  - by apply (wp_kv_set_any sl ns key value vlen (λ _ w', kv_step w w')).
  - apply (wp_kv_get sl ns key out_value cap (λ _ w', kv_step w w'));
      eauto using kv_env_ready, published_step.
  - apply (wp_kv_delete sl ns key (λ _ w', kv_step w w'));
      eauto using kv_env_ready, published_step.
Qed.

(** C7. Events of a set, where the index is loaded or there is memory for it:
    with eventing enabled, a set that reached the store publishes exactly one
    [KV_SET] event carrying the pair, the length and the status it returns, to
    every listener with a callback, in order (and to zbus first); it is followed
    by one [KV_INDEX_FULL] event exactly when it succeeded and left the key out
    of the index, and by nothing else. *)
Theorem kv_set_publishes sl ns key value vlen w :
  CONFIG_ZDB_EVENTING = true → lock_depth (w_k w) = 0 → is_Some (kv_ctx (w_db w)) ∨ HeapLive K →
  kv_env sl w → length ns ≤ CONFIG_ZDB_MAX_KEY_LEN →
  zdb_key_valid (Some key) = true → vlen ≤ length (default [] value) →
  ZDB_KV_REC_HDR_SIZE + length ns + length key + vlen ≤ slab_block_size sl →
  wp (zdb_kv_set (kv_handle ns) (Some key) value vlen)
    (λ st w',
       gave_up sl w st ∨
       ∃ bg e full, Forall background bg ∧ kv_event ZDB_EVENT_KV_SET ns key vlen st e ∧
         (if decide (st = ZDB_OK ∧ (ns, key) ∉ index_pairs (w_db w'))
          then ∃ e', full = [e'] ∧ kv_event ZDB_EVENT_KV_INDEX_FULL ns key vlen ZDB_OK e'
          else full = []) ∧
         w_log w' = w_log w ++ bg ++
           all_deliveries false (map (λ e, (event_listeners (w_db w), EvKv e)) (e :: full))) w.
Proof.
  intros HE H0 Hmem (Hm & Hsl & Hfits) Hns Hkv Hv Hfit. apply (wp_kv_set sl); [done..| |].
  - intros st w' _ _ Hst. by left.
  - intros st ix evs w' Hevs (w1 & Hat & _ & Hem) Hpost. right.
    assert (st = ZDB_OK → ix = bool_decide ((ns, key) ∈ index_pairs (w_db w'))) as Hix
      by (intros ->; by eapply set_post_indexed).
    destruct (set_events_indexed _ _ _ _ _ _ _ Hix (Hevs HE)) as (e & full & -> & He & Hfull).
    pose proof Hat as [_ _ Hl _ _ (bg & Hlog & Hbg)]. exists bg, e, full.
    split_and!; [by apply Hbg|done| |].
    + repeat case_bool_decide; simpl in Hfull; case_decide; naive_solver.
    + rewrite HE in Hem. destruct Hem as [_ _ _ _ Elog].
      rewrite Elog, Hlog, k_mutex_owned_law, Hl, H0. by rewrite <- app_assoc.
Qed.

(** C8. The index keeps up or says so: the array never holds more than
    [CONFIG_ZDB_KV_INDEX_MAX_ENTRIES] entries, every one within its fields; and
    after a successful set the key is listed, or the array is full and the set
    announced it, where the index was loaded before or there is memory for
    it. *)
Theorem kv_index_tracks sl ns key value vlen w :
  kv_env sl w → kv_ctx_ok (w_db w) → length ns ≤ CONFIG_ZDB_MAX_KEY_LEN →
  zdb_key_valid (Some key) = true → vlen ≤ length (default [] value) →
  ZDB_KV_REC_HDR_SIZE + length ns + length key + vlen ≤ slab_block_size sl →
  wp (zdb_kv_set (kv_handle ns) (Some key) value vlen)
    (λ st w', kv_ctx_ok (w_db w') ∧
       (st = ZDB_OK → is_Some (kv_ctx (w_db w)) ∨ HeapLive K →
          (ns, key) ∈ index_pairs (w_db w') ∨
          CONFIG_ZDB_KV_INDEX_MAX_ENTRIES ≤ length (ctx_entries (w_db w')) ∧
          (CONFIG_ZDB_EVENTING = true → ∃ evs e, published evs sl w w' ∧ e ∈ evs ∧
             kv_event ZDB_EVENT_KV_INDEX_FULL ns key vlen ZDB_OK e))) w.
Proof.
  intros (Hm & Hsl & Hfits) Hok Hns Hkv Hv Hfit. apply (wp_kv_set sl); [done..| |].
  - intros st w' _ Hd Hst%gave_up_status. split; [by eapply kv_ctx_ok_same|].
    by destruct Hst as [-> | ->].
  - intros st ix evs w' Hevs Hp Hpost. split; [by apply Hpost|]. intros -> Hmem.
    pose proof (set_post_indexed _ _ _ _ _ _ Hmem Hpost) as Hix.
    destruct ix; [left; by apply (bool_decide_eq_true_1 _ (eq_sym Hix))|].
    right. destruct (sp_index _ _ _ _ _ _ _ Hpost eq_refl) as [_ Hfull]. split; [done|]. intros HE.
    destruct (Hevs HE) as (e & rest & -> & _ & (e' & -> & He')).
    exists [e; e'], e'. split_and!; [done|set_solver|done].
Qed.

(** C9. Iteration: a call of [zdb_kv_iter_next] always returns (it never needs
    more rounds than there are entries left), and with a granted lock and a free
    block it yields the next indexed key of the namespace that still has a
    value, at its position, with its value and length; entries of other
    namespaces and entries whose record is gone are skipped; it reports
    [ZDB_ERR_NOT_FOUND] exactly when no such key is left. *)
Theorem kv_iter_next_spec blocks sl ns pos okey kcap oval cap w :
  KvReadsOk F → LockLive K → SlabLive K blocks → kv_env sl w →
  slab_used (w_k w) (slab_name sl) < blocks (slab_name sl) →
  length ns ≤ CONFIG_ZDB_MAX_KEY_LEN →
  Forall (λ e, en_key e ≠ [] ∧ entry_ok e) (ctx_entries (w_db w)) →
  CONFIG_ZDB_MAX_KEY_LEN < kcap → (oval = None → cap = 0) →
  wp (zdb_kv_iter_next (Some {| it_kv := kv_handle ns; it_position := pos |})
        (Some okey) kcap true oval cap true)
    (λ r w', ∃ a, r = Some a ∧ same_data w w' ∧ kv_step w w' ∧
       iter_answer (w_f w) (ctx_entries (w_db w)) ns pos oval cap a) w.
Proof.
  intros Hr Hlock Hslab Henv Hfree Hns Hes Hkcap Hnull.
  apply (wp_iter_next blocks sl); [done|done|done|by apply kv_env_ready|done|done|done|done|].
  intros a w' Hat Hd Hans. exists a. split_and!; [done|done|by eapply kv_at_step|done].
Qed.

(** C10. The index survives a reboot: on the first use after a restart, with the
    index record [zdb_kv_index_store] wrote for [es] and the records it lists
    in place, the index is rebuilt as exactly [es], in order, and the store is
    not touched. *)
Theorem kv_index_reload blocks sl es w :
  KvReadsOk F → SlabLive K blocks → kv_env sl w →
  CONFIG_ZDB_KV_PERSIST_INDEX = true →
  slab_used (w_k w) (slab_name sl) < blocks (slab_name sl) →
  kv_ctx (w_db w) = None →
  kvb_store (w_f w) !! ZDB_KV_INDEX_REC_ID = Some (index_bytes es) →
  length es ≤ CONFIG_ZDB_KV_INDEX_MAX_ENTRIES →
  Forall (entry_live (slab_block_size sl) (kvb_store (w_f w))) es →
  wp (zdb_kv_ctx_get_or_alloc (Some the_db))
    (λ ok w', if ok : bool
       then ctx_entries (w_db w') = es ∧ kvb_store (w_f w') = kvb_store (w_f w) ∧ kv_step w w'
       else kv_ctx (w_db w') = None) w.
Proof.
  intros. eapply wp_reload; [done..|done|].
  intros w' Hst Hs He. split_and!; [done|done|by apply idx_step_kv_step].
Qed.

(** C11. Defaults are written where a value is missing and nowhere else: a pair
    that has a value keeps it, a pair that gains one gains the value of a table
    entry that names it (within the filter), and when success is reported every
    entry of the table the filter admits has a value. *)
Theorem kv_defaults_seed sl filter c w :
  KvReadsOk F → kv_env sl w → cfg (w_db w) = Some c →
  Forall default_ok (default [] (kv_defaults c)) →
  wp (zdb_kv_defaults_apply_ns (Some the_db) filter)
    (λ st w', kv_step w w' ∧ seeded filter (default [] (kv_defaults c)) w w' ∧
       (∀ ns key v, kv_lookup (w_f w) ns key = Some v → kv_lookup (w_f w') ns key = Some v) ∧
       (st = ZDB_OK → ∀ def ns key, def ∈ default [] (kv_defaults c) →
          default_pair filter def = Some (ns, key) →
          is_Some (kv_lookup (w_f w') ns key))) w.
Proof.
  intros. eapply wp_defaults_apply_ns; [done..|].
  intros st w' Hst _ _ Hseed Hall. split_and!; [done|done| |done].
  intros ns key v. by apply seeded_mono with (1 := Hseed).
Qed.


(** Strings: whatever is stored, [zdb_kv_get_str] leaves a terminated
    string in the caller's buffer; and a string stored by [zdb_kv_set_str] that
    fits is read back whole, terminator included, with its length. *)
Theorem kv_get_str_spec sl ns key buf cap w :
  KvReadsOk F → kv_env sl w → length ns ≤ CONFIG_ZDB_MAX_KEY_LEN →
  zdb_key_valid (Some key) = true → 0 < cap ≤ length buf →
  wp (zdb_kv_get_str (kv_handle ns) (Some key) (Some buf) cap true)
    (λ r w', same_data w w' ∧ terminated cap r.2 ∧
       (r.1 = ZDB_OK → ∀ s, kv_lookup (w_f w) ns key = Some (s ++ [nul]) → c_string s →
          length s < cap - 1 → str_answer s buf r.2)) w.
Proof.
  intros. eapply wp_get_str; [done..|].
  intros st out w' _ Hd Hterm Hcases. split_and!; [done|done|].
  intros Hst s Hs Hcs Hlen. simpl in *. subst st.
  destruct Hcases as [?|[?|[[? _]|(_ & v & Hv & Hans)]]]; try done.
  apply Hans; [congruence|done|done].
Qed.
End props.

(** ** Witnesses *)


(** The store after "app"/"rate" was set to "10", and one where the pair
    ("app", "29") occupies the slot ("app", "a0f") hashes to. *)
Definition sim_f1 : sim_kv :=
  {[ zdb_kv_record_id (s2b "app") (s2b "rate") :=
       zdb_kv_record_build (s2b "app") (s2b "rate") (Some (s2b "10")) 2 ]}.
Definition sim_f2 : sim_kv :=
  {[ 29729%Z := zdb_kv_record_build (s2b "app") (s2b "29") (Some (s2b "x")) 1 ]}.

Lemma sim_env_empty : kv_env sim_kv_slab (sim_w ∅).
Proof. split_and!; [by eexists|done|]. by intros id d Hd. Qed.

Lemma sim_env_singleton id d : length d ≤ 128 → kv_env sim_kv_slab (sim_w {[id := d]}).
Proof.
  intros Hd. split_and!; [by eexists|done|].
  intros id' d' Hd' _. simpl in Hd'. apply lookup_singleton_Some in Hd' as [_ <-]. exact Hd.
Qed.

Lemma sim_env_f1 : kv_env sim_kv_slab (sim_w sim_f1).
Proof. apply sim_env_singleton. vm_compute. lia. Qed.
Lemma sim_env_f2 : kv_env sim_kv_slab (sim_w sim_f2).
Proof. apply sim_env_singleton. vm_compute. lia. Qed.

Definition app_ns : cstring := s2b "app".
Definition rate_key : cstring := s2b "rate".

Lemma kv_set_refines_witness :
  let r := zdb_kv_set (kv_handle app_ns) (Some rate_key) (Some (s2b "10")) 2 (sim_w ∅) in
  r.1 = ZDB_OK ∧ kv_lookup (w_f r.2) app_ns rate_key = Some (s2b "10").
Proof.
  cbv zeta. split; [vm_compute; reflexivity|].
  pose proof (kv_set_refines sim_kv_slab app_ns rate_key (Some (s2b "10")) 2 (sim_w ∅)
    _ sim_env_empty ltac:(vm_compute; lia) ltac:(vm_compute; lia)) as H.
  unfold wp in H. rewrite H. vm_compute. reflexivity.
Defined.

Lemma kv_get_refines_witness :
  let r := zdb_kv_get (kv_handle app_ns) (Some rate_key) (Some (s2b "....")) 4 true
             (sim_w sim_f1) in
  r.1 = (ZDB_OK, {| o_len := Some 2; o_value := Some (s2b "10..") |}) ∧
  same_data (sim_w sim_f1) r.2.
Proof.
  cbv zeta. split; [vm_compute; reflexivity|].
  apply (kv_get_refines sim_kv_slab app_ns rate_key (Some (s2b "....")) 4 (sim_w sim_f1));
    [apply _|apply sim_env_f1|vm_compute; lia|reflexivity|discriminate].
Defined.

Lemma kv_delete_refines_witness :
  let r := zdb_kv_delete (kv_handle app_ns) (Some rate_key) (sim_w sim_f1) in
  r.1 = ZDB_OK ∧ kv_lookup (w_f r.2) app_ns rate_key = None.
Proof.
  cbv zeta. split; [vm_compute; reflexivity|].
  destruct (kv_delete_refines sim_kv_slab app_ns rate_key (sim_w sim_f1)) as [H _];
    [apply sim_env_f1|vm_compute; lia|reflexivity|].
  rewrite H. vm_compute. reflexivity.
Defined.

Lemma kv_set_get_roundtrip_witness :
  ((st ← zdb_kv_set (kv_handle app_ns) (Some rate_key) (Some (s2b "10")) 2;
    r ← zdb_kv_get (kv_handle app_ns) (Some rate_key) (Some (s2b "....")) 4 true;
    ret (st, r)) (sim_w ∅)).1.2 =
  (ZDB_OK, {| o_len := Some 2; o_value := Some (s2b "10..") |}).
Proof.
  apply (kv_set_get_roundtrip sim_blocks sim_kv_slab app_ns rate_key (s2b "10") 2 (s2b "....")
    (sim_w ∅)); [apply _|apply _|apply _|apply sim_env_empty|vm_compute; lia..|].
  vm_compute. reflexivity.
Defined.

Lemma kv_set_collision_safe_witness :
  let r := zdb_kv_set (kv_handle app_ns) (Some (s2b "a0f")) (Some (s2b "1")) 1 (sim_w sim_f2) in
  r.1 = ZDB_ERR_COLLISION ∧ same_data (sim_w sim_f2) r.2.
Proof.
  cbv zeta. split; [vm_compute; reflexivity|].
  apply (kv_set_collision_safe sim_kv_slab app_ns (s2b "a0f") (Some (s2b "1")) 1
    app_ns (s2b "29") (s2b "x") (sim_w sim_f2));
    [apply _|apply sim_env_f2|vm_compute; lia|reflexivity|vm_compute; lia|vm_compute; lia| |discriminate|];
    vm_compute; reflexivity.
Defined.

Lemma kv_operations_balanced_witness :
  kv_step (sim_w sim_f1)
    (zdb_kv_set (kv_handle app_ns) (Some rate_key) (Some (s2b "25")) 2 (sim_w sim_f1)).2 ∧
  kv_step (sim_w sim_f1)
    (zdb_kv_get (kv_handle app_ns) (Some rate_key) None 0 true (sim_w sim_f1)).2 ∧
  kv_step (sim_w sim_f1) (zdb_kv_delete (kv_handle app_ns) (Some rate_key) (sim_w sim_f1)).2.
Proof.
  apply (kv_operations_balanced sim_kv_slab);
    [apply _|apply sim_env_f1|vm_compute; lia|vm_compute; lia|reflexivity|reflexivity].
Defined.

Lemma kv_set_publishes_witness :
  wp (zdb_kv_set (kv_handle app_ns) (Some rate_key) (Some (s2b "25")) 2)
    (λ st w', gave_up sim_kv_slab (sim_w sim_f1) st ∨
       ∃ bg e full, Forall background bg ∧ kv_event ZDB_EVENT_KV_SET app_ns rate_key 2 st e ∧
         (if decide (st = ZDB_OK ∧ (app_ns, rate_key) ∉ index_pairs (w_db w'))
          then ∃ e', full = [e'] ∧ kv_event ZDB_EVENT_KV_INDEX_FULL app_ns rate_key 2 ZDB_OK e'
          else full = []) ∧
         w_log w' = bg ++
           all_deliveries false (map (λ e, (event_listeners sim_db, EvKv e)) (e :: full)))
    (sim_w sim_f1).
Proof.
  apply (kv_set_publishes sim_kv_slab app_ns rate_key (Some (s2b "25")) 2 (sim_w sim_f1));
    [reflexivity|reflexivity|right; apply _|apply sim_env_f1|vm_compute; lia|reflexivity|vm_compute; lia|vm_compute; lia].
Defined.

Lemma kv_index_tracks_witness :
  let r := zdb_kv_set (kv_handle app_ns) (Some rate_key) (Some (s2b "25")) 2 (sim_w sim_f1) in
  r.1 = ZDB_OK ∧ kv_ctx_ok (w_db r.2) ∧ index_pairs (w_db r.2) = [(app_ns, rate_key)].
Proof.
  cbv zeta. split; [vm_compute; reflexivity|]. split; [|vm_compute; reflexivity].
  apply (kv_index_tracks sim_kv_slab app_ns rate_key (Some (s2b "25")) 2 (sim_w sim_f1));
    [apply sim_env_f1| |vm_compute; lia|reflexivity|vm_compute; lia|vm_compute; lia].
  split; [vm_compute; lia|constructor].
Defined.

(** An instance whose index lists a stale key and a live one. *)
Definition sim_iter_w : world sim_kernel sim_kv unit :=
  (sim_w sim_f1) <| w_db ::= λ d, d <| kv_ctx := Some
     {| entries := [{| en_namespace_name := app_ns; en_key := s2b "gone"; en_id := 77 |};
                    {| en_namespace_name := app_ns; en_key := rate_key;
                       en_id := zdb_kv_record_id app_ns rate_key |}];
        loaded := true |} |> |>.

Lemma kv_iter_next_spec_witness :
  wp (zdb_kv_iter_next (Some {| it_kv := kv_handle app_ns; it_position := 0 |})
        (Some (replicate 64 nul)) 64 true None 0 true)
    (λ r w', ∃ a, r = Some a ∧ same_data sim_iter_w w' ∧ kv_step sim_iter_w w' ∧
       iter_answer sim_f1 (ctx_entries (w_db sim_iter_w)) app_ns 0 None 0 a) sim_iter_w ∧
  next_live sim_f1 (ctx_entries (w_db sim_iter_w)) app_ns 0 = Some (1, rate_key, s2b "10").
Proof.
  split; [|vm_compute; reflexivity].
  apply (kv_iter_next_spec sim_blocks sim_kv_slab app_ns 0 (replicate 64 nul) 64 None 0 sim_iter_w);
    [apply _|apply _|apply _|apply sim_env_f1|vm_compute; lia|vm_compute; lia| |vm_compute; lia|reflexivity].
  repeat constructor; (vm_compute; lia) || discriminate.
Defined.

(** The storage after a reboot: the record and the index record that lists it. *)
Definition sim_entry : zdb_kv_index_entry :=
  {| en_namespace_name := app_ns; en_key := rate_key;
     en_id := zdb_kv_record_id app_ns rate_key |}.
Definition sim_f3 : sim_kv := <[ZDB_KV_INDEX_REC_ID := index_bytes [sim_entry]]> sim_f1.

Lemma sim_env_f3 : kv_env sim_kv_slab (sim_w sim_f3).
Proof.
  split_and!; [by eexists|done|]. intros id d Hd Hid. simpl in Hd. unfold sim_f3 in Hd.
  rewrite lookup_insert_ne in Hd by done. destruct sim_env_f1 as (_ & _ & H). by eapply H.
Qed.

Lemma kv_index_reload_witness :
  let r := zdb_kv_ctx_get_or_alloc (Some the_db) (sim_w sim_f3) in
  r.1 = true ∧ ctx_entries (w_db r.2) = [sim_entry].
Proof.
  cbv zeta. assert ((zdb_kv_ctx_get_or_alloc (Some the_db) (sim_w sim_f3)).1 = true) as H1
    by (vm_compute; reflexivity).
  split; [exact H1|].
  pose proof (kv_index_reload sim_blocks sim_kv_slab [sim_entry] (sim_w sim_f3)) as H.
  unfold wp in H. rewrite H1 in H.
  destruct H as [H _];
    [apply _|apply _|apply sim_env_f3|reflexivity|vm_compute; lia|reflexivity|
     vm_compute; reflexivity|vm_compute; lia| |exact H].
  constructor; [|constructor]. split_and!; try discriminate;
    [split; vm_compute; lia|apply (bool_decide_unpack _); vm_compute; exact I..|reflexivity|].
  eexists _, (s2b "10"). split_and!; [vm_compute; reflexivity|vm_compute; lia|vm_compute; reflexivity].
Defined.

Lemma kv_defaults_seed_witness :
  let r := zdb_kv_defaults_apply_ns (Some the_db) None (sim_w sim_f1) in
  r.1 = ZDB_OK ∧ kv_lookup (w_f r.2) app_ns rate_key = Some (s2b "10") ∧
  is_Some (kv_lookup (w_f r.2) (s2b "cfg") rate_key).
Proof.
  cbv zeta. assert ((zdb_kv_defaults_apply_ns (Some the_db) None (sim_w sim_f1)).1 = ZDB_OK) as H1
    by (vm_compute; reflexivity).
  split; [exact H1|].
  destruct (kv_defaults_seed sim_kv_slab None sim_cfg (sim_w sim_f1)) as (_ & _ & Hkeep & Hall);
    [apply _|apply sim_env_f1|reflexivity|repeat constructor; vm_compute; lia|].
  split; [apply Hkeep; vm_compute; reflexivity|].
  eapply Hall; [exact H1|left; reflexivity|vm_compute; reflexivity].
Defined.


(** A stored string. *)
Definition sim_f4 : sim_kv :=
  {[ zdb_kv_record_id app_ns rate_key :=
       zdb_kv_record_build app_ns rate_key (Some (s2b "fast" ++ [nul])) 5 ]}.

Lemma sim_env_f4 : kv_env sim_kv_slab (sim_w sim_f4).
Proof. apply sim_env_singleton. vm_compute. lia. Qed.

Lemma kv_get_str_spec_witness :
  let r := zdb_kv_get_str (kv_handle app_ns) (Some rate_key) (Some (replicate 16 nul)) 16 true
             (sim_w sim_f4) in
  r.1.1 = ZDB_OK ∧ str_answer (s2b "fast") (replicate 16 nul) r.1.2.
Proof.
  cbv zeta. match goal with |- ?a = _ ∧ _ => assert (a = ZDB_OK) as H1 by (vm_compute; reflexivity) end.
  split; [exact H1|].
  destruct (kv_get_str_spec sim_kv_slab app_ns rate_key (replicate 16 nul) 16 (sim_w sim_f4))
    as (_ & _ & H); [apply _|apply sim_env_f4|vm_compute; lia|reflexivity|vm_compute; lia|].
  apply H; [exact H1|vm_compute; reflexivity| |vm_compute; lia].
  apply (bool_decide_unpack _). vm_compute. exact I.
Defined.
