(* ===== verification/TsFormatProps.v ===== *)
(** * The properties of the time-series formats and of the watermark *)

From S2P Require Import Prelude Config Env Types FsEnv FsSpec Events CoreSpec Cursor TsFormat.
From S2P Require Import TsFormatSpec TsSpec TsStore TsSegment TsCursor TsRecover TsFileSpec TsInv.
From S2P Require Import TsStream TsFlushSpec TsAppendSpec TsRecoverSpec TsWatermarkSpec Sim SimFs SimData.

Section props.
Context {Cfg : Config} {CfgOk : ConfigOk Cfg} {K F FS FH DH : Type}.
Context `{!Kernel K, !KernelLaws K, !FileSys FS FH DH, !FileSysLaws FS FH DH}.
Context {CRC : Crc32} {CRCLaws : Crc32Laws}.
Abbreviation W := (world K F FS).
Implicit Types w : W.

(** C25. A record reads back as the sample it was written for, in either
    format and whatever follows it; a sample is refused exactly when its
    distance to the base of a compact segment does not fit 32 bits. *)
Theorem ts_record_roundtrip v base x rest w :
  version_ok v → sample_ok x →
  match zdb_ts_record_encode_as v base x with
  | Some bytes =>
      length bytes = zdb_ts_rec_size_for v ∧
      zdb_ts_record_decode_as (Some the_db) v base (bytes ++ rest) w = ((ZDB_OK, Some x), w)
  | None =>
      v = ZDB_TS_STREAM_VERSION_V2 ∧ (ts_ms x < base ∨ base + UINT32_MAX < ts_ms x)%Z
  end.
Proof.
  intros Hv Hx. destruct (zdb_ts_record_encode_as v base x) as [bytes|] eqn:He.
  - split; [by eapply length_encode_as|].
    pose proof (decode_pure_encode v base x bytes rest Hx He) as Hd.
    assert (wp (zdb_ts_record_decode_as (Some the_db) v base (bytes ++ rest))
              (λ r w', r = (ZDB_OK, Some x) ∧ w' = w) w) as [Hr Hw].
    { apply wp_decode_as; [|intros; congruence]. intros y Hy. split; congruence. }
    rewrite (surjective_pairing (zdb_ts_record_decode_as _ _ _ _ _)). by f_equal.
  - destruct (decide (v = ZDB_TS_STREAM_VERSION_V2)) as [->|Hne].
    + split; [done|]. destruct (decide (ts_ms x < base ∨ base + UINT32_MAX < ts_ms x)%Z) as [|Hn]; [done|].
      assert (is_Some (zdb_ts_record_encode_as ZDB_TS_STREAM_VERSION_V2 base x)) as [? ?]; [|congruence].
      apply encode_as_Some. lia.
    + assert (is_Some (zdb_ts_record_encode_as v base x)) as [? ?]; [|congruence].
      by apply encode_as_Some.
Qed.

(** C26. Decoding a record's worth of bytes succeeds only on the encoding of
    the sample it reports and fails only on bytes no sample encodes to; every
    failure changes no more than the clock, the counters and the health, and
    one that reports corruption leaves the instance no longer healthy. *)
Theorem ts_record_canonical v base raw w :
  version_ok v → (0 ≤ base)%Z → (base + UINT32_MAX < 2 ^ 64)%Z →
  length raw = zdb_ts_rec_size_for v →
  (v = ZDB_TS_STREAM_VERSION → get_le 2 raw 6 = 0%Z) →
  wp (zdb_ts_record_decode_as (Some the_db) v base raw)
    (λ r w', match r with
     | (ZDB_OK, Some x) => w' = w ∧ sample_ok x ∧ zdb_ts_record_encode_as v base x = Some raw
     | (st, None) =>
         (st = ZDB_ERR_CORRUPT ∧ 1 ≤ health_level (health (w_db w')) ∨ st = ZDB_ERR_UNSUPPORTED) ∧
         noise w w' ∧ ∀ x, sample_ok x → zdb_ts_record_encode_as v base x ≠ Some raw
     | _ => False
     end) w.
Proof.
  intros Hv Hb0 Hb Hl Hres. apply wp_decode_as.
  - intros x Hx. split_and!; [done|by eapply decode_pure_ok|by eapply decode_pure_canonical].
  - intros st w' Hd N Hst.
    assert (∀ x, sample_ok x → zdb_ts_record_encode_as v base x ≠ Some raw) as Hno.
    { intros x Hx He. pose proof (decode_pure_encode v base x raw [] Hx He) as Hd'.
      rewrite app_nil_r in Hd'. congruence. }
    destruct Hst as [[-> Hh]| ->]; auto.
Qed.

Section close_ok.
Context {CloseOk : FsCloseOk FS FH DH}.

(** A file made for a stream keeps the version and the base it was made
    with: any later check of it that succeeds reports them, is for a stream
    whose name has the same hash, and no later check changes any file. *)
Theorem ts_header_stable name p base w :
  is_Some (cfg (w_db w)) → default [] (files w !! p) = [] → (0 ≤ base < 2 ^ 64)%Z →
  wp (zdb_ts_ensure_header_ex (Some the_db) (Some name) (Some p) base)
    (λ r w1, r.1 = ZDB_OK →
       r.2 = Some (native_version, if CONFIG_ZDB_TS_DELTA_ENCODING then base else 0%Z) ∧
       ∀ name' base',
         wp (zdb_ts_ensure_header_ex (Some the_db) (Some name') (Some p) base')
           (λ r' w2, files w2 = files w1 ∧
              (r'.1 = ZDB_OK → r'.2 = r.2 ∧ zdb_fnv1a32 name' = zdb_fnv1a32 name)) w1) w.
Proof.
  intros Hc He Hb. apply wp_ensure_header_ex; [done|by intros| |]; cycle 1.
  { intros d v w' Hd Hh. rewrite Hd in He. simpl in He. subst d. by rewrite header_pure_nil in Hh. }
  intros w1 _ C1 _ F1 _. cbn [fst snd]. split.
  { unfold new_header, native_version. by destruct CONFIG_ZDB_TS_DELTA_ENCODING. }
  set (hdr := (new_header name base).1) in *. set (out := (new_header name base).2).
  assert (header_pure name hdr = Some out) as Hh.
  { rewrite <- (app_nil_r hdr). by apply new_header_pure. }
  assert (files w1 !! p = Some hdr) as Hp by (rewrite F1; apply lookup_insert_eq).
  assert (default [] (files w1 !! p) ≠ []) as Hne.
  { rewrite Hp. intros Hz. simpl in Hz. rewrite Hz in Hh. by rewrite header_pure_nil in Hh. }
  intros name' base'. apply wp_ensure_header_ex.
  - by rewrite (calm_cfg _ _ C1).
  - intros st w2 Hst _ _ [_ F2]. split; [by apply F2|]. done.
  - intros w2 Hz. by rewrite Hz in Hne.
  - intros d v w2 Hd Hv _ _ F2. rewrite Hp in Hd. injection Hd as <-. split; [done|]. intros _.
    destruct (header_pure_name _ _ _ _ _ Hh Hv) as [-> ?]. done.
Qed.

(** C27. The watermark that was set is the one that is read, by any later read
    on a volume that answers; setting it and clearing it touch no other file,
    and after a clear no mark is read. *)
Theorem ts_watermark_roundtrip name m w :
  LockLive K → FsLive FS FH DH → is_Some (cfg (w_db w)) → (0 ≤ m < 2 ^ 64)%Z →
  wp (zdb_ts_watermark_set (handle name) m)
    (λ st w1, st = ZDB_OK → ∃ p, wmk_path w name = inr p ∧
       (∀ q, q ≠ p → files w1 !! q = files w !! q) ∧
       wp (zdb_ts_watermark_get (handle name) true)
         (λ r w2, r = (ZDB_OK, Some m) ∧ files w2 = files w1) w1 ∧
       wp (zdb_ts_watermark_clear (handle name))
         (λ st2 w2, st2 = ZDB_OK → files w2 = delete p (files w1) ∧
            wp (zdb_ts_watermark_get (handle name) true)
              (λ r w3, r.1 ≠ ZDB_OK ∧ r.2 = None ∧ files w3 = files w2) w2) w1) w.
Proof.
  intros Hlive HFS Hc Hm. apply wp_watermark_set; [by intros ? ? ? _ _|].
  intros w1 p S1 Hp F1 _. exists p. split; [done|].
  assert (wmk_path w1 name = inr p) as Hp1 by (by rewrite (wmk_path_step _ _ _ S1)).
  split; [intros q Hq; by rewrite F1, lookup_insert_ne|]. split.
  - eapply wp_watermark_get_live; [done|done| |exact Hp1|by rewrite F1, lookup_insert_eq| |].
    + by rewrite (ts_step_cfg _ _ S1).
    + by apply mark_of_encode.
    + intros w2 _ F2. done.
  - apply wp_watermark_clear; [by intros ? ? ? _ _|]. intros w2 p' S2 Hp' F2 _.
    rewrite Hp1 in Hp'. injection Hp' as <-. split; [done|].
    apply wp_watermark_get; [by intros|]. intros w3 p' d m' S3 F3 Hp' Hd.
    rewrite (wmk_path_step _ _ _ S2), Hp1 in Hp'. injection Hp' as <-.
    by rewrite F2, lookup_delete_eq in Hd.
Qed.

(** Reading the watermark never touches a file, and what it reports is in
    the stream's watermark file, under the magic number, version and CRC. *)
Theorem ts_watermark_sound name w :
  wp (zdb_ts_watermark_get (handle name) true)
    (λ r w', files w' = files w ∧
       match r with
       | (ZDB_OK, Some m) => (0 ≤ m < 2 ^ 64)%Z ∧ ∃ p d, wmk_path w name = inr p ∧ files w !! p = Some d ∧
           (get_le 2 d 6 = 0%Z → take sizeof_watermark_rec d = watermark_encode m)
       | (st, out) => st ≠ ZDB_OK ∧ out = None
       end) w.
Proof.
  apply wp_watermark_get.
  - intros st w' Hst _ F1. split; [done|]. by destruct st.
  - intros w' p d m _ F1 Hp Hd Hm. split; [done|]. split; [by eapply mark_of_bound|].
    exists p, d. split_and!; [done|done|]. intros Hres. by apply mark_of_canonical.
Qed.
End close_ok.
End props.

(** ** Witnesses *)

Lemma ts_record_roundtrip_witness :
  zdb_ts_record_decode_as (Some the_db) ZDB_TS_STREAM_VERSION_V2 0 (sim_record 1 ++ [nul]) sim_w0 =
    ((ZDB_OK, Some (sim_sample 1)), sim_w0).
Proof.
  refine (proj2 (ts_record_roundtrip ZDB_TS_STREAM_VERSION_V2 0 (sim_sample 1) [nul] sim_w0 _ _));
    [by right|vm_compute; done].
Defined.

Lemma ts_record_canonical_witness :
  wp (zdb_ts_record_decode_as (Some the_db) ZDB_TS_STREAM_VERSION_V2 0 (replicate 16 Byte.x01))
    (λ r w', r.1 = ZDB_ERR_CORRUPT ∧ r.2 = None ∧ noise sim_w0 w') sim_w0.
Proof.
  pose proof (ts_record_canonical ZDB_TS_STREAM_VERSION_V2 0 (replicate 16 Byte.x01) sim_w0) as H.
  unfold wp in *.
  assert ((zdb_ts_record_decode_as (Some the_db) ZDB_TS_STREAM_VERSION_V2 0 (replicate 16 Byte.x01)
             sim_w0).1 = (ZDB_ERR_CORRUPT, None)) as Hr by (vm_compute; reflexivity).
  rewrite Hr in *. split_and!; [done|done|].
  apply H; [by right|done|done|done|done].
Defined.

Lemma ts_header_stable_witness :
  let p := seg_file (Some sim_cfg) sim_name 1 in
  let r := zdb_ts_ensure_header_ex (Some the_db) (Some sim_name) (Some p) 1000 sim_w0 in
  r.1 = (ZDB_OK, Some (ZDB_TS_STREAM_VERSION_V2, 1000%Z)) ∧
  files (zdb_ts_ensure_header_ex (Some the_db) (Some (s2b "t")) (Some p) 7 r.2).2 = files r.2.
Proof.
  cbv zeta. split; [vm_compute; reflexivity|].
  destruct (ts_header_stable sim_name (seg_file (Some sim_cfg) sim_name 1) 1000 sim_w0) as [_ H];
    [by eexists|vm_compute; reflexivity|lia|vm_compute; reflexivity|].
  apply (H (s2b "t") 7%Z).
Defined.

Lemma ts_watermark_roundtrip_witness :
  let r := zdb_ts_watermark_set (handle sim_name) 1002 sim_w0 in
  r.1 = ZDB_OK ∧ (zdb_ts_watermark_get (handle sim_name) true r.2).1 = (ZDB_OK, Some 1002%Z).
Proof.
  cbv zeta. split; [vm_compute; reflexivity|].
  destruct (ts_watermark_roundtrip sim_name 1002 sim_w0) as (p & _ & _ & [H _] & _);
    [apply _|apply _|by eexists|lia|vm_compute; reflexivity|exact H].
Defined.

Definition sim_mark_path : list byte := ts_dir (Some sim_cfg) ++ sim_name ++ s2b ".wmk".
Definition sim_mark_w : world sim_kernel sim_kv sim_fs :=
  sim_ts_w {[sim_mark_path := watermark_encode 1002]}.

Lemma ts_watermark_sound_witness :
  let r := zdb_ts_watermark_get (handle sim_name) true sim_mark_w in
  r.1 = (ZDB_OK, Some 1002%Z) ∧ files r.2 = files sim_mark_w.
Proof.
  cbv zeta. split; [vm_compute; reflexivity|].
  destruct (ts_watermark_sound sim_name sim_mark_w) as [H _]. exact H.
Defined.
