(* ===== verification/TsProps.v ===== *)
(** * The properties of the time-series module: formats, appending, flushing,
    recovery, the watermark *)

From S2P Require Import Prelude Config Env Types FsEnv FsSpec Events CoreSpec Cursor TsFormat.
From S2P Require Import TsFormatSpec TsSpec TsStore TsSegment TsCursor TsRecover Doubles TsOps.
From S2P Require Import TsFileSpec TsInv TsStream TsFlushSpec TsAppendSpec TsRecoverSpec.
From S2P Require Import TsWatermarkSpec TsCursorSpec TsWalkSpec TsAggSpec Sim SimFs SimData.

Section props.
Context {Cfg : Config} {CfgOk : ConfigOk Cfg} {K F FS FH DH : Type}.
Context `{!Kernel K, !KernelLaws K, !FileSys FS FH DH, !FileSysLaws FS FH DH}.
Context {CRC : Crc32} {CRCLaws : Crc32Laws} {CloseOk : FsCloseOk FS FH DH}.
Abbreviation W := (world K F FS).
Implicit Types w : W.

(** C16. An append that reports [ZDB_OK] adds exactly its sample at the end of
    the stream: the samples of the stream before it, followed by the new one,
    are those after it, but for whole segments discarded at the front, which
    happens only where rollover is on and the stream is left with its full
    complement of segments. The stream stays well-formed, whether the sample
    was buffered, forced a flush, or started a segment with a new base. *)
Theorem ts_append_refines name i s x w :
  opened_as name i s w → (cur_seg s + 4 < 2 ^ 32)%Z → sample_ok x →
  wp (zdb_ts_append_i64 (handle name) (Some x))
    (λ st w', st = ZDB_OK → ∃ s' gone,
       slot_is w' i s' ∧ stream_ok (cfg (w_db w)) (files w') s' ∧
       stream_samples (cfg (w_db w)) (files w) s ++ [x] =
         gone ++ stream_samples (cfg (w_db w)) (files w') s' ∧
       discards s s' gone) w.
Proof.
  intros Ho H32 Hx. eapply wp_append_i64; [done..|]. intros st w' Hpost Hst.
  destruct (Hpost Hst) as (s' & Hs' & [Hok _ _ (gone & Hg & Hd)]). by exists s', gone.
Qed.

(** C17. A batch that reports [ZDB_OK] adds all its samples, in order, at the
    end of the stream. *)
Theorem ts_append_batch_refines name i s x xs w :
  opened_as name i s w → (cur_seg s + 3 * length (x :: xs) + 1 < 2 ^ 32)%Z →
  Forall sample_ok (x :: xs) →
  wp (zdb_ts_append_batch_i64 (handle name) (Some (x :: xs)))
    (λ st w', st = ZDB_OK → ∃ s' gone,
       slot_is w' i s' ∧ stream_ok (cfg (w_db w)) (files w') s' ∧
       stream_samples (cfg (w_db w)) (files w) s ++ x :: xs =
         gone ++ stream_samples (cfg (w_db w)) (files w') s' ∧
       discards s s' gone) w.
Proof.
  intros Ho H32 Hx. eapply wp_append_batch_i64; [done..|]. intros st w' Hpost Hst.
  destruct (Hpost Hst) as (s' & Hs' & [Hok _ _ (gone & Hg & Hd)]). by exists s', gone.
Qed.

(** C20. A flush that reports success empties the buffer into the active file
    and loses nothing but the samples of the segments rollover discards, which
    are the oldest ones beyond the bound once a new segment was started; with
    rollover on, a stream within its bound of segments stays within it. *)
Theorem ts_flush_preserves name i s w :
  opened_as name i s w → (cur_seg s + 2 < 2 ^ 32)%Z →
  wp (zdb_ts_flush_buffer_locked the_db (Some i))
    (λ rc w', (0 ≤ rc)%Z → ∃ s' gone,
       slot_is w' i s' ∧ stream_ok (cfg (w_db w)) (files w') s' ∧ ingest_used s' = 0 ∧
       stream_samples (cfg (w_db w)) (files w) s =
         gone ++ stored (cfg (w_db w)) (files w') (st_name s') (oldest_seg s') (cur_seg s') ∧
       gone = stored (cfg (w_db w)) (files w) (st_name s) (oldest_seg s) (oldest_seg s' - 1) ∧
       (cur_seg s ≤ cur_seg s' ≤ cur_seg s + 1)%Z ∧ oldest_seg s' = oldest_after s (cur_seg s') ∧
       discards s s' gone ∧
       (CONFIG_ZDB_TS_ROLLOVER = true →
        (cur_seg s + 1 - oldest_seg s ≤ CONFIG_ZDB_TS_ROLLOVER_MAX_SEGMENTS)%Z →
        (cur_seg s' + 1 - oldest_seg s' ≤ CONFIG_ZDB_TS_ROLLOVER_MAX_SEGMENTS)%Z)) w.
Proof.
  intros [Hr Hfind Hs Hok Hrec] H32. eapply wp_flush_buffer; [by apply at_slot_refl|done|apply Hr|done|..].
  { intros rc s' w' Hrc _ Hge. lia. }
  intros w' s' A' Hf _. pose proof (fl_discards _ _ _ _ _ Hf) as Hd. pose proof (fl_stored _ _ _ _ _ Hf) as Hst.
  destruct Hf as [Hok' Hu Hn Hc Hcur _ Ho _]. eexists s', _.
  split_and!; [apply A'|done|done|rewrite Hn; exact Hst|done|lia|lia|done|done|by eapply discards_bound].
Qed.

(** C21. Closing the last handle of a stream, when it reports [ZDB_OK], has
    persisted every sample: the samples the stream held are those its segment
    files hold afterwards, from the oldest segment it keeps to the newest, the
    last one there is. It gives up no segment unless the buffer filled the
    active one and rollover is on; then only those beyond the bound, and what is
    lost are their samples. The slot is free again. *)
Theorem ts_close_persists name i s w :
  LockLive K → opened_as name i s w → (open_count s ≤ 1)%Z → (cur_seg s + 2 < 2 ^ 32)%Z →
  wp (zdb_ts_close (handle name))
    (λ r w', r.1 = ZDB_OK → ∃ newest,
       let c := cfg (w_db w) in
       let oldest := oldest_after s newest in
       (newest = cur_seg s ∨ newest = cur_seg s + 1)%Z ∧
       (ZDB_TS_SEGMENTED = true → ∀ n, (newest < n < 2 ^ 32)%Z → files w' !! seg_file c name n = None) ∧
       stream_samples c (files w) s =
         stored c (files w) name (oldest_seg s) (oldest - 1) ++ stored c (files w') name oldest newest ∧
       (CONFIG_ZDB_TS_ROLLOVER = false → oldest = oldest_seg s) ∧
       r.2 = Some {| ts_db := None; ts_stream_name := None |} ∧
       ∃ s0, slot_is w' i s0 ∧ in_use s0 = false ∧ ingest_buf s0 = None) w.
Proof.
  intros Hlive Ho Hoc H32. pose proof (opened_name _ _ _ _ Ho) as Hname. eapply wp_close_last; [done..| |].
  { intros st t w' Hst Heq. done. }
  intros w1 w' s' Hfl Hf (s0 & Hs0 & Hsim) _. pose proof (fl_stored _ _ _ _ _ Hfl) as Hst.
  destruct Hfl as [Hok' _ Hn _ Hcur _ Hold _]. exists (cur_seg s'). cbv zeta.
  rewrite <- Hold, Hf. rewrite Hname in Hst. split_and!; [lia| |exact Hst| |done|].
  - rewrite <- Hname, <- Hn. apply (sk_fresh _ _ _ Hok').
  - intros HR. rewrite Hold. unfold oldest_after, first_kept. rewrite HR. by case_bool_decide.
  - exists s0. destruct Hsim as (a & b & ->). done.
Qed.

(** C22. Recovery of a stream whose active file has its header and records that
    fit the buffer they are read into, when it reports [ZDB_OK], cuts the file
    at the end of its longest prefix of records that decode and touches no other
    file: the samples of that prefix stay, the file is whole records again, and
    a second run finds nothing to cut. The number it reports is the number of
    bytes cut where these are no more than one record, as they are when a write
    was interrupted. A run that fails changes no file. *)
Theorem ts_recover_keeps_prefix name i s d v base w :
  let p := stream_file (cfg (w_db w)) name (cur_seg s) in
  ready w → zdb_ts_slot_find (ts_ctx (w_db w)) (Some name) = Some i → slot_is w i s →
  (ZDB_TS_SEGMENTED = true → segs_scanned s = true) →
  files w !! p = Some d → header_pure name d = Some (v, base) →
  zdb_ts_rec_size_for v ≤ ZDB_TS_HDR_MAX_SIZE → (Z.of_nat (length d) < 2 ^ SIZE_WIDTH)%Z →
  wp (zdb_ts_recover_stream (handle name) true)
    (λ r w', if bool_decide (r.1 = ZDB_OK) then
       let d' := take (good_end v d) d in
       files w' = <[p := d']> (files w) ∧
       (length d ≤ good_end v d + zdb_ts_rec_size_for v → r.2 = Some (length d - length d')) ∧
       aligned d' v ∧ file_samples name d' = take (good_records v d) (file_samples name d) ∧
       length (file_samples name d') = good_records v d ∧ good_end v d' = length d'
     else files w' = files w) w.
Proof.
  intros p Hr Hfind Hs Hsc Hd Hh Hfit Hsize.
  eapply (wp_recover_stream _ _ _ _ _ _ true); [done..| |].
  { intros st n w' Hst _ _ F'. cbn [fst]. by rewrite bool_decide_false. }
  intros w' (_ & _ & F'). cbn [fst snd]. rewrite bool_decide_true by done.
  pose proof (header_pure_ok _ _ _ Hh) as (_ & _ & Hlen). cbn [fst] in Hlen.
  destruct (good_take v d Hlen) as (Ha & Hgr & Hsamp). cbv zeta.
  pose proof (good_end_bound v d Hlen) as Hge.
  assert (good_end v (take (good_end v d) d) = good_end v d) as Hge' by (unfold good_end at 1; by rewrite Hgr).
  assert (header_pure name (take (good_end v d) d) = Some (v, base)) as Hh'.
  { apply header_pure_take; [done|lia]. }
  assert (length (take (good_end v d) d) = good_end v d) as -> by (rewrite length_take; lia).
  split_and!; [done| |done| | |done].
  - intros Htail. unfold reported. by rewrite Nat.min_l.
  - unfold file_samples. rewrite Hh', Hh. apply Hsamp.
  - unfold file_samples. rewrite Hh'. apply Hsamp.
Qed.

(** C18. Walking a stream from the opening of a cursor until it reports
    [ZDB_ERR_NOT_FOUND] ends, and yields every sample of the stream that the
    window and the predicate admit, once, in order: the files from the oldest
    segment on and then the ingest buffer, or all of it backwards. *)
Theorem ts_cursor_walks name i s wi p desc out n fuel w :
  LockLive K → FsLive FS FH DH → opened_as name i s w → walkable (cfg (w_db w)) (files w) s →
  let all := stream_entries (cfg (w_db w)) (files w) s in
  length all < fuel → length all < n →
  all.*2 = stream_samples (cfg (w_db w)) (files w) s ∧
  wp (zdb_ts_cursor_open_dir (handle name) wi p desc (Some out))
    (λ r w', r.1 = ZDB_OK → ∃ cu, r.2 = Some cu ∧
       wp (collect n fuel cu) (λ r' _,
         r' = Some (ZDB_ERR_NOT_FOUND,
                    (List.filter (admits wi p) (if desc then rev all else all)).*2)) w') w.
Proof.
  intros Hlock Hlive Ho Hwk all Hfuel Hn. split; [apply stream_entries_samples|].
  exact (wp_walk _ _ _ _ _ _ _ _ _ _ Hlock Ho Hwk Hfuel Hn).
Qed.

(** C19. [zdb_ts_query_aggregate] ends, and either reports an error or hands
    out the aggregate of the values of the samples in the window: the number of
    all of them, or the least, the greatest, the sum or the mean of the first
    [CONFIG_ZDB_TS_MAX_AGG_POINTS], saying whether there were more; it never
    reports success where there is nothing to aggregate. Counting without
    reading payloads, as an unbounded count does, gives the same number. The
    least value is among the values and none is below it; dually the
    greatest. *)
Theorem ts_aggregate_spec name i s agg wi (out : zdb_cursor_t FH) fuel w :
  LockLive K → FsLive FS FH DH → opened_as name i s w → walkable (cfg (w_db w)) (files w) s →
  let samples := stream_samples (cfg (w_db w)) (files w) s in
  let vs := window_values wi samples in
  length samples < fuel → (Z.of_nat (length samples) < 2 ^ 32)%Z →
  wp (zdb_ts_query_aggregate fuel (handle name) wi agg true out)
    (λ r _, ∃ st res, r = Some (st, res) ∧
       match res with
       | Some a => st = ZDB_OK ∧ aggregate agg vs = Some a
       | None => st ≠ ZDB_OK
       end) w ∧
  (∀ a, aggregate ZDB_TS_AGG_MIN vs = Some a →
     let xs := map d_of_Z (take CONFIG_ZDB_TS_MAX_AGG_POINTS vs) in
     ar_value a ∈ xs ∧ Forall (λ x, d_lt x (ar_value a) = false) xs) ∧
  (∀ a, aggregate ZDB_TS_AGG_MAX vs = Some a →
     let xs := map d_of_Z (take CONFIG_ZDB_TS_MAX_AGG_POINTS vs) in
     ar_value a ∈ xs ∧ Forall (λ x, d_lt (ar_value a) x = false) xs).
Proof.
  intros Hlock Hlive Ho Hwk samples vs Hfuel Hlt.
  split_and!; [|intros a; apply aggregate_min|intros a; apply aggregate_max].
  eapply wp_aggregate; [done..| |].
  - intros st w' Hst. by exists st, None.
  - intros a w' Ha. by exists ZDB_OK, (Some a).
Qed.
End props.

(** ** Witnesses *)

Lemma ts_append_refines_witness :
  let r := zdb_ts_append_i64 (handle sim_name) (Some (sim_sample 4)) sim_w0 in
  r.1 = ZDB_OK ∧ ∃ s' gone,
    slot_is r.2 0 s' ∧ stream_ok (Some sim_cfg) (files r.2) s' ∧
    map sim_sample [1; 2; 3; 4]%Z = gone ++ stream_samples (Some sim_cfg) (files r.2) s' ∧
    discards sim_slot s' gone.
Proof.
  cbv zeta. split; [vm_compute; reflexivity|].
  apply (ts_append_refines sim_name 0 sim_slot (sim_sample 4) sim_w0 sim_opened);
    [reflexivity|vm_compute; done|vm_compute; reflexivity].
Defined.

Lemma ts_append_batch_refines_witness :
  let r := zdb_ts_append_batch_i64 (handle sim_name) (Some (map sim_sample [4; 5]%Z)) sim_w0 in
  r.1 = ZDB_OK ∧ ∃ s' gone,
    slot_is r.2 0 s' ∧ stream_ok (Some sim_cfg) (files r.2) s' ∧
    map sim_sample [1; 2; 3; 4; 5]%Z = gone ++ stream_samples (Some sim_cfg) (files r.2) s' ∧
    discards sim_slot s' gone.
Proof.
  cbv zeta. split; [vm_compute; reflexivity|].
  apply (ts_append_batch_refines sim_name 0 sim_slot (sim_sample 4) [sim_sample 5] sim_w0 sim_opened);
    [reflexivity|repeat constructor; vm_compute; done|vm_compute; reflexivity].
Defined.

Lemma ts_flush_preserves_witness :
  let r := zdb_ts_flush_buffer_locked the_db (Some 0) sim_w0 in
  r.1 = 0%Z ∧ ∃ s' gone,
    slot_is r.2 0 s' ∧ ingest_used s' = 0 ∧
    map sim_sample [1; 2; 3]%Z =
      gone ++ stored (Some sim_cfg) (files r.2) (st_name s') (oldest_seg s') (cur_seg s').
Proof.
  cbv zeta. split; [vm_compute; reflexivity|].
  destruct (ts_flush_preserves sim_name 0 sim_slot sim_w0 sim_opened) as (s' & gone & H1 & _ & H3 & H4 & _);
    [reflexivity|vm_compute; discriminate|]. exists s', gone. split; [exact H1|]. split; [exact H3|exact H4].
Defined.

Lemma ts_close_persists_witness :
  let r := zdb_ts_close (handle sim_name) sim_w0 in
  r.1.1 = ZDB_OK ∧ ∃ newest, (newest = 0 ∨ newest = 1)%Z ∧
    map sim_sample [1; 2; 3]%Z = stored (Some sim_cfg) (files r.2) sim_name 0 newest.
Proof.
  cbv zeta. split; [vm_compute; reflexivity|].
  destruct (ts_close_persists sim_name 0 sim_slot sim_w0 sim_LockLive sim_opened)
    as (newest & Hnew & _ & H & _); [vm_compute; discriminate|reflexivity|vm_compute; reflexivity|].
  exists newest. split; [exact Hnew|]. assert (oldest_after sim_slot newest = 0%Z) as Hold
    by (destruct Hnew as [-> | ->]; reflexivity).
  rewrite Hold in H. exact H.
Defined.

(** A file that ends in the middle of a record. *)
Definition sim_torn : list byte := sim_data ++ take 5 (sim_record 3).
Definition sim_torn_w : world sim_kernel sim_kv sim_fs := sim_ts_w {[sim_seg := sim_torn]}.

Lemma ts_recover_keeps_prefix_witness :
  let r := zdb_ts_recover_stream (handle sim_name) true sim_torn_w in
  r.1 = (ZDB_OK, Some 5) ∧ files r.2 = {[sim_seg := sim_data]}.
Proof.
  cbv zeta. split; [vm_compute; reflexivity|].
  pose proof (ts_recover_keeps_prefix sim_name 0 sim_slot sim_torn ZDB_TS_STREAM_VERSION_V2 0 sim_torn_w) as H.
  cbv zeta in H. unfold wp in H.
  assert (bool_decide ((zdb_ts_recover_stream (handle sim_name) true sim_torn_w).1.1 = ZDB_OK) = true) as Hok
    by (vm_compute; reflexivity).
  rewrite Hok in H. destruct H as [H _]; [split; by eexists|reflexivity..|apply (bool_decide_unpack _); vm_compute; exact I|reflexivity|].
  rewrite H. unfold sim_torn_w, sim_ts_w, files. cbn [w_fs fs_files sim_FileSys].
  apply (bool_decide_unpack _). vm_compute. exact I.
Defined.

Lemma sim_walkable : walkable (Some sim_cfg) {[sim_seg := sim_data]} sim_slot.
Proof.
  split; [split|].
  - done.
  - done.
  - intros n d Hn. assert (n = 0%Z) as -> by (simpl in Hn; lia). intros Hd.
    assert (d = sim_data) as -> by (rewrite lookup_singleton_eq in Hd; congruence).
    exists ZDB_TS_STREAM_VERSION_V2, 0%Z. split.
    + apply (bool_decide_unpack _). vm_compute. exact I.
    + exists 2. vm_compute. done.
    + apply (bool_decide_unpack _). vm_compute. exact I.
    + vm_compute. done.
  - intros n _ Hn. assert (n = 0%Z) as -> by (simpl in Hn; lia).
    apply (bool_decide_unpack _). vm_compute. exact I.
  - apply (bool_decide_unpack _). vm_compute. exact I.
Qed.

(** A cursor that has not been opened. *)
Definition sim_cursor : zdb_cursor_t sim_fh :=
  {| cu_model := ZDB_MODEL_CORE; cu_backend := ZDB_BACKEND_NONE; cu_flags := 0; iter_count := 0;
     cu_position := 0; cu_current := None; cu_predicate := None; cu_impl := None |}.

Lemma ts_cursor_walks_witness :
  let r := zdb_ts_cursor_open_dir (handle sim_name) {| from_ts_ms := 1002; to_ts_ms := 1003 |} None true
             (Some sim_cursor) sim_w0 in
  r.1.1 = ZDB_OK ∧ ∃ cu, r.1.2 = Some cu ∧
    (collect 4 4 cu r.2).1 = Some (ZDB_ERR_NOT_FOUND, map sim_sample [3; 2]%Z).
Proof.
  cbv zeta. split; [vm_compute; reflexivity|].
  destruct (ts_cursor_walks sim_name 0 sim_slot {| from_ts_ms := 1002; to_ts_ms := 1003 |} None true
    sim_cursor 4 4 sim_w0 sim_LockLive sim_FsLive sim_opened sim_walkable) as [_ H];
    [apply (bool_decide_unpack _); vm_compute; exact I..|].
  destruct H as (cu & Hcu & H); [vm_compute; reflexivity|]. exists cu. split; [exact Hcu|].
  etrans; [exact H|]. vm_compute. reflexivity.
Defined.

Lemma ts_aggregate_spec_witness :
  let r := zdb_ts_query_aggregate 4 (handle sim_name) {| from_ts_ms := 1002; to_ts_ms := 1003 |}
             ZDB_TS_AGG_SUM true sim_cursor sim_w0 in
  ∃ a, r.1 = Some (ZDB_OK, Some a) ∧
    aggregate ZDB_TS_AGG_SUM (map value (map sim_sample [2; 3]%Z)) = Some a.
Proof.
  cbv zeta.
  destruct (ts_aggregate_spec sim_name 0 sim_slot ZDB_TS_AGG_SUM {| from_ts_ms := 1002; to_ts_ms := 1003 |}
    sim_cursor 4 sim_w0 sim_LockLive sim_FsLive sim_opened sim_walkable) as [H _];
    [apply (bool_decide_unpack _); vm_compute; exact I..|].
  destruct H as (st & [a|] & Hr & Hspec).
  - destruct Hspec as [-> Ha]. exists a. split; [exact Hr|]. rewrite <- Ha. vm_compute. reflexivity.
  - exfalso. apply Hspec. apply (f_equal (λ r, default ZDB_ERR_IO (fst <$> r))) in Hr.
    etrans; [symmetry; exact Hr|]. vm_compute. reflexivity.
Defined.
