(* ===== verification/TsFcbProps.v ===== *)
(** * What the time-series store on a flash circular buffer promises

    And, for the witnesses, a device that holds at most [dev_room] entries,
    numbered from the first one ever written, with a build of the FCB backend
    on it. *)

From S2P Require Import Prelude Config Env FcbEnv Types Events CoreSpec Cursor TsFormat.
From S2P Require Import TsFormatSpec TsSpec TsStore TsOps TsFcb TsFcbSpec Sim.

(** ** A concrete flash circular buffer *)

Record sim_dev := { dev_first : nat; dev_log : list (list byte); dev_room : nat }.

(** A place: the number of the entry, and its length. *)
Record sim_loc := { loc_number : option nat; loc_len : nat }.

Record sim_fcb := { sf_ready : bool; sf_writing : option (sim_loc * option (list byte)) }.

#[global] Instance sim_loc_eq_dec : EqDecision sim_loc.
Proof. solve_decision. Defined.

Definition sim_off (l : sim_loc) : Z := Z.of_nat (default 0 (loc_number l)).

(** The entries from the one with number [n] on. *)
Definition log_from (d : sim_dev) (n : nat) : list (list byte) := drop (n - dev_first d) (dev_log d).

Definition loc_next (d : sim_dev) (l : sim_loc) : nat :=
  match loc_number l with None => dev_first d | Some n => Nat.max (dev_first d) (S n) end.

Definition entry_at (d : sim_dev) (l : sim_loc) : option (list byte) :=
  match loc_number l with
  | Some n =>
      match log_from d n with
      | data :: _ => if (dev_first d <=? n) && (length data =? loc_len l) then Some data else None
      | [] => None
      end
  | None => None
  end.

Abbreviation sim_x := (sim_fcb * sim_dev)%type.

Definition sim_append (len : nat) (x : sim_x) : (Z * sim_loc) * sim_x :=
  let l := {| loc_number := Some (dev_first x.2 + length (dev_log x.2)); loc_len := len |} in
  if length (dev_log x.2) <? dev_room x.2
  then ((0%Z, l), (x.1 <| sf_writing := Some (l, None) |>, x.2)) else (((- ENOSPC)%Z, l), x).

Definition sim_rotate (x : sim_x) : Z * sim_x :=
  (0%Z, (x.1, x.2 <| dev_first ::= S |> <| dev_log ::= drop 1 |>)).

Definition sim_write (off : Z) (data : list byte) (x : sim_x) : Z * sim_x :=
  match sf_writing x.1 with
  | Some (l, _) =>
      if (off =? sim_off l)%Z then (0%Z, (x.1 <| sf_writing := Some (l, Some data) |>, x.2))
      else ((- EIO)%Z, x)
  | None => ((- EIO)%Z, x)
  end.

Definition sim_finish (l : sim_loc) (x : sim_x) : Z * sim_x :=
  match sf_writing x.1 with
  | Some (l', Some data) =>
      if decide (l = l') then (0%Z, (x.1 <| sf_writing := None |>, x.2 <| dev_log ::= λ es, es ++ [data] |>))
      else ((- EINVAL)%Z, x)
  | _ => ((- EINVAL)%Z, x)
  end.

Definition sim_getnext (l : sim_loc) (x : sim_x) : (Z * sim_loc) * sim_x :=
  match log_from x.2 (loc_next x.2 l) with
  | data :: _ => ((0%Z, {| loc_number := Some (loc_next x.2 l); loc_len := length data |}), x)
  | [] => (((- ENOENT)%Z, l), x)
  end.

Definition sim_read (off : Z) (len : nat) (x : sim_x) : (Z * list byte) * sim_x :=
  match log_from x.2 (Z.to_nat off) with
  | data :: _ => ((0%Z, take len data), x)
  | [] => (((- EIO)%Z, []), x)
  end.

#[global] Instance sim_Fcb : Fcb sim_fcb sim_dev unit sim_loc := {|
  flash_area_get_sectors area n d := (0%Z, replicate n tt);
  fcb_zero := {| sf_ready := false; sf_writing := None |};
  fcb_entry_zero := {| loc_number := None; loc_len := 0 |};
  fcb_init area s sectors d := (0%Z, ({| sf_ready := true; sf_writing := None |}, d));
  fcb_append := sim_append;
  fcb_rotate := sim_rotate;
  fcb_append_finish := sim_finish;
  fcb_getnext := sim_getnext;
  fe_data_len := loc_len;
  FCB_ENTRY_FA_DATA_OFF := sim_off;
  flash_area_write := sim_write;
  flash_area_read := sim_read;
  fcb_entries := dev_log;
  fcb_ahead x l := log_from x.2 (loc_next x.2 l);
  fcb_at x := entry_at x.2;
  fcb_mounted x := sf_ready x.1 = true;
  fcb_writing x := sf_writing x.1;
  fcb_end_errno := (- ENOENT)%Z;
|}.

Lemma sim_loc_next_suffix d l data rest :
  log_from d (loc_next d l) = data :: rest →
  let l' := {| loc_number := Some (loc_next d l); loc_len := length data |} in
  log_from d (loc_next d l') = rest ∧ entry_at d l' = Some data.
Proof.
  intros H. assert (dev_first d ≤ loc_next d l) as Hle by (unfold loc_next; destruct (loc_number l); lia).
  cbv zeta. split.
  - unfold loc_next at 1. cbn [loc_number]. rewrite Nat.max_r by lia. unfold log_from in *.
    replace (S (loc_next d l) - dev_first d) with (loc_next d l - dev_first d + 1) by lia.
    by rewrite <- drop_drop, H.
  - unfold entry_at. cbn [loc_number loc_len]. rewrite H, Nat.eqb_refl.
    by rewrite (proj2 (Nat.leb_le _ _) Hle).
Qed.

#[global] Instance sim_FcbLaws : FcbLaws sim_fcb sim_dev unit sim_loc.
Proof.
  split; cbn.
  - auto.
  - intros x _. unfold log_from, loc_next. cbn. by rewrite Nat.sub_diag.
  - intros len x Hm. unfold sim_append. destruct (_ <? _); cbn; [split; [by split|by left]|].
    split; [done|by right].
  - intros x Hm. split; [|done]. split; [done|]. cbn. apply suffix_drop.
  - intros l w data x Hm Hw _. unfold sim_write. rewrite Hw, Z.eqb_refl. cbn. split; [by split|by left].
  - intros l data x Hm Hw. unfold sim_finish. rewrite Hw, decide_True by done. cbn. auto.
  - done.
  - intros l x Hm. unfold sim_getnext. destruct (log_from _ _) as [|data rest] eqn:Hd; cbn; [done|].
    split; [done|]. left. by destruct (sim_loc_next_suffix _ _ _ _ Hd).
  - intros l data x Hm. unfold entry_at, sim_read, sim_off. destruct (loc_number l) as [n|]; [|done].
    cbn. rewrite Nat2Z.id. destruct (log_from _ n) as [|e rest]; [done|].
    destruct (_ <=? n); cbn [andb]; [|done]. destruct (Nat.eqb_spec (length e) (loc_len l)) as [He|]; [|done].
    intros [= ->]. cbn. split; [done|]. left. by rewrite take_ge by lia.
Qed.

#[global] Instance sim_FcbLive : FcbLive sim_fcb sim_dev unit sim_loc.
Proof.
  split; cbn.
  - intros l x Hm. unfold sim_getnext. by destruct (log_from _ _).
  - intros l data x Hm. unfold entry_at, sim_read, sim_off. destruct (loc_number l) as [n|]; [|done].
    cbn. rewrite Nat2Z.id. by destruct (log_from _ n).
Qed.

(** ** A build and an instance *)

#[export] Instance sim_fcb_Config : Config := {|
  CONFIG_ZDB_KV := true;
  CONFIG_ZDB_KV_BACKEND_NVS := true;
  CONFIG_ZDB_KV_BACKEND_ZMS := false;
  CONFIG_ZDB_KV_PERSIST_INDEX := true;
  CONFIG_ZDB_TS := true;
  CONFIG_ZDB_TS_ROLLOVER := true;
  CONFIG_ZDB_TS_DELTA_ENCODING := false;
  CONFIG_ZDB_TS_AUTO_RECOVER := false;
  CONFIG_ZDB_DOC := false;
  CONFIG_ZDB_STATS := true;
  CONFIG_ZDB_EVENTING := true;
  CONFIG_ZDB_EVENTING_ZBUS := true;
  CONFIG_ZDB_FLATBUFFERS := true;
  CONFIG_FLATCC := true;
  CONFIG_ZDB_MAX_KEY_LEN := 48;
  CONFIG_ZDB_KV_INDEX_MAX_ENTRIES := 128;
  CONFIG_ZDB_TS_STREAM_NAME_MAX_LEN := 24;
  CONFIG_ZDB_TS_MAX_STREAMS := 2;
  CONFIG_ZDB_TS_INGEST_BUFFER_BYTES := 1024;
  CONFIG_ZDB_TS_INGEST_SLAB_BLOCK_SIZE := 1024;
  CONFIG_ZDB_TS_MAX_AGG_POINTS := 4096;
  CONFIG_ZDB_TS_MAX_RECOVERY_TRUNCATE_BYTES := 4096;
  CONFIG_ZDB_TS_ROLLOVER_SEGMENT_BYTES := 4096;
  CONFIG_ZDB_TS_ROLLOVER_MAX_SEGMENTS := 4;
  CONFIG_ZDB_TS_DIRNAME := s2b "zdb";
  CONFIG_ZDB_DOC_MAX_FIELD_NAME_LEN := 32;
  CONFIG_ZDB_DOC_MAX_STRING_LEN := 256;
  CONFIG_ZDB_DOC_MAX_BYTES_LEN := 4096;
  CONFIG_ZDB_DOC_MAX_FIELD_COUNT := 32;
  CONFIG_ZDB_SCAN_YIELD_EVERY_N := 64;
  CONFIG_ZDB_TS_BACKEND_LITTLEFS := false;
  CONFIG_ZDB_TS_BACKEND_FCB := true;
  CONFIG_ZDB_TS_FCB_SECTOR_COUNT := 4;
  CONFIG_ZDB_TS_FCB_FLASH_AREA_ID := 1;
  CONFIG_ZDB_KV_IO_SLAB_BLOCK_SIZE := 128;
  CONFIG_SHELL_CMD_BUFF_SIZE := 256;
  SIZE_WIDTH := 32;
  INT64_CAST_OVERFLOW := λ _, (- 2 ^ 63)%Z;
  STRTOD_TINY_ERANGE := λ _, true;
  BUFFER_OVERRUN := take;
|}.

#[export] Instance sim_fcb_ConfigOk : ConfigOk sim_fcb_Config.
Proof. split; simpl; lia || done. Qed.

(** A fresh instance whose device holds the samples of [log] and has room for
    three; then the world after streams have been opened in it. *)
Definition sim_fcb_w (log : list zdb_ts_sample_i64_t) :
    world sim_kernel sim_kv (fcb_store sim_fcb sim_dev unit) :=
  mkWorld sim_db sim_k0 ∅
    {| ts_fcb := fcb_zero; ts_fcb_sectors := []; fcb_initialized := false;
       flash := {| dev_first := 0; dev_log := map zdb_ts_record_encode log; dev_room := 3 |} |} [].

Definition sim_open (name : cstring) (w : world sim_kernel sim_kv (fcb_store sim_fcb sim_dev unit)) :=
  (fcb_ts_open (Some the_db) (Some name) (Some {| ts_db := None; ts_stream_name := None |}) w).2.

(** ** The properties *)

Section props.
Context {Cfg : Config} {CfgOk : ConfigOk Cfg} {K F B D Sec L : Type}.
Context `{!Kernel K, !KernelLaws K, !Fcb B D Sec L, !FcbLaws B D Sec L}.
Context {CRC : Crc32} {CRCLaws : Crc32Laws}.
Implicit Types w : world K F (fcb_store B D Sec).

(** C23. On the flash circular buffer an append, of a sample or of a batch,
    stores a prefix of what it is given behind what is there, all of it when it
    reports [ZDB_OK]: then the last sample stored is the last one given.
    Without rollover nothing stored is ever lost, whatever the append reports;
    with it only the oldest samples are. *)
Theorem fcb_append_refines name x samples xs w :
  holds (w_fs w) xs → Forall sample_ok (x :: samples) →
  let leaves given st w' := ∃ new ys,
    holds (w_fs w') ys ∧ ys `suffix_of` xs ++ new ∧ (ZDB_TS_SEGMENTED = false → ys = xs ++ new) ∧
    new `prefix_of` given ∧ (st = ZDB_OK → new = given ∧ last ys = last given) in
  wp (fcb_ts_append_i64 (handle name) (Some x)) (leaves [x]) w ∧
  wp (fcb_ts_append_batch_i64 (handle name) (Some (x :: samples))) (leaves (x :: samples)) w.
Proof.
  intros Hh Hs leaves.
  assert (∀ y given st w', appended xs (y :: given) st w' → leaves (y :: given) st w') as Hw.
  { intros y given st w' (new & ys & Hys & [Hsuf Hall] & Hpre & Hok). exists new, ys.
    split_and!; [done..|]. intros [-> Hl]%Hok. split; [done|]. rewrite Hl, last_app.
    destruct (last (y :: given)) eqn:Hlast; [done|]. by apply last_None in Hlast. }
  split; (eapply wp_mono; [|intros st w'; apply Hw]).
  - apply wp_fcb_append; [done|]. by apply Forall_cons in Hs as [? _].
  - by apply wp_fcb_batch.
Qed.

(** C24. On a flash circular buffer that only one stream has written to, a
    cursor opened on that stream yields its samples: of those it was given, the
    newest that are still there (all of them without rollover, and always the
    last), as the window and the predicate admit them, once, oldest first; then
    it reports the library's end of the data. Asking for samples to the end
    ends. *)
Theorem fcb_cursor_walks `{!FcbLive B D Sec L} name wi p out given n fuel w :
  sole_writer name given w → fcb_ready w → length given < fuel → length given < n →
  ∃ xs, store_log (w_fs w) = map zdb_ts_record_encode xs ∧
  xs `suffix_of` given ∧ last xs = last given ∧ (ZDB_TS_SEGMENTED = false → xs = given) ∧
  wp (fcb_ts_cursor_open (handle name) wi p (Some out))
    (λ r w', r.1 = ZDB_OK → ∃ cu, r.2 = Some cu ∧
       wp (fcb_collect n fuel cu) (λ r' _,
         r' = Some (zdb_status_from_errno fcb_end_errno,
                    List.filter (λ x, zdb_ts_window_match wi (ts_ms x) &&
                      match p with
                      | None => true
                      | Some p => p ZDB_MODEL_TS (zdb_ts_record_encode x)
                      end) xs)) w') w.
Proof.
  intros Hw Hr Hfuel Hn. destruct (sole_writer_holds _ _ _ Hw) as (xs & Hh & Hsuf & Hlast & Hall).
  pose proof (suffix_length _ _ Hsuf). exists xs. split_and!; [apply Hh|done..|].
  apply wp_fcb_walk; [by apply fcb_ready_serving|lia..].
Qed.
End props.

(** ** Witnesses *)

Definition fcb_sample (n : Z) : zdb_ts_sample_i64_t := {| ts_ms := 1000 + n; value := - n |}.

Definition fcb_w0 := sim_fcb_w (map fcb_sample [1; 2]%Z).
Definition fcb_w1 := sim_open (s2b "a") fcb_w0.

(** The device has room for three samples: the second of the batch makes the
    oldest one go. *)
Lemma fcb_append_refines_witness :
  let r := fcb_ts_append_batch_i64 (handle (s2b "a")) (Some [fcb_sample 3; fcb_sample 4]) fcb_w1 in
  r.1 = ZDB_OK ∧ ∃ ys, store_log (w_fs r.2) = map zdb_ts_record_encode ys ∧
    ys `suffix_of` map fcb_sample [1; 2; 3; 4]%Z ∧ last ys = Some (fcb_sample 4).
Proof.
  cbv zeta. split; [vm_compute; reflexivity|].
  destruct (fcb_append_refines (s2b "a") (fcb_sample 3) [fcb_sample 4] (map fcb_sample [1; 2]%Z) fcb_w1)
    as [_ (new & ys & (_ & _ & Hys) & Hsuf & _ & _ & Hok)].
  - split_and!; [intros _; vm_compute; reflexivity|repeat constructor; vm_compute; done|].
    apply (bool_decide_unpack _). vm_compute. exact I.
  - repeat constructor; vm_compute; done.
  - destruct Hok as [-> Hl]; [vm_compute; reflexivity|]. exists ys. split; [exact Hys|]. split; [exact Hsuf|exact Hl].
Defined.

Definition fcb_cursor : zdb_cursor_t (fcb_walk sim_loc) :=
  {| cu_model := ZDB_MODEL_CORE; cu_backend := ZDB_BACKEND_NONE; cu_flags := 0; iter_count := 0;
     cu_position := 0; cu_current := None; cu_predicate := None; cu_impl := None |}.

(** The stream "a" is opened on an empty device and given three samples; two of
    them are in the window. *)
Definition fcb_w2 := sim_open (s2b "a") (sim_fcb_w []).
Definition fcb_w3 :=
  (fcb_ts_append_batch_i64 (handle (s2b "a")) (Some (map fcb_sample [1; 2; 3]%Z)) fcb_w2).2.

Lemma fcb_cursor_walks_witness :
  let r := fcb_ts_cursor_open (handle (s2b "a")) {| from_ts_ms := 1002; to_ts_ms := 1003 |} None
             (Some fcb_cursor) fcb_w3 in
  r.1.1 = ZDB_OK ∧ ∃ cu, r.1.2 = Some cu ∧
    (fcb_collect 4 4 cu r.2).1 = Some (ZDB_ERR_NOT_FOUND, map fcb_sample [2; 3]%Z).
Proof.
  cbv zeta. split; [vm_compute; reflexivity|].
  destruct (fcb_cursor_walks (s2b "a") {| from_ts_ms := 1002; to_ts_ms := 1003 |} None fcb_cursor
    (map fcb_sample [1; 2; 3]%Z) 4 4 fcb_w3) as (xs & Hlog & [k Hk] & _ & _ & Hwalk).
  - apply (sole_batch _ [] (fcb_sample 1) (map fcb_sample [2; 3]%Z) fcb_w2).
    + apply sole_empty. split_and!; [intros _; vm_compute; reflexivity|constructor|vm_compute; reflexivity].
    + repeat constructor; vm_compute; done.
    + apply surjective_pairing.
  - split; [vm_compute; reflexivity|vm_compute; by eexists..].
  - apply (bool_decide_unpack _). vm_compute. exact I.
  - apply (bool_decide_unpack _). vm_compute. exact I.
  - assert (length xs = 3) as Hlen.
    { rewrite <- (length_map zdb_ts_record_encode xs), <- Hlog. vm_compute. reflexivity. }
    apply (f_equal length) in Hk as Hkl. rewrite length_app, Hlen in Hkl.
    destruct k; [|simpl in Hkl; lia]. simpl in Hk. subst xs.
    destruct Hwalk as (cu & Hcu & H); [vm_compute; reflexivity|].
    exists cu. split; [exact Hcu|]. etrans; [exact H|]. vm_compute. reflexivity.
Defined.
