(* ===== verification/DocProps.v ===== *)
(** * The properties of documents

    The handle as a typed map of fields, its memory, the store of documents
    that saves, opens and deletes implement, and the match of a query. *)

From S2P Require Import Prelude Config Env Types FsEnv FsSpec Events Doubles Doc DocFile DocQuery.
From S2P Require Import DocSpec DocFieldSpec DocHandleSpec DocMatchSpec DocDecode DocStep DocSaveSpec.
From S2P Require Import DocOpenSpec DocOps DocQuerySpec DocQueryAll Sim SimFs SimData.

Section props.
Context {Cfg : Config} {CfgOk : ConfigOk Cfg} {K F FS FH DH : Type}.
Context `{!Kernel K, !KernelLaws K, !FileSys FS FH DH, !FileSysLaws FS FH DH}.
Context {CRC : Crc32} {CRCLaws : Crc32Laws}.
Abbreviation W := (world K F FS).
Implicit Types (w : W) (d : zdb_doc_t) (c : zdb_cfg_t).

(** C28. A save that reports success replaces what is stored for its document
    by the handle's fields and timestamps and touches no other document; a save
    that fails changes no stored document, where rename replaces its
    destination, and never another document. Either way the handle differs from
    the one passed in its time of update only. *)
Theorem doc_save_refines c coll id d w :
  doc_ok d → cfg (w_db w) = Some c → collection_name d = Some coll → document_id d = Some id →
  doc_names_valid coll id = true →
  wp (zdb_doc_save (Some d)) (λ r w',
    ∃ now, let d' := d <| updated_ms := now |> in
      r.2 = Some d' ∧ u64_ok now ∧ doc_step 0 0 w w' ∧ others_kept c coll id w w' ∧
      if bool_decide (r.1 = ZDB_OK) then stored c w' coll id = Some (contents_of d')
      else FsReplace FS FH DH → stored c w' coll id = stored c w coll id) w.
Proof.
  intros Hd Hcfg Hc Hi Hv. eapply wp_doc_save; [done..|].
  intros st d' w' [(now & Hnow & ->) Hs Hdone Hfail _]. exists now. cbv zeta.
  split_and!; [done|done|done| |]; cbn [fst snd].
  - apply others_kept_files; [done|]. intros q Hq Hq'. destruct (decide (st = ZDB_OK)) as [Hst|Hst].
    + rewrite (Hdone Hst), lookup_insert_ne, lookup_delete_ne by done. done.
    + by apply (proj1 (Hfail Hst)).
  - case_bool_decide as Hst.
    + unfold stored. rewrite (Hdone Hst), lookup_insert_eq. by apply dec_saved, doc_ok_saved.
    + intros Hr. unfold stored. destruct (Hfail Hst) as [_ Hkept].
      f_equal. apply (Hkept Hr), doc_file_tmp_ne.
Qed.

(** C29. An open that succeeds hands out a well-formed handle with exactly the
    contents stored for the document, which are the ones stored before or, when
    the document had no file, those of a complete staging file; an open that
    fails keeps no memory and changes no document. No open changes another
    document, and one of a readable document succeeds. *)
Theorem doc_open_refines c coll id out w :
  cfg (w_db w) = Some c → c_string coll → c_string id →
  wp (zdb_doc_open (Some the_db) (Some coll) (Some id) (Some out)) (λ r w',
    if bool_decide (r.1 = ZDB_OK) then
      ∃ d ct, r.2 = Some d ∧ opened_as coll id ct d ∧ doc_step 0 (doc_blocks d) w w' ∧
        stored c w' coll id = Some ct ∧ others_kept c coll id w w' ∧
        (FsLive FS FH DH → is_Some (files w !! doc_file c coll id ZDB_DOC_FILE_EXT) →
           stored c w coll id = Some ct)
    else doc_step 0 0 w w' ∧ files w' = files w ∧
      ¬ (LockLive K ∧ can_open c coll id w ∧ doc_names_valid coll id = true)) w.
Proof.
  intros Hcfg Hcs Hids. eapply wp_open_impl; [done..| |].
  - intros d ct w' Hoa (data & Hdec & Hsrc) Hs Hv. cbn [fst snd]. rewrite bool_decide_true by done.
    exists d, ct. unfold stored. destruct Hsrc as [[Hf Hsame]|(Hf & Habs & Hnew)].
    + rewrite Hsame. split_and!; [done..| | |intros _ _]; try (by rewrite Hf).
      by apply others_kept_files; [|intros; rewrite Hsame].
    + rewrite Hnew, lookup_insert_eq. split_and!; [done..| |].
      * apply others_kept_files; [done|]. intros q Hq Hq'. by rewrite Hnew, lookup_insert_ne, lookup_delete_ne.
      * intros HF [? Hs']. by rewrite (Habs HF) in Hs'.
  - intros st d' w' Hst Hs Hf Hlive. cbn [fst snd]. rewrite bool_decide_false by done.
    split_and!; [done|done|]. intros (Hl & Hcan & Hv). by apply Hlive.
Qed.

(** C30. A document that was saved is read back: on a volume with room and a
    heap that serves, saving and then opening both succeed, and every field,
    the creation time and the time of the save come back as they were; a string
    or byte field that holds nothing comes back empty. *)
Theorem doc_save_open_roundtrip c coll id d out w :
  LockLive K → FsRoom FS FH DH → HeapLive K →
  doc_ok d → cfg (w_db w) = Some c → collection_name d = Some coll → document_id d = Some id →
  doc_names_valid coll id = true → storable c coll id → c_string coll → c_string id →
  wp (r1 ← zdb_doc_save (Some d); r2 ← zdb_doc_open (Some the_db) (Some coll) (Some id) (Some out); ret (r1, r2))
    (λ r _, ∃ d1 d2, r.1 = (ZDB_OK, Some d1) ∧ r.2 = (ZDB_OK, Some d2) ∧
       created_ms d2 = created_ms d ∧ updated_ms d2 = updated_ms d1 ∧
       ∀ name, doc_lookup d2 name = (λ tv, (tv.1, stored_value tv.1 tv.2)) <$> doc_lookup d name) w.
Proof.
  intros HL HR HH Hd Hcfg Hc Hi Hv Hst Hcs Hids. apply wp_bind. eapply wp_doc_save; [done..|].
  intros st d1 w1 [(now & Hnow & ->) Hs Hdone _ Hlive]. specialize (Hlive HL HR Hst). subst st.
  set (d1 := d <| updated_ms := now |>) in *. specialize (Hdone eq_refl).
  assert (doc_ok d1) as Hd1 by by apply doc_ok_saved.
  assert (files w1 !! doc_file c coll id ZDB_DOC_FILE_EXT = Some (doc_bytes d1)) as Hf.
  { rewrite Hdone. apply lookup_insert_eq. }
  apply wp_bind. eapply (wp_open_impl true c); [|done..| |].
  { by rewrite (published_cfg _ _ (ds_db _ _ _ _ Hs)). }
  - intros d2 ct w2 [Hok Hfields Hcr Hup _ _] (data & Hdec & Hsrc) _ _. apply wp_ret. exists d1, d2.
    assert (ct = contents_of d1) as ->.
    { destruct Hsrc as [[Hf' _]|(_ & Habs & _)]; [|by rewrite Habs in Hf by apply HR].
      rewrite Hf in Hf'. injection Hf' as <-. rewrite dec_saved in Hdec by done. by injection Hdec. }
    cbn [ct_fields ct_created ct_updated contents_of] in *. split_and!; [done|done|done|done|].
    intros name. change (doc_lookup d name) with (doc_lookup d1 name). apply reread_lookup; [done|].
    rewrite Hfields. by apply put_all_stored.
  - intros st d2 w2 _ _ _ Hno. exfalso. apply Hno; [done| |done]. split_and!; [done|done|].
    exists (doc_bytes d1). rewrite dec_saved by done. split; [done|]. left. split; [apply HR|done].
Qed.

(** C31. An interrupted save is finished by the next open: when the document's
    file is missing and its staging file is complete, opening succeeds with the
    contents that were being saved, stores them as the document and removes the
    staging file. *)
Theorem doc_open_finishes_save c coll id d out w :
  LockLive K → FsRoom FS FH DH → FsMissing FS FH DH → HeapLive K →
  doc_ok d → cfg (w_db w) = Some c → doc_names_valid coll id = true → storable c coll id →
  c_string coll → c_string id →
  files w !! doc_file c coll id ZDB_DOC_FILE_EXT = None →
  files w !! doc_file c coll id ZDB_DOC_TMP_EXT = Some (doc_bytes d) →
  wp (zdb_doc_open (Some the_db) (Some coll) (Some id) (Some out)) (λ r w',
    ∃ d', r = (ZDB_OK, Some d') ∧ opened_as coll id (contents_of d) d' ∧
      stored c w' coll id = Some (contents_of d) ∧
      files w' !! doc_file c coll id ZDB_DOC_TMP_EXT = None) w.
Proof.
  intros HL HR HM HH Hd Hcfg Hv Hst Hcs Hids Habs Htmp. eapply wp_open_impl; [done..| |].
  - intros d' ct w' Hoa (data & Hdec & Hsrc) _ _. destruct Hsrc as [[Hf _]|(Hf & _ & Hnew)]; [congruence|].
    rewrite Htmp in Hf. injection Hf as <-. rewrite dec_saved in Hdec by done. injection Hdec as <-.
    exists d'. unfold stored. rewrite Hnew, lookup_insert_eq. split_and!; [done|done|by apply dec_saved|].
    rewrite lookup_insert_ne by apply doc_file_tmp_ne. apply lookup_delete_eq.
  - intros st d' w' _ _ _ Hno. exfalso. apply Hno; [done| |done]. split_and!; [done|done|].
    exists (doc_bytes d). rewrite dec_saved by done. split; [done|]. by right.
Qed.

(** C32. A delete that reports success removes the document, one that fails
    changes no stored document, [ZDB_ERR_NOT_FOUND] is reported for a document
    without a file only, and no other document is touched. Deleting a stored
    document on a volume that works removes its staging file too, so that no
    later open brings it back. *)
Theorem doc_delete_refines c coll id out w :
  cfg (w_db w) = Some c → doc_names_valid coll id = true → c_string coll → c_string id →
  wp (zdb_doc_delete (Some the_db) (Some coll) (Some id)) (λ st w',
    doc_step 0 0 w w' ∧ others_kept c coll id w w' ∧
    stored c w' coll id = (if bool_decide (st = ZDB_OK) then None else stored c w coll id) ∧
    (st = ZDB_ERR_NOT_FOUND → stored c w coll id = None) ∧
    (LockLive K → FsRoom FS FH DH → storable c coll id → is_Some (stored c w coll id) →
       st = ZDB_OK ∧
       wp (zdb_doc_open (Some the_db) (Some coll) (Some id) (Some out)) (λ r _, r.1 ≠ ZDB_OK) w')) w.
Proof.
  intros Hcfg Hv Hcs Hids. eapply wp_doc_delete; [done|]. intros st w' [Hs Ho Hd Hf Hn Hl].
  split_and!; [done|by apply others_kept_files| | |].
  - unfold stored. case_bool_decide as Hst; [by rewrite Hd|by rewrite Hf].
  - intros Hst. unfold stored. by rewrite Hn.
  - intros HL HR Hst Hsome. destruct (Hl HL HR Hv Hst) as [Htmp Hdone].
    assert (st = ZDB_OK) as ->.
    { apply Hdone. unfold stored in Hsome. destruct (files w !! _); [by eexists|by destruct Hsome]. }
    split; [done|]. eapply wp_open_impl; [by rewrite (published_cfg _ _ (ds_db _ _ _ _ Hs))|done..| |].
    + intros d ct w2 _ (data & _ & [[Hf2 _]|(Hf2 & _)]); [by rewrite Hd in Hf2|congruence].
    + by intros.
Qed.

(** C33. A setter that succeeds puts its value under its name: the getter of
    that type reads it back and every other field reads as before. A setter
    that fails leaves every field as it was, except that a string or byte field
    that is new or had another type is left empty when its copy cannot be
    allocated. With memory, a valid name and room in the array, it succeeds. *)
Theorem doc_set_get d name x w :
  doc_ok d → doc_blocks d ≤ heap_used (w_k w) → c_string name → write_ok x →
  wp (run_write d name x) (λ r w',
    ∃ d', r.2 = Some d' ∧ held (doc_blocks d) (doc_blocks d') w w' ∧
      (r.1 = ZDB_OK → reads_back d' name x) ∧
      (∀ name', name' ≠ name → answers d' name' = answers d name') ∧
      (r.1 ≠ ZDB_OK → answers d' name = answers d name ∨
         doc_lookup d' name = Some (write_type x, V_zero)) ∧
      (HeapLive K → name_ok name → value_ok (write_type x) (write_value x) →
         is_Some (doc_lookup d name) ∨ field_count d < max_fields d → r.1 = ZDB_OK)) w.
Proof.
  intros Hd Hh Hn Hx. apply wp_run_write; [done..|]. intros st d' w' [Hok Hheld _ Hdone Hfail Hlive _].
  cbn [fst snd]. exists d'. split_and!; [done|done|..].
  - intros Hst. destruct (Hdone Hst) as [_ Hp]. exact (lookup_reads_back _ _ _ (puts_lookup _ _ _ _ _ Hd Hp)).
  - intros name' Hne. apply same_answers. destruct (decide (st = ZDB_OK)) as [Hst|Hst].
    + destruct (Hdone Hst) as [_ Hp]. exact (puts_lookup_ne _ _ _ _ _ _ Hd Hp Hne).
    + destruct (Hfail Hst) as [_ [->|[Hsame|[Hp _]]]]; [done| |exact (puts_lookup_ne _ _ _ _ _ _ Hd Hp Hne)].
      unfold doc_lookup. by rewrite Hsame.
  - intros Hst. destruct (Hfail Hst) as [_ [->|[Hsame|[Hp _]]]]; [by left| |right; exact (puts_lookup _ _ _ _ _ Hd Hp)].
    left. apply same_answers. unfold doc_lookup. by rewrite Hsame.
  - exact Hlive.
Qed.

(** C34. A handle is well-typed all its life: after creating a document and any
    sequence of writes, whatever each reports, the fields have distinct names
    of valid length, at most the configured number of them, each with a value
    of its type within the configured limits. Every block of memory taken is
    one the handle owns, and closing it gives all of them back. *)
Theorem doc_handle_typed coll id out l w :
  c_string coll → c_string id → Forall (λ e, c_string e.1 ∧ write_ok e.2) l →
  wp (zdb_doc_create (Some the_db) (Some coll) (Some id) (Some out)) (λ r w1,
    if bool_decide (r.1 = ZDB_OK) then
      ∃ d, r.2 = Some d ∧ doc_fields d = [] ∧ wp (run_writes l d) (λ d' w2,
        NoDup (map fd_name (doc_fields d')) ∧
        length (doc_fields d') ≤ CONFIG_ZDB_DOC_MAX_FIELD_COUNT ∧
        Forall (λ f, (∃ n, fd_name f = Some n ∧ name_ok n) ∧ value_ok (fd_type f) (fd_value f)) (doc_fields d') ∧
        heap_used (w_k w2) = heap_used (w_k w) + doc_blocks d' ∧
        wp (zdb_doc_close (Some d')) (λ r3 w3, r3.1 = ZDB_OK ∧ heap_used (w_k w3) = heap_used (w_k w)) w2) w1
    else heap_used (w_k w1) = heap_used (w_k w)) w.
Proof.
  intros Hcs Hids Hl. apply wp_doc_create; [done..| |].
  - intros st d w1 Hst H1 _ _. cbn [fst snd]. rewrite bool_decide_false by done.
    pose proof (he_heap _ _ _ _ H1). lia.
  - intros d w1 Hfr _ _ H1 _. cbn [fst snd]. rewrite bool_decide_true by done.
    rewrite <- (fr_blocks _ _ _ Hfr) in H1. pose proof (he_heap _ _ _ _ H1) as Hh1.
    exists d. split_and!; [done|apply Hfr|]. apply wp_run_writes; [apply Hfr|lia|done|].
    intros d' w2 Hok H2 _ _. pose proof (he_heap _ _ _ _ H2) as Hh2.
    split_and!; [apply Hok| |apply Hok|lia|].
    + rewrite length_doc_fields, <- (dk_max _ Hok) by done. apply Hok.
    + apply wp_doc_close; [done|lia|]. intros d3 w3 _ H3 _. cbn [fst]. split; [done|].
      pose proof (he_heap _ _ _ _ H3). lia.
Qed.

(** C35. The match of a query is the one its documentation describes: the
    document was updated within the window, and for every filter it has a field
    of that name and type whose value is the filter's. Integers are compared
    with numeric filters as numbers, without rounding or overflow, for every
    filter but [2^63]. *)
Theorem doc_matches_query_spec d q :
  doc_ok d → Forall filter_ok (default [] (qu_filters q)) →
  zdb_doc_matches_query d q = true ↔ doc_satisfies d q.
Proof.
  intros Hd Hf. unfold zdb_doc_matches_query, doc_satisfies.
  destruct (negb (qu_from_ms q =? 0)%Z && _) eqn:Hfrom.
  { split; [done|]. intros (H & _). apply andb_true_iff in Hfrom as [?%negb_true_iff%Z.eqb_neq ?%Z.ltb_lt].
    destruct H; lia. }
  apply window_spec in Hfrom as Hfrom'. rewrite Z.ltb_ge in Hfrom'.
  destruct (negb (qu_to_ms q =? 0)%Z && _) eqn:Hto.
  { split; [done|]. intros (_ & H & _). apply andb_true_iff in Hto as [?%negb_true_iff%Z.eqb_neq ?%Z.ltb_lt].
    destruct H; lia. }
  apply window_spec in Hto as Hto'. rewrite Z.ltb_ge in Hto'.
  set (fs := take (qu_filter_count q) (default [] (qu_filters q))) in *.
  assert (∀ f, f ∈ fs → filter_ok f) as Hok.
  { intros f Hin. rewrite Forall_forall in Hf. apply Hf. by eapply subseteq_take. }
  destruct ((0 <? qu_filter_count q) && bool_decide (qu_filters q = None)) eqn:Hnull.
  { split; [done|]. apply andb_true_iff in Hnull as [?%Nat.ltb_lt ?%bool_decide_eq_true].
    intros (_ & _ & Hnn & _). by destruct Hnn. }
  apply andb_false_iff in Hnull as Hnull'. rewrite Nat.ltb_ge, bool_decide_eq_false in Hnull'.
  rewrite forallb_forall. split.
  - intros Hall. split_and!; [done|done|destruct Hnull'; [lia|done]|]. intros f Hin.
    apply any_field_match; [done|by apply Hok|]. by apply Hall, list_elem_of_In.
  - intros (_ & _ & _ & Hall) f Hin%list_elem_of_In. apply any_field_match; [done|by apply Hok|by apply Hall].
Qed.

(** C36. What a query reports is right: every entry is the metadata of a
    document that satisfies the query, of one that is stored, where reading
    does not fail; there are at most as many as the caller's array and the
    query's limit allow, and the count is theirs. The query changes no file,
    holds no lock afterwards, and all the memory it takes is in the entries:
    releasing them gives it back. And nothing is missed: where the volume
    answers and there is memory, the documents found are each found once, the
    count is their number, and unless the limit or the array is full every
    stored document that matches is among them. *)
Theorem doc_query_answers c q out capacity w :
  cfg (w_db w) = Some c → (0 ≤ qu_limit q < 2 ^ 32)%Z →
  wp (zdb_doc_query (Some the_db) (Some q) out (Some capacity)) (λ r w',
    let l := r.1.2 in
    (Forall (reported c q w) l ∧ length l ≤ (if out then capacity else 0) ∧
     (qu_limit q ≠ 0%Z → (length l ≤ qu_limit q)%Z) ∧ (FsLive FS FH DH → files w' = files w) ∧
     (r.1.1 = ZDB_OK → ∃ n, r.2 = Some n ∧ (out = true → 0 < capacity → n = length l) ∧
        (qu_limit q ≠ 0%Z → (n ≤ qu_limit q)%Z)) ∧
     (r.1.1 ≠ ZDB_OK → l = []) ∧
     wp (zdb_doc_metadata_free (Some l) (length l)) (λ r2 w2, r2.1 = ZDB_OK ∧ doc_step 0 0 w w2) w') ∧
    (LockLive K → HeapLive K → FsLive FS FH DH → FsDirLive FS FH DH →
     ∃ found, answers_all c q out capacity w found r.1.1 l r.2)) w.
Proof.
  intros Hcfg Hq. apply wp_and; cycle 1.
  { intros Hlock Hheap Hlive Hdirs.
    change (wp (zdb_doc_query (Some the_db) (Some q) out (Some capacity))
      (λ r _, ∃ found, answers_all c q out capacity w found r.1.1 r.1.2 r.2) w).
    eapply wp_query_all; [done..|]. intros found st l count w' Ha. by exists found. }
  eapply wp_doc_query; [done|done|].
  intros st l count w' [Hs Hf Hr Hc Hl Hn He]. cbn [fst snd]. cbv zeta.
  split_and!; [done..|]. pose proof (reported_blocks _ _ _ _ Hr) as Hb. pose proof (ds_heap _ _ _ _ Hs).
  unfold zdb_doc_metadata_free. rewrite bool_decide_false by done. cbn [andb].
  change (default [] (Some l)) with l. rewrite take_ge by done.
  apply wp_bind, wp_free_entries; [lia|]. intros w2 H2. apply wp_ret. split; [done|].
  rewrite Hb in H2. eapply doc_step_trans; [exact Hs|by apply doc_step_held].
Qed.
End props.

(** ** The properties at work *)

Lemma doc_save_refines_witness :
  let r := zdb_doc_save (Some sim_doc) (sim_doc_w ∅) in
  r.1.1 = ZDB_OK ∧ ∃ now, stored sim_cfg r.2 sim_coll sim_id = Some (contents_of (sim_doc <| updated_ms := now |>)).
Proof.
  cbv zeta. split; [vm_compute; reflexivity|].
  pose proof (doc_save_refines sim_cfg sim_coll sim_id sim_doc (sim_doc_w ∅) sim_doc_ok eq_refl eq_refl eq_refl
    sim_names_valid) as H. unfold wp in H. destruct H as (now & _ & _ & _ & _ & H).
  assert (bool_decide ((zdb_doc_save (Some sim_doc) (sim_doc_w ∅)).1.1 = ZDB_OK) = true) as Hok
    by (vm_compute; reflexivity).
  rewrite Hok in H. exists now. exact H.
Defined.

Lemma doc_open_refines_witness :
  let r := zdb_doc_open (Some the_db) (Some sim_coll) (Some sim_id) (Some sim_no_doc)
             (sim_doc_w {[sim_path := doc_bytes sim_doc]}) in
  ∃ d ct, r.1.2 = Some d ∧ opened_as sim_coll sim_id ct d.
Proof.
  cbv zeta.
  destruct (wp_if_ok _ fst _ _ _ (doc_open_refines sim_cfg sim_coll sim_id sim_no_doc
    (sim_doc_w {[sim_path := doc_bytes sim_doc]}) eq_refl sim_coll_string sim_id_string))
    as (d & ct & H1 & H2 & _); [vm_compute; reflexivity|].
  exists d, ct. split; [exact H1|exact H2].
Defined.

Lemma doc_save_open_roundtrip_witness :
  let r := (r1 ← zdb_doc_save (Some sim_doc);
            r2 ← zdb_doc_open (Some the_db) (Some sim_coll) (Some sim_id) (Some sim_no_doc);
            ret (r1, r2)) (sim_doc_w ∅) in
  ∃ d2, r.1.2 = (ZDB_OK, Some d2) ∧
    doc_lookup d2 (s2b "n") = Some (ZDB_DOC_FIELD_INT64, V_i64 (-42)) ∧
    doc_lookup d2 (s2b "s") = Some (ZDB_DOC_FIELD_STRING, V_str (Some (s2b "hi"))).
Proof.
  cbv zeta.
  destruct (doc_save_open_roundtrip sim_cfg sim_coll sim_id sim_doc sim_no_doc (sim_doc_w ∅))
    as (d1 & d2 & _ & H2 & _ & _ & H); [apply _|apply _|apply _|exact sim_doc_ok|reflexivity|reflexivity|reflexivity
      |exact sim_names_valid|exact sim_storable|exact sim_coll_string|exact sim_id_string|].
  exists d2. split; [exact H2|]. split; rewrite H; reflexivity.
Defined.

Lemma doc_open_finishes_save_witness :
  let r := zdb_doc_open (Some the_db) (Some sim_coll) (Some sim_id) (Some sim_no_doc)
             (sim_doc_w {[sim_tmp := doc_bytes sim_doc]}) in
  r.1.1 = ZDB_OK ∧ stored sim_cfg r.2 sim_coll sim_id = Some (contents_of sim_doc).
Proof.
  cbv zeta.
  destruct (doc_open_finishes_save sim_cfg sim_coll sim_id sim_doc sim_no_doc
    (sim_doc_w {[sim_tmp := doc_bytes sim_doc]})) as (d' & H1 & _ & H3 & _);
    [apply _|apply _|apply _|apply _|exact sim_doc_ok|reflexivity|exact sim_names_valid
      |exact sim_storable|exact sim_coll_string|exact sim_id_string| | |].
  - apply lookup_singleton_ne. apply not_eq_sym, doc_file_tmp_ne.
  - apply lookup_singleton_eq.
  - split; [exact (f_equal fst H1)|exact H3].
Defined.

Lemma doc_delete_refines_witness :
  let r := zdb_doc_delete (Some the_db) (Some sim_coll) (Some sim_id)
             (sim_doc_w {[sim_path := doc_bytes sim_doc]}) in
  r.1 = ZDB_OK ∧ stored sim_cfg r.2 sim_coll sim_id = None.
Proof.
  cbv zeta. split; [vm_compute; reflexivity|].
  destruct (doc_delete_refines sim_cfg sim_coll sim_id sim_no_doc (sim_doc_w {[sim_path := doc_bytes sim_doc]}))
    as (_ & _ & H & _); [reflexivity|exact sim_names_valid|exact sim_coll_string|exact sim_id_string|].
  rewrite H, bool_decide_true; [reflexivity|vm_compute; reflexivity].
Defined.

Lemma doc_set_get_witness :
  let r := run_write sim_doc (s2b "n") (Write_string (s2b "new")) (sim_doc_w ∅) in
  r.1.1 = ZDB_OK ∧ ∃ d', r.1.2 = Some d' ∧ reads_back d' (s2b "n") (Write_string (s2b "new")).
Proof.
  cbv zeta. split; [vm_compute; reflexivity|].
  destruct (doc_set_get sim_doc (s2b "n") (Write_string (s2b "new")) (sim_doc_w ∅) sim_doc_ok)
    as (d' & H1 & _ & H2 & _); [apply (bool_decide_unpack _); vm_compute; exact I|apply (bool_decide_unpack _); vm_compute; exact I..|].
  exists d'. split; [exact H1|]. apply H2. vm_compute. reflexivity.
Defined.

Lemma doc_handle_typed_witness :
  let r := zdb_doc_create (Some the_db) (Some sim_coll) (Some sim_id) (Some sim_no_doc) (sim_doc_w ∅) in
  ∃ d, r.1.2 = Some d ∧
    wp (run_writes [(s2b "a", Write_i64 1); (s2b "a", Write_bytes [nul])] d)
      (λ d' _, NoDup (map fd_name (doc_fields d'))) r.2.
Proof.
  cbv zeta.
  destruct (wp_if_ok _ fst _ _ _ (doc_handle_typed sim_coll sim_id sim_no_doc
    [(s2b "a", Write_i64 1); (s2b "a", Write_bytes [nul])] (sim_doc_w ∅) sim_coll_string sim_id_string
    ltac:(repeat constructor; apply (bool_decide_unpack _); vm_compute; exact I)))
    as (d & H1 & _ & H2); [vm_compute; reflexivity|].
  exists d. split; [exact H1|]. eapply wp_mono; [exact H2|]. intros d' w' [H _]. exact H.
Defined.

Definition sim_query : zdb_doc_query_t :=
  {| qu_filters := Some [{| qf_field_name := Some (s2b "n"); qf_type := ZDB_DOC_FIELD_INT64;
       qf_numeric_value := d_of_Z (-42); qf_string_value := None; qf_bool_value := false |}];
     qu_filter_count := 1; qu_from_ms := 0; qu_to_ms := 0; qu_limit := 0 |}.

Lemma doc_matches_query_spec_witness :
  zdb_doc_matches_query sim_doc sim_query = true ∧ doc_satisfies sim_doc sim_query.
Proof.
  split; [vm_compute; reflexivity|].
  apply (doc_matches_query_spec sim_doc sim_query sim_doc_ok); [|vm_compute; reflexivity].
  constructor; [|constructor]. split; vm_compute; [reflexivity|discriminate].
Defined.

Lemma doc_query_answers_witness :
  let w := sim_doc_w {[sim_path := doc_bytes sim_doc]} in
  let r := zdb_doc_query (Some the_db) (Some sim_query) true (Some 4) w in
  map md_document_id r.1.1.2 = [Some sim_id] ∧ Forall (reported sim_cfg sim_query w) r.1.1.2 ∧
  ∃ found, answers_all sim_cfg sim_query true 4 w found r.1.1.1 r.1.1.2 r.1.2.
Proof.
  cbv zeta. split; [vm_compute; reflexivity|].
  destruct (doc_query_answers sim_cfg sim_query true 4 (sim_doc_w {[sim_path := doc_bytes sim_doc]}))
    as [(H & _) Hall];
    [reflexivity|vm_compute; split; [discriminate|reflexivity]|].
  split; [exact H|]. apply Hall; apply _.
Defined.
