(* ===== verification/ExportProps.v ===== *)
(** * The properties of FlatBuffers export

    And an instance of [Flatcc] for their witness that computes: references
    count the objects made, and a buffer is a tag and the parts of its value in
    order. Nothing fails in it. *)

From S2P Require Import Prelude Config Env Types FsEnv Cursor Doc DocFile Export DocSpec ExportSpec.
From S2P Require Import Sim SimFs SimData.

(** ** A builder that computes *)

Record sim_fb := SimFb {
  sb_live : bool;
  sb_objects : list fb_value;
  sb_open : list fb_frame;
  sb_root : option fb_value;
}.

Definition sim_tag (n : nat) : byte := default Byte.x00 (Byte.of_nat n).

Fixpoint sim_buffer (v : fb_value) : list byte :=
  match v with
  | FbString s => sim_tag 1 :: s
  | FbBytes d => sim_tag 2 :: d
  | FbStruct d => sim_tag 3 :: d
  | FbTable slots => sim_tag 4 :: flat_map (λ '(i, s), sim_tag i :: sim_slot_bytes s) slots
  | FbVector elems => sim_tag 5 :: flat_map sim_buffer elems
  end
with sim_slot_bytes (s : fb_slot) : list byte :=
  match s with
  | FbScalar d => d
  | FbOffset v => sim_buffer v
  end.

Definition sim_object (b : sim_fb) (r : Z) : option fb_value :=
  if (0 <? r)%Z then sb_objects b !! (Z.to_nat r - 1) else None.

(** A new object, with what is left open. *)
Definition sim_made (v : fb_value) (rest : list fb_frame) (b : sim_fb) : Z * sim_fb :=
  (Z.of_nat (S (length (sb_objects b))), SimFb (sb_live b) (sb_objects b ++ [v]) rest (sb_root b)).

Definition sim_opens (frames : list fb_frame) (b : sim_fb) : sim_fb :=
  SimFb (sb_live b) (sb_objects b) frames (sb_root b).

Definition sim_add (id : nat) (s : option fb_slot) (b : sim_fb) : bool * sim_fb :=
  match sb_open b, s with
  | FbOpenTable n slots :: rest, Some s =>
      (id <? n, sim_opens (FbOpenTable n (slots ++ [(id, s)]) :: rest) b)
  | FbOpenTable n _ :: _, None => (id <? n, b)
  | _, _ => (false, b)
  end.

#[global] Instance sim_Flatcc : Flatcc sim_fb := {|
  flatcc_builder_init _ := (0%Z, SimFb true [] [] None);
  flatcc_builder_start_buffer b := (0%Z, b);
  flatcc_builder_create_string_str s b := sim_made (FbString s) (sb_open b) b;
  flatcc_builder_create_struct d b := sim_made (FbStruct d) (sb_open b) b;
  flatcc_builder_create_vector d b := sim_made (FbBytes d) (sb_open b) b;
  flatcc_builder_start_table n b := (0%Z, sim_opens (FbOpenTable n [] :: sb_open b) b);
  flatcc_builder_table_add id d := sim_add id (Some (FbScalar d));
  flatcc_builder_table_add_offset id ref b := sim_add id (FbOffset <$> sim_object b ref) b;
  flatcc_builder_end_table b :=
    match sb_open b with
    | FbOpenTable _ slots :: rest => sim_made (FbTable slots) rest b
    | rest => sim_made (FbTable []) rest b
    end;
  flatcc_builder_start_offset_vector b := (0%Z, sim_opens (FbOpenVector [] :: sb_open b) b);
  flatcc_builder_extend_offset_vector ref b :=
    match sb_open b, sim_object b ref with
    | FbOpenVector elems :: rest, Some v => (true, sim_opens (FbOpenVector (elems ++ [v]) :: rest) b)
    | _, _ => (true, b)
    end;
  flatcc_builder_end_offset_vector b :=
    match sb_open b with
    | FbOpenVector elems :: rest => sim_made (FbVector elems) rest b
    | rest => sim_made (FbVector []) rest b
    end;
  flatcc_builder_end_buffer ref b :=
    (1%Z, SimFb (sb_live b) (sb_objects b) (sb_open b) (sim_object b ref));
  flatcc_builder_get_direct_buffer b := sim_buffer <$> sb_root b;
  flatcc_builder_clear _ := SimFb false [] [] None;
  fb_live := sb_live;
  fb_object := sim_object;
  fb_open := sb_open;
  fb_root := sb_root;
  fb_encodes buf v := buf = sim_buffer v;
|}.

Lemma sim_made_object v rest b : sim_object (sim_made v rest b).2 (sim_made v rest b).1 = Some v.
Proof.
  unfold sim_object, sim_made; cbn [fst snd sb_objects]. rewrite (proj2 (Z.ltb_lt _ _)) by lia.
  rewrite Nat2Z.id. replace (S (length (sb_objects b)) - 1) with (length (sb_objects b)) by lia.
  by rewrite list_lookup_middle.
Qed.

Lemma sim_made_grows v rest b : fb_grows b (sim_made v rest b).2.
Proof.
  split; [done|]. intros r u. cbn [fb_object sim_Flatcc]. unfold sim_object, sim_made; cbn [snd sb_objects].
  destruct (0 <? r)%Z; [apply lookup_app_l_Some|done].
Qed.

Lemma sim_opens_grows frames b : fb_grows b (sim_opens frames b).
Proof. by split. Qed.

Lemma sim_add_grows id s b : fb_grows b (sim_add id s b).2.
Proof. unfold sim_add. by destruct (sb_open b) as [|[] ?], s; split. Qed.

#[local] Hint Resolve sim_made_grows sim_opens_grows sim_add_grows sim_made_object : core.

#[global] Instance sim_FlatccLaws : FlatccLaws sim_fb.
Proof.
  split; cbn [fb_live fb_object fb_open fb_root fb_encodes flatcc_builder_init
    flatcc_builder_start_buffer flatcc_builder_create_string_str flatcc_builder_create_struct
    flatcc_builder_create_vector flatcc_builder_start_table flatcc_builder_table_add
    flatcc_builder_table_add_offset flatcc_builder_end_table flatcc_builder_start_offset_vector
    flatcc_builder_extend_offset_vector flatcc_builder_end_offset_vector flatcc_builder_end_buffer
    flatcc_builder_get_direct_buffer flatcc_builder_clear sim_Flatcc]; cbv zeta;
    try (intros; split; [by auto|by auto]).
  - by left.
  - intros id d b. split; [by auto|]. unfold sim_add. intros _ n slots rest ->. done.
  - intros id ref b. split; [by auto|]. unfold sim_add. intros _ n slots rest v -> ->. done.
  - intros b. destruct (sb_open b) as [|[] ?]; (split; [by auto|]); intros _ n s r Ho; by simplify_eq.
  - intros ref b. split.
    + destruct (sb_open b) as [|[] ?], (sim_object b ref); by auto.
    + intros _ elems rest v -> ->. done.
  - intros b. destruct (sb_open b) as [|[] ?]; (split; [by auto|]); intros _ n r Ho; by simplify_eq.
  - intros b buf v. intros Hb Hr. rewrite Hr in Hb. by injection Hb as <-.
  - done.
Qed.

#[global] Instance sim_FlatccLive : FlatccLive sim_fb.
Proof.
  split; intros; try done.
  - cbn. unfold sim_add. rewrite (H : sb_open b = _). by apply Nat.ltb_lt.
  - cbn. unfold sim_add. rewrite (H : sb_open b = _). destruct (FbOffset <$> _); by apply Nat.ltb_lt.
  - cbn. by destruct (sb_open b) as [|[] ?].
  - cbn. by destruct (sb_open b) as [|[] ?], (sim_object b ref).
  - cbn. by destruct (sb_open b) as [|[] ?].
  - cbn. rewrite (H : sb_root b = _). cbn. destruct v; cbn; eauto.
Qed.

(** ** The properties *)

(** C40. In a build with FlatBuffers, an export of a document either hands out
    a FlatBuffer of exactly the document ([doc_tree]: its names, its timestamps
    and each field with its value in the slot of its type), or fails with size
    0, which only a field of a reserved type or a failure of the builder
    explains; a sample likewise. A buffer that is handed out is whole, its size
    is reported also without a destination, and one that is too small for it is
    left alone and reported so. Whatever happens, the builder's memory is given
    back and nothing else is written. *)
Theorem export_flatbuffer_spec {Cfg : Config} {B} `{!Flatcc B, !FlatccLaws B} d x out cap (b : B) :
  CONFIG_ZDB_FLATBUFFERS = true → CONFIG_FLATCC = true → doc_valid d = true →
  wp (zdb_doc_export_flatbuffer (Some d) out cap true) (λ r b',
    fb_live b' = false ∧
    (handed_out (doc_tree d) out cap r ∨
     r.1.1 ∈ [ZDB_ERR_UNSUPPORTED; ZDB_ERR_IO; ZDB_ERR_NOMEM] ∧ r.1.2 = Some 0 ∧ r.2 = out ∧
       explained (B := B) (doc_fields d))) b ∧
  ((out = None → cap = 0) →
   wp (zdb_ts_sample_i64_export_flatbuffer (Some x) out cap true) (λ r b',
     fb_live b' = false ∧
     (handed_out (sample_tree x) out cap r ∨
      r.1.1 ∈ [ZDB_ERR_IO; ZDB_ERR_NOMEM] ∧ r.2 = out ∧ ¬ FlatccLive B)) b).
Proof.
  intros Hf Hc Hv. split.
  - unfold zdb_doc_export_flatbuffer. rewrite Hv, Hf, Hc. cbn [negb orb andb].
    apply wp_doc_export; [by auto|]. intros st b' Hst Hl He. split; [done|right].
    split_and!; [cbn; set_solver|done..].
  - intros Hcap. unfold zdb_ts_sample_i64_export_flatbuffer. rewrite Hf, Hc. cbn [andb].
    replace (bool_decide (out = None) && (0 <? cap)) with false; cycle 1.
    { case_bool_decide as Ho; [|done]. by rewrite (Hcap Ho). }
    apply wp_sample_export; [by auto|]. intros st b' Hst Hl He. split; [done|right].
    split_and!; [cbn; set_solver|done..].
Qed.

(** The document of [SimData.v], into a buffer that is large enough. *)
Lemma export_flatbuffer_spec_witness :
  let b : sim_fb := SimFb false [] [] None in
  let out := replicate 128 Byte.x00 in
  let r := (zdb_doc_export_flatbuffer (Some sim_doc) (Some out) 128 true b).1 in
  r.1.1 = ZDB_OK ∧ handed_out (doc_tree sim_doc) (Some out) 128 r.
Proof.
  cbv zeta. split; [vm_compute; reflexivity|].
  destruct (export_flatbuffer_spec (Cfg := sim_Config) sim_doc {| ts_ms := 5; value := (-1) |} (Some (replicate 128 Byte.x00))
    128 (SimFb false [] [] None) eq_refl eq_refl eq_refl) as [[_ [Hh|(Hst & _)]] _].
  - exact Hh.
  - exfalso. revert Hst. apply (bool_decide_unpack _). vm_compute. exact I.
Defined.
