(* ===== verification/ShellProps.v ===== *)
(** * The properties of the shell

    What every command owes its caller, that values and numbers survive being
    printed and typed back, and that the key-value commands store and print
    what the store holds; the witnesses run them in the environment of
    [Sim]. *)

From S2P Require Import Prelude Config Doubles CText Env Types FsEnv Events Cursor KvFormat KvIndex Kv.
From S2P Require Import TsFormat TsStore TsSegment TsCursor TsRecover TsOps Doc DocFile DocQuery.
From S2P Require Import Core KvIndexSpec KvSpec KvLaws KvBulk.
From S2P Require Import Shell ShellKv ShellTs ShellDoc ShellTextSpec ShellSpec ShellKvSpec Sim SimFs KvProps.

(** Every command of a build: the sources of the models that are configured in
    register theirs. *)
Definition zdb_shell_commands {Cfg : Config} {CRC : Crc32} {K F FS FH DH : Type}
    `{!Kernel K, !KvBackend F, !FileSys FS FH DH} : list (shell_cmd (shell_state (world K F FS))) :=
  zdb_cmds ++
  (if CONFIG_ZDB_KV then zdb_kv_cmds else []) ++
  (if CONFIG_ZDB_TS then zdb_ts_cmds else []) ++
  (if CONFIG_ZDB_DOC then zdb_doc_cmds else []).

(** ** Text *)

(** The [hex:] lines a value is printed as, joined, are read back as that
    value by [zdb_shell_parse_hex], with or without a 0x prefix, when it is not
    empty and fits the buffer; and the parser accepts exactly the texts that
    are an even, positive number of hexadecimal digits within the buffer, which
    it then fills with their value and nothing beyond it. *)
Theorem shell_hex_roundtrip (v out : list byte) (cap : nat) :
  cap ≤ length out → v ≠ [] → length v ≤ cap →
  let text := concat (hex_lines (length v) v) in
  zdb_shell_parse_hex (Some text) out cap = (inr (length v), v ++ drop (length v) out) ∧
  zdb_shell_parse_hex (Some (s2b "0x" ++ text)) out cap = (inr (length v), v ++ drop (length v) out) ∧
  ∀ s n, (zdb_shell_parse_hex (Some s) out cap).1 = inr n ↔
    Forall is_hex (strip_0x s) ∧ length (strip_0x s) = 2 * n ∧ 0 < n ≤ cap.
Proof.
  intros Hcap Hv Hlen. cbv zeta. rewrite hex_lines_concat by done.
  assert (length v ≠ 0) as Hnz by (by destruct v).
  assert (∀ s, strip_0x s = flat_map fmt_02x v →
    zdb_shell_parse_hex (Some s) out cap = (inr (length v), v ++ drop (length v) out)) as Hparse.
  { intros s Hs. rewrite parse_hex_strip. cbv zeta. rewrite Hs, hex_loop_fmt, length_fmt_all.
    rewrite (proj2 (Nat.eqb_neq _ _)), (Nat.mul_comm 2), Nat.Div0.mod_mul, Nat.div_mul by lia.
    cbn [Nat.eqb negb orb fst snd]. by rewrite (proj2 (Nat.ltb_ge _ _)) by done. }
  split_and!; [apply Hparse, strip_0x_fmt|by apply Hparse|]. intros s n. split.
  - intros Hr. pose proof (parse_hex_spec s out cap Hcap) as [_ Hspec]. rewrite Hr in Hspec.
    destruct Hspec as (-> & Hne & Hle & _ & Hall & Hl). split_and!; try done.
    by destruct (hex_value (strip_0x s)); [|simpl; lia].
  - intros (Hall & Hl & Hn). rewrite parse_hex_strip. cbv zeta. rewrite Hl.
    rewrite (proj2 (Nat.eqb_neq _ _)), (Nat.mul_comm 2), Nat.Div0.mod_mul, Nat.div_mul by lia.
    cbn [Nat.eqb negb orb fst snd]. rewrite (proj2 (Nat.ltb_ge _ _)) by lia. cbn [fst].
    by rewrite (proj2 (hex_loop_accepts n _ Hl) Hall).
Qed.

Lemma shell_hex_roundtrip_witness :
  zdb_shell_parse_hex (Some (concat (hex_lines 3 (s2b "a0~")))) (replicate 4 nul) 4 =
  (inr 3, s2b "a0~" ++ [nul]).
Proof.
  apply (shell_hex_roundtrip (s2b "a0~") (replicate 4 nul) 4); [vm_compute; lia|discriminate|vm_compute; lia].
Defined.

(** A 64-bit number typed in decimal is read as itself, unsigned by
    [zdb_shell_parse_u64] and signed by [zdb_shell_parse_i64]; what either
    parser accepts fits its type. *)
Theorem shell_numbers_roundtrip (Cfg : Config) (n z : Z) :
  (0 ≤ n < 2 ^ 64)%Z → (- 2 ^ 63 ≤ z < 2 ^ 63)%Z →
  zdb_shell_parse_u64 (Some (dec_text n)) = inr n ∧
  zdb_shell_parse_i64 (Some (signed_text z)) = inr z ∧
  (∀ s v, zdb_shell_parse_u64 s = inr v → (0 ≤ v < 2 ^ 64)%Z) ∧
  (∀ s v, zdb_shell_parse_i64 s = inr v → (- 2 ^ 63 ≤ v < 2 ^ 63)%Z).
Proof.
  intros Hn Hz. split_and!; [by apply parse_u64_dec|by apply parse_i64_signed| |].
  - apply parse_u64_range.
  - apply parse_i64_range.
Qed.

Lemma shell_numbers_roundtrip_witness :
  zdb_shell_parse_u64 (Some (s2b "18446744073709551615")) = inr (2 ^ 64 - 1)%Z ∧
  zdb_shell_parse_i64 (Some (s2b "-9223372036854775808")) = inr (- 2 ^ 63)%Z.
Proof.
  destruct (shell_numbers_roundtrip sim_Config (2 ^ 64 - 1) (- 2 ^ 63)) as (H1 & H2 & _);
    [lia|lia|]. split; [exact H1|exact H2].
Defined.

(** ** Every command *)

(** C37. Every command of every build leaves the shell's mutex as it found it
    and the registered instance in place, and reports its result: it returns 0
    and prints no error line, or prints one error line and returns the negative
    errno that the line's status stands for, as the documentation's table says
    ([None] is a walk whose fuel is used up).
    Without a registered instance it returns -ENODEV and touches nothing. *)
Theorem shell_commands_report {Cfg : Config} {CRC : Crc32} {K F FS FH DH : Type}
    `{!Kernel K, !KvBackend F, !FileSys FS FH DH} :
  Forall (λ c, ∀ fuel argv (s : shell_state (world K F FS)),
    let r := cmd_handler c fuel argv s in
    zdb_shell_mtx r.2 = zdb_shell_mtx s ∧ zdb_shell_db r.2 = zdb_shell_db s ∧
    (∃ errs, errors r.2 = errors s ++ errs ∧ reports_opt r.1 errs) ∧
    (zdb_shell_db s = None → r.1 = Some (- ENODEV)%Z ∧ sh_w r.2 = sh_w s))
  zdb_shell_commands.
Proof.
  apply (Forall_impl well_behaved); cycle 1.
  { intros c Hc fuel argv s. destruct (Hc fuel argv) as [Hs Hu]. destruct (Hs s) as (Hm & Hd & He).
    split_and!; [exact Hm|exact Hd|exact He|apply Hu]. }
  unfold zdb_shell_commands. rewrite !Forall_app. split_and!; [apply well_zdb_cmds|..].
  - destruct CONFIG_ZDB_KV; [apply well_kv_cmds|constructor].
  - destruct CONFIG_ZDB_TS; [apply well_ts_cmds|constructor].
  - destruct CONFIG_ZDB_DOC; [apply well_doc_cmds|constructor].
Qed.

(** ** The key-value commands *)

Section kv.
Context {Cfg : Config} {CfgOk : ConfigOk Cfg} {CRC : Crc32} {K F FS : Type}.
Context `{!Kernel K, !KernelLaws K, !KvBackend F, !KvBackendLaws F}.
Abbreviation S := (shell_state (world K F FS)).

(** A shell whose instance is ready: its scratch buffer holds any value that
    fits the I/O block, of which one is free. *)
Record shell_ready (blocks : positive → nat) (sl : k_mem_slab) (s : S) : Prop := {
  sr_db : zdb_shell_db s = Some the_db;
  sr_scratch : length (zdb_shell_scratch s) = ZDB_SHELL_SCRATCH_SIZE;
  sr_block : slab_block_size sl ≤ ZDB_SHELL_SCRATCH_SIZE;
  sr_env : kv_env sl (sh_w s);
  sr_free : slab_used (w_k (sh_w s)) (slab_name sl) < blocks (slab_name sl);
}.

(** C38. [zdb kv set str|raw|hex] followed by [zdb kv get] of the same pair: a
    set that returns 0 printed the number of bytes its text stands for, the get
    then returns 0 and prints exactly these bytes, whole and not truncated, in
    hexadecimal and, when they are printable, as text; a set that fails leaves
    the value of every pair as it was. *)
Theorem shell_kv_roundtrip blocks sl enc kw kw' ns key text (s : S) :
  KvReadsOk F → LockLive K → SlabLive K blocks → shell_ready blocks sl s →
  wp (rc ← zdb_shell_kv_set enc [kw; ns; key; text];
      s1 ← mgets id;
      rc' ← cmd_zdb_kv_get [kw'; ns; key];
      ret (rc, rc', s1))
    (λ r s', if decide (r.1.1 = 0%Z) then
               r.1.2 = 0%Z ∧ sh_out s' = sh_out s ++ set_out ns key (enc_value enc text) ++
                                         get_out ns key (enc_value enc text)
             else lookups_same (sh_w s) (sh_w r.2)) s.
Proof.
  intros Hr Hlock Hslab [Hdb Hsc Hblock Henv Hfree]. destruct s as [w m d sc o]. cbn in *. subst d.
  apply wp_bind, (wp_shell_kv_set sl); [done..|].
  intros rc w1 sc1 o1 Hst1 Henv1 Hsc1 Hpost. apply wp_bind. unfold mgets, wp at 1. cbn [fst snd id].
  case_decide as Hrc; cycle 1.
  { apply wp_bind. unfold wp, ret. cbn [fst snd]. by rewrite decide_False. }
  destruct Hpost as (Hns & Hkey & -> & Hlk). apply wp_bind, (wp_shell_kv_get blocks sl); try done.
  { by rewrite (ks_slab _ _ Hst1). }
  intros rc' w2 sc2 o2 _ _ _ _ Hans. specialize (Hlk ns key). unfold kv_update in Hlk.
  rewrite bool_decide_eq_true_2 in Hlk by done. rewrite Hlk in Hans. destruct Hans as [-> ->].
  apply wp_ret. cbn [fst snd]. rewrite decide_True by done. split; [done|]. by rewrite <- app_assoc.
Qed.

(** C39. [zdb kv list] ends, returns 0, changes no value, and prints one line
    for each of the first [limit] indexed keys of the namespace that have a
    value, in the order of the index, numbered from 0, with the length of its
    value and a preview: the whole value when it has at most sixteen bytes, and
    one that begins with the first sixteen otherwise; then how many it printed,
    and whether there are more. *)
Theorem shell_kv_list_spec blocks fuel sl kw ns lim (s : S) :
  KvReadsOk F → LockLive K → SlabLive K blocks → shell_ready blocks sl s →
  zdb_key_valid (Some ns) = true → from_option (λ n, 0 ≤ n < 2 ^ 64)%Z True lim →
  is_Some (kv_ctx (w_db (sh_w s))) → kv_ctx_ok (w_db (sh_w s)) →
  Forall (λ e, en_key e ≠ [] ∧ c_string (en_key e)) (ctx_entries (w_db (sh_w s))) →
  length (ctx_entries (w_db (sh_w s))) < fuel →
  wp (cmd_zdb_kv_list fuel (kw :: ns :: limit_arg lim))
    (λ rc s', rc = Some 0%Z ∧ same_data (sh_w s) (sh_w s') ∧
       ∃ out, sh_out s' = sh_out s ++ out ∧ listing ns (limit_of lim)
         (live_pairs (w_f (sh_w s)) (ctx_entries (w_db (sh_w s))) ns) out) s.
Proof.
  intros Hr Hlock Hslab [Hdb _ _ Henv Hfree] Hns Hlim Hctx [Hmax Hok] Hes Hfuel.
  destruct s as [w m d sc o]. cbn in *. subst d.
  apply (wp_shell_kv_list blocks fuel sl); try done; cycle 1.
  { intros w' _ Hd. split_and!; [done..|]. eexists. split; [done|apply list_out_listing]. }
  apply Forall_and. split; [by eapply Forall_impl; [exact Hes|]; intros e []|].
  apply Forall_and. split; [done|]. eapply Forall_impl; [exact Hes|]. by intros e [].
Qed.
End kv.

(** ** Witnesses *)

Definition sim_shell (w : world sim_kernel sim_kv unit) : shell_state (world sim_kernel sim_kv unit) :=
  mkShell w 0 (Some the_db) (replicate ZDB_SHELL_SCRATCH_SIZE nul) [].

Lemma sim_shell_ready w :
  kv_env sim_kv_slab w → w_k w = sim_k0 → shell_ready sim_blocks sim_kv_slab (sim_shell w).
Proof. intros Hw Hk. split; [done|apply length_replicate|vm_compute; lia|done|cbn; rewrite Hk; vm_compute; lia]. Qed.

Lemma shell_kv_roundtrip_witness :
  let s := sim_shell (sim_w ∅) in
  let r := (rc ← zdb_shell_kv_set ZDB_SHELL_KV_ENC_HEX [s2b "hex"; app_ns; rate_key; s2b "0x3130"];
            s1 ← mgets id;
            rc' ← cmd_zdb_kv_get [s2b "get"; app_ns; rate_key];
            ret (rc, rc', s1)) s in
  r.1.1 = (0%Z, 0%Z) ∧
  sh_out r.2 = set_out app_ns rate_key (s2b "10") ++ get_out app_ns rate_key (s2b "10").
Proof.
  cbv zeta. split; [vm_compute; reflexivity|].
  pose proof (shell_kv_roundtrip sim_blocks sim_kv_slab ZDB_SHELL_KV_ENC_HEX (s2b "hex") (s2b "get") app_ns
    rate_key (s2b "0x3130") (sim_shell (sim_w ∅)) _ _ _
    (sim_shell_ready _ sim_env_empty eq_refl)) as H.
  unfold wp in H. cbv beta in H. rewrite decide_True in H by (vm_compute; reflexivity).
  exact (proj2 H).
Defined.

Lemma shell_kv_list_spec_witness :
  let r := cmd_zdb_kv_list 3 (s2b "list" :: app_ns :: limit_arg (Some 5%Z)) (sim_shell sim_iter_w) in
  r.1 = Some 0%Z ∧ ∃ out, sh_out r.2 = out ∧ listing app_ns 5 [(rate_key, s2b "10")] out.
Proof.
  cbv zeta.
  destruct (shell_kv_list_spec sim_blocks 3 sim_kv_slab (s2b "list") app_ns (Some 5%Z) (sim_shell sim_iter_w))
    as (Hrc & _ & out & Hout & Hl);
    [apply _|apply _|apply _|apply sim_shell_ready; [apply sim_env_f1|reflexivity]|reflexivity|cbn; lia|
     eexists; reflexivity| | |vm_compute; lia|].
  - split; [vm_compute; lia|]. apply (bool_decide_unpack _). vm_compute. exact I.
  - apply (bool_decide_unpack _). vm_compute. exact I.
  - split; [exact Hrc|]. exists out. split; [exact Hout|].
    assert (live_pairs (w_f sim_iter_w) (ctx_entries (w_db sim_iter_w)) app_ns = [(rate_key, s2b "10")]) as Hlive
      by (vm_compute; reflexivity).
    rewrite <- Hlive. exact Hl.
Defined.
