(* ===== verification/SystemProps.v ===== *)
(** * The properties of the whole instance: what holds after any program of
    calls, and what is left when it is torn down

    Their witnesses are a run of a machine with empty storage that uses all
    three stores: a pair, a stream with a record and a cursor over it, a
    document that is saved and found by a query, and then everything given
    back. *)

From stdpp Require Import gmultiset.
From S2P Require Import Prelude Config Env Types FsEnv FsSpec Events Cursor KvFormat KvIndex KvIndexSpec Kv KvSpec KvBulk.
From S2P Require Import Core CoreSpec TsFormat TsStore TsSegment TsCursor TsRecover TsOps TsSpec TsInv TsMoves TsAccount.
From S2P Require Import Doc DocFile DocQuery DocSpec DocFieldSpec DocOps DocQuerySpec System Sim SimFs SimData.

(** ** A run *)

Abbreviation sim_app := (app (K := sim_kernel) (F := sim_kv) (FS := sim_fs) (FH := sim_fh)).

Definition sim_boot : world sim_kernel sim_kv sim_fs := mkWorld sim_db sim_k0 ∅ ∅ [].

Lemma sim_bootable : bootable sim_cfg sim_kv_slab sim_boot.
Proof.
  split; [done| |apply _|by eexists|by eexists|done| |done|].
  - apply (bool_decide_unpack _). by vm_compute.
  - intros id d. simpl. by rewrite lookup_empty.
  - repeat constructor; simpl; done || lia.
Qed.

Definition sim_ns : cstring := s2b "n".
Definition sim_no_cursor : zdb_cursor_t sim_fh :=
  {| cu_model := ZDB_MODEL_CORE; cu_backend := ZDB_BACKEND_NONE; cu_flags := 0; iter_count := 0;
     cu_position := 0; cu_current := None; cu_predicate := None; cu_impl := None |}.
Definition sim_all_docs : zdb_doc_query_t :=
  {| qu_filters := None; qu_filter_count := 0; qu_from_ms := 0; qu_to_ms := 0; qu_limit := 0 |}.
Definition sim_cursor (a : sim_app) : zdb_cursor_t sim_fh := default sim_no_cursor (head (ap_cursors a)).
Definition sim_open_doc (a : sim_app) : zdb_doc_t := default sim_no_doc (head (ap_docs a)).

(** The calls, one after the other: each state and how it comes from the one
    before. *)
Definition sim_a0 : sim_app := app_start (zdb_init (Some the_db) (Some sim_cfg) sim_boot).2.
Definition sim_a1 : sim_app := run (zdb_kv_set (kv_handle sim_ns) (Some (s2b "k")) (Some (s2b "v")) 1) sim_a0.
Definition sim_a2 : sim_app :=
  let call := zdb_ts_open (Some the_db) (Some sim_name) (Some {| ts_db := None; ts_stream_name := None |}) in
  (run call sim_a1) <| ap_streams ::= λ hs, stream_of (result call sim_a1).2 ⊎ hs |>.
Definition sim_a3 : sim_app := run (zdb_ts_append_i64 (handle sim_name) (Some (sim_sample 0))) sim_a2.
Definition sim_a4 : sim_app :=
  let call := zdb_ts_cursor_open_dir (handle sim_name) ZDB_TS_WINDOW_ALL None false (Some sim_no_cursor) in
  (run call sim_a3) <| ap_cursors ::= λ l, cursor_of (result call sim_a3).2 ++ l |>.
Definition sim_next : M (world sim_kernel sim_kv sim_fs)
    (option (zdb_status_t * option (list byte) * option (zdb_cursor_t sim_fh))) :=
  zdb_cursor_next 10 (Some (sim_cursor sim_a4)) true.
Definition sim_a5 : sim_app :=
  (run sim_next sim_a4) <| ap_cursors ::= λ l,
    cursor_of (default (ZDB_OK, None, None) (result sim_next sim_a4)).2 ++ delete 0 l |>.
Definition sim_a6 : sim_app :=
  let call := zdb_doc_create (Some the_db) (Some sim_coll) (Some sim_id) (Some sim_no_doc) in
  (run call sim_a5) <| ap_docs ::= λ l, doc_of (result call sim_a5) ++ l |>.
Definition sim_a7 : sim_app :=
  let call := run_write (sim_open_doc sim_a6) (s2b "n") (Write_i64 5) in
  (run call sim_a6) <| ap_docs ::= λ l, default (sim_open_doc sim_a6) (result call sim_a6).2 :: delete 0 l |>.
Definition sim_a8 : sim_app :=
  let call := zdb_doc_save (Some (sim_open_doc sim_a7)) in
  (run call sim_a7) <| ap_docs ::= λ l, default (sim_open_doc sim_a7) (result call sim_a7).2 :: delete 0 l |>.
Definition sim_a9 : sim_app :=
  let call := zdb_doc_query (Some the_db) (Some sim_all_docs) true (Some 4) in
  (run call sim_a8) <| ap_results ::= λ l, (result call sim_a8).1.2 :: l |>.
Definition sim_a10 : sim_app :=
  (run (zdb_doc_close (Some (sim_open_doc sim_a9))) sim_a9) <| ap_docs ::= λ l, delete 0 l |>.
Definition sim_found : list zdb_doc_metadata_t := default [] (head (ap_results sim_a10)).
Definition sim_a11 : sim_app :=
  (run (zdb_doc_metadata_free (Some sim_found) (length sim_found)) sim_a10) <| ap_results ::= λ r, delete 0 r |>.
Definition sim_a12 : sim_app :=
  let call := zdb_cursor_close (Some (sim_cursor sim_a11)) in
  (run call sim_a11) <| ap_cursors ::= λ l, cursor_of (result call sim_a11).2 ++ delete 0 l |>.

(** The run is one of [app_step]. *)
Lemma sim_reached9 : reached sim_cfg sim_boot sim_a9.
Proof.
  unfold reached. change (app_start _) with sim_a0.
  apply (rtc_l _ _ sim_a1); [apply (call_kv_set sim_a0); simpl; lia|].
  apply (rtc_l _ _ sim_a2).
  { apply (call_ts_open sim_a1). intros n _. change (ap_streams sim_a1) with (∅ : gmultiset cstring).
    rewrite multiplicity_empty. lia. }
  apply (rtc_l _ _ sim_a3); [apply (call_ts_append sim_a2)|].
  apply (rtc_l _ _ sim_a4); [apply (call_cursor_open sim_a3); reflexivity|].
  apply (rtc_l _ _ sim_a5); [apply (call_cursor_next sim_a4 0); vm_compute; reflexivity|].
  apply (rtc_l _ _ sim_a6); [apply (call_doc_create sim_a5); [apply sim_coll_string|apply sim_id_string]|].
  apply (rtc_l _ _ sim_a7).
  { apply (call_doc_field_set sim_a6 0); [vm_compute; reflexivity|apply (bool_decide_unpack _); vm_compute; exact I|simpl; lia]. }
  apply (rtc_l _ _ sim_a8); [apply (call_doc_save sim_a7 0); vm_compute; reflexivity|].
  apply (rtc_l _ _ sim_a9); [apply (call_doc_query sim_a8); simpl; lia|].
  apply rtc_refl.
Qed.

Lemma sim_reached12 : reached sim_cfg sim_boot sim_a12.
Proof.
  unfold reached. transitivity sim_a9; [exact sim_reached9|].
  apply (rtc_l _ _ sim_a10); [apply (call_doc_close sim_a9 0); vm_compute; reflexivity|].
  apply (rtc_l _ _ sim_a11); [apply (call_doc_metadata_free sim_a10 0); vm_compute; reflexivity|].
  apply (rtc_l _ _ sim_a12); [apply (call_cursor_close sim_a11 0); vm_compute; reflexivity|].
  apply rtc_refl.
Qed.

(** ** The properties *)

Section props.
Context {Cfg : Config} {CfgOk : ConfigOk Cfg} {K F FS FH DH : Type}.
Context `{!Kernel K, !KernelLaws K, !KvBackend F, !KvBackendLaws F}.
Context `{!FileSys FS FH DH, !FileSysLaws FS FH DH}.
Context {CRC : Crc32} {CRCLaws : Crc32Laws}.
Abbreviation W := (world K F FS).
Implicit Types (w : W) (a : app (K := K) (F := F) (FS := FS) (FH := FH)).

(** C1. Whatever program of calls is run on an initialised instance (of the
    key-value store, streams, cursors, documents and queries, in any order and
    with any results, with runs of the work queue and changes of the volume in
    between), between two calls: the instance is unlocked and keeps its
    configuration; the index is within its bounds, every stream slot in use has
    its own name and a buffer that is filled no further than it is long, and
    every stream counts at least the handles the program holds on it; every cursor and
    document the program holds is sound; and every block in use is accounted
    for: on the heap by the index, the documents and the query results, on the
    slabs by the time-series context, its buffers and the open cursors, but for
    one cursor block at most per aggregate query that failed. *)
Theorem system_invariant c sl w0 a :
  bootable c sl w0 → reached c w0 a →
  let w := ap_w a in
  cfg (w_db w) = Some c ∧ lock_depth (w_k w) = 0 ∧
  kv_ctx_ok (w_db w) ∧ ctx_ok (ts_ctx (w_db w)) ∧
  (∀ name, name ∈ ap_streams a → counted (ts_ctx (w_db w)) name (multiplicity name (ap_streams a))) ∧
  Forall owned_cursor (ap_cursors a) ∧ Forall doc_ok (ap_docs a) ∧
  heap_used (w_k w) = heap_used (w_k w0) + ctx_blocks (w_db w) + app_blocks a ∧
  ∃ lost, lost ≤ ap_failed a ∧ ∀ s, slab_used (w_k w) s = slab_used (w_k w0) s + ts_held (w_db w) s +
    (length (ap_cursors a) + lost) * opt_frees 1 (cursor_slab (w_db w)) s.
Proof.
  intros Hb Hr. destruct (reached_ok _ _ _ _ Hb Hr) as [Hc Hd (lost & Hl & [])].
  cbv zeta. split_and!; try done.
  exists lost. split; [done|]. intros s. specialize (sy_slack s). unfold slack in sy_slack. lia.
Qed.

(** C2. The memory of a lifetime is given back: after any program of calls that
    has closed its cursors and documents and released its query results,
    whether or not it closed its streams, [zdb_deinit] leaves the heap as it was
    before [zdb_init], and every slab too, but for one cursor block at most per
    aggregate query of the program that failed: exactly, where none did. It
    succeeds, leaves the instance unlocked, announces one
    [ZDB_CORE_EVENT_DEINIT] to the listeners of that time and unbinds them, and
    keeps the stored pairs; where the program holds no stream, it keeps the
    files too. *)
Theorem system_releases c sl w0 a :
  bootable c sl w0 → reached c w0 a → CONFIG_ZDB_EVENTING = true →
  ap_cursors a = [] → ap_docs a = [] → ap_results a = [] →
  wp (zdb_deinit (Some the_db)) (λ st w',
    st = ZDB_OK ∧ lock_depth (w_k w') = 0 ∧
    heap_used (w_k w') = heap_used (w_k w0) ∧
    (∃ lost, lost ≤ ap_failed a ∧ ∀ s, slab_used (w_k w') s =
       slab_used (w_k w0) s + lost * opt_frees 1 (cursor_slab (w_db (ap_w a))) s) ∧
    zdb_health (Some the_db) w' = (ZDB_HEALTH_FAULT, w') ∧
    core_event_listeners (w_db w') = None ∧ event_listeners (w_db w') = None ∧
    w_f w' = w_f (ap_w a) ∧ (ap_streams a = ∅ → w_fs w' = w_fs (ap_w a)) ∧
    ∃ e, ce_type e = ZDB_CORE_EVENT_DEINIT ∧ ce_status e = ZDB_OK ∧
      w_log w' = w_log (ap_w a) ++ deliveries false (core_event_listeners (w_db (ap_w a))) (EvCore e))
    (ap_w a).
Proof.
  intros Hb Hr HE Hcur Hdocs Hres.
  destruct (reached_ok _ _ _ _ Hb Hr) as [_ _ (lost & Hl & [])].
  destruct sy_core as [cs Hcs]. eapply wp_mono; [by apply (wp_deinit cs); [|apply Hb|]|].
  intros st w' (Hst & _ & _ & Hh & Hce & He & Hf & Hfs & Hlk & Hheap & Hslab & Hlog).
  split_and!; try done.
  - congruence.
  - rewrite Hheap, sy_heap. unfold app_blocks. rewrite Hdocs, Hres. simpl. lia.
  - exists lost. split; [done|]. intros s. rewrite Hslab. specialize (sy_slack s). unfold slack, ts_held in sy_slack.
    rewrite Hcur, Hcs in sy_slack. simpl in sy_slack.
    destruct (ts_ctx (w_db (ap_w a))), (ts_ingest_slab (w_db (ap_w a))); simpl in *; lia.
  - destruct Hlog as (e & ? & ? & Hlog). exists e. split_and!; [done..|].
    by rewrite Hlog, k_mutex_owned_law, sy_lock.
Qed.
End props.

(** In the middle of the run of this file the program holds a stream, an open
    cursor, a document of four blocks and a query result of two, and the index
    is loaded. *)
Lemma system_invariant_witness :
  (sim_name ∈ ap_streams sim_a9 ∧ length (ap_cursors sim_a9) = 1 ∧ app_blocks sim_a9 = 6) ∧
  let w := ap_w sim_a9 in
  counted (ts_ctx (w_db w)) sim_name (multiplicity sim_name (ap_streams sim_a9)) ∧
  heap_used (w_k w) = 0 + 1 + 6 ∧ slab_used (w_k w) 2 = 0 + 0 + (1 + 0) * 1.
Proof.
  assert (sim_name ∈ ap_streams sim_a9) as Hin by (apply (bool_decide_unpack _); vm_compute; exact I).
  split; [split; [exact Hin|split; vm_compute; reflexivity]|]. cbv zeta.
  destruct (system_invariant sim_cfg sim_kv_slab sim_boot sim_a9 sim_bootable sim_reached9)
    as (_ & _ & _ & _ & Hcount & _ & _ & Hheap & lost & Hlost & Hslab).
  split; [exact (Hcount _ Hin)|]. assert (lost = 0) as -> by (revert Hlost; vm_compute; lia).
  split; [rewrite Hheap; vm_compute; reflexivity|rewrite Hslab; vm_compute; reflexivity].
Defined.

(** At its end everything is given back but the stream. *)
Lemma system_releases_witness :
  sim_name ∈ ap_streams sim_a12 ∧ ap_failed sim_a12 = 0 ∧
  let w' := (zdb_deinit (Some the_db) (ap_w sim_a12)).2 in
  heap_used (w_k w') = 0 ∧ (∀ s, slab_used (w_k w') s = slab_used (w_k sim_boot) s).
Proof.
  assert (ap_failed sim_a12 = 0) as Hfail by (vm_compute; reflexivity).
  split; [apply (bool_decide_unpack _); vm_compute; exact I|]. split; [exact Hfail|]. cbv zeta.
  destruct (system_releases sim_cfg sim_kv_slab sim_boot sim_a12 sim_bootable sim_reached12)
    as (_ & _ & Hheap & (lost & Hlost & Hslab) & _); [vm_compute; reflexivity..|].
  split; [exact Hheap|]. intros s. rewrite Hfail in Hlost. rewrite Hslab. destruct lost; [simpl; lia|lia].
Defined.
